(* ===== verification/_CoqProject ===== *)
-Q . S2P
Prelude.v
Protocol.v
CString.v
Utils.v
Heap.v
Session.v
SessionSpec.v
SessionSimulation.v
TimerWheel.v
TimerWheelSpec.v
ThreadPool.v
ThreadPoolSpec.v
Database.v
DatabasePool.v
DatabasePoolSpec.v
Dao.v
Tables.v
DatabaseDemo.v
DaoSpec.v
HandlerBasic.v
HandlerBasicSpec.v
Files.v
HandlerTransfer.v
HandlerTransferSpec.v
HandlerTransferFlow.v
UploadSteps.v
UploadStepsSpec.v
UploadConcurrent.v
UploadRace.v
HandlerEvent.v
HandlerEventSpec.v
ServerSpec.v
ClientTransfer.v
ClientTransferSpec.v
TransferEndToEnd.v
ClientRuntime.v
TransferManager.v
TransferSystem.v
TransferManagerSpec.v
TransferReturn.v
TransferSystemSpec.v
ClientCommand.v
ClientCommandSpec.v
Ini.v
IniSpec.v
ClientConfig.v
ServerConfig.v
ConfigSpec.v
Connection.v
ConnectionSpec.v
Log.v
ClientMain.v
ClientMainSpec.v
Display.v
ServerMain.v
ServerMainSpec.v
