(* ===== verification/Prelude.v ===== *)
(** * Cloud Drive Demo: a verification development (root file)

    ** The program

    The repository is a cloud drive in C: a server ([src/server]) that keeps users,
    directories and reference-counted files in MySQL and the contents in a
    directory named by their SHA-256, a client ([src/client]) with a command line and
    background transfers, and common code ([src/common]).  Paths below are relative
    to the repository.

    Client and server exchange TLV packets over TCP ([common/protocol.c]).  On the
    server one thread runs an event loop ([server/main.c], [server/handler_event.c]):
    it accepts connections, receives a packet, authorizes its session
    ([server/session.c]) and hands the request, and with it the ownership of the
    connection, to a worker of the thread pool ([server/thread_pool.c]); idle
    connections are closed by a timer wheel ([server/timer_wheel.c]).  Workers run the
    handlers ([server/handler_basic.c], [server/handler_transfer.c]), which reach the
    tables through the data-access functions ([server/dao_*.c]) on pooled connections
    ([server/database_pool.c]).  The client's main thread logs in, executes commands
    on the control connection ([client/user_auth.c], [client/command.c]) and submits
    transfers, each of which runs in a thread of its own ([client/transfer.c]).

    ** The files

    Each component has a file with its definitions and, where the properties are
    long, a second file [...Spec] with its theorems.

    - [Prelude]: the monad [outcome] of C computations (result, undefined behaviour,
      no return), machine integers, bytes, tactics and hints.
    - [CString], [Heap], [Files]: the C library's string functions; pointers as
      addresses of finite maps with chains of [next] fields and the fuelled loops
      over them; regular files as paths, inodes and contents with a script of kernel
      answers, [write_n] and the SHA-256 of a file.
    - [Protocol] ([common/protocol.c], all of it) and [Utils] ([common/utils.c]).
    - [Session], [SessionSpec], [SessionSimulation] ([server/session.c]): the pointer
      structure of the table, the abstract table that it refines, and the simulation
      of whole histories.
    - [TimerWheel], [TimerWheelSpec] ([server/timer_wheel.c]): doubly linked slots and
      hash buckets, refining a map from descriptors to deadlines.
    - [ThreadPool], [ThreadPoolSpec] ([server/thread_pool.c]): workers and producers as
      a step relation over the critical sections, with the waiting sets of the
      condition variables.
    - [Database], [DatabaseDemo], [Tables]: the MySQL client as the class [MySQL], its
      documented behaviour on this program's statements as the class [MySQLSpec]
      (with an AUTO_INCREMENT counter for each table, and a result set that may be
      NULL), the assumption that the client library can store its result sets as
      [MySQLStored] and that of a server that stays up, for values in the range of
      their columns, as [MySQLUp]; an executable instance that satisfies them, and
      the invariant of the rows.
    - [DatabasePool], [DatabasePoolSpec] ([server/database_pool.c]); [Dao], [DaoSpec]
      ([server/dao_basic.c], [dao_auth.c], [dao_transfer.c]).
    - [HandlerBasic], [HandlerBasicSpec] ([server/handler_basic.c]); [HandlerTransfer],
      [HandlerTransferSpec], [HandlerTransferFlow] ([server/handler_transfer.c]).
    - [UploadSteps], [UploadStepsSpec], [UploadConcurrent], [UploadRace]: uploads cut at
      their system calls, that the steps are the handler, any number of workers and
      removals interleaved over one store, and the interleavings that break it.
    - [HandlerEvent], [HandlerEventSpec], [ServerSpec] ([server/handler_event.c], the
      loop of [server/main.c], and the whole server as a transition system).
    - [ClientTransfer], [ClientTransferSpec] (the bodies of transfers,
      [client/transfer.c]); [TransferEndToEnd]: a client and a server that read what
      the other sends.
    - [ClientRuntime] ([client/runtime.c]); [TransferManager], [TransferManagerSpec],
      [TransferSystem], [TransferReturn], [TransferSystemSpec] (the manager and the
      threads of [client/transfer.c], and that a transfer whose connection is shut
      down returns); [ClientCommand], [ClientCommandSpec] ([client/command.c],
      [client/user_auth.c], a turn of the loop of [client/main.c]).
    - [Ini], [IniSpec] ([third_party/inih/ini.c]); [ClientConfig], [ServerConfig],
      [ConfigSpec] ([client/config.c], [server/config.c]); [Connection],
      [ConnectionSpec] ([client/connection.c], [server/network.c]); [Log]
      ([common/log.c]); [Display] ([common/tui.c], the texts of [client/menu.c]).
    - [ClientMain], [ClientMainSpec] ([client/main.c]); [ServerMain],
      [ServerMainSpec] ([server/main.c], [server/database.c]): the two programs from
      their arguments to their exit.

    Functions keep their names.  An out-parameter is a component of the result; a
    return value of 0 or -1 whose output is only read on success is an [option];
    a function whose critical sections interleave with other threads is split at
    its [lock] and [unlock] calls, and a long function at the blocks of its body.

    ** What the theorems show

    - Protocol: a packet reported as sent is received unchanged whatever the
      fragmentation; reception from an arbitrary peer is memory safe and bounded.
    - Session table, timer wheel: refinement of the abstract table and map by the
      pointer code, memory safety, invariants of all histories; authorization only
      ever returns the user for whom the session was created; an idle connection
      expires neither early nor late.
    - Thread pool, connection pool: first-in first-out, exactly once, no lost wake-up,
      bounded queue, drained at shutdown; exclusive connections.
    - Data access and handlers: requests with short arguments in printable ASCII
      without quotes and backslashes (the others are SQL of the client's choosing) are
      answered without undefined behaviour, on every branch; transactions are atomic
      and keep the reference counts exact; registration and login agree; uploads never
      put a file in the store whose content is not its name.
    - Concurrent uploads: contents that differ never disturb each other; with equal
      contents the store can be corrupted, and a removal can take away the file of an
      acknowledged upload.
    - Server: no request reaches a worker unauthorized; a connection has exactly one
      owner; sessions are bound to open connections only.
    - Client: downloads replace their target only by what was announced; every
      accepted transfer is reported once; limits hold; stopping terminates, because it
      shuts down the connections, and a transfer returns from every state once that
      is done; commands are safe against any server; client and server agree on credentials and on the
      working directory.
    - Configuration and sockets: the reader reads back what is printed; fields stay
      within their bounds; opening a connection ends by its deadline and leaks
      nothing.
    - Programs: the client closes every control connection and reports its
      transfers before it exits, whatever happens; the server releases what its start
      acquired on every path, stopping the workers before the tables they use, but
      leaves client connections open and closes the epoll descriptor too early.
    - End to end: what was uploaded is downloaded byte for byte, if a byte that
      [handle_gets] does not initialise is NUL; otherwise the handler is undefined.

    ** Bounds and fuel

    Machine integers are integers with their wrap-around written out.  Loops over
    linked lists have the number of allocated nodes as fuel: a longer walk would
    visit a node twice.  Loops over sockets and files recurse on the script of
    kernel answers or carry the number of remaining bytes as fuel, enough because
    every turn that does not end the loop consumes an answer or a byte.  Where fuel
    runs out the result is [NoReturn], which the theorems exclude or which stands
    for a call that the kernel never answers; total correctness is proved as such,
    with the result as an equation.

    A script of kernel answers (for [send], [recv], [read], [write], [malloc],
    [clock_gettime], [pthread_create] and the like) is an argument, and theorems
    quantify over it.  SHA-256, the host's byte order and MySQL are parameters with
    classes; their witnesses use concrete instances.

    Threads interleave at the critical sections of the mutexes and at the calls
    between them.  Cancellation of a transfer is a number of operations after which
    the flag is seen ([cl_cancel]); [shutdown] ends the script of what a connection
    receives and makes a [send] fail ([shut_down]).  A transfer is one step of
    [TransferSystem], with its own state; that it returns is proved of the function
    itself, in [TransferReturn].  In [UploadConcurrent] the workers of the server
    interleave at their system calls on shared files; one [write_n], one database
    function and the checks of a request are single steps.  The file systems of
    concurrent transfers of the client are not shared in [TransferSystem], and [Files] has no directories: [mkdir_p] is
    modelled in [Utils] over an abstract file system.  In [ClientMain] and
    [ServerMain] the other threads act between the turns of the main thread, as
    functions on the shared state that keep its invariant.

    ** Not modelled

    - The calls of the log ([common/log.c]) and of the display ([common/tui.c]) in
      other functions: they only write.  What they write is modelled by itself.
    - [server/event_handler.c]: the Makefile does not build it, and it cannot be
      compiled, since it includes headers and calls functions that do not exist.
    - The test programs, and the code that other options of [third_party/inih] select.
    - The one-line wrappers of system calls.
    - The other processes: MySQL, OpenSSL and the kernel are answers or parameters.
    - A number outside [int] in the server's configuration: [atoi] is taken as the GNU
      C library defines it.  A path that names no regular file is refused by the client
      when it is opened, where the code opens it and looks at its type. *)

From Stdlib Require Export ZArith Lia.
From Stdlib Require Import Strings.Byte.
From stdpp Require Export base strings option gmap list.

#[global] Open Scope Z_scope.

(** ** Scope of the development's own notations *)

Declare Scope cdd_scope.
Delimit Scope cdd_scope with cdd.

(** ** Outcome of a C computation

    [Ret a] is a normal return.  [Undef] stands for undefined behaviour (a NULL
    or dangling dereference, an out-of-bounds access).  [NoReturn] stands for a
    call that never comes back: a loop that exhausts every bound the model
    gives it, or a blocking system call that the kernel never answers. *)
Inductive outcome (A : Type) : Type :=
| Ret (a : A)
| Undef
| NoReturn.
Arguments Ret {A} a.
Arguments Undef {A}.
Arguments NoReturn {A}.

#[global] Instance outcome_ret : MRet outcome := fun A a => Ret a.
#[global] Instance outcome_bind : MBind outcome := fun A B f m =>
  match m with
  | Ret a => f a
  | Undef => Undef
  | NoReturn => NoReturn
  end.

(** Reading an optional value where C would dereference a pointer. *)
Definition deref {A} (o : option A) : outcome A :=
  match o with
  | Some a => Ret a
  | None => Undef
  end.

(** A call that does not fail: if it returns, the result satisfies [Q]. *)
Definition safely {A} (o : outcome A) (Q : A -> Prop) : Prop :=
  match o with
  | Ret a => Q a
  | Undef => False
  | NoReturn => True
  end.

(** ** Machine integers *)

Definition u32_mod : Z := 2 ^ 32.
Definition u64_mod : Z := 2 ^ 64.
Definition int_max : Z := 2 ^ 31 - 1.

(** Conversion to [uint32_t], [uint64_t] (and [size_t], 64 bits wide). *)
Definition u32 (z : Z) : Z := z mod u32_mod.
Definition u64 (z : Z) : Z := z mod u64_mod.

Definition is_u32 (z : Z) : Prop := 0 <= z < u32_mod.
Definition is_u64 (z : Z) : Prop := 0 <= z < u64_mod.
(** A file descriptor accepted by the [fd < 0] guards. *)
Definition is_fd (z : Z) : Prop := 0 <= z <= int_max.

(** ** Bytes *)

#[global] Instance byte_eq_decision : EqDecision byte := Byte.byte_eq_dec.

#[global] Program Instance byte_countable : Countable byte := {|
  encode b := encode (Byte.to_N b);
  decode p := n ← decode p; Byte.of_N n
|}.
Next Obligation. intros b. cbn beta. rewrite (decode_encode (Byte.to_N b)). apply Byte.of_to_N. Qed.

Definition byte_val (b : byte) : Z := Z.of_N (Byte.to_N b).
Definition byte_of (z : Z) : byte :=
  match Byte.of_N (Z.to_N (z mod 256)) with
  | Some b => b
  | None => x00
  end.

(** A C string literal. *)
Definition lit (s : string) : list byte := String.list_byte_of_string s.

(** Little-endian image of the low [n] bytes of [v], and its inverse. *)
Fixpoint bytes_le (n : nat) (v : Z) : list byte :=
  match n with
  | O => []
  | S n' => byte_of v :: bytes_le n' (v / 256)
  end.

Fixpoint val_le (l : list byte) : Z :=
  match l with
  | [] => 0
  | b :: l' => byte_val b + 256 * val_le l'
  end.

(** ** Tactics *)

(** Case analysis on every [match]/[if] of the goal or of a hypothesis, closing
    the impossible branches. *)
Ltac split_match :=
  repeat (case_match; simplify_eq/=; try done).

(** Turn boolean comparisons on [Z] into propositions. *)
Ltac zbool :=
  repeat match goal with
  | H : (_ <? _) = true |- _ => apply Z.ltb_lt in H
  | H : (_ <? _) = false |- _ => apply Z.ltb_ge in H
  | H : (_ <=? _) = true |- _ => apply Z.leb_le in H
  | H : (_ <=? _) = false |- _ => apply Z.leb_gt in H
  | H : (_ =? _) = true |- _ => apply Z.eqb_eq in H
  | H : (_ =? _) = false |- _ => apply Z.eqb_neq in H
  | H : (_ && _)%bool = true |- _ => apply andb_prop in H as [? ?]
  | H : (_ || _)%bool = false |- _ => apply orb_false_elim in H as [? ?]
  | H : negb _ = true |- _ => apply negb_true_iff in H
  | H : negb _ = false |- _ => apply negb_false_iff in H
  | H : bool_decide _ = true |- _ => apply bool_decide_eq_true_1 in H
  | H : bool_decide _ = false |- _ => apply bool_decide_eq_false_1 in H
  end.

Create HintDb cdd.

(** ** Lemmas on outcomes *)

Lemma bind_Ret_inv {A B} (m : outcome A) (f : A -> outcome B) b :
  (m ≫= f) = Ret b -> exists a, m = Ret a /\ f a = Ret b.
Proof. destruct m as [a | |]; simpl; [eauto | done | done]. Qed.

Lemma Ret_inj {A} (a b : A) : Ret a = Ret b -> a = b.
Proof. by intros [= ->]. Qed.

Lemma safely_bind {A B} (m : outcome A) (f : A -> outcome B) Q :
  safely m (fun a => safely (f a) Q) -> safely (m ≫= f) Q.
Proof. by destruct m. Qed.
Lemma safely_mono {A} (o : outcome A) (Q Q' : A -> Prop) : (forall a, Q a -> Q' a) -> safely o Q -> safely o Q'.
Proof. destruct o; simpl; auto. Qed.
Lemma safely_intro {A} (o : outcome A) (Q : A -> Prop) : o <> Undef -> (forall a, o = Ret a -> Q a) -> safely o Q.
Proof. destruct o; simpl; auto. Qed.
Lemma deref_Ret_inv {A} (o : option A) a : deref o = Ret a -> o = Some a.
Proof. destruct o; simpl; congruence. Qed.

(** ** Lemmas on bytes *)

Lemma byte_val_range b : 0 <= byte_val b < 256.
Proof. unfold byte_val. pose proof (Byte.to_N_bounded b). lia. Qed.

Lemma byte_of_val b : byte_of (byte_val b) = b.
Proof.
  unfold byte_of. pose proof (byte_val_range b).
  rewrite Z.mod_small by lia. unfold byte_val.
  by rewrite N2Z.id, Byte.of_to_N.
Qed.

Lemma byte_of_cong x y : x mod 256 = y mod 256 -> byte_of x = byte_of y.
Proof. unfold byte_of. by intros ->. Qed.

Lemma byte_val_of z : byte_val (byte_of z) = z mod 256.
Proof.
  unfold byte_of, byte_val. pose proof (Z.mod_pos_bound z 256 ltac:(lia)).
  destruct (Byte.of_N (Z.to_N (z mod 256))) as [b |] eqn:E.
  - apply Byte.to_of_N in E. rewrite E. lia.
  - apply Byte.of_N_None_iff in E. lia.
Qed.

Lemma length_bytes_le n v : length (bytes_le n v) = n.
Proof. revert v. induction n as [| n IH]; intros v; simpl; [done | by rewrite IH]. Qed.

Lemma val_le_range l : 0 <= val_le l < 2 ^ (8 * Z.of_nat (length l)).
Proof.
  induction l as [| b l IH]; cbn [val_le length]; [done |].
  pose proof (byte_val_range b).
  replace (8 * Z.of_nat (S (length l))) with (8 + 8 * Z.of_nat (length l)) by lia.
  rewrite Z.pow_add_r by lia. change (2 ^ 8) with 256. lia.
Qed.

Lemma val_le_bytes_le n v : val_le (bytes_le n v) = v mod 2 ^ (8 * Z.of_nat n).
Proof.
  revert v. induction n as [| n IH]; intros v; cbn [val_le bytes_le].
  - by rewrite Z.mod_1_r.
  - rewrite IH, byte_val_of.
    replace (8 * Z.of_nat (S n)) with (8 + 8 * Z.of_nat n) by lia.
    rewrite Z.pow_add_r by lia. change (2 ^ 8) with 256.
    rewrite Z.rem_mul_r by (try apply Z.pow_pos_nonneg; lia). done.
Qed.

Lemma bytes_le_val_le l : bytes_le (length l) (val_le l) = l.
Proof.
  induction l as [| b l IH]; cbn [val_le bytes_le length]; [done |].
  pose proof (byte_val_range b). f_equal.
  - rewrite <- (byte_of_val b) at 2. apply byte_of_cong.
    by rewrite Z.mul_comm, Z_mod_plus_full.
  - replace ((byte_val b + 256 * val_le l) / 256) with (val_le l); [done |].
    rewrite Z.mul_comm, Z.div_add by lia. rewrite Z.div_small by lia. lia.
Qed.

Lemma val_le_app l1 l2 :
  val_le (l1 ++ l2) = val_le l1 + 2 ^ (8 * Z.of_nat (length l1)) * val_le l2.
Proof.
  induction l1 as [| b l1 IH]; cbn [app val_le length]; [lia |].
  rewrite IH. replace (8 * Z.of_nat (S (length l1))) with (8 + 8 * Z.of_nat (length l1)) by lia.
  rewrite Z.pow_add_r by lia. change (2 ^ 8) with 256. lia.
Qed.

(** Joining two disjoint bit ranges is an addition. *)
Lemma lor_shiftl_add a b k :
  0 <= k -> 0 <= b < 2 ^ k -> Z.lor (Z.shiftl a k) b = a * 2 ^ k + b.
Proof.
  intros Hk Hb. rewrite <- Z.shiftl_mul_pow2 by lia.
  rewrite <- Z.add_lor_land.
  replace (Z.land (Z.shiftl a k) b) with 0; [lia |].
  symmetry. apply Z.bits_inj'. intros n Hn.
  rewrite Z.bits_0, Z.land_spec. destruct (Z.lt_ge_cases n k).
  - by rewrite Z.shiftl_spec_low by lia.
  - rewrite <- (Z.mod_small b (2 ^ k)) by lia.
    rewrite Z.mod_pow2_bits_high by lia. apply andb_false_r.
Qed.

(** ** Lemmas on lists *)

Lemma not_elem_of_take {A} (x : A) n l : x ∉ l -> x ∉ take n l.
Proof.
  intros Hx Hin. apply Hx. rewrite <- (take_drop n l). apply elem_of_app. by left.
Qed.

Lemma not_elem_of_drop {A} (x : A) n l : x ∉ l -> x ∉ drop n l.
Proof.
  intros Hx Hin. apply Hx. rewrite <- (take_drop n l). apply elem_of_app. by right.
Qed.
