(* ===== verification/Protocol.v ===== *)
(** * The TLV2 protocol ([src/common/protocol.c], [include/common/protocol.h])

    Wire encoding of packets, the [send]/[recv] loops over a socket whose
    kernel answers are an explicit script, packet construction, transmission,
    reception and release. *)

From Stdlib Require Import Strings.Byte.
From S2P Require Import Prelude.

(** ** Constants *)

Definition PATH_MAX : Z := 4096.
Definition NAME_MAX : Z := 255.
Definition TLV_MAGIC : Z := 0x544C5632.
Definition TLV_VERSION : Z := 2.
Definition SESSION_ID_SIZE : nat := 16.
Definition TLV_WIRE_HEADER_SIZE : nat := 20 + SESSION_ID_SIZE.
Definition MAX_PACKET_PAYLOAD : Z := 64 * 1024.
Definition FILE_CHUNK_SIZE : Z := 4096.

(** ** Enumerations

    A [cmd_type_t] read from the wire is a cast of an arbitrary [uint32_t]:
    [CMD_RAW] and [STATUS_RAW] are the values outside the enumerators. *)
Inductive cmd_type :=
| CMD_INVALID | CMD_LOGIN_REQ | CMD_REGISTER_REQ | CMD_PWD | CMD_CD | CMD_LS
| CMD_LL | CMD_TREE | CMD_MKDIR | CMD_RMDIR | CMD_RM | CMD_CAT | CMD_PUTS_REQ
| CMD_PUTS_RESP | CMD_GETS_REQ | CMD_GETS_RESP | CMD_RESUME_POS | CMD_FILE_DATA
| CMD_FILE_END | CMD_ACK | CMD_ERROR
| CMD_RAW (v : Z).

Inductive status_code :=
| STATUS_OK | STATUS_BAD_REQUEST | STATUS_NOT_FOUND | STATUS_IO_ERROR
| STATUS_PROTOCOL_ERROR | STATUS_USER_NOTEXIST | STATUS_PASSWD_ERROR
| STATUS_OTHER_ERROR | STATUS_NOT_DIR | STATUS_IS_DIR | STATUS_DIR_NOTEXIST
| STATUS_DIR_ALREADY_EXISTS | STATUS_DIR_NOTEMPTY | STATUS_FILE_NOTEXIST
| STATUS_DB_ERROR | STATUS_UNAUTHORIZED
| STATUS_RAW (v : Z).

#[global] Instance cmd_type_eq_dec : EqDecision cmd_type.
Proof. solve_decision. Defined.
#[global] Instance status_code_eq_dec : EqDecision status_code.
Proof. solve_decision. Defined.

Definition cmd_to_Z (c : cmd_type) : Z :=
  match c with
  | CMD_INVALID => 0 | CMD_LOGIN_REQ => 1 | CMD_REGISTER_REQ => 2 | CMD_PWD => 3
  | CMD_CD => 4 | CMD_LS => 5 | CMD_LL => 6 | CMD_TREE => 7 | CMD_MKDIR => 8
  | CMD_RMDIR => 9 | CMD_RM => 10 | CMD_CAT => 11 | CMD_PUTS_REQ => 12
  | CMD_PUTS_RESP => 13 | CMD_GETS_REQ => 14 | CMD_GETS_RESP => 15
  | CMD_RESUME_POS => 16 | CMD_FILE_DATA => 17 | CMD_FILE_END => 18
  | CMD_ACK => 19 | CMD_ERROR => 20
  | CMD_RAW v => v
  end.

Definition cmd_of_Z (v : Z) : cmd_type :=
  match v with
  | 0 => CMD_INVALID | 1 => CMD_LOGIN_REQ | 2 => CMD_REGISTER_REQ | 3 => CMD_PWD
  | 4 => CMD_CD | 5 => CMD_LS | 6 => CMD_LL | 7 => CMD_TREE | 8 => CMD_MKDIR
  | 9 => CMD_RMDIR | 10 => CMD_RM | 11 => CMD_CAT | 12 => CMD_PUTS_REQ
  | 13 => CMD_PUTS_RESP | 14 => CMD_GETS_REQ | 15 => CMD_GETS_RESP
  | 16 => CMD_RESUME_POS | 17 => CMD_FILE_DATA | 18 => CMD_FILE_END
  | 19 => CMD_ACK | 20 => CMD_ERROR
  | _ => CMD_RAW v
  end.

Definition status_to_Z (s : status_code) : Z :=
  match s with
  | STATUS_OK => 0 | STATUS_BAD_REQUEST => 2 | STATUS_NOT_FOUND => 3
  | STATUS_IO_ERROR => 4 | STATUS_PROTOCOL_ERROR => 5 | STATUS_USER_NOTEXIST => 6
  | STATUS_PASSWD_ERROR => 7 | STATUS_OTHER_ERROR => 8 | STATUS_NOT_DIR => 9
  | STATUS_IS_DIR => 10 | STATUS_DIR_NOTEXIST => 11
  | STATUS_DIR_ALREADY_EXISTS => 12 | STATUS_DIR_NOTEMPTY => 13
  | STATUS_FILE_NOTEXIST => 14 | STATUS_DB_ERROR => 15 | STATUS_UNAUTHORIZED => 16
  | STATUS_RAW v => v
  end.

Definition status_of_Z (v : Z) : status_code :=
  match v with
  | 0 => STATUS_OK | 2 => STATUS_BAD_REQUEST | 3 => STATUS_NOT_FOUND
  | 4 => STATUS_IO_ERROR | 5 => STATUS_PROTOCOL_ERROR | 6 => STATUS_USER_NOTEXIST
  | 7 => STATUS_PASSWD_ERROR | 8 => STATUS_OTHER_ERROR | 9 => STATUS_NOT_DIR
  | 10 => STATUS_IS_DIR | 11 => STATUS_DIR_NOTEXIST
  | 12 => STATUS_DIR_ALREADY_EXISTS | 13 => STATUS_DIR_NOTEMPTY
  | 14 => STATUS_FILE_NOTEXIST | 15 => STATUS_DB_ERROR | 16 => STATUS_UNAUTHORIZED
  | _ => STATUS_RAW v
  end.

(** The [names] table of [cmd_type_to_str]; [None] is a NULL entry. *)
Definition cmd_name (c : cmd_type) : option string :=
  match c with
  | CMD_LOGIN_REQ => Some "login"%string | CMD_PWD => Some "pwd"%string
  | CMD_CD => Some "cd"%string | CMD_LS => Some "ls"%string
  | CMD_LL => Some "ll"%string | CMD_TREE => Some "tree"%string
  | CMD_RM => Some "rm"%string | CMD_CAT => Some "cat"%string
  | CMD_MKDIR => Some "mkdir"%string | CMD_RMDIR => Some "rmdir"%string
  | CMD_PUTS_REQ => Some "puts"%string | CMD_GETS_REQ => Some "gets"%string
  | CMD_PUTS_RESP => Some "puts_resp"%string
  | CMD_GETS_RESP => Some "gets_resp"%string
  | CMD_RESUME_POS => Some "resume_pos"%string
  | CMD_FILE_DATA => Some "file_data"%string
  | CMD_FILE_END => Some "file_end"%string
  | CMD_ACK => Some "ack"%string | CMD_ERROR => Some "error"%string
  | _ => None
  end.

Definition cmd_type_to_str (c : cmd_type) : string :=
  if (cmd_to_Z CMD_INVALID <? cmd_to_Z c) && (cmd_to_Z c <=? cmd_to_Z CMD_ERROR)
  then default "invalid"%string (cmd_name c)
  else "invalid"%string.

(** ** Session ids *)

Definition session_id : Type := list byte.

Definition empty_session_id : session_id := replicate SESSION_ID_SIZE x00.

(** [memcmp] over the 16 bytes of both ids. *)
Definition session_id_equal (left right : session_id) : bool :=
  bool_decide (take SESSION_ID_SIZE left = take SESSION_ID_SIZE right).

Definition session_id_is_empty (sid : session_id) : bool :=
  session_id_equal sid empty_session_id.

Definition session_id_wf (sid : session_id) : Prop :=
  length sid = SESSION_ID_SIZE.

(** ** Packets *)

Record packet_header := {
  type : cmd_type;
  status : status_code;
  payload_len : Z;
  session_id_of : session_id
}.

(** [payload = None] is the NULL pointer; [Some l] points to the bytes [l]. *)
Record packet := {
  header : packet_header;
  payload : option (list byte);
  owns_payload : bool
}.

Definition zero_header : packet_header :=
  {| type := CMD_INVALID; status := STATUS_OK; payload_len := 0;
     session_id_of := empty_session_id |}.

(** The result of [memset(packet, 0, sizeof *packet)]. *)
Definition zero_packet : packet :=
  {| header := zero_header; payload := None; owns_payload := false |}.

(** ** Sockets

    The kernel's answers are data: each [send] consumes one answer of
    [send_script], each [recv] one answer of [recv_script]; an exhausted script
    is a call that blocks forever.  [sent] is what the kernel accepted so far,
    [buffers] counts the payload buffers that are allocated and not freed. *)
Inductive send_answer :=
| SendCount (n : nat)   (** the kernel takes at most [n] bytes *)
| SendEintr
| SendError.

Inductive recv_answer :=
| RecvBytes (l : list byte)   (** bytes available; none is a closed peer *)
| RecvEintr
| RecvError.

#[global] Instance send_answer_eq_dec : EqDecision send_answer.
Proof. solve_decision. Defined.

Record socket := {
  sent : list byte;
  send_script : list send_answer;
  recv_script : list recv_answer;
  buffers : Z
}.

Definition set_out (s : socket) (out : list byte) (sc : list send_answer) : socket :=
  {| sent := out; send_script := sc; recv_script := recv_script s;
     buffers := buffers s |}.
Definition set_in (s : socket) (sc : list recv_answer) : socket :=
  {| sent := sent s; send_script := send_script s; recv_script := sc;
     buffers := buffers s |}.
Definition add_buffers (s : socket) (n : Z) : socket :=
  {| sent := sent s; send_script := send_script s; recv_script := recv_script s;
     buffers := buffers s + n |}.

(** The [while (total < len)] loop of [send_n] on the first [len] bytes of
    [buf]; the result is the return value and the socket's output side. *)
Fixpoint send_n_loop (buf : list byte) (len total : nat) (out : list byte)
    (answers : list send_answer) : outcome (Z * list byte * list send_answer) :=
  if (len <=? total)%nat then Ret (0, out, answers)
  else
    match answers with
    | [] => NoReturn
    | SendEintr :: rest => send_n_loop buf len total out rest
    | SendError :: rest => Ret (-1, out, rest)
    | SendCount n :: rest =>
        let taken := take (Nat.min n (len - total)) (drop total buf) in
        send_n_loop buf len (total + length taken) (out ++ taken) rest
    end.

(** Reading past the end of the buffer is undefined. *)
Definition send_n (s : socket) (buf : list byte) (len : nat) : outcome (Z * socket) :=
  if (len <=? length buf)%nat then
    '(r, out, sc) ← send_n_loop buf len 0 (sent s) (send_script s);
    Ret (r, set_out s out sc)
  else Undef.

(** The loop of [recv_n]: [acc] is the part of the buffer already filled.  When
    the chunk has bytes left over, the request is full and the loop ends. *)
Fixpoint recv_n_loop (len : nat) (acc : list byte) (answers : list recv_answer)
    : outcome (Z * list byte * list recv_answer) :=
  if (len <=? length acc)%nat then Ret (0, acc, answers)
  else
    match answers with
    | [] => NoReturn
    | RecvEintr :: rest => recv_n_loop len acc rest
    | RecvError :: rest => Ret (-1, acc, rest)
    | RecvBytes l :: rest =>
        let got := take (len - length acc) l in
        let left_over := drop (len - length acc) l in
        match got, left_over with
        | [], _ => Ret (-1, acc, answers)
        | _, [] => recv_n_loop len (acc ++ got) rest
        | _, _ => Ret (0, acc ++ got, RecvBytes left_over :: rest)
        end
    end.

Definition recv_n (s : socket) (len : nat) : outcome (Z * list byte * socket) :=
  '(r, buf, sc) ← recv_n_loop len [] (recv_script s);
  Ret (r, buf, set_in s sc).

(** ** Byte order

    The host's byte order is a parameter: [htonl]/[ntohl] are the identity on a
    big-endian host and reverse the four bytes on a little-endian one. *)
Class Host := big_endian : bool.

Section Protocol.
Context `{Host}.

(** The image in memory of an [n]-byte unsigned integer, and its value. *)
Definition mem_of (n : nat) (v : Z) : list byte :=
  if big_endian then rev (bytes_le n v) else bytes_le n v.
Definition of_mem (l : list byte) : Z :=
  if big_endian then val_le (rev l) else val_le l.

Definition htonl (v : Z) : Z :=
  if big_endian then v else val_le (rev (bytes_le 4 v)).
Definition ntohl (v : Z) : Z := htonl v.

Definition host_to_net_u64 (value : Z) : Z :=
  let high := htonl (u32 (Z.shiftr value 32)) in
  let low := htonl (u32 (Z.land value 0xffffffff)) in
  Z.lor (u64 (Z.shiftl low 32)) high.

Definition net_to_host_u64 (value : Z) : Z :=
  let high := ntohl (u32 (Z.shiftr value 32)) in
  let low := ntohl (u32 (Z.land value 0xffffffff)) in
  Z.lor (u64 (Z.shiftl low 32)) high.

(** [memcpy(dst + off, src, length src)]. *)
Definition write_at (dst : list byte) (off : nat) (src : list byte) : list byte :=
  take off dst ++ src ++ drop (off + length src) dst.

Definition write_net_u32 (dst : list byte) (off : nat) (value : Z) : list byte :=
  write_at dst off (mem_of 4 (htonl value)).

Definition read_net_u32 (src : list byte) (off : nat) : Z :=
  ntohl (of_mem (take 4 (drop off src))).

Definition WIRE_MAGIC_OFFSET : nat := 0.
Definition WIRE_VERSION_OFFSET : nat := 4.
Definition WIRE_TYPE_OFFSET : nat := 8.
Definition WIRE_STATUS_OFFSET : nat := 12.
Definition WIRE_PAYLOAD_LEN_OFFSET : nat := 16.
Definition WIRE_SESSION_ID_OFFSET : nat := 20.

Definition encode_wire_header (h : packet_header) : list byte :=
  let w := replicate TLV_WIRE_HEADER_SIZE x00 in
  let w := write_net_u32 w WIRE_MAGIC_OFFSET TLV_MAGIC in
  let w := write_net_u32 w WIRE_VERSION_OFFSET TLV_VERSION in
  let w := write_net_u32 w WIRE_TYPE_OFFSET (u32 (cmd_to_Z (type h))) in
  let w := write_net_u32 w WIRE_STATUS_OFFSET (u32 (status_to_Z (status h))) in
  let w := write_net_u32 w WIRE_PAYLOAD_LEN_OFFSET (payload_len h) in
  write_at w WIRE_SESSION_ID_OFFSET (take SESSION_ID_SIZE (session_id_of h)).

(** [None] is the return value -1. *)
Definition packet_init (ty : cmd_type) (st : status_code) (sid : option session_id)
    (pl : option (list byte)) (len : Z) : option packet :=
  if (MAX_PACKET_PAYLOAD <? len) || ((0 <? len) && bool_decide (pl = None))
  then None
  else Some {| header := {| type := ty; status := st; payload_len := len;
                            session_id_of := default empty_session_id sid |};
               payload := pl;
               owns_payload := false |}.

Definition protocol_send_header (s : socket) (h : packet_header)
    : outcome (Z * socket) :=
  if MAX_PACKET_PAYLOAD <? payload_len h then Ret (-1, s)
  else send_n s (encode_wire_header h) TLV_WIRE_HEADER_SIZE.

Definition protocol_send_packet (s : socket) (p : packet) : outcome (Z * socket) :=
  let len := payload_len (header p) in
  if (MAX_PACKET_PAYLOAD <? len) || ((0 <? len) && bool_decide (payload p = None))
  then Ret (-1, s)
  else
    '(r, s) ← protocol_send_header s (header p);
    if negb (r =? 0) then Ret (-1, s)
    else if 0 <? len then
      data ← deref (payload p);
      '(r, s) ← send_n s data (Z.to_nat len);
      if negb (r =? 0) then Ret (-1, s) else Ret (0, s)
    else Ret (0, s).

Definition packet_release (s : socket) (p : packet) : packet * socket :=
  (zero_packet, if owns_payload p then add_buffers s (-1) else s).

(** [malloc_ok n] says whether [malloc(n)] returns memory.  The result is the
    return value, the contents of [*packet] and the socket. *)
Definition protocol_recv_packet (malloc_ok : Z -> bool) (s : socket)
    : outcome (Z * packet * socket) :=
  '(r, wire, s) ← recv_n s TLV_WIRE_HEADER_SIZE;
  if negb (r =? 0) then Ret (-1, zero_packet, s)
  else
    let magic := read_net_u32 wire WIRE_MAGIC_OFFSET in
    let version := read_net_u32 wire WIRE_VERSION_OFFSET in
    if negb (magic =? TLV_MAGIC) || negb (version =? TLV_VERSION)
    then Ret (-1, zero_packet, s)
    else
      let h := {| type := cmd_of_Z (read_net_u32 wire WIRE_TYPE_OFFSET);
                  status := status_of_Z (read_net_u32 wire WIRE_STATUS_OFFSET);
                  payload_len := read_net_u32 wire WIRE_PAYLOAD_LEN_OFFSET;
                  session_id_of := take SESSION_ID_SIZE
                                     (drop WIRE_SESSION_ID_OFFSET wire) |} in
      let p := {| header := h; payload := None; owns_payload := false |} in
      if MAX_PACKET_PAYLOAD <? payload_len h then Ret (-1, p, s)
      else if payload_len h =? 0 then Ret (0, p, s)
      else if negb (malloc_ok (payload_len h)) then Ret (-1, p, s)
      else
        let s := add_buffers s 1 in
        '(r, data, s) ← recv_n s (Z.to_nat (payload_len h));
        let p := {| header := h; payload := Some data; owns_payload := true |} in
        if negb (r =? 0) then
          let '(p, s) := packet_release s p in Ret (-1, p, s)
        else Ret (0, p, s).

(** The 8-byte [resume_payload_t]. *)
Definition resume_payload (offset : Z) : list byte := mem_of 8 (host_to_net_u64 offset).

Definition send_puts_resume (s : socket) (sid : session_id) (offset : Z)
    : outcome (Z * socket) :=
  match packet_init CMD_PUTS_RESP STATUS_OK (Some sid)
          (Some (resume_payload offset)) 8 with
  | None => Ret (-1, s)
  | Some p => protocol_send_packet s p
  end.

(** ** Specifications *)

(** Big-endian image of a 32-bit value, the field encoding of the wire. *)
Definition be32 (v : Z) : list byte := rev (bytes_le 4 v).

(** The 36-byte header the protocol documents. *)
Definition wire_header (h : packet_header) : list byte :=
  be32 TLV_MAGIC ++ be32 TLV_VERSION ++ be32 (cmd_to_Z (type h)) ++
  be32 (status_to_Z (status h)) ++ be32 (payload_len h) ++ session_id_of h.

Arguments wire_header : simpl never.

Definition wire_packet (p : packet) : list byte :=
  wire_header (header p) ++ default [] (payload p).

(** Enumeration values a C program can hold in the enum's 32 bits. *)
Definition cmd_wf (c : cmd_type) : Prop := is_u32 (cmd_to_Z c) /\ cmd_of_Z (cmd_to_Z c) = c.
Definition status_wf (s : status_code) : Prop :=
  is_u32 (status_to_Z s) /\ status_of_Z (status_to_Z s) = s.

Definition header_wf (h : packet_header) : Prop :=
  cmd_wf (type h) /\ status_wf (status h) /\
  0 <= payload_len h <= MAX_PACKET_PAYLOAD /\ session_id_wf (session_id_of h).

(** A packet whose payload pointer covers exactly [payload_len] bytes. *)
Definition packet_wf (p : packet) : Prop :=
  header_wf (header p) /\
  match payload p with
  | None => payload_len (header p) = 0
  | Some l => Z.of_nat (length l) = payload_len (header p)
  end.

(** A receive script without errors or end of file, and its byte stream. *)
Definition clean_answer (a : recv_answer) : Prop :=
  match a with
  | RecvBytes l => l <> []
  | RecvEintr => True
  | RecvError => False
  end.
Definition clean (answers : list recv_answer) : Prop := Forall clean_answer answers.
Definition stream (answers : list recv_answer) : list byte :=
  flat_map (fun a => match a with RecvBytes l => l | _ => [] end) answers.

(** ** Byte order *)

Lemma be32_four v : exists a b c d, be32 v = [a; b; c; d].
Proof. unfold be32. simpl. eauto. Qed.

Lemma length_be32 v : length (be32 v) = 4%nat.
Proof. done. Qed.

Lemma mem_of_htonl v : mem_of 4 (htonl v) = be32 v.
Proof.
  unfold mem_of, htonl, be32. destruct big_endian; [done |].
  change 4%nat with (length (rev (bytes_le 4 v))) at 1.
  apply bytes_le_val_le.
Qed.

Lemma ntohl_of_mem v : is_u32 v -> ntohl (of_mem (be32 v)) = v.
Proof.
  intros Hv. unfold ntohl, htonl, of_mem, be32.
  assert (Hval : val_le (bytes_le 4 v) = v).
  { rewrite val_le_bytes_le. by apply Z.mod_small. }
  destruct big_endian; [by rewrite rev_involutive |].
  change 4%nat with (length (rev (bytes_le 4 v))) at 1.
  by rewrite bytes_le_val_le, rev_involutive.
Qed.

Lemma read_net_u32_at pre post v src off :
  src = pre ++ be32 v ++ post -> off = length pre -> is_u32 v -> read_net_u32 src off = v.
Proof.
  intros -> -> Hv. unfold read_net_u32. rewrite drop_app_length.
  rewrite (take_app_length' (be32 v)) by done. by apply ntohl_of_mem.
Qed.

Lemma u32_range v : is_u32 (u32 v).
Proof. apply Z.mod_pos_bound. done. Qed.

Lemma u32_id v : is_u32 v -> u32 v = v.
Proof. apply Z.mod_small. Qed.

Lemma htonl_range v : is_u32 v -> is_u32 (htonl v).
Proof.
  unfold htonl. destruct big_endian; [done | intros _].
  apply (val_le_range (rev (bytes_le 4 v))).
Qed.

Lemma htonl_htonl v : is_u32 v -> htonl (htonl v) = v.
Proof.
  intros Hv. transitivity (ntohl (of_mem (mem_of 4 (htonl v)))).
  - unfold ntohl. f_equal. unfold of_mem, mem_of. pose proof (htonl_range v Hv) as Hr.
    destruct big_endian.
    + rewrite rev_involutive, val_le_bytes_le. symmetry. by apply Z.mod_small.
    + rewrite val_le_bytes_le. symmetry. by apply Z.mod_small.
  - rewrite mem_of_htonl. by apply ntohl_of_mem.
Qed.

Lemma join_words hi lo :
  is_u32 hi -> is_u32 lo -> Z.lor (u64 (Z.shiftl hi 32)) lo = hi * 2 ^ 32 + lo.
Proof.
  intros Hh Hl. unfold is_u32, u32_mod in *.
  unfold u64. rewrite Z.mod_small.
  - apply lor_shiftl_add; lia.
  - rewrite Z.shiftl_mul_pow2 by lia. unfold u64_mod. lia.
Qed.

Lemma split_words hi lo :
  is_u32 hi -> is_u32 lo ->
  u32 (Z.shiftr (hi * 2 ^ 32 + lo) 32) = hi /\
  u32 (Z.land (hi * 2 ^ 32 + lo) 0xffffffff) = lo.
Proof.
  intros Hh Hl. unfold is_u32, u32, u32_mod in *.
  change 0xffffffff with (Z.ones 32). rewrite Z.land_ones by lia.
  rewrite Z.shiftr_div_pow2 by lia.
  rewrite Z.div_add_l, Z.div_small, Z.add_0_r by lia.
  rewrite (Z.add_comm _ lo), Z.mod_add, !(Z.mod_small lo), (Z.mod_small hi) by lia.
  done.
Qed.

Lemma u64_words v :
  is_u64 v -> exists hi lo, is_u32 hi /\ is_u32 lo /\ v = hi * 2 ^ 32 + lo.
Proof.
  unfold is_u64, is_u32, u64_mod, u32_mod. intros Hv.
  exists (v / 2 ^ 32), (v mod 2 ^ 32).
  pose proof (Z.div_mod v (2 ^ 32)). pose proof (Z.mod_pos_bound v (2 ^ 32)).
  split_and!; try lia.
Qed.

Lemma host_to_net_words hi lo :
  is_u32 hi -> is_u32 lo ->
  host_to_net_u64 (hi * 2 ^ 32 + lo) = htonl lo * 2 ^ 32 + htonl hi.
Proof.
  intros Hh Hl. unfold host_to_net_u64.
  destruct (split_words hi lo) as [-> ->]; [done | done |].
  by apply join_words; apply htonl_range.
Qed.

Lemma host_to_net_range v : is_u64 v -> is_u64 (host_to_net_u64 v).
Proof.
  intros Hv. destruct (u64_words v Hv) as (hi & lo & Hh & Hl & ->).
  rewrite host_to_net_words by done.
  pose proof (htonl_range hi Hh). pose proof (htonl_range lo Hl).
  unfold is_u32, is_u64, u32_mod, u64_mod in *. lia.
Qed.

(** ** The send loop *)

Lemma send_n_loop_spec buf len total out answers r out' answers' :
  send_n_loop buf len total out answers = Ret (r, out', answers') ->
  (total <= len)%nat -> (len <= length buf)%nat ->
  exists n, (total <= n <= len)%nat /\
    out' = out ++ take (n - total) (drop total buf) /\
    (r = 0 /\ n = len \/ r = -1 /\ (n < len)%nat).
Proof.
  revert total out. induction answers as [| a answers IH]; intros total out; simpl.
  - destruct (Nat.leb_spec len total); [| done]. intros [= <- <- <-] ? ?.
    exists total. rewrite Nat.sub_diag, take_0, app_nil_r. split_and!; [lia | lia | done |].
    left. split; [done | lia].
  - destruct (Nat.leb_spec len total).
    { intros [= <- <- <-] ? ?. exists total.
      rewrite Nat.sub_diag, take_0, app_nil_r. split_and!; [lia | lia | done |].
      left. split; [done | lia]. }
    destruct a as [k | |]; intros Hl Ht Hb.
    + assert (Hlen : length (take (Nat.min k (len - total)) (drop total buf)) =
                     Nat.min k (len - total)).
      { rewrite length_take, length_drop. lia. }
      rewrite Hlen in Hl. apply IH in Hl; [| lia | done].
      destruct Hl as (n & Hn & -> & Hr). exists n. split; [lia |]. split; [| done].
      rewrite <- app_assoc. f_equal.
      rewrite <- drop_drop, take_take_drop. f_equal. lia.
    + by apply IH in Hl.
    + simplify_eq. exists total. rewrite Nat.sub_diag, take_0, app_nil_r.
      split_and!; [lia | lia | done | right; split; [done | lia]].
Qed.

(** [send_n] transmits exactly the buffer on success and a proper prefix of it
    on failure. *)
Lemma send_n_spec s buf len r s' :
  send_n s buf len = Ret (r, s') ->
  exists n sc, s' = set_out s (sent s ++ take n buf) sc /\
    (r = 0 /\ n = len \/ r = -1 /\ (n < len)%nat).
Proof.
  unfold send_n. destruct (Nat.leb_spec len (length buf)); [| done]. intros Hs.
  apply bind_Ret_inv in Hs as ([[r0 out] sc] & Hs & Heq). simplify_eq.
  apply send_n_loop_spec in Hs as (n & Hn & -> & Hr); [| lia | done].
  rewrite Nat.sub_0_r. eauto.
Qed.

(** How many answers of a send script accept at least one byte. *)
Fixpoint send_room (answers : list send_answer) : nat :=
  match answers with
  | [] => 0
  | SendCount (S _) :: rest => S (send_room rest)
  | _ :: rest => send_room rest
  end.

Lemma send_n_loop_total buf len total out answers :
  SendError ∉ answers -> (len <= length buf)%nat -> (total <= len)%nat ->
  (len - total <= send_room answers)%nat ->
  exists answers',
    (send_n_loop buf len total out answers =
      Ret (0, out ++ take (len - total) (drop total buf), answers')) /\
    (SendError ∉ answers') /\
    (send_room answers <= send_room answers' + (len - total))%nat.
Proof.
  revert total out. induction answers as [| a answers IH]; intros total out Hne Hb Ht Hr;
    simpl in *; destruct (Nat.leb_spec len total);
    try (replace (len - total)%nat with 0%nat by lia; rewrite take_0, app_nil_r;
         eexists; split_and!; [done | done | simpl; lia]; fail);
    [lia |].
  apply not_elem_of_cons in Hne as [Hna Hne].
  destruct a as [k | |]; [| by apply IH | done].
  remember (Nat.min k (len - total)) as m eqn:Hm.
  assert (Hlen : length (take m (drop total buf)) = m)
    by (rewrite length_take, length_drop; lia).
  rewrite Hlen. destruct (IH (total + m)%nat (out ++ take m (drop total buf)))
    as (answers' & -> & Hne' & Hroom); [done | done | lia | destruct k; lia |].
  exists answers'. split_and!; [| done | destruct k; lia].
  do 3 f_equal. rewrite <- app_assoc. f_equal.
  rewrite <- drop_drop, take_take_drop. f_equal. lia.
Qed.

Lemma send_n_total s buf len :
  SendError ∉ send_script s -> (len <= length buf)%nat ->
  (len <= send_room (send_script s))%nat ->
  exists s', send_n s buf len = Ret (0, s') /\ (SendError ∉ send_script s') /\
    (send_room (send_script s) <= send_room (send_script s') + len)%nat.
Proof.
  intros Hne Hl Hr. unfold send_n. destruct (Nat.leb_spec len (length buf)); [| lia].
  destruct (send_n_loop_total buf len 0 (sent s) (send_script s)) as (sc & -> & Hne' & Hroom);
    [done | done | lia | lia |].
  eexists. split; [done |]. simpl. split; [done | lia].
Qed.

(** ** The receive loop *)

Lemma stream_cons_bytes l answers : stream (RecvBytes l :: answers) = l ++ stream answers.
Proof. done. Qed.

Lemma recv_n_loop_clean len acc answers :
  clean answers -> (length acc <= len)%nat ->
  (len - length acc <= length (stream answers))%nat ->
  exists answers', recv_n_loop len acc answers =
      Ret (0, acc ++ take (len - length acc) (stream answers), answers') /\
    clean answers' /\ stream answers' = drop (len - length acc) (stream answers).
Proof.
  revert acc. induction answers as [| a answers IH]; intros acc Hc Ha Hl; simpl;
    destruct (Nat.leb_spec len (length acc));
    try (replace (len - length acc)%nat with 0%nat by lia;
         rewrite take_0, app_nil_r; eauto; fail).
  { simpl in Hl. lia. }
  apply Forall_cons_1 in Hc as [Hca Hc].
  destruct a as [l | |]; simpl in Hca; [| by apply IH | done].
  rewrite stream_cons_bytes in *. rewrite length_app in Hl.
  set (need := (len - length acc)%nat) in *.
  destruct (decide (length l <= need)%nat) as [Hle | Hgt].
  - rewrite (take_ge l), (drop_ge l) by lia. destruct l as [| b l]; [done |].
    destruct (IH (acc ++ b :: l)) as (answers' & -> & Hc' & Hst); [done | | |].
    + rewrite length_app. lia.
    + rewrite length_app. lia.
    + exists answers'. rewrite take_app_ge, drop_app_ge by done.
      replace (len - length (acc ++ b :: l))%nat with (need - length (b :: l))%nat in *
        by (rewrite length_app; lia).
      rewrite <- app_assoc. done.
  - assert (Hrest : drop need l <> []).
    { intros Hd. apply (f_equal length) in Hd. rewrite length_drop in Hd. simpl in Hd. lia. }
    destruct (take need l) as [| b got] eqn:Hg.
    { apply (f_equal length) in Hg. rewrite length_take in Hg. simpl in Hg. lia. }
    destruct (drop need l) as [| b' rest] eqn:Hd; [done |].
    rewrite take_app_le, drop_app_le, Hg, Hd by lia.
    eexists. split; [done |]. split; [by constructor | done].
Qed.

Lemma recv_n_clean s len :
  clean (recv_script s) -> (len <= length (stream (recv_script s)))%nat ->
  exists sc, recv_n s len = Ret (0, take len (stream (recv_script s)), set_in s sc) /\
    clean sc /\ stream sc = drop len (stream (recv_script s)).
Proof.
  intros Hc Hl. unfold recv_n.
  destruct (recv_n_loop_clean len [] (recv_script s)) as (sc & -> & Hc' & Hs);
    [done | simpl; lia | simpl; lia |].
  simpl in *. rewrite Nat.sub_0_r in *. eauto.
Qed.

(** A successful [recv_n] fills the whole buffer, whatever the peer does. *)
Lemma recv_n_loop_length len acc answers r buf answers' :
  recv_n_loop len acc answers = Ret (r, buf, answers') -> (length acc <= len)%nat ->
  r = 0 /\ length buf = len \/ r = -1.
Proof.
  revert acc. induction answers as [| a answers IH]; intros acc; simpl;
    destruct (Nat.leb_spec len (length acc)).
  - intros [= <- <- <-] ?. left. split; [done | lia].
  - done.
  - intros [= <- <- <-] ?. left. split; [done | lia].
  - destruct a as [l | |]; intros Hr Ha; [| by eapply IH | simplify_eq; by right].
    destruct (take (len - length acc) l) as [| b got] eqn:Hg; [simplify_eq; by right |].
    pose proof (f_equal length Hg) as Hlen. rewrite length_take in Hlen. simpl in Hlen.
    destruct (drop (len - length acc) l) as [| b' rest] eqn:Hd.
    + apply IH in Hr; [done |]. rewrite length_app. simpl. lia.
    + pose proof (f_equal length Hd) as Hlen'. rewrite length_drop in Hlen'.
      simplify_eq. left. split; [done |]. rewrite length_app. simpl in *. lia.
Qed.

Lemma recv_n_length s len r buf s' :
  recv_n s len = Ret (r, buf, s') ->
  (r = 0 /\ length buf = len \/ r = -1) /\ exists sc, s' = set_in s sc.
Proof.
  unfold recv_n. intros Hr. apply bind_Ret_inv in Hr as ([[r0 b] sc] & Hr & Heq).
  simplify_eq. split; [| eauto]. eapply recv_n_loop_length; [done | simpl; lia].
Qed.

Lemma recv_n_loop_defined len acc answers : recv_n_loop len acc answers <> Undef.
Proof.
  revert acc. induction answers as [| a answers IH]; intros acc; simpl;
    destruct (len <=? length acc)%nat; try done.
  destruct a as [l | |]; [| apply IH | done].
  destruct (take _ l); [done |]. destruct (drop _ l); [apply IH | done].
Qed.

Lemma recv_n_cases s len :
  recv_n s len = NoReturn \/
  (exists buf sc, recv_n s len = Ret (0, buf, set_in s sc) /\ length buf = len) \/
  (exists buf sc, recv_n s len = Ret (-1, buf, set_in s sc)).
Proof.
  destruct (recv_n s len) as [[[r buf] s'] | |] eqn:E; [| | by left].
  - right. apply recv_n_length in E as [[[-> Hl] | ->] [sc ->]]; eauto 6.
  - unfold recv_n in E. pose proof (recv_n_loop_defined len [] (recv_script s)).
    by destruct (recv_n_loop len [] (recv_script s)) as [[[]] | |].
Qed.

(** ** Headers and packets *)

Lemma cmd_to_of_Z v : cmd_to_Z (cmd_of_Z v) = v.
Proof. unfold cmd_of_Z. repeat case_match; done. Qed.

Lemma status_to_of_Z v : status_to_Z (status_of_Z v) = v.
Proof. unfold status_of_Z. repeat case_match; done. Qed.

Lemma cmd_of_Z_wf v : is_u32 v -> cmd_wf (cmd_of_Z v).
Proof. intros Hv. unfold cmd_wf. by rewrite cmd_to_of_Z. Qed.

Lemma status_of_Z_wf v : is_u32 v -> status_wf (status_of_Z v).
Proof. intros Hv. unfold status_wf. by rewrite status_to_of_Z. Qed.

Lemma payload_len_u32 n : 0 <= n <= MAX_PACKET_PAYLOAD -> is_u32 n.
Proof. unfold is_u32, MAX_PACKET_PAYLOAD, u32_mod. lia. Qed.

Lemma read_net_u32_range src off :
  (off + 4 <= length src)%nat -> is_u32 (read_net_u32 src off).
Proof.
  intros Hl. unfold read_net_u32. apply htonl_range.
  assert (Hlen : length (take 4 (drop off src)) = 4%nat)
    by (rewrite length_take, length_drop; lia).
  unfold of_mem. destruct big_endian.
  - pose proof (val_le_range (rev (take 4 (drop off src)))) as Hr.
    rewrite length_rev, Hlen in Hr. exact Hr.
  - pose proof (val_le_range (take 4 (drop off src))) as Hr. rewrite Hlen in Hr. exact Hr.
Qed.

Lemma encode_wire_header_eq h : header_wf h -> encode_wire_header h = wire_header h.
Proof.
  intros ([Hc _] & [Hs _] & Hp & Hid). unfold encode_wire_header, wire_header, write_net_u32.
  rewrite !mem_of_htonl, (u32_id (cmd_to_Z _)), (u32_id (status_to_Z _)) by done.
  unfold session_id_wf in Hid. rewrite (take_ge (session_id_of h)) by lia.
  destruct (be32_four TLV_MAGIC) as (? & ? & ? & ? & ->).
  destruct (be32_four TLV_VERSION) as (? & ? & ? & ? & ->).
  destruct (be32_four (cmd_to_Z (type h))) as (? & ? & ? & ? & ->).
  destruct (be32_four (status_to_Z (status h))) as (? & ? & ? & ? & ->).
  destruct (be32_four (payload_len h)) as (? & ? & ? & ? & ->).
  unfold write_at. rewrite Hid. simpl. by rewrite app_nil_r.
Qed.

Lemma length_wire_header h :
  session_id_wf (session_id_of h) -> length (wire_header h) = TLV_WIRE_HEADER_SIZE.
Proof.
  unfold session_id_wf. intros Hid. unfold wire_header.
  rewrite !length_app, !length_be32, Hid. done.
Qed.

(** What [protocol_recv_packet] reads out of a well-formed header. *)
Lemma read_wire_header h :
  header_wf h ->
  read_net_u32 (wire_header h) WIRE_MAGIC_OFFSET = TLV_MAGIC /\
  read_net_u32 (wire_header h) WIRE_VERSION_OFFSET = TLV_VERSION /\
  read_net_u32 (wire_header h) WIRE_TYPE_OFFSET = cmd_to_Z (type h) /\
  read_net_u32 (wire_header h) WIRE_STATUS_OFFSET = status_to_Z (status h) /\
  read_net_u32 (wire_header h) WIRE_PAYLOAD_LEN_OFFSET = payload_len h /\
  take SESSION_ID_SIZE (drop WIRE_SESSION_ID_OFFSET (wire_header h)) = session_id_of h.
Proof.
  intros ([Hc _] & [Hs _] & Hp & Hid). apply payload_len_u32 in Hp.
  unfold wire_header. split_and!.
  - by eapply (read_net_u32_at []).
  - by eapply (read_net_u32_at (be32 TLV_MAGIC)).
  - eapply (read_net_u32_at (be32 TLV_MAGIC ++ be32 TLV_VERSION)); [| done | done].
    by rewrite <- !app_assoc.
  - eapply (read_net_u32_at (be32 TLV_MAGIC ++ be32 TLV_VERSION ++ be32 (cmd_to_Z (type h))));
      [| done | done].
    by rewrite <- !app_assoc.
  - eapply (read_net_u32_at (be32 TLV_MAGIC ++ be32 TLV_VERSION ++ be32 (cmd_to_Z (type h)) ++
      be32 (status_to_Z (status h)))); [| done | done].
    by rewrite <- !app_assoc.
  - rewrite !app_assoc, drop_app_length' by done.
    apply take_ge. unfold session_id_wf in Hid. lia.
Qed.

Lemma set_out_sent s out sc : sent (set_out s out sc) = out.
Proof. done. Qed.

(** ** Properties of packet transmission *)

Lemma packet_wf_payload p :
  packet_wf p -> 0 < payload_len (header p) ->
  exists l, payload p = Some l /\ Z.of_nat (length l) = payload_len (header p).
Proof. intros [_ Hp] Hl. destruct (payload p) as [l |]; [eauto | lia]. Qed.

Lemma packet_wf_guard p :
  packet_wf p ->
  (MAX_PACKET_PAYLOAD <? payload_len (header p)) ||
    ((0 <? payload_len (header p)) && bool_decide (payload p = None)) = false.
Proof.
  intros Hwf. pose proof Hwf as [(_ & _ & Hl & _) _].
  destruct (Z.ltb_spec MAX_PACKET_PAYLOAD (payload_len (header p))); [lia |]. simpl.
  destruct (Z.ltb_spec 0 (payload_len (header p))) as [Hpos |]; [| done].
  destruct (packet_wf_payload p Hwf Hpos) as (l & -> & _). done.
Qed.

(** A packet that [protocol_send_packet] reports as sent left exactly its wire
    image on the socket. *)
Lemma send_packet_wire s p s' :
  packet_wf p -> protocol_send_packet s p = Ret (0, s') ->
  sent s' = sent s ++ wire_packet p.
Proof.
  intros Hwf. unfold protocol_send_packet. rewrite (packet_wf_guard p Hwf).
  pose proof Hwf as [Hh Hpl]. unfold protocol_send_header.
  destruct (Z.ltb_spec MAX_PACKET_PAYLOAD (payload_len (header p))).
  { destruct Hh as (_ & _ & ? & _). lia. }
  intros Hs. apply bind_Ret_inv in Hs as ([r s1] & Hs & Hk).
  apply send_n_spec in Hs as (n & sc & -> & [[-> ->] | [-> Hn]]); simpl in Hk; [| done].
  rewrite encode_wire_header_eq in Hk by done.
  rewrite take_ge in Hk by (rewrite length_wire_header by apply Hh; done).
  unfold wire_packet. destruct (Z.ltb_spec 0 (payload_len (header p))) as [Hpos | Hz].
  - destruct (packet_wf_payload p Hwf Hpos) as (l & Hp & Hl). rewrite Hp in *. change (default [] (Some l)) with l.
    cbn in Hk. apply bind_Ret_inv in Hk as ([r s2] & Hs & Hk).
    apply send_n_spec in Hs as (n & sc' & -> & [[-> ->] | [-> Hn]]); simpl in Hk; [| done].
    simplify_eq. cbn [sent set_out]. rewrite (take_ge l) by lia. by rewrite app_assoc.
  - simplify_eq. cbn [sent set_out]. destruct (payload p) as [[|] |]; cbn [default];
      [by rewrite app_nil_r | simpl in Hpl; lia | by rewrite app_nil_r].
Qed.

(** The packet a receiver builds from the wire image of [p]. *)
Definition received (p : packet) : packet :=
  {| header := header p;
     payload := if payload_len (header p) =? 0 then None else payload p;
     owns_payload := negb (payload_len (header p) =? 0) |}.

(** Receiving the wire image of a packet, cut into arbitrary chunks and
    interrupted at will, yields that packet and leaves the rest of the stream. *)
Lemma recv_wire_packet malloc_ok s p rest :
  packet_wf p ->
  malloc_ok (payload_len (header p)) = true ->
  clean (recv_script s) -> stream (recv_script s) = wire_packet p ++ rest ->
  exists s', protocol_recv_packet malloc_ok s = Ret (0, received p, s') /\
    sent s' = sent s /\ send_script s' = send_script s /\
    clean (recv_script s') /\ stream (recv_script s') = rest.
Proof.
  intros Hwf Hm Hc Hst. pose proof Hwf as [Hh Hpl].
  pose proof (length_wire_header (header p) ltac:(apply Hh)) as Hlen.
  unfold wire_packet in Hst. rewrite <- app_assoc in Hst.
  destruct (recv_n_clean s TLV_WIRE_HEADER_SIZE) as (sc & Hr & Hc1 & Hs1); [done | |].
  { rewrite Hst, length_app, Hlen. lia. }
  unfold protocol_recv_packet. rewrite Hr. cbn [mbind outcome_bind Z.eqb negb].
  rewrite Hst in *. rewrite take_app_length' in * by done. rewrite drop_app_length' in Hs1 by done.
  destruct (read_wire_header (header p) Hh) as (-> & -> & -> & -> & -> & ->).
  rewrite !Z.eqb_refl. cbn [negb orb].
  destruct Hh as ([_ ->] & [_ ->] & Hrange & _). cbn [payload_len].
  destruct (Z.ltb_spec MAX_PACKET_PAYLOAD (payload_len (header p))); [lia |].
  unfold received. destruct (Z.eqb_spec (payload_len (header p)) 0) as [Hz | Hnz].
  - eexists. split; [by destruct (header p) |]. split_and!; [done | done | done |].
    simpl. rewrite Hs1. destruct (payload p) as [[|] |]; [done | simpl in Hpl; lia | done].
  - destruct (packet_wf_payload p Hwf ltac:(lia)) as (l & Hp & Hl).
    rewrite Hp in *. change (default [] (Some l)) with l in Hs1.
    rewrite Hm. cbn [negb].
    destruct (recv_n_clean (add_buffers (set_in s sc) 1) (Z.to_nat (payload_len (header p))))
      as (sc' & Hr' & Hc2 & Hs2); [done | |].
    { simpl. rewrite Hs1, length_app. simpl. lia. }
    rewrite Hr'. cbn [mbind outcome_bind Z.eqb negb].
    cbn [recv_script add_buffers set_in] in *. rewrite Hs1 in *.
    rewrite take_app_length' by lia. rewrite drop_app_length' in Hs2 by lia.
    eexists. split; [by destruct (header p) |]. done.
Qed.

End Protocol.

(** ** Main results *)

(** Arithmetic on the header's offsets. *)
Ltac wire_lia :=
  unfold WIRE_TYPE_OFFSET, WIRE_STATUS_OFFSET, WIRE_PAYLOAD_LEN_OFFSET,
    TLV_WIRE_HEADER_SIZE, SESSION_ID_SIZE in *; lia.

(** Closes the branches of [protocol_recv_packet] that return -1 early. *)
Ltac recv_done :=
  split; [done |]; intros ? ? ? [= <- <- <-]; split; [done |];
  right; split_and!; [done | done | done].

Section Results.
Context `{Host}.

(** Every outcome of a reception, for the components that receive packets. *)
Lemma recv_packet_cases malloc_ok s :
  protocol_recv_packet malloc_ok s <> Undef /\
  forall r p s', protocol_recv_packet malloc_ok s = Ret (r, p, s') ->
    sent s' = sent s /\
    (r = 0 /\ packet_wf p /\ owns_payload p = bool_decide (payload p <> None) /\
       buffers s' = buffers s + (if owns_payload p then 1 else 0)
     \/ r = -1 /\ payload p = None /\ buffers s' = buffers s).
Proof.
  unfold protocol_recv_packet.
  destruct (recv_n_cases s TLV_WIRE_HEADER_SIZE) as [-> | [(w & sc & -> & Hw) | (w & sc & ->)]];
    cbn [mbind outcome_bind Z.eqb negb]; [done | | recv_done].
  destruct (negb _ || negb _); [recv_done |]. cbn [payload_len].
  set (h := Build_packet_header _ _ _ _).
  assert (Hwf : header_wf {| type := type h; status := status h; payload_len := 0;
                             session_id_of := session_id_of h |}).
  { unfold header_wf, MAX_PACKET_PAYLOAD. cbn [type status payload_len session_id_of h].
    split_and!; [| | lia | lia |].
    - apply cmd_of_Z_wf, read_net_u32_range. rewrite Hw. wire_lia.
    - apply status_of_Z_wf, read_net_u32_range. rewrite Hw. wire_lia.
    - unfold session_id_wf. rewrite length_take, length_drop, Hw. done. }
  pose proof (read_net_u32_range w WIRE_PAYLOAD_LEN_OFFSET) as Hlen.
  rewrite Hw in Hlen. specialize (Hlen ltac:(wire_lia)).
  destruct (Z.ltb_spec MAX_PACKET_PAYLOAD (read_net_u32 w WIRE_PAYLOAD_LEN_OFFSET)) as [|Hmax];
    [recv_done |].
  assert (Hh : header_wf h).
  { destruct Hwf as (? & ? & _ & ?). split_and!; [done | done | apply Hlen | done | done]. }
  destruct (Z.eqb_spec (read_net_u32 w WIRE_PAYLOAD_LEN_OFFSET) 0) as [Hz | Hnz].
  { split; [done |]. intros r p s' [= <- <- <-]. split; [done |]. left.
    split_and!; [done | done | done | simpl; lia]. }
  destruct (negb (malloc_ok _)); [recv_done |].
  destruct (recv_n_cases (add_buffers (set_in s sc) 1)
    (Z.to_nat (read_net_u32 w WIRE_PAYLOAD_LEN_OFFSET)))
    as [-> | [(d & sc' & -> & Hd) | (d & sc' & ->)]];
    cbn [mbind outcome_bind Z.eqb negb]; [done | |].
  - split; [done |]. intros r p s' [= <- <- <-]. split; [done |]. left.
    split_and!; [done | | done | done]. split; [done |]. simpl. rewrite Hd.
    destruct Hlen. lia.
  - split; [done |]. intros r p s' [= <- <- <-]. split; [done |]. right.
    split_and!; [done | done | simpl; lia].
Qed.

(** A transmission changes the output of the socket only. *)
Lemma send_packet_frame s p r s' :
  protocol_send_packet s p = Ret (r, s') ->
  recv_script s' = recv_script s /\ buffers s' = buffers s.
Proof.
  unfold protocol_send_packet, protocol_send_header. case_match; [by intros [= <- <-] |].
  intros Hs. apply bind_Ret_inv in Hs as ([r1 s1] & Hs & Hk).
  assert (H1 : recv_script s1 = recv_script s /\ buffers s1 = buffers s).
  { destruct (_ <? _) in Hs; [by simplify_eq |]. apply send_n_spec in Hs as (n & sc & -> & _). done. }
  cbn beta iota in Hk. case_match; [by simplify_eq |]. case_match; [| by simplify_eq].
  apply bind_Ret_inv in Hk as (l & _ & Hk). apply bind_Ret_inv in Hk as ([r2 s2] & Hs2 & Hk).
  apply send_n_spec in Hs2 as (n & sc & -> & _). cbn beta iota in Hk. case_match; by simplify_eq.
Qed.

Lemma send_n_loop_defined buf len total out answers : send_n_loop buf len total out answers <> Undef.
Proof.
  revert total out. induction answers as [| a answers IH]; intros total out; simpl; [by destruct (_ <=? _)%nat |].
  destruct (_ <=? _)%nat; [done |]. destruct a; [apply IH | apply IH | done].
Qed.

Lemma send_n_defined s buf len : (len <= length buf)%nat -> send_n s buf len <> Undef.
Proof.
  intros Hl. unfold send_n. rewrite (proj2 (Nat.leb_le _ _)) by done.
  pose proof (send_n_loop_defined buf len 0 (sent s) (send_script s)).
  by destruct (send_n_loop _ _ _ _ _) as [[[? ?] ?] | |].
Qed.

Lemma send_packet_defined s p : packet_wf p -> protocol_send_packet s p <> Undef.
Proof.
  intros Hwf. unfold protocol_send_packet. rewrite packet_wf_guard by done. pose proof Hwf as [Hh Hpl].
  unfold protocol_send_header. destruct (MAX_PACKET_PAYLOAD <? payload_len (header p)); [done |].
  rewrite encode_wire_header_eq by done.
  pose proof (send_n_defined s (wire_header (header p)) TLV_WIRE_HEADER_SIZE) as Hd.
  rewrite length_wire_header in Hd by apply Hh. specialize (Hd ltac:(lia)).
  destruct (send_n _ _ _) as [[r s1] | |]; cbn [mbind outcome_bind]; [| done | done].
  destruct (negb _); [done |]. destruct (0 <? payload_len (header p)) eqn:E; [| done].
  destruct (payload p) as [l |]; [| zbool; lia]. cbn [deref mbind outcome_bind].
  pose proof (send_n_defined s1 l (Z.to_nat (payload_len (header p))) ltac:(lia)) as Hd1.
  destruct (send_n _ _ _) as [[r1 s2] | |]; cbn [mbind outcome_bind]; [| done | done]. by destruct (negb _).
Qed.

Lemma net_host_inverse v :
  is_u64 v -> net_to_host_u64 (host_to_net_u64 v) = v.
Proof.
  intros Hv. destruct (u64_words v Hv) as (hi & lo & Hh & Hl & ->).
  rewrite host_to_net_words by done.
  pose proof (htonl_range hi Hh). pose proof (htonl_range lo Hl).
  change net_to_host_u64 with host_to_net_u64.
  by rewrite host_to_net_words, !htonl_htonl by done.
Qed.

Lemma length_mem_of n v : length (mem_of n v) = n.
Proof. unfold mem_of. destruct big_endian; rewrite ?length_rev; apply length_bytes_le. Qed.

Lemma of_mem_of_u64 v : is_u64 v -> of_mem (mem_of 8 v) = v.
Proof.
  intros Hv. unfold of_mem, mem_of. destruct big_endian; rewrite ?rev_involutive, val_le_bytes_le;
    apply Z.mod_small; exact Hv.
Qed.

(** An offset or a size survives the conversions of both hosts' memory. *)
Lemma u64_field v : is_u64 v -> net_to_host_u64 (of_mem (mem_of 8 (host_to_net_u64 v))) = v.
Proof. intros Hv. rewrite of_mem_of_u64 by (by apply host_to_net_range). by apply net_host_inverse. Qed.

(** *** A socket whose peer is well behaved

    [out] was sent so far, [inp] is still to be read, and the kernel will take
    [room] more bytes. *)
Definition good_send (a : send_answer) : Prop := a <> SendError /\ a <> SendCount 0.

Record channel (out inp : list byte) (room : nat) (s : socket) : Prop := {
  ch_sent : sent s = out;
  ch_stream : stream (recv_script s) = inp;
  ch_clean : clean (recv_script s);
  ch_ok : Forall good_send (send_script s);
  ch_room : (room <= send_room (send_script s))%nat
}.

Lemma channel_buffers out inp room s n : channel out inp room s -> channel out inp room (add_buffers s n).
Proof. by intros []. Qed.

Lemma channel_room out inp m n s : channel out inp n s -> (m <= n)%nat -> channel out inp m s.
Proof. intros [] Hm. split; [done.. | lia]. Qed.

Lemma send_n_loop_suffix buf len total out answers r out' answers' :
  send_n_loop buf len total out answers = Ret (r, out', answers') -> exists l, answers = l ++ answers'.
Proof.
  revert total out. induction answers as [| a answers IH]; intros total out; cbn [send_n_loop];
    (destruct (len <=? total)%nat; [intros [= <- <- <-]; by exists [] |]); [done |].
  destruct a as [n | |].
  - intros Hs. apply IH in Hs as [l ->]. by exists (SendCount n :: l).
  - intros Hs. apply IH in Hs as [l ->]. by exists (SendEintr :: l).
  - intros [= <- <- <-]. by exists [SendError].
Qed.

Lemma good_send_ok l : Forall good_send l -> SendError ∉ l.
Proof. rewrite Forall_forall. intros Hl Hin. by apply Hl in Hin as [? _]. Qed.

Lemma channel_send_n out inp room s l :
  channel out inp (length l + room) s ->
  exists s', send_n s l (length l) = Ret (0, s') /\ channel (out ++ l) inp room s'.
Proof.
  intros []. destruct (send_n_total s l (length l)) as (s' & Hs & Hne & Hr); [by apply good_send_ok | done | lia |].
  exists s'. split; [done |]. pose proof Hs as Hsuf.
  apply send_n_spec in Hs as (n & sc & -> & [[_ ->] | [? _]]); [| done].
  split; simpl; try done.
  - by rewrite ch_sent0, take_ge.
  - unfold send_n in Hsuf. rewrite Nat.leb_refl in Hsuf. apply bind_Ret_inv in Hsuf as ([[r o] sc'] & Hl & Hk).
    cbn beta iota in Hk. assert (sc' = sc) as -> by (by injection Hk).
    apply send_n_loop_suffix in Hl as [pre Hpre]. rewrite Hpre in ch_ok0. by apply Forall_app in ch_ok0 as [_ ?].
  - simpl in Hr. lia.
Qed.

Lemma channel_header out inp room s h :
  header_wf h -> channel out inp (TLV_WIRE_HEADER_SIZE + room) s ->
  exists s', protocol_send_header s h = Ret (0, s') /\ channel (out ++ wire_header h) inp room s'.
Proof.
  intros Hwf Hch. pose proof Hwf as (_ & _ & Hl & Hsid). unfold protocol_send_header.
  rewrite (proj2 (Z.ltb_ge _ _)) by lia. rewrite encode_wire_header_eq by done.
  rewrite <- (length_wire_header h Hsid) in *. by apply channel_send_n.
Qed.

Lemma channel_send out inp room s p :
  packet_wf p -> channel out inp (length (wire_packet p) + room) s ->
  exists s', protocol_send_packet s p = Ret (0, s') /\ channel (out ++ wire_packet p) inp room s'.
Proof.
  intros Hwf Hch. unfold protocol_send_packet. rewrite (packet_wf_guard p Hwf).
  pose proof Hwf as [Hh Hpl]. unfold wire_packet in *. rewrite length_app, length_wire_header in Hch by apply Hh.
  destruct (channel_header out inp (length (default [] (payload p)) + room) s (header p)) as (s1 & -> & Hch1);
    [done | by rewrite Nat.add_assoc |].
  cbn [mbind outcome_bind Z.eqb negb]. destruct (Z.ltb_spec 0 (payload_len (header p))) as [Hpos | Hz].
  - destruct (packet_wf_payload p Hwf Hpos) as (l & Hp & Hl). rewrite Hp in *. cbn [deref mbind outcome_bind default] in *.
    replace (Z.to_nat (payload_len (header p))) with (length l) by lia.
    destruct (channel_send_n _ _ _ _ l Hch1) as (s2 & -> & Hch2). exists s2. by rewrite app_assoc.
  - exists s1. split; [done |]. destruct Hh as (_ & _ & ? & _).
    destruct (payload p) as [[| b l] |]; cbn [default] in *; [by rewrite app_nil_r | simpl in Hpl; lia | by rewrite app_nil_r].
Qed.

Lemma channel_recv malloc_ok out inp room s p :
  packet_wf p -> malloc_ok (payload_len (header p)) = true -> channel out (wire_packet p ++ inp) room s ->
  exists s', protocol_recv_packet malloc_ok s = Ret (0, received p, s') /\ channel out inp room s'.
Proof.
  intros Hwf Hm []. destruct (recv_wire_packet malloc_ok s p inp) as (s' & Hr & Hs & Hsc & Hc & Hst); [done.. |].
  exists s'. split; [done |]. split; [congruence | done | done | by rewrite Hsc | by rewrite Hsc].
Qed.

(** (C7) Round trip: when [protocol_send_packet] reports success for a
    well-formed packet, a receiver to whom the transmitted bytes are delivered
    in any fragmentation, with any interruptions, followed by any further bytes,
    obtains the same type, status, length, session id and payload, and the
    further bytes are left unread. *)
Theorem packet_roundtrip malloc_ok p s_out s_out' s_in rest :
  packet_wf p ->
  protocol_send_packet s_out p = Ret (0, s_out') ->
  malloc_ok (payload_len (header p)) = true ->
  clean (recv_script s_in) ->
  stream (recv_script s_in) = drop (length (sent s_out)) (sent s_out') ++ rest ->
  exists s_in', protocol_recv_packet malloc_ok s_in = Ret (0, received p, s_in') /\
    clean (recv_script s_in') /\ stream (recv_script s_in') = rest.
Proof.
  intros Hwf Hs Hm Hc Hst. rewrite (send_packet_wire _ _ _ Hwf Hs) in Hst.
  rewrite drop_app_length in Hst.
  destruct (recv_wire_packet malloc_ok s_in p rest) as (s' & Hr & _ & _ & Hc' & Hst'); eauto.
Qed.

(** (C21) Reception is safe against any peer: whatever bytes, errors and
    disconnections arrive, [protocol_recv_packet] has no undefined behaviour; on
    success the packet is well formed (length at most [MAX_PACKET_PAYLOAD],
    payload buffer exactly that long, owned when present), and on failure no
    payload buffer is left allocated. *)
Theorem recv_packet_safe malloc_ok s :
  protocol_recv_packet malloc_ok s <> Undef /\
  forall r p s', protocol_recv_packet malloc_ok s = Ret (r, p, s') ->
    sent s' = sent s /\
    (r = 0 /\ packet_wf p /\ owns_payload p = bool_decide (payload p <> None) /\
       buffers s' = buffers s + (if owns_payload p then 1 else 0)
     \/ r = -1 /\ payload p = None /\ buffers s' = buffers s).
Proof. apply recv_packet_cases. Qed.

(** [net_to_host_u64] inverts [host_to_net_u64] on every 64-bit value, on
    little-endian and big-endian hosts alike. *)
Theorem host_net_u64_roundtrip v :
  is_u64 v -> net_to_host_u64 (host_to_net_u64 v) = v.
Proof. apply net_host_inverse. Qed.

(** The header written by [encode_wire_header] is the documented 36-byte
    layout, all fields big-endian, whatever the host's byte order. *)
Theorem encode_wire_header_layout h :
  header_wf h ->
  encode_wire_header h = wire_header h /\
  length (encode_wire_header h) = TLV_WIRE_HEADER_SIZE.
Proof.
  intros Hwf. rewrite encode_wire_header_eq by done. split; [done |].
  apply length_wire_header. apply Hwf.
Qed.

(** The 8 bytes that carry an offset or a size ([resume_payload_t], the
    [file_size] fields) are the big-endian value on a little-endian host; on a
    big-endian host the conversion exchanges the two 32-bit words, so the two
    kinds of host do not agree on the wire. *)
Theorem u64_wire_image hi lo :
  is_u32 hi -> is_u32 lo ->
  mem_of 8 (host_to_net_u64 (hi * 2 ^ 32 + lo)) =
    if big_endian then be32 lo ++ be32 hi else be32 hi ++ be32 lo.
Proof.
  intros Hh Hl. rewrite host_to_net_words by done.
  assert (Hval : forall a b, is_u32 a -> is_u32 b ->
    bytes_le 8 (a * 2 ^ 32 + b) = bytes_le 4 b ++ bytes_le 4 a).
  { intros a b Ha Hb. rewrite <- (bytes_le_val_le (bytes_le 4 b ++ bytes_le 4 a)).
    rewrite val_le_app, !val_le_bytes_le, length_app, !length_bytes_le.
    f_equal. unfold is_u32, u32_mod in *. change (8 * Z.of_nat 4) with 32.
    rewrite !Z.mod_small by lia. lia. }
  pose proof (htonl_range hi Hh). pose proof (htonl_range lo Hl).
  pose proof (mem_of_htonl hi) as Hmh. pose proof (mem_of_htonl lo) as Hml.
  unfold mem_of in *. rewrite Hval by done.
  destruct big_endian; [rewrite rev_app_distr |]; by rewrite Hmh, Hml.
Qed.

(** Transmission completes: on a socket whose kernel accepts enough bytes
    in whatever portions, interrupting at will but never failing,
    [protocol_send_packet] returns 0 for every well-formed packet. *)
Theorem send_packet_completes s p :
  packet_wf p -> SendError ∉ send_script s ->
  (length (wire_packet p) <= send_room (send_script s))%nat ->
  exists s', protocol_send_packet s p = Ret (0, s').
Proof.
  intros Hwf Hne Hroom. unfold protocol_send_packet. rewrite (packet_wf_guard p Hwf).
  pose proof Hwf as [Hh Hpl]. unfold protocol_send_header.
  destruct (Z.ltb_spec MAX_PACKET_PAYLOAD (payload_len (header p))).
  { destruct Hh as (_ & _ & ? & _). lia. }
  pose proof (length_wire_header (header p) ltac:(apply Hh)) as Hlen.
  unfold wire_packet in Hroom. rewrite length_app, Hlen in Hroom.
  rewrite encode_wire_header_eq by done.
  destruct (send_n_total s (wire_header (header p)) TLV_WIRE_HEADER_SIZE)
    as (s1 & -> & Hne1 & Hr1); [done | lia | lia |].
  cbn [mbind outcome_bind Z.eqb negb].
  destruct (Z.ltb_spec 0 (payload_len (header p))) as [Hpos |]; [| eauto].
  destruct (packet_wf_payload p Hwf Hpos) as (l & Hp & Hl). rewrite Hp in *.
  change (default [] (Some l)) with l in Hroom. cbn [deref mbind outcome_bind].
  destruct (send_n_total s1 l (Z.to_nat (payload_len (header p))))
    as (s2 & -> & _); [done | lia | lia |].
  cbn. eauto.
Qed.

End Results.

(** ** Witnesses *)

Definition demo_sid : session_id := map byte_of (seqZ 1 16).

Definition demo_packet : packet :=
  {| header := {| type := CMD_PWD; status := STATUS_OK; payload_len := 5;
                  session_id_of := demo_sid |};
     payload := Some (lit "hello"); owns_payload := false |}.

Definition demo_out : socket :=
  {| sent := []; send_script := SendCount 10 :: SendEintr :: replicate 50 (SendCount 3);
     recv_script := []; buffers := 0 |}.

Lemma demo_packet_wf : packet_wf demo_packet.
Proof. by vm_compute. Qed.


Definition demo_chunks (l : list byte) : list recv_answer :=
  RecvEintr :: RecvBytes (take 7 l) :: RecvEintr :: RecvBytes (take 32 (drop 7 l)) ::
  RecvBytes (drop 39 l) :: [].

Definition demo_in : socket :=
  {| sent := []; send_script := [];
     recv_script := demo_chunks (@wire_packet demo_packet ++ lit "tail"); buffers := 0 |}.

Lemma packet_roundtrip_witness :
  exists s_in', @protocol_recv_packet false (fun _ => true) demo_in =
      Ret (0, received demo_packet, s_in') /\
    clean (recv_script s_in') /\ stream (recv_script s_in') = lit "tail".
Proof.
  eapply (@packet_roundtrip false (fun _ => true) demo_packet demo_out _ demo_in (lit "tail")).
  - exact demo_packet_wf.
  - vm_compute. reflexivity.
  - reflexivity.
  - repeat constructor; discriminate.
  - vm_compute. reflexivity.
Defined.

Lemma host_net_u64_roundtrip_witness :
  @net_to_host_u64 false (@host_to_net_u64 false 0x0102030405060708) = 0x0102030405060708.
Proof. apply (@host_net_u64_roundtrip false). by vm_compute. Defined.

Lemma encode_wire_header_layout_witness :
  @encode_wire_header false (header demo_packet) = wire_header (header demo_packet) /\
  length (@encode_wire_header false (header demo_packet)) = TLV_WIRE_HEADER_SIZE.
Proof. apply (@encode_wire_header_layout false). exact (proj1 demo_packet_wf). Defined.

Lemma u64_wire_image_witness :
  @mem_of true 8 (@host_to_net_u64 true (1 * 2 ^ 32 + 2)) = be32 2 ++ be32 1.
Proof. apply (@u64_wire_image true 1 2); by vm_compute. Defined.

Lemma send_packet_completes_witness :
  exists s', @protocol_send_packet false demo_out demo_packet = Ret (0, s').
Proof.
  apply (@send_packet_completes false).
  - exact demo_packet_wf.
  - apply (bool_decide_eq_true_1 _). vm_compute. reflexivity.
  - apply Nat.leb_le. vm_compute. reflexivity.
Defined.
