(* ===== verification/CString.v ===== *)
(** * C strings and buffers

    The string functions of the C library that the sources call, on strings
    given as the bytes before their terminating NUL. *)

From Stdlib Require Import Strings.Byte.
From S2P Require Import Prelude.

(** ** Characters *)

Definition NUL : byte := x00.
Definition SLASH : byte := x2f.
Definition DOT : byte := x2e.
Definition NEWLINE : byte := x0a.
Definition SPACE : byte := x20.
Definition TAB : byte := x09.
Definition TILDE : byte := x7e.

(** [isspace] and [isxdigit] in the C locale. *)
Definition isspace (b : byte) : bool :=
  let v := byte_val b in ((9 <=? v) && (v <=? 13)) || (v =? 32).
Definition isxdigit (b : byte) : bool :=
  let v := byte_val b in
  ((48 <=? v) && (v <=? 57)) || ((65 <=? v) && (v <=? 70)) || ((97 <=? v) && (v <=? 102)).

(** [tolower] in the C locale, and [strcasecmp(a, b) == 0]. *)
Definition tolower (b : byte) : byte :=
  let v := byte_val b in
  if (65 <=? v) && (v <=? 90) then byte_of (v + 32) else b.
Definition strcaseeq (a b : list byte) : bool := bool_decide (map tolower a = map tolower b).

(** ** Strings in memory *)

Fixpoint take_while (p : byte -> bool) (l : list byte) : list byte :=
  match l with
  | [] => []
  | b :: l' => if p b then b :: take_while p l' else []
  end.

Fixpoint drop_while (p : byte -> bool) (l : list byte) : list byte :=
  match l with
  | [] => []
  | b :: l' => if p b then drop_while p l' else l
  end.

(** The string that a NUL-terminated buffer holds. *)
Definition cstr (l : list byte) : list byte := take_while (fun b => bool_decide (b <> NUL)) l.

(** A byte list that is the contents of a C string. *)
Definition is_cstr (l : list byte) : Prop := NUL ∉ l.

(** [strchr] and [strrchr], as the index of the first and of the last [c]. *)
Fixpoint strchr (c : byte) (s : list byte) : option nat :=
  match s with
  | [] => None
  | b :: s' => if bool_decide (b = c) then Some 0%nat else S <$> strchr c s'
  end.

Fixpoint strrchr (c : byte) (s : list byte) : option nat :=
  match s with
  | [] => None
  | b :: s' =>
      match strrchr c s' with
      | Some i => Some (S i)
      | None => if bool_decide (b = c) then Some 0%nat else None
      end
  end.

(** [strtok_r]: skip delimiters, then take the run up to the next one; the
    second component is the new [saveptr]. *)
Definition strtok (delim : byte) (s : list byte) : option (list byte * list byte) :=
  let s := drop_while (fun b => bool_decide (b = delim)) s in
  match s with
  | [] => None
  | _ =>
      let token := take_while (fun b => bool_decide (b <> delim)) s in
      Some (token, drop (S (length token)) s)
  end.

(** [snprintf(dst, size, ...)] producing the text [s]: the return value and,
    when [size > 0], the string left in [dst]. *)
Definition snprintf (size : Z) (s : list byte) : Z * list byte :=
  (Z.of_nat (length s), take (Z.to_nat (size - 1)) s).

(** [strncpy(dst, src, n - 1); dst[n - 1] = 0] seen as a string. *)
Definition strncpy0 (n : Z) (s : list byte) : list byte := take (Z.to_nat (n - 1)) s.

(** POSIX [basename] on a string that is not empty. *)
Definition strip_slashes (s : list byte) : list byte :=
  rev (drop_while (fun b => bool_decide (b = SLASH)) (rev s)).
Definition basename (s : list byte) : list byte :=
  match strip_slashes s with
  | [] => match s with [] => [DOT] | _ => [SLASH] end
  | t => match strrchr SLASH t with Some i => drop (S i) t | None => t end
  end.

(** ** Lemmas *)

Lemma take_drop_while p l : take_while p l ++ drop_while p l = l.
Proof.
  induction l as [| b l IH]; simpl; [done |]. destruct (p b); simpl; [by rewrite IH | done].
Qed.

Lemma take_while_Forall p l : Forall (fun b => p b = true) (take_while p l).
Proof. induction l as [| b l IH]; simpl; [constructor |]. destruct (p b) eqn:E; by constructor. Qed.

Lemma drop_while_head p l b l' : drop_while p l = b :: l' -> p b = false.
Proof.
  induction l as [| c l IH]; simpl; [done |]. destruct (p c) eqn:E; [done |]. by intros [= <- <-].
Qed.

Lemma length_drop_while p l : (length (drop_while p l) <= length l)%nat.
Proof. induction l as [| b l IH]; simpl; [lia |]. destruct (p b); simpl; lia. Qed.

Lemma take_while_all p l : Forall (fun b => p b = true) l -> take_while p l = l.
Proof. induction 1 as [| b l Hb Hl IH]; simpl; [done |]. by rewrite Hb, IH. Qed.

Lemma take_while_app p l1 l2 :
  Forall (fun b => p b = true) l1 -> take_while p (l1 ++ l2) = l1 ++ take_while p l2.
Proof. induction 1 as [| b l Hb Hl IH]; simpl; [done |]. by rewrite Hb, IH. Qed.

Lemma cstr_is_cstr l : is_cstr (cstr l).
Proof.
  intros Hin. pose proof (take_while_Forall (fun b => bool_decide (b <> NUL)) l) as Hf.
  rewrite Forall_forall in Hf. specialize (Hf _ Hin). by apply bool_decide_eq_true_1 in Hf.
Qed.

Lemma cstr_id l : is_cstr l -> cstr l = l.
Proof.
  intros Hl. apply take_while_all, Forall_forall. intros b Hb.
  apply bool_decide_eq_true_2. intros ->. done.
Qed.

Lemma length_take_while p l : (length (take_while p l) <= length l)%nat.
Proof. induction l as [| b l IH]; simpl; [lia |]. destruct (p b); simpl; lia. Qed.

Lemma strrchr_None c s : strrchr c s = None -> c ∉ s.
Proof.
  induction s as [| b s IH]; simpl; [intros _; apply not_elem_of_nil |].
  destruct (strrchr c s); [done |]. case_bool_decide; [done |]. intros _.
  apply not_elem_of_cons. split; [done | by apply IH].
Qed.

Lemma strrchr_Some c s i :
  strrchr c s = Some i -> s = take i s ++ c :: drop (S i) s /\ (c ∉ drop (S i) s) /\ (i < length s)%nat.
Proof.
  revert i. induction s as [| b s IH]; simpl; intros i; [done |].
  destruct (strrchr c s) as [j |] eqn:E.
  - intros [= <-]. destruct (IH j eq_refl) as (Hs & Hn & Hl). simpl.
    split_and!; [by f_equal | done | lia].
  - case_bool_decide; [| done]. intros [= <-]. simpl. rewrite drop_0.
    split_and!; [by subst | by apply strrchr_None | lia].
Qed.

Lemma strrchr_app c s1 s2 :
  c ∉ s2 -> strrchr c (s1 ++ c :: s2) = Some (length s1).
Proof.
  intros Hn. assert (Hnone : strrchr c s2 = None).
  { destruct (strrchr c s2) as [i |] eqn:E; [| done].
    apply strrchr_Some in E as (Hs & _). exfalso. apply Hn. rewrite Hs. set_solver. }
  induction s1 as [| b s1 IH]; simpl.
  - by rewrite Hnone, bool_decide_eq_true_2.
  - by rewrite IH.
Qed.

(** ** Decimal numbers *)

Definition isdigit (b : byte) : bool := let v := byte_val b in (48 <=? v) && (v <=? 57).
Definition digit (d : Z) : byte := byte_of (48 + d).

(** [%lu] and [%llu]: an unsigned 64-bit number has at most twenty digits. *)
Fixpoint dec_loop (fuel : nat) (z : Z) (acc : list byte) : list byte :=
  match fuel with
  | O => acc
  | S fuel => let acc := digit (z mod 10) :: acc in
              if z / 10 =? 0 then acc else dec_loop fuel (z / 10) acc
  end.
Definition dec (z : Z) : list byte := dec_loop 20 z [].

(** [%d] *)
Definition sdec (z : Z) : list byte := if z <? 0 then x2d :: dec (- z) else dec z.

(** The value of the digits a string starts with. *)
Definition digits_val (s : list byte) : Z :=
  foldl (fun v b => 10 * v + (byte_val b - 48)) 0 (take_while isdigit s).

(** An optional sign, then the number ([true] for a minus sign). *)
Definition signed_digits (s : list byte) : bool * Z :=
  match drop_while isspace s with
  | x2d :: s => (true, digits_val s)
  | x2b :: s => (false, digits_val s)
  | s => (false, digits_val s)
  end.

(** [strtoull(s, NULL, 10)] and [strtol(s, NULL, 10)] *)
Definition strtoull (s : list byte) : Z :=
  let (neg, v) := signed_digits s in
  if u64_mod <=? v then u64_mod - 1 else if neg : bool then u64 (- v) else v.
Definition strtol (s : list byte) : Z :=
  let (neg, v) := signed_digits s in
  let v := if neg : bool then - v else v in
  Z.max (- 2 ^ 63) (Z.min v (2 ^ 63 - 1)).

(** [strtol(s, &end, 10)]: the text at [end], [None] when there is no number and
    [end] is [s]; and whether [errno] becomes [ERANGE] *)
Definition strtol_end (s : list byte) : option (list byte) :=
  let body := match drop_while isspace s with x2d :: s => s | x2b :: s => s | s => s end in
  match take_while isdigit body with
  | [] => None
  | _ => Some (drop_while isdigit body)
  end.
Definition strtol_erange (s : list byte) : bool :=
  let (neg, v) := signed_digits s in
  let v := if neg : bool then - v else v in
  (v <? - 2 ^ 63) || (2 ^ 63 - 1 <? v).

(** Conversion of a [long] to an [int]. *)
Definition to_int (z : Z) : Z := let v := u32 z in if 2 ^ 31 <=? v then v - u32_mod else v.

Definition is_int (z : Z) : Prop := - 2 ^ 31 <= z < 2 ^ 31.
Lemma to_int_range z : is_int (to_int z).
Proof.
  unfold is_int, to_int. cbn zeta. pose proof (Z.mod_pos_bound z u32_mod eq_refl). fold (u32 z) in *. unfold u32_mod in *.
  destruct (Z.leb_spec (2 ^ 31) (u32 z)); lia.
Qed.
Lemma to_int_id z : is_int z -> to_int z = z.
Proof.
  unfold is_int, to_int, u32, u32_mod. intros Hz. cbn zeta. destruct (Z.ltb_spec z 0).
  - rewrite <- (Z.mod_unique z (2 ^ 32) (-1) (z + 2 ^ 32)) by lia. destruct (Z.leb_spec (2 ^ 31) (z + 2 ^ 32)); lia.
  - rewrite Z.mod_small by lia. destruct (Z.leb_spec (2 ^ 31) z); lia.
Qed.

Lemma digit_val d : 0 <= d < 10 -> byte_val (digit d) = 48 + d.
Proof. intros Hd. unfold digit. rewrite byte_val_of. apply Z.mod_small. lia. Qed.

Lemma isdigit_digit d : 0 <= d < 10 -> isdigit (digit d) = true.
Proof.
  intros Hd. unfold isdigit. rewrite digit_val by done.
  apply andb_true_iff. split; apply Z.leb_le; lia.
Qed.

Lemma dec_loop_spec fuel z acc :
  0 <= z < 10 ^ Z.of_nat fuel -> (0 < fuel)%nat ->
  exists ds, dec_loop fuel z acc = ds ++ acc /\ ds <> [] /\ Forall (fun b => isdigit b = true) ds /\
    forall v, foldl (fun v b => 10 * v + (byte_val b - 48)) v ds = v * 10 ^ Z.of_nat (length ds) + z.
Proof.
  revert z acc. induction fuel as [| fuel IH]; intros z acc Hz Hf; [lia |].
  cbn [dec_loop]. pose proof (Z.mod_pos_bound z 10 ltac:(lia)) as Hm.
  destruct (Z.eqb_spec (z / 10) 0) as [E | E].
  - exists [digit (z mod 10)]. split_and!; [done | done | |].
    + constructor; [by apply isdigit_digit | constructor].
    + intros v. cbn [foldl length]. rewrite digit_val by done.
      pose proof (Z.div_mod z 10 ltac:(lia)). lia.
  - destruct fuel as [| fuel]; [change (10 ^ Z.of_nat 1) with 10 in Hz; rewrite Z.div_small in E; lia |].
    destruct (IH (z / 10) (digit (z mod 10) :: acc)) as (ds & Heq & Hne & Hds & Hv); [| lia |].
    { replace (Z.of_nat (S (S fuel))) with (1 + Z.of_nat (S fuel)) in Hz by lia.
      rewrite Z.pow_add_r in Hz by lia. split; [apply Z.div_pos; lia |]. apply Z.div_lt_upper_bound; lia. }
    exists (ds ++ [digit (z mod 10)]). rewrite Heq, <- app_assoc. split_and!; [done | by destruct ds | |].
    + apply Forall_app. split; [done |]. constructor; [by apply isdigit_digit | constructor].
    + intros v. rewrite foldl_app, Hv. cbn [foldl]. rewrite digit_val by done.
      rewrite length_app. cbn [length]. replace (Z.of_nat (length ds + 1)) with (Z.of_nat (length ds) + 1) by lia.
      rewrite Z.pow_add_r by lia. pose proof (Z.div_mod z 10 ltac:(lia)). lia.
Qed.

Lemma isdigit_range b : isdigit b = true -> 48 <= byte_val b <= 57.
Proof. unfold isdigit. intros H. apply andb_prop in H as [H1 H2]. apply Z.leb_le in H1, H2. lia. Qed.

Lemma signed_digits_unsigned b s :
  isdigit b = true -> signed_digits (b :: s) = (false, digits_val (b :: s)).
Proof. destruct b; simpl; intros H; done || (apply isdigit_range in H; vm_compute in H; lia). Qed.

Lemma dec_digits z :
  is_u64 z -> exists b ds, dec z = b :: ds /\ Forall (fun b => isdigit b = true) (b :: ds) /\
    digits_val (b :: ds) = z.
Proof.
  intros Hz. destruct (dec_loop_spec 20 z []) as (ds & Heq & Hne & Hds & Hv);
    [unfold is_u64, u64_mod in Hz; lia | lia |].
  unfold dec. rewrite Heq, app_nil_r. destruct ds as [| b ds]; [done |]. exists b, ds.
  split_and!; [done | done |]. unfold digits_val.
  rewrite take_while_all; [rewrite Hv; lia |].
  apply Forall_forall. intros c Hc. rewrite Forall_forall in Hds. auto.
Qed.

(** Printing and reading a 64-bit number gives it back. *)
Lemma strtoull_dec z : is_u64 z -> strtoull (dec z) = z.
Proof.
  intros Hz. destruct (dec_digits z Hz) as (b & ds & -> & Hds & Hv).
  unfold strtoull. rewrite signed_digits_unsigned by (by inversion Hds). rewrite Hv.
  unfold is_u64 in Hz. by rewrite (proj2 (Z.leb_gt _ _)) by lia.
Qed.

Lemma strtol_dec z : 0 <= z < 2 ^ 63 -> strtol (dec z) = z.
Proof.
  intros Hz. destruct (dec_digits z) as (b & ds & -> & Hds & Hv); [unfold is_u64, u64_mod; lia |].
  unfold strtol. rewrite signed_digits_unsigned by (by inversion Hds). rewrite Hv. lia.
Qed.

Lemma strtol_sdec z : - 2 ^ 63 < z < 2 ^ 63 -> strtol (sdec z) = z.
Proof.
  intros Hz. unfold sdec. destruct (Z.ltb_spec z 0); [| apply strtol_dec; lia].
  destruct (dec_digits (- z)) as (b & ds & -> & Hds & Hv); [unfold is_u64, u64_mod; lia |].
  unfold strtol. change (signed_digits (x2d :: b :: ds)) with (true, digits_val (b :: ds)). rewrite Hv. lia.
Qed.

Lemma strtol_end_dec z : is_u64 z -> strtol_end (dec z) = Some [].
Proof.
  intros Hz. destruct (dec_digits z Hz) as (b & ds & -> & Hds & _). unfold strtol_end.
  assert (Hb : match drop_while isspace (b :: ds) with x2d :: s => s | x2b :: s => s | s => s end = b :: ds).
  { inversion_clear Hds as [| ? ? Hb _]. destruct b; done || (apply isdigit_range in Hb; vm_compute in Hb; lia). }
  rewrite Hb. pose proof (take_drop_while isdigit (b :: ds)) as Hd.
  rewrite (take_while_all isdigit (b :: ds)) in * by exact Hds.
  rewrite <- (app_nil_r (b :: ds)) in Hd at 3. by apply app_inv_head in Hd as ->.
Qed.

Lemma dec_no_special z c : is_u64 z -> isdigit c = false -> c ∉ dec z.
Proof.
  intros Hz Hc Hin. destruct (dec_digits z Hz) as (b & ds & Heq & Hds & _). rewrite Heq in Hin.
  rewrite Forall_forall in Hds. apply Hds in Hin. congruence.
Qed.

Lemma length_dec_loop fuel z acc : (length (dec_loop fuel z acc) <= fuel + length acc)%nat.
Proof.
  revert z acc. induction fuel as [| fuel IH]; intros z acc; simpl; [lia |].
  destruct (z / 10 =? 0); simpl; [lia |]. specialize (IH (z / 10) (digit (z mod 10) :: acc)). simpl in IH. lia.
Qed.

Lemma length_dec z : (length (dec z) <= 20)%nat.
Proof. unfold dec. pose proof (length_dec_loop 20 z []) as Hl. simpl length in Hl at 2. lia. Qed.
