(* ===== verification/Utils.v ===== *)
(** * Path and text utilities ([src/common/utils.c])

    Path normalisation and joining, directory creation, name extraction, line
    and password input, and the SHA-256 text check.  Out-parameters are
    results: [Some dst] is a return value of 0 with [dst] written, [None] is -1. *)

From Stdlib Require Import Strings.Byte.
From S2P Require Import Prelude CString Protocol.

(** ** Path normalisation *)

Definition DOTDOT : list byte := [DOT; DOT].

(** The token loop of [normalize_cd_path].  [parts] holds [parts[0..depth-1]];
    writing past the array of [PATH_MAX / 2] pointers is undefined. *)
Fixpoint normalize_tokens (fuel : nat) (rest : list byte) (parts : list (list byte))
    : outcome (list (list byte)) :=
  match fuel with
  | O => NoReturn
  | S fuel =>
      match strtok SLASH rest with
      | None => Ret parts
      | Some (token, rest) =>
          if bool_decide (token = [DOT]) then normalize_tokens fuel rest parts
          else if bool_decide (token = DOTDOT) then
            normalize_tokens fuel rest
              (if (0 <? length parts)%nat then take (length parts - 1) parts else parts)
          else if (length parts <? Z.to_nat (PATH_MAX / 2))%nat then
            normalize_tokens fuel rest (parts ++ [token])
          else Undef
      end
  end.

(** The output loop: append ["/" part] while it fits in [out_size] bytes. *)
Fixpoint normalize_output (out_size : Z) (out : list byte) (parts : list (list byte))
    : option (list byte) :=
  match parts with
  | [] => Some out
  | part :: parts =>
      if out_size <? Z.of_nat (length out) + 1 + Z.of_nat (length part) + 1 then None
      else normalize_output out_size (out ++ [SLASH] ++ part) parts
  end.

Definition normalize_cd_path (cwd cd_arg : list byte) (out_size : Z)
    : outcome (option (list byte)) :=
  if out_size =? 0 then Ret None
  else
    let text :=
      match cd_arg with
      | b :: _ => if bool_decide (b = SLASH) then cd_arg
                  else if bool_decide (cwd = [SLASH]) then [SLASH] ++ cd_arg
                  else cwd ++ [SLASH] ++ cd_arg
      | [] => if bool_decide (cwd = [SLASH]) then [SLASH] ++ cd_arg
              else cwd ++ [SLASH] ++ cd_arg
      end in
    let '(written, path) := snprintf PATH_MAX text in
    if PATH_MAX <=? written then Ret None
    else
      parts ← normalize_tokens (S (length path)) path [];
      if (length parts =? 0)%nat then
        (* strcpy(out, "/") writes two bytes *)
        if out_size <? 2 then Undef else Ret (Some [SLASH])
      else Ret (normalize_output out_size [] parts).

(** ** Joining and splitting *)

Definition join_path (dst_size : Z) (base_dir path : list byte) : option (list byte) :=
  let text :=
    match path with
    | b :: _ =>
        if bool_decide (b = SLASH) then path
        else match last base_dir with
             | None => path
             | Some c => if bool_decide (c = SLASH) then base_dir ++ path
                         else base_dir ++ [SLASH] ++ path
             end
    | [] => match last base_dir with
            | None => path
            | Some c => if bool_decide (c = SLASH) then base_dir ++ path
                        else base_dir ++ [SLASH] ++ path
            end
    end in
  let '(n, dst) := snprintf dst_size text in
  if dst_size <=? n then None else Some dst.

(** [get_executable_dir]: [link] is what [readlink] finds ([None]: it fails) and
    [dir] the string in the caller's buffer before ([None]: not initialised, and
    then [strrchr] must not read it); [size] is positive. *)
Definition get_executable_dir (link dir : option (list byte)) (size : Z) : outcome (option (list byte)) :=
  dir ← deref (match link with Some target => Some (take (Z.to_nat (size - 1)) target) | None => dir end);
  Ret (match strrchr SLASH dir with None => None | Some i => Some (take i dir) end).

(** [get_parent_dir] after [realpath] resolved the path to [resolved]. *)
Definition get_parent_dir (realpath : list byte -> option (list byte))
    (path : list byte) (size : Z) : option (list byte) :=
  match realpath path with
  | None => None
  | Some resolved =>
      match strrchr SLASH resolved with
      | None => None
      | Some i =>
          let resolved := if (i =? 0)%nat then take 1 resolved else take i resolved in
          let '(n, dir) := snprintf size resolved in
          if size <=? n then None else Some dir
      end
  end.

(** [get_project_dir] when [getcwd] yields [cwd]. *)
Definition get_project_dir (getcwd : option (list byte)) (size : Z) : option (list byte) :=
  match getcwd with
  | None => None
  | Some cwd =>
      let cwd :=
        match strrchr SLASH cwd with
        | Some i => if bool_decide (drop (S i) cwd = lit "bin") then take i cwd else cwd
        | None => cwd
        end in
      let '(n, path) := snprintf size cwd in
      if size <=? n then None else Some path
  end.

Definition utils_get_base_name (path : list byte) (len : Z) : option (list byte) :=
  if len <=? 0 then None
  else
    let path_len := Z.min (Z.of_nat (length path)) PATH_MAX in
    if (path_len =? 0) || (path_len =? PATH_MAX) then None
    else
      let base := basename path in
      let base_len := Z.of_nat (length base) in
      if (base_len =? 0) || (len <=? base_len) then None else Some base.

(** [home] is the result of [getenv("HOME")]. *)
Definition utils_expand_local_path (home : option (list byte)) (path : list byte)
    (out_size : Z) : option (list byte) :=
  let finish text :=
    let '(written, out) := snprintf out_size text in
    if out_size <=? written then None else Some out in
  match path with
  | c :: rest =>
      if bool_decide (c = TILDE) &&
         match rest with [] => true | d :: _ => bool_decide (d = SLASH) end
      then match home with
           | None | Some [] => None
           | Some h => finish (h ++ rest)
           end
      else finish path
  | [] => finish path
  end.

(** ** Directory creation

    [mkdir path fs] is the system call: the new file system and whether the
    directory now exists (success, or failure with [EEXIST]). *)
Section Mkdir.
Context {FS : Type} (mkdir : list byte -> FS -> bool * FS).

(** The loop over [tmp + 1]: [pre] is what [p] has passed, [rest] starts at [p]. *)
Fixpoint mkdir_prefixes (pre rest : list byte) (fs : FS) : bool * FS :=
  match rest with
  | [] => (true, fs)
  | b :: rest =>
      if bool_decide (b = SLASH) then
        let '(ok, fs) := mkdir pre fs in
        if ok then mkdir_prefixes (pre ++ [b]) rest fs else (false, fs)
      else mkdir_prefixes (pre ++ [b]) rest fs
  end.

Definition mkdir_p (path : list byte) (fs : FS) : Z * FS :=
  match path with
  | [] => (-1, fs)
  | _ =>
      if PATH_MAX <=? Z.of_nat (length path) then (-1, fs)
      else
        let tmp :=
          if (1 <? length path)%nat && bool_decide (last path = Some SLASH)
          then take (length path - 1) path else path in
        let '(ok, fs) := mkdir_prefixes (take 1 tmp) (drop 1 tmp) fs in
        if ok then
          let '(ok, fs) := mkdir tmp fs in
          if ok then (0, fs) else (-1, fs)
        else (-1, fs)
  end.

Definition ensure_parent_dir (path : list byte) (fs : FS) : Z * FS :=
  let '(n, dir) := snprintf PATH_MAX path in
  if PATH_MAX <=? n then (-1, fs)
  else match strrchr SLASH dir with
       | None => (0, fs)
       | Some i => mkdir_p (if (i =? 0)%nat then take 1 dir else take i dir) fs
       end.

End Mkdir.

(** ** Text *)

Definition is_blank (b : byte) : bool := bool_decide (b = SPACE) || bool_decide (b = TAB).
Definition is_trailing_blank (b : byte) : bool :=
  is_blank b || bool_decide (b = NEWLINE) || bool_decide (b = x0d).

Definition trim (s : list byte) : list byte :=
  let s := drop_while is_blank s in
  rev (drop_while is_trailing_blank (rev s)).

(** [fgets(s, size, fp)] on the remaining input: the bytes stored (before the
    terminating NUL) and the input left; [None] at end of file. *)
Fixpoint fgets_loop (room : nat) (input acc : list byte) : list byte * list byte :=
  match room, input with
  | O, _ | _, [] => (acc, input)
  | S room, b :: input =>
      if bool_decide (b = NEWLINE) then (acc ++ [b], input)
      else fgets_loop room input (acc ++ [b])
  end.

Definition fgets (size : Z) (input : list byte) : option (list byte * list byte) :=
  match input with
  | [] => None
  | _ => Some (fgets_loop (Z.to_nat (size - 1)) input [])
  end.

(** The loop that swallows the rest of the line. *)
Definition skip_line (input : list byte) : list byte :=
  drop 1 (drop_while (fun b => bool_decide (b <> NEWLINE)) input).

Definition s_fgets (size : Z) (input : list byte) : option (list byte * list byte) :=
  '(buf, input) ← fgets size input;
  match strchr NEWLINE (cstr buf) with
  | Some i => Some (take i buf, input)
  | None => Some (cstr buf, skip_line input)
  end.

Definition s_gets (size : Z) (stdin : list byte) : option (list byte * list byte) :=
  s_fgets size stdin.

(** The character loop of [read_password]; [None] is end of file. *)
Fixpoint read_password_loop (size : Z) (input buf : list byte)
    : list byte * bool * list byte :=
  match input with
  | [] => (buf, true, [])
  | ch :: input =>
      if bool_decide (ch = NEWLINE) then (buf, false, input)
      else if bool_decide (ch = x7f) || bool_decide (ch = x08) then
        read_password_loop size input (take (length buf - 1) buf)
      else if Z.of_nat (length buf) + 1 <? size then
        read_password_loop size input (buf ++ [ch])
      else read_password_loop size input buf
  end.

(** [term_ok] is the success of the [tcgetattr]/[tcsetattr] calls. *)
Definition read_password (term_ok : bool) (size : Z) (input : list byte)
    : Z * list byte * list byte :=
  if (size =? 0) || negb term_ok then (-1, [], input)
  else
    let '(buf, eof, input) := read_password_loop size input [] in
    if eof && (length buf =? 0)%nat then (-1, buf, input) else (0, buf, input).

(** Broken-down time, with the fields that the format uses *)
Record tm := { tm_year : Z; tm_mon : Z; tm_mday : Z; tm_hour : Z; tm_min : Z; tm_sec : Z }.

Definition two_digits (z : Z) : list byte := (if z <? 10 then lit "0" else []) ++ dec z.

(** [strftime] with the format "%Y-%m-%d %H:%M:%S": [None] when the text and its
    terminator do not fit. *)
Definition strftime (size : Z) (t : tm) : option (list byte) :=
  let text := sdec (tm_year t + 1900) ++ lit "-" ++ two_digits (tm_mon t + 1) ++ lit "-" ++ two_digits (tm_mday t) ++
              lit " " ++ two_digits (tm_hour t) ++ lit ":" ++ two_digits (tm_min t) ++ lit ":" ++ two_digits (tm_sec t) in
  if Z.of_nat (length text) <? size then Some text else None.

(** The string left in [dest]; [None]: nothing is written. *)
Definition utils_format_current_time (local_time : option tm) (dest_size : Z) : option (list byte) :=
  if dest_size =? 0 then None
  else Some (match local_time with
             | None => []
             | Some t => default [] (strftime dest_size t)
             end).

Definition utils_is_valid_sha256_hex (s : list byte) : bool :=
  (length s =? 64)%nat && forallb isxdigit s.

(** ** Reference notions *)

(** The components of a path: its maximal runs without slash. *)
Fixpoint components_loop (cur s : list byte) : list (list byte) :=
  match s with
  | [] => match cur with [] => [] | _ => [cur] end
  | b :: s =>
      if bool_decide (b = SLASH)
      then match cur with [] => components_loop [] s | _ => cur :: components_loop [] s end
      else components_loop (cur ++ [b]) s
  end.
Definition components (s : list byte) : list (list byte) := components_loop [] s.

(** Resolving [.] and [..] against a directory given by its components. *)
Definition resolve_step (dir : list (list byte)) (name : list byte) : list (list byte) :=
  if bool_decide (name = [DOT]) then dir
  else if bool_decide (name = DOTDOT) then removelast dir
  else dir ++ [name].
Definition resolve (dir names : list (list byte)) : list (list byte) :=
  foldl resolve_step dir names.

(** The absolute path text of a directory. *)
Definition render (dir : list (list byte)) : list byte :=
  match dir with
  | [] => [SLASH]
  | _ => flat_map (fun name => SLASH :: name) dir
  end.

(** A name that can be a component of a normal path. *)
Definition good_name (name : list byte) : Prop :=
  name <> [] /\ (SLASH ∉ name) /\ name <> [DOT] /\ name <> DOTDOT.

#[global] Instance good_name_dec name : Decision (good_name name).
Proof. unfold good_name. apply _. Defined.

Definition canonical (p : list byte) : Prop :=
  exists dir, Forall good_name dir /\ p = render dir.

(** The text that [normalize_cd_path] splits. *)
Definition path_text (cwd cd_arg : list byte) : list byte :=
  if bool_decide (head cd_arg = Some SLASH) then cd_arg
  else if bool_decide (cwd = [SLASH]) then [SLASH] ++ cd_arg
  else cwd ++ [SLASH] ++ cd_arg.

(** The directory that [cd cd_arg] designates from [dir]. *)
Definition target (dir : list (list byte)) (cd_arg : list byte) : list (list byte) :=
  resolve (if bool_decide (head cd_arg = Some SLASH) then [] else dir) (components cd_arg).

(** ** Lemmas: components *)

Lemma components_loop_cur cur s :
  cur <> [] ->
  components_loop cur s =
    (cur ++ take_while (fun b => bool_decide (b <> SLASH)) s) ::
    components (drop (S (length (take_while (fun b => bool_decide (b <> SLASH)) s))) s).
Proof.
  revert cur. induction s as [| b s IH]; intros cur Hc; simpl.
  - rewrite app_nil_r. by destruct cur.
  - destruct (decide (b = SLASH)) as [-> | Hb].
    + rewrite bool_decide_eq_true_2, bool_decide_eq_false_2 by naive_solver.
      simpl. rewrite app_nil_r. by destruct cur.
    + rewrite (bool_decide_eq_false_2 (b = SLASH)), (bool_decide_eq_true_2 (b <> SLASH)) by done.
      rewrite IH by (by destruct cur). simpl. by rewrite <- app_assoc.
Qed.

Lemma components_slash s : components (SLASH :: s) = components s.
Proof. done. Qed.

Lemma components_strtok s :
  components s = match strtok SLASH s with
                 | None => []
                 | Some (token, rest) => token :: components rest
                 end.
Proof.
  unfold strtok. induction s as [| b s IH]; [done |]. simpl.
  destruct (decide (b = SLASH)) as [-> | Hb].
  - rewrite (bool_decide_eq_true_2 (SLASH = SLASH)) by done.
    by rewrite components_slash, IH.
  - rewrite (bool_decide_eq_false_2 (b = SLASH)) by done.
    unfold components. simpl. rewrite !(bool_decide_eq_false_2 (b = SLASH)) by done.
    rewrite (bool_decide_eq_true_2 (b <> SLASH)) by done.
    by rewrite components_loop_cur.
Qed.

Lemma strtok_shorter d s token rest :
  strtok d s = Some (token, rest) -> (length rest < length s)%nat.
Proof.
  unfold strtok. pose proof (length_drop_while (fun b => bool_decide (b = d)) s).
  destruct (drop_while _ s) as [| b s'] eqn:E; [done |]. intros [= <- <-].
  rewrite length_drop. simpl in *. lia.
Qed.

(** Two bytes of text for each component, but for the last. *)
Lemma components_loop_length cur s :
  (2 * length (components_loop cur s) <= length cur + length s + 1)%nat.
Proof.
  revert cur. induction s as [| b s IH]; intros cur; simpl.
  - destruct cur; simpl; lia.
  - case_bool_decide.
    + pose proof (IH []). destruct cur; simpl in *; lia.
    + pose proof (IH (cur ++ [b])) as Hi. rewrite length_app in Hi. simpl in Hi. lia.
Qed.

Lemma components_loop_app cur s1 s2 :
  components_loop cur (s1 ++ SLASH :: s2) = components_loop cur s1 ++ components s2.
Proof.
  revert cur. induction s1 as [| b s1 IH]; intros cur; simpl.
  - by destruct cur.
  - case_bool_decide; [| apply IH]. destruct cur; simpl; [apply IH | by rewrite IH].
Qed.

Lemma components_name name : name <> [] -> SLASH ∉ name -> components name = [name].
Proof.
  intros Hne Hs. destruct name as [| b name]; [done |].
  apply not_elem_of_cons in Hs as [Hb Hs]. unfold components. simpl.
  rewrite bool_decide_eq_false_2 by done. rewrite components_loop_cur by done.
  rewrite take_while_all.
  - by rewrite drop_ge by lia.
  - apply Forall_forall. intros c Hc. apply bool_decide_eq_true_2. naive_solver.
Qed.

Lemma components_flat dir :
  Forall good_name dir -> components (flat_map (fun name => SLASH :: name) dir) = dir.
Proof.
  induction 1 as [| name dir (Hne & Hs & _) Hd IH]; [done |]. simpl.
  rewrite components_slash.
  destruct dir as [| name' dir]; simpl in *.
  - rewrite app_nil_r. by apply components_name.
  - unfold components. rewrite components_loop_app. rewrite components_slash in IH.
    change (components_loop [] name) with (components name).
    by rewrite components_name, IH.
Qed.

Lemma components_render dir : Forall good_name dir -> components (render dir) = dir.
Proof. intros Hd. destruct dir as [| n dir]; [done |]. by apply components_flat. Qed.

Lemma components_good s : Forall (fun n => n <> [] /\ SLASH ∉ n) (components s).
Proof.
  remember (length s) as n eqn:Hn. revert s Hn.
  induction (lt_wf n) as [n _ IH]. intros s ->. rewrite components_strtok.
  destruct (strtok SLASH s) as [[token rest] |] eqn:E; [| constructor].
  pose proof (strtok_shorter _ _ _ _ E) as Hlt.
  constructor; [| by eapply IH]. unfold strtok in E.
  destruct (drop_while _ s) as [| b s'] eqn:Ed; [done |]. simplify_eq.
  apply drop_while_head, bool_decide_eq_false_1 in Ed. simpl.
  rewrite bool_decide_eq_true_2 by done. split; [done |].
  apply not_elem_of_cons. split; [done |]. intros Hin.
  pose proof (take_while_Forall (fun b => bool_decide (b <> SLASH)) s') as Hf.
  rewrite Forall_forall in Hf. specialize (Hf _ Hin). by apply bool_decide_eq_true_1 in Hf.
Qed.

(** ** Lemmas: resolution *)

Lemma resolve_good names dir :
  Forall (fun n => n <> [] /\ SLASH ∉ n) names -> Forall good_name dir ->
  Forall good_name (resolve dir names).
Proof.
  unfold resolve. revert dir. induction names as [| name names IH]; intros dir Hn Hd; simpl; [done |].
  inversion_clear Hn as [| ? ? [Hne Hs] Hrest]. apply IH; [done |].
  unfold resolve_step. case_bool_decide; [done |]. case_bool_decide.
  - destruct dir as [| d dir _] using rev_ind; [done |]. rewrite removelast_last.
    by apply Forall_app in Hd as [? _].
  - apply Forall_app. split; [done |]. repeat constructor; done.
Qed.

Lemma resolve_id dir names : Forall good_name names -> resolve dir names = dir ++ names.
Proof.
  unfold resolve. intros Hn. revert dir.
  induction Hn as [| name names (_ & _ & Hd & Hdd) Hrest IH]; intros dir; simpl.
  - by rewrite app_nil_r.
  - rewrite IH. unfold resolve_step. rewrite !bool_decide_eq_false_2 by done.
    by rewrite <- app_assoc.
Qed.

Lemma resolve_app dir names1 names2 :
  resolve dir (names1 ++ names2) = resolve (resolve dir names1) names2.
Proof. apply foldl_app. Qed.

(** ** Lemmas: the loops of [normalize_cd_path] *)

Lemma normalize_tokens_spec fuel rest parts :
  (length rest < fuel)%nat ->
  (length parts + length (components rest) <= Z.to_nat (PATH_MAX / 2))%nat ->
  normalize_tokens fuel rest parts = Ret (resolve parts (components rest)).
Proof.
  revert rest parts. induction fuel as [| fuel IH]; intros rest parts Hf Hb; [lia |].
  simpl. rewrite components_strtok in *.
  destruct (strtok SLASH rest) as [[token rest'] |] eqn:E; [| done].
  pose proof (strtok_shorter _ _ _ _ E). unfold resolve in *. simpl in *.
  unfold resolve_step at 2. case_bool_decide; [apply IH; lia |].
  case_bool_decide.
  - rewrite removelast_firstn_len.
    destruct (Nat.ltb_spec 0 (length parts)) as [Hp | Hp].
    + rewrite IH; [by rewrite Nat.sub_1_r | lia |]. rewrite length_take. lia.
    + destruct parts; [| simpl in Hp; lia]. apply IH; simpl in *; lia.
  - destruct (Nat.ltb_spec (length parts) (Z.to_nat (PATH_MAX / 2))); [| lia].
    apply IH; [lia |]. rewrite length_app. simpl. lia.
Qed.

Lemma normalize_output_spec out_size out parts :
  parts <> [] ->
  normalize_output out_size out parts =
    let text := out ++ flat_map (fun name => SLASH :: name) parts in
    if out_size <? Z.of_nat (length text) + 1 then None else Some text.
Proof.
  revert out. induction parts as [| part parts IH]; intros out Hne; [done |]. simpl.
  destruct (Z.ltb_spec out_size (Z.of_nat (length out) + 1 + Z.of_nat (length part) + 1)) as [Hlt | Hge].
  - destruct (Z.ltb_spec out_size
      (Z.of_nat (length (out ++ SLASH :: part ++ flat_map (fun name => SLASH :: name) parts)) + 1));
      [done |].
    rewrite length_app in *. simpl in *. rewrite length_app in *. lia.
  - destruct parts as [| part' parts].
    + simpl. rewrite app_nil_r. rewrite length_app. simpl.
      destruct (Z.ltb_spec out_size (Z.of_nat (length out + S (length part)) + 1)); [lia | done].
    + rewrite IH by done. cbn zeta. by rewrite <- !app_assoc.
Qed.

Lemma length_render_pos dir : (1 <= length (render dir))%nat.
Proof. destruct dir; simpl; lia. Qed.

Lemma path_text_match cwd cd_arg :
  path_text cwd cd_arg =
    match cd_arg with
    | b :: _ => if bool_decide (b = SLASH) then cd_arg
                else if bool_decide (cwd = [SLASH]) then [SLASH] ++ cd_arg
                else cwd ++ [SLASH] ++ cd_arg
    | [] => if bool_decide (cwd = [SLASH]) then [SLASH] ++ cd_arg
            else cwd ++ [SLASH] ++ cd_arg
    end.
Proof.
  unfold path_text. destruct cd_arg as [| b arg]; simpl; [done |].
  destruct (decide (b = SLASH)); [by rewrite !bool_decide_eq_true_2 by congruence |].
  by rewrite !(bool_decide_eq_false_2 (_ = SLASH)), bool_decide_eq_false_2 by congruence.
Qed.

(** The token array is large enough for any path that fits [PATH_MAX]. *)
Lemma normalize_tokens_path text :
  Z.of_nat (length text) < PATH_MAX ->
  normalize_tokens (S (length text)) text [] = Ret (resolve [] (components text)).
Proof.
  intros Hlen. apply normalize_tokens_spec; [lia |].
  pose proof (components_loop_length [] text) as Hc. simpl in *.
  change (components_loop [] text) with (components text) in Hc.
  unfold PATH_MAX in *. change (Z.to_nat (4096 / 2)) with 2048%nat. lia.
Qed.

(** [normalize_cd_path] computes the reference resolution of its text. *)
Lemma normalize_cd_path_text cwd cd_arg out_size :
  2 <= out_size ->
  normalize_cd_path cwd cd_arg out_size = Ret (
    let text := path_text cwd cd_arg in
    let dir := resolve [] (components text) in
    if PATH_MAX <=? Z.of_nat (length text) then None
    else if out_size <? Z.of_nat (length (render dir)) + 1 then None
    else Some (render dir)).
Proof.
  intros Hsz. unfold normalize_cd_path.
  destruct (Z.eqb_spec out_size 0); [lia |].
  rewrite <- path_text_match.
  cbn zeta. set (text := path_text cwd cd_arg). unfold snprintf.
  destruct (Z.leb_spec PATH_MAX (Z.of_nat (length text))) as [| Hlen]; [done |].
  rewrite take_ge by lia.
  rewrite normalize_tokens_path by done.
  cbn [mbind outcome_bind].
  destruct (resolve [] (components text)) as [| d dir] eqn:Ed.
  - change (Z.of_nat (length (render [])) + 1) with 2. cbn [length Nat.eqb].
    destruct (Z.ltb_spec out_size 2); [lia | done].
  - rewrite normalize_output_spec by done. done.
Qed.

Lemma render_slash dir : Forall good_name dir -> render dir = [SLASH] -> dir = [].
Proof.
  intros Hd. destruct dir as [| n dir]; [done |]. simpl.
  inversion_clear Hd as [| ? ? (Hne & _) _]. by destruct n.
Qed.

Lemma resolve_path_text dir cd_arg :
  Forall good_name dir ->
  resolve [] (components (path_text (render dir) cd_arg)) = target dir cd_arg.
Proof.
  intros Hd. unfold path_text, target. case_bool_decide as Habs; [done |].
  case_bool_decide as Hroot.
  - apply render_slash in Hroot as ->; [| done]. simpl. by rewrite components_slash.
  - unfold components at 1. simpl. rewrite components_loop_app.
    change (components_loop [] (render dir)) with (components (render dir)).
    rewrite components_render, resolve_app by done. f_equal.
    by rewrite resolve_id.
Qed.

Lemma resolve_canonical text : canonical (render (resolve [] (components text))).
Proof. eexists. split; [| done]. apply resolve_good; [apply components_good | constructor]. Qed.

(** Renormalising a canonical path gives it back. *)
Lemma normalize_canonical_id cwd p out_size :
  canonical p -> 2 <= out_size -> Z.of_nat (length p) < out_size -> out_size <= PATH_MAX ->
  normalize_cd_path cwd p out_size = Ret (Some p).
Proof.
  intros (dir & Hd & ->) Hsz Hlen Hmax. rewrite normalize_cd_path_text by done.
  assert (Habs : path_text cwd (render dir) = render dir).
  { unfold path_text. rewrite bool_decide_eq_true_2; [done |]. by destruct dir. }
  cbn zeta. rewrite Habs, components_render, resolve_id by done. simpl app.
  destruct (Z.leb_spec PATH_MAX (Z.of_nat (length (render dir)))); [lia |].
  by destruct (Z.ltb_spec out_size (Z.of_nat (length (render dir)) + 1)); [lia |].
Qed.

(** ** Lemmas: lines *)

Lemma fgets_loop_spec room line rest acc :
  NEWLINE ∉ line ->
  fgets_loop room (line ++ NEWLINE :: rest) acc =
    if (length line <? room)%nat then (acc ++ line ++ [NEWLINE], rest)
    else (acc ++ take room line, drop room line ++ NEWLINE :: rest).
Proof.
  revert line acc. induction room as [| room IH]; intros line acc Hn.
  - simpl. rewrite take_0, app_nil_r. by destruct line.
  - destruct line as [| b line]; simpl.
    + done.
    + apply not_elem_of_cons in Hn as [Hb Hn]. rewrite bool_decide_eq_false_2 by done.
      rewrite IH by done.
      destruct (Nat.ltb_spec (length line) room), (Nat.ltb_spec (S (length line)) (S room));
        try lia; by rewrite <- app_assoc.
Qed.

Lemma skip_line_spec line rest : NEWLINE ∉ line -> skip_line (line ++ NEWLINE :: rest) = rest.
Proof.
  unfold skip_line. induction line as [| b line IH]; intros Hn; simpl.
  - done.
  - apply not_elem_of_cons in Hn as [Hb Hn]. rewrite bool_decide_eq_true_2 by done. by apply IH.
Qed.

Lemma strchr_None c s : c ∉ s -> strchr c s = None.
Proof.
  induction s as [| b s IH]; simpl; [done |]. intros [Hb Hs]%not_elem_of_cons.
  rewrite bool_decide_eq_false_2 by done. by rewrite IH.
Qed.

Lemma strchr_app c s1 s2 : c ∉ s1 -> strchr c (s1 ++ c :: s2) = Some (length s1).
Proof.
  induction s1 as [| b s1 IH]; simpl; intros Hn; [by rewrite bool_decide_eq_true_2 |].
  apply not_elem_of_cons in Hn as [Hb Hn]. rewrite bool_decide_eq_false_2 by done. by rewrite IH.
Qed.

(** ** Lemmas: directories *)

Section MkdirLemmas.
Context {FS : Type} (mkdir : list byte -> FS -> bool * FS) (has_dir : FS -> list byte -> Prop).
(** [mkdir(2)]: when it succeeds or fails with [EEXIST], the name exists. *)
Hypothesis mkdir_exists : forall p fs fs', mkdir p fs = (true, fs') -> has_dir fs' p.
(** [mkdir(2)] removes nothing. *)
Hypothesis mkdir_mono : forall p fs ok fs' q,
  mkdir p fs = (ok, fs') -> has_dir fs q -> has_dir fs' q.

Lemma mkdir_prefixes_mono pre rest fs ok fs' q :
  mkdir_prefixes mkdir pre rest fs = (ok, fs') -> has_dir fs q -> has_dir fs' q.
Proof.
  revert pre fs. induction rest as [| b rest IH]; intros pre fs; simpl; [by intros [= <- <-] |].
  case_bool_decide; [| apply IH].
  destruct (mkdir pre fs) as [[|] fs1] eqn:E; intros Hm Hq.
  - eapply IH; [done |]. eauto.
  - simplify_eq. eauto.
Qed.

(** Every proper prefix that ends before a slash is created. *)
Lemma mkdir_prefixes_created pre rest fs fs' :
  mkdir_prefixes mkdir pre rest fs = (true, fs') ->
  forall r1 r2, rest = r1 ++ SLASH :: r2 -> has_dir fs' (pre ++ r1).
Proof.
  revert pre fs. induction rest as [| b rest IH]; intros pre fs; simpl.
  - intros _ r1 r2 Hr. by destruct r1.
  - case_bool_decide as Hb.
    + destruct (mkdir pre fs) as [[|] fs1] eqn:E; [| done]. intros Hm r1 r2 Hr.
      destruct r1 as [| c r1]; simpl in Hr; simplify_eq.
      * rewrite app_nil_r. eapply mkdir_prefixes_mono; [done |]. eauto.
      * change (SLASH :: r1) with ([SLASH] ++ r1). rewrite app_assoc. by eapply IH.
    + intros Hm r1 r2 Hr. destruct r1 as [| c r1]; simpl in Hr; simplify_eq.
      change (c :: r1) with ([c] ++ r1). rewrite app_assoc. by eapply IH.
Qed.

End MkdirLemmas.

(** ** Main results *)


(** Whatever the working directory and the argument, a path returned by
    [normalize_cd_path] is canonical (absolute, no empty, [.] or [..] component),
    fits its buffer with the terminating NUL, and is a fixed point of
    normalisation: a client cannot name anything above its virtual root. *)
Theorem normalize_cd_path_canonical cwd cd_arg out_size p :
  2 <= out_size <= PATH_MAX ->
  normalize_cd_path cwd cd_arg out_size = Ret (Some p) ->
  canonical p /\ Z.of_nat (length p) < out_size /\
  forall cwd', normalize_cd_path cwd' p out_size = Ret (Some p).
Proof.
  intros Hsz Hn. rewrite normalize_cd_path_text in Hn by lia. cbn zeta in Hn.
  destruct (PATH_MAX <=? _); [done |].
  destruct (Z.ltb_spec out_size
    (Z.of_nat (length (render (resolve [] (components (path_text cwd cd_arg))))) + 1)); [done |].
  simplify_eq. split; [apply resolve_canonical |]. split; [lia |].
  intros cwd'. apply normalize_canonical_id; [apply resolve_canonical | lia ..].
Qed.

(** With a one-byte buffer the guard [out_size == 0] does not protect the
    root result: [strcpy(out, "/")] writes two bytes whenever the path resolves
    to the root. *)
Theorem normalize_cd_path_one_byte_overflow cwd cd_arg :
  Z.of_nat (length (path_text cwd cd_arg)) < PATH_MAX ->
  resolve [] (components (path_text cwd cd_arg)) = [] ->
  normalize_cd_path cwd cd_arg 1 = Undef.
Proof.
  intros Hlen Hroot. unfold normalize_cd_path.
  rewrite <- path_text_match. unfold snprintf.
  destruct (Z.leb_spec PATH_MAX (Z.of_nat (length (path_text cwd cd_arg)))); [lia |].
  rewrite take_ge by lia. rewrite normalize_tokens_path by done. by rewrite Hroot.
Qed.

(** [s_gets] reads exactly one line: it returns the line without its
    newline, cut to what the buffer holds, and leaves the input after it. *)
Theorem s_gets_line size line rest :
  2 <= size -> is_cstr line -> NEWLINE ∉ line ->
  s_gets size (line ++ NEWLINE :: rest) = Some (take (Z.to_nat (size - 1)) line, rest).
Proof.
  intros Hsz Hc Hn. unfold s_gets, s_fgets, fgets.
  destruct (line ++ NEWLINE :: rest) as [| b input] eqn:E; [by destruct line |].
  rewrite <- E, fgets_loop_spec by done. simpl.
  destruct (Nat.ltb_spec (length line) (Z.to_nat (size - 1))) as [Hlt | Hge]; simpl.
  - rewrite cstr_id.
    2:{ unfold is_cstr. rewrite elem_of_app, list_elem_of_singleton. by intros [|]. }
    rewrite strchr_app by done. by rewrite take_app_length, take_ge by lia.
  - rewrite cstr_id, strchr_None.
    + f_equal. f_equal. by apply skip_line_spec, not_elem_of_drop.
    + by apply not_elem_of_take.
    + by apply not_elem_of_take.
Qed.

(** [mkdir_p] creates the whole chain: when it returns 0, every prefix of
    the path that ends before a slash and the path itself (without one trailing
    slash) exist, for any [mkdir(2)] that creates what it reports and removes
    nothing. *)
Theorem mkdir_p_creates_chain {FS} (mkdir : list byte -> FS -> bool * FS)
    (has_dir : FS -> list byte -> Prop) path fs fs' :
  (forall p fs fs', mkdir p fs = (true, fs') -> has_dir fs' p) ->
  (forall p fs ok fs' q, mkdir p fs = (ok, fs') -> has_dir fs q -> has_dir fs' q) ->
  mkdir_p mkdir path fs = (0, fs') ->
  exists tmp, (path = tmp \/ path = tmp ++ [SLASH]) /\ has_dir fs' tmp /\
    forall r1 r2, tmp = r1 ++ SLASH :: r2 -> r1 <> [] -> has_dir fs' r1.
Proof.
  intros Hex Hmono. unfold mkdir_p. destruct path as [| b path]; [done |].
  destruct (PATH_MAX <=? _); [done |].
  match goal with |- context [mkdir_prefixes _ (take 1 ?t)] => set (tmp := t) end.
  destruct (mkdir_prefixes mkdir (take 1 tmp) (drop 1 tmp) fs) as [[|] fs1] eqn:Ep; [| done].
  destruct (mkdir tmp fs1) as [[|] fs2] eqn:Em; [| done]. intros [= <-].
  exists tmp. split_and!.
  - unfold tmp. case_match eqn:Eb; [right | by left]. zbool.
    match goal with Hl : last _ = Some _ |- _ => apply last_Some in Hl as [l' ->] end.
    rewrite length_app, Nat.add_sub. by rewrite take_app_length.
  - eauto.
  - intros r1 r2 Ht Hne. eapply Hmono; [done |].
    destruct r1 as [| c r1]; [done |].
    pose proof (mkdir_prefixes_created mkdir has_dir Hex Hmono _ _ _ _ Ep r1 r2) as Hc.
    rewrite Ht in Hc. simpl in Hc. by apply Hc.
Qed.

(** ** Witnesses *)


Lemma normalize_cd_path_canonical_witness :
  canonical (lit "/b") /\ Z.of_nat (length (lit "/b")) < PATH_MAX /\
  forall cwd', normalize_cd_path cwd' (lit "/b") PATH_MAX = Ret (Some (lit "/b")).
Proof.
  apply (normalize_cd_path_canonical (lit "/a") (lit "./../..//b/")).
  - unfold PATH_MAX. lia.
  - vm_compute. reflexivity.
Defined.

Lemma normalize_cd_path_one_byte_overflow_witness :
  normalize_cd_path (lit "/a") (lit "..") 1 = Undef.
Proof. apply normalize_cd_path_one_byte_overflow; vm_compute; reflexivity. Defined.

Lemma s_gets_line_witness :
  s_gets 4 (lit "login" ++ NEWLINE :: lit "next") = Some (lit "log", lit "next").
Proof.
  apply (s_gets_line 4 (lit "login") (lit "next")).
  - lia.
  - apply (bool_decide_unpack _). vm_compute. exact I.
  - apply (bool_decide_unpack _). vm_compute. exact I.
Defined.

(** The directory of the running program: what [readlink] found, cut at its last
    slash; a target that fits the buffer is not truncated. *)
Lemma get_executable_dir_correct target dir size :
  Z.of_nat (length target) < size ->
  exists r, get_executable_dir (Some target) dir size = Ret r /\
    match r with
    | None => SLASH ∉ target
    | Some d => exists name, target = d ++ SLASH :: name /\ SLASH ∉ name
    end.
Proof.
  intros Hsize. unfold get_executable_dir. rewrite take_ge by lia. cbn.
  destruct (strrchr SLASH target) as [i |] eqn:E; eexists; (split; [done |]).
  - apply strrchr_Some in E as (H & Hn & _). eauto.
  - by apply strrchr_None.
Qed.

(** The result always fits the buffer with its terminator. *)
Lemma utils_format_current_time_fits t size text :
  0 <= size -> utils_format_current_time t size = Some text -> Z.of_nat (length text) < size.
Proof.
  intros Hsize. unfold utils_format_current_time, strftime. destruct (size =? 0) eqn:E; [done |]. intros [= <-].
  destruct t as [t |]; cbn; [destruct (_ <? size) eqn:El; cbn |]; lia.
Qed.

Example format_example :
  utils_format_current_time (Some {| tm_year := 126; tm_mon := 0; tm_mday := 5; tm_hour := 9; tm_min := 30; tm_sec := 0 |}) 32 =
    Some (lit "2026-01-05 09:30:00").
Proof. vm_compute. reflexivity. Qed.

(** A file system that records the directories created. *)
Definition demo_mkdir (p : list byte) (fs : list (list byte)) : bool * list (list byte) :=
  (true, p :: fs).

Lemma mkdir_p_creates_chain_witness :
  exists tmp, (lit "/srv/data/" = tmp \/ lit "/srv/data/" = tmp ++ [SLASH]) /\
    tmp ∈ [lit "/srv/data"; lit "/srv"] /\
    forall r1 r2, tmp = r1 ++ SLASH :: r2 -> r1 <> [] -> r1 ∈ [lit "/srv/data"; lit "/srv"].
Proof.
  apply (mkdir_p_creates_chain demo_mkdir (fun fs p => p ∈ fs) (lit "/srv/data/") []).
  - intros p fs fs' [= <-]. apply elem_of_cons. by left.
  - intros p fs ok fs' q [= <- <-] Hq. apply elem_of_cons. by right.
  - vm_compute. reflexivity.
Defined.
