(* ===== verification/Heap.v ===== *)
(** * Pointers and linked chains

    The session table, the timer wheel and the task queue keep their nodes in
    intrusive linked lists.  Nodes live in finite maps from addresses to
    structs; a chain is what following a [next] field from a head pointer
    visits.  Loops over chains carry fuel and report a missing node as
    undefined behaviour. *)

From S2P Require Import Prelude.

Definition addr : Type := N.
Definition NULL : addr := 0%N.

(** The seconds and nanoseconds of [struct timespec]. *)
Record timespec := { tv_sec : Z; tv_nsec : Z }.

(** ** Loops over a chain *)

(** [while (p != NULL) { if (hit p) return p; p = p->next; } return NULL;] *)
Fixpoint walk (fuel : nat) (nxt : addr -> option addr) (hit : addr -> option bool)
    (p : addr) : outcome addr :=
  if bool_decide (p = NULL) then Ret NULL
  else match fuel with
       | O => NoReturn
       | S fuel =>
           h ← deref (hit p);
           if h : bool then Ret p
           else q ← deref (nxt p); walk fuel nxt hit q
       end.

(** A pointer to a pointer: the chain's head, or the [next] field of a node. *)
Inductive link :=
| LHead
| LNext (a : addr).

(** [while ( *link != NULL && !(stop *link)) link = &( *link)->next;] where [p]
    is the current value of [*link]; the result is the final link and its value. *)
Fixpoint walk_link (fuel : nat) (nxt : addr -> option addr) (stop : addr -> option bool)
    (lk : link) (p : addr) : outcome (link * addr) :=
  if bool_decide (p = NULL) then Ret (lk, p)
  else match fuel with
       | O => NoReturn
       | S fuel =>
           h ← deref (stop p);
           if h : bool then Ret (lk, p)
           else q ← deref (nxt p); walk_link fuel nxt stop (LNext p) q
       end.

(** ** Chains *)

Fixpoint chain (nxt : addr -> option addr) (p : addr) (l : list addr) : Prop :=
  match l with
  | [] => p = NULL
  | a :: l => p = a /\ a <> NULL /\ exists q, nxt a = Some q /\ chain nxt q l
  end.

(** The [next] function after storing [q] through the link [lk]; storing through
    the head changes no node. *)
Definition relink (nxt : addr -> option addr) (lk : link) (q : addr) : addr -> option addr :=
  match lk with
  | LHead => nxt
  | LNext a => fun x => if bool_decide (x = a) then (fun _ => q) <$> nxt x else nxt x
  end.

(** ** Lemmas *)

Lemma chain_det nxt p l1 l2 : chain nxt p l1 -> chain nxt p l2 -> l1 = l2.
Proof.
  revert p l2. induction l1 as [| a l1 IH]; intros p [| b l2]; simpl.
  - done.
  - intros -> (? & ? & _). congruence.
  - intros (-> & ? & _) ?. congruence.
  - intros (-> & _ & q & Hq & Hc) (-> & _ & q' & Hq' & Hc'). f_equal.
    simplify_eq. eauto.
Qed.

Lemma chain_app_inv nxt p l1 l2 :
  chain nxt p (l1 ++ l2) -> exists q, chain nxt q l2.
Proof.
  revert p. induction l1 as [| a l1 IH]; intros p; simpl; [eauto |].
  intros (_ & _ & q & _ & Hc). eauto.
Qed.

Lemma chain_head nxt p a l : chain nxt p (a :: l) -> p = a.
Proof. by intros [? _]. Qed.

Lemma chain_not_null nxt p l a : chain nxt p l -> a ∈ l -> a <> NULL.
Proof.
  revert p. induction l as [| b l IH]; intros p; [intros _ Hin; by apply not_elem_of_nil in Hin |].
  intros (_ & Hb & q & _ & Hc). rewrite elem_of_cons. intros [-> |]; eauto.
Qed.

Lemma chain_NoDup nxt p l : chain nxt p l -> NoDup l.
Proof.
  revert p. induction l as [| a l IH]; intros p Hc; [constructor |].
  constructor; [| destruct Hc as (_ & _ & q & _ & Hc); eauto].
  intros Hin. apply list_elem_of_split in Hin as (l1 & l2 & ->).
  assert (Hsub : exists q, chain nxt q (a :: l2)).
  { apply (chain_app_inv nxt p (a :: l1)). done. }
  destruct Hsub as [q Hq]. pose proof (chain_head _ _ _ _ Hq) as ->.
  pose proof (chain_head _ _ _ _ Hc) as ->.
  pose proof (chain_det _ _ _ _ Hc Hq) as Heq.
  apply (f_equal length) in Heq. simpl in Heq. rewrite length_app in Heq. simpl in Heq. lia.
Qed.

(** A chain only depends on the [next] fields of its own nodes. *)
Lemma chain_frame nxt nxt' p l :
  (forall a, a ∈ l -> nxt' a = nxt a) -> chain nxt p l -> chain nxt' p l.
Proof.
  revert p. induction l as [| a l IH]; intros p Hf; [done |].
  intros (-> & Ha & q & Hq & Hc). split_and!; [done | done |]. exists q. split.
  - rewrite Hf by (apply elem_of_cons; by left). done.
  - apply IH; [| done]. intros b Hb. apply Hf. apply elem_of_cons. by right.
Qed.

Lemma chain_cons nxt a q l :
  a <> NULL -> nxt a = Some q -> chain nxt q l -> chain nxt a (a :: l).
Proof. simpl. eauto. Qed.

Lemma chain_nil nxt : chain nxt NULL [].
Proof. done. Qed.

Lemma chain_null_nil nxt l : chain nxt NULL l -> l = [].
Proof. destruct l; [done |]. intros (-> & ? & _). done. Qed.

(** [walk] returns the first node that satisfies the test, or NULL. *)
Lemma walk_spec fuel nxt hit f p l :
  chain nxt p l -> (forall a, a ∈ l -> hit a = Some (f a)) -> (length l <= fuel)%nat ->
  walk fuel nxt hit p = Ret (match list_find (fun a => f a = true) l with
                             | Some (_, a) => a
                             | None => NULL
                             end).
Proof.
  revert fuel p. induction l as [| a l IH]; intros fuel p Hc Hf Hl.
  - simpl in Hc. subst. by destruct fuel.
  - destruct Hc as (-> & Ha & q & Hq & Hc). simpl in Hl. destruct fuel as [| fuel]; [lia |].
    simpl. rewrite bool_decide_eq_false_2 by done.
    rewrite Hf by (apply elem_of_cons; by left). simpl.
    destruct (f a) eqn:Ea; simpl.
    + done.
    + rewrite Hq. simpl.
      rewrite (IH fuel q); [| done | | lia].
      * by destruct (list_find (fun a => f a = true) l) as [[? ?] |].
      * intros b Hb. apply Hf. apply elem_of_cons. by right.
Qed.

(** The link to the node that follows the prefix [l1]. *)
Definition link_after (lk : link) (l1 : list addr) : link :=
  match last l1 with
  | Some a => LNext a
  | None => lk
  end.

Lemma link_after_cons lk a l : link_after lk (a :: l) = link_after (LNext a) l.
Proof.
  unfold link_after. rewrite last_cons. by destruct (last l).
Qed.

(** [walk_link] stops at the first node that satisfies the test. *)
Lemma walk_link_spec fuel nxt stop f lk p l :
  chain nxt p l -> (forall a, a ∈ l -> stop a = Some (f a)) -> (length l <= fuel)%nat ->
  exists l1 l2, l = l1 ++ l2 /\ Forall (fun a => f a = false) l1 /\
    match l2 with [] => True | a :: _ => f a = true end /\
    walk_link fuel nxt stop lk p = Ret (link_after lk l1, hd NULL l2).
Proof.
  revert fuel p lk. induction l as [| a l IH]; intros fuel p lk Hc Hf Hl.
  - simpl in Hc. subst. exists [], []. split_and!; [done | constructor | done |].
    by destruct fuel.
  - destruct Hc as (-> & Ha & q & Hq & Hc). simpl in Hl. destruct fuel as [| fuel]; [lia |].
    simpl. rewrite bool_decide_eq_false_2 by done.
    rewrite Hf by (apply elem_of_cons; by left). simpl. destruct (f a) eqn:Ea.
    + exists [], (a :: l). split_and!; [done | constructor | done | done].
    + rewrite Hq. simpl.
      destruct (IH fuel q (LNext a)) as (l1 & l2 & -> & Hl1 & Hl2 & ->); [done | | lia |].
      { intros b Hb. apply Hf. apply elem_of_cons. by right. }
      exists (a :: l1), l2. split_and!; [done | by constructor | done |].
      by rewrite link_after_cons.
Qed.

Lemma chain_split nxt p l1 a l2 :
  chain nxt p (l1 ++ a :: l2) -> exists q, nxt a = Some q /\ chain nxt q l2.
Proof.
  intros Hc. destruct (chain_app_inv _ _ _ _ Hc) as [q Hq]. destruct Hq as (_ & _ & q' & ? & ?).
  eauto.
Qed.

(** Removing a node by storing its successor through the link before it. *)
Lemma chain_unlink nxt p l1 a l2 q :
  chain nxt p (l1 ++ a :: l2) -> nxt a = Some q ->
  chain (relink nxt (link_after LHead l1) q) (if l1 is [] then q else p) (l1 ++ l2).
Proof.
  intros Hc Ha. pose proof (chain_NoDup _ _ _ Hc) as Hnd.
  assert (Hgen : forall p lk, chain nxt p (l1 ++ a :: l2) ->
    (forall b, lk = LNext b -> b ∉ l1 ++ a :: l2) ->
    chain (relink nxt (link_after lk l1) q) (if l1 is [] then q else p) (l1 ++ l2)).
  { clear p Hc. induction l1 as [| b l1 IH]; intros p lk Hc Hlk.
    - simpl in *. destruct Hc as (-> & Hna & q' & Hq' & Hc). simplify_eq.
      unfold link_after. simpl. destruct lk as [| c]; simpl; [done |].
      eapply chain_frame; [| done]. intros x Hx. rewrite bool_decide_eq_false_2; [done |].
      intros ->. apply (Hlk c); [done |]. apply elem_of_cons. by right.
    - destruct Hc as (-> & Hb & q' & Hq' & Hc). simpl in Hnd. inversion_clear Hnd as [| ? ? Hnb Hnd'].
      rewrite link_after_cons. simpl. split_and!; [done | done |].
      specialize (IH Hnd' q' (LNext b) Hc).
      destruct l1 as [| c l1].
      + exists q. split.
        * unfold link_after. simpl. rewrite bool_decide_eq_true_2 by done. by rewrite Hq'.
        * apply IH. intros x [= <-]. done.
      + exists q'. split; [| apply IH; intros x [= <-]; done].
        unfold link_after. destruct (last (c :: l1)) as [d |] eqn:Ed; [| by apply last_None in Ed].
        simpl. rewrite bool_decide_eq_false_2; [done |]. intros ->. apply Hnb.
        apply last_Some in Ed as [l' ->]. rewrite !elem_of_app, list_elem_of_singleton. auto. }
  apply Hgen; [done |]. by intros b.
Qed.

(** Appending a node to a chain. *)
Lemma chain_snoc nxt nxt' p l a :
  chain nxt p l -> a <> NULL -> a ∉ l -> nxt' a = Some NULL ->
  (forall b, last l = Some b -> nxt' b = Some a) ->
  (forall b, b ∈ l -> last l <> Some b -> nxt' b = nxt b) ->
  chain nxt' (if l is [] then a else p) (l ++ [a]).
Proof.
  intros Hc Ha Hnotin Hna Hlast Hother. revert p Hc. induction l as [| b l IH]; intros p Hc.
  - simpl. split_and!; [done | done |]. by exists NULL.
  - pose proof (chain_NoDup _ _ _ Hc) as Hnd. inversion_clear Hnd as [| ? ? Hb Hnd'].
    destruct Hc as (-> & Hbn & q & Hq & Hc). simpl. split_and!; [done | done |].
    destruct l as [| c l].
    + exists a. split; [by apply Hlast |]. simpl. split_and!; [done | done |]. by exists NULL.
    + exists q. split.
      * rewrite Hother; [done | by left |]. rewrite last_cons_cons. intros Hl.
        apply last_Some in Hl as [l' Hl]. apply Hb. rewrite Hl. apply elem_of_app. right. by left.
      * apply IH; [| | | done].
        { intros Hin. apply Hnotin. by right. }
        { intros d Hd. apply Hlast. by rewrite last_cons_cons. }
        { intros d Hd Hne. apply Hother; [by right |]. by rewrite last_cons_cons. }
Qed.

(** Bounding the length of a duplicate-free chain by the size of its heap. *)
Lemma NoDup_length_dom {V} (h : gmap addr V) (l : list addr) :
  NoDup l -> (forall a, a ∈ l -> is_Some (h !! a)) -> (length l <= size h)%nat.
Proof.
  intros Hnd Hin. rewrite <- size_dom.
  rewrite <- (size_list_to_set (C := gset addr) l Hnd).
  apply subseteq_size. intros a. rewrite elem_of_list_to_set, elem_of_dom. apply Hin.
Qed.

(** ** Families of intrusive lists

    A hash table, or the connection lists of all sessions, is a family of
    chains indexed by a key: [head k] is the first pointer of list [k] (None
    when there is no such list) and [node a] the key and the [next] field of
    the node at [a].  [lists] says that list [k] holds exactly the nodes of key
    [k]. *)

Definition upd {A B} `{EqDecision A} (f : A -> B) (a : A) (b : B) : A -> B :=
  fun x => if decide (x = a) then b else f x.

Section Lists.
Context {K : Type} `{EqDecision K}.
Implicit Types (head : K -> option addr) (node : addr -> option (K * addr)).

Definition next_of node (a : addr) : option addr := snd <$> node a.

Record lists head node : Prop := {
  lists_chain k p : head k = Some p ->
    exists l, chain (next_of node) p l /\ (forall a, a ∈ l <-> exists q, node a = Some (k, q));
  lists_home a k q : node a = Some (k, q) -> is_Some (head k)
}.

Lemma lists_ext head head' node node' :
  (forall k, head' k = head k) -> (forall a, node' a = node a) ->
  lists head node -> lists head' node'.
Proof.
  intros Hh Hn [Hc Hhome]. split.
  - intros k p Hp. rewrite Hh in Hp. destruct (Hc k p Hp) as (l & Hl & Hin). exists l. split.
    + eapply chain_frame; [| done]. intros a _. unfold next_of. by rewrite Hn.
    + intros a. rewrite Hn. apply Hin.
  - intros a k q. rewrite Hn, Hh. apply Hhome.
Qed.

Lemma lists_not_null head node a k q : lists head node -> node a = Some (k, q) -> a <> NULL.
Proof.
  intros [Hc Hhome] Ha. destruct (Hhome _ _ _ Ha) as [p Hp].
  destruct (Hc _ _ Hp) as (l & Hl & Hin). eapply chain_not_null; [done |]. apply Hin. eauto.
Qed.

(** Heads of no list. *)
Lemma lists_none head : (forall k p, head k = Some p -> p = NULL) -> lists head (fun _ => None).
Proof.
  intros Hh. split; [| done]. intros k p Hp. rewrite (Hh k p Hp). exists []. split; [done |].
  intros a. split; [intros Hin; by apply not_elem_of_nil in Hin | by intros [? ?]].
Qed.

(** A new, empty list. *)
Lemma lists_new head node k :
  head k = None -> lists head node -> lists (upd head k (Some NULL)) node.
Proof.
  intros Hk [Hc Hhome]. split.
  - intros k' p. unfold upd. destruct (decide (k' = k)) as [-> |]; [| apply Hc].
    intros [= <-]. exists []. split; [done |]. intros a. split.
    + intros Hin. by apply not_elem_of_nil in Hin.
    + intros [q Ha]. apply Hhome in Ha as [? Ha]. congruence.
  - intros a k' q Ha. unfold upd. case_decide; [done |]. eauto.
Qed.

(** Forgetting an empty list. *)
Lemma lists_drop head node k :
  head k = Some NULL -> lists head node -> lists (upd head k None) node.
Proof.
  intros Hk [Hc Hhome]. split.
  - intros k' p. unfold upd. case_decide; [done |]. apply Hc.
  - intros a k' q Ha. unfold upd. case_decide as Hd; [| by eapply Hhome]. subst.
    exfalso. destruct (Hc _ _ Hk) as (l & Hl & Hin). apply chain_null_nil in Hl as ->.
    apply (not_elem_of_nil a). apply Hin. eauto.
Qed.

Lemma lists_head_null head node k a q :
  lists head node -> head k = Some NULL -> node a = Some (k, q) -> False.
Proof.
  intros [Hc _] Hk Ha. destruct (Hc _ _ Hk) as (l & Hl & Hin).
  apply chain_null_nil in Hl as ->. apply (not_elem_of_nil a). apply Hin. eauto.
Qed.

(** Linking a new node at the head of a list. *)
Lemma lists_push head node k p a :
  head k = Some p -> node a = None -> a <> NULL -> lists head node ->
  lists (upd head k (Some a)) (upd node a (Some (k, p))).
Proof.
  intros Hk Ha Hnull [Hc Hhome].
  assert (Hframe : forall q l, chain (next_of node) q l ->
            (forall b, b ∈ l -> exists k' q', node b = Some (k', q')) ->
            chain (next_of (upd node a (Some (k, p)))) q l).
  { intros q l Hl Hin. eapply chain_frame; [| done]. intros b Hb. unfold next_of, upd.
    case_decide as Hd; [| done]. subst. destruct (Hin _ Hb) as (? & ? & ?). congruence. }
  split.
  - intros k' p' Hp'. unfold upd at 1 in Hp'. case_decide as Hd.
    + simplify_eq. destruct (Hc _ _ Hk) as (l & Hl & Hin). exists (p' :: l). split.
      * apply (chain_cons _ _ p); [done | |].
        { unfold next_of, upd. by rewrite decide_True. }
        apply Hframe; [done |]. intros b Hb. apply Hin in Hb as [? ?]. eauto.
      * intros b. unfold upd. rewrite elem_of_cons, Hin. case_decide as Hb.
        { subst. split; [eauto | by left]. }
        { split; [by intros [? | ?] | by right]. }
    + destruct (Hc _ _ Hp') as (l & Hl & Hin). exists l. split.
      * apply Hframe; [done |]. intros b Hb. apply Hin in Hb as [? ?]. eauto.
      * intros b. unfold upd. rewrite Hin. case_decide as Hb; [| done]. subst.
        split; intros [? ?]; congruence.
  - intros b k' q. unfold upd. case_decide as Hb; case_decide as Hk'; try done.
    + intros [= <- <-]. done.
    + apply Hhome.
Qed.

(** What storing [q] through [lk] and releasing the node [a] leaves. *)
Definition head_after head (lk : link) (k : K) (q : addr) : K -> option addr :=
  match lk with LHead => upd head k (Some q) | LNext _ => head end.
Definition node_after node (lk : link) (k : K) (q a : addr) : addr -> option (K * addr) :=
  upd (match lk with LHead => node | LNext b => upd node b (Some (k, q)) end) a None.

Lemma lists_unlink head node k p l1 a l2 q :
  lists head node -> head k = Some p -> node a = Some (k, q) ->
  chain (next_of node) p (l1 ++ a :: l2) ->
  lists (head_after head (link_after LHead l1) k q) (node_after node (link_after LHead l1) k q a).
Proof.
  intros [Hc Hhome] Hk Ha Hl.
  destruct (Hc _ _ Hk) as (l & Hl' & Hin). pose proof (chain_det _ _ _ _ Hl Hl') as <-.
  pose proof (chain_NoDup _ _ _ Hl) as Hnd.
  pose proof (chain_unlink _ _ _ _ _ q Hl ltac:(unfold next_of; by rewrite Ha)) as Hun.
  assert (Hlast : forall b, link_after LHead l1 = LNext b -> b ∈ l1).
  { unfold link_after. intros b. destruct (last l1) as [c |] eqn:Ec; [| done]. intros [= <-].
    apply last_Some in Ec as [l' ->]. rewrite elem_of_app, list_elem_of_singleton. by right. }
  assert (Hnotin : a ∉ l1 ++ l2).
  { apply NoDup_app in Hnd as (Hnd1 & Hdis & Hnd2). inversion_clear Hnd2.
    rewrite elem_of_app. intros [Hx | Hx]; [| done]. apply (Hdis a Hx). by left. }
  assert (Hb : forall b, link_after LHead l1 = LNext b -> b <> a /\ exists qb, node b = Some (k, qb)).
  { intros b Eb. apply Hlast in Eb. split; [intros ->; apply Hnotin, elem_of_app; by left |].
    apply Hin. apply elem_of_app. by left. }
  assert (Hdom : forall x k', k' <> k -> (exists y, node x = Some (k', y)) <->
            exists y, node_after node (link_after LHead l1) k q a x = Some (k', y)).
  { intros x k' Hne. unfold node_after, upd. case_decide as Hx.
    - subst. split; intros [? ?]; congruence.
    - destruct (link_after LHead l1) as [| b]; [done |]. case_decide as Hxb; [| done]. subst.
      destruct (Hb b eq_refl) as (_ & qb & Hqb). split; intros [? ?]; congruence. }
  split.
  - intros k' p' Hp'. destruct (decide (k' = k)) as [-> | Hne].
    + exists (l1 ++ l2). split.
      * assert (p' = if l1 is [] then q else p) as ->.
        { unfold head_after in Hp'. destruct l1 as [| c l1].
          - simpl in Hp'. unfold upd in Hp'. rewrite decide_True in Hp' by done. congruence.
          - rewrite link_after_cons in Hp'. unfold link_after in Hp'.
            destruct (last l1); congruence. }
        eapply chain_frame; [| exact Hun]. intros x Hx. unfold next_of, node_after, upd.
        case_decide as Hxa; [by subst |]. destruct (link_after LHead l1) as [| b]; [done |].
        simpl. case_decide as Hxb.
        { rewrite bool_decide_eq_true_2 by done. subst. destruct (Hb b eq_refl) as (_ & qb & Hqb).
          by rewrite Hqb. }
        { by rewrite bool_decide_eq_false_2. }
      * intros x. unfold node_after, upd. case_decide as Hxa.
        { subst. split; [done | by intros [? ?]]. }
        assert (x ∈ l1 ++ l2 <-> x ∈ l1 ++ a :: l2) as ->.
        { rewrite !elem_of_app, elem_of_cons. naive_solver. }
        rewrite Hin. destruct (link_after LHead l1) as [| b]; [done |]. case_decide as Hxb; [| done].
        subst. destruct (Hb b eq_refl) as (_ & qb & Hqb). split; [eauto | by eauto].
    + assert (Hold : head k' = Some p').
      { unfold head_after in Hp'. destruct (link_after LHead l1); [| done].
        unfold upd in Hp'. by rewrite decide_False in Hp'. }
      destruct (Hc _ _ Hold) as (l & Hlk & Hink). exists l. split.
      * eapply chain_frame; [| done]. intros x Hx. apply Hink in Hx as [y Hy].
        unfold next_of, node_after, upd. case_decide as Hxa; [subst; congruence |].
        destruct (link_after LHead l1) as [| b]; [done |]. case_decide as Hxb; [| done].
        subst. destruct (Hb b eq_refl) as (_ & qb & Hqb). congruence.
      * intros x. rewrite Hink. by apply Hdom.
  - intros x k' y Hx. assert (is_Some (head k')) as [p' Hp'].
    { destruct (decide (k' = k)) as [-> | Hne]; [by eexists |].
      destruct (proj2 (Hdom x k' Hne)) as [? ?]; eauto. }
    unfold head_after. destruct (link_after LHead l1); [| by eexists].
    unfold upd. case_decide; by eexists.
Qed.

Context {V : Type} (heap : gmap addr V).

(** Searching a list, with the heap's size as fuel. *)
Lemma lists_walk head node nxt hit (f : addr -> bool) k p :
  lists head node -> head k = Some p ->
  (forall x, is_Some (node x) -> is_Some (heap !! x)) ->
  (forall x, nxt x = next_of node x) ->
  (forall x q, node x = Some (k, q) -> hit x = Some (f x)) ->
  exists r, walk (size heap) nxt hit p = Ret r /\
    ((r = NULL /\ forall x q, node x = Some (k, q) -> f x = false) \/
     (r <> NULL /\ f r = true /\ exists q, node r = Some (k, q))).
Proof.
  intros Hls Hk Hdom Hnxt Hhit. destruct (lists_chain _ _ Hls _ _ Hk) as (l & Hl & Hin).
  assert (Hl' : chain nxt p l) by (eapply chain_frame; [| done]; auto).
  rewrite (walk_spec _ _ _ f _ _ Hl').
  - eexists. split; [done |].
    destruct (list_find (fun a => f a = true) l) as [[i a] |] eqn:Ef.
    + apply list_find_Some in Ef as (Hi & Hfa & _). right. apply list_elem_of_lookup_2 in Hi.
      split; [by eapply chain_not_null |]. split; [done |]. by apply Hin.
    + left. split; [done |]. intros x q Hx. apply list_find_None in Ef.
      rewrite Forall_forall in Ef. destruct (f x) eqn:Efx; [| done]. exfalso.
      apply (Ef x); [| done]. apply Hin. eauto.
  - intros a Ha. apply Hin in Ha as [q Hq]. eauto.
  - apply NoDup_length_dom; [by eapply chain_NoDup |]. intros a Ha. apply Hin in Ha as [q Hq]. eauto.
Qed.

(** Searching a list for the link to unlink. *)
Lemma lists_walk_link head node nxt stop (f : addr -> bool) k p :
  lists head node -> head k = Some p ->
  (forall x, is_Some (node x) -> is_Some (heap !! x)) ->
  (forall x, nxt x = next_of node x) ->
  (forall x q, node x = Some (k, q) -> stop x = Some (f x)) ->
  exists lk r, walk_link (size heap) nxt stop LHead p = Ret (lk, r) /\
    ((r = NULL /\ forall x q, node x = Some (k, q) -> f x = false) \/
     (r <> NULL /\ f r = true /\ exists q, node r = Some (k, q) /\
       (forall b, lk = LNext b -> b <> r /\ exists qb, node b = Some (k, qb)) /\
       lists (head_after head lk k q) (node_after node lk k q r))).
Proof.
  intros Hls Hk Hdom Hnxt Hstop. destruct (lists_chain _ _ Hls _ _ Hk) as (l & Hl & Hin).
  assert (Hl' : chain nxt p l) by (eapply chain_frame; [| done]; auto).
  destruct (walk_link_spec (size heap) nxt stop f LHead p l Hl')
    as (l1 & l2 & -> & Hl1 & Hl2 & Hw).
  { intros a Ha. apply Hin in Ha as [q Hq]. eauto. }
  { apply NoDup_length_dom; [by eapply chain_NoDup |]. intros a Ha. apply Hin in Ha as [q Hq]. eauto. }
  do 2 eexists. split; [exact Hw |]. destruct l2 as [| r l2]; simpl.
  - left. split; [done |]. intros x q Hx. rewrite app_nil_r in Hin.
    rewrite Forall_forall in Hl1. apply Hl1, Hin. eauto.
  - right. destruct (proj1 (Hin r)) as [q Hq].
    { apply elem_of_app. right. by left. }
    split; [by eapply lists_not_null |]. split; [done |]. exists q. split_and!; [done | | by eapply lists_unlink].
    intros b Hb. unfold link_after in Hb. destruct (last l1) as [c |] eqn:Ec; [| done].
    injection Hb as <-. apply last_Some in Ec as [l' ->].
    split.
    + intros ->. apply chain_NoDup in Hl. apply NoDup_app in Hl as (_ & Hdis & _).
      apply (Hdis r); [| by left]. rewrite elem_of_app, list_elem_of_singleton. by right.
    + apply Hin. rewrite !elem_of_app, list_elem_of_singleton. auto.
Qed.
End Lists.

(** ** Indexed contents

    [keyed f m]: the nodes seen through [f] carry pairwise distinct keys, and
    [m] maps each key to the value of its node. *)
Section Keyed.
Context {K V : Type} `{Countable K}.
Implicit Types (f : addr -> option (K * V)) (m : gmap K V).

Record keyed f m : Prop := {
  keyed_inj a a' k v v' : f a = Some (k, v) -> f a' = Some (k, v') -> a = a';
  keyed_lookup k v : m !! k = Some v <-> exists a, f a = Some (k, v)
}.

Lemma keyed_ext f f' m : (forall a, f' a = f a) -> keyed f m -> keyed f' m.
Proof.
  intros Hf [Hi Hl]. split.
  - intros a a' k v v'. rewrite !Hf. apply Hi.
  - intros k v. setoid_rewrite Hf. apply Hl.
Qed.

Lemma keyed_empty : keyed (fun _ => None) ∅.
Proof. split; [done |]. intros k v. rewrite lookup_empty. naive_solver. Qed.

Lemma keyed_None f m k a v : keyed f m -> m !! k = None -> f a = Some (k, v) -> False.
Proof. intros Hk Hm Ha. assert (m !! k = Some v) by (apply Hk; eauto). congruence. Qed.

Lemma keyed_insert f m a k v :
  keyed f m -> f a = None -> m !! k = None -> keyed (upd f a (Some (k, v))) (<[k := v]> m).
Proof.
  intros Hk Ha Hm. pose proof (fun b w => keyed_None f m k b w Hk Hm) as Hno. split.
  - intros b b' j w w'. unfold upd. repeat case_decide; subst; [done | | | apply Hk]; naive_solver.
  - intros j w. rewrite lookup_insert_Some, (keyed_lookup _ _ Hk). unfold upd. split.
    + intros [[<- <-] | (Hne & b & Hb)]; [exists a; by rewrite decide_True |].
      exists b. rewrite decide_False; [done |]. congruence.
    + intros (b & Hb). case_decide; [naive_solver |]. right. split; [| eauto]. naive_solver.
Qed.

Lemma keyed_update f m a k v v' :
  keyed f m -> f a = Some (k, v) -> keyed (upd f a (Some (k, v'))) (<[k := v']> m).
Proof.
  intros Hk Ha. split.
  - intros b b' j w w'. unfold upd. repeat case_decide; subst; [done | | | apply Hk].
    + intros [= <- <-] Hb. by pose proof (keyed_inj _ _ Hk _ _ _ _ _ Ha Hb).
    + intros Hb [= <- <-]. by pose proof (keyed_inj _ _ Hk _ _ _ _ _ Ha Hb).
  - intros j w. rewrite lookup_insert_Some, (keyed_lookup _ _ Hk). unfold upd. split.
    + intros [[<- <-] | (Hne & b & Hb)]; [exists a; by rewrite decide_True |].
      exists b. rewrite decide_False; [done |]. congruence.
    + intros (b & Hb). case_decide as Hd; [naive_solver |]. right. split; [| eauto]. intros <-.
      by pose proof (keyed_inj _ _ Hk _ _ _ _ _ Ha Hb).
Qed.

Lemma keyed_delete f m a k v :
  keyed f m -> f a = Some (k, v) -> keyed (upd f a None) (delete k m).
Proof.
  intros Hk Ha. split.
  - intros b b' j w w'. unfold upd. repeat case_decide; subst; [done.. |]. apply Hk.
  - intros j w. rewrite lookup_delete_Some, (keyed_lookup _ _ Hk). unfold upd. split.
    + intros (Hne & b & Hb). exists b. rewrite decide_False; [done |]. congruence.
    + intros (b & Hb). case_decide as Hd; [done |]. split; [| eauto]. intros <-.
      by pose proof (keyed_inj _ _ Hk _ _ _ _ _ Ha Hb).
Qed.

(** As many nodes as keys. *)
Lemma keyed_size {W} (heap : gmap addr W) (g : W -> K * V) m :
  keyed (fun a => g <$> heap !! a) m -> size heap = size m.
Proof.
  intros Hk. rewrite <- !length_map_to_list, <- (length_fmap (fun aw => g aw.2)).
  apply Permutation_length, NoDup_Permutation.
  - apply NoDup_fmap_2_strong; [| apply NoDup_map_to_list].
    intros [a w] [a' w'] Ha Ha' Heq. apply elem_of_map_to_list in Ha, Ha'. simpl in Heq.
    assert (a = a') as ->; [| congruence].
    eapply (keyed_inj _ _ Hk a a' (g w).1 (g w).2 (g w').2); simpl.
    + rewrite Ha. simpl. by destruct (g w).
    + rewrite Ha'. simpl. rewrite Heq. by destruct (g w').
  - apply NoDup_map_to_list.
  - intros [k v]. rewrite elem_of_map_to_list, list_elem_of_fmap. rewrite (keyed_lookup _ _ Hk).
    split.
    + intros ([a w] & Hg & Hw). apply elem_of_map_to_list in Hw. simpl in Hg. exists a.
      rewrite Hw. simpl. by rewrite Hg.
    + intros (a & Ha). apply fmap_Some in Ha as (w & Hw & Hg). exists (a, w).
      by rewrite elem_of_map_to_list.
Qed.
End Keyed.

(** ** Descriptors: a map keyed by descriptors has at most 2^31 entries, so no
    [size_t] counter of one wraps *)

Lemma NoDup_bounded_length (l : list Z) (n : nat) :
  NoDup l -> Forall (fun z => 0 <= z < Z.of_nat n) l -> (length l <= n)%nat.
Proof.
  intros Hnd Hf. rewrite <- (length_seq n 0), <- (length_fmap Z.to_nat l).
  apply submseteq_length, NoDup_submseteq.
  - apply NoDup_fmap_2_strong; [| done]. rewrite Forall_forall in Hf.
    intros x y Hx Hy. apply Hf in Hx, Hy. lia.
  - intros x Hx. apply list_elem_of_fmap in Hx as (z & -> & Hz). rewrite Forall_forall in Hf.
    apply Hf in Hz. apply elem_of_seq. lia.
Qed.

Lemma fds_bound {V} (B : gmap Z V) :
  (forall fd v, B !! fd = Some v -> is_fd fd) -> Z.of_nat (size B) <= int_max + 1.
Proof.
  intros HB. rewrite <- length_map_to_list, <- (length_fmap fst).
  apply Z2Nat.inj_le; [lia | unfold int_max; lia |]. rewrite Nat2Z.id.
  apply NoDup_bounded_length; [apply NoDup_fst_map_to_list |].
  rewrite Forall_fmap. apply Forall_forall. intros [fd v] Hin. apply elem_of_map_to_list in Hin.
  apply HB in Hin. unfold is_fd in Hin. simpl. rewrite Z2Nat.id; unfold int_max in *; lia.
Qed.
