(* ===== verification/Session.v ===== *)
(** * The server's session table ([src/server/session.c])

    Sessions and connection bindings are structs in memory, reached from two
    arrays of buckets (by session id and by file descriptor) and from the
    connection list of each session.  Every function below is the body of a
    critical section of the C function of the same name, on the whole memory of
    the table; a missing node is undefined behaviour. *)

From Stdlib Require Import Strings.Byte.
From S2P Require Import Prelude CString Protocol Heap.

(** ** Data *)

Definition SESSION_BUCKET_COUNT : Z := 1024.
Definition SESSION_ID_GENERATION_ATTEMPTS : nat := 8.
Definition USERNAME_SIZE : Z := 64.

Record connection_binding := {
  client_fd : Z;
  b_session : addr;
  fd_next : addr;
  session_next : addr
}.

Record session := {
  id : session_id;
  user_id : Z;
  cwd_id : Z;
  username : list byte;
  cwd : list byte;
  created_at : timespec;
  last_active : timespec;
  connection_count : Z;
  connections : addr;
  hash_next : addr
}.

(** The table and the memory that its pointers reach. *)
Record session_table := {
  session_buckets : list addr;
  fd_buckets : list addr;
  bucket_count : Z;
  session_count : Z;
  sessions : gmap addr session;
  bindings : gmap addr connection_binding
}.

Record session_context := {
  ctx_user_id : Z;
  ctx_cwd_id : Z;
  ctx_username : list byte;
  ctx_cwd : list byte
}.

(** ** Field updates *)

Definition set_sessions (t : session_table) m : session_table :=
  {| session_buckets := session_buckets t; fd_buckets := fd_buckets t;
     bucket_count := bucket_count t; session_count := session_count t;
     sessions := m; bindings := bindings t |}.
Definition set_bindings (t : session_table) m : session_table :=
  {| session_buckets := session_buckets t; fd_buckets := fd_buckets t;
     bucket_count := bucket_count t; session_count := session_count t;
     sessions := sessions t; bindings := m |}.
Definition set_session_buckets (t : session_table) b : session_table :=
  {| session_buckets := b; fd_buckets := fd_buckets t;
     bucket_count := bucket_count t; session_count := session_count t;
     sessions := sessions t; bindings := bindings t |}.
Definition set_fd_buckets (t : session_table) b : session_table :=
  {| session_buckets := session_buckets t; fd_buckets := b;
     bucket_count := bucket_count t; session_count := session_count t;
     sessions := sessions t; bindings := bindings t |}.
Definition set_session_count (t : session_table) n : session_table :=
  {| session_buckets := session_buckets t; fd_buckets := fd_buckets t;
     bucket_count := bucket_count t; session_count := n;
     sessions := sessions t; bindings := bindings t |}.

Definition set_last_active (s : session) now : session :=
  {| id := id s; user_id := user_id s; cwd_id := cwd_id s; username := username s;
     cwd := cwd s; created_at := created_at s; last_active := now;
     connection_count := connection_count s; connections := connections s;
     hash_next := hash_next s |}.
Definition set_connections (s : session) n c : session :=
  {| id := id s; user_id := user_id s; cwd_id := cwd_id s; username := username s;
     cwd := cwd s; created_at := created_at s; last_active := last_active s;
     connection_count := n; connections := c; hash_next := hash_next s |}.
Definition set_hash_next (s : session) q : session :=
  {| id := id s; user_id := user_id s; cwd_id := cwd_id s; username := username s;
     cwd := cwd s; created_at := created_at s; last_active := last_active s;
     connection_count := connection_count s; connections := connections s;
     hash_next := q |}.
Definition set_cwd (s : session) i c : session :=
  {| id := id s; user_id := user_id s; cwd_id := i; username := username s;
     cwd := c; created_at := created_at s; last_active := last_active s;
     connection_count := connection_count s; connections := connections s;
     hash_next := hash_next s |}.
Definition set_fd_next (b : connection_binding) q : connection_binding :=
  {| client_fd := client_fd b; b_session := b_session b; fd_next := q;
     session_next := session_next b |}.
Definition set_session_next (b : connection_binding) q : connection_binding :=
  {| client_fd := client_fd b; b_session := b_session b; fd_next := fd_next b;
     session_next := q |}.

(** ** Hashing *)

Definition hash_session_id (sid : session_id) (n : Z) : nat :=
  let h := foldl (fun h b => u64 (Z.lxor h (byte_val b) * 1099511628211))
                 1469598103934665603 (take SESSION_ID_SIZE sid) in
  Z.to_nat (h mod n).

Definition hash_fd (fd : Z) (n : Z) : nat := Z.to_nat (u32 fd mod n).

(** ** Random ids

    One answer per [getrandom] call. *)
Inductive random_answer :=
| RandomBytes (l : list byte)
| RandomEintr
| RandomError.

(** The filling loop; [acc] is what [session_id->bytes] holds so far. *)
Fixpoint generate_loop (acc : list byte) (answers : list random_answer)
    : outcome (option session_id * list random_answer) :=
  if (SESSION_ID_SIZE <=? length acc)%nat then Ret (Some acc, answers)
  else match answers with
       | [] => NoReturn
       | RandomEintr :: rest => generate_loop acc rest
       | RandomError :: rest => Ret (None, rest)
       | RandomBytes l :: rest =>
           match take (SESSION_ID_SIZE - length acc) l with
           | [] => Ret (None, rest)
           | got => generate_loop (acc ++ got) rest
           end
       end.

(** [None] is the return value -1. *)
Definition generate_session_id (answers : list random_answer)
    : outcome (option session_id * list random_answer) :=
  '(r, rest) ← generate_loop [] answers;
  Ret (match r with
       | Some sid => if session_id_is_empty sid then None else Some sid
       | None => None
       end, rest).

(** ** Lookup *)

Definition s_next (t : session_table) (a : addr) : option addr := hash_next <$> sessions t !! a.
Definition f_next (t : session_table) (a : addr) : option addr := fd_next <$> bindings t !! a.
Definition c_next (t : session_table) (a : addr) : option addr := session_next <$> bindings t !! a.

Definition find_session_locked (t : session_table) (sid : session_id) : outcome addr :=
  head ← deref (session_buckets t !! hash_session_id sid (bucket_count t));
  walk (size (sessions t)) (s_next t)
       (fun a => (fun s => session_id_equal (id s) sid) <$> sessions t !! a) head.

Definition find_binding_locked (t : session_table) (fd : Z) : outcome addr :=
  head ← deref (fd_buckets t !! hash_fd fd (bucket_count t));
  walk (size (bindings t)) (f_next t)
       (fun a => (fun b => client_fd b =? fd) <$> bindings t !! a) head.

Definition copy_context (s : session) : session_context :=
  {| ctx_user_id := user_id s; ctx_cwd_id := cwd_id s;
     ctx_username := strncpy0 USERNAME_SIZE (username s);
     ctx_cwd := strncpy0 PATH_MAX (cwd s) |}.

(** ** Operations *)

(** [ok] is the success of the allocations and of [pthread_mutex_init]. *)
Definition session_table_create (ok : bool) : option session_table :=
  if ok then
    Some {| session_buckets := replicate (Z.to_nat SESSION_BUCKET_COUNT) NULL;
            fd_buckets := replicate (Z.to_nat SESSION_BUCKET_COUNT) NULL;
            bucket_count := SESSION_BUCKET_COUNT; session_count := 0;
            sessions := ∅; bindings := ∅ |}
  else None.

(** Link a new binding [ba] of [fd] to the session [sa] at the head of the fd
    bucket and of the session's connection list (the same statements in
    [session_create] and [session_authorize]); [count] is the new
    [connection_count]. *)
Definition link_binding (t : session_table) (ba : addr) (fd : Z) (sa : addr)
    (count : Z -> Z) : outcome session_table :=
  let index := hash_fd fd (bucket_count t) in
  head ← deref (fd_buckets t !! index);
  s ← deref (sessions t !! sa);
  let b := {| client_fd := fd; b_session := sa; fd_next := head;
              session_next := connections s |} in
  let t := set_bindings t (<[ba := b]> (bindings t)) in
  let t := set_fd_buckets t (<[index := ba]> (fd_buckets t)) in
  Ret (set_sessions t (<[sa := set_connections s (count (connection_count s)) ba]> (sessions t))).

(** What one pass of the generation loop of [session_create] decides. *)
Inductive attempt :=
| Created
| Refused      (* the descriptor is already bound: return -1 *)
| Collision.   (* the id is taken: [continue] *)

(** The critical section of [session_create]; [sa] and [ba] are the addresses
    of the session and the binding allocated before the loop. *)
Definition session_create_locked (t : session_table) (sa ba : addr) (fd uid : Z)
    (name : list byte) (root_path_id : Z) (sid : session_id) (now : timespec)
    : outcome (attempt * session_table) :=
  b ← find_binding_locked t fd;
  if bool_decide (b <> NULL) then Ret (Refused, t)
  else
    other ← find_session_locked t sid;
    if bool_decide (other <> NULL) then Ret (Collision, t)
    else
      let s := {| id := sid; user_id := uid; cwd_id := root_path_id;
                  username := strncpy0 USERNAME_SIZE name; cwd := [SLASH];
                  created_at := now; last_active := now;
                  connection_count := 0; connections := NULL; hash_next := NULL |} in
      let t := set_sessions t (<[sa := s]> (sessions t)) in
      t ← link_binding t ba fd sa (fun _ => 1);
      let index := hash_session_id sid (bucket_count t) in
      head ← deref (session_buckets t !! index);
      s ← deref (sessions t !! sa);
      let t := set_sessions t (<[sa := set_hash_next s head]> (sessions t)) in
      let t := set_session_buckets t (<[index := sa]> (session_buckets t)) in
      Ret (Created, set_session_count t (u64 (session_count t + 1))).

(** The loop over at most [attempts] ids.  [clock] answers [clock_gettime], one
    per pass ([None] is a failure). *)
Fixpoint session_create_loop (attempts : nat) (t : session_table) (sa ba : addr)
    (fd uid : Z) (name : list byte) (root_path_id : Z)
    (random : list random_answer) (clock : nat -> option timespec)
    : outcome (option session_id * session_table) :=
  match attempts with
  | O => Ret (None, t)
  | S attempts =>
      '(r, random) ← generate_session_id random;
      match r, clock attempts with
      | Some sid, Some now =>
          '(a, t) ← session_create_locked t sa ba fd uid name root_path_id sid now;
          match a with
          | Created => Ret (Some sid, t)
          | Refused => Ret (None, t)
          | Collision => session_create_loop attempts t sa ba fd uid name root_path_id random clock
          end
      | _, _ => Ret (None, t)
      end
  end.

(** [alloc] is the result of the two [calloc] calls; [None] if either failed. *)
Definition session_create (t : session_table) (alloc : option (addr * addr)) (fd uid : Z)
    (name : list byte) (root_path_id : Z) (random : list random_answer)
    (clock : nat -> option timespec) : outcome (option session_id * session_table) :=
  if (fd <? 0) || bool_decide (name = []) || (USERNAME_SIZE <=? Z.of_nat (length name))
  then Ret (None, t)
  else match alloc with
       | None => Ret (None, t)
       | Some (sa, ba) =>
           session_create_loop SESSION_ID_GENERATION_ATTEMPTS t sa ba fd uid name
             root_path_id random clock
       end.

(** [clock] answers [clock_gettime]; [alloc] answers [calloc]. *)
Definition session_authorize (t : session_table) (alloc : option addr) (fd : Z)
    (sid : session_id) (clock : option timespec)
    : outcome (option session_context * session_table) :=
  if (fd <? 0) || session_id_is_empty sid then Ret (None, t)
  else match clock with
  | None => Ret (None, t)
  | Some now =>
      sa ← find_session_locked t sid;
      if bool_decide (sa = NULL) then Ret (None, t)
      else
        ba ← find_binding_locked t fd;
        bound ← (if bool_decide (ba = NULL) then Ret None
                 else b ← deref (bindings t !! ba); Ret (Some (b_session b)));
        if bool_decide (is_Some bound) && bool_decide (bound <> Some sa) then Ret (None, t)
        else
          linked ← (if bool_decide (ba = NULL) then
                      match alloc with
                      | None => Ret None
                      | Some ba => t ← link_binding t ba fd sa (fun n => u64 (n + 1)); Ret (Some t)
                      end
                    else Ret (Some t));
          match linked with
          | None => Ret (None, t)
          | Some t =>
              s ← deref (sessions t !! sa);
              let s := set_last_active s now in
              Ret (Some (copy_context s), set_sessions t (<[sa := s]> (sessions t)))
          end
  end.

Definition session_update_cwd (t : session_table) (fd : Z) (sid : session_id)
    (new_cwd_id : Z) (new_cwd : list byte) (clock : option timespec)
    : outcome (Z * session_table) :=
  if (fd <? 0) || session_id_is_empty sid || bool_decide (head new_cwd <> Some SLASH) ||
     (PATH_MAX <=? Z.of_nat (length new_cwd))
  then Ret (-1, t)
  else match clock with
  | None => Ret (-1, t)
  | Some now =>
      sa ← find_session_locked t sid;
      ba ← find_binding_locked t fd;
      if bool_decide (sa = NULL) || bool_decide (ba = NULL) then Ret (-1, t)
      else
        b ← deref (bindings t !! ba);
        if bool_decide (b_session b <> sa) then Ret (-1, t)
        else
          s ← deref (sessions t !! sa);
          let s := set_last_active (set_cwd s new_cwd_id (strncpy0 PATH_MAX new_cwd)) now in
          Ret (0, set_sessions t (<[sa := s]> (sessions t)))
  end.

(** Storing through the three kinds of [**] pointers of [session_detach_fd]. *)
Definition store_fd_link (t : session_table) (index : nat) (lk : link) (q : addr)
    : outcome session_table :=
  match lk with
  | LHead => Ret (set_fd_buckets t (<[index := q]> (fd_buckets t)))
  | LNext a => b ← deref (bindings t !! a);
               Ret (set_bindings t (<[a := set_fd_next b q]> (bindings t)))
  end.
Definition store_session_link (t : session_table) (sa : addr) (lk : link) (q : addr)
    : outcome session_table :=
  match lk with
  | LHead => s ← deref (sessions t !! sa);
             Ret (set_sessions t (<[sa := set_connections s (connection_count s) q]> (sessions t)))
  | LNext a => b ← deref (bindings t !! a);
               Ret (set_bindings t (<[a := set_session_next b q]> (bindings t)))
  end.
Definition store_hash_link (t : session_table) (index : nat) (lk : link) (q : addr)
    : outcome session_table :=
  match lk with
  | LHead => Ret (set_session_buckets t (<[index := q]> (session_buckets t)))
  | LNext a => s ← deref (sessions t !! a);
               Ret (set_sessions t (<[a := set_hash_next s q]> (sessions t)))
  end.

(** The tail of [session_detach_fd]: unlink and free the session [sa]. *)
Definition drop_session (t : session_table) (sa : addr) : outcome session_table :=
  s ← deref (sessions t !! sa);
  let index := hash_session_id (id s) (bucket_count t) in
  head ← deref (session_buckets t !! index);
  '(lk, cur) ← walk_link (size (sessions t)) (s_next t)
                 (fun a => Some (bool_decide (a = sa))) LHead head;
  t ← (if bool_decide (cur = sa) then store_hash_link t index lk (hash_next s) else Ret t);
  let t := set_session_count t (u64 (session_count t - 1)) in
  Ret (set_sessions t (delete sa (sessions t))).

Definition session_detach_fd (t : session_table) (fd : Z) : outcome session_table :=
  if fd <? 0 then Ret t
  else
    let index := hash_fd fd (bucket_count t) in
    head ← deref (fd_buckets t !! index);
    '(lk, ba) ← walk_link (size (bindings t)) (f_next t)
                  (fun a => (fun b => client_fd b =? fd) <$> bindings t !! a) LHead head;
    if bool_decide (ba = NULL) then Ret t
    else
      b ← deref (bindings t !! ba);
      t ← store_fd_link t index lk (fd_next b);
      let sa := b_session b in
      s ← deref (sessions t !! sa);
      '(lk, cur) ← walk_link (size (bindings t)) (c_next t)
                     (fun a => Some (bool_decide (a = ba))) LHead (connections s);
      b ← deref (bindings t !! ba);
      t ← (if bool_decide (cur = ba) then store_session_link t sa lk (session_next b) else Ret t);
      s ← deref (sessions t !! sa);
      let t := set_sessions t
                 (<[sa := set_connections s (u64 (connection_count s - 1)) (connections s)]>
                    (sessions t)) in
      let t := set_bindings t (delete ba (bindings t)) in
      s ← deref (sessions t !! sa);
      if connection_count s =? 0 then drop_session t sa else Ret t.

(** ** Destruction

    [free] removes a node; freeing a node twice, or reading a freed one, finds
    it missing and is undefined. *)
Fixpoint free_bindings (fuel : nat) (t : session_table) (p : addr) : outcome session_table :=
  if bool_decide (p = NULL) then Ret t
  else match fuel with
       | O => NoReturn
       | S fuel => b ← deref (bindings t !! p);
                   free_bindings fuel (set_bindings t (delete p (bindings t))) (session_next b)
       end.

Fixpoint free_sessions (fuel : nat) (t : session_table) (p : addr) : outcome session_table :=
  if bool_decide (p = NULL) then Ret t
  else match fuel with
       | O => NoReturn
       | S fuel => s ← deref (sessions t !! p);
                   t ← free_bindings (size (bindings t)) t (connections s);
                   free_sessions fuel (set_sessions t (delete p (sessions t))) (hash_next s)
       end.

(** The nodes that remain once [session_table_destroy] has returned; the arrays
    and the table itself are released after the loop. *)
Fixpoint free_buckets (buckets : list addr) (t : session_table) : outcome session_table :=
  match buckets with
  | [] => Ret t
  | p :: buckets => t ← free_sessions (size (sessions t)) t p; free_buckets buckets t
  end.
Definition session_table_destroy (t : session_table) : outcome session_table :=
  free_buckets (session_buckets t) t.
