(* ===== verification/SessionSpec.v ===== *)
(** * What the session table promises, and that [Session.v] keeps it

    The abstract table maps live session ids to their data and descriptors to
    session ids.  [rep] relates it to the pointer structure; every operation is
    shown to return, without touching a missing node, in a state that represents
    the abstract result. *)

From Stdlib Require Import Strings.Byte.
From S2P Require Import Prelude CString Protocol Heap Session.

(** ** Abstract table *)

Record asession := {
  as_user : Z;
  as_cwd_id : Z;
  as_username : list byte;
  as_cwd : list byte;
  as_created : timespec;
  as_last : timespec
}.

Record table_spec := {
  live : gmap session_id asession;
  bound : gmap Z session_id
}.

Definition empty_spec : table_spec := {| live := ∅; bound := ∅ |}.

Definition as_context (x : asession) : session_context :=
  {| ctx_user_id := as_user x; ctx_cwd_id := as_cwd_id x; ctx_username := as_username x;
     ctx_cwd := as_cwd x |}.
Definition as_touch (now : timespec) (x : asession) : asession :=
  {| as_user := as_user x; as_cwd_id := as_cwd_id x; as_username := as_username x;
     as_cwd := as_cwd x; as_created := as_created x; as_last := now |}.
Definition as_chdir (i : Z) (c : list byte) (now : timespec) (x : asession) : asession :=
  {| as_user := as_user x; as_cwd_id := i; as_username := as_username x;
     as_cwd := c; as_created := as_created x; as_last := now |}.
Definition as_new (uid root : Z) (name : list byte) (now : timespec) : asession :=
  {| as_user := uid; as_cwd_id := root; as_username := name; as_cwd := [SLASH];
     as_created := now; as_last := now |}.

Definition spec_create (fd : Z) (sid : session_id) (x : asession) (A : table_spec) : table_spec :=
  {| live := <[sid := x]> (live A); bound := <[fd := sid]> (bound A) |}.

(** A descriptor may use the session it is bound to; an unbound one is bound to
    it, if memory allows ([room]). *)
Definition spec_authorize (room : bool) (fd : Z) (sid : session_id) (now : timespec)
    (A : table_spec) : option (session_context * table_spec) :=
  x ← live A !! sid;
  match bound A !! fd with
  | Some other => if bool_decide (other = sid) then
                    Some (as_context x, {| live := <[sid := as_touch now x]> (live A);
                                           bound := bound A |})
                  else None
  | None => if room then Some (as_context x, {| live := <[sid := as_touch now x]> (live A);
                                                bound := <[fd := sid]> (bound A) |})
            else None
  end.

Definition spec_update_cwd (fd : Z) (sid : session_id) (i : Z) (c : list byte) (now : timespec)
    (A : table_spec) : option table_spec :=
  x ← live A !! sid;
  if bool_decide (bound A !! fd = Some sid)
  then Some {| live := <[sid := as_chdir i c now x]> (live A); bound := bound A |}
  else None.

(** The session goes with its last descriptor. *)
Definition spec_detach (fd : Z) (A : table_spec) : table_spec :=
  match bound A !! fd with
  | None => A
  | Some sid =>
      let rest := delete fd (bound A) in
      {| live := if bool_decide (map_Exists (fun _ other => other = sid) rest) then live A
                 else delete sid (live A);
         bound := rest |}
  end.

(** ** Invariant of the pointer structure

    Projections of the memory: the two hash tables and the connection lists as
    families of lists, and the contents of sessions and bindings. *)

Definition view (s : session) : asession :=
  {| as_user := user_id s; as_cwd_id := cwd_id s; as_username := username s;
     as_cwd := cwd s; as_created := created_at s; as_last := last_active s |}.

Definition shead (t : session_table) (i : nat) : option addr := session_buckets t !! i.
Definition snode (t : session_table) (a : addr) : option (nat * addr) :=
  (fun s => (hash_session_id (id s) SESSION_BUCKET_COUNT, hash_next s)) <$> sessions t !! a.
Definition fhead (t : session_table) (i : nat) : option addr := fd_buckets t !! i.
Definition fnode (t : session_table) (a : addr) : option (nat * addr) :=
  (fun b => (hash_fd (client_fd b) SESSION_BUCKET_COUNT, fd_next b)) <$> bindings t !! a.
Definition chead (t : session_table) (a : addr) : option addr := connections <$> sessions t !! a.
Definition cnode (t : session_table) (a : addr) : option (addr * addr) :=
  (fun b => (b_session b, session_next b)) <$> bindings t !! a.
Definition sdata (t : session_table) (a : addr) : option (session_id * asession) :=
  (fun s => (id s, view s)) <$> sessions t !! a.
Definition bdata (t : session_table) (a : addr) : option (Z * addr) :=
  (fun b => (client_fd b, b_session b)) <$> bindings t !! a.
Definition count (t : session_table) (a : addr) : option Z :=
  connection_count <$> sessions t !! a.

(** The descriptors bound to the session at [sa], in a map from descriptors to
    session addresses. *)
Definition conns (B : gmap Z addr) (sa : addr) : gmap Z addr := filter (fun fa => fa.2 = sa) B.

Record session_ok (sid : session_id) (x : asession) : Prop := {
  so_id : session_id_wf sid;
  so_id_set : session_id_is_empty sid = false;
  so_name : 0 < Z.of_nat (length (as_username x)) < USERNAME_SIZE;
  so_cwd : head (as_cwd x) = Some SLASH;
  so_cwd_len : Z.of_nat (length (as_cwd x)) < PATH_MAX
}.

(** The id of the session at [sa]. *)
Definition sid_of (t : session_table) (sa : addr) : option session_id := fst <$> sdata t sa.

(** [B] lists the bindings; [A] is the table as clients see it. *)
Record rep_by (B : gmap Z addr) (t : session_table) (A : table_spec) : Prop := {
  r_bucket_count : bucket_count t = SESSION_BUCKET_COUNT;
  r_session_buckets : Z.of_nat (length (session_buckets t)) = SESSION_BUCKET_COUNT;
  r_fd_buckets : Z.of_nat (length (fd_buckets t)) = SESSION_BUCKET_COUNT;
  r_hash : lists (shead t) (snode t);
  r_fd_hash : lists (fhead t) (fnode t);
  r_connections : lists (chead t) (cnode t);
  r_live : keyed (sdata t) (live A);
  r_fds : keyed (bdata t) B;
  r_bound : bound A = omap (sid_of t) B;
  r_total : session_count t = Z.of_nat (size (live A));
  r_count a n : count t a = Some n -> n = Z.of_nat (size (conns B a));
  r_session sid x : live A !! sid = Some x -> session_ok sid x;
  r_fd fd sa : B !! fd = Some sa -> is_fd fd
}.

(** A session lives as long as it has a connection. *)
Definition all_connected (t : session_table) : Prop := forall a n, count t a = Some n -> 0 < n.

Definition rep (t : session_table) (A : table_spec) : Prop :=
  all_connected t /\ exists B, rep_by B t A.

(** ** Bounds: a table holds at most one binding per descriptor, and no more
    sessions than bindings, so no counter wraps *)

Lemma conns_bound B sa : (size (conns B sa) <= size B)%nat.
Proof. apply map_subseteq_size, map_filter_subseteq. Qed.

Lemma size_list_to_set_le (l : list addr) : (size (list_to_set l : gset addr) <= length l)%nat.
Proof.
  induction l as [| x l IH]; [done |]. simpl. rewrite size_union_alt, size_singleton.
  assert (size (list_to_set l ∖ {[x]} : gset addr) <= size (list_to_set l : gset addr))%nat
    by (apply subseteq_size; set_solver).
  lia.
Qed.

Lemma sessions_bound B t A : all_connected t -> rep_by B t A -> (size (live A) <= size B)%nat.
Proof.
  intros Hall Hr. rewrite <- (keyed_size (sessions t) _ _ (r_live _ _ _ Hr)), <- size_dom.
  etransitivity; [| rewrite <- length_map_to_list, <- (length_fmap snd); apply size_list_to_set_le].
  apply subseteq_size. intros a Ha. apply elem_of_dom in Ha as [s Hs].
  apply elem_of_list_to_set, list_elem_of_fmap.
  assert (Hn : count t a = Some (connection_count s)) by (unfold count; by rewrite Hs).
  pose proof (Hall _ _ Hn) as Hpos. pose proof (r_count _ _ _ Hr _ _ Hn) as Hc.
  assert (conns B a <> ∅) as Hne by (intros He; rewrite He, map_size_empty in Hc; lia).
  apply map_choose in Hne as (fd & v & Hv). apply map_lookup_filter_Some in Hv as [Hv Heq].
  exists (fd, v). split; [done |]. by apply elem_of_map_to_list.
Qed.

Lemma conns_insert B fd sa a :
  B !! fd = None ->
  size (conns (<[fd := sa]> B) a) = if decide (a = sa) then S (size (conns B a)) else size (conns B a).
Proof.
  intros HB. unfold conns. case_decide as Ha.
  - rewrite map_filter_insert_True by done. rewrite map_size_insert_None; [done |].
    rewrite map_lookup_filter, HB. done.
  - rewrite map_filter_insert_False by (simpl; congruence). by rewrite delete_id.
Qed.

Lemma conns_delete B fd sa a :
  B !! fd = Some sa ->
  size (conns B a) = if decide (a = sa) then S (size (conns (delete fd B) a))
                     else size (conns (delete fd B) a).
Proof.
  intros HB. rewrite <- (insert_delete_id B fd sa HB) at 1.
  rewrite conns_insert by apply lookup_delete_eq. done.
Qed.

(** ** Hashes and lookups *)

Lemma hash_session_id_range sid :
  (hash_session_id sid SESSION_BUCKET_COUNT < Z.to_nat SESSION_BUCKET_COUNT)%nat.
Proof.
  unfold hash_session_id. apply Z2Nat.inj_lt; [apply Z.mod_pos_bound; done | done |].
  by apply Z.mod_pos_bound.
Qed.

Lemma hash_fd_range fd : (hash_fd fd SESSION_BUCKET_COUNT < Z.to_nat SESSION_BUCKET_COUNT)%nat.
Proof.
  unfold hash_fd. apply Z2Nat.inj_lt; [apply Z.mod_pos_bound; done | done |].
  by apply Z.mod_pos_bound.
Qed.

Lemma session_id_equal_wf l r :
  session_id_wf l -> session_id_wf r -> session_id_equal l r = bool_decide (l = r).
Proof.
  unfold session_id_wf, session_id_equal. intros Hl Hr. by rewrite !take_ge by lia.
Qed.

Section Lookup.
Context {B : gmap Z addr} {t : session_table} {A : table_spec} (Hr : rep_by B t A).

Lemma session_bucket sid :
  exists p, session_buckets t !! hash_session_id sid SESSION_BUCKET_COUNT = Some p.
Proof.
  apply lookup_lt_is_Some. pose proof (r_session_buckets _ _ _ Hr).
  pose proof (hash_session_id_range sid). lia.
Qed.

Lemma fd_bucket fd : exists p, fd_buckets t !! hash_fd fd SESSION_BUCKET_COUNT = Some p.
Proof.
  apply lookup_lt_is_Some. pose proof (r_fd_buckets _ _ _ Hr). pose proof (hash_fd_range fd). lia.
Qed.

Lemma snode_heap a : is_Some (snode t a) -> is_Some (sessions t !! a).
Proof. intros [? Ha]. by apply fmap_Some in Ha as (s & -> & _). Qed.
Lemma fnode_heap a : is_Some (fnode t a) -> is_Some (bindings t !! a).
Proof. intros [? Ha]. by apply fmap_Some in Ha as (s & -> & _). Qed.
Lemma cnode_heap a : is_Some (cnode t a) -> is_Some (bindings t !! a).
Proof. intros [? Ha]. by apply fmap_Some in Ha as (s & -> & _). Qed.

Lemma s_next_of a : s_next t a = next_of (snode t) a.
Proof. unfold s_next, next_of, snode. by destruct (sessions t !! a). Qed.
Lemma f_next_of a : f_next t a = next_of (fnode t) a.
Proof. unfold f_next, next_of, fnode. by destruct (bindings t !! a). Qed.
Lemma c_next_of a : c_next t a = next_of (cnode t) a.
Proof. unfold c_next, next_of, cnode. by destruct (bindings t !! a). Qed.

(** A binding names a live session. *)
Lemma bdata_home a fd sa : bdata t a = Some (fd, sa) -> exists d, sdata t sa = Some d.
Proof.
  intros Ha. apply fmap_Some in Ha as (b & Hb & [= -> ->]).
  destruct (lists_home _ _ (r_connections _ _ _ Hr) a (b_session b) (session_next b)) as [h Hh].
  - unfold cnode. by rewrite Hb.
  - unfold chead in Hh. apply fmap_Some in Hh as (s & Hs & _). unfold sdata. rewrite Hs. eauto.
Qed.

Lemma B_home fd sa : B !! fd = Some sa -> exists d, sdata t sa = Some d.
Proof. intros HB. apply (r_fds _ _ _ Hr) in HB as [a Ha]. by eapply bdata_home. Qed.

Lemma bound_Some fd sid :
  bound A !! fd = Some sid <-> exists sa x, B !! fd = Some sa /\ sdata t sa = Some (sid, x).
Proof.
  rewrite (r_bound _ _ _ Hr), lookup_omap. unfold sid_of.
  destruct (B !! fd) as [sa |]; simpl; [| naive_solver].
  rewrite fmap_Some. split; [intros ([? x] & ? & ->); eauto | naive_solver].
Qed.

Lemma bound_None fd : bound A !! fd = None <-> B !! fd = None.
Proof.
  rewrite (r_bound _ _ _ Hr), lookup_omap. unfold sid_of.
  destruct (B !! fd) as [sa |] eqn:E; simpl; [| done].
  destruct (B_home _ _ E) as [d Hd]. by rewrite Hd.
Qed.

Lemma find_session_rep sid :
  session_id_wf sid ->
  match live A !! sid with
  | None => find_session_locked t sid = Ret NULL
  | Some x => exists a s, find_session_locked t sid = Ret a /\ a <> NULL /\
                sessions t !! a = Some s /\ id s = sid /\ view s = x
  end.
Proof.
  intros Hwf. destruct (session_bucket sid) as [p Hp].
  unfold find_session_locked. rewrite (r_bucket_count _ _ _ Hr), Hp. cbn [deref mbind outcome_bind].
  destruct (lists_walk (sessions t) (shead t) (snode t) (s_next t)
    (fun a => (fun s => session_id_equal (id s) sid) <$> sessions t !! a)
    (fun a => bool_decide (id <$> sessions t !! a = Some sid)) _ _ (r_hash _ _ _ Hr) Hp
    snode_heap s_next_of) as (r & Hw & Hcase).
  { intros a q Ha. apply fmap_Some in Ha as (s & Hs & _). rewrite Hs. simpl.
    rewrite session_id_equal_wf; [| | done].
    - f_equal. apply bool_decide_ext. naive_solver.
    - eapply so_id, (r_session _ _ _ Hr _ (view s)). apply (r_live _ _ _ Hr). exists a.
      unfold sdata. by rewrite Hs. }
  rewrite Hw. destruct Hcase as [[-> Hno] | (Hnull & Hf & q & Hq)].
  - destruct (live A !! sid) as [x |] eqn:Ex; [| done].
    apply (r_live _ _ _ Hr) in Ex as (a & Ha). apply fmap_Some in Ha as (s & Hs & [= -> ->]).
    specialize (Hno a (hash_next s)). unfold snode in Hno. rewrite Hs in Hno. simpl in Hno.
    specialize (Hno eq_refl). zbool. congruence.
  - zbool. apply fmap_Some in Hf as (s & Hs & ->).
    assert (Hx : live A !! id s = Some (view s))
      by (apply (r_live _ _ _ Hr); exists r; unfold sdata; by rewrite Hs).
    rewrite Hx. exists r, s. naive_solver.
Qed.

Lemma find_binding_rep fd :
  match B !! fd with
  | None => find_binding_locked t fd = Ret NULL
  | Some sa => exists a b, find_binding_locked t fd = Ret a /\ a <> NULL /\
                 bindings t !! a = Some b /\ client_fd b = fd /\ b_session b = sa
  end.
Proof.
  destruct (fd_bucket fd) as [p Hp].
  unfold find_binding_locked. rewrite (r_bucket_count _ _ _ Hr), Hp. cbn [deref mbind outcome_bind].
  destruct (lists_walk (bindings t) (fhead t) (fnode t) (f_next t)
    (fun a => (fun b => client_fd b =? fd) <$> bindings t !! a)
    (fun a => default false ((fun b => client_fd b =? fd) <$> bindings t !! a)) _ _
    (r_fd_hash _ _ _ Hr) Hp fnode_heap f_next_of) as (r & Hw & Hcase).
  { intros a q Ha. apply fmap_Some in Ha as (b & Hb & _). by rewrite Hb. }
  rewrite Hw. destruct Hcase as [[-> Hno] | (Hnull & Hf & q & Hq)].
  - destruct (B !! fd) as [x |] eqn:Ex; [| done].
    apply (r_fds _ _ _ Hr) in Ex as (a & Hb).
    apply fmap_Some in Hb as (b & Hb & [= -> ->]). specialize (Hno a (fd_next b)).
    unfold fnode in Hno. rewrite Hb in Hno. simpl in Hno. specialize (Hno eq_refl). zbool. congruence.
  - destruct (bindings t !! r) as [b |] eqn:Hb; [| done]. simpl in Hf. zbool.
    assert (HB : B !! fd = Some (b_session b)).
    { apply (r_fds _ _ _ Hr). exists r. unfold bdata. rewrite Hb. simpl. by rewrite Hf. }
    rewrite HB. exists r, b. naive_solver.
Qed.
End Lookup.

(** ** Linking a binding *)

(** Compare two projections of updated memories. *)
Ltac views :=
  intros; unfold snode, fnode, chead, cnode, sdata, bdata, count, shead, fhead, upd; simpl;
  repeat case_decide; subst; simplify_map_eq; try done.
Ltac views_at a := let x := fresh "x" in intros x; destruct (decide (x = a)); views.
(** The same with one projection already related by [H]. *)
Ltac views_from H x :=
  specialize (H x);
  unfold snode, fnode, chead, cnode, sdata, bdata, count, shead, fhead, upd in H |- *;
  simpl in H |- *; repeat case_decide; subst; simplify_map_eq; try done.

Record linked (t t' : session_table) (ba : addr) (fd : Z) (sa : addr) (n : Z) : Prop := {
  lk_session_buckets : session_buckets t' = session_buckets t;
  lk_bucket_count : bucket_count t' = bucket_count t;
  lk_session_count : session_count t' = session_count t;
  lk_fd_length : length (fd_buckets t') = length (fd_buckets t);
  lk_fd_hash : lists (fhead t) (fnode t) -> lists (fhead t') (fnode t');
  lk_connections : lists (chead t) (cnode t) -> lists (chead t') (cnode t');
  lk_snode a : snode t' a = snode t a;
  lk_sdata a : sdata t' a = sdata t a;
  lk_bdata a : bdata t' a = upd (bdata t) ba (Some (fd, sa)) a;
  lk_count a : count t' a = upd (count t) sa (Some n) a
}.

Lemma link_binding_linked t ba fd sa s k :
  bucket_count t = SESSION_BUCKET_COUNT ->
  Z.of_nat (length (fd_buckets t)) = SESSION_BUCKET_COUNT ->
  sessions t !! sa = Some s -> bindings t !! ba = None -> ba <> NULL ->
  exists t', link_binding t ba fd sa k = Ret t' /\ linked t t' ba fd sa (k (connection_count s)).
Proof.
  intros Hn Hlen Hs Hb Hnull. pose proof (hash_fd_range fd) as Hr.
  destruct (lookup_lt_is_Some_2 (fd_buckets t) (hash_fd fd SESSION_BUCKET_COUNT)) as [p Hp]; [lia |].
  unfold link_binding. rewrite Hn, Hp, Hs. simpl. eexists. split; [done |]. split; simpl; try done.
  - by rewrite length_insert.
  - intros Hl. eapply lists_ext; [| | apply (lists_push (fhead t) (fnode t) (hash_fd fd SESSION_BUCKET_COUNT) p ba)];
      [| | done | views | done | exact Hl].
    + intros i. views; [rewrite list_lookup_insert_eq by lia; done |].
      by rewrite list_lookup_insert_ne.
    + views.
  - intros Hl. eapply lists_ext; [| | apply (lists_push (chead t) (cnode t) sa (connections s) ba)];
      [| | views | views | done | exact Hl]; views.
  - views_at sa.
  - views_at sa.
  - views.
  - views.
Qed.

(** The views of [B] after binding a new descriptor. *)
Lemma bound_insert B t t' A fd sa sid x :
  rep_by B t A -> sdata t' sa = Some (sid, x) ->
  (forall a d, a <> sa -> sdata t a = Some d -> sid_of t' a = sid_of t a) ->
  (forall d, sdata t sa = Some d -> d.1 = sid) ->
  <[fd := sid]> (bound A) = omap (sid_of t') (<[fd := sa]> B).
Proof.
  intros Hr Hsa Hother Hsame. apply map_eq. intros f.
  rewrite lookup_omap, lookup_insert, lookup_insert. case_decide as Hf.
  - simpl. unfold sid_of. by rewrite Hsa.
  - rewrite (r_bound _ _ _ Hr), lookup_omap. destruct (B !! f) as [a |] eqn:Ea; simpl; [| done].
    destruct (B_home Hr _ _ Ea) as [d Hd]. destruct (decide (a = sa)) as [-> | Hne].
    + unfold sid_of. rewrite Hsa, Hd. simpl. f_equal. auto.
    + symmetry. eauto.
Qed.

(** ** Creation *)

(** The memory after [session_create_locked] has published a session. *)
Record created (t t' : session_table) (sa ba : addr) (fd : Z) (sid : session_id) (x : asession)
    : Prop := {
  cr_bucket_count : bucket_count t' = bucket_count t;
  cr_session_count : session_count t' = u64 (session_count t + 1);
  cr_session_length : length (session_buckets t') = length (session_buckets t);
  cr_fd_length : length (fd_buckets t') = length (fd_buckets t);
  cr_hash : lists (shead t) (snode t) -> lists (shead t') (snode t');
  cr_fd_hash : lists (fhead t) (fnode t) -> lists (fhead t') (fnode t');
  cr_connections : lists (chead t) (cnode t) -> lists (chead t') (cnode t');
  cr_sdata a : sdata t' a = upd (sdata t) sa (Some (sid, x)) a;
  cr_bdata a : bdata t' a = upd (bdata t) ba (Some (fd, sa)) a;
  cr_count a : count t' a = upd (count t) sa (Some 1) a
}.

Lemma conns_free B t A sa : rep_by B t A -> sessions t !! sa = None -> size (conns B sa) = 0%nat.
Proof.
  intros Hr Hsa. apply map_size_empty_iff, map_eq. intros f. rewrite lookup_empty.
  destruct (conns B sa !! f) as [a |] eqn:E; [| done]. exfalso.
  apply map_lookup_filter_Some in E as [E Ha]. simpl in Ha. subst.
  destruct (B_home Hr _ _ E) as [d Hd]. unfold sdata in Hd. by rewrite Hsa in Hd.
Qed.

Lemma created_rep t t' A sa ba fd sid x :
  rep t A -> created t t' sa ba fd sid x ->
  live A !! sid = None -> bound A !! fd = None ->
  sessions t !! sa = None -> bindings t !! ba = None ->
  session_ok sid x -> is_fd fd -> rep t' (spec_create fd sid x A).
Proof.
  intros [Hall [B Hr]] Hc Hsid Hfd Hsa Hba Hx Hisfd.
  apply (bound_None Hr) in Hfd.
  assert (Hsn : sdata t sa = None) by (unfold sdata; by rewrite Hsa).
  pose proof (fds_bound B (r_fd _ _ _ Hr)). pose proof (sessions_bound _ _ _ Hall Hr).
  destruct Hc as [Hbc Hsc Hsl Hfl Hh Hfh Hcn Hsd Hbd Hct]. split.
  - intros a n. rewrite Hct. unfold upd. case_decide; [naive_solver | apply Hall].
  - exists (<[fd := sa]> B). split; simpl.
    + rewrite Hbc. apply Hr.
    + rewrite Hsl. apply Hr.
    + rewrite Hfl. apply Hr.
    + apply Hh, Hr.
    + apply Hfh, Hr.
    + apply Hcn, Hr.
    + eapply keyed_ext; [exact Hsd |]. by apply keyed_insert; [apply Hr | |].
    + eapply keyed_ext; [exact Hbd |]. apply keyed_insert; [apply Hr | | done].
      unfold bdata. by rewrite Hba.
    + eapply (bound_insert _ _ _ _ _ _ _ x); [done | rewrite Hsd; unfold upd; by rewrite decide_True | |].
      * intros a d Ha _. unfold sid_of. rewrite Hsd. unfold upd. by rewrite decide_False.
      * congruence.
    + rewrite Hsc, (r_total _ _ _ Hr), map_size_insert_None by done.
      unfold u64. rewrite Z.mod_small; [lia |]. unfold int_max, u64_mod in *. lia.
    + intros a n. rewrite Hct, conns_insert by done. unfold upd. case_decide.
      * intros [= <-]. subst. by rewrite (conns_free _ _ _ _ Hr).
      * apply (r_count _ _ _ Hr).
    + intros i y. rewrite lookup_insert_Some. intros [[<- <-] | [_ Hi]]; [done | by apply (r_session _ _ _ Hr)].
    + intros f y. rewrite lookup_insert_Some. intros [[<- <-] | [_ Hi]]; [done | by eapply (r_fd _ _ _ Hr)].
Qed.

(** Hanging the new session, already linked to its binding, in its bucket. *)
Lemma publish_created t t1 sa ba fd sid s s1 p :
  let index := hash_session_id sid SESSION_BUCKET_COUNT in
  linked (set_sessions t (<[sa := s]> (sessions t))) t1 ba fd sa 1 ->
  id s = sid -> connections s = NULL ->
  sa <> NULL -> sessions t !! sa = None -> session_buckets t !! index = Some p ->
  sessions t1 !! sa = Some s1 -> id s1 = sid -> view s1 = view s ->
  created t
    (set_session_count
       (set_session_buckets (set_sessions t1 (<[sa := set_hash_next s1 p]> (sessions t1)))
          (<[index := sa]> (session_buckets t)))
       (u64 (session_count t + 1))) sa ba fd sid (view s).
Proof.
  intros index [Hsb Hbc Hsc Hfl Hfh Hcn Hsno Hsd Hbd Hct] Hid Hcs Hsa Hnone Hp Hs1 Hid1 Hv1.
  pose proof (lookup_lt_Some _ _ _ Hp) as Hlt.
  split; simpl.
  - done.
  - done.
  - by rewrite length_insert.
  - done.
  - intros Hl. eapply lists_ext; [| | apply (lists_push (shead t) (snode t) index p sa)];
      [| | done | views | done | exact Hl].
    + views; [by rewrite list_lookup_insert_eq | by rewrite list_lookup_insert_ne].
    + intros a. views_from Hsno a. by rewrite Hid1.
  - intros Hl. eapply lists_ext; [| | apply Hfh, Hl]; views.
  - intros Hl. eapply lists_ext; [| | apply Hcn]; [views_at sa; by rewrite Hs1 | views |].
    eapply lists_ext; [| | apply (lists_new (chead t) (cnode t) sa)]; [| | views | exact Hl]; views.
    by rewrite Hcs.
  - intros a. views_from Hsd a. unfold view. simpl. congruence.
  - exact Hbd.
  - intros a. views_from Hct a. by rewrite Hct.
Qed.

(** One pass of the generation loop. *)
Lemma session_create_locked_rep t A sa ba fd uid name root sid now :
  rep t A -> is_fd fd -> session_id_wf sid -> session_id_is_empty sid = false ->
  0 < Z.of_nat (length name) < USERNAME_SIZE ->
  sa <> NULL -> sessions t !! sa = None -> ba <> NULL -> bindings t !! ba = None ->
  match bound A !! fd, live A !! sid with
  | Some _, _ => session_create_locked t sa ba fd uid name root sid now = Ret (Refused, t)
  | None, Some _ => session_create_locked t sa ba fd uid name root sid now = Ret (Collision, t)
  | None, None => exists t',
      session_create_locked t sa ba fd uid name root sid now = Ret (Created, t') /\
      rep t' (spec_create fd sid (as_new uid root name now) A)
  end.
Proof.
  intros Hrep Hfd Hwf Hne Hname Hsa Hsn Hba Hbn. pose proof Hrep as [Hall [B Hr]].
  pose proof (find_binding_rep Hr fd) as Hfb. pose proof (find_session_rep Hr sid Hwf) as Hfs.
  unfold session_create_locked. destruct (bound A !! fd) as [o |] eqn:Eb.
  { apply (bound_Some Hr) in Eb as (a & y & Eb & _). rewrite Eb in Hfb.
    destruct Hfb as (a' & b & -> & Hnull & _). simpl. by rewrite bool_decide_eq_true_2. }
  pose proof Eb as EB. apply (bound_None Hr) in EB. rewrite EB in Hfb. rewrite Hfb. simpl.
  destruct (live A !! sid) as [y |] eqn:El.
  { destruct Hfs as (a & s & -> & Hnull & _). simpl. by rewrite bool_decide_eq_true_2. }
  rewrite Hfs. simpl.
  set (s := {| id := sid; user_id := uid; cwd_id := root; username := strncpy0 USERNAME_SIZE name;
    cwd := [SLASH]; created_at := now; last_active := now; connection_count := 0;
    connections := NULL; hash_next := NULL |}).
  set (t0 := set_sessions t (<[sa := s]> (sessions t))).
  destruct (link_binding_linked t0 ba fd sa s (fun _ => 1)) as (t1 & -> & Hl);
    [apply Hr | apply Hr | by simplify_map_eq | done | done |]. cbn [mbind outcome_bind].
  destruct (session_bucket Hr sid) as [p Hp].
  assert (Hs1 : exists s1, sessions t1 !! sa = Some s1 /\ id s1 = sid /\ view s1 = view s).
  { pose proof (lk_sdata _ _ _ _ _ _ Hl sa) as Hd. unfold sdata at 2 in Hd. unfold t0 in Hd. simpl in Hd.
    rewrite lookup_insert_eq in Hd. apply fmap_Some in Hd as (s1 & Hs1 & Heq). exists s1.
    split_and!; [done | by apply (f_equal fst) in Heq | by apply (f_equal snd) in Heq]. }
  destruct Hs1 as (s1 & Hs1 & Hid & Hview).
  rewrite (lk_bucket_count _ _ _ _ _ _ Hl), (lk_session_buckets _ _ _ _ _ _ Hl). simpl.
  rewrite (r_bucket_count _ _ _ Hr), Hp. simpl. rewrite Hs1. simpl. eexists. split; [done |].
  rewrite (lk_session_count _ _ _ _ _ _ Hl). change (session_count t0) with (session_count t).
  assert (Hx : view s = as_new uid root name now).
  { unfold view, as_new, s. simpl. unfold strncpy0. rewrite take_ge; [done |]. lia. }
  rewrite <- Hx. eapply created_rep; try done; [by eapply publish_created |].
  split; rewrite ?Hx; done.
Qed.

(** ** Authorization and directory change *)

(** Overwriting the data of a session, leaving its links alone. *)
Lemma update_rep B t A a s s' :
  rep_by B t A -> sessions t !! a = Some s ->
  id s' = id s -> connection_count s' = connection_count s ->
  connections s' = connections s -> hash_next s' = hash_next s -> session_ok (id s) (view s') ->
  rep_by B (set_sessions t (<[a := s']> (sessions t)))
    {| live := <[id s := view s']> (live A); bound := bound A |}.
Proof.
  intros Hr Hs Hid Hcc Hcs Hn Hok.
  assert (Hsd : sdata t a = Some (id s, view s)) by (unfold sdata; by rewrite Hs).
  assert (Hlive : live A !! id s = Some (view s)) by (apply (r_live _ _ _ Hr); eauto).
  split; simpl; try apply Hr.
  - eapply lists_ext; [| | apply Hr]; [done | views_at a; by rewrite Hid, Hn].
  - eapply lists_ext; [| | apply Hr]; [views_at a; by rewrite Hcs | done].
  - eapply keyed_ext; [| eapply (keyed_update _ _ a _ _ (view s')); [apply Hr | exact Hsd]]. views_at a. by rewrite Hid.
  - rewrite (r_bound _ _ _ Hr). apply map_eq. intros f. rewrite !lookup_omap.
    destruct (B !! f) as [b |]; simpl; [| done]. unfold sid_of.
    destruct (decide (b = a)); views. by rewrite Hid.
  - rewrite (r_total _ _ _ Hr), map_size_insert, Hlive. done.
  - intros b n Hc. apply (r_count _ _ _ Hr). rewrite <- Hc. destruct (decide (b = a)); views.
    by rewrite Hcc.
  - intros i y. rewrite lookup_insert_Some.
    intros [[<- <-] | [_ Hi]]; [done | by apply (r_session _ _ _ Hr)].
Qed.

Lemma update_connected t a s s' :
  all_connected t -> sessions t !! a = Some s -> connection_count s' = connection_count s ->
  all_connected (set_sessions t (<[a := s']> (sessions t))).
Proof.
  intros Hall Hs Hc b n. unfold count. simpl. destruct (decide (b = a)) as [-> |]; simplify_map_eq.
  - intros [= <-]. rewrite Hc. apply (Hall a). unfold count. by rewrite Hs.
  - apply (Hall b).
Qed.

(** Binding one more descriptor to a session. *)
Lemma linked_rep B t t' A ba fd sa s :
  all_connected t -> rep_by B t A -> sessions t !! sa = Some s -> bindings t !! ba = None ->
  B !! fd = None -> is_fd fd -> linked t t' ba fd sa (u64 (connection_count s + 1)) ->
  all_connected t' /\
  rep_by (<[fd := sa]> B) t' {| live := live A; bound := <[fd := id s]> (bound A) |}.
Proof.
  intros Hall Hr Hs Hba HB Hfd [Hsb Hbc Hsc Hfl Hfh Hcn Hsno Hsd Hbd Hct].
  assert (Hcs : count t sa = Some (connection_count s)) by (unfold count; by rewrite Hs).
  assert (Hn : u64 (connection_count s + 1) = Z.of_nat (S (size (conns B sa)))).
  { rewrite (r_count _ _ _ Hr _ _ Hcs). pose proof (fds_bound B (r_fd _ _ _ Hr)).
    pose proof (conns_bound B sa). unfold u64.
    rewrite Z.mod_small; [lia |]. unfold int_max, u64_mod in *. lia. }
  split.
  - intros a n. rewrite Hct. unfold upd. case_decide; [intros [= <-]; lia | apply Hall].
  - split; simpl; rewrite ?Hbc, ?Hsb, ?Hfl, ?Hsc; try apply Hr.
    + eapply lists_ext; [| exact Hsno | apply Hr]. intros i. unfold shead. by rewrite Hsb.
    + apply Hfh, Hr.
    + apply Hcn, Hr.
    + eapply keyed_ext; [exact Hsd | apply Hr].
    + eapply keyed_ext; [exact Hbd |]. apply keyed_insert; [apply Hr | | done].
      unfold bdata. by rewrite Hba.
    + eapply (bound_insert _ _ _ _ _ _ _ (view s)); [done | | |].
      * rewrite Hsd. unfold sdata. by rewrite Hs.
      * intros a d _ _. unfold sid_of. by rewrite Hsd.
      * intros d. unfold sdata. rewrite Hs. by intros [= <-].
    + intros a n. rewrite Hct, conns_insert by done. unfold upd. case_decide.
      * intros [= <-]. by subst.
      * apply (r_count _ _ _ Hr).
    + intros f y. rewrite lookup_insert_Some. intros [[<- <-] | [_ Hi]]; [done | by eapply (r_fd _ _ _ Hr)].
Qed.

(** What [calloc] promises: a new address, not NULL. *)
Definition fresh_binding (t : session_table) (ba : addr) : Prop :=
  ba <> NULL /\ bindings t !! ba = None.
Definition fresh_session (t : session_table) (sa : addr) : Prop :=
  sa <> NULL /\ sessions t !! sa = None.

Lemma copy_context_view s :
  session_ok (id s) (view s) -> copy_context s = as_context (view s).
Proof.
  intros [_ _ Hn _ Hc]. unfold copy_context, as_context, strncpy0. simpl in *.
  rewrite !take_ge by (unfold USERNAME_SIZE, PATH_MAX in *; lia). done.
Qed.

Lemma empty_not_live B t A sid : rep_by B t A -> session_id_is_empty sid = true -> live A !! sid = None.
Proof.
  intros Hr He. destruct (live A !! sid) as [x |] eqn:E; [| done].
  apply (r_session _ _ _ Hr) in E. apply so_id_set in E. congruence.
Qed.

Lemma find_session_live B t A sid x :
  rep_by B t A -> session_id_wf sid -> live A !! sid = Some x ->
  exists a s, find_session_locked t sid = Ret a /\ a <> NULL /\
    sessions t !! a = Some s /\ id s = sid /\ view s = x /\ session_ok (id s) (view s) /\
    sdata t a = Some (sid, x).
Proof.
  intros Hr Hwf Hx. pose proof (find_session_rep Hr sid Hwf) as Hf. rewrite Hx in Hf.
  destruct Hf as (a & s & Hf & Hnull & Hs & Hid & Hview). exists a, s.
  split_and!; try done; [rewrite Hid, Hview; by apply (r_session _ _ _ Hr) |].
  unfold sdata. rewrite Hs. simpl. by rewrite Hid, Hview.
Qed.

(** Two live sessions are at the same address exactly when their ids agree. *)
Lemma same_session B t A fd a other sid x :
  rep_by B t A -> B !! fd = Some other -> sdata t a = Some (sid, x) ->
  bound A !! fd = Some sid <-> other = a.
Proof.
  intros Hr HB Ha. rewrite (bound_Some Hr). split.
  - intros (sa & y & ? & Hy). simplify_eq. by eapply (keyed_inj _ _ (r_live _ _ _ Hr)).
  - intros ->. eauto.
Qed.

Lemma fd_nonneg_is_fd fd : (fd <? 0) = false -> fd <= int_max -> is_fd fd.
Proof. unfold is_fd. intros ? ?. zbool. lia. Qed.

(** The last statements of [session_authorize]. *)
Lemma touch_rep B t A a sid x now :
  all_connected t -> rep_by B t A -> sdata t a = Some (sid, x) ->
  exists t',
    (s ← deref (sessions t !! a);
     let s := set_last_active s now in
     Ret (Some (copy_context s), set_sessions t (<[a := s]> (sessions t)))) =
    Ret (Some (as_context x), t') /\
    rep t' {| live := <[sid := as_touch now x]> (live A); bound := bound A |}.
Proof.
  intros Hall Hr Hsd. pose proof Hsd as Hs. apply fmap_Some in Hs as (s & Hs & Heq).
  assert (Hid : sid = id s) by (by apply (f_equal fst) in Heq).
  assert (Hx : x = view s) by (by apply (f_equal snd) in Heq).
  assert (Hok : session_ok sid x) by (apply (r_session _ _ _ Hr), (r_live _ _ _ Hr); eauto).
  rewrite Hs. simpl. eexists. split.
  - rewrite copy_context_view; [by rewrite Hx | by destruct Hok; subst; split].
  - split; [by eapply update_connected |]. exists B. subst.
    apply (update_rep B t A a s (set_last_active s now)); try done. by destruct Hok; split.
Qed.

Lemma session_authorize_rep t A alloc fd sid clock :
  rep t A -> fd <= int_max -> session_id_wf sid ->
  (forall ba, alloc = Some ba -> fresh_binding t ba) ->
  match clock ≫= (fun now => if fd <? 0 then None
                             else spec_authorize (bool_decide (is_Some alloc)) fd sid now A) with
  | None => session_authorize t alloc fd sid clock = Ret (None, t)
  | Some (ctx, A') => exists t', session_authorize t alloc fd sid clock = Ret (Some ctx, t') /\ rep t' A'
  end.
Proof.
  intros [Hall [B Hr]] Hmax Hwf Hfresh. unfold session_authorize, spec_authorize.
  destruct clock as [now |]; simpl; [| by destruct (_ || _)].
  destruct (fd <? 0) eqn:Efd; simpl; [done |]. pose proof (fd_nonneg_is_fd _ Efd Hmax) as Hfd.
  destruct (session_id_is_empty sid) eqn:Ee.
  { by rewrite (empty_not_live _ _ _ _ Hr Ee). }
  destruct (live A !! sid) as [x |] eqn:Ex; simpl.
  2:{ pose proof (find_session_rep Hr sid Hwf) as Hf. rewrite Ex in Hf. by rewrite Hf. }
  destruct (find_session_live _ _ _ _ _ Hr Hwf Ex) as (a & s & -> & Hnull & Hs & Hid & Hview & Hsok & Hsd).
  simpl. rewrite (bool_decide_eq_false_2 (a = NULL)) by done.
  pose proof (find_binding_rep Hr fd) as Hfb.
  destruct (B !! fd) as [other |] eqn:EB.
  - pose proof (same_session _ _ _ _ _ _ _ _ Hr EB Hsd) as Hsame.
    destruct Hfb as (ba & b & -> & Hbnull & Hb & _ & Hbs). simpl.
    rewrite (bool_decide_eq_false_2 (ba = NULL)) by done. rewrite Hb. simpl. rewrite Hbs.
    destruct (bound A !! fd) as [o |] eqn:Eo; [| apply (bound_None Hr) in Eo; congruence].
    destruct (decide (o = sid)) as [-> | Hne].
    + assert (other = a) as -> by (by apply Hsame). rewrite bool_decide_eq_true_2 by done.
      rewrite (bool_decide_eq_false_2 (Some a <> Some a)) by (intros []; done).
      by eapply touch_rep.
    + rewrite (bool_decide_eq_false_2 (o = sid)) by done.
      rewrite (bool_decide_eq_true_2 (Some other <> Some a)); [done |].
      intros [= ->]. apply Hne. assert (Some o = Some sid) by (by apply Hsame). congruence.
  - rewrite Hfb. simpl.
    pose proof EB as Eo. apply (bound_None Hr) in Eo. rewrite Eo.
    destruct alloc as [ba |]; simpl; [| done]. destruct (Hfresh ba eq_refl) as [Hban Hbn].
    destruct (link_binding_linked t ba fd a s (fun n => u64 (n + 1))) as (t1 & -> & Hl);
      [apply Hr | apply Hr | done | done | done |]. simpl.
    destruct (linked_rep _ _ _ _ _ _ _ _ Hall Hr Hs Hbn EB Hfd Hl) as [Hall1 Hr1].
    rewrite <- (lk_sdata _ _ _ _ _ _ Hl a) in Hsd. rewrite Hid in Hr1.
    exact (touch_rep _ _ _ _ _ _ now Hall1 Hr1 Hsd).
Qed.

Lemma session_update_cwd_rep t A fd sid i c clock :
  rep t A -> session_id_wf sid ->
  match clock ≫= (fun now => if (fd <? 0) || bool_decide (head c <> Some SLASH) ||
                                (PATH_MAX <=? Z.of_nat (length c)) then None
                             else spec_update_cwd fd sid i c now A) with
  | None => session_update_cwd t fd sid i c clock = Ret (-1, t)
  | Some A' => exists t', session_update_cwd t fd sid i c clock = Ret (0, t') /\ rep t' A'
  end.
Proof.
  intros [Hall [B Hr]] Hwf. unfold session_update_cwd, spec_update_cwd.
  destruct clock as [now |]; simpl; [| by destruct (_ || _ || _ || _)].
  destruct (fd <? 0) eqn:Efd; simpl; [done |].
  destruct (bool_decide (head c <> Some SLASH)) eqn:Ec; simpl; [by rewrite orb_true_r |].
  destruct (PATH_MAX <=? Z.of_nat (length c)) eqn:El; simpl; [by rewrite !orb_true_r |].
  rewrite !orb_false_r. destruct (session_id_is_empty sid) eqn:Ee.
  { by rewrite (empty_not_live _ _ _ _ Hr Ee). }
  pose proof (find_binding_rep Hr fd) as Hfb. pose proof (find_session_rep Hr sid Hwf) as Hfs.
  destruct (live A !! sid) as [x |] eqn:Ex; simpl.
  2:{ rewrite Hfs. simpl. destruct (B !! fd); [destruct Hfb as (? & ? & -> & _) | rewrite Hfb]; done. }
  destruct (find_session_live _ _ _ _ _ Hr Hwf Ex) as (a & s & -> & Hnull & Hs & Hid & Hview & Hsok & Hsd).
  simpl. rewrite (bool_decide_eq_false_2 (a = NULL)) by done. simpl.
  destruct (B !! fd) as [other |] eqn:EB.
  2:{ rewrite Hfb. simpl. pose proof EB as Eo. apply (bound_None Hr) in Eo. by rewrite Eo. }
  pose proof (same_session _ _ _ _ _ _ _ _ Hr EB Hsd) as Hsame.
  destruct Hfb as (ba & b & -> & Hbnull & Hb & _ & Hbs). simpl.
  rewrite (bool_decide_eq_false_2 (ba = NULL)) by done. rewrite Hb. simpl. rewrite Hbs.
  destruct (decide (other = a)) as [-> | Hne].
  - rewrite (bool_decide_eq_true_2 (bound A !! fd = Some sid)) by (by apply Hsame).
    rewrite (bool_decide_eq_false_2 (a <> a)) by (intros []; done). rewrite Hs. simpl.
    zbool. apply dec_stable in Ec.
    assert (Hc : strncpy0 PATH_MAX c = c) by (unfold strncpy0; rewrite take_ge; [done | lia]).
    rewrite Hc. eexists. split; [done |]. split; [by eapply update_connected |]. exists B.
    set (s' := set_last_active (set_cwd s i c) now).
    replace (as_chdir i c now x) with (view s') by (by rewrite <- Hview). rewrite <- Hid.
    apply (update_rep B t A a s s'); try done. by destruct Hsok; split.
  - rewrite (bool_decide_eq_false_2 (bound A !! fd = Some sid)) by (by rewrite Hsame).
    by rewrite (bool_decide_eq_true_2 (other <> a)).
Qed.

(** ** Creating a session *)

Lemma generate_loop_spec acc answers :
  (length acc <= SESSION_ID_SIZE)%nat ->
  generate_loop acc answers <> Undef /\
  forall r rest, generate_loop acc answers = Ret (r, rest) ->
    forall sid, r = Some sid -> session_id_wf sid.
Proof.
  revert acc. induction answers as [| [l | |] answers IH]; intros acc Hacc; cbn [generate_loop];
    (destruct (Nat.leb_spec SESSION_ID_SIZE (length acc));
     [split; [done |]; intros ? ? [= <- <-] ? [= <-]; unfold session_id_wf; lia |]).
  - by split; [| naive_solver].
  - pose proof (length_take l (SESSION_ID_SIZE - length acc)) as Hl.
    destruct (take (SESSION_ID_SIZE - length acc) l) as [| b got] eqn:Eg; [by split; [| naive_solver] |].
    apply IH. rewrite length_app. lia.
  - by apply IH.
  - split; [done |]. intros ? ? [= <- <-]. done.
Qed.

(** An id that [generate_session_id] accepts has 16 bytes, not all zero. *)
Lemma generate_session_id_spec answers :
  generate_session_id answers <> Undef /\
  forall sid rest, generate_session_id answers = Ret (Some sid, rest) ->
    session_id_wf sid /\ session_id_is_empty sid = false.
Proof.
  destruct (generate_loop_spec [] answers) as [Hu Hs]; [simpl; lia |].
  unfold generate_session_id. destruct (generate_loop [] answers) as [[r rest] | |]; [| done | done].
  simpl. split; [done |]. intros sid rest' Heq. destruct r as [i |]; [| done].
  destruct (session_id_is_empty i) eqn:E; [done |]. injection Heq as <- <-. split; [| done]. by eapply Hs.
Qed.

Lemma session_create_loop_rep n t A sa ba fd uid name root random clock :
  rep t A -> is_fd fd -> 0 < Z.of_nat (length name) < USERNAME_SIZE ->
  fresh_session t sa -> fresh_binding t ba ->
  session_create_loop n t sa ba fd uid name root random clock <> Undef /\
  forall r t', session_create_loop n t sa ba fd uid name root random clock = Ret (r, t') ->
    match r with
    | None => t' = t
    | Some sid => exists now, session_id_wf sid /\ session_id_is_empty sid = false /\
        live A !! sid = None /\ bound A !! fd = None /\
        rep t' (spec_create fd sid (as_new uid root name now) A)
    end.
Proof.
  intros Hrep Hfd Hname [Hsa Hsn] [Hba Hbn]. revert random.
  induction n as [| n IH]; intros random; cbn [session_create_loop]; [by split; [| intros ? ? [= <- <-]] |].
  destruct (generate_session_id_spec random) as [Hu Hg].
  destruct (generate_session_id random) as [[r rest] | |]; [| done | by split; [| intros]].
  cbn [mbind outcome_bind]. destruct r as [sid |]; [| by split; [| intros ? ? [= <- <-]]].
  destruct (clock n) as [now |]; [| by split; [| intros ? ? [= <- <-]]].
  destruct (Hg sid rest eq_refl) as [Hwf Hne].
  pose proof (session_create_locked_rep t A sa ba fd uid name root sid now
    Hrep Hfd Hwf Hne Hname Hsa Hsn Hba Hbn) as Hl.
  destruct (bound A !! fd) as [o |] eqn:Eb.
  { rewrite Hl. by split; [| intros ? ? [= <- <-]]. }
  destruct (live A !! sid) as [x |] eqn:Ex.
  { rewrite Hl. apply IH. }
  destruct Hl as (t' & -> & Hr'). split; [done |]. intros ? ? [= <- <-]. eauto 8.
Qed.

Lemma session_create_rep t A alloc fd uid name root random clock :
  rep t A -> fd <= int_max ->
  (forall sa ba, alloc = Some (sa, ba) -> fresh_session t sa /\ fresh_binding t ba) ->
  session_create t alloc fd uid name root random clock <> Undef /\
  forall r t', session_create t alloc fd uid name root random clock = Ret (r, t') ->
    match r with
    | None => t' = t
    | Some sid => exists now, session_id_wf sid /\ session_id_is_empty sid = false /\
        live A !! sid = None /\ bound A !! fd = None /\
        rep t' (spec_create fd sid (as_new uid root name now) A)
    end.
Proof.
  intros Hrep Hmax Halloc. unfold session_create.
  destruct ((fd <? 0) || _ || _) eqn:Eg; [by split; [| intros ? ? [= <- <-]] |].
  destruct alloc as [[sa ba] |]; [| by split; [| intros ? ? [= <- <-]]].
  destruct (Halloc sa ba eq_refl). zbool.
  apply session_create_loop_rep; [done | unfold is_fd; lia | | done | done].
  destruct name; [done |]. simpl in *. lia.
Qed.

Lemma generate_session_id_full sid rest :
  session_id_wf sid -> session_id_is_empty sid = false ->
  generate_session_id (RandomBytes sid :: rest) = Ret (Some sid, rest).
Proof.
  intros Hwf Hne. unfold session_id_wf in Hwf. unfold generate_session_id. cbn [generate_loop length].
  change (SESSION_ID_SIZE - 0)%nat with SESSION_ID_SIZE. rewrite take_ge by lia.
  change (SESSION_ID_SIZE <=? 0)%nat with false. cbn match.
  destruct sid as [| b sid]; [done |]. rewrite app_nil_l.
  assert (generate_loop (b :: sid) rest = Ret (Some (b :: sid), rest)) as ->.
  { destruct rest; cbn [generate_loop]; by rewrite Hwf. }
  simpl. by rewrite Hne.
Qed.

(** [session_create] succeeds within its eight attempts: if the generator
    produces fewer than eight ids that are taken and then a free one, the call
    returns that id and the session is in the table. *)
Theorem session_create_succeeds t A sa ba fd uid name root taken sid rest clock :
  rep t A -> is_fd fd -> 0 < Z.of_nat (length name) < USERNAME_SIZE ->
  fresh_session t sa -> fresh_binding t ba -> bound A !! fd = None ->
  Forall (fun i => session_id_wf i /\ session_id_is_empty i = false /\ is_Some (live A !! i)) taken ->
  session_id_wf sid -> session_id_is_empty sid = false -> live A !! sid = None ->
  (length taken < SESSION_ID_GENERATION_ATTEMPTS)%nat -> (forall n, is_Some (clock n)) ->
  exists t' now, session_create t (Some (sa, ba)) fd uid name root
                   (map RandomBytes taken ++ RandomBytes sid :: rest) clock = Ret (Some sid, t') /\
    rep t' (spec_create fd sid (as_new uid root name now) A).
Proof.
  intros Hrep Hfd Hname [Hsa Hsn] [Hba Hbn] Hb Htaken Hwf Hne Hlive Hlen Hclock.
  unfold session_create. rewrite (proj2 (Z.ltb_ge fd 0)) by (unfold is_fd in Hfd; lia).
  rewrite bool_decide_eq_false_2 by (intros ->; simpl in Hname; lia).
  rewrite (proj2 (Z.leb_gt _ _)) by lia. cbn [orb].
  revert Hlen. generalize SESSION_ID_GENERATION_ATTEMPTS as n.
  assert (Hstep := fun i now Hi He => session_create_locked_rep t A sa ba fd uid name root i now
                     Hrep Hfd Hi He Hname Hsa Hsn Hba Hbn).
  induction Htaken as [| i taken (Hi & He & [x Hx]) _ IH]; intros [| n] Hlen; simpl in Hlen; try lia.
  - cbn [map app session_create_loop]. rewrite generate_session_id_full by done.
    cbn [mbind outcome_bind]. destruct (Hclock n) as [now ->].
    specialize (Hstep sid now Hwf Hne). rewrite Hb, Hlive in Hstep. destruct Hstep as (t' & -> & Hr).
    cbn [mbind outcome_bind]. eauto.
  - cbn [map app session_create_loop]. rewrite generate_session_id_full by done.
    cbn [mbind outcome_bind]. destruct (Hclock n) as [now ->].
    specialize (Hstep i now Hi He). rewrite Hb, Hx in Hstep. rewrite Hstep. cbn [mbind outcome_bind].
    apply IH. lia.
Qed.

(** ** Detaching a descriptor *)

(** A link that may be stored through: a list head, or a node of list [k]
    other than the one being removed. *)
Definition good_link {K} (node : addr -> option (K * addr)) (lk : link) (k : K) (a : addr) : Prop :=
  forall b, lk = LNext b -> b <> a /\ exists q, node b = Some (k, q).

Record fd_unlinked (t t1 : session_table) (index : nat) (lk : link) (q ba : addr) : Prop := {
  fu_sessions : sessions t1 = sessions t;
  fu_session_buckets : session_buckets t1 = session_buckets t;
  fu_bucket_count : bucket_count t1 = bucket_count t;
  fu_session_count : session_count t1 = session_count t;
  fu_length : length (fd_buckets t1) = length (fd_buckets t);
  fu_fhead k : fhead t1 k = head_after (fhead t) lk index q k;
  fu_fnode x : x <> ba -> fnode t1 x = node_after (fnode t) lk index q ba x;
  fu_cnode x : cnode t1 x = cnode t x;
  fu_bdata x : bdata t1 x = bdata t x
}.

Lemma store_fd_link_spec t index lk q ba :
  good_link (fnode t) lk index ba -> (index < length (fd_buckets t))%nat ->
  exists t1, store_fd_link t index lk q = Ret t1 /\ fd_unlinked t t1 index lk q ba.
Proof.
  intros Hlk Hlen. destruct lk as [| c]; simpl.
  - eexists. split; [done |]. split; simpl; try done.
    + by rewrite length_insert.
    + views; [by rewrite list_lookup_insert_eq | by rewrite list_lookup_insert_ne].
    + intros x Hx. unfold node_after, upd. by rewrite decide_False.
  - destruct (Hlk c eq_refl) as (Hne & qc & Hc). apply fmap_Some in Hc as (b & Hb & [= Hi _]).
    rewrite Hb. simpl. eexists. split; [done |]. split; simpl; try done.
    + intros x Hx. unfold node_after, upd. rewrite decide_False by done. views.
    + views_at c.
    + views_at c.
Qed.

Record session_unlinked (t t2 : session_table) (sa : addr) (lk : link) (q ba : addr) : Prop := {
  su_session_buckets : session_buckets t2 = session_buckets t;
  su_fd_buckets : fd_buckets t2 = fd_buckets t;
  su_bucket_count : bucket_count t2 = bucket_count t;
  su_session_count : session_count t2 = session_count t;
  su_chead k : chead t2 k = head_after (chead t) lk sa q k;
  su_cnode x : x <> ba -> cnode t2 x = node_after (cnode t) lk sa q ba x;
  su_fnode x : fnode t2 x = fnode t x;
  su_snode x : snode t2 x = snode t x;
  su_sdata x : sdata t2 x = sdata t x;
  su_count x : count t2 x = count t x;
  su_bdata x : bdata t2 x = bdata t x
}.

Lemma store_session_link_spec t sa lk q ba :
  good_link (cnode t) lk sa ba -> is_Some (sessions t !! sa) ->
  exists t2, store_session_link t sa lk q = Ret t2 /\ session_unlinked t t2 sa lk q ba.
Proof.
  intros Hlk [s Hs]. destruct lk as [| c]; simpl.
  - rewrite Hs. simpl. eexists. split; [done |]. split; simpl; try done;
      [views | intros x Hx; unfold node_after, upd; by rewrite decide_False | views_at sa..].
  - destruct (Hlk c eq_refl) as (Hne & qc & Hc). apply fmap_Some in Hc as (b & Hb & [= Hi _]).
    rewrite Hb. simpl. eexists. split; [done |]. split; simpl; try done; [| views_at c..].
    intros x Hx. unfold node_after, upd. rewrite decide_False by done. views.
Qed.

(** The memory once the binding [ba] of [fd] has been freed. *)
Record unbound (t t3 : session_table) (ba : addr) (sa : addr) (n : Z) : Prop := {
  ub_session_buckets : session_buckets t3 = session_buckets t;
  ub_bucket_count : bucket_count t3 = bucket_count t;
  ub_session_count : session_count t3 = session_count t;
  ub_fd_length : length (fd_buckets t3) = length (fd_buckets t);
  ub_fd_hash : lists (fhead t3) (fnode t3);
  ub_connections : lists (chead t3) (cnode t3);
  ub_snode x : snode t3 x = snode t x;
  ub_sdata x : sdata t3 x = sdata t x;
  ub_bdata x : bdata t3 x = upd (bdata t) ba None x;
  ub_count x : count t3 x = upd (count t) sa (Some n) x
}.

Lemma unbound_rep B t t3 A ba fd sa n sid x :
  rep_by B t A -> B !! fd = Some sa -> bdata t ba = Some (fd, sa) -> sdata t sa = Some (sid, x) ->
  unbound t t3 ba sa (u64 (n - 1)) -> count t sa = Some n -> 0 < n ->
  rep_by (delete fd B) t3 {| live := live A; bound := delete fd (bound A) |}.
Proof.
  intros Hr HB Hbd Hsd [Hsb Hbc Hsc Hfl Hfh Hcn Hsn Hsdt Hbdt Hct] Hn Hpos.
  pose proof (r_count _ _ _ Hr _ _ Hn) as Hcount. rewrite (conns_delete _ _ _ sa HB) in Hcount.
  rewrite decide_True in Hcount by done.
  pose proof (fds_bound B (r_fd _ _ _ Hr)). pose proof (conns_bound B sa).
  rewrite (conns_delete _ _ _ sa HB), decide_True in H0 by done.
  split; simpl; rewrite ?Hbc, ?Hsb, ?Hfl, ?Hsc; try apply Hr; try done.
  - eapply lists_ext; [| exact Hsn | apply Hr]. intros i. unfold shead. by rewrite Hsb.
  - eapply keyed_ext; [exact Hsdt | apply Hr].
  - eapply keyed_ext; [exact Hbdt |]. eapply keyed_delete; [apply Hr | done].
  - rewrite omap_delete, (r_bound _ _ _ Hr). f_equal. apply map_eq. intros f. rewrite !lookup_omap.
    destruct (B !! f); simpl; [| done]. unfold sid_of. by rewrite Hsdt.
  - intros a m. rewrite Hct. unfold upd. case_decide as Ha.
    + intros [= <-]. subst a n. unfold u64.
      rewrite Z.mod_small; unfold int_max, u64_mod in *; lia.
    + intros Hm. apply (r_count _ _ _ Hr) in Hm. rewrite (conns_delete _ _ _ a HB) in Hm.
      by rewrite decide_False in Hm.
  - intros f y. rewrite lookup_delete_Some. intros [_ Hf]. by eapply (r_fd _ _ _ Hr).
Qed.

(** Looking the binding up through links. *)
Lemma detach_find B t A fd p :
  rep_by B t A -> fd_buckets t !! hash_fd fd SESSION_BUCKET_COUNT = Some p ->
  exists lk r, walk_link (size (bindings t)) (f_next t)
      (fun a => (fun b => client_fd b =? fd) <$> bindings t !! a) LHead p = Ret (lk, r) /\
    match B !! fd with
    | None => r = NULL
    | Some sa => exists b, r <> NULL /\ bindings t !! r = Some b /\ client_fd b = fd /\ b_session b = sa /\
        good_link (fnode t) lk (hash_fd fd SESSION_BUCKET_COUNT) r /\
        lists (head_after (fhead t) lk (hash_fd fd SESSION_BUCKET_COUNT) (fd_next b))
              (node_after (fnode t) lk (hash_fd fd SESSION_BUCKET_COUNT) (fd_next b) r)
    end.
Proof.
  intros Hr Hp.
  destruct (lists_walk_link (bindings t) (fhead t) (fnode t) (f_next t)
    (fun a => (fun b => client_fd b =? fd) <$> bindings t !! a)
    (fun a => default false ((fun b => client_fd b =? fd) <$> bindings t !! a)) _ _
    (r_fd_hash _ _ _ Hr) Hp fnode_heap f_next_of) as (lk & r & Hw & Hcase).
  { intros a q Ha. apply fmap_Some in Ha as (b & Hb & _). by rewrite Hb. }
  exists lk, r. split; [exact Hw |].
  destruct Hcase as [[-> Hno] | (Hnull & Hf & q & Hq & Hg & Hl)].
  - destruct (B !! fd) as [x |] eqn:Ex; [| done].
    apply (r_fds _ _ _ Hr) in Ex as (a & Hb). apply fmap_Some in Hb as (b & Hb & [= -> ->]).
    specialize (Hno a (fd_next b)). unfold fnode in Hno. rewrite Hb in Hno. simpl in Hno.
    specialize (Hno eq_refl). zbool. congruence.
  - apply fmap_Some in Hq as (b & Hb & [= _ Hqn]). rewrite Hb in Hf. simpl in Hf. zbool.
    assert (HB : B !! fd = Some (b_session b)).
    { apply (r_fds _ _ _ Hr). exists r. unfold bdata. rewrite Hb. simpl. by rewrite Hf. }
    rewrite HB. exists b. subst. done.
Qed.

(** Looking it up in the connection list of its session. *)
Lemma detach_find_session B t A t1 sa s ba b :
  rep_by B t A -> (forall x, cnode t1 x = cnode t x) -> sessions t1 = sessions t ->
  sessions t !! sa = Some s -> bindings t1 !! ba = Some b -> b_session b = sa ->
  exists lk, walk_link (size (bindings t1)) (c_next t1)
      (fun a => Some (bool_decide (a = ba))) LHead (connections s) = Ret (lk, ba) /\
    good_link (cnode t1) lk sa ba /\
    lists (head_after (chead t1) lk sa (session_next b)) (node_after (cnode t1) lk sa (session_next b) ba).
Proof.
  intros Hr Hc Hss Hs Hb Hbs.
  assert (Hl1 : lists (chead t1) (cnode t1)).
  { eapply lists_ext; [| exact Hc | apply Hr]. intros k. unfold chead. by rewrite Hss. }
  assert (Hba : cnode t1 ba = Some (sa, session_next b)) by (unfold cnode; rewrite Hb; simpl; by rewrite Hbs).
  destruct (lists_walk_link (bindings t1) (chead t1) (cnode t1) (c_next t1)
    (fun a => Some (bool_decide (a = ba))) (fun a => bool_decide (a = ba)) sa (connections s)
    Hl1) as (lk & r & Hw & Hcase); [unfold chead; by rewrite Hss, Hs | apply cnode_heap | apply c_next_of | done |].
  destruct Hcase as [[-> Hno] | (Hnull & Hf & q & Hq & Hg & Hl)].
  - specialize (Hno ba _ Hba). zbool. done.
  - zbool. subst r. rewrite Hba in Hq. injection Hq as <-. by exists lk.
Qed.

(** Both lists unlinked, the counter decremented and the binding freed. *)
Lemma unlinked_unbound t t1 t2 lk lk2 q q2 ba sa i s2 :
  fd_unlinked t t1 i lk q ba -> session_unlinked t1 t2 sa lk2 q2 ba ->
  lists (head_after (fhead t) lk i q) (node_after (fnode t) lk i q ba) ->
  lists (head_after (chead t1) lk2 sa q2) (node_after (cnode t1) lk2 sa q2 ba) ->
  sessions t2 !! sa = Some s2 ->
  unbound t (set_bindings
    (set_sessions t2 (<[sa := set_connections s2 (u64 (connection_count s2 - 1)) (connections s2)]> (sessions t2)))
    (delete ba (bindings t2))) ba sa (u64 (connection_count s2 - 1)).
Proof.
  intros [] [] Hl Hl2 Hs2. split; simpl; try congruence.
  - eapply lists_ext; [| | exact Hl]; [intros k; unfold fhead in *; simpl; by rewrite su_fd_buckets0 |].
    intros x. destruct (decide (x = ba)) as [-> | Hx]; [unfold node_after; views |].
    rewrite <- fu_fnode0, <- su_fnode0 by done. views.
  - eapply lists_ext; [| | exact Hl2].
    + intros k. rewrite <- su_chead0. destruct (decide (k = sa)); views.
    + intros x. destruct (decide (x = ba)) as [-> | Hx]; [unfold node_after; views |].
      rewrite <- su_cnode0 by done. views.
  - intros x. transitivity (snode t1 x); [| unfold snode; by rewrite fu_sessions0].
    rewrite <- su_snode0. destruct (decide (x = sa)); views.
  - intros x. transitivity (sdata t1 x); [| unfold sdata; by rewrite fu_sessions0].
    rewrite <- su_sdata0. destruct (decide (x = sa)); views.
  - intros x. unfold upd. rewrite <- fu_bdata0, <- su_bdata0. case_decide; views.
  - intros x. assert (Hc : count t x = count t2 x) by (rewrite su_count0; unfold count; by rewrite fu_sessions0).
    unfold upd. rewrite Hc. views.
Qed.

Lemma detach_unbinds B t A fd sa :
  rep_by B t A -> (fd <? 0) = false -> B !! fd = Some sa ->
  exists ba t3 n s3, bdata t ba = Some (fd, sa) /\ count t sa = Some n /\
    sessions t3 !! sa = Some s3 /\ connection_count s3 = u64 (n - 1) /\
    unbound t t3 ba sa (u64 (n - 1)) /\
    session_detach_fd t fd = if connection_count s3 =? 0 then drop_session t3 sa else Ret t3.
Proof.
  intros Hr Hfd HB. destruct (fd_bucket Hr fd) as [p Hp].
  destruct (detach_find _ _ _ _ _ Hr Hp) as (lk & ba & Hw & Hcase). rewrite HB in Hcase.
  destruct Hcase as (b & Hnull & Hb & Hcf & Hbs & Hg & Hl).
  pose proof (lookup_lt_Some _ _ _ Hp) as Hlt.
  destruct (store_fd_link_spec t _ lk (fd_next b) ba Hg Hlt) as (t1 & Hst & Hu).
  assert (Hbd : bdata t ba = Some (fd, sa)) by (unfold bdata; rewrite Hb; simpl; by rewrite Hcf, Hbs).
  destruct (bdata_home Hr _ _ _ Hbd) as [d Hd]. apply fmap_Some in Hd as (s & Hs & _).
  assert (Hb1 : exists b1, bindings t1 !! ba = Some b1 /\ b_session b1 = sa).
  { pose proof (fu_bdata _ _ _ _ _ _ Hu ba) as Hd1. rewrite Hbd in Hd1.
    apply fmap_Some in Hd1 as (b1 & ? & [= _ ->]). eauto. }
  destruct Hb1 as (b1 & Hb1 & Hbs1).
  destruct (detach_find_session _ _ _ t1 sa s ba b1 Hr (fu_cnode _ _ _ _ _ _ Hu)
    (fu_sessions _ _ _ _ _ _ Hu) Hs Hb1 Hbs1) as (lk2 & Hw2 & Hg2 & Hl2).
  destruct (store_session_link_spec t1 sa lk2 (session_next b1) ba Hg2) as (t2 & Hst2 & Hu2).
  { rewrite (fu_sessions _ _ _ _ _ _ Hu). eauto. }
  assert (Hn : count t2 sa = Some (connection_count s)).
  { rewrite (su_count _ _ _ _ _ _ Hu2). unfold count. by rewrite (fu_sessions _ _ _ _ _ _ Hu), Hs. }
  apply fmap_Some in Hn as (s2 & Hs2 & Hn2).
  set (s3 := set_connections s2 (u64 (connection_count s2 - 1)) (connections s2)).
  exists ba, (set_bindings (set_sessions t2 (<[sa := s3]> (sessions t2))) (delete ba (bindings t2))),
    (connection_count s), s3.
  split_and!.
  - exact Hbd.
  - unfold count. by rewrite Hs.
  - simpl. by rewrite lookup_insert_eq.
  - simpl. by rewrite Hn2.
  - rewrite Hn2. by eapply unlinked_unbound.
  - unfold session_detach_fd. rewrite Hfd, (r_bucket_count _ _ _ Hr), Hp. cbn [deref mbind outcome_bind].
    rewrite Hw. cbn [mbind outcome_bind]. rewrite bool_decide_eq_false_2 by done.
    rewrite Hb. cbn [deref mbind outcome_bind]. rewrite Hst. cbn [mbind outcome_bind].
    rewrite Hbs, (fu_sessions _ _ _ _ _ _ Hu), Hs. cbn [deref mbind outcome_bind].
    rewrite Hw2. cbn [mbind outcome_bind]. rewrite Hb1. cbn [deref mbind outcome_bind].
    rewrite bool_decide_eq_true_2 by done. rewrite Hst2. cbn [mbind outcome_bind].
    rewrite Hs2. cbn [deref mbind outcome_bind]. cbn [sessions set_bindings set_sessions].
    rewrite lookup_insert_eq. done.
Qed.

Lemma lists_empty_head {K} (head : K -> option addr) node k p :
  lists head node -> head k = Some p -> (forall a q, node a <> Some (k, q)) -> p = NULL.
Proof.
  intros Hl Hk Hno. destruct (lists_chain _ _ Hl _ _ Hk) as ([| a l] & Hc & Hin); [done |].
  destruct (proj1 (Hin a)) as [q Hq]; [by left |]. by apply Hno in Hq.
Qed.

Record hash_unlinked (t t1 : session_table) (index : nat) (lk : link) (q sa : addr) : Prop := {
  hu_bindings : bindings t1 = bindings t;
  hu_fd_buckets : fd_buckets t1 = fd_buckets t;
  hu_bucket_count : bucket_count t1 = bucket_count t;
  hu_session_count : session_count t1 = session_count t;
  hu_length : length (session_buckets t1) = length (session_buckets t);
  hu_shead k : shead t1 k = head_after (shead t) lk index q k;
  hu_snode x : x <> sa -> snode t1 x = node_after (snode t) lk index q sa x;
  hu_chead x : chead t1 x = chead t x;
  hu_sdata x : sdata t1 x = sdata t x;
  hu_count x : count t1 x = count t x
}.

Lemma store_hash_link_spec t index lk q sa :
  good_link (snode t) lk index sa -> (index < length (session_buckets t))%nat ->
  exists t1, store_hash_link t index lk q = Ret t1 /\ hash_unlinked t t1 index lk q sa.
Proof.
  intros Hlk Hlen. destruct lk as [| c]; simpl.
  - eexists. split; [done |]. split; simpl; try done.
    + by rewrite length_insert.
    + views; [by rewrite list_lookup_insert_eq | by rewrite list_lookup_insert_ne].
    + intros x Hx. unfold node_after, upd. by rewrite decide_False.
  - destruct (Hlk c eq_refl) as (Hne & qc & Hc). apply fmap_Some in Hc as (b & Hb & [= Hi _]).
    rewrite Hb. simpl. eexists. split; [done |]. split; simpl; try done; [| views_at c..].
    intros x Hx. unfold node_after, upd. rewrite decide_False by done. views.
Qed.

(** The memory once the session [sa] has been freed. *)
Record dropped (t t' : session_table) (sa : addr) : Prop := {
  dr_bindings : bindings t' = bindings t;
  dr_fd_buckets : fd_buckets t' = fd_buckets t;
  dr_bucket_count : bucket_count t' = bucket_count t;
  dr_session_count : session_count t' = u64 (session_count t - 1);
  dr_length : length (session_buckets t') = length (session_buckets t);
  dr_hash : lists (shead t') (snode t');
  dr_chead x : chead t' x = upd (chead t) sa None x;
  dr_sdata x : sdata t' x = upd (sdata t) sa None x;
  dr_count x : count t' x = upd (count t) sa None x
}.

Lemma drop_session_dropped B t A sa s :
  rep_by B t A -> sessions t !! sa = Some s ->
  exists t', drop_session t sa = Ret t' /\ dropped t t' sa.
Proof.
  intros Hr Hs. destruct (session_bucket Hr (id s)) as [p Hp].
  assert (Hsn : snode t sa = Some (hash_session_id (id s) SESSION_BUCKET_COUNT, hash_next s))
    by (unfold snode; by rewrite Hs).
  destruct (lists_walk_link (sessions t) (shead t) (snode t) (s_next t)
    (fun a => Some (bool_decide (a = sa))) (fun a => bool_decide (a = sa)) _ _
    (r_hash _ _ _ Hr) Hp snode_heap s_next_of) as (lk & r & Hw & Hcase); [done |].
  destruct Hcase as [[-> Hno] | (Hnull & Hf & q & Hq & Hg & Hl)].
  { specialize (Hno sa _ Hsn). zbool. done. }
  zbool. subst r. rewrite Hsn in Hq. injection Hq as <-.
  destruct (store_hash_link_spec t _ lk (hash_next s) sa Hg (lookup_lt_Some _ _ _ Hp)) as (t1 & Hst & []).
  unfold drop_session. rewrite Hs. cbn [deref mbind outcome_bind].
  rewrite (r_bucket_count _ _ _ Hr), Hp. cbn [deref mbind outcome_bind]. rewrite Hw.
  cbn [mbind outcome_bind]. rewrite bool_decide_eq_true_2 by done. rewrite Hst.
  cbn [mbind outcome_bind]. eexists. split; [done |]. split; simpl; try congruence.
  - eapply lists_ext; [exact hu_shead0 | | exact Hl].
    intros x. destruct (decide (x = sa)) as [-> | Hx]; [unfold node_after; views |].
    rewrite <- hu_snode0 by done. views.
  - intros x. views_from hu_chead0 x.
  - intros x. views_from hu_sdata0 x.
  - intros x. views_from hu_count0 x.
Qed.

Lemma dropped_rep B t t' A sa sid x :
  rep_by B t A -> dropped t t' sa -> sdata t sa = Some (sid, x) -> count t sa = Some 0 ->
  Z.of_nat (size (live A)) <= int_max + 1 ->
  rep_by B t' {| live := delete sid (live A); bound := bound A |}.
Proof.
  intros Hr [Hb Hfb Hbc Hsc Hlen Hh Hch Hsd Hct] Hsid Hn Hmax.
  assert (Hno : forall fd a, B !! fd = Some a -> a <> sa).
  { intros fd a HB ->. pose proof (r_count _ _ _ Hr _ _ Hn) as Hc.
    rewrite (conns_delete _ _ _ sa HB), decide_True in Hc by done. lia. }
  assert (Hlive : live A !! sid = Some x) by (apply (r_live _ _ _ Hr); eauto).
  split; simpl; rewrite ?Hbc, ?Hfb, ?Hlen; try apply Hr; try done.
  - eapply lists_ext; [| | apply (r_fd_hash _ _ _ Hr)]; intros; unfold fhead, fnode; by rewrite ?Hfb, ?Hb.
  - assert (chead t sa = Some NULL) as Hnull.
    { assert (is_Some (chead t sa)) as [p Hp].
      { unfold chead, sdata in *. destruct (sessions t !! sa); simpl; [eauto | done]. }
      rewrite Hp. f_equal. eapply lists_empty_head; [apply (r_connections _ _ _ Hr) | exact Hp |].
      intros a q Ha. apply fmap_Some in Ha as (b & Hb' & [= -> ->]).
      apply (Hno (client_fd b) (b_session b)); [| done]. apply (r_fds _ _ _ Hr). exists a.
      unfold bdata. by rewrite Hb'. }
    eapply lists_ext; [exact Hch | | by apply lists_drop; [| apply (r_connections _ _ _ Hr)]].
    intros a. unfold cnode. by rewrite Hb.
  - eapply keyed_ext; [exact Hsd |]. eapply keyed_delete; [apply Hr | done].
  - eapply keyed_ext; [| apply Hr]. intros a. unfold bdata. by rewrite Hb.
  - rewrite (r_bound _ _ _ Hr). apply map_eq. intros f. rewrite !lookup_omap.
    destruct (B !! f) as [a |] eqn:Ea; simpl; [| done]. unfold sid_of. rewrite Hsd. unfold upd.
    rewrite decide_False; [done |]. by eapply Hno.
  - rewrite Hsc, (r_total _ _ _ Hr).
    assert (Hpos : (size (live A) <> 0)%nat).
    { intros He. apply map_size_empty_inv in He. by rewrite He, lookup_empty in Hlive. }
    rewrite map_size_delete, Hlive. simpl. unfold u64.
    rewrite Z.mod_small; unfold int_max, u64_mod in *; lia.
  - intros a m. rewrite Hct. unfold upd. case_decide; [done |]. apply (r_count _ _ _ Hr).
  - intros i y. rewrite lookup_delete_Some. intros [_ Hi]. by apply (r_session _ _ _ Hr).
Qed.

(** Some other descriptor keeps the session alive. *)
Lemma still_bound B t A fd sa sid x :
  rep_by B t A -> B !! fd = Some sa -> sdata t sa = Some (sid, x) ->
  map_Exists (fun _ other => other = sid) (delete fd (bound A)) <->
  (0 < size (conns (delete fd B) sa))%nat.
Proof.
  intros Hr HB Hsd. split.
  - intros (f & i & Hf & ->). apply lookup_delete_Some in Hf as [Hne Hf].
    apply (bound_Some Hr) in Hf as (a & y & Hfa & Ha).
    assert (a = sa) as -> by (by eapply (keyed_inj _ _ (r_live _ _ _ Hr))).
    destruct (size (conns (delete fd B) sa)) eqn:E; [| lia].
    apply map_size_empty_inv in E. exfalso.
    assert (conns (delete fd B) sa !! f = Some sa) as Hc
      by (apply map_lookup_filter_Some; split; [by rewrite lookup_delete_ne | done]).
    by rewrite E, lookup_empty in Hc.
  - intros Hpos. assert (conns (delete fd B) sa <> ∅) as Hne
      by (intros He; rewrite He, map_size_empty in Hpos; lia).
    apply map_choose in Hne as (f & a & Hfa). apply map_lookup_filter_Some in Hfa as [Hfa Ha].
    simpl in Ha. subst. apply lookup_delete_Some in Hfa as [Hne Hf]. exists f, sid. split; [| done].
    rewrite lookup_delete_ne by done. apply (bound_Some Hr). eauto.
Qed.

Lemma session_detach_fd_rep t A fd :
  rep t A -> exists t', session_detach_fd t fd = Ret t' /\ rep t' (spec_detach fd A).
Proof.
  intros [Hall [B Hr]]. unfold spec_detach. destruct (B !! fd) as [sa |] eqn:EB.
  - assert (Hfd : is_fd fd) by (by eapply (r_fd _ _ _ Hr)).
    assert (Hneg : (fd <? 0) = false) by (unfold is_fd in Hfd; lia).
    destruct (detach_unbinds _ _ _ _ _ Hr Hneg EB) as (ba & t3 & n & s3 & Hbd & Hn & Hs3 & Hc3 & Hu & ->).
    destruct (B_home Hr _ _ EB) as [[sid x] Hsd].
    rewrite (proj2 (bound_Some Hr fd sid)) by eauto.
    pose proof (unbound_rep _ _ _ _ _ _ _ _ _ _ Hr EB Hbd Hsd Hu Hn (Hall _ _ Hn)) as Hr3.
    pose proof (r_count _ _ _ Hr3 sa (connection_count s3)) as Hcount.
    assert (Hct3 : count t3 sa = Some (connection_count s3)) by (unfold count; by rewrite Hs3).
    specialize (Hcount Hct3). pose proof (still_bound _ _ _ _ _ _ _ Hr EB Hsd) as Hst.
    assert (Hall3 : forall a m, a <> sa -> count t3 a = Some m -> 0 < m).
    { intros a m Ha. rewrite (ub_count _ _ _ _ _ Hu). unfold upd. rewrite decide_False by done. apply Hall. }
    destruct (connection_count s3 =? 0) eqn:E0; zbool.
    + destruct (drop_session_dropped _ _ _ _ _ Hr3 Hs3) as (t' & -> & Hd). exists t'. split; [done |].
      rewrite bool_decide_eq_false_2 by (rewrite Hst; lia). split.
      * intros a m. rewrite (dr_count _ _ _ Hd). unfold upd. case_decide; [done | by apply Hall3].
      * exists (delete fd B). rewrite <- (ub_sdata _ _ _ _ _ Hu) in Hsd.
        eapply (dropped_rep _ _ _ _ _ _ _ Hr3 Hd Hsd); [by rewrite Hct3, E0 |].
        simpl. pose proof (fds_bound B (r_fd _ _ _ Hr)). pose proof (sessions_bound _ _ _ Hall Hr). lia.
    + exists t3. split; [done |]. rewrite bool_decide_eq_true_2 by (rewrite Hst; lia).
      split; [| by exists (delete fd B)].
      intros a m Hm. destruct (decide (a = sa)) as [-> | Hne]; [| by eapply Hall3].
      rewrite Hct3 in Hm. injection Hm as <-. lia.
  - pose proof EB as Eo. apply (bound_None Hr) in Eo. rewrite Eo. exists t. split; [| by split; [| exists B]].
    unfold session_detach_fd. destruct (fd <? 0); [done |].
    destruct (fd_bucket Hr fd) as [p Hp]. rewrite (r_bucket_count _ _ _ Hr), Hp. cbn [deref mbind outcome_bind].
    destruct (detach_find _ _ _ _ _ Hr Hp) as (lk & r & -> & Hcase). rewrite EB in Hcase. by rewrite Hcase.
Qed.

(** A table that [session_table_create] has just built is empty. *)
Lemma session_table_create_rep t : session_table_create true = Some t -> rep t empty_spec.
Proof.
  intros [= <-]. split; [by intros a n |]. exists ∅.
  assert (Hn : forall k p, (replicate 1024 NULL : list addr) !! k = Some p -> p = NULL)
    by (intros k p Hp; by apply lookup_replicate in Hp as [-> _]).
  split; simpl; try done; try apply keyed_empty.
  - eapply (lists_ext (fun k => replicate 1024 NULL !! k) _ (fun _ => None)); [done | done | by apply lists_none].
  - eapply (lists_ext (fun k => replicate 1024 NULL !! k) _ (fun _ => None)); [done | done | by apply lists_none].
Qed.

(** ** Destruction *)

(** The memory with the sessions of [X] and their bindings freed. *)
Definition gone (X : gset addr) (t : session_table) : session_table :=
  set_bindings (set_sessions t (filter (fun ab => ab.1 ∉ X) (sessions t)))
               (filter (fun ab => b_session ab.2 ∉ X) (bindings t)).

Lemma delete_filter_cons {V} (m : gmap addr V) a l :
  filter (fun ab => ab.1 ∉ l) (delete a m) = filter (fun ab => ab.1 ∉ a :: l) m.
Proof.
  apply map_eq. intros x. apply option_eq. intros v.
  rewrite !map_lookup_filter_Some, lookup_delete_Some. simpl. rewrite elem_of_cons. naive_solver.
Qed.

Lemma free_bindings_spec fuel t p l :
  chain (c_next t) p l -> (length l <= fuel)%nat ->
  free_bindings fuel t p = Ret (set_bindings t (filter (fun ab => ab.1 ∉ l) (bindings t))).
Proof.
  revert t p l. induction fuel as [| fuel IH]; intros t p [| a l] Hc Hl; simpl in Hl; try lia.
  1,2: simpl in Hc; subst; simpl; f_equal; destruct t; unfold set_bindings; simpl; f_equal;
    symmetry; apply map_filter_id; intros; apply not_elem_of_nil.
  pose proof (chain_NoDup _ _ _ Hc) as Hnd. destruct Hc as (-> & Ha & q & Hq & Hc).
  simpl. rewrite bool_decide_eq_false_2 by done. apply fmap_Some in Hq as (b & Hb & ->).
  rewrite Hb. simpl. inversion_clear Hnd as [| ? ? Hn _].
  rewrite (IH _ _ l); [| | lia].
  - f_equal. unfold set_bindings. simpl. by rewrite delete_filter_cons.
  - eapply chain_frame; [| done]. intros x Hx. unfold c_next. simpl.
    rewrite lookup_delete_ne; [done |]. congruence.
Qed.

Lemma free_session_gone B t A X a s :
  rep_by B t A -> sessions t !! a = Some s -> a ∉ X ->
  (t ← free_bindings (size (bindings (gone X t))) (gone X t) (connections s);
   Ret (set_sessions t (delete a (sessions t)))) = Ret (gone ({[a]} ∪ X) t).
Proof.
  intros Hr Hs Hx.
  destruct (lists_chain _ _ (r_connections _ _ _ Hr) a (connections s)) as (l & Hc & Hin);
    [unfold chead; by rewrite Hs |].
  assert (Hl : forall x, x ∈ l <-> exists b, bindings t !! x = Some b /\ b_session b = a).
  { intros x. rewrite Hin. unfold cnode. split.
    - intros [q Hq]. apply fmap_Some in Hq as (b & ? & [= -> ->]). eauto.
    - intros (b & -> & <-). simpl. eauto. }
  assert (Hkeep : forall x, x ∈ l -> bindings (gone X t) !! x = bindings t !! x).
  { intros x Hxl. apply Hl in Hxl as (b & Hb & Hbs). simpl. rewrite Hb.
    apply map_lookup_filter_Some. simpl. by rewrite Hbs. }
  rewrite (free_bindings_spec _ _ _ l).
  - simpl. f_equal. unfold gone, set_sessions, set_bindings. simpl. f_equal.
    + apply map_eq. intros x. apply option_eq. intros v.
      rewrite lookup_delete_Some, !map_lookup_filter_Some. simpl. set_solver.
    + apply map_eq. intros x. apply option_eq. intros v. rewrite !map_lookup_filter_Some. simpl.
      rewrite Hl. set_solver.
  - eapply chain_frame; [| exact Hc]. intros x Hxl. rewrite <- c_next_of. unfold c_next. by rewrite Hkeep.
  - apply NoDup_length_dom; [by eapply chain_NoDup |]. intros x Hxl. rewrite Hkeep by done.
    apply Hl in Hxl as (b & -> & _). eauto.
Qed.

Lemma free_sessions_gone B t A fuel X p l :
  rep_by B t A -> chain (s_next t) p l -> (length l <= fuel)%nat -> (forall a, a ∈ l -> a ∉ X) ->
  free_sessions fuel (gone X t) p = Ret (gone (list_to_set l ∪ X) t).
Proof.
  intros Hr. revert X p l. induction fuel as [| fuel IH]; intros X p [| a l] Hc Hl Hd; simpl in Hl; try lia.
  1,2: simpl in Hc; subst; simpl; by rewrite (left_id_L ∅ (∪)).
  pose proof (chain_NoDup _ _ _ Hc) as Hnd. inversion_clear Hnd as [| ? ? Hn _].
  destruct Hc as (-> & Ha & q & Hq & Hc). apply fmap_Some in Hq as (s & Hs & ->).
  assert (Hax : a ∉ X) by (apply Hd; by left).
  pose proof (free_session_gone _ _ _ X a s Hr Hs Hax) as Hfree.
  cbn [free_sessions]. rewrite bool_decide_eq_false_2 by done.
  assert (Hlook : sessions (gone X t) !! a = Some s) by (by apply map_lookup_filter_Some).
  rewrite Hlook. cbn [deref mbind outcome_bind].
  destruct (free_bindings (size (bindings (gone X t))) (gone X t) (connections s)) as [t1 | |];
    [| done | done].
  apply Ret_inj in Hfree. cbn [mbind outcome_bind]. rewrite Hfree.
  rewrite (IH _ _ l); [| done | lia |].
  - f_equal. f_equal. simpl. set_solver.
  - intros b Hb. assert (b ∉ X) by (apply Hd; by right). set_solver.
Qed.

Lemma free_buckets_gone B t A X i :
  rep_by B t A ->
  (forall a s, sessions t !! a = Some s ->
     a ∈ X <-> (hash_session_id (id s) SESSION_BUCKET_COUNT < i)%nat) ->
  exists Y, free_buckets (drop i (session_buckets t)) (gone X t) = Ret (gone Y t) /\
    forall a s, sessions t !! a = Some s -> a ∈ Y.
Proof.
  intros Hr. remember (length (session_buckets t) - i)%nat as n eqn:En. revert X i En.
  induction n as [| n IH]; intros X i En HX.
  - rewrite drop_ge by lia. exists X. split; [done |]. intros a s Hs. apply (HX _ _ Hs).
    pose proof (hash_session_id_range (id s)). pose proof (r_session_buckets _ _ _ Hr). lia.
  - destruct (lookup_lt_is_Some_2 (session_buckets t) i) as [p Hp]; [lia |].
    rewrite (drop_S _ _ _ Hp). cbn [free_buckets].
    destruct (lists_chain _ _ (r_hash _ _ _ Hr) i p Hp) as (l & Hc & Hin).
    assert (Hl : forall a, a ∈ l <-> exists s, sessions t !! a = Some s /\
                   hash_session_id (id s) SESSION_BUCKET_COUNT = i).
    { intros a. rewrite Hin. unfold snode. split.
      - intros [q Hq]. apply fmap_Some in Hq as (s & ? & [= -> ->]). eauto.
      - intros (s & -> & <-). simpl. eauto. }
    assert (Hdis : forall a, a ∈ l -> a ∉ X).
    { intros a Ha Hax. apply Hl in Ha as (s & Hs & Hh). apply (HX _ _ Hs) in Hax. lia. }
    rewrite (free_sessions_gone B t A _ X p l); [| done | | | done].
    + cbn [mbind outcome_bind]. apply IH; [lia |]. intros a s Hs.
      rewrite elem_of_union, elem_of_list_to_set, (HX _ _ Hs), Hl. split.
      * intros [(s' & Hs' & <-) | Hlt]; [simplify_eq |]; lia.
      * intros Hlt. destruct (decide (hash_session_id (id s) SESSION_BUCKET_COUNT = i)); [left; eauto | right; lia].
    + eapply chain_frame; [| exact Hc]. intros a _. apply s_next_of.
    + apply NoDup_length_dom; [by eapply chain_NoDup |]. intros a Ha.
      pose proof (Hdis _ Ha). apply Hl in Ha as (s & Hs & _). exists s. by apply map_lookup_filter_Some.
Qed.

(** [session_table_destroy] frees every session and every binding exactly
    once: it reads no freed node and leaves none behind. *)
Theorem session_table_destroy_frees_all t A :
  rep t A -> exists t', session_table_destroy t = Ret t' /\ sessions t' = ∅ /\ bindings t' = ∅.
Proof.
  intros [_ [B Hr]]. unfold session_table_destroy.
  assert (Hgone : gone ∅ t = t).
  { unfold gone, set_bindings, set_sessions. destruct t. simpl. f_equal; apply map_filter_id; set_solver. }
  destruct (free_buckets_gone B t A ∅ 0 Hr) as (Y & HY & Hall); [intros a s Hs; split; [set_solver | lia] |].
  rewrite Hgone, drop_0 in HY. rewrite HY. eexists. split; [done |]. simpl.
  split; apply map_empty; intros a; apply map_lookup_filter_None; right; intros v Hv Hn; simpl in Hn; apply Hn.
  - by eapply Hall.
  - assert (Hbd : bdata t a = Some (client_fd v, b_session v)) by (unfold bdata; by rewrite Hv).
    destruct (bdata_home Hr _ _ _ Hbd) as [d Hd]. apply fmap_Some in Hd as (s & Hs & _). by eapply Hall.
Qed.

(** ** Histories

    [run es t]: starting from an empty table, the calls whose successes are
    listed in [es] (oldest first) have led to [t]; the allocator, the clock, the
    generator and the arguments are arbitrary. *)
Inductive event :=
| ECreated (fd : Z) (sid : session_id) (uid : Z) (name : list byte)
| EAuthorized (fd : Z) (sid : session_id) (ctx : session_context)
| EMoved (fd : Z) (sid : session_id) (i : Z) (c : list byte)
| EDetached (fd : Z).

Inductive run : list event -> session_table -> Prop :=
| run_init t : session_table_create true = Some t -> run [] t
| run_create es t sa ba fd uid name root random clock sid t' :
    run es t -> fd <= int_max -> fresh_session t sa -> fresh_binding t ba ->
    session_create t (Some (sa, ba)) fd uid name root random clock = Ret (Some sid, t') ->
    run (es ++ [ECreated fd sid uid name]) t'
| run_authorize es t alloc fd sid clock ctx t' :
    run es t -> fd <= int_max -> session_id_wf sid ->
    (forall ba, alloc = Some ba -> fresh_binding t ba) ->
    session_authorize t alloc fd sid clock = Ret (Some ctx, t') ->
    run (es ++ [EAuthorized fd sid ctx]) t'
| run_update_cwd es t fd sid i c clock t' :
    run es t -> session_id_wf sid ->
    session_update_cwd t fd sid i c clock = Ret (0, t') ->
    run (es ++ [EMoved fd sid i c]) t'
| run_detach es t fd t' :
    run es t -> session_detach_fd t fd = Ret t' -> run (es ++ [EDetached fd]) t'.

(** Every live session was created, for the user it now names. *)
Definition logged (es : list event) (A : table_spec) : Prop :=
  forall sid x, live A !! sid = Some x ->
    exists fd, ECreated fd sid (as_user x) (as_username x) ∈ es.

Lemma logged_mono es e A A' :
  logged es A ->
  (forall sid x, live A' !! sid = Some x ->
     (exists fd, e = ECreated fd sid (as_user x) (as_username x)) \/
     (exists y, live A !! sid = Some y /\ as_user y = as_user x /\ as_username y = as_username x)) ->
  logged (es ++ [e]) A'.
Proof.
  intros Hl Hstep sid x Hx. destruct (Hstep sid x Hx) as [[fd ->] | (y & Hy & Hu & Hn)].
  - exists fd. apply elem_of_app. right. by left.
  - destruct (Hl sid y Hy) as [fd Hfd]. exists fd. rewrite <- Hu, <- Hn. apply elem_of_app. by left.
Qed.

Lemma spec_authorize_data room fd sid now A ctx A' :
  spec_authorize room fd sid now A = Some (ctx, A') ->
  exists x, live A !! sid = Some x /\ ctx = as_context x /\
    live A' = <[sid := as_touch now x]> (live A).
Proof.
  unfold spec_authorize. destruct (live A !! sid) as [x |]; simpl; [| done].
  intros H. exists x. split_match.
Qed.

(** The data an authorization hands out, in terms of the abstract table. *)
Lemma authorize_data t A alloc fd sid clock ctx t' :
  rep t A -> fd <= int_max -> session_id_wf sid ->
  (forall ba, alloc = Some ba -> fresh_binding t ba) ->
  session_authorize t alloc fd sid clock = Ret (Some ctx, t') ->
  exists x now A', live A !! sid = Some x /\ ctx = as_context x /\
    live A' = <[sid := as_touch now x]> (live A) /\ rep t' A'.
Proof.
  intros Hrep Hfd Hwf Hfresh Hcall.
  pose proof (session_authorize_rep t A alloc fd sid clock Hrep Hfd Hwf Hfresh) as Href.
  destruct (clock ≫= _) as [[c A'] |] eqn:E; [| rewrite Href in Hcall; done].
  destruct Href as (t1 & Hc & Hr). rewrite Hc in Hcall. injection Hcall as <- <-.
  destruct clock as [now |]; [| done]. simpl in E. destruct (fd <? 0); [done |].
  apply spec_authorize_data in E as (x & Hx & -> & HA'). eauto 8.
Qed.

Lemma run_inv es t : run es t -> exists A, rep t A /\ logged es A.
Proof.
  induction 1 as [t Ht | es t sa ba fd uid name root random clock sid t' _ (A & Hrep & Hl) Hfd Hsa Hba Hc
    | es t alloc fd sid clock ctx t' _ (A & Hrep & Hl) Hfd Hwf Hfresh Hc
    | es t fd sid i c clock t' _ (A & Hrep & Hl) Hwf Hc | es t fd t' _ (A & Hrep & Hl) Hc].
  - exists empty_spec. split; [by apply session_table_create_rep | done].
  - destruct (session_create_rep t A (Some (sa, ba)) fd uid name root random clock Hrep Hfd)
      as [_ Href]; [by intros ? ? [= <- <-] |].
    destruct (Href _ _ Hc) as (now & _ & _ & _ & _ & Hr). eexists. split; [exact Hr |].
    eapply logged_mono; [done |]. intros i x Hx. cbn [live spec_create] in Hx. apply lookup_insert_Some in Hx as [[<- <-] | [_ Hx]];
      [left; by eexists | right; by eexists].
  - destruct (authorize_data _ _ _ _ _ _ _ _ Hrep Hfd Hwf Hfresh Hc) as (x & now & A' & Hx & -> & HA & Hr).
    exists A'. split; [done |]. eapply logged_mono; [done |]. intros i y. rewrite HA.
    intros [[<- <-] | [_ Hy]]%lookup_insert_Some; right; by eexists.
  - pose proof (session_update_cwd_rep t A fd sid i c clock Hrep Hwf) as Href.
    destruct (clock ≫= _) as [A' |] eqn:E; [| rewrite Href in Hc; done].
    destruct Href as (t1 & Hc1 & Hr). rewrite Hc1 in Hc. injection Hc as <-. exists A'. split; [done |].
    destruct clock as [now |]; [| done]. simpl in E. destruct (_ || _); [done |].
    unfold spec_update_cwd in E. destruct (live A !! sid) as [x |] eqn:Ex; simpl in E; [| done].
    case_bool_decide; [| done]. injection E as <-. eapply logged_mono; [done |].
    intros j y Hy. cbn [live] in Hy. apply lookup_insert_Some in Hy as [[<- <-] | [_ Hy]]; right; by eexists.
  - destruct (session_detach_fd_rep t A fd Hrep) as (t1 & Hc1 & Hr). rewrite Hc1 in Hc.
    injection Hc as <-. eexists. split; [exact Hr |]. eapply logged_mono; [done |].
    intros j y Hy. right. exists y. split; [| done]. unfold spec_detach in Hy.
    destruct (bound A !! fd); [| done]. simpl in Hy. case_bool_decide; [done |].
    by apply lookup_delete_Some in Hy as [_ Hy].
Qed.

(** (C9) Authenticity: in every history of the table, each successful
    authorization of a session id was preceded by a successful creation of that
    id, for exactly the user id and user name the authorization hands out. *)
Theorem authorization_authentic es t alloc fd sid clock ctx t' :
  run es t -> fd <= int_max -> session_id_wf sid ->
  (forall ba, alloc = Some ba -> fresh_binding t ba) ->
  session_authorize t alloc fd sid clock = Ret (Some ctx, t') ->
  exists fd0, ECreated fd0 sid (ctx_user_id ctx) (ctx_username ctx) ∈ es.
Proof.
  intros Hrun Hfd Hwf Hfresh Hc. destruct (run_inv _ _ Hrun) as (A & Hrep & Hl).
  destruct (authorize_data _ _ _ _ _ _ _ _ Hrep Hfd Hwf Hfresh Hc) as (x & now & A' & Hx & -> & _).
  exact (Hl _ _ Hx).
Qed.

(** ** Refinement of the operations *)

(** [session_create] never touches a missing node; when it returns an id,
    that id is 16 bytes, not all zero and not in use, the descriptor was free,
    and the table gained exactly that session (root directory "/") with that
    descriptor; when it fails, the table is unchanged. *)
Theorem session_create_refines t A alloc fd uid name root random clock :
  rep t A -> fd <= int_max ->
  (forall sa ba, alloc = Some (sa, ba) -> fresh_session t sa /\ fresh_binding t ba) ->
  session_create t alloc fd uid name root random clock <> Undef /\
  forall r t', session_create t alloc fd uid name root random clock = Ret (r, t') ->
    match r with
    | None => t' = t
    | Some sid => exists now, session_id_wf sid /\ session_id_is_empty sid = false /\
        live A !! sid = None /\ bound A !! fd = None /\
        rep t' (spec_create fd sid (as_new uid root name now) A)
    end.
Proof. apply session_create_rep. Qed.

(** [session_authorize] implements the abstract authorization: it returns
    without touching a missing node, accepts a request exactly when the id is
    live and the descriptor is not bound to another session, hands out that
    session's user and directory, binds a new descriptor, and otherwise leaves
    the table as it was. *)
Theorem session_authorize_refines t A alloc fd sid clock :
  rep t A -> fd <= int_max -> session_id_wf sid ->
  (forall ba, alloc = Some ba -> fresh_binding t ba) ->
  match clock ≫= (fun now => if fd <? 0 then None
                             else spec_authorize (bool_decide (is_Some alloc)) fd sid now A) with
  | None => session_authorize t alloc fd sid clock = Ret (None, t)
  | Some (ctx, A') => exists t', session_authorize t alloc fd sid clock = Ret (Some ctx, t') /\ rep t' A'
  end.
Proof. apply session_authorize_rep. Qed.

(** [session_update_cwd] changes the directory of the session the
    descriptor is bound to, and of no other; a relative or over-long path, a
    foreign or dead id or a failing clock is answered -1 with the table
    unchanged. *)
Theorem session_update_cwd_refines t A fd sid i c clock :
  rep t A -> session_id_wf sid ->
  match clock ≫= (fun now => if (fd <? 0) || bool_decide (head c <> Some SLASH) ||
                                (PATH_MAX <=? Z.of_nat (length c)) then None
                             else spec_update_cwd fd sid i c now A) with
  | None => session_update_cwd t fd sid i c clock = Ret (-1, t)
  | Some A' => exists t', session_update_cwd t fd sid i c clock = Ret (0, t') /\ rep t' A'
  end.
Proof. apply session_update_cwd_rep. Qed.

(** [session_detach_fd] unbinds the descriptor; the session goes exactly
    when no other descriptor is bound to it.  Both lists of the binding and the
    bucket of the session are unlinked correctly and both are freed once. *)
Theorem session_detach_fd_refines t A fd :
  rep t A -> exists t', session_detach_fd t fd = Ret t' /\ rep t' (spec_detach fd A).
Proof. apply session_detach_fd_rep. Qed.

(** ** A concrete table: user 7 logged in on descriptor 5 *)

Definition demo_empty : session_table :=
  {| session_buckets := replicate 1024 NULL; fd_buckets := replicate 1024 NULL;
     bucket_count := 1024; session_count := 0; sessions := ∅; bindings := ∅ |}.
Definition demo_id : session_id := replicate 16 x2a.
Definition demo_clock (n : nat) : option timespec := Some {| tv_sec := 100; tv_nsec := 0 |}.
Definition demo_create : outcome (option session_id * session_table) :=
  session_create demo_empty (Some (8%N, 16%N)) 5 7 (lit "alice") 3 [RandomEintr; RandomBytes demo_id]
    demo_clock.
Definition demo_table : session_table :=
  match demo_create with Ret (_, t) => t | _ => demo_empty end.

Lemma demo_empty_rep : rep demo_empty empty_spec.
Proof. by apply session_table_create_rep. Qed.

Lemma demo_fresh : fresh_session demo_empty 8%N /\ fresh_binding demo_empty 16%N.
Proof. by split; split. Qed.

Lemma demo_created : demo_create = Ret (Some demo_id, demo_table).
Proof. vm_compute. reflexivity. Qed.

Lemma demo_rep : exists A, rep demo_table A /\ live A !! demo_id <> None /\ bound A !! 5 = Some demo_id.
Proof.
  destruct (session_create_rep demo_empty empty_spec (Some (8%N, 16%N)) 5 7 (lit "alice") 3
    [RandomEintr; RandomBytes demo_id] demo_clock demo_empty_rep) as [_ Hc]; [by vm_compute | |].
  { intros ? ? [= <- <-]. exact demo_fresh. }
  destruct (Hc _ _ demo_created) as (now & _ & _ & _ & _ & Hr). eexists. split; [exact Hr |].
  cbn [live bound spec_create]. by rewrite !lookup_insert_eq.
Qed.

Lemma demo_run : run [ECreated 5 demo_id 7 (lit "alice")] demo_table.
Proof.
  apply (run_create [] demo_empty 8%N 16%N 5 7 (lit "alice") 3 [RandomEintr; RandomBytes demo_id] demo_clock).
  - by apply run_init.
  - by vm_compute.
  - apply demo_fresh.
  - apply demo_fresh.
  - exact demo_created.
Qed.

Lemma session_create_refines_witness :
  exists r t', demo_create = Ret (r, t') /\
    match r with
    | None => t' = demo_empty
    | Some sid => exists now, session_id_wf sid /\ session_id_is_empty sid = false /\
        live empty_spec !! sid = None /\ bound empty_spec !! 5 = None /\
        rep t' (spec_create 5 sid (as_new 7 3 (lit "alice") now) empty_spec)
    end.
Proof.
  exists (Some demo_id), demo_table. split; [exact demo_created |].
  apply (session_create_refines demo_empty empty_spec (Some (8%N, 16%N)) 5 7 (lit "alice") 3
    [RandomEintr; RandomBytes demo_id] demo_clock demo_empty_rep) with (r := Some demo_id).
  - by vm_compute.
  - intros ? ? [= <- <-]. exact demo_fresh.
  - exact demo_created.
Defined.

Lemma session_create_succeeds_witness :
  exists t' now, session_create demo_empty (Some (8%N, 16%N)) 5 7 (lit "alice") 3
      (map RandomBytes [] ++ RandomBytes demo_id :: []) demo_clock = Ret (Some demo_id, t') /\
    rep t' (spec_create 5 demo_id (as_new 7 3 (lit "alice") now) empty_spec).
Proof.
  apply (session_create_succeeds demo_empty empty_spec 8%N 16%N 5 7 (lit "alice") 3 [] demo_id [] demo_clock);
    first [done | apply demo_fresh | exact demo_empty_rep | by eexists
          | apply (bool_decide_unpack _); vm_compute; exact I].
Defined.

Lemma session_authorize_refines_witness :
  exists A, rep demo_table A /\
    match Some {| tv_sec := 101; tv_nsec := 0 |} ≫=
      (fun now => if 6 <? 0 then None else spec_authorize true 6 demo_id now A) with
    | None => session_authorize demo_table (Some 24%N) 6 demo_id (Some {| tv_sec := 101; tv_nsec := 0 |}) =
                Ret (None, demo_table)
    | Some (ctx, A') => exists t',
        session_authorize demo_table (Some 24%N) 6 demo_id (Some {| tv_sec := 101; tv_nsec := 0 |}) =
          Ret (Some ctx, t') /\ rep t' A'
    end.
Proof.
  destruct demo_rep as (A & HA & _). exists A. split; [exact HA |].
  apply (session_authorize_refines demo_table A (Some 24%N) 6 demo_id
           (Some {| tv_sec := 101; tv_nsec := 0 |}) HA).
  - by vm_compute.
  - by vm_compute.
  - intros ? [= <-]. by split; [| vm_compute].
Defined.

Lemma session_update_cwd_refines_witness :
  exists A, rep demo_table A /\
    match Some {| tv_sec := 101; tv_nsec := 0 |} ≫=
      (fun now => if (5 <? 0) || bool_decide (head (lit "/docs") <> Some SLASH) ||
                     (PATH_MAX <=? Z.of_nat (length (lit "/docs"))) then None
                  else spec_update_cwd 5 demo_id 9 (lit "/docs") now A) with
    | None => session_update_cwd demo_table 5 demo_id 9 (lit "/docs") (Some {| tv_sec := 101; tv_nsec := 0 |}) =
                Ret (-1, demo_table)
    | Some A' => exists t',
        session_update_cwd demo_table 5 demo_id 9 (lit "/docs") (Some {| tv_sec := 101; tv_nsec := 0 |}) =
          Ret (0, t') /\ rep t' A'
    end.
Proof.
  destruct demo_rep as (A & HA & _). exists A. split; [exact HA |].
  apply (session_update_cwd_refines demo_table A 5 demo_id 9 (lit "/docs")
           (Some {| tv_sec := 101; tv_nsec := 0 |}) HA). by vm_compute.
Defined.

Lemma session_detach_fd_refines_witness :
  exists A, bound A !! 5 = Some demo_id /\
    exists t', session_detach_fd demo_table 5 = Ret t' /\ rep t' (spec_detach 5 A).
Proof.
  destruct demo_rep as (A & HA & _ & Hb). exists A. split; [exact Hb |].
  exact (session_detach_fd_refines demo_table A 5 HA).
Defined.

Lemma session_table_destroy_frees_all_witness :
  exists t', session_table_destroy demo_table = Ret t' /\ sessions t' = ∅ /\ bindings t' = ∅.
Proof.
  destruct demo_rep as (A & HA & _). exact (session_table_destroy_frees_all demo_table A HA).
Defined.

Lemma authorization_authentic_witness :
  exists ctx t', session_authorize demo_table None 5 demo_id (demo_clock 0) = Ret (Some ctx, t') /\
    exists fd0, ECreated fd0 demo_id (ctx_user_id ctx) (ctx_username ctx) ∈
      [ECreated 5 demo_id 7 (lit "alice")].
Proof.
  eexists _, _. split; [vm_compute; reflexivity |].
  eapply (authorization_authentic _ demo_table None 5 demo_id (demo_clock 0) _ _ demo_run).
  - by vm_compute.
  - by vm_compute.
  - done.
  - vm_compute. reflexivity.
Defined.
