(* ===== verification/SessionSimulation.v ===== *)
(** * Histories of the session table and of its specification

    [SessionSpec] relates each operation of [server/session.c] to the abstract
    table.  Here whole histories are compared: a call carries its arguments and
    what the environment answers (addresses of [calloc], the clock, the random
    generator), the table performs it, and the abstract table makes the step
    that explains the answer, failures included. *)

From Stdlib Require Import Strings.Byte.
From S2P Require Import Prelude CString Protocol Heap Session SessionSpec.

(** ** Calls and answers *)

Inductive call :=
| CallCreate (alloc : option (addr * addr)) (fd uid : Z) (name : list byte) (root : Z)
    (random : list random_answer) (clock : nat -> option timespec)
| CallAuthorize (alloc : option addr) (fd : Z) (sid : session_id) (clock : option timespec)
| CallUpdateCwd (fd : Z) (sid : session_id) (i : Z) (c : list byte) (clock : option timespec)
| CallDetach (fd : Z).

Inductive answer :=
| AnswerId (r : option session_id)
| AnswerContext (r : option session_context)
| AnswerCode (r : Z)
| AnswerVoid.

Definition perform (t : session_table) (c : call) : outcome (answer * session_table) :=
  match c with
  | CallCreate alloc fd uid name root random clock =>
      '(r, t) ← session_create t alloc fd uid name root random clock; Ret (AnswerId r, t)
  | CallAuthorize alloc fd sid clock =>
      '(r, t) ← session_authorize t alloc fd sid clock; Ret (AnswerContext r, t)
  | CallUpdateCwd fd sid i c clock =>
      '(r, t) ← session_update_cwd t fd sid i c clock; Ret (AnswerCode r, t)
  | CallDetach fd => t ← session_detach_fd t fd; Ret (AnswerVoid, t)
  end.

(** What the callers and the C library guarantee: descriptors are [int]s, ids
    come from a packet header (16 bytes), and [calloc] returns memory that is not in use. *)
Definition admissible (t : session_table) (c : call) : Prop :=
  match c with
  | CallCreate alloc fd _ _ _ _ _ => fd <= int_max /\
      forall sa ba, alloc = Some (sa, ba) -> fresh_session t sa /\ fresh_binding t ba
  | CallAuthorize alloc fd sid _ => fd <= int_max /\ session_id_wf sid /\
      forall ba, alloc = Some ba -> fresh_binding t ba
  | CallUpdateCwd _ sid _ _ _ => session_id_wf sid
  | CallDetach _ => True
  end.

(** ** Steps of the specification

    Authorization, change of directory and detachment are determined by the
    abstract table and the environment's answers; creation chooses an unused id
    or fails without effect. *)

Inductive spec_step (A : table_spec) : call -> answer -> table_spec -> Prop :=
| spec_creates alloc fd uid name root random clock sid now :
    session_id_wf sid -> session_id_is_empty sid = false ->
    live A !! sid = None -> bound A !! fd = None ->
    spec_step A (CallCreate alloc fd uid name root random clock) (AnswerId (Some sid))
      (spec_create fd sid (as_new uid root name now) A)
| spec_creates_none alloc fd uid name root random clock :
    spec_step A (CallCreate alloc fd uid name root random clock) (AnswerId None) A
| spec_authorizes alloc fd sid now ctx A' :
    0 <= fd -> spec_authorize (bool_decide (is_Some alloc)) fd sid now A = Some (ctx, A') ->
    spec_step A (CallAuthorize alloc fd sid (Some now)) (AnswerContext (Some ctx)) A'
| spec_refuses alloc fd sid clock :
    (forall now, clock = Some now -> 0 <= fd ->
       spec_authorize (bool_decide (is_Some alloc)) fd sid now A = None) ->
    spec_step A (CallAuthorize alloc fd sid clock) (AnswerContext None) A
| spec_moves fd sid i c now A' :
    0 <= fd -> head c = Some SLASH -> Z.of_nat (length c) < PATH_MAX ->
    spec_update_cwd fd sid i c now A = Some A' ->
    spec_step A (CallUpdateCwd fd sid i c (Some now)) (AnswerCode 0) A'
| spec_stays fd sid i c clock :
    (forall now, clock = Some now -> 0 <= fd -> head c = Some SLASH -> Z.of_nat (length c) < PATH_MAX ->
       spec_update_cwd fd sid i c now A = None) ->
    spec_step A (CallUpdateCwd fd sid i c clock) (AnswerCode (-1)) A
| spec_detaches fd : spec_step A (CallDetach fd) AnswerVoid (spec_detach fd A).

Inductive spec_history : list (call * answer) -> table_spec -> Prop :=
| spec_history_nil : spec_history [] empty_spec
| spec_history_snoc h A c r A' :
    spec_history h A -> spec_step A c r A' -> spec_history (h ++ [(c, r)]) A'.

Inductive history : list (call * answer) -> session_table -> Prop :=
| history_nil t : session_table_create true = Some t -> history [] t
| history_snoc h t c r t' :
    history h t -> admissible t c -> perform t c = Ret (r, t') -> history (h ++ [(c, r)]) t'.

(** ** One step *)

Lemma perform_safe t A c : rep t A -> admissible t c -> perform t c <> Undef.
Proof.
  intros Hrep Hadm. destruct c; simpl in *.
  - destruct Hadm as [Hfd Hfresh].
    pose proof (proj1 (session_create_rep t A alloc fd uid name root random clock Hrep Hfd Hfresh)) as H.
    by destruct (session_create _ _ _ _ _ _ _ _) as [[? ?] | |].
  - destruct Hadm as (Hfd & Hwf & Hfresh).
    pose proof (session_authorize_rep t A alloc fd sid clock Hrep Hfd Hwf Hfresh) as H.
    destruct (clock ≫= _) as [[ctx A'] |]; [destruct H as (? & -> & _) | rewrite H]; done.
  - pose proof (session_update_cwd_rep t A fd sid i c clock Hrep Hadm) as H.
    destruct (clock ≫= _); [destruct H as (? & -> & _) | rewrite H]; done.
  - by destruct (session_detach_fd_rep t A fd Hrep) as (? & -> & _).
Qed.

Lemma authorize_step t A alloc fd sid clock r t' :
  rep t A -> admissible t (CallAuthorize alloc fd sid clock) ->
  session_authorize t alloc fd sid clock = Ret (r, t') ->
  exists A', spec_step A (CallAuthorize alloc fd sid clock) (AnswerContext r) A' /\ rep t' A'.
Proof.
  intros Hrep (Hfd & Hwf & Hfresh) Hc.
  pose proof (session_authorize_rep t A alloc fd sid clock Hrep Hfd Hwf Hfresh) as H.
  destruct (clock ≫= _) as [[ctx A'] |] eqn:E.
  - destruct H as (t1 & Hc1 & Hr). rewrite Hc1 in Hc. injection Hc as <- <-. exists A'. split; [| done].
    destruct clock as [now |]; [| done]. simpl in E. destruct (fd <? 0) eqn:?; [done |]. zbool.
    by apply spec_authorizes.
  - rewrite H in Hc. injection Hc as <- <-. exists A. split; [| done]. apply spec_refuses.
    intros now -> Hpos. simpl in E. by rewrite (proj2 (Z.ltb_ge fd 0) Hpos) in E.
Qed.

Lemma update_cwd_step t A fd sid i c clock r t' :
  rep t A -> session_id_wf sid -> session_update_cwd t fd sid i c clock = Ret (r, t') ->
  exists A', spec_step A (CallUpdateCwd fd sid i c clock) (AnswerCode r) A' /\ rep t' A'.
Proof.
  intros Hrep Hwf Hc. pose proof (session_update_cwd_rep t A fd sid i c clock Hrep Hwf) as H.
  destruct (clock ≫= _) as [A' |] eqn:E.
  - destruct H as (t1 & Hc1 & Hr). rewrite Hc1 in Hc. injection Hc as <- <-. exists A'. split; [| done].
    destruct clock as [now |]; [| done]. simpl in E. destruct (_ || _) eqn:Eg; [done |].
    apply orb_false_iff in Eg as [[Hpos Hslash]%orb_false_iff Hlen].
    apply bool_decide_eq_false, dec_stable in Hslash. apply spec_moves; [lia | done | lia | done].
  - rewrite H in Hc. injection Hc as <- <-. exists A. split; [| done]. apply spec_stays.
    intros now -> Hpos Hslash Hlen. simpl in E.
    rewrite (proj2 (Z.ltb_ge fd 0) Hpos), (proj2 (Z.leb_gt _ _) Hlen) in E.
    rewrite bool_decide_eq_false_2 in E; [done | by intros []].
Qed.

Lemma perform_step t A c r t' :
  rep t A -> admissible t c -> perform t c = Ret (r, t') -> exists A', spec_step A c r A' /\ rep t' A'.
Proof.
  intros Hrep Hadm Hc. destruct c; simpl in Hc.
  - destruct (session_create _ _ _ _ _ _ _ _) as [[o t1] | |] eqn:E; simpl in Hc; [| done ..].
    injection Hc as <- <-. destruct Hadm as [Hfd Hfresh].
    destruct (session_create_rep t A alloc fd uid name root random clock Hrep Hfd Hfresh) as [_ H].
    specialize (H _ _ E). destruct o as [sid |].
    + destruct H as (now & ? & ? & ? & ? & Hr). eexists. split; [by eapply spec_creates | exact Hr].
    + subst t1. exists A. split; [apply spec_creates_none | done].
  - destruct (session_authorize _ _ _ _ _) as [[o t1] | |] eqn:E; simpl in Hc; [| done ..].
    injection Hc as <- <-. by eapply authorize_step.
  - destruct (session_update_cwd _ _ _ _ _ _) as [[o t1] | |] eqn:E; simpl in Hc; [| done ..].
    injection Hc as <- <-. by eapply update_cwd_step.
  - destruct (session_detach_fd_rep t A fd Hrep) as (t1 & E & Hr). rewrite E in Hc. simpl in Hc.
    injection Hc as <- <-. eexists. split; [apply spec_detaches | exact Hr].
Qed.

Lemma history_rep h t : history h t -> exists A, spec_history h A /\ rep t A.
Proof.
  induction 1 as [t Ht | h t c r t' _ (A & Hs & Hrep) Hadm Hc].
  - exists empty_spec. split; [constructor | by apply session_table_create_rep].
  - destruct (perform_step _ _ _ _ _ Hrep Hadm Hc) as (A' & Hstep & Hr). exists A'.
    split; [by econstructor | done].
Qed.

(** ** The simulation *)

(** (C14) Every history of calls on a new session table is a history of the
    abstract table with the same answers, the table then represents the abstract
    one, every further call is free of undefined behaviour, and destroying the
    table frees every session and every binding. *)
Theorem session_table_simulation h t :
  history h t ->
  exists A, spec_history h A /\ rep t A /\
    (forall c, admissible t c -> perform t c <> Undef) /\
    exists t', session_table_destroy t = Ret t' /\ sessions t' = ∅ /\ bindings t' = ∅.
Proof.
  intros Hh. destruct (history_rep _ _ Hh) as (A & Hs & Hrep). exists A. repeat split; [done | apply Hrep .. | |].
  - intros c. by apply (perform_safe _ A).
  - by apply (session_table_destroy_frees_all t A).
Qed.

(** User 7 logs in on descriptor 5, a second connection 6 is authorized for the
    session, an unknown id is refused, and both connections leave. *)
Definition demo_calls : list call :=
  [CallCreate (Some (8%N, 16%N)) 5 7 (lit "alice") 3 [RandomEintr; RandomBytes demo_id] demo_clock;
   CallAuthorize (Some 24%N) 6 demo_id (demo_clock 0);
   CallAuthorize (Some 32%N) 7 (replicate 16 x2b) (demo_clock 0);
   CallDetach 5; CallDetach 6].

Fixpoint perform_all (t : session_table) (cs : list call) : outcome (list (call * answer) * session_table) :=
  match cs with
  | [] => Ret ([], t)
  | c :: cs => '(r, t) ← perform t c; '(h, t) ← perform_all t cs; Ret ((c, r) :: h, t)
  end.

Fixpoint all_admissible (t : session_table) (cs : list call) : Prop :=
  match cs with
  | [] => True
  | c :: cs => admissible t c /\ forall r t', perform t c = Ret (r, t') -> all_admissible t' cs
  end.

Lemma perform_all_history cs h t h' t' :
  history h t -> all_admissible t cs -> perform_all t cs = Ret (h', t') -> history (h ++ h') t'.
Proof.
  revert h t h' t'. induction cs as [| c cs IH]; simpl; intros h t h' t' Hh Hadm Hc.
  - injection Hc as <- <-. by rewrite app_nil_r.
  - destruct Hadm as [Hc0 Hadm]. destruct (perform t c) as [[r t1] | |] eqn:E; simpl in Hc; [| done ..].
    destruct (perform_all t1 cs) as [[h1 t2] | |] eqn:E1; simpl in Hc; [| done ..]. injection Hc as <- <-.
    replace (h ++ (c, r) :: h1) with ((h ++ [(c, r)]) ++ h1) by (by rewrite <- app_assoc).
    eapply IH; [by econstructor | by eapply Hadm | done].
Qed.

Definition demo_outcome : list (call * answer) * session_table :=
  match perform_all demo_empty demo_calls with Ret x => x | _ => ([], demo_empty) end.

Lemma demo_answers :
  map snd demo_outcome.1 =
    [AnswerId (Some demo_id);
     AnswerContext (Some {| ctx_user_id := 7; ctx_cwd_id := 3; ctx_username := lit "alice"; ctx_cwd := [SLASH] |});
     AnswerContext None; AnswerVoid; AnswerVoid].
Proof. vm_compute. reflexivity. Qed.

Lemma demo_admissible : all_admissible demo_empty demo_calls.
Proof.
  split; [by split; [vm_compute | intros ? ? [= <- <-]; exact demo_fresh] |].
  intros r1 t1 H1. split; [split; [by vm_compute | split; [by vm_compute | intros ? [= <-]]] |].
  { vm_compute in H1. injection H1 as <- <-. by split. }
  intros r2 t2 H2. split; [split; [by vm_compute | split; [by vm_compute | intros ? [= <-]]] |].
  { vm_compute in H1. injection H1 as <- <-. vm_compute in H2. injection H2 as <- <-. by split. }
  intros r3 t3 _. split; [exact I |]. intros r4 t4 _. split; [exact I |]. done.
Qed.

Lemma session_table_simulation_witness :
  history demo_outcome.1 demo_outcome.2 /\
  exists A, spec_history demo_outcome.1 A /\ rep demo_outcome.2 A /\
    (forall c, admissible demo_outcome.2 c -> perform demo_outcome.2 c <> Undef) /\
    exists t', session_table_destroy demo_outcome.2 = Ret t' /\ sessions t' = ∅ /\ bindings t' = ∅.
Proof.
  assert (H : history demo_outcome.1 demo_outcome.2).
  { apply (perform_all_history demo_calls [] demo_empty); [by constructor | exact demo_admissible |].
    vm_compute. reflexivity. }
  split; [exact H |]. apply (session_table_simulation demo_outcome.1 demo_outcome.2). exact H.
Defined.
