(* ===== verification/TimerWheel.v ===== *)
(** * The idle-connection timer wheel ([src/server/timer_wheel.c])

    Nodes live in memory and hang in two places: a bucket of the table by
    descriptor (singly linked) and a slot of the wheel (doubly linked).  Every
    assignment through a pointer is an update of the node map; reading a missing
    node, indexing outside an array and overflowing [time_t] are undefined. *)

From S2P Require Import Prelude Heap.

(** ** Data *)

Definition TIMER_FD_BUCKET_COUNT : Z := 1024.
Definition TIME_MAX : Z := 2 ^ 63 - 1.

Record timer_node := {
  node_fd : Z;
  deadline : timespec;
  slot : nat;
  slot_previous : addr;
  slot_next : addr;
  node_hash_next : addr
}.

Record timer_wheel := {
  timeout_seconds : Z;
  slot_count : Z;
  current_second : Z;
  slots : list addr;
  wheel_fd_buckets : list addr;
  wheel_size : Z;
  nodes : gmap addr timer_node
}.

(** ** Field updates *)

Definition set_nodes (w : timer_wheel) m : timer_wheel :=
  {| timeout_seconds := timeout_seconds w; slot_count := slot_count w;
     current_second := current_second w; slots := slots w;
     wheel_fd_buckets := wheel_fd_buckets w; wheel_size := wheel_size w; nodes := m |}.
Definition set_slots (w : timer_wheel) l : timer_wheel :=
  {| timeout_seconds := timeout_seconds w; slot_count := slot_count w;
     current_second := current_second w; slots := l;
     wheel_fd_buckets := wheel_fd_buckets w; wheel_size := wheel_size w; nodes := nodes w |}.
Definition set_wheel_fd_buckets (w : timer_wheel) l : timer_wheel :=
  {| timeout_seconds := timeout_seconds w; slot_count := slot_count w;
     current_second := current_second w; slots := slots w;
     wheel_fd_buckets := l; wheel_size := wheel_size w; nodes := nodes w |}.
Definition set_wheel_size (w : timer_wheel) n : timer_wheel :=
  {| timeout_seconds := timeout_seconds w; slot_count := slot_count w;
     current_second := current_second w; slots := slots w;
     wheel_fd_buckets := wheel_fd_buckets w; wheel_size := n; nodes := nodes w |}.
Definition set_current_second (w : timer_wheel) n : timer_wheel :=
  {| timeout_seconds := timeout_seconds w; slot_count := slot_count w;
     current_second := n; slots := slots w;
     wheel_fd_buckets := wheel_fd_buckets w; wheel_size := wheel_size w; nodes := nodes w |}.

Definition set_slot_next (q : addr) (n : timer_node) : timer_node :=
  {| node_fd := node_fd n; deadline := deadline n; slot := slot n;
     slot_previous := slot_previous n; slot_next := q; node_hash_next := node_hash_next n |}.
Definition set_slot_previous (q : addr) (n : timer_node) : timer_node :=
  {| node_fd := node_fd n; deadline := deadline n; slot := slot n;
     slot_previous := q; slot_next := slot_next n; node_hash_next := node_hash_next n |}.
Definition set_slot (i : nat) (n : timer_node) : timer_node :=
  {| node_fd := node_fd n; deadline := deadline n; slot := i;
     slot_previous := slot_previous n; slot_next := slot_next n; node_hash_next := node_hash_next n |}.
Definition set_deadline (d : timespec) (n : timer_node) : timer_node :=
  {| node_fd := node_fd n; deadline := d; slot := slot n;
     slot_previous := slot_previous n; slot_next := slot_next n; node_hash_next := node_hash_next n |}.
Definition set_node_hash_next (q : addr) (n : timer_node) : timer_node :=
  {| node_fd := node_fd n; deadline := deadline n; slot := slot n;
     slot_previous := slot_previous n; slot_next := slot_next n; node_hash_next := q |}.

(** [p->field = v] for a node. *)
Definition write_node (w : timer_wheel) (a : addr) (f : timer_node -> timer_node) : outcome timer_wheel :=
  n ← deref (nodes w !! a);
  Ret (set_nodes w (<[a := f n]> (nodes w))).

(** [wheel->slots[i] = q] and [wheel->fd_buckets[i] = q]. *)
Definition write_slot (w : timer_wheel) (i : nat) (q : addr) : outcome timer_wheel :=
  _ ← deref (slots w !! i);
  Ret (set_slots w (<[i := q]> (slots w))).
Definition write_bucket (w : timer_wheel) (i : nat) (q : addr) : outcome timer_wheel :=
  _ ← deref (wheel_fd_buckets w !! i);
  Ret (set_wheel_fd_buckets w (<[i := q]> (wheel_fd_buckets w))).

(** ** Time *)

Definition timer_hash_fd (fd : Z) : nat := Z.to_nat (u32 fd mod TIMER_FD_BUCKET_COUNT).

Definition timespec_compare (left right : timespec) : Z :=
  if negb (tv_sec left =? tv_sec right) then (if tv_sec left <? tv_sec right then -1 else 1)
  else if negb (tv_nsec left =? tv_nsec right) then (if tv_nsec left <? tv_nsec right then -1 else 1)
  else 0.

(** Addition of [time_t]; leaving its range is undefined. *)
Definition time_add (a b : Z) : outcome Z :=
  if TIME_MAX <? a + b then Undef else Ret (a + b).

Definition deadline_tick (d : timespec) : outcome Z :=
  time_add (tv_sec d) (if negb (tv_nsec d =? 0) then 1 else 0).

(** [*now] with [timeout_seconds] added. *)
Definition deadline_from (w : timer_wheel) (now : timespec) : outcome timespec :=
  sec ← time_add (tv_sec now) (timeout_seconds w);
  Ret {| tv_sec := sec; tv_nsec := tv_nsec now |}.

(** [(size_t)((uint64_t)tick % slot_count)] *)
Definition slot_index (w : timer_wheel) (tick : Z) : nat := Z.to_nat (u64 tick mod slot_count w).

(** ** Links *)

Definition h_next (w : timer_wheel) (a : addr) : option addr := node_hash_next <$> nodes w !! a.

Definition find_node (w : timer_wheel) (fd : Z) : outcome addr :=
  head ← deref (wheel_fd_buckets w !! timer_hash_fd fd);
  walk (size (nodes w)) (h_next w) (fun a => (fun n => node_fd n =? fd) <$> nodes w !! a) head.

Definition unlink_slot (w : timer_wheel) (a : addr) : outcome timer_wheel :=
  n ← deref (nodes w !! a);
  w ← (if bool_decide (slot_previous n <> NULL)
       then write_node w (slot_previous n) (set_slot_next (slot_next n))
       else write_slot w (slot n) (slot_next n));
  n ← deref (nodes w !! a);
  w ← (if bool_decide (slot_next n <> NULL)
       then write_node w (slot_next n) (set_slot_previous (slot_previous n))
       else Ret w);
  w ← write_node w a (set_slot_previous NULL);
  write_node w a (set_slot_next NULL).

Definition link_slot (w : timer_wheel) (a : addr) : outcome timer_wheel :=
  n ← deref (nodes w !! a);
  tick ← deadline_tick (deadline n);
  let i := slot_index w tick in
  w ← write_node w a (set_slot i);
  head ← deref (slots w !! i);
  w ← write_node w a (set_slot_next head);
  w ← (if bool_decide (head <> NULL) then write_node w head (set_slot_previous a) else Ret w);
  write_slot w i a.

Definition unlink_hash (w : timer_wheel) (a : addr) : outcome timer_wheel :=
  n ← deref (nodes w !! a);
  let bucket := timer_hash_fd (node_fd n) in
  head ← deref (wheel_fd_buckets w !! bucket);
  '(lk, cur) ← walk_link (size (nodes w)) (h_next w) (fun x => Some (bool_decide (x = a))) LHead head;
  if bool_decide (cur = a) then
    match lk with
    | LHead => write_bucket w bucket (node_hash_next n)
    | LNext b => write_node w b (set_node_hash_next (node_hash_next n))
    end
  else Ret w.

(** [free(node)] *)
Definition free_node (w : timer_wheel) (a : addr) : outcome timer_wheel :=
  _ ← deref (nodes w !! a);
  Ret (set_nodes w (delete a (nodes w))).

(** The statements that take a node out of the wheel, in [timer_wheel_remove],
    [timer_wheel_track_and_publish] and [timer_wheel_advance_at]. *)
Definition discard (w : timer_wheel) (a : addr) : outcome timer_wheel :=
  w ← unlink_slot w a;
  w ← unlink_hash w a;
  w ← free_node w a;
  Ret (set_wheel_size w (u64 (wheel_size w - 1))).

(** ** Operations

    [clock] answers [clock_gettime], [alloc] answers [calloc]; [None] is a
    failure. *)

(** [ok] is the success of the allocations and of [pthread_mutex_init]. *)
Definition timer_wheel_create (timeout : Z) (clock : option timespec) (ok : bool) : option timer_wheel :=
  match clock with
  | Some now =>
      if (timeout =? 0) || negb ok then None
      else Some {| timeout_seconds := timeout; slot_count := timeout + 1;
                   current_second := tv_sec now;
                   slots := replicate (Z.to_nat (timeout + 1)) NULL;
                   wheel_fd_buckets := replicate (Z.to_nat TIMER_FD_BUCKET_COUNT) NULL;
                   wheel_size := 0; nodes := ∅ |}
  | None => None
  end.

Fixpoint free_chain (fuel : nat) (w : timer_wheel) (p : addr) : outcome timer_wheel :=
  if bool_decide (p = NULL) then Ret w
  else match fuel with
       | O => NoReturn
       | S fuel => n ← deref (nodes w !! p);
                   w ← free_node w p;
                   free_chain fuel w (node_hash_next n)
       end.

Fixpoint free_all (buckets : list addr) (w : timer_wheel) : outcome timer_wheel :=
  match buckets with
  | [] => Ret w
  | p :: buckets => w ← free_chain (size (nodes w)) w p; free_all buckets w
  end.

(** The nodes left when [timer_wheel_destroy] has freed them all. *)
Definition timer_wheel_destroy (w : timer_wheel) : outcome timer_wheel :=
  free_all (wheel_fd_buckets w) w.

Definition track_locked (w : timer_wheel) (alloc : option addr) (fd : Z) (now : timespec)
    : outcome (Z * timer_wheel) :=
  found ← find_node w fd;
  if bool_decide (found <> NULL) then Ret (-1, w)
  else match alloc with
  | None => Ret (-1, w)
  | Some a =>
      d ← deadline_from w now;
      let bucket := timer_hash_fd fd in
      head ← deref (wheel_fd_buckets w !! bucket);
      let n := {| node_fd := fd; deadline := d; slot := 0; slot_previous := NULL;
                  slot_next := NULL; node_hash_next := head |} in
      let w := set_nodes w (<[a := n]> (nodes w)) in
      w ← write_bucket w bucket a;
      w ← link_slot w a;
      Ret (0, set_wheel_size w (u64 (wheel_size w + 1)))
  end.

Definition bad_nsec (now : timespec) : bool := (tv_nsec now <? 0) || (1000000000 <=? tv_nsec now).

Definition timer_wheel_track_at (w : timer_wheel) (alloc : option addr) (fd : Z) (now : timespec)
    : outcome (Z * timer_wheel) :=
  if (fd <? 0) || bad_nsec now then Ret (-1, w) else track_locked w alloc fd now.

Definition timer_wheel_track (w : timer_wheel) (alloc : option addr) (fd : Z) (clock : option timespec)
    : outcome (Z * timer_wheel) :=
  if fd <? 0 then Ret (-1, w)
  else match clock with
       | Some now => track_locked w alloc fd now
       | None => Ret (-1, w)
       end.

Definition timer_wheel_touch_at (w : timer_wheel) (fd : Z) (now : timespec) : outcome (Z * timer_wheel) :=
  if bad_nsec now then Ret (-1, w)
  else
    a ← find_node w fd;
    if bool_decide (a = NULL) then Ret (-1, w)
    else
      w ← unlink_slot w a;
      d ← deadline_from w now;
      w ← write_node w a (set_deadline d);
      w ← link_slot w a;
      Ret (0, w).

Definition timer_wheel_touch (w : timer_wheel) (fd : Z) (clock : option timespec)
    : outcome (Z * timer_wheel) :=
  match clock with
  | Some now => timer_wheel_touch_at w fd now
  | None => Ret (-1, w)
  end.

Definition timer_wheel_remove (w : timer_wheel) (fd : Z) : outcome timer_wheel :=
  if fd <? 0 then Ret w
  else
    a ← find_node w fd;
    if bool_decide (a = NULL) then Ret w else discard w a.

Definition timer_wheel_size (w : timer_wheel) : Z := wheel_size w.

(** Callbacks act on the state [E] of their context, outside the wheel. *)
Section Callbacks.
Context {E : Type}.

Definition timer_wheel_track_and_publish (w : timer_wheel) (alloc : option addr) (fd : Z)
    (clock : option timespec) (publish : Z -> E -> Z * E) (e : E) : outcome (Z * timer_wheel * E) :=
  if fd <? 0 then Ret (-1, w, e)
  else
    '(result, w) ← (match clock with
                    | Some now => track_locked w alloc fd now
                    | None => Ret (-1, w)
                    end);
    if negb (result =? 0) then Ret (result, w, e)
    else
      let (r, e) := publish fd e in
      if negb (r =? 0) then
        a ← find_node w fd;
        w ← discard w a;
        Ret (-1, w, e)
      else Ret (result, w, e).

(** The inner loop of [timer_wheel_advance_at] over the nodes of one slot. *)
Fixpoint advance_slot (fuel : nat) (w : timer_wheel) (now : timespec) (expire : Z -> E -> E)
    (e : E) (p : addr) : outcome (timer_wheel * E) :=
  if bool_decide (p = NULL) then Ret (w, e)
  else match fuel with
  | O => NoReturn
  | S fuel =>
      n ← deref (nodes w !! p);
      let next := slot_next n in
      if timespec_compare (deadline n) now <=? 0 then
        w ← discard w p;
        advance_slot fuel w now expire (expire (node_fd n) e) next
      else
        w ← unlink_slot w p;
        w ← link_slot w p;
        advance_slot fuel w now expire e next
  end.

(** The outer loop; [fuel] is the number of seconds still to visit. *)
Fixpoint advance_seconds (fuel : nat) (w : timer_wheel) (now : timespec) (expire : Z -> E -> E)
    (e : E) : outcome (timer_wheel * E) :=
  if negb (current_second w <? tv_sec now) then Ret (w, e)
  else match fuel with
  | O => NoReturn
  | S fuel =>
      let w := set_current_second w (current_second w + 1) in
      head ← deref (slots w !! slot_index w (current_second w));
      '(w, e) ← advance_slot (size (nodes w)) w now expire e head;
      advance_seconds fuel w now expire e
  end.

Definition timer_wheel_advance_at (w : timer_wheel) (now : timespec) (expire : Z -> E -> E) (e : E)
    : outcome (timer_wheel * E) :=
  advance_seconds (Z.to_nat (tv_sec now - current_second w)) w now expire e.

Definition timer_wheel_advance (w : timer_wheel) (clock : option timespec) (expire : Z -> E -> E)
    (e : E) : outcome (Z * timer_wheel * E) :=
  match clock with
  | Some now => '(w, e) ← timer_wheel_advance_at w now expire e; Ret (0, w, e)
  | None => Ret (-1, w, e)
  end.
End Callbacks.
