(* ===== verification/TimerWheelSpec.v ===== *)
(** * What the timer wheel promises, and that [TimerWheel.v] keeps it

    Clients see a map from descriptors to deadlines.  [wheel_rep] relates it to
    the doubly linked slots and the hash buckets; the theorems show that every
    operation is memory safe and implements its abstract counterpart, and which
    descriptors an advance expires. *)

From S2P Require Import Prelude Heap TimerWheel.

(** ** Doubly linked families of lists *)

Section Doubly.
Context {K : Type} `{EqDecision K}.
Implicit Types (head : K -> option addr) (node : addr -> option (K * addr)) (prev : addr -> option addr).

(** Every [prev] field agrees with the [next] fields. *)
Definition prev_ok head node prev : Prop :=
  forall a k q b, node a = Some (k, q) -> prev a = Some b ->
    (b = NULL /\ head k = Some a) \/ (b <> NULL /\ node b = Some (k, a)).

Definition link_of (b : addr) : link := if bool_decide (b = NULL) then LHead else LNext b.

Lemma prev_link head node prev a k q b p :
  lists head node -> prev_ok head node prev -> node a = Some (k, q) -> prev a = Some b ->
  head k = Some p ->
  exists l1 l2, chain (next_of node) p (l1 ++ a :: l2) /\ link_after LHead l1 = link_of b /\
    (forall x, x ∈ l1 ++ a :: l2 <-> exists y, node x = Some (k, y)).
Proof.
  intros Hl Hp Ha Hb Hk. destruct (lists_chain _ _ Hl _ _ Hk) as (l & Hc & Hin).
  unfold link_of. destruct (Hp _ _ _ _ Ha Hb) as [[-> Hh] | [Hnull Hnb]].
  - rewrite Hk in Hh. injection Hh as ->. assert (Hal : a ∈ l) by (apply Hin; eauto).
    destruct l as [| c l]; [by apply not_elem_of_nil in Hal |].
    pose proof (chain_head _ _ _ _ Hc) as <-. exists [], l. done.
  - assert (Hbl : b ∈ l) by (apply Hin; eauto).
    apply list_elem_of_split in Hbl as (m1 & m2 & ->).
    destruct (chain_split _ _ _ _ _ Hc) as (q' & Hq' & Hc'). unfold next_of in Hq'. rewrite Hnb in Hq'.
    injection Hq' as <-. destruct m2 as [| c m2].
    + simpl in Hc'. subst. by pose proof (lists_not_null _ _ _ _ _ Hl Ha).
    + pose proof (chain_head _ _ _ _ Hc') as <-. exists (m1 ++ [b]), m2.
      rewrite <- app_assoc. rewrite bool_decide_eq_false_2 by done. split_and!; [done | | done].
      unfold link_after. by rewrite last_snoc.
Qed.

(** Facts about a node in the middle of a doubly linked list. *)
Lemma doubly_unlink head node prev a k q b :
  lists head node -> prev_ok head node prev -> node a = Some (k, q) -> prev a = Some b ->
  lists (head_after head (link_of b) k q) (node_after node (link_of b) k q a) /\
  b <> a /\ q <> a /\ (b <> NULL -> node b = Some (k, a)) /\
  (q <> NULL -> exists y, node q = Some (k, y)).
Proof.
  intros Hl Hp Ha Hb. destruct (lists_home _ _ Hl _ _ _ Ha) as [p Hk].
  destruct (prev_link _ _ _ _ _ _ _ _ Hl Hp Ha Hb Hk) as (l1 & l2 & Hc & Hlk & Hin).
  pose proof (chain_NoDup _ _ _ Hc) as Hnd. apply NoDup_app in Hnd as (_ & Hdis & Hnd2).
  inversion_clear Hnd2 as [| ? ? Ha2 _].
  destruct (chain_split _ _ _ _ _ Hc) as (q' & Hq' & Hc'). unfold next_of in Hq'. rewrite Ha in Hq'.
  injection Hq' as <-. split_and!.
  - rewrite <- Hlk. by eapply lists_unlink.
  - intros ->. unfold link_of in Hlk. rewrite bool_decide_eq_false_2 in Hlk
      by (by eapply lists_not_null). unfold link_after in Hlk.
    destruct (last l1) as [c |] eqn:Ec; [| done]. injection Hlk as ->.
    apply last_Some in Ec as [l' ->]. apply (Hdis a); [| by left].
    rewrite elem_of_app, list_elem_of_singleton. by right.
  - intros ->. destruct l2 as [| c l2]; [by pose proof (lists_not_null _ _ _ _ _ Hl Ha) |].
    pose proof (chain_head _ _ _ _ Hc') as ->. apply Ha2. by left.
  - intros Hnull. by destruct (Hp _ _ _ _ Ha Hb) as [[? _] | [_ ?]].
  - intros Hnull. destruct l2 as [| c l2]; [done |]. pose proof (chain_head _ _ _ _ Hc') as ->.
    apply Hin. apply elem_of_app. right. right. by left.
Qed.

Lemma doubly_unlink_prev head node prev prev' a k q b :
  lists head node -> prev_ok head node prev -> node a = Some (k, q) -> prev a = Some b ->
  (forall x, x <> a -> is_Some (node x) -> prev' x = if decide (x = q) then Some b else prev x) ->
  prev_ok (head_after head (link_of b) k q) (node_after node (link_of b) k q a) prev'.
Proof.
  intros Hl Hp Ha Hb Hprev.
  destruct (doubly_unlink _ _ _ _ _ _ _ Hl Hp Ha Hb) as (_ & Hba & Hqa & Hnb & Hnq).
  assert (Hold : forall x j y, node_after node (link_of b) k q a x = Some (j, y) ->
            x <> a /\ exists y', node x = Some (j, y')).
  { intros x j y. unfold node_after, link_of, upd. case_decide; [done |]. intros Hx. split; [done |].
    case_bool_decide; [eauto |]. case_decide; [| eauto]. subst. injection Hx as <- <-. eauto. }
  intros x j y c Hx Hc. apply Hold in Hx as (Hxa & y' & Hx).
  rewrite Hprev in Hc by (done || by eexists). case_decide as Hxq.
  - subst x. injection Hc as <-. pose proof (lists_not_null _ _ _ _ _ Hl Hx) as Hqn.
    destruct (Hnq Hqn) as [z Hz]. rewrite Hx in Hz. injection Hz as -> _.
    unfold head_after, node_after, link_of, upd. case_bool_decide as Hbn.
    + left. by rewrite decide_True.
    + right. rewrite decide_False by done. by rewrite decide_True.
  - destruct (Hp _ _ _ _ Hx Hc) as [[-> Hh] | [Hcn Hnc]].
    + left. split; [done |]. unfold head_after, link_of. case_bool_decide as Hbn; [| done]. subst b.
      unfold upd. case_decide; [| done]. subst j.
      destruct (Hp _ _ _ _ Ha Hb) as [[_ Hh'] | [? _]]; [| done]. congruence.
    + right. split; [done |]. unfold node_after, upd. rewrite decide_False by congruence.
      unfold link_of. case_bool_decide; [done |]. rewrite decide_False; [done |].
      intros ->. rewrite Hnb in Hnc by done. congruence.
Qed.

Lemma doubly_push_prev head node prev prev' a k p :
  lists head node -> prev_ok head node prev -> node a = None -> a <> NULL -> head k = Some p ->
  prev' a = Some NULL ->
  (forall x, x <> a -> is_Some (node x) -> prev' x = if decide (x = p) then Some a else prev x) ->
  prev_ok (upd head k (Some a)) (upd node a (Some (k, p))) prev'.
Proof.
  intros Hl Hp Ha Hnull Hk Hpa Hprev x j y c Hx Hc. unfold upd in Hx. case_decide as Hxa.
  - injection Hx as <- <-. subst x. left. split; [congruence |]. unfold upd. by rewrite decide_True.
  - rewrite Hprev in Hc by (done || by eexists). case_decide as Hxp.
    + subst x. injection Hc as <-. right. split; [done |]. unfold upd. rewrite decide_True by done.
      destruct (lists_chain _ _ Hl _ _ Hk) as ([| d l] & Hch & Hin).
      * simpl in Hch. subst. by pose proof (lists_not_null _ _ _ _ _ Hl Hx).
      * pose proof (chain_head _ _ _ _ Hch) as ->. destruct (proj1 (Hin d)) as [z Hz]; [by left |]. congruence.
    + destruct (Hp _ _ _ _ Hx Hc) as [[-> Hh] | [Hcn Hnc]].
      * left. split; [done |]. unfold upd. case_decide; [| done]. congruence.
      * right. split; [done |]. unfold upd. rewrite decide_False by congruence. done.
Qed.

Lemma prev_ok_ext head head' node node' prev prev' :
  (forall k, head' k = head k) -> (forall a, node' a = node a) ->
  (forall a, is_Some (node a) -> prev' a = prev a) -> prev_ok head node prev -> prev_ok head' node' prev'.
Proof.
  intros Hh Hn Hpv Hp a k q b. rewrite Hn, Hh. intros Ha. rewrite Hpv by (by eexists).
  intros Hb. rewrite Hn. by eapply Hp.
Qed.
End Doubly.

(** ** Projections of the memory *)

Definition hhead (w : timer_wheel) (i : nat) : option addr := wheel_fd_buckets w !! i.
Definition lhead (w : timer_wheel) (i : nat) : option addr := slots w !! i.
Definition lnode (w : timer_wheel) (a : addr) : option (nat * addr) :=
  (fun n => (slot n, slot_next n)) <$> nodes w !! a.
Definition lprev (w : timer_wheel) (a : addr) : option addr := slot_previous <$> nodes w !! a.
Definition hnode (w : timer_wheel) (a : addr) : option (nat * addr) :=
  (fun n => (timer_hash_fd (node_fd n), node_hash_next n)) <$> nodes w !! a.
Definition ndata (w : timer_wheel) (a : addr) : option (Z * timespec) :=
  (fun n => (node_fd n, deadline n)) <$> nodes w !! a.

(** Everything but the slot links. *)
Definition core (w : timer_wheel) (a : addr) : option (Z * timespec * nat * addr) :=
  (fun n => (node_fd n, deadline n, slot n, node_hash_next n)) <$> nodes w !! a.

Record same_wheel (w w' : timer_wheel) : Prop := {
  sw_timeout : timeout_seconds w' = timeout_seconds w;
  sw_slot_count : slot_count w' = slot_count w;
  sw_current : current_second w' = current_second w;
  sw_size : wheel_size w' = wheel_size w;
  sw_slots : length (slots w') = length (slots w);
  sw_buckets : length (wheel_fd_buckets w') = length (wheel_fd_buckets w)
}.

Lemma core_hnode w w' x : core w' x = core w x -> hnode w' x = hnode w x.
Proof. unfold core, hnode. destruct (nodes w' !! x), (nodes w !! x); simpl; congruence. Qed.
Lemma core_ndata w w' x : core w' x = core w x -> ndata w' x = ndata w x.
Proof. unfold core, ndata. destruct (nodes w' !! x), (nodes w !! x); simpl; congruence. Qed.

Ltac wviews :=
  intros; unfold hhead, lhead, lnode, lprev, hnode, ndata, core, upd; simpl;
  repeat case_decide; subst; simplify_map_eq; try done.

Lemma write_node_Ret w a n f :
  nodes w !! a = Some n -> write_node w a f = Ret (set_nodes w (<[a := f n]> (nodes w))).
Proof. unfold write_node. by intros ->. Qed.

Lemma write_slot_Ret w i q :
  (i < length (slots w))%nat -> write_slot w i q = Ret (set_slots w (<[i := q]> (slots w))).
Proof. intros Hi. unfold write_slot. by destruct (lookup_lt_is_Some_2 _ _ Hi) as [x ->]. Qed.

Lemma write_bucket_Ret w i q :
  (i < length (wheel_fd_buckets w))%nat ->
  write_bucket w i q = Ret (set_wheel_fd_buckets w (<[i := q]> (wheel_fd_buckets w))).
Proof. intros Hi. unfold write_bucket. by destruct (lookup_lt_is_Some_2 _ _ Hi) as [x ->]. Qed.

(** ** Taking a node out of its slot *)

(** The slots without the node [a], which is still in memory. *)
Definition slots_without (w : timer_wheel) (a : addr) : Prop :=
  lists (lhead w) (upd (lnode w) a None) /\ prev_ok (lhead w) (upd (lnode w) a None) (lprev w).

Record slot_unlinked (w w' : timer_wheel) (a : addr) (n : timer_node) : Prop := {
  un_same : same_wheel w w';
  un_buckets : wheel_fd_buckets w' = wheel_fd_buckets w;
  un_core x : core w' x = core w x;
  un_node : nodes w' !! a = Some (set_slot_next NULL (set_slot_previous NULL n));
  un_dom : dom (nodes w') = dom (nodes w);
  un_slots : slots_without w' a;
  un_lnode x : x <> a -> x <> slot_previous n -> lnode w' x = lnode w x
}.

(** What [unlink_slot] does to the other nodes. *)
Definition bypass (b q x : addr) (n : timer_node) : timer_node :=
  let n := if decide (x = b) then set_slot_next q n else n in
  if decide (x = q) then set_slot_previous b n else n.

Lemma unlink_slot_Ret w a n :
  nodes w !! NULL = None -> nodes w !! a = Some n -> (slot n < length (slots w))%nat ->
  slot_previous n <> a -> slot_next n <> a ->
  (slot_previous n <> NULL -> is_Some (nodes w !! slot_previous n)) ->
  (slot_next n <> NULL -> is_Some (nodes w !! slot_next n)) ->
  exists m, unlink_slot w a =
      Ret (set_nodes (if decide (slot_previous n = NULL)
                      then set_slots w (<[slot n := slot_next n]> (slots w)) else w) m) /\
    m !! a = Some (set_slot_next NULL (set_slot_previous NULL n)) /\
    forall x, x <> a -> m !! x = bypass (slot_previous n) (slot_next n) x <$> nodes w !! x.
Proof.
  intros Hnull Hn Hlt Hb Hq Hnb Hnq. unfold unlink_slot. rewrite Hn. cbn [deref mbind outcome_bind].
  set (b := slot_previous n) in *. set (q := slot_next n) in *.
  assert (Hfirst : exists m1, (if bool_decide (b <> NULL) then write_node w b (set_slot_next q)
      else write_slot w (slot n) q) =
      Ret (set_nodes (if decide (b = NULL) then set_slots w (<[slot n := q]> (slots w)) else w) m1) /\
    m1 !! a = Some n /\
    forall x, m1 !! x = (fun n => if decide (x = b) then set_slot_next q n else n) <$> nodes w !! x).
  { destruct (decide (b = NULL)) as [E | E].
    - rewrite bool_decide_eq_false_2 by (intros []; done). rewrite write_slot_Ret by done.
      exists (nodes w). split_and!; [done | done |]. intros x. destruct (decide (x = b)) as [-> |].
      + by rewrite E, Hnull.
      + by destruct (nodes w !! x).
    - rewrite bool_decide_eq_true_2 by done. destruct (Hnb E) as [nb Eb].
      rewrite (write_node_Ret _ _ nb) by done. eexists. split_and!; [done | by simplify_map_eq |].
      intros x. destruct (decide (x = b)) as [-> |]; simplify_map_eq; [done |].
      by destruct (nodes w !! x). }
  destruct Hfirst as (m1 & -> & Hm1a & Hm1). cbn [mbind outcome_bind nodes set_nodes].
  rewrite Hm1a. cbn [deref mbind outcome_bind]. fold b q.
  set (w1 := set_nodes (if decide (b = NULL) then set_slots w (<[slot n := q]> (slots w)) else w) m1).
  assert (Hsecond : exists m2, (if bool_decide (q <> NULL) then write_node w1 q (set_slot_previous b)
      else Ret w1) = Ret (set_nodes w1 m2) /\ m2 !! a = Some n /\
    forall x, m2 !! x = (fun n => if decide (x = q) then set_slot_previous b n else n) <$> m1 !! x).
  { destruct (decide (q = NULL)) as [E | E].
    - rewrite bool_decide_eq_false_2 by (intros []; done). exists m1.
      split_and!; [unfold set_nodes, w1; by destruct (decide (b = NULL)) | done |].
      intros x. destruct (decide (x = q)) as [-> |]; [| by destruct (m1 !! x)].
      by rewrite E, Hm1, Hnull.
    - rewrite bool_decide_eq_true_2 by done. destruct (Hnq E) as [nq Eq].
      assert (Eq1 : exists nq1, m1 !! q = Some nq1) by (rewrite Hm1, Eq; eauto).
      destruct Eq1 as [nq1 Eq1]. rewrite (write_node_Ret _ _ nq1) by done. eexists.
      split_and!; [done | by simplify_map_eq |].
      intros x. destruct (decide (x = q)) as [-> |]; simplify_map_eq; [done |]. by destruct (m1 !! x). }
  destruct Hsecond as (m2 & -> & Hm2a & Hm2). cbn [mbind outcome_bind].
  rewrite (write_node_Ret _ _ n) by done. cbn [mbind outcome_bind].
  rewrite (write_node_Ret _ _ (set_slot_previous NULL n)) by (simpl; by simplify_map_eq).
  eexists. split_and!.
  - unfold set_nodes, w1. by destruct (decide (b = NULL)).
  - simpl. by simplify_map_eq.
  - intros x Hx. simpl. rewrite !lookup_insert_ne by done. rewrite Hm2, Hm1. unfold bypass.
    by destruct (nodes w !! x).
Qed.

Lemma unlink_slot_unlinked w a n :
  lists (lhead w) (lnode w) -> prev_ok (lhead w) (lnode w) (lprev w) -> nodes w !! a = Some n ->
  exists w', unlink_slot w a = Ret w' /\ slot_unlinked w w' a n.
Proof.
  intros Hl Hp Hn.
  assert (Ha : lnode w a = Some (slot n, slot_next n)) by (unfold lnode; by rewrite Hn).
  assert (Hb : lprev w a = Some (slot_previous n)) by (unfold lprev; by rewrite Hn).
  assert (Hnull : nodes w !! NULL = None).
  { destruct (nodes w !! NULL) as [z |] eqn:E; [| done]. exfalso.
    apply (lists_not_null _ _ NULL (slot z) (slot_next z) Hl); [| done]. unfold lnode. by rewrite E. }
  destruct (doubly_unlink _ _ _ _ _ _ _ Hl Hp Ha Hb) as (Hl' & Hba & Hqa & Hnb & Hnq).
  destruct (lists_home _ _ Hl _ _ _ Ha) as [p Hk]. pose proof (lookup_lt_Some _ _ _ Hk) as Hlt.
  destruct (unlink_slot_Ret w a n) as (m & -> & Hma & Hm); try done.
  { intros Hbn. specialize (Hnb Hbn). apply fmap_Some in Hnb as (? & -> & _). eauto. }
  { intros Hqn. destruct (Hnq Hqn) as [y Hy]. apply fmap_Some in Hy as (? & -> & _). eauto. }
  eexists. split; [done |].
  set (w' := set_nodes _ m).
  assert (Hlh : forall k, lhead w' k = head_after (lhead w) (link_of (slot_previous n)) (slot n) (slot_next n) k).
  { intros k. unfold lhead, head_after, link_of, w'. destruct (decide (slot_previous n = NULL)) as [E | E].
    - rewrite bool_decide_eq_true_2 by done. unfold upd. simpl. case_decide.
      + subst. by rewrite list_lookup_insert_eq.
      + by rewrite list_lookup_insert_ne.
    - by rewrite bool_decide_eq_false_2. }
  assert (Hln : forall x, upd (lnode w') a None x =
      node_after (lnode w) (link_of (slot_previous n)) (slot n) (slot_next n) a x).
  { intros x. unfold node_after, upd at 1 2. case_decide as Hx; [done |]. unfold lnode at 1, w'. simpl.
    rewrite Hm by done. unfold link_of, bypass. case_bool_decide as Hbn.
    - unfold lnode. destruct (nodes w !! x) as [y |] eqn:Ey; [| done]. simpl.
      destruct (decide (x = slot_previous n)) as [-> |]; [by rewrite Hbn, Hnull in Ey |].
      by case_decide.
    - unfold upd. specialize (Hnb Hbn). unfold lnode in *.
      destruct (decide (x = slot_previous n)).
      + subst x. apply fmap_Some in Hnb as (y & -> & [= -> _]). simpl. by case_decide.
      + destruct (nodes w !! x); [| done]. simpl. by case_decide. }
  split.
  - unfold w'. destruct (decide (slot_previous n = NULL)); split; simpl; try done. by rewrite length_insert.
  - unfold w'. by destruct (decide (slot_previous n = NULL)).
  - intros x. destruct (decide (x = a)) as [-> | Hx]; unfold core, w'; simpl; [by rewrite Hma, Hn |].
    rewrite Hm by done. destruct (nodes w !! x); [| done]. simpl. unfold bypass. by repeat case_decide.
  - done.
  - apply set_eq. intros x. rewrite !elem_of_dom. unfold w'. simpl.
    destruct (decide (x = a)) as [-> | Hx]; [rewrite Hma, Hn; done |].
    rewrite Hm by done. by rewrite fmap_is_Some.
  - split; [by eapply lists_ext; [exact Hlh | exact Hln |] |].
    eapply prev_ok_ext; [exact Hlh | exact Hln | done |].
    apply (doubly_unlink_prev _ _ _ (lprev w') _ _ _ _ Hl Hp Ha Hb).
    intros x Hx [? Hxn]. apply fmap_Some in Hxn as (y & Ey & _). unfold lprev, w'. simpl.
    rewrite Hm, Ey by done. simpl. unfold bypass. by repeat case_decide.
  - intros x Hx Hxb. unfold lnode, w'. simpl. rewrite Hm by done.
    destruct (nodes w !! x); [| done]. simpl. unfold bypass. destruct (decide (x = slot_previous n)); [done |].
    by case_decide.
Qed.

(** ** Hanging a node in the slot of its deadline *)

(** Times the wheel can handle without leaving [time_t] (or [uint64_t]). *)
Definition tick_of (d : timespec) : Z := tv_sec d + (if negb (tv_nsec d =? 0) then 1 else 0).
Definition good_deadline (d : timespec) : Prop :=
  0 <= tv_sec d /\ 0 <= tv_nsec d /\ tick_of d <= TIME_MAX.

Lemma deadline_tick_Ret d : good_deadline d -> deadline_tick d = Ret (tick_of d).
Proof.
  intros (_ & _ & H). unfold deadline_tick, time_add. fold (tick_of d).
  by rewrite (proj2 (Z.ltb_ge _ _)).
Qed.

Record slot_linked (w w' : timer_wheel) (a : addr) (n : timer_node) : Prop := {
  li_same : same_wheel w w';
  li_buckets : wheel_fd_buckets w' = wheel_fd_buckets w;
  li_hnode x : hnode w' x = hnode w x;
  li_ndata x : ndata w' x = ndata w x;
  li_core x : x <> a -> core w' x = core w x;
  li_slot : slot <$> nodes w' !! a = Some (slot_index w (tick_of (deadline n)));
  li_dom : dom (nodes w') = dom (nodes w);
  li_lists : lists (lhead w') (lnode w');
  li_prev : prev_ok (lhead w') (lnode w') (lprev w');
  li_lnode x : x <> a -> lnode w' x = lnode w x
}.

Lemma link_slot_linked w a n :
  slots_without w a -> a <> NULL -> nodes w !! a = Some n -> slot_previous n = NULL ->
  good_deadline (deadline n) -> (slot_index w (tick_of (deadline n)) < length (slots w))%nat ->
  exists w', link_slot w a = Ret w' /\ slot_linked w w' a n.
Proof.
  intros [Hl Hp] Hnull Hn Hpn Hd Hlt. set (i := slot_index w (tick_of (deadline n))) in *.
  destruct (lookup_lt_is_Some_2 _ _ Hlt) as [p Hk].
  assert (Hpa : p <> a /\ (p <> NULL -> exists np, nodes w !! p = Some np)).
  { destruct (lists_chain _ _ Hl i p Hk) as ([| c l] & Hc & Hin).
    - simpl in Hc. subst. done.
    - pose proof (chain_head _ _ _ _ Hc) as ->. destruct (proj1 (Hin c)) as [y Hy]; [by left |].
      unfold upd in Hy. case_decide; [done |]. apply fmap_Some in Hy as (np & -> & _). eauto. }
  destruct Hpa as [Hpa Hnp].
  set (n' := set_slot_next p (set_slot i n)).
  assert (Hw : exists m, link_slot w a = Ret (set_slots (set_nodes w m) (<[i := a]> (slots w))) /\
    m !! a = Some n' /\
    forall x, x <> a -> m !! x = (fun y => if decide (x = p) then set_slot_previous a y else y) <$> nodes w !! x).
  { unfold link_slot. rewrite Hn. cbn [deref mbind outcome_bind]. rewrite deadline_tick_Ret by done.
    cbn [mbind outcome_bind]. fold i. rewrite (write_node_Ret _ _ n) by done. cbn [mbind outcome_bind slots set_nodes].
    rewrite Hk. cbn [deref mbind outcome_bind].
    rewrite (write_node_Ret _ _ (set_slot i n)) by (simpl; by simplify_map_eq).
    cbn [mbind outcome_bind]. destruct (decide (p = NULL)) as [E | E].
    - rewrite bool_decide_eq_false_2 by (intros []; done). cbn [mbind outcome_bind].
      rewrite write_slot_Ret by done. eexists. split; [done |]. simpl. split; [by simplify_map_eq |].
      intros x Hx. rewrite !lookup_insert_ne by done. destruct (nodes w !! x) eqn:Ex; [| done]. simpl.
      case_decide; [| done]. subst. exfalso.
      apply (lists_not_null _ _ NULL (slot t) (slot_next t) Hl); [| done].
      unfold upd. rewrite decide_False by done. unfold lnode. by rewrite Ex.
    - rewrite bool_decide_eq_true_2 by done. destruct (Hnp E) as [np Ep].
      rewrite (write_node_Ret _ _ np) by (simpl; by simplify_map_eq). cbn [mbind outcome_bind].
      rewrite write_slot_Ret by done. eexists. split; [done |]. simpl. split; [by simplify_map_eq |].
      intros x Hx. destruct (decide (x = p)) as [-> |]; simplify_map_eq; [done |]. by destruct (nodes w !! x). }
  destruct Hw as (m & -> & Hma & Hm). eexists. split; [done |]. set (w' := set_slots _ _).
  assert (Hlh : forall k, lhead w' k = upd (lhead w) i (Some a) k).
  { intros k. unfold lhead, w', upd. simpl. case_decide; [subst; by rewrite list_lookup_insert_eq |].
    by rewrite list_lookup_insert_ne. }
  assert (Hother : forall x, x <> a -> lnode w' x = lnode w x).
  { intros x Hx. unfold lnode, w'. simpl. rewrite Hm by done. destruct (nodes w !! x); [| done]. simpl.
    by case_decide. }
  assert (Hln : forall x, lnode w' x = upd (upd (lnode w) a None) a (Some (i, p)) x).
  { intros x. destruct (decide (x = a)) as [-> | Hx]; unfold upd.
    - rewrite !decide_True by done. unfold lnode, w'. simpl. by rewrite Hma.
    - rewrite !decide_False by done. by apply Hother. }
  assert (Hna : upd (lnode w) a None a = None) by (unfold upd; by rewrite decide_True).
  split; try done.
  - split; simpl; try done. by rewrite length_insert.
  - intros x. destruct (decide (x = a)) as [-> | Hx]; unfold hnode, w'; simpl; [by rewrite Hma, Hn |].
    rewrite Hm by done. destruct (nodes w !! x); [| done]. simpl. by case_decide.
  - intros x. destruct (decide (x = a)) as [-> | Hx]; unfold ndata, w'; simpl; [by rewrite Hma, Hn |].
    rewrite Hm by done. destruct (nodes w !! x); [| done]. simpl. by case_decide.
  - intros x Hx. unfold core, w'. simpl. rewrite Hm by done. destruct (nodes w !! x); [| done]. simpl.
    by case_decide.
  - unfold w'. simpl. by rewrite Hma.
  - apply set_eq. intros x. rewrite !elem_of_dom. unfold w'. simpl.
    destruct (decide (x = a)) as [-> | Hx]; [rewrite Hma, Hn; done |]. rewrite Hm by done. by rewrite fmap_is_Some.
  - eapply lists_ext; [exact Hlh | exact Hln |]. by apply lists_push.
  - eapply prev_ok_ext; [exact Hlh | exact Hln | done |].
    apply (doubly_push_prev (lhead w) (upd (lnode w) a None) (lprev w)); try done.
    + unfold lprev, w'. simpl. rewrite Hma. simpl. by rewrite Hpn.
    + intros x Hx [y Hxn]. unfold upd in Hxn. rewrite decide_False in Hxn by done.
      apply fmap_Some in Hxn as (z & Ez & _). unfold lprev, w'. simpl. rewrite Hm, Ez by done. simpl.
      by case_decide.
Qed.

(** ** Taking a node out of its bucket *)

(** Everything but the bucket link. *)
Definition lcore (w : timer_wheel) (a : addr) : option (Z * timespec * nat * addr * addr) :=
  (fun n => (node_fd n, deadline n, slot n, slot_previous n, slot_next n)) <$> nodes w !! a.

Record bucket_unlinked (w w' : timer_wheel) (a : addr) : Prop := {
  bu_same : same_wheel w w';
  bu_slots : slots w' = slots w;
  bu_lcore x : lcore w' x = lcore w x;
  bu_dom : dom (nodes w') = dom (nodes w);
  bu_lists : lists (hhead w') (upd (hnode w') a None)
}.

Lemma hnode_heap w a : is_Some (hnode w a) -> is_Some (nodes w !! a).
Proof. intros [? Ha]. by apply fmap_Some in Ha as (n & -> & _). Qed.
Lemma h_next_of w a : h_next w a = next_of (hnode w) a.
Proof. unfold h_next, next_of, hnode. by destruct (nodes w !! a). Qed.

Lemma unlink_hash_unlinked w a n :
  lists (hhead w) (hnode w) -> nodes w !! a = Some n ->
  exists w', unlink_hash w a = Ret w' /\ bucket_unlinked w w' a.
Proof.
  intros Hl Hn.
  assert (Ha : hnode w a = Some (timer_hash_fd (node_fd n), node_hash_next n))
    by (unfold hnode; by rewrite Hn).
  destruct (lists_home _ _ Hl _ _ _ Ha) as [p Hk]. pose proof (lookup_lt_Some _ _ _ Hk) as Hlt.
  destruct (lists_walk_link (nodes w) (hhead w) (hnode w) (h_next w)
    (fun x => Some (bool_decide (x = a))) (fun x => bool_decide (x = a)) _ _
    Hl Hk (hnode_heap w) (h_next_of w)) as (lk & r & Hw & Hcase); [done |].
  destruct Hcase as [[-> Hno] | (Hnull & Hf & q & Hq & Hg & Hl')].
  { specialize (Hno a _ Ha). zbool. done. }
  zbool. subst r. rewrite Ha in Hq. injection Hq as <-.
  unfold unlink_hash. rewrite Hn. cbn [deref mbind outcome_bind]. unfold hhead in Hk. rewrite Hk.
  cbn [deref mbind outcome_bind]. rewrite Hw. cbn [mbind outcome_bind].
  rewrite bool_decide_eq_true_2 by done. destruct lk as [| b].
  - rewrite write_bucket_Ret by done. eexists. split; [done |].
    split; simpl; try done; [split; simpl; try done; by rewrite length_insert |].
    eapply lists_ext; [| | exact Hl']; [| done]. intros k. unfold head_after, hhead, upd. simpl.
    case_decide; [subst; by rewrite list_lookup_insert_eq | by rewrite list_lookup_insert_ne].
  - destruct (Hg b eq_refl) as (Hne & qb & Hb). apply fmap_Some in Hb as (nb & Hb & [= Hk' _]).
    rewrite (write_node_Ret _ _ nb) by done. eexists. split; [done |]. split; simpl; try done.
    + intros x. destruct (decide (x = b)) as [-> |]; unfold lcore; simpl; by simplify_map_eq.
    + apply dom_insert_lookup_L. eauto.
    + eapply lists_ext; [| | exact Hl']; [done |]. intros x. unfold node_after, upd, hnode. simpl.
      case_decide; [done |]. destruct (decide (x = b)) as [-> |]; simplify_map_eq; [| done]. by rewrite Hk'.
Qed.

(** ** Representation *)

Definition slot_data (w : timer_wheel) (a : addr) : option (nat * timespec) :=
  (fun n => (slot n, deadline n)) <$> nodes w !! a.

Record wheel_rep (w : timer_wheel) (D : gmap Z timespec) : Prop := {
  wr_timeout : 0 < timeout_seconds w < u32_mod;
  wr_slot_count : slot_count w = timeout_seconds w + 1;
  wr_slots : Z.of_nat (length (slots w)) = slot_count w;
  wr_buckets : Z.of_nat (length (wheel_fd_buckets w)) = TIMER_FD_BUCKET_COUNT;
  wr_hash : lists (hhead w) (hnode w);
  wr_lists : lists (lhead w) (lnode w);
  wr_prev : prev_ok (lhead w) (lnode w) (lprev w);
  wr_slot a i d : slot_data w a = Some (i, d) -> i = slot_index w (tick_of d);
  wr_data : keyed (ndata w) D;
  wr_size : wheel_size w = Z.of_nat (size D);
  wr_fd fd d : D !! fd = Some d -> is_fd fd /\ good_deadline d
}.

Lemma lcore_views w w' x : lcore w' x = lcore w x ->
  lnode w' x = lnode w x /\ lprev w' x = lprev w x /\ ndata w' x = ndata w x /\ slot_data w' x = slot_data w x.
Proof.
  unfold lcore, lnode, lprev, ndata, slot_data. destruct (nodes w' !! x), (nodes w !! x); simpl;
    intros; simplify_eq; split_and!; congruence.
Qed.
Lemma core_slot_data w w' x : core w' x = core w x -> slot_data w' x = slot_data w x.
Proof. unfold core, slot_data. destruct (nodes w' !! x), (nodes w !! x); simpl; congruence. Qed.

Lemma slot_index_same w w' t : slot_count w' = slot_count w -> slot_index w' t = slot_index w t.
Proof. intros Hs. unfold slot_index. by rewrite Hs. Qed.

Lemma same_wheel_trans w1 w2 w3 : same_wheel w1 w2 -> same_wheel w2 w3 -> same_wheel w1 w3.
Proof. intros [] []. split; congruence. Qed.

(** The memory after [discard]: [a] is gone, the rest is as before up to links. *)
Record discarded (w w' : timer_wheel) (a : addr) (n : timer_node) : Prop := {
  di_current : current_second w' = current_second w;
  di_slot_count : slot_count w' = slot_count w;
  di_timeout : timeout_seconds w' = timeout_seconds w;
  di_size : wheel_size w' = u64 (wheel_size w - 1);
  di_slots : length (slots w') = length (slots w);
  di_buckets : length (wheel_fd_buckets w') = length (wheel_fd_buckets w);
  di_lnode x : x <> a -> x <> slot_previous n -> lnode w' x = lnode w x;
  di_ndata x : ndata w' x = upd (ndata w) a None x;
  di_slot_data x : slot_data w' x = upd (slot_data w) a None x;
  di_dom : dom (nodes w') = dom (nodes w) ∖ {[a]};
  di_hash : lists (hhead w') (hnode w');
  di_lists : lists (lhead w') (lnode w');
  di_prev : prev_ok (lhead w') (lnode w') (lprev w')
}.

(** Freeing a node that hangs nowhere any more. *)
Lemma free_discarded w w1 w2 a n :
  slot_unlinked w w1 a n -> bucket_unlinked w1 w2 a ->
  discarded w (set_wheel_size (set_nodes w2 (delete a (nodes w2))) (u64 (wheel_size w2 - 1))) a n.
Proof.
  intros [Hs1 Hb1 Hc1 Hn1 Hd1 [Hl1 Hp1] Hln1] [Hs2 Hsl2 Hlc2 Hd2 Hh2].
  pose proof (same_wheel_trans _ _ _ Hs1 Hs2) as [].
  set (w3 := set_wheel_size _ _).
  assert (Hview : forall {T} (f : timer_node -> T) x,
    f <$> nodes w3 !! x = upd (fun x => f <$> nodes w2 !! x) a None x).
  { intros T f x. unfold w3, upd. simpl. case_decide; [subst; by rewrite lookup_delete_eq |].
    by rewrite lookup_delete_ne. }
  assert (Hlast : forall x, lnode w2 x = lnode w1 x /\ lprev w2 x = lprev w1 x /\
            ndata w2 x = ndata w1 x /\ slot_data w2 x = slot_data w1 x) by (intros x; by apply lcore_views).
  assert (Hlh : forall k, lhead w3 k = lhead w1 k) by (intros k; unfold lhead, w3; simpl; by rewrite Hsl2).
  assert (Hln : forall x, lnode w3 x = upd (lnode w1) a None x).
  { intros x. unfold lnode at 1. rewrite Hview. unfold upd. case_decide; [done |]. apply Hlast. }
  split; simpl; try congruence.
  - intros x Hx Hxp. rewrite Hln. unfold upd. rewrite decide_False by done. by apply Hln1.
  - intros x. unfold ndata at 1. rewrite Hview. unfold upd. case_decide; [done |].
    transitivity (ndata w1 x); [apply Hlast | by apply core_ndata].
  - intros x. unfold slot_data at 1. rewrite Hview. unfold upd. case_decide; [done |].
    transitivity (slot_data w1 x); [apply Hlast | by apply core_slot_data].
  - rewrite dom_delete_L. by rewrite Hd2, Hd1.
  - eapply lists_ext; [| | exact Hh2]; [done |]. intros x. unfold hnode at 1. by rewrite Hview.
  - by eapply lists_ext; [exact Hlh | exact Hln |].
  - eapply prev_ok_ext; [exact Hlh | exact Hln | | exact Hp1].
    intros x [? Hx]. unfold lprev at 1. rewrite Hview. unfold upd in *. case_decide; [done |]. apply Hlast.
Qed.

Lemma rep_fds_bound w D : wheel_rep w D -> Z.of_nat (size D) <= int_max + 1.
Proof. intros Hr. apply fds_bound. intros fd d Hd. by apply (wr_fd _ _ Hr) in Hd as [? _]. Qed.

Lemma node_lookup w D a n :
  wheel_rep w D -> nodes w !! a = Some n -> D !! node_fd n = Some (deadline n).
Proof. intros Hr Hn. apply (wr_data _ _ Hr). exists a. unfold ndata. by rewrite Hn. Qed.

Lemma discarded_rep w w' D a n :
  wheel_rep w D -> nodes w !! a = Some n -> discarded w w' a n -> wheel_rep w' (delete (node_fd n) D).
Proof.
  intros Hr Hn []. pose proof (rep_fds_bound _ _ Hr). pose proof (node_lookup _ _ _ _ Hr Hn) as Hold.
  assert (Hpos : (size D <> 0)%nat).
  { intros He. apply map_size_empty_inv in He. by rewrite He, lookup_empty in Hold. }
  split; rewrite ?di_slot_count0, ?di_timeout0, ?di_slots0, ?di_buckets0; try apply Hr; try done.
  - intros x i d. rewrite di_slot_data0. unfold upd. case_decide; [done |]. intros Hx.
    rewrite (slot_index_same w w') by done. by apply (wr_slot _ _ Hr) in Hx.
  - eapply keyed_ext; [exact di_ndata0 |]. eapply keyed_delete; [apply Hr |]. unfold ndata. by rewrite Hn.
  - rewrite di_size0, (wr_size _ _ Hr), map_size_delete, Hold. simpl. unfold u64.
    rewrite Z.mod_small; unfold int_max, u64_mod in *; lia.
  - intros fd d. rewrite lookup_delete_Some. intros [_ Hd]. by apply (wr_fd _ _ Hr).
Qed.

Lemma discard_rep w D a n :
  wheel_rep w D -> nodes w !! a = Some n ->
  exists w', discard w a = Ret w' /\ wheel_rep w' (delete (node_fd n) D) /\ discarded w w' a n.
Proof.
  intros Hr Hn.
  destruct (unlink_slot_unlinked w a n (wr_lists _ _ Hr) (wr_prev _ _ Hr) Hn) as (w1 & Hw1 & Hu).
  assert (Hh1 : lists (hhead w1) (hnode w1)).
  { eapply lists_ext; [| | apply (wr_hash _ _ Hr)].
    - intros k. unfold hhead. by rewrite (un_buckets _ _ _ _ Hu).
    - intros x. apply core_hnode, (un_core _ _ _ _ Hu). }
  destruct (unlink_hash_unlinked w1 a _ Hh1 (un_node _ _ _ _ Hu)) as (w2 & Hw2 & Hv).
  assert (Hn2 : is_Some (nodes w2 !! a)).
  { apply elem_of_dom. rewrite (bu_dom _ _ _ Hv), (un_dom _ _ _ _ Hu). apply elem_of_dom. by rewrite Hn. }
  unfold discard. rewrite Hw1. cbn [mbind outcome_bind]. rewrite Hw2. cbn [mbind outcome_bind].
  unfold free_node. destruct Hn2 as [n2 Hn2]. rewrite Hn2. cbn [deref mbind outcome_bind].
  pose proof (free_discarded _ _ _ _ _ Hu Hv) as Hd.
  eexists. split; [done |]. split; [| exact Hd]. by eapply discarded_rep.
Qed.

(** ** Lookup *)

Lemma timer_hash_fd_range fd : (timer_hash_fd fd < Z.to_nat TIMER_FD_BUCKET_COUNT)%nat.
Proof.
  unfold timer_hash_fd. apply Z2Nat.inj_lt; [apply Z.mod_pos_bound; done | done |]. by apply Z.mod_pos_bound.
Qed.

Lemma wheel_bucket w D fd :
  wheel_rep w D -> exists p, wheel_fd_buckets w !! timer_hash_fd fd = Some p.
Proof.
  intros Hr. apply lookup_lt_is_Some. pose proof (wr_buckets _ _ Hr). pose proof (timer_hash_fd_range fd). lia.
Qed.

Lemma slot_index_range w D t : wheel_rep w D -> (slot_index w t < length (slots w))%nat.
Proof.
  intros Hr. pose proof (wr_slots _ _ Hr). pose proof (wr_slot_count _ _ Hr). pose proof (wr_timeout _ _ Hr).
  unfold slot_index. pose proof (Z.mod_pos_bound (u64 t) (slot_count w)). lia.
Qed.

Lemma find_node_rep w D fd :
  wheel_rep w D ->
  match D !! fd with
  | None => find_node w fd = Ret NULL
  | Some d => exists a n, find_node w fd = Ret a /\ a <> NULL /\ nodes w !! a = Some n /\
                node_fd n = fd /\ deadline n = d
  end.
Proof.
  intros Hr. destruct (wheel_bucket _ _ fd Hr) as [p Hp].
  unfold find_node. rewrite Hp. cbn [deref mbind outcome_bind].
  destruct (lists_walk (nodes w) (hhead w) (hnode w) (h_next w)
    (fun a => (fun n => node_fd n =? fd) <$> nodes w !! a)
    (fun a => default false ((fun n => node_fd n =? fd) <$> nodes w !! a)) _ _
    (wr_hash _ _ Hr) Hp (hnode_heap w) (h_next_of w)) as (r & Hw & Hcase).
  { intros a q Ha. apply fmap_Some in Ha as (b & Hb & _). by rewrite Hb. }
  rewrite Hw. destruct Hcase as [[-> Hno] | (Hnull & Hf & q & Hq)].
  - destruct (D !! fd) as [d |] eqn:Ed; [| done].
    apply (wr_data _ _ Hr) in Ed as (a & Ha). apply fmap_Some in Ha as (n & Hn & [= -> ->]).
    specialize (Hno a (node_hash_next n)). unfold hnode in Hno. rewrite Hn in Hno. simpl in Hno.
    specialize (Hno eq_refl). zbool. congruence.
  - destruct (nodes w !! r) as [n |] eqn:Hn; [| done]. simpl in Hf. zbool.
    pose proof (node_lookup _ _ _ _ Hr Hn) as HD. rewrite Hf in HD. rewrite HD. exists r, n. done.
Qed.

(** ** Removing *)

Lemma timer_wheel_remove_rep w D fd :
  wheel_rep w D -> exists w', timer_wheel_remove w fd = Ret w' /\ wheel_rep w' (delete fd D) /\
    current_second w' = current_second w /\ timeout_seconds w' = timeout_seconds w.
Proof.
  intros Hr. unfold timer_wheel_remove. pose proof (find_node_rep w D fd Hr) as Hf.
  destruct (D !! fd) as [d |] eqn:Ed.
  - assert (Hneg : (fd <? 0) = false) by (apply (wr_fd _ _ Hr) in Ed as [[] _]; lia). rewrite Hneg.
    destruct Hf as (a & n & -> & Hnull & Hn & <- & _). cbn [mbind outcome_bind].
    rewrite bool_decide_eq_false_2 by done.
    destruct (discard_rep w D a n Hr Hn) as (w' & -> & Hr' & Hd). exists w'.
    split_and!; [done | done | apply Hd | apply Hd].
  - rewrite delete_id by done. rewrite Hf. exists w. by destruct (fd <? 0).
Qed.

(** ** Tracking and touching *)

(** The deadline given by a call at [now], and the times at which it fits. *)
Definition due (timeout : Z) (now : timespec) : timespec :=
  {| tv_sec := tv_sec now + timeout; tv_nsec := tv_nsec now |}.
Definition good_now (now : timespec) : Prop :=
  0 <= tv_sec now < 2 ^ 62 /\ 0 <= tv_nsec now < 1000000000.

Lemma due_good timeout now : 0 < timeout < u32_mod -> good_now now -> good_deadline (due timeout now).
Proof.
  unfold good_now, good_deadline, due, tick_of, TIME_MAX, u32_mod. simpl.
  intros ? [? ?]. destruct (negb _); lia.
Qed.

Lemma deadline_from_Ret w now :
  0 < timeout_seconds w < u32_mod -> good_now now -> deadline_from w now = Ret (due (timeout_seconds w) now).
Proof.
  intros Ht [Hn _]. unfold deadline_from, time_add.
  rewrite (proj2 (Z.ltb_ge _ _)); [done |]. unfold TIME_MAX, u32_mod in *. lia.
Qed.

(** A descriptor in range, hung in both lists. *)
Lemma hung_rep w w' D a fd d n :
  slot_linked w w' a n -> node_fd n = fd -> deadline n = d -> nodes w !! a = Some n ->
  0 < timeout_seconds w < u32_mod -> slot_count w = timeout_seconds w + 1 ->
  Z.of_nat (length (slots w)) = slot_count w ->
  Z.of_nat (length (wheel_fd_buckets w)) = TIMER_FD_BUCKET_COUNT ->
  lists (hhead w) (hnode w) ->
  (forall x i d, x <> a -> slot_data w x = Some (i, d) -> i = slot_index w (tick_of d)) ->
  keyed (ndata w) D -> wheel_size w = Z.of_nat (size D) ->
  (forall fd d, D !! fd = Some d -> is_fd fd /\ good_deadline d) ->
  wheel_rep w' D.
Proof.
  intros [] Hfd Hd Hn Ht Hsc Hsl Hb Hh Hslot Hk Hsz Hf. destruct li_same0.
  split; rewrite ?sw_timeout0, ?sw_slot_count0, ?sw_slots0, ?sw_buckets0, ?sw_size0; try done.
  - eapply lists_ext; [| exact li_hnode0 | exact Hh]. intros k. unfold hhead. by rewrite li_buckets0.
  - intros x i e Hx. rewrite (slot_index_same w w') by done. destruct (decide (x = a)) as [-> | Hne].
    + pose proof (li_ndata0 a) as Hnd. unfold ndata in Hnd. rewrite Hn in Hnd.
      unfold slot_data in Hx. apply fmap_Some in Hx as (y & Hy & [= -> ->]).
      rewrite Hy in Hnd, li_slot0. simpl in *. injection Hnd as Hf1 He. rewrite He. congruence.
    + apply (Hslot x i e Hne). by rewrite <- (core_slot_data w w' x (li_core0 x Hne)).
  - by eapply keyed_ext.
Qed.

(** The memory after a node has moved to the slot of the deadline [d]. *)
Record rehung (w w' : timer_wheel) (a : addr) (n : timer_node) (d : timespec) : Prop := {
  rh_current : current_second w' = current_second w;
  rh_slot_count : slot_count w' = slot_count w;
  rh_timeout : timeout_seconds w' = timeout_seconds w;
  rh_dom : dom (nodes w') = dom (nodes w);
  rh_lnode x : x <> a -> x <> slot_previous n -> lnode w' x = lnode w x;
  rh_ndata x : ndata w' x = upd (ndata w) a (Some (node_fd n, d)) x
}.

Lemma rehang_rep w D a n d :
  wheel_rep w D -> nodes w !! a = Some n -> good_deadline d ->
  exists w1, unlink_slot w a = Ret w1 /\ timeout_seconds w1 = timeout_seconds w /\
    nodes w1 !! a = Some (set_slot_next NULL (set_slot_previous NULL n)) /\
  exists w3, (w2 ← write_node w1 a (set_deadline d); link_slot w2 a) = Ret w3 /\
    wheel_rep w3 (<[node_fd n := d]> D) /\ rehung w w3 a n d.
Proof.
  intros Hr Hn Hd.
  destruct (unlink_slot_unlinked w a n (wr_lists _ _ Hr) (wr_prev _ _ Hr) Hn) as (w1 & Hw1 & Hu).
  pose proof (node_lookup _ _ _ _ Hr Hn) as Hold.
  exists w1. destruct Hu as [[] Hb Hc Hn1 Hdom [Hl1 Hp1] Hln1].
  split_and!; [done | done | done |].
  rewrite (write_node_Ret _ _ _ _ Hn1). cbn [mbind outcome_bind].
  set (n2 := set_deadline d _). set (w2 := set_nodes w1 _).
  assert (Hnull : a <> NULL).
  { eapply (lists_not_null _ _ _ _ _ (wr_lists _ _ Hr)). unfold lnode. by rewrite Hn. }
  assert (Hother : forall x, x <> a -> nodes w2 !! x = nodes w1 !! x)
    by (intros x Hx; unfold w2; simpl; by rewrite lookup_insert_ne).
  assert (Hidx : slot_index w2 (tick_of d) = slot_index w (tick_of d)) by (apply slot_index_same; done).
  destruct (link_slot_linked w2 a n2) as (w3 & Hw3 & Hli); [| done | by simplify_map_eq | done | done | |].
  { split.
    - eapply lists_ext; [| | exact Hl1]; [done |]. intros x. unfold upd. case_decide; [done |].
      unfold lnode. by rewrite Hother.
    - eapply prev_ok_ext; [| | | exact Hp1]; [done | |].
      + intros x. unfold upd. case_decide; [done |]. unfold lnode. by rewrite Hother.
      + intros x [? Hx]. unfold upd in Hx. case_decide; [done |]. unfold lprev. by rewrite Hother. }
  { simpl. rewrite Hidx, sw_slots0. by eapply slot_index_range. }
  exists w3. split; [done |].
  assert (Hnd2 : forall x, ndata w2 x = upd (ndata w) a (Some (node_fd n, d)) x).
  { intros x. unfold upd. case_decide as Hx.
    - subst. unfold ndata, w2. simpl. by simplify_map_eq.
    - unfold ndata at 1. rewrite Hother by done. apply core_ndata, Hc. }
  split.
  - eapply (hung_rep w2 w3 _ a (node_fd n) d n2 Hli); try done; simpl; try congruence.
    + by simplify_map_eq.
    + rewrite sw_timeout0. apply Hr.
    + rewrite sw_timeout0, sw_slot_count0. apply Hr.
    + rewrite sw_slots0, sw_slot_count0. apply Hr.
    + rewrite Hb. apply Hr.
    + eapply lists_ext; [| | apply (wr_hash _ _ Hr)].
      * intros k. unfold hhead. simpl. by rewrite Hb.
      * intros x. destruct (decide (x = a)) as [-> | Hx].
        { unfold hnode, w2. simpl. rewrite Hn. by simplify_map_eq. }
        { unfold hnode at 1. rewrite Hother by done. apply core_hnode, Hc. }
    + intros x i e Hx Hsd. rewrite (slot_index_same w w2) by done.
      apply (wr_slot _ _ Hr x). rewrite <- Hsd. unfold slot_data at 2. rewrite Hother by done.
      symmetry. apply core_slot_data, Hc.
    + eapply keyed_ext; [exact Hnd2 |]. eapply keyed_update; [apply Hr |]. unfold ndata. by rewrite Hn.
    + rewrite sw_size0, (wr_size _ _ Hr), map_size_insert, Hold. done.
    + intros f e. rewrite lookup_insert_Some. intros [[<- <-] | [_ He]]; [| by apply (wr_fd _ _ Hr)].
      split; [| done]. by apply (wr_fd _ _ Hr) in Hold as [? _].
  - destruct Hli as [[] ? ? Hnd3 ? ? Hdom3 ? ? Hln3]. split; simpl in *; try congruence.
    + rewrite Hdom3. unfold w2. simpl. rewrite <- Hdom. apply dom_insert_lookup_L. eauto.
    + intros x Hx Hxp. rewrite Hln3 by done. transitivity (lnode w1 x); [| by apply Hln1].
      unfold lnode. by rewrite Hother.
Qed.

Lemma timer_wheel_touch_at_rep w D fd now :
  wheel_rep w D -> (bad_nsec now = false -> good_now now) ->
  match (if bad_nsec now then None else D !! fd) with
  | None => timer_wheel_touch_at w fd now = Ret (-1, w)
  | Some _ => exists w', timer_wheel_touch_at w fd now = Ret (0, w') /\
                wheel_rep w' (<[fd := due (timeout_seconds w) now]> D) /\
                current_second w' = current_second w /\ timeout_seconds w' = timeout_seconds w
  end.
Proof.
  intros Hr Hnow. unfold timer_wheel_touch_at. destruct (bad_nsec now) eqn:Eb; [done |].
  specialize (Hnow eq_refl). pose proof (find_node_rep w D fd Hr) as Hf.
  destruct (D !! fd) as [d |] eqn:Ed; [| by rewrite Hf].
  destruct Hf as (a & n & -> & Hnull & Hn & <- & _). cbn [mbind outcome_bind].
  rewrite bool_decide_eq_false_2 by done.
  pose proof (due_good _ _ (wr_timeout _ _ Hr) Hnow) as Hgd.
  destruct (rehang_rep w D a n _ Hr Hn Hgd) as (w1 & -> & Ht1 & Hn1 & w3 & Hw3 & Hr3 & Hh).
  cbn [mbind outcome_bind]. rewrite deadline_from_Ret; [| rewrite Ht1; apply Hr | done].
  cbn [mbind outcome_bind]. rewrite Ht1. rewrite (write_node_Ret _ _ _ _ Hn1) in *.
  cbn [mbind outcome_bind] in *. rewrite Hw3. exists w3.
  split_and!; [done | done | apply Hh | apply Hh].
Qed.

(** What [calloc] promises. *)
Definition fresh_node (w : timer_wheel) (a : addr) : Prop := a <> NULL /\ nodes w !! a = None.

Lemma track_locked_rep w D alloc fd now :
  wheel_rep w D -> is_fd fd -> good_now now -> (forall a, alloc = Some a -> fresh_node w a) ->
  match D !! fd, alloc with
  | None, Some _ => exists w', track_locked w alloc fd now = Ret (0, w') /\
                      wheel_rep w' (<[fd := due (timeout_seconds w) now]> D) /\
                      current_second w' = current_second w /\ timeout_seconds w' = timeout_seconds w
  | _, _ => track_locked w alloc fd now = Ret (-1, w)
  end.
Proof.
  intros Hr Hfd Hnow Hfresh. unfold track_locked. pose proof (find_node_rep w D fd Hr) as Hf.
  destruct (D !! fd) as [d |] eqn:Ed.
  { destruct Hf as (a & n & -> & Hnull & _). cbn [mbind outcome_bind]. by rewrite bool_decide_eq_true_2. }
  rewrite Hf. cbn [mbind outcome_bind]. rewrite bool_decide_eq_false_2 by (intros []; done).
  destruct alloc as [a |]; [| done]. destruct (Hfresh a eq_refl) as [Hnull Ha].
  rewrite deadline_from_Ret by (done || apply Hr). cbn [mbind outcome_bind].
  destruct (wheel_bucket _ _ fd Hr) as [p Hp]. rewrite Hp. cbn [deref mbind outcome_bind].
  pose proof (lookup_lt_Some _ _ _ Hp) as Hlt.
  set (d := due _ _). set (n := {| node_fd := fd; deadline := d; slot := 0; slot_previous := NULL;
    slot_next := NULL; node_hash_next := p |}).
  rewrite write_bucket_Ret by done. cbn [mbind outcome_bind].
  set (w1 := set_wheel_fd_buckets _ _).
  pose proof (due_good _ _ (wr_timeout _ _ Hr) Hnow) as Hgd. fold d in Hgd.
  assert (Hview : forall {T} (f : timer_node -> T) x, f <$> nodes w1 !! x = upd (fun x => f <$> nodes w !! x) a (Some (f n)) x).
  { intros T f x. unfold w1, upd. simpl. case_decide; [subst; by simplify_map_eq | by simplify_map_eq]. }
  assert (Hnone : forall {T} (f : timer_node -> T), f <$> nodes w !! a = None) by (intros; by rewrite Ha).
  destruct (link_slot_linked w1 a n) as (w2 & Hw2 & Hli);
    [| done | unfold w1; simpl; by simplify_map_eq | done | done | |].
  { assert (Hln : forall x, upd (lnode w1) a None x = lnode w x).
    { intros x. unfold upd. case_decide; [subst; unfold lnode; by rewrite Hnone |].
      unfold lnode at 1. rewrite Hview. unfold upd. by rewrite decide_False. }
    split; [eapply lists_ext; [| exact Hln | apply (wr_lists _ _ Hr)]; done |].
    eapply prev_ok_ext; [| exact Hln | | apply (wr_prev _ _ Hr)]; [done |].
    intros x [? Hx]. unfold lprev at 1. rewrite Hview. unfold upd. rewrite decide_False; [done |].
    intros ->. unfold lnode in Hx. by rewrite Hnone in Hx. }
  { apply (slot_index_range _ _ (tick_of d) Hr). }
  rewrite Hw2. cbn [mbind outcome_bind]. eexists. split; [done |].
  pose proof (rep_fds_bound _ _ Hr).
  assert (Hsz : u64 (wheel_size w2 + 1) = Z.of_nat (size (<[fd := d]> D))).
  { rewrite (sw_size _ _ (li_same _ _ _ _ Hli)). simpl.
    rewrite (wr_size _ _ Hr), map_size_insert_None by done. unfold u64.
    rewrite Z.mod_small; unfold int_max, u64_mod in *; lia. }
  assert (Hr2 : wheel_rep (set_wheel_size w2 (u64 (wheel_size w2 + 1))) (<[fd := d]> D)).
  { rewrite Hsz. eapply (hung_rep (set_wheel_size w1 (Z.of_nat (size (<[fd := d]> D)))) _ _ a fd d n);
      try done; try apply Hr.
    - destruct Hli as [[]]. by split.
    - unfold w1. simpl. by simplify_map_eq.
    - simpl. rewrite length_insert. apply Hr.
    - eapply lists_ext; [| | apply (lists_push (hhead w) (hnode w) (timer_hash_fd fd) p a)];
        [| | done | unfold hnode; by rewrite Hnone | done | apply (wr_hash _ _ Hr)].
      + intros k. unfold hhead, upd. simpl. case_decide; [subst; by rewrite list_lookup_insert_eq |].
        by rewrite list_lookup_insert_ne.
      + intros x. unfold hnode at 1. by rewrite Hview.
    - intros x i e Hx Hsd. apply (wr_slot _ _ Hr x). rewrite <- Hsd. unfold slot_data at 2. simpl.
      by rewrite lookup_insert_ne.
    - eapply keyed_ext; [| apply (keyed_insert (ndata w) D a); [apply (wr_data _ _ Hr) | unfold ndata; by rewrite Hnone | done]].
      intros x. unfold ndata at 1. by rewrite Hview.
    - intros f e. rewrite lookup_insert_Some. intros [[<- <-] | [_ He]]; [done | by apply (wr_fd _ _ Hr)]. }
  split; [exact Hr2 |]. destruct (li_same _ _ _ _ Hli). done.
Qed.

(** ** Advancing *)

Definition expired (now d : timespec) : bool := timespec_compare d now <=? 0.

(** The deadlines left once [fds] have expired. *)
Definition drop_fds (fds : list Z) (D : gmap Z timespec) : gmap Z timespec :=
  filter (fun kv => kv.1 ∉ fds) D.

Lemma drop_fds_nil D : drop_fds [] D = D.
Proof. apply map_filter_id. intros. apply not_elem_of_nil. Qed.
Lemma drop_fds_cons fd fds D : drop_fds (fd :: fds) D = drop_fds fds (delete fd D).
Proof.
  apply map_eq. intros x. apply option_eq. intros d. unfold drop_fds.
  rewrite !map_lookup_filter_Some, lookup_delete_Some. simpl. rewrite elem_of_cons. naive_solver.
Qed.
Lemma drop_fds_app l1 l2 D : drop_fds (l1 ++ l2) D = drop_fds l2 (drop_fds l1 D).
Proof.
  apply map_eq. intros x. apply option_eq. intros d. unfold drop_fds.
  rewrite !map_lookup_filter_Some. simpl. rewrite elem_of_app. naive_solver.
Qed.
Lemma drop_fds_Some fds D fd d : drop_fds fds D !! fd = Some d <-> D !! fd = Some d /\ fd ∉ fds.
Proof. unfold drop_fds. by rewrite map_lookup_filter_Some. Qed.

(** The node before the current one is not among those still to visit. *)
Lemma prev_not_ahead w a n p rest :
  prev_ok (lhead w) (lnode w) (lprev w) -> nodes w !! a = Some n ->
  chain (next_of (lnode w)) p (a :: rest) -> slot_previous n ∉ rest.
Proof.
  intros Hp Hn Hc Hin. pose proof (chain_NoDup _ _ _ Hc) as Hnd. inversion_clear Hnd as [| ? ? Hna _].
  destruct Hc as (_ & Hnull & q & Hq & Hc).
  pose proof (chain_not_null _ _ _ _ Hc Hin) as Hbn.
  destruct (Hp a (slot n) (slot_next n) (slot_previous n)) as [[? _] | [_ Hb]];
    [unfold lnode; by rewrite Hn | unfold lprev; by rewrite Hn | done |].
  apply list_elem_of_split in Hin as (m1 & m2 & ->).
  destruct (chain_split _ _ _ _ _ Hc) as (q' & Hq' & Hc'). unfold next_of in Hq'. rewrite Hb in Hq'.
  injection Hq' as <-. destruct m2 as [| c m2]; [by simpl in Hc' |].
  pose proof (chain_head _ _ _ _ Hc') as ->. apply Hna. apply elem_of_app. right. right. by left.
Qed.

Lemma write_same_deadline w a n :
  nodes w !! a = Some n -> write_node w a (set_deadline (deadline n)) = Ret w.
Proof.
  intros Hn. rewrite (write_node_Ret _ _ _ _ Hn). f_equal. unfold set_nodes.
  rewrite insert_id; [by destruct w |]. by destruct n.
Qed.

Section Advance.
Context {E : Type} (expire : Z -> E -> E).
Implicit Types (e : E).

Definition expire_all (fds : list Z) e : E := foldl (fun e fd => expire fd e) e fds.

Lemma advance_slot_rep rest : forall fuel w D now e p k,
  wheel_rep w D -> chain (next_of (lnode w)) p rest ->
  (forall a, a ∈ rest -> exists q, lnode w a = Some (k, q)) -> (length rest <= fuel)%nat ->
  exists w' fds, advance_slot fuel w now expire e p = Ret (w', expire_all fds e) /\
    wheel_rep w' (drop_fds fds D) /\ current_second w' = current_second w /\
    timeout_seconds w' = timeout_seconds w /\ slot_count w' = slot_count w /\ NoDup fds /\
    (forall fd, fd ∈ fds <-> exists a d, a ∈ rest /\ ndata w a = Some (fd, d) /\ expired now d = true).
Proof.
  induction rest as [| a rest IH]; intros fuel w D now e p k Hr Hc Hk Hfuel.
  - simpl in Hc. subst. exists w, []. rewrite drop_fds_nil.
    split_and!; try done; [by destruct fuel | constructor |].
    intros fd. split; [intros H; by apply not_elem_of_nil in H |].
    intros (? & ? & H & _). by apply not_elem_of_nil in H.
  - simpl in Hfuel. destruct fuel as [| fuel]; [lia |].
    pose proof (chain_NoDup _ _ _ Hc) as Hnd. inversion_clear Hnd as [| ? ? Hna _].
    destruct (Hk a) as [q Hq]; [by left |]. pose proof Hq as Hn. apply fmap_Some in Hn as (n & Hn & [= -> ->]).
    pose proof (prev_not_ahead _ _ _ _ _ (wr_prev _ _ Hr) Hn Hc) as Hprev.
    destruct Hc as (-> & Hnull & q & Hq' & Hc). unfold next_of in Hq'. rewrite Hq in Hq'. injection Hq' as <-.
    cbn [advance_slot]. rewrite bool_decide_eq_false_2 by done. rewrite Hn. cbn [deref mbind outcome_bind].
    assert (Hnda : ndata w a = Some (node_fd n, deadline n)) by (unfold ndata; by rewrite Hn).
    assert (Hstep : forall w1, (forall x, x <> a -> x <> slot_previous n -> lnode w1 x = lnode w x) ->
      chain (next_of (lnode w1)) (slot_next n) rest /\
      (forall b, b ∈ rest -> exists q, lnode w1 b = Some (slot n, q))).
    { intros w1 Hl. assert (Hl' : forall x, x ∈ rest -> lnode w1 x = lnode w x)
        by (intros x Hx; apply Hl; congruence).
      split; [eapply chain_frame; [| exact Hc]; intros x Hx; unfold next_of; by rewrite Hl' |].
      intros b Hb. rewrite Hl' by done. apply Hk. by right. }
    fold (expired now (deadline n)). destruct (expired now (deadline n)) eqn:Ee.
    + destruct (discard_rep w D a n Hr Hn) as (w1 & -> & Hr1 & Hd). cbn [mbind outcome_bind].
      destruct (Hstep w1 (di_lnode _ _ _ _ Hd)) as [Hc1 Hk1].
      destruct (IH fuel w1 _ now (expire (node_fd n) e) _ _ Hr1 Hc1 Hk1 ltac:(lia))
        as (w' & fds & Hw' & Hr' & Hcur & Hto & Hsc & Hnd & Hin).
      assert (Hrest : forall x, x ∈ rest -> ndata w1 x = ndata w x).
      { intros x Hx. rewrite (di_ndata _ _ _ _ Hd). unfold upd. rewrite decide_False; congruence. }
      exists w', (node_fd n :: fds). rewrite Hw', drop_fds_cons, Hcur, Hto, Hsc.
      split_and!; [done | done | apply Hd | apply Hd | apply Hd | |].
      * constructor; [| done]. rewrite Hin. intros (x & d & Hx & Hxd & _). rewrite Hrest in Hxd by done.
        by rewrite (keyed_inj _ _ (wr_data _ _ Hr) _ _ _ _ _ Hxd Hnda) in Hx.
      * intros fd. rewrite elem_of_cons, Hin. split.
        { intros [-> | (x & d & Hx & Hxd & He)].
          - exists a, (deadline n). split; [by left | done].
          - exists x, d. rewrite Hrest in Hxd by done. split; [by right | done]. }
        { intros (x & d & Hx & Hxd & He). apply elem_of_cons in Hx as [-> | Hx]; [left; congruence |].
          right. exists x, d. by rewrite Hrest. }
    + destruct (wr_fd _ _ Hr _ _ (node_lookup _ _ _ _ Hr Hn)) as [_ Hgd].
      destruct (rehang_rep w D a n _ Hr Hn Hgd) as (w1 & -> & _ & Hn1 & w3 & Hw3 & Hr3 & Hh).
      rewrite insert_id in Hr3 by (by eapply node_lookup).
      pose proof (write_same_deadline w1 a _ Hn1) as Hsame. simpl in Hsame. rewrite Hsame in Hw3.
      cbn [mbind outcome_bind] in *. rewrite Hw3. cbn [mbind outcome_bind].
      destruct (Hstep w3 (rh_lnode _ _ _ _ _ Hh)) as [Hc3 Hk3].
      destruct (IH fuel w3 _ now e _ _ Hr3 Hc3 Hk3 ltac:(lia))
        as (w' & fds & Hw' & Hr' & Hcur & Hto & Hsc & Hnd & Hin).
      assert (Hall : forall x, ndata w3 x = ndata w x).
      { intros x. rewrite (rh_ndata _ _ _ _ _ Hh). unfold upd. case_decide; [by subst | done]. }
      exists w', fds. rewrite Hw', Hcur, Hto, Hsc.
      split_and!; [done | done | apply Hh | apply Hh | apply Hh | done |].
      intros fd. rewrite Hin. setoid_rewrite Hall. setoid_rewrite elem_of_cons. split.
      * intros (x & d & Hx & Hxd). exists x, d. split; [by right | done].
      * intros (x & d & [-> | Hx] & Hxd & He); [| by exists x, d]. congruence.
Qed.

(** The fds that a run over the seconds after [cur] up to [now] expires. *)
Definition expires (w : timer_wheel) (D : gmap Z timespec) (now : timespec) (fd : Z) : Prop :=
  exists d s, D !! fd = Some d /\ expired now d = true /\
    current_second w < s <= tv_sec now /\ slot_index w s = slot_index w (tick_of d).

Lemma advance_seconds_rep fuel : forall w D now e,
  wheel_rep w D -> fuel = Z.to_nat (tv_sec now - current_second w) ->
  exists w' fds, advance_seconds fuel w now expire e = Ret (w', expire_all fds e) /\
    wheel_rep w' (drop_fds fds D) /\
    current_second w' = Z.max (current_second w) (tv_sec now) /\
    timeout_seconds w' = timeout_seconds w /\ NoDup fds /\
    (forall fd, fd ∈ fds <-> expires w D now fd).
Proof.
  induction fuel as [| fuel IH]; intros w D now e Hr Hfuel; cbn [advance_seconds].
  - rewrite (proj2 (Z.ltb_ge _ _)) by lia. cbn [negb]. exists w, []. rewrite drop_fds_nil.
    split_and!; try done; [lia | constructor |].
    intros fd. split; [intros H; by apply not_elem_of_nil in H |]. intros (? & s & _ & _ & ? & _). lia.
  - rewrite (proj2 (Z.ltb_lt _ _)) by lia. cbn [negb].
    set (w1 := set_current_second w (current_second w + 1)).
    assert (Hr1 : wheel_rep w1 D) by (destruct Hr; by split).
    destruct (lookup_lt_is_Some_2 _ _ (slot_index_range w1 D (current_second w1) Hr1)) as [p Hp].
    rewrite Hp. cbn [deref mbind outcome_bind].
    destruct (lists_chain _ _ (wr_lists _ _ Hr1) _ _ Hp) as (l & Hc & Hin).
    destruct (advance_slot_rep l (size (nodes w1)) w1 D now e p _ Hr1 Hc (fun a => proj1 (Hin a)))
      as (w2 & fds1 & Hw2 & Hr2 & Hcur2 & Hto2 & Hsc2 & Hnd2 & Hin2).
    { apply NoDup_length_dom; [by eapply chain_NoDup |]. intros a Ha. apply Hin in Ha as [q Hq].
      by apply fmap_Some in Hq as (n & -> & _). }
    rewrite Hw2. cbn [mbind outcome_bind].
    destruct (IH w2 _ now (expire_all fds1 e) Hr2) as (w3 & fds2 & Hw3 & Hr3 & Hcur3 & Hto3 & Hnd3 & Hin3).
    { rewrite Hcur2. simpl. lia. }
    assert (H1 : forall fd, fd ∈ fds1 <-> exists d, D !! fd = Some d /\ expired now d = true /\
              slot_index w (current_second w + 1) = slot_index w (tick_of d)).
    { intros fd. rewrite Hin2. split.
      - intros (a & d & Ha & Hnd & He). exists d. split_and!; [apply (wr_data _ _ Hr1); eauto | done |].
        apply Hin in Ha as [q Hq]. apply fmap_Some in Hq as (n & Hn & [= Hs _]).
        unfold ndata in Hnd. rewrite Hn in Hnd. injection Hnd as _ Hd.
        pose proof (wr_slot _ _ Hr1 a (slot n) (deadline n)) as Hslot.
        unfold slot_data in Hslot. rewrite Hn in Hslot. specialize (Hslot eq_refl).
        rewrite Hd in Hslot. exact (eq_trans Hs Hslot).
      - intros (d & HD & He & Hs). apply (wr_data _ _ Hr1) in HD as [a Ha]. exists a, d. split; [| done].
        apply Hin. unfold ndata in Ha. apply fmap_Some in Ha as (n & Hn & [= -> ->]).
        pose proof (wr_slot _ _ Hr1 a (slot n) (deadline n)) as Hslot.
        unfold slot_data in Hslot. rewrite Hn in Hslot. specialize (Hslot eq_refl).
        exists (slot_next n). unfold lnode. rewrite Hn. cbn [fmap option_fmap option_map]. do 2 f_equal.
        exact (eq_trans Hslot (eq_sym Hs)). }
    assert (Hidx : forall t, slot_index w2 t = slot_index w t) by (intros t; by apply slot_index_same).
    exists w3, (fds1 ++ fds2). rewrite Hw3, drop_fds_app, Hcur3, Hto3, Hto2, Hcur2. simpl.
    split_and!; [unfold expire_all; by rewrite foldl_app | done | lia | done | |].
    + apply NoDup_app. split_and!; [done | | done]. intros fd Hfd1 Hfd2. apply Hin3 in Hfd2 as (d & s & Hd & _).
      by apply drop_fds_Some in Hd as [_ Hd].
    + intros fd. rewrite elem_of_app, H1, Hin3. unfold expires. rewrite Hcur2.
      setoid_rewrite Hidx. setoid_rewrite drop_fds_Some. setoid_rewrite H1. simpl. split.
      * intros [(d & HD & He & Hs) | (d & s & [HD Hno] & He & Hr' & Hs)].
        { exists d, (current_second w + 1). split_and!; [done | done | lia | lia | done]. }
        { exists d, s. split_and!; [done | done | lia | lia | done]. }
      * intros (d & s & HD & He & Hr' & Hs).
        destruct (decide (slot_index w (current_second w + 1) = slot_index w (tick_of d))) as [Hk | Hk];
          [left; eauto |]. right. exists d, s. split_and!; [done | | done | | lia | done].
        { intros (d' & HD' & _ & Hk'). congruence. }
        { destruct (decide (s = current_second w + 1)); [congruence | lia]. }
Qed.
End Advance.

(** ** Destruction *)

Definition without (X : gset addr) (w : timer_wheel) : timer_wheel :=
  set_nodes w (filter (fun an => an.1 ∉ X) (nodes w)).

Lemma without_lookup X w a n :
  nodes w !! a = Some n -> a ∉ X -> nodes (without X w) !! a = Some n.
Proof. intros Hn Ha. by apply map_lookup_filter_Some. Qed.

Lemma without_delete X w a :
  set_nodes (without X w) (delete a (nodes (without X w))) = without ({[a]} ∪ X) w.
Proof.
  unfold without, set_nodes. simpl. f_equal. apply map_eq. intros x. apply option_eq. intros n.
  rewrite lookup_delete_Some, !map_lookup_filter_Some. simpl. set_solver.
Qed.

Lemma free_chain_without fuel w X p l :
  chain (h_next w) p l -> (length l <= fuel)%nat -> (forall a, a ∈ l -> a ∉ X) ->
  free_chain fuel (without X w) p = Ret (without (list_to_set l ∪ X) w).
Proof.
  revert X p l. induction fuel as [| fuel IH]; intros X p [| a l] Hc Hl Hd; simpl in Hl; try lia.
  1,2: simpl in Hc; subst; simpl; by rewrite (left_id_L ∅ (∪)).
  pose proof (chain_NoDup _ _ _ Hc) as Hnd. inversion_clear Hnd as [| ? ? Hn _].
  destruct Hc as (-> & Ha & q & Hq & Hc). apply fmap_Some in Hq as (n & Hna & ->).
  assert (Hax : a ∉ X) by (apply Hd; by left).
  cbn [free_chain]. rewrite bool_decide_eq_false_2 by done.
  unfold free_node. rewrite (without_lookup _ _ _ _ Hna Hax). cbn [deref mbind outcome_bind].
  rewrite without_delete, (IH _ _ l); [| done | lia |].
  - f_equal. f_equal. simpl. set_solver.
  - intros b Hb. assert (b ∉ X) by (apply Hd; by right). set_solver.
Qed.

Lemma free_all_without w D X i :
  wheel_rep w D ->
  (forall a n, nodes w !! a = Some n -> a ∈ X <-> (timer_hash_fd (node_fd n) < i)%nat) ->
  exists Y, free_all (drop i (wheel_fd_buckets w)) (without X w) = Ret (without Y w) /\
    forall a n, nodes w !! a = Some n -> a ∈ Y.
Proof.
  intros Hr. remember (length (wheel_fd_buckets w) - i)%nat as m eqn:Em. revert X i Em.
  induction m as [| m IH]; intros X i Em HX.
  - rewrite drop_ge by lia. exists X. split; [done |]. intros a n Hn. apply (HX _ _ Hn).
    pose proof (timer_hash_fd_range (node_fd n)). pose proof (wr_buckets _ _ Hr). lia.
  - destruct (lookup_lt_is_Some_2 (wheel_fd_buckets w) i) as [p Hp]; [lia |].
    rewrite (drop_S _ _ _ Hp). cbn [free_all].
    destruct (lists_chain _ _ (wr_hash _ _ Hr) i p Hp) as (l & Hc & Hin).
    assert (Hl : forall a, a ∈ l <-> exists n, nodes w !! a = Some n /\ timer_hash_fd (node_fd n) = i).
    { intros a. rewrite Hin. unfold hnode. split.
      - intros [q Hq]. apply fmap_Some in Hq as (n & ? & [= -> ->]). eauto.
      - intros (n & -> & <-). simpl. eauto. }
    assert (Hdis : forall a, a ∈ l -> a ∉ X).
    { intros a Ha Hax. apply Hl in Ha as (n & Hn & Hh). apply (HX _ _ Hn) in Hax. lia. }
    rewrite (free_chain_without _ w X p l); [| | | done].
    + cbn [mbind outcome_bind]. apply IH; [lia |]. intros a n Hn.
      rewrite elem_of_union, elem_of_list_to_set, (HX _ _ Hn), Hl. split.
      * intros [(n' & Hn' & <-) | Hlt]; [simplify_eq |]; lia.
      * intros Hlt. destruct (decide (timer_hash_fd (node_fd n) = i)); [left; eauto | right; lia].
    + eapply chain_frame; [| exact Hc]. intros a _. apply h_next_of.
    + apply NoDup_length_dom; [by eapply chain_NoDup |]. intros a Ha.
      pose proof (Hdis _ Ha). apply Hl in Ha as (n & Hn & _). exists n. by apply without_lookup.
Qed.

(** [timer_wheel_destroy] frees every node exactly once and reads none
    after freeing it. *)
Theorem timer_wheel_destroy_frees_all w D :
  wheel_rep w D -> exists w', timer_wheel_destroy w = Ret w' /\ nodes w' = ∅.
Proof.
  intros Hr. unfold timer_wheel_destroy.
  assert (Hid : without ∅ w = w).
  { unfold without, set_nodes. destruct w. simpl. f_equal. apply map_filter_id. set_solver. }
  destruct (free_all_without w D ∅ 0 Hr) as (Y & HY & Hall); [intros a n Hn; split; [set_solver | lia] |].
  rewrite Hid, drop_0 in HY. rewrite HY. eexists. split; [done |]. simpl.
  apply map_empty. intros a. apply map_lookup_filter_None. right. intros n Hn Hno. simpl in Hno.
  apply Hno. by eapply Hall.
Qed.

(** ** Creation and histories *)

Lemma timer_wheel_create_rep timeout now w :
  0 <= timeout < u32_mod -> timer_wheel_create timeout (Some now) true = Some w ->
  wheel_rep w ∅ /\ current_second w = tv_sec now /\ timeout_seconds w = timeout.
Proof.
  unfold timer_wheel_create. intros Ht. destruct (timeout =? 0) eqn:E0; [done |]. intros [= <-]. zbool.
  split; [| done].
  assert (Hn : forall m k p, (replicate m NULL : list addr) !! k = Some p -> p = NULL)
    by (intros m k p Hp; by apply lookup_replicate in Hp as [-> _]).
  split; simpl; try done; try apply keyed_empty; try lia.
  - rewrite length_replicate. lia.
  - eapply (lists_ext (fun k => replicate 1024 NULL !! k) _ (fun _ => None)); [done | done |].
    apply lists_none. apply Hn.
  - eapply (lists_ext (fun k => replicate (Z.to_nat (timeout + 1)) NULL !! k) _ (fun _ => None)); [done | done |].
    apply lists_none. apply Hn.
Qed.

(** No pending deadline lies in a second that has already been visited. *)
Definition in_step (w : timer_wheel) (D : gmap Z timespec) : Prop :=
  forall fd d, D !! fd = Some d -> current_second w < tick_of d.

Lemma in_step_due w timeout now :
  0 < timeout -> current_second w <= tv_sec now -> current_second w < tick_of (due timeout now).
Proof. unfold tick_of, due. simpl. destruct (negb _); lia. Qed.

Lemma expired_spec now d :
  expired now d = true <->
  tv_sec d < tv_sec now \/ (tv_sec d = tv_sec now /\ tv_nsec d <= tv_nsec now).
Proof.
  unfold expired, timespec_compare.
  destruct (Z.eqb_spec (tv_sec d) (tv_sec now)), (Z.ltb_spec (tv_sec d) (tv_sec now)),
    (Z.eqb_spec (tv_nsec d) (tv_nsec now)), (Z.ltb_spec (tv_nsec d) (tv_nsec now)); simpl;
    try (split; [done | lia]); split; lia.
Qed.

(** A rounded deadline that has been reached has passed. *)
Lemma tick_expired now d :
  0 <= tv_nsec d -> 0 <= tv_nsec now -> tick_of d <= tv_sec now -> expired now d = true.
Proof.
  intros Hd Hn Ht. apply expired_spec. unfold tick_of in Ht.
  destruct (Z.eqb_spec (tv_nsec d) 0); simpl in Ht; lia.
Qed.

(** [wheel_run w]: a wheel that any sequence of calls can lead to, provided the
    clock is monotonic (no call is made at a time before the second the wheel
    has reached) and stays in range. *)
Inductive wheel_run : timer_wheel -> Prop :=
| wrun_create timeout now w :
    0 <= timeout < u32_mod -> timer_wheel_create timeout (Some now) true = Some w -> wheel_run w
| wrun_track w alloc fd now r w' :
    wheel_run w -> fd <= int_max -> current_second w <= tv_sec now -> 0 <= tv_sec now < 2 ^ 62 ->
    (forall a, alloc = Some a -> fresh_node w a) ->
    timer_wheel_track_at w alloc fd now = Ret (r, w') -> wheel_run w'
| wrun_touch w fd now r w' :
    wheel_run w -> current_second w <= tv_sec now -> 0 <= tv_sec now < 2 ^ 62 ->
    timer_wheel_touch_at w fd now = Ret (r, w') -> wheel_run w'
| wrun_remove w fd w' : wheel_run w -> timer_wheel_remove w fd = Ret w' -> wheel_run w'
| wrun_advance w now w' fds :
    wheel_run w -> 0 <= tv_nsec now ->
    timer_wheel_advance_at w now (fun fd l => l ++ [fd]) [] = Ret (w', fds) -> wheel_run w'.

Lemma bad_nsec_good now : 0 <= tv_sec now < 2 ^ 62 -> bad_nsec now = false -> good_now now.
Proof. unfold bad_nsec, good_now. intros ? ?. zbool. lia. Qed.

Lemma in_step_insert w w' D fd now :
  wheel_rep w D -> in_step w D -> current_second w' = current_second w ->
  current_second w <= tv_sec now -> in_step w' (<[fd := due (timeout_seconds w) now]> D).
Proof.
  intros Hr Hs Hc Hn f d. rewrite Hc, lookup_insert_Some. intros [[_ <-] | [_ Hd]]; [| by eapply Hs].
  apply in_step_due; [apply Hr | done].
Qed.

Lemma advance_punctual {E} (expire : Z -> E -> E) w D now e :
  wheel_rep w D -> in_step w D -> 0 <= tv_nsec now ->
  exists w' fds, timer_wheel_advance_at w now expire e = Ret (w', expire_all expire fds e) /\
    NoDup fds /\ wheel_rep w' (drop_fds fds D) /\ in_step w' (drop_fds fds D) /\
    (forall fd d, D !! fd = Some d -> tick_of d <= tv_sec now -> fd ∈ fds) /\
    (forall fd, fd ∈ fds -> exists d, D !! fd = Some d /\
       (tv_sec d < tv_sec now \/ (tv_sec d = tv_sec now /\ tv_nsec d <= tv_nsec now))).
Proof.
  intros Hr Hs Hn. unfold timer_wheel_advance_at.
  destruct (advance_seconds_rep expire _ w D now e Hr eq_refl) as (w' & fds & Hw & Hr' & Hc & _ & Hnd & Hin).
  assert (Hdue : forall fd d, D !! fd = Some d -> tick_of d <= tv_sec now -> fd ∈ fds).
  { intros fd d Hd Ht. apply Hin. exists d, (tick_of d). split_and!; [done | | by eapply Hs | done | done].
    apply tick_expired; [| done | done]. apply (wr_fd _ _ Hr) in Hd as [_ (_ & ? & _)]. done. }
  exists w', fds. split_and!; [done | done | done | | done |].
  - intros fd d Hd. apply drop_fds_Some in Hd as [Hd Hno]. rewrite Hc.
    pose proof (Hs _ _ Hd). destruct (Z.le_gt_cases (tick_of d) (tv_sec now)); [| lia].
    exfalso. by eapply Hno, Hdue.
  - intros fd Hfd. apply Hin in Hfd as (d & s & Hd & He & _). exists d. split; [done |]. by apply expired_spec.
Qed.

Lemma wheel_run_rep w : wheel_run w -> exists D, wheel_rep w D /\ in_step w D.
Proof.
  induction 1 as [timeout now w Ht Hc | w alloc fd now r w' _ (D & Hr & Hs) Hfd Hcur Hnow Hfresh Hc
    | w fd now r w' _ (D & Hr & Hs) Hcur Hnow Hc | w fd w' _ (D & Hr & Hs) Hc
    | w now w' fds _ (D & Hr & Hs) Hnow Hc].
  - apply timer_wheel_create_rep in Hc as (Hr & _); [| done]. exists ∅. split; [done |]. by intros fd d.
  - unfold timer_wheel_track_at in Hc. destruct (fd <? 0) eqn:Efd; [simplify_eq/=; eauto |].
    destruct (bad_nsec now) eqn:Eb; [simplify_eq/=; eauto |]. cbn [orb] in Hc.
    assert (Hisfd : is_fd fd) by (unfold is_fd; zbool; lia).
    pose proof (track_locked_rep w D alloc fd now Hr Hisfd (bad_nsec_good _ Hnow Eb) Hfresh) as Htr.
    destruct (D !! fd); [rewrite Htr in Hc; simplify_eq; eauto |].
    destruct alloc; [| rewrite Htr in Hc; simplify_eq; eauto].
    destruct Htr as (w1 & Hw1 & Hr1 & Hc1 & _). rewrite Hw1 in Hc. injection Hc as _ <-.
    eexists. split; [exact Hr1 | by apply in_step_insert].
  - pose proof (timer_wheel_touch_at_rep w D fd now Hr (bad_nsec_good _ Hnow)) as Hto.
    destruct (if bad_nsec now then None else D !! fd); [| rewrite Hto in Hc; simplify_eq; eauto].
    destruct Hto as (w1 & Hw1 & Hr1 & Hc1 & _). rewrite Hw1 in Hc. injection Hc as _ <-.
    eexists. split; [exact Hr1 | by apply in_step_insert].
  - destruct (timer_wheel_remove_rep w D fd Hr) as (w1 & Hw1 & Hr1 & Hc1 & _).
    rewrite Hw1 in Hc. injection Hc as <-. exists (delete fd D). split; [done |].
    intros f d Hd. rewrite Hc1. apply lookup_delete_Some in Hd as [_ Hd]. by eapply Hs.
  - destruct (advance_punctual (fun fd l => l ++ [fd]) w D now [] Hr Hs Hnow)
      as (w1 & fds1 & Hw1 & _ & Hr1 & Hs1 & _). rewrite Hw1 in Hc. injection Hc as <- _. eauto.
Qed.

(** (C22) Every reachable wheel is well formed: its two families of lists hold
    exactly the tracked descriptors, each in the slot of its deadline, [size]
    counts them, and no pending deadline lies in a second already visited. *)
Theorem wheel_run_invariant w :
  wheel_run w -> exists D, wheel_rep w D /\ in_step w D /\ timer_wheel_size w = Z.of_nat (size D).
Proof.
  intros Hrun. destruct (wheel_run_rep w Hrun) as (D & Hr & Hs). exists D. split_and!; [done | done | apply Hr].
Qed.

(** (C19) [timer_wheel_advance_at] returns after visiting every second up to
    [now] and expires, each once, exactly the descriptors whose deadline has
    passed and whose slot was visited; the others stay tracked. *)
Theorem timer_wheel_advance_exact {E} (expire : Z -> E -> E) w D now e :
  wheel_rep w D ->
  exists w' fds, timer_wheel_advance_at w now expire e = Ret (w', expire_all expire fds e) /\
    NoDup fds /\ (forall fd, fd ∈ fds <-> expires w D now fd) /\
    wheel_rep w' (drop_fds fds D) /\
    current_second w' = Z.max (current_second w) (tv_sec now).
Proof.
  intros Hr. destruct (advance_seconds_rep expire _ w D now e Hr eq_refl)
    as (w' & fds & Hw & Hr' & Hc & _ & Hnd & Hin).
  exists w', fds. done.
Qed.

(** (C20) Idle timeout: on a reachable wheel, a descriptor touched at [t0] is not
    expired by an advance before [t0 + timeout], and is expired by an advance
    in or after the second following [t0 + timeout]. *)
Theorem idle_connection_expires {E} (expire : Z -> E -> E) w D fd t0 now e :
  wheel_rep w D -> in_step w D -> is_Some (D !! fd) -> good_now t0 ->
  current_second w <= tv_sec t0 -> 0 <= tv_nsec now ->
  exists w1 w2 fds, timer_wheel_touch_at w fd t0 = Ret (0, w1) /\
    timer_wheel_advance_at w1 now expire e = Ret (w2, expire_all expire fds e) /\
    (let d := due (timeout_seconds w) t0 in
     (tv_sec now < tv_sec d \/ (tv_sec now = tv_sec d /\ tv_nsec now < tv_nsec d) -> fd ∉ fds) /\
     (tv_sec d + 1 <= tv_sec now -> fd ∈ fds)).
Proof.
  intros Hr Hs [d0 Hd0] Hgood Hcur Hnow.
  assert (Hbad : bad_nsec t0 = false).
  { unfold bad_nsec, good_now in *. apply orb_false_intro; [apply Z.ltb_ge | apply Z.leb_gt]; lia. }
  pose proof (timer_wheel_touch_at_rep w D fd t0 Hr (fun _ => Hgood)) as Hto. rewrite Hbad, Hd0 in Hto.
  destruct Hto as (w1 & Hw1 & Hr1 & Hc1 & _).
  assert (Hs1 : in_step w1 (<[fd := due (timeout_seconds w) t0]> D)) by (by apply in_step_insert).
  destruct (advance_punctual expire w1 _ now e Hr1 Hs1 Hnow) as (w2 & fds & Hw2 & _ & _ & _ & Hdue & Honly).
  exists w1, w2, fds. cbv zeta. split_and!; [done | done | |].
  - intros Hearly Hin. apply Honly in Hin as (d & Hd & Hle). rewrite lookup_insert_eq in Hd.
    injection Hd as <-. lia.
  - intros Hlate. apply (Hdue fd (due (timeout_seconds w) t0)); [apply lookup_insert_eq |].
    unfold tick_of. destruct (negb _); lia.
Qed.

(** [timer_wheel_track_and_publish]: a new descriptor is tracked with its
    deadline when [publish] accepts it; when [publish] fails the wheel tracks
    what it tracked before, and the call reports -1. *)
Theorem track_and_publish_atomic {E} (publish : Z -> E -> Z * E) w D a fd now e :
  wheel_rep w D -> is_fd fd -> good_now now -> fresh_node w a -> D !! fd = None ->
  exists w', timer_wheel_track_and_publish w (Some a) fd (Some now) publish e =
      Ret (if fst (publish fd e) =? 0 then 0 else -1, w', snd (publish fd e)) /\
    wheel_rep w' (if fst (publish fd e) =? 0 then <[fd := due (timeout_seconds w) now]> D else D).
Proof.
  intros Hr Hfd Hnow Hfresh HD. unfold timer_wheel_track_and_publish.
  rewrite (proj2 (Z.ltb_ge _ _)) by apply Hfd.
  pose proof (track_locked_rep w D (Some a) fd now Hr Hfd Hnow) as Htr. rewrite HD in Htr.
  destruct Htr as (w1 & -> & Hr1 & _); [by intros ? [= <-] |]. cbn [mbind outcome_bind].
  change (negb (0 =? 0)) with false. destruct (publish fd e) as [r e']. cbn [fst snd].
  destruct (r =? 0); cbn [negb]; [by exists w1 |].
  pose proof (find_node_rep w1 _ fd Hr1) as Hf. rewrite lookup_insert_eq in Hf.
  destruct Hf as (b & n & -> & Hnull & Hn & Hfdn & _). cbn [mbind outcome_bind].
  destruct (discard_rep w1 _ b n Hr1 Hn) as (w2 & -> & Hr2 & _). cbn [mbind outcome_bind].
  exists w2. split; [done |]. rewrite Hfdn, delete_insert_id in Hr2 by done. done.
Qed.

(** [timer_wheel_track_at], [timer_wheel_touch_at] and
    [timer_wheel_remove] implement insertion, update and removal in the map of
    deadlines, with the documented failures leaving the wheel unchanged. *)
Theorem timer_wheel_operations_refine w D alloc fd now :
  wheel_rep w D -> fd <= int_max -> 0 <= tv_sec now < 2 ^ 62 ->
  (forall a, alloc = Some a -> fresh_node w a) ->
  (match (if (fd <? 0) || bad_nsec now then Some now else D !! fd), alloc with
   | None, Some _ => exists w', timer_wheel_track_at w alloc fd now = Ret (0, w') /\
                       wheel_rep w' (<[fd := due (timeout_seconds w) now]> D)
   | _, _ => timer_wheel_track_at w alloc fd now = Ret (-1, w)
   end) /\
  (match (if bad_nsec now then None else D !! fd) with
   | None => timer_wheel_touch_at w fd now = Ret (-1, w)
   | Some _ => exists w', timer_wheel_touch_at w fd now = Ret (0, w') /\
                 wheel_rep w' (<[fd := due (timeout_seconds w) now]> D)
   end) /\
  (exists w', timer_wheel_remove w fd = Ret w' /\ wheel_rep w' (delete fd D)).
Proof.
  intros Hr Hfd Hnow Hfresh. split_and!.
  - unfold timer_wheel_track_at. destruct (fd <? 0) eqn:Efd; [done |]. destruct (bad_nsec now) eqn:Eb; [done |].
    cbn [orb]. assert (Hisfd : is_fd fd) by (unfold is_fd; zbool; lia).
    pose proof (track_locked_rep w D alloc fd now Hr Hisfd (bad_nsec_good _ Hnow Eb) Hfresh) as Htr.
    destruct (D !! fd); [done |]. destruct alloc; [| done]. destruct Htr as (w' & ? & ? & _). eauto.
  - pose proof (timer_wheel_touch_at_rep w D fd now Hr (bad_nsec_good _ Hnow)) as Hto.
    destruct (if bad_nsec now then None else D !! fd); [| done]. destruct Hto as (w' & ? & ? & _). eauto.
  - destruct (timer_wheel_remove_rep w D fd Hr) as (w' & ? & ? & _). eauto.
Qed.

(** ** A concrete wheel: a two-second timeout, descriptor 5 tracked at 10.000000007 *)

Definition t10 : timespec := {| tv_sec := 10; tv_nsec := 7 |}.
Definition demo_new : timer_wheel :=
  {| timeout_seconds := 2; slot_count := 3; current_second := 10; slots := [NULL; NULL; NULL];
     wheel_fd_buckets := replicate 1024 NULL; wheel_size := 0; nodes := ∅ |}.
Definition demo_wheel : timer_wheel :=
  match timer_wheel_track_at demo_new (Some 8%N) 5 t10 with Ret (_, w) => w | _ => demo_new end.
Definition demo_deadlines : gmap Z timespec := {[ 5 := {| tv_sec := 12; tv_nsec := 7 |} ]}.

Lemma demo_new_created : timer_wheel_create 2 (Some t10) true = Some demo_new.
Proof. reflexivity. Qed.

Lemma demo_new_rep : wheel_rep demo_new ∅.
Proof. by apply (timer_wheel_create_rep 2 t10 demo_new). Qed.

Lemma demo_tracked : timer_wheel_track_at demo_new (Some 8%N) 5 t10 = Ret (0, demo_wheel).
Proof. vm_compute. reflexivity. Qed.

Lemma demo_new_fresh a : Some 8%N = Some a -> fresh_node demo_new a.
Proof. by intros [= <-]. Qed.

Lemma demo_wheel_run : wheel_run demo_wheel.
Proof.
  apply (wrun_track demo_new (Some 8%N) 5 t10 0);
    [by apply (wrun_create 2 t10) | done | done | done | exact demo_new_fresh | exact demo_tracked].
Qed.

Lemma demo_wheel_rep : wheel_rep demo_wheel demo_deadlines /\ in_step demo_wheel demo_deadlines.
Proof.
  pose proof (track_locked_rep demo_new ∅ (Some 8%N) 5 t10 demo_new_rep) as Htr.
  rewrite lookup_empty in Htr. destruct Htr as (w' & Hw' & Hr & _); [done | done | exact demo_new_fresh |].
  pose proof demo_tracked as Hd. unfold timer_wheel_track_at in Hd. change (bad_nsec t10) with false in Hd.
  cbn [orb Z.ltb Z.compare] in Hd. rewrite Hw' in Hd. injection Hd as ->. split; [exact Hr |].
  intros fd d Hd. unfold demo_deadlines in Hd. apply lookup_singleton_Some in Hd as [<- <-]. by vm_compute.
Qed.

Lemma wheel_run_invariant_witness :
  exists D, wheel_rep demo_wheel D /\ in_step demo_wheel D /\ timer_wheel_size demo_wheel = Z.of_nat (size D).
Proof. exact (wheel_run_invariant demo_wheel demo_wheel_run). Defined.

Lemma timer_wheel_advance_exact_witness :
  exists w' fds, timer_wheel_advance_at demo_wheel {| tv_sec := 13; tv_nsec := 0 |} (fun fd l => l ++ [fd]) [] =
      Ret (w', expire_all (fun fd l => l ++ [fd]) fds []) /\
    NoDup fds /\ (forall fd, fd ∈ fds <-> expires demo_wheel demo_deadlines {| tv_sec := 13; tv_nsec := 0 |} fd) /\
    wheel_rep w' (drop_fds fds demo_deadlines) /\
    current_second w' = Z.max (current_second demo_wheel) 13.
Proof.
  exact (timer_wheel_advance_exact (fun fd l => l ++ [fd]) demo_wheel demo_deadlines
           {| tv_sec := 13; tv_nsec := 0 |} [] (proj1 demo_wheel_rep)).
Defined.

Lemma idle_connection_expires_witness :
  exists w1 w2 fds, timer_wheel_touch_at demo_wheel 5 {| tv_sec := 11; tv_nsec := 0 |} = Ret (0, w1) /\
    timer_wheel_advance_at w1 {| tv_sec := 14; tv_nsec := 0 |} (fun fd l => l ++ [fd]) [] =
      Ret (w2, expire_all (fun fd l => l ++ [fd]) fds []) /\
    (let d := due (timeout_seconds demo_wheel) {| tv_sec := 11; tv_nsec := 0 |} in
     (14 < tv_sec d \/ (14 = tv_sec d /\ 0 < tv_nsec d) -> 5 ∉ fds) /\
     (tv_sec d + 1 <= 14 -> 5 ∈ fds)).
Proof.
  apply (idle_connection_expires (fun fd l => l ++ [fd]) demo_wheel demo_deadlines 5
           {| tv_sec := 11; tv_nsec := 0 |} {| tv_sec := 14; tv_nsec := 0 |} []
           (proj1 demo_wheel_rep) (proj2 demo_wheel_rep));
    apply (bool_decide_unpack _); vm_compute; exact I.
Defined.

Lemma track_and_publish_atomic_witness :
  exists w', timer_wheel_track_and_publish demo_new (Some 8%N) 5 (Some t10) (fun fd n => (-1, n + fd)) 0 =
      Ret (-1, w', 5) /\ wheel_rep w' ∅.
Proof.
  apply (track_and_publish_atomic (fun fd n => (-1, n + fd)) demo_new ∅ 8%N 5 t10 0 demo_new_rep);
    try (apply (bool_decide_unpack _); vm_compute; exact I).
Defined.

Lemma timer_wheel_operations_refine_witness :
  (exists w', timer_wheel_track_at demo_new (Some 8%N) 5 t10 = Ret (0, w') /\
     wheel_rep w' (<[5 := due (timeout_seconds demo_new) t10]> ∅)) /\
  timer_wheel_touch_at demo_new 5 t10 = Ret (-1, demo_new) /\
  (exists w', timer_wheel_remove demo_new 5 = Ret w' /\ wheel_rep w' (delete 5 ∅)).
Proof.
  apply (timer_wheel_operations_refine demo_new ∅ (Some 8%N) 5 t10 demo_new_rep).
  - apply (bool_decide_unpack _). vm_compute. exact I.
  - apply (bool_decide_unpack _). vm_compute. exact I.
  - exact demo_new_fresh.
Defined.

Lemma timer_wheel_destroy_frees_all_witness :
  exists w', timer_wheel_destroy demo_wheel = Ret w' /\ nodes w' = ∅.
Proof. exact (timer_wheel_destroy_frees_all demo_wheel demo_deadlines (proj1 demo_wheel_rep)). Defined.
