(* ===== verification/ThreadPool.v ===== *)
(** * The worker pool ([src/server/thread_pool.c])

    The task queue is a linked list in memory.  The code between taking and
    giving up the pool's mutex is one function; threads interleave at these
    sections.  A wait on a condition variable suspends the thread until a signal
    (which wakes one waiter, whichever), a broadcast or a spurious wake-up, after
    which it re-enters its section from the top of the [while]. *)

From S2P Require Import Prelude Heap.

(** ** Data *)

(** A function pointer and its argument are opaque addresses. *)
Record task := { function : addr; arg : addr; next : addr }.

Record task_queue := { qhead : addr; qtail : addr; qsize : Z; capacity : Z }.

(** The pool and the memory of its tasks. *)
Record thread_pool := {
  thread_num : Z;
  queue : task_queue;
  shutdown : bool;
  tasks : gmap addr task
}.

Definition set_queue (p : thread_pool) (h t : addr) (n : Z) : thread_pool :=
  {| thread_num := thread_num p;
     queue := {| qhead := h; qtail := t; qsize := n; capacity := capacity (queue p) |};
     shutdown := shutdown p; tasks := tasks p |}.
Definition set_tasks (p : thread_pool) m : thread_pool :=
  {| thread_num := thread_num p; queue := queue p; shutdown := shutdown p; tasks := m |}.

(** ** Critical sections *)

Inductive worker_exit :=
| WorkerWaits            (* pthread_cond_wait(&not_empty) *)
| WorkerExits            (* break *)
| WorkerRuns (a : addr). (* a task taken from the queue *)

(** The body of the loop of [thread_worker], up to the unlock. *)
Definition worker_section (p : thread_pool) : outcome (worker_exit * thread_pool) :=
  let q := queue p in
  if (qsize q =? 0) && negb (shutdown p) then Ret (WorkerWaits, p)
  else if shutdown p && (qsize q =? 0) then Ret (WorkerExits, p)
  else
    t ← deref (tasks p !! qhead q);
    let h := next t in
    let tl := if bool_decide (h = NULL) then NULL else qtail q in
    Ret (WorkerRuns (qhead q), set_queue p h tl (qsize q - 1)).

(** [free(task)] after the call of its function. *)
Definition free_task (p : thread_pool) (a : addr) : outcome thread_pool :=
  _ ← deref (tasks p !! a);
  Ret (set_tasks p (delete a (tasks p))).

Inductive add_exit :=
| AddWaits               (* pthread_cond_wait(&not_full) *)
| AddReturns (r : Z).

(** [thread_pool_add] before it takes the mutex: [alloc] answers [malloc]. *)
Definition add_prepare (p : thread_pool) (alloc : option addr) (f x : addr) : option (addr * thread_pool) :=
  if bool_decide (f = NULL) then None
  else match alloc with
       | None => None
       | Some a => Some (a, set_tasks p (<[a := {| function := f; arg := x; next := NULL |}]> (tasks p)))
       end.

(** ... and while it holds it, with the new task at [a]. *)
Definition add_section (p : thread_pool) (a : addr) : outcome (add_exit * thread_pool) :=
  let q := queue p in
  if (qsize q =? capacity q) && negb (shutdown p) then Ret (AddWaits, p)
  else if shutdown p then p ← free_task p a; Ret (AddReturns (-1), p)
  else if bool_decide (qtail q = NULL) then Ret (AddReturns 0, set_queue p a a (qsize q + 1))
  else
    t ← deref (tasks p !! qtail q);
    let p := set_tasks p (<[qtail q := {| function := function t; arg := arg t; next := a |}]> (tasks p)) in
    Ret (AddReturns 0, set_queue p (qhead q) a (qsize q + 1)).

(** The section of [thread_pool_destroy]. *)
Definition shutdown_section (p : thread_pool) : thread_pool :=
  {| thread_num := thread_num p; queue := queue p; shutdown := true; tasks := tasks p |}.

(** [ok] is the success of the allocations and initialisations and of every
    [pthread_create]; on failure the threads already started are stopped and
    joined and nothing is left. *)
Definition thread_pool_create (n cap : Z) (ok : bool) : option thread_pool :=
  if (n <=? 0) || (cap <=? 0) || negb ok then None
  else Some {| thread_num := n;
               queue := {| qhead := NULL; qtail := NULL; qsize := 0; capacity := cap |};
               shutdown := false; tasks := ∅ |}.

(** ** The system: a pool, its workers, and calls of [thread_pool_add] *)

Inductive worker := WReady | WWaiting | WRunning (a : addr) | WDone.
Inductive producer := PReady (a : addr) | PWaiting (a : addr) | PReturned (r : Z).

#[global] Instance worker_eq_dec : EqDecision worker.
Proof. solve_decision. Defined.
#[global] Instance producer_eq_dec : EqDecision producer.
Proof. solve_decision. Defined.

Definition p_waiting (x : producer) : bool := match x with PWaiting _ => true | _ => false end.
Definition p_ready (x : producer) : bool := match x with PReady _ => true | _ => false end.
Definition p_wake (x : producer) : producer := match x with PWaiting a => PReady a | _ => x end.
Definition w_wake (x : worker) : worker := match x with WWaiting => WReady | _ => x end.

(** [accepted] and [taken] record, in order, the tasks whose add returned 0 and
    the tasks handed to workers. *)
Record system := {
  pool : thread_pool;
  workers : list worker;
  producers : list producer;
  accepted : list (addr * addr);
  taken : list (addr * addr)
}.

(** [pthread_cond_signal] *)
Definition signal {X} (waiting : X -> bool) (wake : X -> X) (l l' : list X) : Prop :=
  (Forall (fun x => waiting x = false) l /\ l' = l) \/
  (exists i x, l !! i = Some x /\ waiting x = true /\ l' = <[i := wake x]> l).

Definition w_waiting (x : worker) : bool := match x with WWaiting => true | _ => false end.
Definition w_ready (x : worker) : bool := match x with WReady => true | _ => false end.

Definition contents (t : task) : addr * addr := (function t, arg t).

Inductive pool_step : system -> system -> Prop :=
| step_wait s i p :
    workers s !! i = Some WReady -> worker_section (pool s) = Ret (WorkerWaits, p) ->
    pool_step s {| pool := p; workers := <[i := WWaiting]> (workers s); producers := producers s;
              accepted := accepted s; taken := taken s |}
| step_exit s i p :
    workers s !! i = Some WReady -> worker_section (pool s) = Ret (WorkerExits, p) ->
    pool_step s {| pool := p; workers := <[i := WDone]> (workers s); producers := producers s;
              accepted := accepted s; taken := taken s |}
| step_take s i a t p ps :
    workers s !! i = Some WReady -> worker_section (pool s) = Ret (WorkerRuns a, p) ->
    tasks p !! a = Some t -> signal p_waiting p_wake (producers s) ps ->
    pool_step s {| pool := p; workers := <[i := WRunning a]> (workers s); producers := ps;
              accepted := accepted s; taken := taken s ++ [contents t] |}
| step_finish s i a p :
    workers s !! i = Some (WRunning a) -> free_task (pool s) a = Ret p ->
    pool_step s {| pool := p; workers := <[i := WReady]> (workers s); producers := producers s;
              accepted := accepted s; taken := taken s |}
| step_spurious_worker s i :
    workers s !! i = Some WWaiting ->
    pool_step s {| pool := pool s; workers := <[i := WReady]> (workers s); producers := producers s;
              accepted := accepted s; taken := taken s |}
| step_call s alloc f x a p :
    (forall b, alloc = Some b -> b <> NULL /\ tasks (pool s) !! b = None) ->
    add_prepare (pool s) alloc f x = Some (a, p) ->
    pool_step s {| pool := p; workers := workers s; producers := producers s ++ [PReady a];
              accepted := accepted s; taken := taken s |}
| step_block s i a p :
    producers s !! i = Some (PReady a) -> add_section (pool s) a = Ret (AddWaits, p) ->
    pool_step s {| pool := p; workers := workers s; producers := <[i := PWaiting a]> (producers s);
              accepted := accepted s; taken := taken s |}
| step_add s i a t p ws :
    producers s !! i = Some (PReady a) -> tasks (pool s) !! a = Some t ->
    add_section (pool s) a = Ret (AddReturns 0, p) -> signal w_waiting w_wake (workers s) ws ->
    pool_step s {| pool := p; workers := ws; producers := <[i := PReturned 0]> (producers s);
              accepted := accepted s ++ [contents t]; taken := taken s |}
| step_refuse s i a p :
    producers s !! i = Some (PReady a) -> add_section (pool s) a = Ret (AddReturns (-1), p) ->
    pool_step s {| pool := p; workers := workers s; producers := <[i := PReturned (-1)]> (producers s);
              accepted := accepted s; taken := taken s |}
| step_spurious_producer s i a :
    producers s !! i = Some (PWaiting a) ->
    pool_step s {| pool := pool s; workers := workers s; producers := <[i := PReady a]> (producers s);
              accepted := accepted s; taken := taken s |}
| step_shutdown s :
    pool_step s {| pool := shutdown_section (pool s); workers := map w_wake (workers s);
              producers := map p_wake (producers s); accepted := accepted s; taken := taken s |}.

Definition initial (p : thread_pool) : system :=
  {| pool := p; workers := replicate (Z.to_nat (thread_num p)) WReady; producers := [];
     accepted := []; taken := [] |}.

Definition pool_reachable (s : system) : Prop :=
  exists n cap p, cap <= int_max /\ thread_pool_create n cap true = Some p /\ rtc pool_step (initial p) s.
