(* ===== verification/ThreadPoolSpec.v ===== *)
(** * Properties of the worker pool

    An inductive invariant of the interleaved system, and its consequences:
    tasks run once each, in the order they were accepted; no wake-up is lost;
    a pool that has shut down has run everything it accepted and leaks nothing. *)

From S2P Require Import Prelude Heap ThreadPool.

(** ** Counting and collecting over the threads *)

Definition num {X} (f : X -> bool) (l : list X) : nat := length (filter (fun x => f x = true) l).

Lemma num_split {X} (f : X -> bool) l i x :
  l !! i = Some x -> num f l = ((if f x then 1 else 0) + num f (delete i l))%nat.
Proof.
  unfold num. revert i. induction l as [| z l IH]; intros [| i] Hi; simpl in *; [done | done | |].
  - injection Hi as ->. rewrite filter_cons. by destruct (f x).
  - rewrite !filter_cons. destruct (f z); simpl; rewrite (IH i Hi); lia.
Qed.

Lemma delete_insert_same {X} (l : list X) i y : delete i (<[i := y]> l) = delete i l.
Proof. revert i. induction l as [| z l IH]; intros [| i]; simpl; [done.. |]. f_equal. apply IH. Qed.

Lemma num_insert {X} (f : X -> bool) l i x y :
  l !! i = Some x ->
  num f (<[i := y]> l) = ((if f y then 1 else 0) + num f (delete i l))%nat.
Proof.
  intros Hi. rewrite (num_split f (<[i := y]> l) i y).
  - by rewrite delete_insert_same.
  - apply list_lookup_insert_eq. by eapply lookup_lt_Some.
Qed.

Lemma num_pos {X} (f : X -> bool) l : (0 < num f l)%nat <-> exists x, x ∈ l /\ f x = true.
Proof.
  unfold num. split.
  - intros H. destruct (filter (fun x => f x = true) l) as [| x k] eqn:E; [simpl in H; lia |].
    exists x. assert (Hx : x ∈ filter (fun x => f x = true) l) by (rewrite E; by left).
    by apply list_elem_of_filter in Hx as [? ?].
  - intros (x & Hx & Hf). assert (Hin : x ∈ filter (fun x => f x = true) l)
      by (by apply list_elem_of_filter). destruct (filter _ l); [by apply not_elem_of_nil in Hin | simpl; lia].
Qed.

Lemma num_zero {X} (f : X -> bool) l : Forall (fun x => f x = false) l -> num f l = 0%nat.
Proof.
  intros Hf. destruct (decide (0 < num f l)%nat) as [Hp | Hp]; [| lia].
  apply num_pos in Hp as (x & Hx & Hfx). rewrite Forall_forall in Hf. by rewrite (Hf x Hx) in Hfx.
Qed.

Lemma omap_split {X} (f : X -> option addr) l i x :
  l !! i = Some x -> omap f l ≡ₚ option_list (f x) ++ omap f (delete i l).
Proof.
  revert i. induction l as [| z l IH]; intros [| i] Hi; simpl in *; [done | done | |].
  - injection Hi as ->. by destruct (f x).
  - specialize (IH i Hi). destruct (f z) as [b |]; [| done]. rewrite IH.
    by rewrite Permutation_middle.
Qed.

Lemma omap_insert_perm {X} (f : X -> option addr) l i x y :
  l !! i = Some x -> omap f (<[i := y]> l) ≡ₚ option_list (f y) ++ omap f (delete i l).
Proof.
  intros Hi. rewrite (omap_split f (<[i := y]> l) i y); [by rewrite delete_insert_same |].
  apply list_lookup_insert_eq. by eapply lookup_lt_Some.
Qed.

(** Replacing a thread state that holds the same task. *)
Lemma omap_insert_same {X} (f : X -> option addr) l i x y :
  l !! i = Some x -> f y = f x -> omap f (<[i := y]> l) ≡ₚ omap f l.
Proof. intros Hi Hf. rewrite (omap_insert_perm f l i x y Hi), (omap_split f l i x Hi). by rewrite Hf. Qed.

Definition keys {V} (m : gmap addr V) : list addr := (map_to_list m).*1.

Lemma elem_of_keys {V} (m : gmap addr V) a : a ∈ keys m <-> is_Some (m !! a).
Proof.
  unfold keys. rewrite list_elem_of_fmap. split.
  - intros ([b v] & -> & Hin). apply elem_of_map_to_list in Hin. by eexists.
  - intros [v Hv]. exists (a, v). split; [done |]. by apply elem_of_map_to_list.
Qed.
Lemma keys_insert {V} (m : gmap addr V) a v : m !! a = None -> keys (<[a := v]> m) ≡ₚ a :: keys m.
Proof. intros Ha. unfold keys. by rewrite map_to_list_insert. Qed.
Lemma keys_delete {V} (m : gmap addr V) a v : m !! a = Some v -> a :: keys (delete a m) ≡ₚ keys m.
Proof. intros Ha. unfold keys. by rewrite <- (map_to_list_delete m a v Ha). Qed.
Lemma keys_update {V} (m : gmap addr V) a v v' : m !! a = Some v -> keys (<[a := v']> m) ≡ₚ keys m.
Proof.
  intros Ha. rewrite <- (keys_delete _ _ _ Ha), <- insert_delete_eq.
  apply keys_insert. apply lookup_delete_eq.
Qed.
Lemma NoDup_keys {V} (m : gmap addr V) : NoDup (keys m).
Proof. apply NoDup_fst_map_to_list. Qed.

(** ** Signals *)

Section Signal.
Context {X : Type} (waiting ready : X -> bool) (wake : X -> X) (held : X -> option addr).
Hypothesis wake_waiting : forall x, waiting x = true -> waiting (wake x) = false.
Hypothesis wake_ready : forall x, waiting x = true -> ready (wake x) = true.
Hypothesis waiting_not_ready : forall x, waiting x = true -> ready x = false.
Hypothesis wake_held : forall x, held (wake x) = held x.

(** One waiter fewer and one ready thread more, if anyone waited. *)
Lemma signal_counts l l' :
  signal waiting wake l l' ->
  omap held l' ≡ₚ omap held l /\
  ((num waiting l = 0 /\ num waiting l' = 0 /\ num ready l' = num ready l) \/
   (num waiting l = S (num waiting l') /\ num ready l' = S (num ready l)))%nat.
Proof.
  intros [[Hf ->] | (i & x & Hi & Hx & ->)].
  - split; [done |]. left. by rewrite num_zero.
  - split; [by eapply omap_insert_same |]. right.
    rewrite !(num_insert _ _ _ _ (wake x) Hi), (num_split waiting l i x Hi), (num_split ready l i x Hi).
    rewrite Hx, (wake_waiting _ Hx), (wake_ready _ Hx), (waiting_not_ready _ Hx). lia.
Qed.
End Signal.

Lemma signal_workers l l' :
  signal w_waiting w_wake l l' ->
  ((num w_waiting l = 0 /\ num w_waiting l' = 0 /\ num w_ready l' = num w_ready l) \/
   (num w_waiting l = S (num w_waiting l') /\ num w_ready l' = S (num w_ready l)))%nat.
Proof. intros Hs. by apply (signal_counts w_waiting w_ready w_wake (fun _ => None)) in Hs as [_ ?]; try intros []. Qed.

Definition w_task (w : worker) : option addr := match w with WRunning a => Some a | _ => None end.
Definition p_task (x : producer) : option addr :=
  match x with PReady a | PWaiting a => Some a | PReturned _ => None end.

Lemma signal_workers_held l l' :
  signal w_waiting w_wake l l' -> omap w_task l' ≡ₚ omap w_task l.
Proof. intros Hs. by apply (signal_counts w_waiting w_ready w_wake w_task) in Hs as [? _]; try intros []. Qed.

Lemma signal_workers_done l l' : signal w_waiting w_wake l l' -> WDone ∈ l' -> WDone ∈ l.
Proof.
  intros [[_ ->] | (i & x & Hi & Hx & ->)]; [done |]. intros Hin.
  apply list_elem_of_lookup in Hin as [j Hj].
  apply list_lookup_insert_Some in Hj as [(_ & Hw & _) | [_ Hj]]; [by destruct x |].
  by eapply list_elem_of_lookup_2.
Qed.

Lemma signal_producers l l' :
  signal p_waiting p_wake l l' ->
  omap p_task l' ≡ₚ omap p_task l /\
  ((num p_waiting l = 0 /\ num p_waiting l' = 0 /\ num p_ready l' = num p_ready l) \/
   (num p_waiting l = S (num p_waiting l') /\ num p_ready l' = S (num p_ready l)))%nat.
Proof. intros Hs. by apply (signal_counts p_waiting p_ready p_wake p_task) in Hs; try intros []. Qed.

(** ** The invariant *)

Definition t_next (p : thread_pool) (a : addr) : option addr := next <$> tasks p !! a.

(** [l] is the queue, oldest first. *)
Record pool_inv (l : list addr) (s : system) : Prop := {
  pi_chain : chain (t_next (pool s)) (qhead (queue (pool s))) l;
  pi_tail : qtail (queue (pool s)) = default NULL (last l);
  pi_size : qsize (queue (pool s)) = Z.of_nat (length l);
  pi_cap : Z.of_nat (length l) <= capacity (queue (pool s)) <= int_max;
  pi_pos : 0 < capacity (queue (pool s));
  pi_own : l ++ omap w_task (workers s) ++ omap p_task (producers s) ≡ₚ keys (tasks (pool s));
  pi_null : tasks (pool s) !! NULL = None;
  pi_fresh a t : a ∈ omap p_task (producers s) -> tasks (pool s) !! a = Some t -> next t = NULL;
  pi_log : exists cs, accepted s = taken s ++ cs /\
             Forall2 (fun a c => contents <$> tasks (pool s) !! a = Some c) l cs;
  pi_wwait : (0 < num w_waiting (workers s) -> length l <= num w_ready (workers s))%nat;
  pi_pwait : (0 < num p_waiting (producers s))%nat ->
             capacity (queue (pool s)) - Z.of_nat (length l) <= Z.of_nat (num p_ready (producers s));
  pi_shut : shutdown (pool s) = true ->
            num w_waiting (workers s) = 0%nat /\ num p_waiting (producers s) = 0%nat;
  pi_done : WDone ∈ workers s -> shutdown (pool s) = true /\ l = []
}.

Lemma done_insert (l : list worker) (i : nat) w : w <> WDone -> WDone ∈ <[i := w]> l -> WDone ∈ l.
Proof.
  intros Hw Hin. apply list_elem_of_lookup in Hin as [j Hj].
  apply list_lookup_insert_Some in Hj as [(_ & ? & _) | [_ Hj]]; [done |]. by eapply list_elem_of_lookup_2.
Qed.

(** Counts after one thread changes state. *)
Ltac counts Hi :=
  repeat match goal with
  | H : context [num ?f (<[?i := ?y]> ?l)] |- _ => rewrite (num_insert f l i _ y Hi) in H
  | |- context [num ?f (<[?i := ?y]> ?l)] => rewrite (num_insert f l i _ y Hi)
  end;
  repeat match goal with
  | H : context [num ?f ?l] |- _ => match type of Hi with l !! ?i = Some ?x =>
      rewrite (num_split f l i x Hi) in H end
  | |- context [num ?f ?l] => match type of Hi with l !! ?i = Some ?x =>
      rewrite (num_split f l i x Hi) end
  end; simpl in *.

Lemma worker_section_cases l s :
  pool_inv l s ->
  match l with
  | [] => if shutdown (pool s) then worker_section (pool s) = Ret (WorkerExits, pool s)
          else worker_section (pool s) = Ret (WorkerWaits, pool s)
  | a :: l' => exists t, tasks (pool s) !! a = Some t /\
      worker_section (pool s) = Ret (WorkerRuns a, set_queue (pool s) (next t)
        (default NULL (last l')) (Z.of_nat (length l'))) /\ chain (t_next (pool s)) (next t) l'
  end.
Proof.
  intros []. unfold worker_section. destruct l as [| a l'].
  - rewrite pi_size0. simpl. by destruct (shutdown (pool s)).
  - destruct pi_chain0 as (-> & Hn & q & Hq & Hc). apply fmap_Some in Hq as (t & Ht & ->).
    exists t. split; [done |]. rewrite pi_size0. rewrite (proj2 (Z.eqb_neq _ _)) by (simpl; lia).
    rewrite andb_false_r. cbn [andb]. rewrite Ht. cbn [deref mbind outcome_bind]. split; [| done].
    do 3 f_equal; [| simpl length; lia]. rewrite pi_tail0. destruct l' as [| b l'].
    + simpl in Hc. rewrite Hc. by rewrite bool_decide_eq_true_2.
    + destruct Hc as (-> & Hb & _). by rewrite bool_decide_eq_false_2.
Qed.

Lemma add_section_cases l s a t :
  pool_inv l s -> tasks (pool s) !! a = Some t ->
  (shutdown (pool s) = false -> Z.of_nat (length l) = capacity (queue (pool s)) ->
   add_section (pool s) a = Ret (AddWaits, pool s)) /\
  (shutdown (pool s) = true -> add_section (pool s) a =
     Ret (AddReturns (-1), set_tasks (pool s) (delete a (tasks (pool s))))) /\
  (shutdown (pool s) = false -> Z.of_nat (length l) < capacity (queue (pool s)) ->
   exists m, add_section (pool s) a = Ret (AddReturns 0, set_queue (set_tasks (pool s) m)
        (if l is [] then a else qhead (queue (pool s))) a (Z.of_nat (length l) + 1)) /\
     (forall b, last l = Some b -> exists tb, tasks (pool s) !! b = Some tb /\
        m = <[b := {| function := function tb; arg := arg tb; next := a |}]> (tasks (pool s))) /\
     (l = [] -> m = tasks (pool s))).
Proof.
  intros [] Ha. unfold add_section, free_task. rewrite pi_size0, Ha. split_and!.
  - intros -> ->. by rewrite Z.eqb_refl.
  - intros ->. by rewrite andb_false_r.
  - intros -> Hlt. rewrite (proj2 (Z.eqb_neq _ _)) by lia. cbn [andb]. rewrite pi_tail0.
    destruct (last l) as [b |] eqn:El.
    + assert (Hbl : b ∈ l) by (apply last_Some in El as [l' ->]; apply elem_of_app; right; by left).
      change (default NULL (Some b)) with b. rewrite bool_decide_eq_false_2 by (by eapply chain_not_null).
      assert (Hb : is_Some (tasks (pool s) !! b)).
      { apply elem_of_keys. rewrite <- pi_own0. apply elem_of_app. by left. }
      destruct Hb as [tb Hb]. rewrite Hb. cbn [deref mbind outcome_bind]. eexists. split_and!.
      * destruct l; [done |]. done.
      * intros ? [= <-]. eauto.
      * intros ->. done.
    + apply last_None in El as ->. exists (tasks (pool s)). split_and!; [| done | done].
      unfold set_queue, set_tasks. simpl. by destruct (pool s).
Qed.

(** ** Preservation *)

Lemma own_NoDup l s : pool_inv l s -> NoDup (l ++ omap w_task (workers s) ++ omap p_task (producers s)).
Proof. intros []. rewrite pi_own0. apply NoDup_keys. Qed.

(** The log only depends on the contents of the queued tasks. *)
Lemma log_frame (m m' : gmap addr task) l cs :
  (forall a, a ∈ l -> contents <$> m' !! a = contents <$> m !! a) ->
  Forall2 (fun a c => contents <$> m !! a = Some c) l cs ->
  Forall2 (fun a c => contents <$> m' !! a = Some c) l cs.
Proof.
  intros Hf Hl. induction Hl as [| a c l cs Hac Hl IH]; [constructor |]. constructor.
  - rewrite Hf by (by left). done.
  - apply IH. intros b Hb. apply Hf. by right.
Qed.

(** Steps that only move a worker between the states that hold no task. *)
Lemma inv_worker l s i x y :
  pool_inv l s -> workers s !! i = Some x -> w_task x = None -> w_task y = None ->
  (w_waiting y = true -> shutdown (pool s) = false /\ l = []) ->
  (y = WDone -> shutdown (pool s) = true /\ l = []) -> (w_ready x = true \/ w_ready y = true) ->
  (w_ready x = true -> l = []) ->
  pool_inv l {| pool := pool s; workers := <[i := y]> (workers s); producers := producers s;
                accepted := accepted s; taken := taken s |}.
Proof.
  intros Hinv Hi Hx Hy Hwait Hdone Hxy Hempty. destruct Hinv. split; simpl; try done.
  - rewrite (omap_insert_same w_task (workers s) i x y Hi) by congruence. done.
  - counts Hi. destruct y, x; simpl in *; try done; try (rewrite Hempty by done; simpl; lia); try lia.
  - intros Hs. destruct (pi_shut0 Hs). split; [| done]. counts Hi.
    destruct (w_waiting y) eqn:Ey; [| destruct (w_waiting x); lia]. destruct (Hwait eq_refl). congruence.
  - intros Hd. destruct (decide (y = WDone)); [by apply Hdone |]. apply done_insert in Hd; auto.
Qed.

Lemma inv_take l s i a t ps :
  pool_inv (a :: l) s -> workers s !! i = Some WReady -> tasks (pool s) !! a = Some t ->
  chain (t_next (pool s)) (next t) l -> signal p_waiting p_wake (producers s) ps ->
  pool_inv l {| pool := set_queue (pool s) (next t) (default NULL (last l)) (Z.of_nat (length l));
                workers := <[i := WRunning a]> (workers s); producers := ps;
                accepted := accepted s; taken := taken s ++ [contents t] |}.
Proof.
  intros Hinv Hi Ha Hc Hsig. destruct Hinv.
  destruct (signal_producers _ _ Hsig) as [Hheld Hcount]. split; simpl; try done.
  - simpl in pi_cap0. lia.
  - rewrite Hheld, (omap_insert_perm w_task (workers s) i WReady (WRunning a) Hi). simpl.
    rewrite <- pi_own0, (omap_split w_task (workers s) i WReady Hi). simpl.
    symmetry. apply Permutation_middle.
  - intros b tb. rewrite Hheld. apply pi_fresh0.
  - destruct pi_log0 as (cs & Hacc & Hl). apply Forall2_cons_inv_l in Hl as (c & cs' & Hac & Hl' & ->).
    exists cs'. split; [| done]. rewrite Ha in Hac. injection Hac as <-. by rewrite Hacc, <- app_assoc.
  - counts Hi. lia.
  - simpl in pi_pwait0. lia.
  - intros Hs. destruct (pi_shut0 Hs). counts Hi. lia.
  - intros Hd. apply done_insert in Hd; [| done]. by destruct (pi_done0 Hd).
Qed.

Lemma inv_finish l s i a p :
  pool_inv l s -> workers s !! i = Some (WRunning a) -> free_task (pool s) a = Ret p ->
  pool_inv l {| pool := p; workers := <[i := WReady]> (workers s); producers := producers s;
                accepted := accepted s; taken := taken s |}.
Proof.
  intros Hinv Hi Hp. pose proof (own_NoDup _ _ Hinv) as Hnd. destruct Hinv. unfold free_task in Hp.
  destruct (tasks (pool s) !! a) as [t |] eqn:Ha; [| done]. cbn [deref mbind outcome_bind] in Hp.
  apply Ret_inj in Hp as <-.
  rewrite (omap_split w_task (workers s) i _ Hi) in pi_own0, Hnd. simpl in pi_own0, Hnd.
  assert (Hperm : l ++ omap w_task (delete i (workers s)) ++ omap p_task (producers s) ≡ₚ
            keys (delete a (tasks (pool s)))).
  { apply (Permutation_cons_inv (a := a)). rewrite (keys_delete _ _ _ Ha), <- pi_own0.
    apply Permutation_middle. }
  assert (Hout : a ∉ l ++ omap w_task (delete i (workers s)) ++ omap p_task (producers s)).
  { rewrite <- Permutation_middle in Hnd. by inversion_clear Hnd. }
  rewrite !elem_of_app in Hout.
  assert (Hkeep : forall b, b <> a -> delete a (tasks (pool s)) !! b = tasks (pool s) !! b)
    by (intros; by rewrite lookup_delete_ne).
  split; simpl; try done.
  - eapply chain_frame; [| exact pi_chain0]. intros b Hb. unfold t_next. simpl. rewrite Hkeep; [done |].
    intros ->. tauto.
  - by rewrite (omap_insert_perm w_task (workers s) i _ WReady Hi).
  - rewrite Hkeep; [done |]. intros <-. congruence.
  - intros b tb Hb Htb. apply lookup_delete_Some in Htb as [_ Htb]. eauto.
  - destruct pi_log0 as (cs & Hacc & Hl). exists cs. split; [done |]. eapply log_frame; [| exact Hl].
    intros b Hb. rewrite Hkeep; [done |]. intros ->. tauto.
  - counts Hi. lia.
  - intros Hs. destruct (pi_shut0 Hs). counts Hi. lia.
  - intros Hd. apply done_insert in Hd; auto.
Qed.

Lemma num_app {X} (f : X -> bool) l1 l2 : num f (l1 ++ l2) = (num f l1 + num f l2)%nat.
Proof. unfold num. by rewrite filter_app, length_app. Qed.

Lemma inv_call l s a f x :
  pool_inv l s -> a <> NULL -> tasks (pool s) !! a = None ->
  pool_inv l {| pool := set_tasks (pool s)
                  (<[a := {| function := f; arg := x; next := NULL |}]> (tasks (pool s)));
                workers := workers s; producers := producers s ++ [PReady a];
                accepted := accepted s; taken := taken s |}.
Proof.
  intros Hinv Hnull Ha. destruct Hinv.
  assert (Hin : forall b, b ∈ l -> b <> a).
  { intros b Hb ->. assert (is_Some (tasks (pool s) !! a)) as [? ?]; [| congruence].
    apply elem_of_keys. rewrite <- pi_own0. apply elem_of_app. by left. }
  split; simpl; try done.
  - eapply chain_frame; [| exact pi_chain0]. intros b Hb. unfold t_next. simpl.
    rewrite lookup_insert_ne; [done |]. intros <-. by eapply Hin.
  - rewrite keys_insert by done. rewrite omap_app. simpl. rewrite <- pi_own0.
    rewrite !app_assoc. rewrite Permutation_app_comm. done.
  - rewrite lookup_insert_ne by congruence. done.
  - intros b tb Hb Htb. rewrite omap_app in Hb. simpl in Hb. apply elem_of_app in Hb as [Hb | Hb].
    + destruct (decide (b = a)) as [-> |]; simplify_map_eq; [done |]. eauto.
    + apply list_elem_of_singleton in Hb as ->. simplify_map_eq. done.
  - destruct pi_log0 as (cs & Hacc & Hl). exists cs. split; [done |]. eapply log_frame; [| exact Hl].
    intros b Hb. rewrite lookup_insert_ne; [done |]. intros <-. by eapply Hin.
  - rewrite !num_app. change (num p_waiting [PReady a]) with 0%nat. change (num p_ready [PReady a]) with 1%nat. lia.
  - intros Hs. destruct (pi_shut0 Hs). rewrite num_app. change (num p_waiting [PReady a]) with 0%nat. lia.
Qed.

(** Steps that only move a call between its waiting and ready states. *)
Lemma inv_producer l s i a x y :
  pool_inv l s -> producers s !! i = Some x -> p_task x = Some a -> p_task y = Some a ->
  (p_waiting y = true -> shutdown (pool s) = false /\ Z.of_nat (length l) = capacity (queue (pool s))) ->
  pool_inv l {| pool := pool s; workers := workers s; producers := <[i := y]> (producers s);
                accepted := accepted s; taken := taken s |}.
Proof.
  intros Hinv Hi Hx Hy Hwait. destruct Hinv.
  assert (Hperm : omap p_task (<[i := y]> (producers s)) ≡ₚ omap p_task (producers s))
    by (eapply omap_insert_same; [done | congruence]).
  split; simpl; try done.
  - by rewrite Hperm.
  - intros b tb. rewrite Hperm. apply pi_fresh0.
  - counts Hi. destruct y, x; simpl in *; try done; try lia; destruct (Hwait eq_refl); lia.
  - intros Hs. destruct (pi_shut0 Hs). split; [done |]. counts Hi.
    destruct (p_waiting y) eqn:Ey; [| destruct (p_waiting x); lia]. destruct (Hwait eq_refl). congruence.
Qed.

(** The memory after a task has been appended: only the old tail's [next] changed. *)
Record appended (p : thread_pool) (m : gmap addr task) (l : list addr) (a : addr) : Prop := {
  ap_keys : keys m ≡ₚ keys (tasks p);
  ap_null : tasks p !! NULL = None -> m !! NULL = None;
  ap_contents b : contents <$> m !! b = contents <$> tasks p !! b;
  ap_next b : last l <> Some b -> m !! b = tasks p !! b;
  ap_last b : last l = Some b -> next <$> m !! b = Some a
}.

Lemma append_frame p l a m :
  (forall b, last l = Some b -> exists tb, tasks p !! b = Some tb /\
     m = <[b := {| function := function tb; arg := arg tb; next := a |}]> (tasks p)) ->
  (l = [] -> m = tasks p) -> appended p m l a.
Proof.
  intros Hl Hnil. destruct (last l) as [b |] eqn:El.
  - destruct (Hl b eq_refl) as (tb & Hb & ->). split.
    + by eapply keys_update.
    + intros Hn. rewrite lookup_insert_ne; [done |]. congruence.
    + intros c. destruct (decide (c = b)) as [-> |]; by simplify_map_eq.
    + intros c Hc. rewrite El in Hc. rewrite lookup_insert_ne; [done |]. congruence.
    + intros c. rewrite El. intros [= <-]. by simplify_map_eq.
  - apply last_None in El as ->. rewrite (Hnil eq_refl). by split.
Qed.

Lemma inv_add l s i a t m ws :
  pool_inv l s -> producers s !! i = Some (PReady a) -> tasks (pool s) !! a = Some t ->
  shutdown (pool s) = false -> Z.of_nat (length l) < capacity (queue (pool s)) ->
  appended (pool s) m l a -> signal w_waiting w_wake (workers s) ws ->
  pool_inv (l ++ [a]) {| pool := set_queue (set_tasks (pool s) m)
                           (if l is [] then a else qhead (queue (pool s))) a (Z.of_nat (length l) + 1);
                         workers := ws; producers := <[i := PReturned 0]> (producers s);
                         accepted := accepted s ++ [contents t]; taken := taken s |}.
Proof.
  intros Hinv Hi Ha Hsh Hlt [] Hsig. pose proof (own_NoDup _ _ Hinv) as Hnd. destruct Hinv.
  rewrite (omap_split p_task (producers s) i _ Hi) in pi_own0, Hnd. simpl in pi_own0, Hnd.
  assert (Hnull : a <> NULL) by congruence.
  assert (Hperm : (l ++ [a]) ++ omap w_task (workers s) ++ omap p_task (delete i (producers s)) ≡ₚ
            l ++ omap w_task (workers s) ++ a :: omap p_task (delete i (producers s))).
  { rewrite <- app_assoc. apply Permutation_app_head. simpl. by rewrite Permutation_middle. }
  rewrite <- Hperm in Hnd. apply NoDup_app in Hnd as (Hnd & Hdis & _).
  apply NoDup_app in Hnd as (_ & Hal & _).
  assert (Hnl : a ∉ l) by (intros Hin; by apply (Hal a Hin), list_elem_of_singleton).
  assert (Hlast : forall b, last l = Some b -> b ∈ l).
  { intros b Hb. apply last_Some in Hb as [l' ->]. apply elem_of_app. right. by left. }
  pose proof (signal_workers _ _ Hsig) as Hcount. split; simpl.
  - eapply (chain_snoc (t_next (pool s))); try done; unfold t_next; simpl.
    + rewrite ap_next0 by (intros El; by apply Hnl, Hlast). rewrite Ha. simpl. f_equal.
      apply (pi_fresh0 a); [| done]. rewrite (omap_split p_task (producers s) i _ Hi). by left.
    + intros b Hb Hne. by rewrite ap_next0.
  - by rewrite last_snoc.
  - rewrite length_app. simpl. lia.
  - rewrite length_app. simpl. lia.
  - done.
  - rewrite (signal_workers_held _ _ Hsig), (omap_insert_perm p_task (producers s) i _ _ Hi). simpl.
    by rewrite Hperm, pi_own0, ap_keys0.
  - auto.
  - intros b tb. rewrite (omap_insert_perm p_task (producers s) i _ _ Hi). simpl. intros Hb.
    rewrite ap_next0.
    + apply pi_fresh0. rewrite (omap_split p_task (producers s) i _ Hi). by right.
    + intros El. apply (Hdis b); [apply elem_of_app; left; auto |]. apply elem_of_app. by right.
  - destruct pi_log0 as (cs & Hacc & Hl). exists (cs ++ [contents t]). split; [by rewrite Hacc, app_assoc |].
    apply Forall2_app; [eapply log_frame; [| exact Hl]; auto |]. constructor; [| constructor].
    by rewrite ap_contents0, Ha.
  - rewrite length_app. simpl. lia.
  - counts Hi. rewrite length_app. simpl. lia.
  - congruence.
  - intros Hd. apply (signal_workers_done _ _ Hsig) in Hd. destruct (pi_done0 Hd). congruence.
Qed.

Lemma inv_refuse l s i a t :
  pool_inv l s -> producers s !! i = Some (PReady a) -> tasks (pool s) !! a = Some t ->
  shutdown (pool s) = true ->
  pool_inv l {| pool := set_tasks (pool s) (delete a (tasks (pool s)));
                workers := workers s; producers := <[i := PReturned (-1)]> (producers s);
                accepted := accepted s; taken := taken s |}.
Proof.
  intros Hinv Hi Ha Hsh. pose proof (own_NoDup _ _ Hinv) as Hnd. destruct Hinv.
  rewrite (omap_split p_task (producers s) i _ Hi) in pi_own0, Hnd. simpl in pi_own0, Hnd.
  rewrite app_assoc, <- Permutation_middle, <- app_assoc in pi_own0, Hnd.
  inversion_clear Hnd as [| ? ? Hout _]. rewrite !elem_of_app in Hout.
  assert (Hkeep : forall b, b <> a -> delete a (tasks (pool s)) !! b = tasks (pool s) !! b)
    by (intros; by rewrite lookup_delete_ne).
  split; simpl; try done.
  - eapply chain_frame; [| exact pi_chain0]. intros b Hb. unfold t_next. simpl. rewrite Hkeep; [done |].
    intros ->. tauto.
  - rewrite (omap_insert_perm p_task (producers s) i _ _ Hi). simpl.
    apply (Permutation_cons_inv (a := a)). by rewrite (keys_delete _ _ _ Ha).
  - rewrite Hkeep; [done |]. congruence.
  - intros b tb. rewrite (omap_insert_perm p_task (producers s) i _ _ Hi). simpl. intros Hb Htb.
    apply lookup_delete_Some in Htb as [_ Htb]. apply (pi_fresh0 b); [| done].
    rewrite (omap_split p_task (producers s) i _ Hi). by right.
  - destruct pi_log0 as (cs & Hacc & Hl). exists cs. split; [done |]. eapply log_frame; [| exact Hl].
    intros b Hb. rewrite Hkeep; [done |]. intros ->. tauto.
  - destruct (pi_shut0 Hsh). counts Hi. lia.
  - intros _. destruct (pi_shut0 Hsh). counts Hi. lia.
Qed.

Lemma num_map_wake {X} (waiting : X -> bool) (wake : X -> X) l :
  (forall x, waiting (wake x) = false) -> num waiting (map wake l) = 0%nat.
Proof. intros Hw. apply num_zero. apply Forall_forall. intros x Hx. apply list_elem_of_fmap in Hx as (y & -> & _). done. Qed.

Lemma omap_map_wake {X} (held : X -> option addr) (wake : X -> X) l :
  (forall x, held (wake x) = held x) -> omap held (map wake l) = omap held l.
Proof.
  intros Hh. induction l as [| x l IH]; [done |].
  change (omap held (map wake (x :: l))) with
    (match held (wake x) with Some y => y :: omap held (map wake l) | None => omap held (map wake l) end).
  by rewrite Hh, IH.
Qed.

Lemma inv_shutdown l s :
  pool_inv l s ->
  pool_inv l {| pool := shutdown_section (pool s); workers := map w_wake (workers s);
                producers := map p_wake (producers s); accepted := accepted s; taken := taken s |}.
Proof.
  intros []. pose proof (num_map_wake w_waiting w_wake (workers s)) as Hw.
  pose proof (num_map_wake p_waiting p_wake (producers s)) as Hp.
  rewrite <- (omap_map_wake w_task w_wake (workers s)) in pi_own0 by (by intros []).
  rewrite <- (omap_map_wake p_task p_wake (producers s)) in pi_own0, pi_fresh0 by (by intros []).
  split; simpl; try done.
  - rewrite Hw by (by intros []). lia.
  - rewrite Hp by (by intros []). lia.
  - intros _. split; [apply Hw | apply Hp]; by intros [].
  - intros Hd. apply list_elem_of_fmap in Hd as ([] & Heq & Hin); try done. split; [done |]. by apply pi_done0.
Qed.

Lemma held_task l s a :
  pool_inv l s -> a ∈ omap w_task (workers s) ++ omap p_task (producers s) ->
  exists t, tasks (pool s) !! a = Some t.
Proof. intros [] Ha. apply elem_of_keys. rewrite <- pi_own0. apply elem_of_app. by right. Qed.

Lemma producer_task l s i x a :
  pool_inv l s -> producers s !! i = Some x -> p_task x = Some a -> exists t, tasks (pool s) !! a = Some t.
Proof.
  intros Hinv Hi Hx. apply (held_task _ _ _ Hinv). apply elem_of_app. right.
  rewrite (omap_split p_task _ i _ Hi), Hx. by left.
Qed.

Lemma pool_step_inv l s s' : pool_inv l s -> pool_step s s' -> exists l', pool_inv l' s'.
Proof.
  intros Hinv Hstep. pose proof (worker_section_cases _ _ Hinv) as Hws. destruct Hstep.
  - destruct l as [| a l]; [| destruct Hws as (t & _ & Hw & _); congruence].
    destruct (shutdown (pool s)) eqn:Es; [congruence |]. rewrite Hws in H0. injection H0 as <-.
    exists []. eapply inv_worker; eauto; done.
  - destruct l as [| a l]; [| destruct Hws as (t & _ & Hw & _); congruence].
    destruct (shutdown (pool s)) eqn:Es; [| congruence]. rewrite Hws in H0. injection H0 as <-.
    exists []. eapply inv_worker; eauto; done.
  - destruct l as [| b l]; [by destruct (shutdown (pool s)); rewrite Hws in H0 |].
    destruct Hws as (t' & Ht' & Hw & Hc). rewrite Hw in H0. injection H0 as <- <-. simpl in H1.
    rewrite Ht' in H1. injection H1 as <-. exists l. by apply inv_take.
  - exists l. by eapply inv_finish.
  - exists l. eapply inv_worker; eauto; done.
  - unfold add_prepare in H0. case_bool_decide; [done |]. destruct alloc as [b |]; [| done].
    injection H0 as <- <-. destruct (H b eq_refl). exists l. by apply inv_call.
  - exists l. destruct (producer_task _ _ _ _ a Hinv H eq_refl) as [t Ht].
    destruct (add_section_cases l s a t Hinv Ht) as (Hw & Hs & Hadd). pose proof (pi_cap _ _ Hinv).
    destruct (shutdown (pool s)) eqn:Es; [rewrite Hs in H0; congruence |].
    destruct (decide (Z.of_nat (length l) = capacity (queue (pool s)))) as [E | E].
    + rewrite Hw in H0 by done. injection H0 as <-. by eapply inv_producer.
    + destruct Hadd as (m & Hm & _); [done | lia |]. congruence.
  - destruct (add_section_cases l s a t Hinv H0) as (Hw & Hs & Hadd). pose proof (pi_cap _ _ Hinv).
    destruct (shutdown (pool s)) eqn:Es; [rewrite Hs in H1; congruence |].
    destruct (decide (Z.of_nat (length l) = capacity (queue (pool s)))) as [E | E].
    + rewrite Hw in H1 by done. congruence.
    + destruct Hadd as (m & Hm & Hlast & Hnil); [done | lia |]. rewrite Hm in H1. injection H1 as <-.
      exists (l ++ [a]). apply inv_add; try done; [lia |]. by apply append_frame.
  - exists l. destruct (producer_task _ _ _ _ a Hinv H eq_refl) as [t Ht].
    destruct (add_section_cases l s a t Hinv Ht) as (Hw & Hs & Hadd). pose proof (pi_cap _ _ Hinv).
    destruct (shutdown (pool s)) eqn:Es.
    + rewrite Hs in H0 by done. injection H0 as <-. by eapply inv_refuse.
    + destruct (decide (Z.of_nat (length l) = capacity (queue (pool s)))) as [E | E].
      * rewrite Hw in H0 by done. congruence.
      * destruct Hadd as (m & Hm & _); [done | lia |]. congruence.
  - exists l. by eapply inv_producer.
  - exists l. by apply inv_shutdown.
Qed.

Lemma pool_initial_inv n cap p :
  cap <= int_max -> thread_pool_create n cap true = Some p -> pool_inv [] (initial p).
Proof.
  unfold thread_pool_create. intros Hcap. destruct (n <=? 0) eqn:En; [done |].
  destruct (cap <=? 0) eqn:Ec; [done |]. intros [= <-]. zbool.
  assert (Hw : forall k, num w_waiting (replicate k WReady) = 0%nat) by (induction k; done).
  split; simpl; try done; try lia.
  - induction (Z.to_nat n); done.
  - by exists [].
  - change (num p_waiting []) with 0%nat. lia.
  - intros Hd. by apply elem_of_replicate in Hd as [? _].
Qed.

Lemma pool_reachable_inv s : pool_reachable s -> exists l, pool_inv l s.
Proof.
  intros (n & cap & p & Hcap & Hp & Hr). pose proof (pool_initial_inv _ _ _ Hcap Hp) as H0. revert H0.
  generalize (@nil addr) as l. induction Hr as [s | s1 s2 s3 Hstep _ IH]; intros l Hinv; [eauto |].
  destruct (pool_step_inv _ _ _ Hinv Hstep) as [l' Hl']. eauto.
Qed.

Lemma log_map (m : gmap addr task) l cs :
  Forall2 (fun a c => contents <$> m !! a = Some c) l cs ->
  map Some cs = map (fun a => contents <$> m !! a) l.
Proof. induction 1 as [| a c l cs Hac _ IH]; simpl; [done |]. by rewrite Hac, IH. Qed.

Lemma reachable_workers s : pool_reachable s -> (0 < length (workers s))%nat.
Proof.
  intros (n & cap & p & _ & Hp & Hr). unfold thread_pool_create in Hp.
  destruct (n <=? 0) eqn:En; [done |]. destruct (cap <=? 0); [done |]. injection Hp as <-. zbool.
  assert (H0 : (0 < length (workers (initial {| thread_num := n;
    queue := {| qhead := NULL; qtail := NULL; qsize := 0; capacity := cap |};
    shutdown := false; tasks := ∅ |})))%nat) by (simpl; rewrite length_replicate; lia).
  induction Hr as [s | s1 s2 s3 Hstep _ IH]; [done |]. apply IH. clear IH. revert H0.
  destruct Hstep; simpl; rewrite ?length_insert, ?length_map; try done.
  destruct H2 as [[_ ->] | (j & x & _ & _ & ->)]; [done |]. by rewrite length_insert.
Qed.

(** ** Properties *)

(** (C16) First in, first out, exactly once: in every reachable state the tasks
    accepted by [thread_pool_add], in order, are the tasks handed to workers, in
    order, followed by those in the queue, and the queue never holds more than
    its capacity. *)
Theorem pool_fifo_exactly_once s :
  pool_reachable s ->
  exists l, chain (t_next (pool s)) (qhead (queue (pool s))) l /\
    map Some (accepted s) = map Some (taken s) ++ map (fun a => contents <$> tasks (pool s) !! a) l /\
    qsize (queue (pool s)) = Z.of_nat (length l) /\
    qsize (queue (pool s)) <= capacity (queue (pool s)).
Proof.
  intros Hr. destruct (pool_reachable_inv s Hr) as [l []]. exists l.
  destruct pi_log0 as (cs & -> & Hl). split_and!; [done | | done | lia].
  by rewrite map_app, (log_map _ _ _ Hl).
Qed.

(** (C17) No wake-up is lost.  While a task is queued, some worker is ready to
    take it, or every worker is busy running one; while the queue has room (and
    the pool is open), a call of [thread_pool_add] sleeps only if another call
    is ready to use the room.  Once the pool is shut down nobody sleeps, neither
    a worker nor a call of [thread_pool_add], and nobody goes to sleep again: a
    worker takes a queued task or leaves, and a call returns -1. *)
Theorem pool_no_lost_wakeup s :
  pool_reachable s ->
  (0 < qsize (queue (pool s)) ->
     (exists i, workers s !! i = Some WReady) \/
     (forall w, w ∈ workers s -> exists a, w = WRunning a)) /\
  (qsize (queue (pool s)) < capacity (queue (pool s)) ->
   forall a, PWaiting a ∈ producers s -> exists b, PReady b ∈ producers s) /\
  (shutdown (pool s) = true ->
     (WWaiting ∉ workers s) /\ (forall a, PWaiting a ∉ producers s) /\
     (exists p, worker_section (pool s) = Ret (WorkerExits, p) \/
        exists a, worker_section (pool s) = Ret (WorkerRuns a, p)) /\
     (forall a, PReady a ∈ producers s -> exists p, add_section (pool s) a = Ret (AddReturns (-1), p))).
Proof.
  intros Hr. destruct (pool_reachable_inv s Hr) as [l Hinv].
  pose proof (worker_section_cases l s Hinv) as Hws.
  assert (Hadd : forall a, PReady a ∈ producers s -> shutdown (pool s) = true ->
    exists p, add_section (pool s) a = Ret (AddReturns (-1), p)).
  { intros a [i Hi]%list_elem_of_lookup Hsh. destruct (producer_task _ _ _ _ a Hinv Hi eq_refl) as [t Ht].
    destruct (add_section_cases l s a t Hinv Ht) as (_ & Hs & _). eauto. }
  destruct Hinv. rewrite pi_size0. split_and!.
  - intros Hpos. destruct (decide (0 < num w_waiting (workers s))%nat) as [Hw | Hw].
    + left. specialize (pi_wwait0 Hw). assert (Hready : (0 < num w_ready (workers s))%nat) by lia.
      apply num_pos in Hready as ([] & Hin & ?); try done. by apply list_elem_of_lookup in Hin.
    + destruct (decide (0 < num w_ready (workers s))%nat) as [Hn | Hn].
      * left. apply num_pos in Hn as ([] & Hin & ?); try done. by apply list_elem_of_lookup in Hin.
      * right. intros w Hin. destruct w; [| | by eexists |].
        { exfalso. apply Hn, num_pos. by exists WReady. }
        { exfalso. apply Hw, num_pos. by exists WWaiting. }
        { destruct (pi_done0 Hin) as [_ ->]. simpl in Hpos. lia. }
  - intros Hroom a Ha. assert (Hw : (0 < num p_waiting (producers s))%nat) by (apply num_pos; by exists (PWaiting a)).
    specialize (pi_pwait0 Hw). assert (Hready : (0 < num p_ready (producers s))%nat) by lia.
    apply num_pos in Hready as ([b | |] & Hin & ?); try done. by exists b.
  - intros Hsh. destruct (pi_shut0 Hsh) as [H1 H2]. split_and!; [| | | by auto].
    + intros Hin. assert (0 < num w_waiting (workers s))%nat by (apply num_pos; by eexists). lia.
    + intros a Hin. assert (0 < num p_waiting (producers s))%nat by (apply num_pos; by eexists). lia.
    + rewrite Hsh in Hws. destruct l; [by eexists; left | destruct Hws as (t & _ & Hw & _); eauto].
Qed.

(** (C24) No reachable state has undefined behaviour: a worker entering its
    section, a call of [thread_pool_add] entering its section and a worker
    freeing the task it ran always find the memory they touch; and the number of
    queued tasks, which is the length of the list in memory, stays between 0 and
    the capacity of the queue. *)
Theorem pool_memory_safe s :
  pool_reachable s ->
  (exists r, worker_section (pool s) = Ret r) /\
  (forall i a, producers s !! i = Some (PReady a) -> exists r, add_section (pool s) a = Ret r) /\
  (forall i a, workers s !! i = Some (WRunning a) -> exists p, free_task (pool s) a = Ret p) /\
  (exists l, chain (t_next (pool s)) (qhead (queue (pool s))) l /\ qsize (queue (pool s)) = Z.of_nat (length l) /\
     Z.of_nat (length l) <= capacity (queue (pool s)) <= int_max).
Proof.
  intros Hr. destruct (pool_reachable_inv s Hr) as [l Hinv]. split; [| split; [| split; [| destruct Hinv; by exists l]]].
  - pose proof (worker_section_cases _ _ Hinv) as Hw. destruct l; [destruct (shutdown (pool s)); eauto |].
    destruct Hw as (t & _ & Hw & _). eauto.
  - intros i a Hi. destruct (producer_task _ _ _ _ a Hinv Hi eq_refl) as [t Ht].
    destruct (add_section_cases l s a t Hinv Ht) as (Hw & Hs & Hadd). pose proof (pi_cap _ _ Hinv).
    destruct (shutdown (pool s)); [eauto |].
    destruct (decide (Z.of_nat (length l) = capacity (queue (pool s)))); [eauto |].
    destruct Hadd as (m & Hm & _); [done | lia | eauto].
  - intros i a Hi. unfold free_task. destruct (held_task _ _ a Hinv) as [t ->]; [| by eexists].
    apply elem_of_app. left. rewrite (omap_split w_task _ i _ Hi). by left.
Qed.

(** Graceful shutdown: when every worker has exited (so that
    [thread_pool_destroy] returns from its joins) and every call of
    [thread_pool_add] has returned, the pool was shut down, every accepted task
    was run, and no task is left in memory. *)
Theorem pool_shutdown_drains s :
  pool_reachable s -> (forall w, w ∈ workers s -> w = WDone) ->
  (forall x, x ∈ producers s -> exists r, x = PReturned r) ->
  shutdown (pool s) = true /\ accepted s = taken s /\ tasks (pool s) = ∅.
Proof.
  intros Hr Hw Hp. pose proof (reachable_workers s Hr) as Hlen.
  destruct (pool_reachable_inv s Hr) as [l []].
  assert (Hdone : WDone ∈ workers s).
  { destruct (workers s) as [| w ws] eqn:E; [simpl in Hlen; lia |]. rewrite <- (Hw w); by left. }
  destruct (pi_done0 Hdone) as [Hsh ->]. split; [done |]. split.
  - destruct pi_log0 as (cs & -> & Hl). apply Forall2_nil_inv_l in Hl as ->. by rewrite app_nil_r.
  - assert (Hnone : omap w_task (workers s) = [] /\ omap p_task (producers s) = []).
    { split; apply elem_of_nil_inv; intros a Ha; apply list_elem_of_omap in Ha as (x & Hx & Hxa).
      - by rewrite (Hw x Hx) in Hxa.
      - by destruct (Hp x Hx) as [r ->]. }
    destruct Hnone as [-> ->] in pi_own0. simpl in pi_own0. apply Permutation_nil_l in pi_own0.
    apply map_empty. intros a. destruct (tasks (pool s) !! a) as [t |] eqn:E; [| done].
    assert (Hin : a ∈ keys (tasks (pool s))) by (apply elem_of_keys; by eexists).
    rewrite <- pi_own0 in Hin. by apply not_elem_of_nil in Hin.
Qed.

(** ** A concrete run: one worker, one task, then shutdown *)

Definition demo_pool : thread_pool :=
  {| thread_num := 1; queue := {| qhead := NULL; qtail := NULL; qsize := 0; capacity := 1 |};
     shutdown := false; tasks := ∅ |}.
Definition demo_task : task := {| function := 1%N; arg := 2%N; next := NULL |}.

(** The task is queued and the worker has not taken it yet. *)
Definition demo_queued : system :=
  {| pool := {| thread_num := 1; queue := {| qhead := 8%N; qtail := 8%N; qsize := 1; capacity := 1 |};
                shutdown := false; tasks := {[ 8%N := demo_task ]} |};
     workers := [WReady]; producers := [PReturned 0]; accepted := [(1%N, 2%N)]; taken := [] |}.

Lemma steps_eq (s s' : system) : s = s' -> rtc pool_step s s'.
Proof. by intros ->. Qed.

Lemma demo_queued_reachable : pool_reachable demo_queued.
Proof.
  exists 1, 1, demo_pool. split; [done |]. split; [done |].
  eapply rtc_l; [apply (step_call (initial demo_pool) (Some 8%N) 1%N 2%N); [by intros ? [= <-] | done] |].
  eapply rtc_l.
  { eapply (step_add _ 0 8%N demo_task); [done | done | done |]. left. by split; [repeat constructor |]. }
  apply steps_eq. vm_compute. reflexivity.
Qed.

(** Everything is over. *)
Definition demo_over : system :=
  {| pool := {| thread_num := 1; queue := {| qhead := NULL; qtail := NULL; qsize := 0; capacity := 1 |};
                shutdown := true; tasks := ∅ |};
     workers := [WDone]; producers := [PReturned 0]; accepted := [(1%N, 2%N)]; taken := [(1%N, 2%N)] |}.

Lemma demo_over_reachable : pool_reachable demo_over.
Proof.
  destruct demo_queued_reachable as (n & cap & p & Hcap & Hp & Hr). exists n, cap, p.
  split; [done |]. split; [done |]. transitivity demo_queued; [exact Hr |].
  eapply rtc_l.
  { eapply (step_take demo_queued 0 8%N demo_task); [done | done | done |]. left. by split; [repeat constructor |]. }
  eapply rtc_l; [eapply (step_finish _ 0 8%N); done |].
  eapply rtc_l; [apply step_shutdown |]. eapply rtc_l; [eapply (step_exit _ 0); done |].
  apply steps_eq. vm_compute. reflexivity.
Qed.

Lemma pool_fifo_exactly_once_witness :
  exists l, chain (t_next (pool demo_queued)) 8%N l /\
    map Some [(1%N, 2%N)] = map Some [] ++ map (fun a => contents <$> tasks (pool demo_queued) !! a) l /\
    1 = Z.of_nat (length l) /\ 1 <= 1.
Proof. exact (pool_fifo_exactly_once demo_queued demo_queued_reachable). Defined.

Lemma pool_no_lost_wakeup_witness :
  (0 < 1 -> (exists i, workers demo_queued !! i = Some WReady) \/
            (forall w, w ∈ workers demo_queued -> exists a, w = WRunning a)) /\
  (1 < 1 -> forall a, PWaiting a ∈ producers demo_queued -> exists b, PReady b ∈ producers demo_queued) /\
  (WWaiting ∉ workers demo_over).
Proof.
  destruct (pool_no_lost_wakeup demo_queued demo_queued_reachable) as (H1 & H2 & _).
  destruct (pool_no_lost_wakeup demo_over demo_over_reachable) as (_ & _ & H3).
  split; [exact H1 |]. split; [exact H2 |]. apply (H3 eq_refl).
Defined.

Lemma pool_memory_safe_witness :
  (exists r, worker_section (pool demo_queued) = Ret r) /\
  (forall i a, producers demo_queued !! i = Some (PReady a) -> exists r, add_section (pool demo_queued) a = Ret r) /\
  (forall i a, workers demo_queued !! i = Some (WRunning a) -> exists p, free_task (pool demo_queued) a = Ret p) /\
  (exists l, chain (t_next (pool demo_queued)) 8%N l /\ 1 = Z.of_nat (length l) /\ Z.of_nat (length l) <= 1 <= int_max).
Proof. exact (pool_memory_safe demo_queued demo_queued_reachable). Defined.

Lemma pool_shutdown_drains_witness :
  shutdown (pool demo_over) = true /\ accepted demo_over = taken demo_over /\ tasks (pool demo_over) = ∅.
Proof.
  apply (pool_shutdown_drains demo_over demo_over_reachable).
  - intros w Hw. by apply list_elem_of_singleton in Hw.
  - intros x Hx. apply list_elem_of_singleton in Hx. by exists 0.
Defined.
