(* ===== verification/Database.v ===== *)
(** * The MySQL client interface and the SQL the server sends

    The MySQL server and its client library are outside the sources: they are
    the class [MySQL], whose documented behaviour on the statements of this
    program is the class [MySQLSpec].  The texts of the statements are byte for
    byte those of [src/server/dao_*.c] and of the schema in
    [src/server/database.c].

    Two more classes state what a theorem may ask of the environment, each on
    its own: [MySQLStored], that a successful SELECT comes with its result set,
    and [MySQLUp], that the server stays up and answers.  A theorem that does
    not mention them holds without them. *)

From Stdlib Require Import Strings.Byte.
From S2P Require Import Prelude CString.

(** ** The client library *)

Definition ER_DUP_ENTRY : Z := 1062.

(** A column is NULL or text. *)
Definition row : Type := list (option (list byte)).

(** What [mysql_query] and, after a success, [mysql_store_result] answer;
    [QOk None] is a NULL result set. *)
Inductive query_result :=
| QError (errno : Z)
| QOk (rows : option (list row)).

(** A connection is a handle; the state of the server and of the library's
    connection objects is [server]. *)
Class MySQL := {
  server : Type;
  mysql_query : Z -> list byte -> server -> query_result * server;
  mysql_insert_id : Z -> server -> Z;
  mysql_real_escape_string : list byte -> list byte
}.

(** ** Statements *)

Inductive stmt :=
| StartTransaction
| Commit
| Rollback
| SelectNode (uid : Z) (path : list byte)
| SelectChildren (uid parent : Z)
| SelectLs (uid parent : Z)
| SelectFileId (id uid : Z)
| SelectRefs (fid : Z)
| SelectByHash (hex : list byte) (size : Z)
| SelectLogin (name : list byte)
| SelectMeta (uid : Z) (path : list byte)
| InsertPath (uid : Z) (path : list byte) (file parent : option Z) (name : list byte) (type : Z)
| InsertUser (name hash : list byte)
| UpsertFile (hex : list byte) (size : Z)
| DeletePath (id : Z)
| DeleteFilePath (id uid : Z)
| DeleteFile (fid : Z)
| DecrementRefs (fid : Z)
| IncrementRefs (fid : Z).

Definition or_null (o : option Z) : list byte :=
  match o with Some z => dec z | None => lit "NULL" end.

(** The text of a statement; string arguments are what stands between the
    quotes. *)
Definition sql (st : stmt) : list byte :=
  match st with
  | StartTransaction => lit "START TRANSACTION"
  | Commit => lit "COMMIT"
  | Rollback => lit "ROLLBACK"
  | SelectNode uid path =>
      lit "SELECT id, type FROM paths WHERE user_id = " ++ dec uid ++
      lit " AND path = '" ++ path ++ lit "'"
  | SelectChildren uid parent =>
      lit "SELECT * FROM paths WHERE user_id = " ++ dec uid ++ lit " AND parent_id = " ++ dec parent
  | SelectLs uid parent =>
      lit "SELECT file_name, type FROM paths WHERE user_id = " ++ dec uid ++
      lit " AND parent_id = " ++ dec parent
  | SelectFileId id uid =>
      lit "SELECT file_id FROM paths WHERE id = " ++ dec id ++ lit " AND user_id = " ++ dec uid ++
      lit " AND type = 0"
  | SelectRefs fid => lit "SELECT refs, LOWER(HEX(hash)) FROM files WHERE id = " ++ dec fid
  | SelectByHash hex size =>
      lit "SELECT id FROM files WHERE hash = UNHEX('" ++ hex ++ lit "') AND size = " ++ dec size ++
      lit " LIMIT 1"
  | SelectLogin name =>
      lit "SELECT u.id, u.password_hash, p.id FROM users u JOIN paths p ON p.user_id = u.id WHERE u.username = '" ++
      name ++ lit "' AND p.path = '/' LIMIT 1"
  | SelectMeta uid path =>
      lit "SELECT p.id, p.file_id, p.file_name, p.type, f.size,LOWER(HEX(f.hash)) AS hash_hex FROM paths p LEFT JOIN files f ON p.file_id = f.id WHERE p.user_id = " ++
      dec uid ++ lit " AND p.path = '" ++ path ++ lit "' LIMIT 1"
  | InsertPath uid path file parent name type =>
      lit "INSERT INTO paths(user_id, path, file_id, parent_id, file_name, type) VALUES(" ++ dec uid ++
      lit ", '" ++ path ++ lit "', " ++ or_null file ++ lit ", " ++ or_null parent ++ lit ", '" ++
      name ++ lit "', " ++ dec type ++ lit ")"
  | InsertUser name hash =>
      lit "INSERT INTO users(username, password_hash) VALUES('" ++ name ++ lit "', '" ++ hash ++ lit "')"
  | UpsertFile hex size =>
      lit "INSERT INTO files(hash, size, refs) VALUES(UNHEX('" ++ hex ++ lit "'), " ++ dec size ++
      lit ", 1) ON DUPLICATE KEY UPDATE refs = refs + 1, id = LAST_INSERT_ID(id)"
  | DeletePath id => lit "DELETE FROM paths WHERE id = " ++ dec id
  | DeleteFilePath id uid =>
      lit "DELETE FROM paths WHERE id = " ++ dec id ++ lit " AND user_id = " ++ dec uid ++ lit " AND type = 0"
  | DeleteFile fid => lit "DELETE FROM files WHERE id = " ++ dec fid ++ lit " AND refs = 0"
  | DecrementRefs fid =>
      lit "UPDATE files SET refs = refs - 1 WHERE id = " ++ dec fid ++ lit " AND refs > 0"
  | IncrementRefs fid => lit "UPDATE files SET refs = refs + 1 WHERE id = " ++ dec fid
  end.

(** ** The schema ([database_init]) *)

Record path_row := {
  p_user : Z; p_path : list byte; p_file : option Z; p_parent : option Z;
  p_name : list byte; p_type : Z
}.
(** The hash in lower-case hexadecimal, as [LOWER(HEX(hash))] shows it. *)
Record file_row := { f_hash : list byte; f_size : Z; f_refs : Z }.
Record user_row := { u_name : list byte; u_hash : list byte }.

Record tables := {
  users : gmap Z user_row;
  files : gmap Z file_row;
  paths : gmap Z path_row
}.

(** The tables, and the connection that has a transaction open with the tables
    as they were when it started. *)
Record database := { now : tables; txn : option (Z * tables) }.

Definition set_paths (t : tables) m : tables := {| users := users t; files := files t; paths := m |}.
Definition set_files (t : tables) m : tables := {| users := users t; files := m; paths := paths t |}.
Definition set_users (t : tables) m : tables := {| users := m; files := files t; paths := paths t |}.
Definition set_now (d : database) t : database := {| now := t; txn := txn d |}.

(** ** String literals

    MySQL reads a backslash in a literal as an escape, and an unescaped quote as
    its end. *)
Definition QUOTE : byte := x27.
Definition BACKSLASH : byte := x5c.

Definition unescape_char (b : byte) : byte :=
  match b with
  | x30 => x00 | x62 => x08 | x6e => x0a | x72 => x0d | x74 => x09 | x5a => x1a
  | _ => b
  end.

Fixpoint sql_unescape (t : list byte) : option (list byte) :=
  match t with
  | [] => Some []
  | b :: t =>
      if bool_decide (b = QUOTE) then None
      else if bool_decide (b = BACKSLASH)
      then match t with
           | [] => None
           | c :: t => cons (unescape_char c) <$> sql_unescape t
           end
      else cons b <$> sql_unescape t
  end.

(** Printable ASCII, which every character set of a connection agrees on. *)
Definition printable (b : byte) : bool := (32 <=? byte_val b) && (byte_val b <=? 126).
Definition ascii (t : list byte) : Prop := Forall (fun b => printable b = true) t.

(** Printable ASCII without quotes and backslashes stands for itself. *)
Definition plain_byte (b : byte) : bool :=
  printable b && negb (bool_decide (b = QUOTE)) && negb (bool_decide (b = BACKSLASH)).
Definition plain (t : list byte) : Prop := Forall (fun b => plain_byte b = true) t.

#[global] Instance ascii_dec t : Decision (ascii t).
Proof. unfold ascii. apply _. Defined.
#[global] Instance plain_dec t : Decision (plain t).
Proof. unfold plain. apply _. Defined.

Lemma plain_byte_spec b : plain_byte b = true -> printable b = true /\ b <> QUOTE /\ b <> BACKSLASH.
Proof.
  unfold plain_byte. rewrite !andb_true_iff, !negb_true_iff, !bool_decide_eq_false. tauto.
Qed.

Lemma plain_ascii t : plain t -> ascii t.
Proof. intros H. eapply Forall_impl; [exact H |]. intros b Hb. apply (plain_byte_spec b Hb). Qed.

Lemma plain_no_quote t : plain t -> QUOTE ∉ t.
Proof. intros H Hin. eapply Forall_forall in H; [| exact Hin]. by apply plain_byte_spec in H as (_ & ? & _). Qed.

Lemma unescape_plain t : plain t -> sql_unescape t = Some t.
Proof.
  induction 1 as [| b t Hb _ IH]; [done |]. apply plain_byte_spec in Hb as (_ & Hq & Hs). cbn [sql_unescape].
  rewrite !bool_decide_eq_false_2 by done. by rewrite IH.
Qed.

(** The 64 hexadecimal digits that [UNHEX] turns into a BINARY(32). *)
Definition sha_text (hex : list byte) : Prop :=
  length hex = 64%nat /\ Forall (fun b => isxdigit b = true) hex.

#[global] Instance sha_text_dec hex : Decision (sha_text hex).
Proof. unfold sha_text. apply _. Defined.

Lemma xdigit_plain b : isxdigit b = true -> plain_byte b = true.
Proof. by destruct b. Qed.

Lemma sha_text_plain hex : sha_text hex -> plain hex.
Proof. intros [_ H]. eapply Forall_impl; [exact H |]. exact xdigit_plain. Qed.

(** ** What the statements do

    MySQL compares text by the collation of the column, which identifies more
    than equal bytes (case, accents): [same] stands for it. *)
Section semantics.
Context (same : list byte -> list byte -> bool).

(** The rows of [paths] that satisfy a condition. *)
Definition paths_where (p : path_row -> bool) (t : tables) : list (Z * path_row) :=
  List.filter (fun ir => p (snd ir)) (map_to_list (paths t)).

Definition at_path (uid : Z) (path : list byte) (r : path_row) : bool :=
  (p_user r =? uid) && same (p_path r) path.
Definition under (uid parent : Z) (r : path_row) : bool :=
  (p_user r =? uid) && bool_decide (p_parent r = Some parent).

Definition files_where (p : file_row -> bool) (t : tables) : list (Z * file_row) :=
  List.filter (fun ir => p (snd ir)) (map_to_list (files t)).

(** [UNHEX] reads either case; [LOWER(HEX(...))] shows lower case. *)
Definition hash_is (hex : list byte) (f : file_row) : bool := bool_decide (f_hash f = map tolower hex).

Definition users_where (p : user_row -> bool) (t : tables) : list (Z * user_row) :=
  List.filter (fun ir => p (snd ir)) (map_to_list (users t)).

(** Rows selected from a table *)
Lemma elem_of_where {A} (p : A -> bool) (m : gmap Z A) i r :
  (i, r) ∈ List.filter (fun ir => p (snd ir)) (map_to_list m) <-> m !! i = Some r /\ p r = true.
Proof.
  rewrite list_elem_of_In, filter_In, <- list_elem_of_In, elem_of_map_to_list. done.
Qed.

(** A literal of a statement as text; the default is never used on a
    well-formed statement. *)
Definition text_of (s : list byte) : list byte := default [] (sql_unescape s).

Definition num (z : Z) : option (list byte) := Some (dec z).

(** The rows a SELECT is about, before its LIMIT; [None] for other statements. *)
Definition selected (st : stmt) (t : tables) : option (list row) :=
  match st with
  | SelectNode uid path =>
      Some (map (fun ir => [num (fst ir); num (p_type (snd ir))])
              (paths_where (at_path uid (text_of path)) t))
  | SelectChildren uid parent =>
      Some (map (fun ir => [num (fst ir); num (p_user (snd ir)); Some (p_path (snd ir));
                            p_file (snd ir) ≫= num; p_parent (snd ir) ≫= num;
                            Some (p_name (snd ir)); num (p_type (snd ir))])
              (paths_where (under uid parent) t))
  | SelectLs uid parent =>
      Some (map (fun ir => [Some (p_name (snd ir)); num (p_type (snd ir))])
              (paths_where (under uid parent) t))
  | SelectFileId id uid =>
      Some (match paths t !! id with
            | Some r => if (p_user r =? uid) && (p_type r =? 0) then [[p_file r ≫= num]] else []
            | None => []
            end)
  | SelectRefs fid =>
      Some (match files t !! fid with
            | Some f => [[num (f_refs f); Some (f_hash f)]]
            | None => []
            end)
  | SelectByHash hex size =>
      Some (map (fun ir => [num (fst ir)])
              (files_where (fun f => hash_is (text_of hex) f && (f_size f =? size)) t))
  | SelectLogin name =>
      Some (iu ← users_where (fun u => same (u_name u) (text_of name)) t;
            map (fun ir => [num (fst iu); Some (u_hash (snd iu)); num (fst ir)])
              (paths_where (at_path (fst iu) [SLASH]) t))
  | SelectMeta uid path =>
      Some (map (fun ir =>
                   let f := p_file (snd ir) ≫= fun i => files t !! i in
                   [num (fst ir); p_file (snd ir) ≫= num; Some (p_name (snd ir));
                    num (p_type (snd ir)); f ≫= (fun f => num (f_size f)); f_hash <$> f])
              (paths_where (at_path uid (text_of path)) t))
  | _ => None
  end.

Definition limit_one (st : stmt) : bool :=
  match st with SelectByHash _ _ | SelectLogin _ | SelectMeta _ _ => true | _ => false end.

(** Rows come in any order, and LIMIT 1 keeps any one of them. *)
Definition answers (st : stmt) (all rows : list row) : Prop :=
  if limit_one st
  then match all with [] => rows = [] | _ => exists r, r ∈ all /\ rows = [r] end
  else rows ≡ₚ all.

(** A statement that changes rows, [id] being the next AUTO_INCREMENT value:
    the new tables and what [mysql_insert_id] reports, or [None] on a duplicate
    key.  Statements that change nothing else are left out. *)
Definition written (id : Z) (st : stmt) (t : tables) : option (tables * Z) :=
  match st with
  | InsertPath uid path file parent name type =>
      match paths_where (at_path uid (text_of path)) t with
      | [] => Some (set_paths t (<[id := {| p_user := uid; p_path := text_of path; p_file := file;
                p_parent := parent; p_name := text_of name; p_type := type |}]> (paths t)), id)
      | _ => None
      end
  | InsertUser name hash =>
      match users_where (fun u => same (u_name u) (text_of name)) t with
      | [] => Some (set_users t (<[id := {| u_name := text_of name; u_hash := text_of hash |}]> (users t)), id)
      | _ => None
      end
  | UpsertFile hex size =>
      match files_where (hash_is (text_of hex)) t with
      | [] => Some (set_files t (<[id := {| f_hash := map tolower (text_of hex); f_size := size;
                f_refs := 1 |}]> (files t)), id)
      | (fid, f) :: _ =>
          Some (set_files t (<[fid := {| f_hash := f_hash f; f_size := f_size f;
                  f_refs := f_refs f + 1 |}]> (files t)), fid)
      end
  | DeletePath id => Some (set_paths t (delete id (paths t)), 0)
  | DeleteFilePath id uid =>
      Some (match paths t !! id with
            | Some r => if (p_user r =? uid) && (p_type r =? 0) then set_paths t (delete id (paths t)) else t
            | None => t
            end, 0)
  | DeleteFile fid =>
      Some (match files t !! fid with
            | Some f => if f_refs f =? 0 then set_files t (delete fid (files t)) else t
            | None => t
            end, 0)
  | DecrementRefs fid =>
      Some (match files t !! fid with
            | Some f => if 0 <? f_refs f
                        then set_files t (<[fid := {| f_hash := f_hash f; f_size := f_size f;
                               f_refs := f_refs f - 1 |}]> (files t))
                        else t
            | None => t
            end, 0)
  | IncrementRefs fid =>
      Some (match files t !! fid with
            | Some f => set_files t (<[fid := {| f_hash := f_hash f; f_size := f_size f;
                          f_refs := f_refs f + 1 |}]> (files t))
            | None => t
            end, 0)
  | _ => None
  end.

(** The statement would insert a row whose unique key is taken. *)
Definition duplicate_key (st : stmt) (t : tables) : Prop :=
  match st with
  | InsertPath uid path _ _ _ _ => paths_where (at_path uid (text_of path)) t <> []
  | InsertUser name _ => users_where (fun u => same (u_name u) (text_of name)) t <> []
  | _ => False
  end.

(** The AUTO_INCREMENT value of the table that the statement inserts into is
    positive, fits its column and is not in use in that table; each table counts
    on its own. *)
Definition fresh_id (st : stmt) (t : tables) (id : Z) : Prop :=
  match st with
  | InsertUser _ _ => 0 < id < 2 ^ 31 /\ users t !! id = None
  | UpsertFile _ _ => 0 < id < 2 ^ 63 /\ files t !! id = None
  | InsertPath _ _ _ _ _ _ => 0 < id < 2 ^ 63 /\ paths t !! id = None
  | _ => True
  end.

Definition rolled_back (h : Z) (d : database) : database :=
  match txn d with
  | Some (h', t) => if h' =? h then {| now := t; txn := None |} else d
  | None => d
  end.
Definition committed (d : database) : database := {| now := now d; txn := None |}.

(** The effect and the answer of a statement that succeeds on connection [h].
    [mysql_store_result] may still return NULL for a SELECT that succeeded: it
    has run out of memory, or the connection broke while the rows were read. *)
Definition succeeds (h : Z) (st : stmt) (d : database) (rows : option (list row)) (insert_id : Z)
    (d' : database) : Prop :=
  match st with
  | StartTransaction => d' = {| now := now d; txn := Some (h, now d) |}
  | Commit => d' = committed d
  | Rollback => d' = rolled_back h d
  | _ =>
      match selected st (now d) with
      | Some all => (forall l, rows = Some l -> answers st all l) /\ d' = d
      | None => exists id t, fresh_id st (now d) id /\ written id st (now d) = Some (t, insert_id) /\
                             d' = set_now d t
      end
  end.

(** A statement that reports an error has no effect of its own, but the error
    may have ended the transaction; the report of a COMMIT may be lost after
    its effect; ROLLBACK ends the transaction whatever it reports, as losing
    the connection does. *)
Definition fails (h : Z) (st : stmt) (d : database) (errno : Z) (d' : database) : Prop :=
  (errno = ER_DUP_ENTRY -> duplicate_key st (now d) /\ d' = d) /\
  match st with
  | Rollback => d' = rolled_back h d
  | Commit => d' = d \/ d' = rolled_back h d \/ d' = committed d
  | _ => d' = d \/ d' = rolled_back h d
  end.

End semantics.

(** A statement whose literals are well formed and whose numbers are 64-bit. *)
Definition good_text (s : list byte) : Prop := is_Some (sql_unescape s).
Definition stmt_ok (st : stmt) : Prop :=
  match st with
  | StartTransaction | Commit | Rollback => True
  | SelectNode uid path | SelectMeta uid path => is_u64 uid /\ good_text path
  | SelectChildren uid parent | SelectLs uid parent => is_u64 uid /\ is_u64 parent
  | SelectFileId id uid | DeleteFilePath id uid => is_u64 id /\ is_u64 uid
  | SelectByHash hex size | UpsertFile hex size => sha_text hex /\ is_u64 size
  | SelectLogin name => good_text name
  | InsertPath uid path file parent name type =>
      is_u64 uid /\ good_text path /\ (forall z, file = Some z -> is_u64 z) /\
      (forall z, parent = Some z -> is_u64 z) /\ good_text name /\ is_u64 type
  | InsertUser name hash => good_text name /\ good_text hash
  | SelectRefs id | DeletePath id | DeleteFile id | DecrementRefs id | IncrementRefs id => is_u64 id
  end.

(** No other connection has a transaction open. *)
Definition owned (h : Z) (d : database) : Prop := forall h' t, txn d = Some (h', t) -> h' = h.

(** What the program relies on: MySQL with InnoDB in its default, strict SQL
    mode, a character set in which the bytes of ASCII stand for themselves, and
    AUTO_INCREMENT counters that are not used up (2^31 users, 2^63 rows).  A
    statement that is refused, for whatever reason, is a [QError]. *)
Class MySQLSpec (M : MySQL) := {
  database_of : server -> database;
  same_text : list byte -> list byte -> bool;
  same_text_equiv : Equivalence (fun a b => same_text a b = true);
  query_spec : forall h st s,
    stmt_ok st -> owned h (database_of s) ->
    let (r, s') := mysql_query h (sql st) s in
    match r with
    | QError errno => fails same_text h st (database_of s) errno (database_of s')
    | QOk rows => succeeds same_text h st (database_of s) rows (mysql_insert_id h s') (database_of s')
    end;
  escape_spec : forall s, sql_unescape (mysql_real_escape_string s) = Some s;
  escape_length : forall s, (length (mysql_real_escape_string s) <= 2 * length s)%nat
}.

(** The client library can store the result sets of the SELECTs that succeed. *)
Class MySQLStored (M : MySQL) (Spec : MySQLSpec M) : Prop := {
  result_stored : forall h st s all,
    stmt_ok st -> owned h (database_of s) -> selected same_text st (now (database_of s)) = Some all ->
    fst (mysql_query h (sql st) s) <> QOk None
}.

(** Values that the columns hold ([INT], [BIGINT], [TINYINT], [VARCHAR(n)]), so
    that strict SQL mode does not refuse the statement, and text that is valid
    in every character set. *)
Definition int_column (z : Z) : Prop := 0 <= z < 2 ^ 31.
Definition bigint_column (z : Z) : Prop := 0 <= z < 2 ^ 63.
Definition countable (f : file_row) : Prop := int_column (f_refs f + 1).

Definition stmt_fits (t : tables) (st : stmt) : Prop :=
  match st with
  | InsertPath uid path file parent name type =>
      int_column uid /\ (length (text_of path) <= 768)%nat /\ ascii (text_of path) /\
      (forall z, file = Some z -> bigint_column z) /\ (forall z, parent = Some z -> bigint_column z) /\
      (length (text_of name) <= 255)%nat /\ ascii (text_of name) /\ 0 <= type < 128
  | InsertUser name hash =>
      (length (text_of name) <= 64)%nat /\ ascii (text_of name) /\
      (length (text_of hash) <= 384)%nat /\ ascii (text_of hash)
  | UpsertFile hex size =>
      bigint_column size /\ forall i f, files t !! i = Some f -> hash_is (text_of hex) f = true -> countable f
  | IncrementRefs fid => forall f, files t !! fid = Some f -> countable f
  | SelectNode _ path | SelectMeta _ path => ascii (text_of path)
  | SelectLogin name => ascii (text_of name)
  | _ => True
  end.

(** A server that stays up, with a client that can store results: [up n] says
    that the next [n] statements, if their values fit, fail at most with a
    duplicate key, and that a SELECT among them has a result set. *)
Class MySQLUp (M : MySQL) (Spec : MySQLSpec M) := {
  up : nat -> server -> Prop;
  up_mono : forall n s, up (S n) s -> up n s;
  up_query : forall n h st s,
    up (S n) s -> stmt_ok st -> stmt_fits (now (database_of s)) st -> owned h (database_of s) ->
    let (r, s') := mysql_query h (sql st) s in
    up n s' /\ (forall errno, r = QError errno -> errno = ER_DUP_ENTRY) /\
    (forall all, selected same_text st (now (database_of s)) = Some all -> r <> QOk None)
}.

(** Nothing is promised of a server that may fail at any time. *)
Definition never_up (M : MySQL) (Spec : MySQLSpec M) : MySQLUp M Spec.
Proof. by refine {| up := fun _ _ => False |}. Defined.
