(* ===== verification/DatabasePool.v ===== *)
(** * The connection pool ([src/server/database_pool.c])

    The pool's array of connections and the operations on it, the monad in which
    the data-access functions run, and the two helpers that run one statement. *)

From Stdlib Require Import Strings.Byte.
From S2P Require Import Prelude CString Database.

(** ** The pool *)

(** [connections] holds handles or NULL; the lock is held during each operation. *)
Record database_pool := {
  connections : list (option Z);
  pool_size : Z;
  available : Z
}.

(** The section of [database_pool_acquire] under the lock.  A caller that finds
    no connection waits on the condition and tries again: [None]. *)
Definition acquire_section (p : database_pool) : outcome (option (option Z * database_pool)) :=
  if available p =? 0 then Ret None
  else
    let available' := available p - 1 in
    if (available' <? 0) || (Z.of_nat (length (connections p)) <=? available') then Undef
    else
      conn ← deref (connections p !! Z.to_nat available');
      Ret (Some (conn, {| connections := <[Z.to_nat available' := None]> (connections p);
                          pool_size := pool_size p; available := available' |})).

Definition database_pool_release (p : database_pool) (conn : option Z) : outcome database_pool :=
  match conn with
  | None => Ret p
  | Some _ =>
      if (available p <? 0) || (Z.of_nat (length (connections p)) <=? available p) then Undef
      else Ret {| connections := <[Z.to_nat (available p) := conn]> (connections p);
                  pool_size := pool_size p; available := available p + 1 |}
  end.

(** [database_pool_acquire] when no other thread runs: waiting never ends. *)
Definition database_pool_acquire (p : database_pool) : outcome (option Z * database_pool) :=
  r ← acquire_section p;
  match r with
  | None => NoReturn
  | Some q => Ret q
  end.

(** [mysql_connect_one]: the answer of [mysql_init] and whether
    [mysql_real_connect] succeeds on it; with the handles that it closes. *)
Definition mysql_connect_one (answer : option Z * bool) : option Z * list (option Z) :=
  match answer with
  | (None, _) => (None, [])
  | (Some conn, false) => (None, [Some conn])
  | (Some conn, true) => (Some conn, [])
  end.

(** The loop of [database_pool_create]: [connect i] holds the answers to
    [mysql_connect_one] for slot [i].  On a failure the connections made so far
    are closed, in order, and the pool is freed. *)
Fixpoint connect_loop (connect : nat -> option Z * bool) (n i : nat) (p : database_pool)
    : database_pool + list (option Z) :=
  match n with
  | O => inl p
  | S n =>
      match mysql_connect_one (connect i) with
      | (None, closed) => inr (closed ++ take i (connections p))
      | (Some h, _) =>
          connect_loop connect n (S i)
            {| connections := <[i := Some h]> (connections p); pool_size := pool_size p;
               available := available p + 1 |}
      end
  end.

(** [ok] tells whether the allocations and the two pthread initialisations
    succeed. *)
Definition database_pool_create (ok : bool) (connect : nat -> option Z * bool) (size : Z)
    : option database_pool * list (option Z) :=
  if negb ok then (None, [])
  else
    match connect_loop connect (Z.to_nat size) 0
            {| connections := replicate (Z.to_nat size) None; pool_size := size; available := 0 |} with
    | inl p => (Some p, [])
    | inr closed => (None, closed)
    end.

(** The handles that [database_pool_destroy] closes. *)
Definition database_pool_destroy (p : database_pool) : list (option Z) :=
  take (Z.to_nat (available p)) (connections p).

(** ** Statements on a pooled connection *)

Record db `{MySQL} := { pool : database_pool; srv : server }.
Arguments db {_}.

Section client.
Context `{MySQL}.

Definition dbm (A : Type) : Type := db -> outcome (A * db).
#[global] Instance dbm_ret : MRet dbm := fun A a s => Ret (a, s).
#[global] Instance dbm_bind : MBind dbm := fun A B f m s =>
  r ← m s; f (fst r) (snd r).

(** Undefined behaviour of the caller itself. *)
Definition lift {A} (o : outcome A) : dbm A := fun s => a ← o; Ret (a, s).

Definition acquire : dbm (option Z) := fun s =>
  r ← database_pool_acquire (pool s);
  Ret (fst r, {| pool := snd r; srv := srv s |}).
Definition release (conn : Z) : dbm unit := fun s =>
  p ← database_pool_release (pool s) (Some conn);
  Ret (tt, {| pool := p; srv := srv s |}).
Definition query (conn : Z) (text : list byte) : dbm query_result := fun s =>
  let (r, srv') := mysql_query conn text (srv s) in
  Ret (r, {| pool := pool s; srv := srv' |}).
Definition insert_id (conn : Z) : dbm Z := fun s => Ret (mysql_insert_id conn (srv s), s).

Definition database_pool_execute (text : list byte) : dbm Z :=
  conn ← acquire;
  match conn with
  | None => mret (-1)
  | Some conn =>
      r ← query conn text;
      release conn;;
      match r with
      | QError errno => mret (if errno =? ER_DUP_ENTRY then 1 else -1)
      | QOk _ => mret 0
      end
  end.

(** [None] is the return value -1; otherwise [*out_res]. *)
Definition database_pool_query (text : list byte) : dbm (option (option (list row))) :=
  conn ← acquire;
  match conn with
  | None => mret None
  | Some conn =>
      r ← query conn text;
      release conn;;
      match r with
      | QError _ => mret None
      | QOk res => mret (Some res)
      end
  end.

End client.
