(* ===== verification/DatabasePoolSpec.v ===== *)
(** * The connection pool under concurrent use

    Threads take connections from the pool and give them back; each step is one
    critical section.  A connection is never in two hands, none is lost, and no
    section leaves the array. *)

From S2P Require Import Prelude Database DatabasePool.

(** ** Steps *)

(** The pool and the connections that threads hold. *)
Record pool_use := { u_pool : database_pool; u_held : list Z }.

Inductive use_step : pool_use -> pool_use -> Prop :=
| use_acquire p h p' held :
    acquire_section p = Ret (Some (Some h, p')) ->
    use_step {| u_pool := p; u_held := held |} {| u_pool := p'; u_held := h :: held |}
| use_release p h p' held1 held2 :
    database_pool_release p (Some h) = Ret p' ->
    use_step {| u_pool := p; u_held := held1 ++ h :: held2 |} {| u_pool := p'; u_held := held1 ++ held2 |}.

(** The connection made for slot [i], if any *)
Definition connected (connect : nat -> option Z * bool) (i : nat) : option Z :=
  fst (mysql_connect_one (connect i)).

(** Created with the connections [hs], then used. *)
Inductive use_reachable (hs : list Z) : pool_use -> Prop :=
| use_created connect size p :
    database_pool_create true connect size = (Some p, []) ->
    map (connected connect) (seq 0 (Z.to_nat size)) = map Some hs ->
    use_reachable hs {| u_pool := p; u_held := [] |}
| use_more u u' : use_reachable hs u -> use_step u u' -> use_reachable hs u'.

(** ** Invariant *)

Record use_inv (hs : list Z) (u : pool_use) (free : list Z) : Prop := {
  ui_slots : DatabasePool.connections (u_pool u) =
    map Some free ++ replicate (length hs - length free) None;
  ui_available : available (u_pool u) = Z.of_nat (length free);
  ui_all : free ++ u_held u ≡ₚ hs
}.

Lemma use_inv_length hs u free :
  use_inv hs u free -> (length free <= length hs)%nat /\
  length (DatabasePool.connections (u_pool u)) = length hs.
Proof.
  intros [Hc _ Hp]. apply Permutation_length in Hp. rewrite length_app in Hp.
  rewrite Hc, length_app, length_map, length_replicate. lia.
Qed.

(** Creation fills the array from the left. *)
Lemma connect_loop_fill connect n i hs p :
  map (connected connect) (seq i n) = map Some hs -> available p = Z.of_nat i ->
  (length (DatabasePool.connections p) = i + n)%nat ->
  connect_loop connect n i p = inl {|
    DatabasePool.connections := take i (DatabasePool.connections p) ++ map Some hs;
    pool_size := pool_size p; available := Z.of_nat (i + n) |}.
Proof.
  revert i hs p. induction n as [| n IH]; intros i hs p Hm Ha Hl; cbn [connect_loop].
  - destruct hs; [| done]. rewrite app_nil_r, take_ge by lia. rewrite Nat.add_0_r.
    destruct p; simpl in *. by subst.
  - cbn [seq map] in Hm. destruct hs as [| h hs]; [done |]. injection Hm as Hh Hm. unfold connected in Hh.
    destruct (mysql_connect_one (connect i)) as [o closed]. simpl in Hh. subst o.
    rewrite (IH (S i) hs) by (simpl; rewrite ?length_insert; done || lia). cbn [DatabasePool.connections pool_size].
    f_equal. f_equal; [| lia].
    rewrite (take_S_r _ i (Some h)) by (apply list_lookup_insert_eq; lia).
    rewrite take_insert_ge by lia. by rewrite <- app_assoc.
Qed.

(** A creation that fails closes every handle that [mysql_init] returned. *)
Lemma connect_loop_closes connect n i hs p closed :
  DatabasePool.connections p = map Some hs ++ replicate n None -> length hs = i ->
  connect_loop connect n i p = inr closed ->
  exists k, (i <= k < i + n)%nat /\ connected connect k = None /\
    closed ≡ₚ map Some (hs ++ omap (fun j => fst (connect j)) (seq i (S k - i))).
Proof.
  revert i hs p. induction n as [| n IH]; intros i hs p Hc Hl; cbn [connect_loop]; [done |].
  destruct (mysql_connect_one (connect i)) as [[h |] cl] eqn:E.
  - intros Hrun. apply (IH (S i) (hs ++ [h])) in Hrun as (k & Hk & Hnone & Hp).
    + exists k. split; [lia |]. split; [done |]. rewrite Hp.
      replace (S k - i)%nat with (S (S k - S i)) by lia. cbn [seq omap list_omap].
      assert (fst (connect i) = Some h) as ->.
      { destruct (connect i) as [[c |] []]; by simplify_eq/=. }
      by rewrite <- app_assoc.
    + cbn [DatabasePool.connections]. rewrite Hc, map_app, <- app_assoc.
      rewrite insert_app_r_alt by (rewrite length_map; lia). by rewrite length_map, Hl, Nat.sub_diag.
    + rewrite length_app. simpl. lia.
  - intros [= <-]. exists i. split; [lia |]. split; [unfold connected; by rewrite E |].
    replace (S i - i)%nat with 1%nat by lia. cbn [seq omap list_omap].
    rewrite Hc, take_app_length' by (by rewrite length_map).
    rewrite map_app, Permutation_app_comm. f_equiv.
    destruct (connect i) as [[c |] []]; by simplify_eq/=.
Qed.

Lemma database_pool_create_closes connect size closed :
  database_pool_create true connect size = (None, closed) ->
  exists k, (k < Z.to_nat size)%nat /\ connected connect k = None /\
    closed ≡ₚ map Some (omap (fun j => fst (connect j)) (seq 0 (S k))).
Proof.
  unfold database_pool_create. simpl. destruct (connect_loop _ _ _ _) as [p | cl] eqn:E; [done |]. intros [= <-].
  apply (connect_loop_closes _ _ _ []) in E as (k & Hk & Hn & Hp); [| done ..].
  exists k. split; [lia |]. split; [done |]. by rewrite Nat.sub_0_r in Hp.
Qed.

Lemma create_inv hs connect size p :
  database_pool_create true connect size = (Some p, []) ->
  map (connected connect) (seq 0 (Z.to_nat size)) = map Some hs ->
  use_inv hs {| u_pool := p; u_held := [] |} hs.
Proof.
  intros Hc Hm. unfold database_pool_create in Hc. simpl in Hc.
  assert (Hl : length hs = Z.to_nat size).
  { apply (f_equal length) in Hm. rewrite !length_map, length_seq in Hm. done. }
  rewrite (connect_loop_fill connect _ 0 hs) in Hc by (simpl; rewrite ?length_replicate; done).
  injection Hc as <-. split; simpl.
  - by rewrite Nat.sub_diag, app_nil_r.
  - lia.
  - by rewrite app_nil_r.
Qed.

Lemma acquire_inv hs p held free :
  use_inv hs {| u_pool := p; u_held := held |} free ->
  match rev free with
  | [] => acquire_section p = Ret None
  | h :: rest => exists p', acquire_section p = Ret (Some (Some h, p')) /\
                   use_inv hs {| u_pool := p'; u_held := h :: held |} (rev rest)
  end.
Proof.
  intros Hi. destruct (use_inv_length _ _ _ Hi) as [Hle Hlen]. destruct Hi as [Hc Ha Hp]. simpl in *.
  unfold acquire_section. rewrite Ha. destruct (rev free) as [| h rest] eqn:E.
  - apply (f_equal (@rev Z)) in E. rewrite rev_involutive in E. by subst.
  - apply (f_equal (@rev Z)) in E. rewrite rev_involutive in E. simpl in E. subst free.
    rewrite length_app in *. simpl length in *.
    destruct (Z.eqb_spec (Z.of_nat (length (rev rest) + 1)) 0); [lia |].
    destruct (Z.ltb_spec (Z.of_nat (length (rev rest) + 1) - 1) 0); [lia |].
    rewrite Hlen. destruct (Z.leb_spec (Z.of_nat (length hs)) (Z.of_nat (length (rev rest) + 1) - 1)); [lia |].
    simpl. replace (Z.to_nat (Z.of_nat (length (rev rest) + 1) - 1)) with (length (rev rest)) by lia.
    assert (Hat : DatabasePool.connections p !! length (rev rest) = Some (Some h)).
    { rewrite Hc, map_app, <- app_assoc. rewrite lookup_app_r by (by rewrite length_map).
      by rewrite length_map, Nat.sub_diag. }
    rewrite Hat. simpl. eexists. split; [done |]. split; simpl.
    + rewrite Hc, map_app, <- app_assoc. simpl.
      rewrite insert_app_r_alt by (by rewrite length_map). rewrite length_map, Nat.sub_diag. simpl.
      f_equal. replace (length hs - length (rev rest))%nat with (S (length hs - (length (rev rest) + 1))) by lia. done.
    + lia.
    + rewrite <- Hp, <- app_assoc. done.
Qed.

Lemma release_inv hs p h held1 held2 free :
  use_inv hs {| u_pool := p; u_held := held1 ++ h :: held2 |} free ->
  exists p', database_pool_release p (Some h) = Ret p' /\
    use_inv hs {| u_pool := p'; u_held := held1 ++ held2 |} (free ++ [h]).
Proof.
  intros Hi. destruct (use_inv_length _ _ _ Hi) as [Hle Hlen]. destruct Hi as [Hc Ha Hp]. simpl in *.
  pose proof (Permutation_length Hp) as Hpl. rewrite !length_app in Hpl. simpl in Hpl.
  unfold database_pool_release. rewrite Ha, Hlen.
  destruct (Z.ltb_spec (Z.of_nat (length free)) 0); [lia |].
  destruct (Z.leb_spec (Z.of_nat (length hs)) (Z.of_nat (length free))); [lia |]. simpl.
  eexists. split; [done |]. split; simpl.
  - rewrite Nat2Z.id, Hc. rewrite insert_app_r_alt by (rewrite length_map; lia).
    rewrite length_map, Nat.sub_diag, map_app, <- app_assoc. simpl. f_equal.
    rewrite length_app. simpl.
    replace (length hs - length free)%nat with (S (length hs - (length free + 1))) by lia. done.
  - rewrite length_app. simpl. lia.
  - rewrite <- Hp, <- app_assoc. simpl. f_equiv. apply Permutation_middle.
Qed.

Lemma use_reachable_inv hs u : use_reachable hs u -> exists free, use_inv hs u free.
Proof.
  induction 1 as [connect size p Hc Hm | u u' _ [free Hi] Hstep].
  - exists hs. by eapply create_inv.
  - destruct Hstep as [p h p' held Ha | p h p' held1 held2 Hr].
    + pose proof (acquire_inv _ _ _ _ Hi) as Hc. destruct (rev free) as [| h' rest]; [congruence |].
      destruct Hc as (p'' & Ha' & Hi'). rewrite Ha in Ha'. injection Ha' as <- <-. by eexists.
    + destruct (release_inv _ _ _ _ _ _ Hi) as (p'' & Hr' & Hi'). rewrite Hr in Hr'.
      injection Hr' as <-. by eexists.
Qed.

(** ** Property *)

(** (C25) Exclusive use: in every interleaving of acquisitions and releases on a
    pool created with distinct connections, the free connections and those that
    threads hold are together exactly the created ones, each once.  A thread
    entering [database_pool_acquire] waits only when every connection is held,
    and otherwise gets one that nobody holds; giving back a held connection
    always stays within the array. *)
Theorem database_pool_exclusive hs u :
  NoDup hs -> use_reachable hs u ->
  NoDup (u_held u) /\
  match acquire_section (u_pool u) with
  | Ret None => u_held u ≡ₚ hs
  | Ret (Some (Some h, _)) => h ∈ hs /\ (h ∉ u_held u)
  | _ => False
  end /\
  (forall h, h ∈ u_held u -> exists p', database_pool_release (u_pool u) (Some h) = Ret p' /\
     available p' = available (u_pool u) + 1 /\ available p' <= Z.of_nat (length hs)).
Proof.
  intros Hnd Hr. destruct (use_reachable_inv hs u Hr) as [free Hi]. pose proof Hi as [_ _ Hp].
  destruct u as [p held]. simpl in *. rewrite <- Hp in Hnd. apply NoDup_app in Hnd as (Hnf & Hdisj & Hnh).
  split_and!; [done | |].
  - pose proof (acquire_inv _ _ _ _ Hi) as Ha. destruct (rev free) as [| h rest] eqn:E.
    + rewrite Ha. apply (f_equal (@rev Z)) in E. rewrite rev_involutive in E. by subst.
    + destruct Ha as (p' & -> & _). assert (Hin : h ∈ free).
      { apply list_elem_of_In, in_rev. rewrite E. by left. }
      split; [| by apply Hdisj]. rewrite <- Hp. apply elem_of_app. by left.
  - intros h Hin. apply list_elem_of_split in Hin as (h1 & h2 & ->).
    destruct (release_inv _ _ _ _ _ _ Hi) as (p' & Hrel & Hi'). exists p'. split; [done |].
    destruct (use_inv_length _ _ _ Hi') as [Hl _]. destruct Hi' as [_ Ha' _], Hi as [_ Ha _]. simpl in *.
    rewrite length_app in *. simpl in *. lia.
Qed.

(** ** Witness *)

Lemma database_pool_exclusive_witness :
  let p := {| DatabasePool.connections := [Some 70; Some 71]; pool_size := 2; available := 2 |} in
  exists p', use_step {| u_pool := p; u_held := [] |} {| u_pool := p'; u_held := [71] |} /\
    NoDup [71] /\ exists q, acquire_section p' = Ret (Some (Some 70, q)) /\ 70 ∉ [71].
Proof.
  intros p. exists {| DatabasePool.connections := [Some 70; None]; pool_size := 2; available := 1 |}.
  assert (Hstep : use_step {| u_pool := p; u_held := [] |}
    {| u_pool := {| DatabasePool.connections := [Some 70; None]; pool_size := 2; available := 1 |}; u_held := [71] |}).
  { by apply use_acquire. }
  split; [exact Hstep |].
  destruct (database_pool_exclusive [70; 71] {| u_pool := {| DatabasePool.connections := [Some 70; None];
      pool_size := 2; available := 1 |}; u_held := [71] |}) as (Hnd & Ha & _).
  - apply (bool_decide_unpack _). vm_compute. exact I.
  - eapply use_more; [| exact Hstep].
    apply (use_created _ (fun i => (Some (70 + Z.of_nat i), true)) 2); reflexivity.
  - split; [exact Hnd |]. eexists. split; [reflexivity |]. apply Ha.
Defined.
