(* ===== verification/Dao.v ===== *)
(** * Data access ([src/server/dao_basic.c], [dao_auth.c], [dao_transfer.c])

    Each function formats its statements into a fixed buffer, runs them on one
    pooled connection and interprets the rows. *)

From Stdlib Require Import Strings.Byte.
From S2P Require Import Prelude CString Protocol Database DatabasePool.

(** ** Result codes *)

Inductive dao_path_result :=
| DAO_PATH_IS_FILE | DAO_PATH_IS_DIR | DAO_PATH_NOT_FOUND | DAO_PATH_DB_ERROR | DAO_PATH_BAD_ARG.

Inductive dao_status :=
| DAO_OK | DAO_NOT_FOUND | DAO_ALREADY_EXISTS | DAO_TYPE_MISMATCH | DAO_SHOULD_DELETE_PHYSICAL
| DAO_BAD_ARG | DAO_DB_ERROR | DAO_CONFLICT.

#[global] Instance dao_path_result_eq : EqDecision dao_path_result.
Proof. solve_decision. Defined.
#[global] Instance dao_status_eq : EqDecision dao_status.
Proof. solve_decision. Defined.

Definition CRYPT_OUTPUT_SIZE : Z := 384.

Record login_info := { li_user_id : Z; li_password_hash : list byte; li_root_path_id : Z }.

Record file_meta := {
  fm_path_id : Z; fm_file_id : Z; fm_file_name : list byte; fm_size : Z;
  (** the 65 bytes of the array *)
  fm_sha256_hex : list byte
}.

(** ** Result sets *)

(** [mysql_num_rows(res)] reads through [res]. *)
Definition num_rows (res : option (list row)) : outcome Z :=
  rows ← deref res; Ret (Z.of_nat (length rows)).
(** [mysql_fetch_row(res)] on a fresh result set: the first row, or NULL. *)
Definition fetch_row (res : option (list row)) : outcome (option row) :=
  rows ← deref res; Ret (head rows).
(** [row[i]], possibly NULL *)
Definition column (r : row) (i : nat) : outcome (option (list byte)) := deref (r !! i).
(** [row[i]] where the code reads the text *)
Definition column_text (r : row) (i : nat) : outcome (list byte) := c ← column r i; deref c.

(** [snprintf(sql, size, ...)] *)
Definition sql_buffer (buffer_size : Z) (text : list byte) : list byte := snd (snprintf buffer_size text).

Section dao.
Context `{MySQL}.

(** ** [dao_basic.c] *)

(** The second component is what is stored in [*path_id], if anything is. *)
Definition dao_path_get_node_id (user_id : Z) (virtual_path : list byte)
    : dbm (dao_path_result * option Z) :=
  res ← database_pool_query (sql_buffer 1024 (sql (SelectNode user_id virtual_path)));
  match res with
  | None => mret (DAO_PATH_DB_ERROR, None)
  | Some res =>
      n ← lift (num_rows res);
      if n =? 0 then mret (DAO_PATH_NOT_FOUND, None)
      else
        r ← lift (fetch_row res);
        match r with
        | None => mret (DAO_PATH_DB_ERROR, None)
        | Some r =>
            c0 ← lift (column r 0);
            match c0 with
            | None => mret (DAO_PATH_DB_ERROR, None)
            | Some c0 =>
                c1 ← lift (column r 1);
                match c1 with
                | None => mret (DAO_PATH_DB_ERROR, None)
                | Some c1 =>
                    let path_id := strtoull c0 in
                    let file_type := to_int (strtol c1) in
                    if file_type =? 0 then mret (DAO_PATH_IS_FILE, Some path_id)
                    else if file_type =? 1 then mret (DAO_PATH_IS_DIR, Some path_id)
                    else mret (DAO_PATH_DB_ERROR, Some path_id)
                end
            end
        end
  end.

Definition dao_path_insert_dir (user_id : Z) (target_path : list byte) (parent_id : Z)
    (file_name : list byte) : dbm Z :=
  database_pool_execute
    (sql_buffer 1024 (sql (InsertPath user_id target_path None (Some parent_id) file_name 1))).

Definition dao_path_dir_has_child (user_id parent_id : Z) : dbm Z :=
  res ← database_pool_query (sql_buffer 1024 (sql (SelectChildren user_id parent_id)));
  match res with
  | None => mret (-1)
  | Some res => n ← lift (num_rows res); mret (to_int n)
  end.

Definition dao_path_rmdir (target_dir_id : Z) : dbm Z :=
  database_pool_execute (sql_buffer 1024 (sql (DeletePath target_dir_id))).

(** The loop over the rows: [used] and the string in [ls_resp] so far. *)
Fixpoint ls_loop (buffer_size : Z) (rows : list row) (used : Z) (ls_resp : list byte)
    : outcome (list byte) :=
  match rows with
  | [] => Ret ls_resp
  | r :: rows =>
      ty ← column_text r 1;
      u ← (if strtol ty =? 1
           then name ← column_text r 0;
                let (n, s) := snprintf (buffer_size - used) (name ++ lit "/  ") in
                Ret (used + n, ls_resp ++ s)
           else Ret (used, ls_resp));
      let '(used, ls_resp) := u in
      u ← (if strtol ty =? 0
           then name ← column_text r 0;
                let (n, s) := snprintf (buffer_size - used) (name ++ lit "  ") in
                Ret (used + n, ls_resp ++ s)
           else Ret (used, ls_resp));
      let '(used, ls_resp) := u in
      if buffer_size <=? used then Ret ls_resp
      else ls_loop buffer_size rows used ls_resp
  end.

(** [ls_resp] holds the empty string at the call.  The terminator that the source
    writes before leaving the loop is where the truncated [snprintf] put it. *)
Definition dao_path_get_ls_dir (user_id parent_id : Z) (buffer_size : Z) : dbm (Z * list byte) :=
  res ← database_pool_query (sql_buffer 1024 (sql (SelectLs user_id parent_id)));
  match res with
  | None => mret (-1, [])
  | Some res =>
      n ← lift (num_rows res);
      rows ← lift (deref res);
      ls_resp ← lift (ls_loop buffer_size rows 0 []);
      mret (to_int n, ls_resp)
  end.

(** ROLLBACK, give the connection back and return [result]. *)
Definition abandon {A} (conn : Z) (result : A) : dbm A :=
  query conn (sql Rollback);; release conn;; mret result.

(** Run a statement; on an error abandon the transaction with [result]. *)
Definition or_abandon {A} (conn : Z) (text : list byte) (result : A)
    (k : option (list row) -> dbm A) : dbm A :=
  r ← query conn text;
  match r with
  | QError _ => abandon conn result
  | QOk res => k res
  end.

(** [dao_rm_file] from the second SELECT on: the stored file goes with its last
    reference. *)
Definition rm_file_finish (conn file_id hash_out_size : Z) : dbm (dao_status * list byte) :=
  or_abandon conn (sql_buffer 1024 (sql (SelectRefs file_id))) (DAO_DB_ERROR, [])
  (fun res =>
     match res with
     | None => abandon conn (DAO_DB_ERROR, [])
     | Some rows =>
         c0 ← lift (match head rows with Some r => column r 0 | None => Ret None end);
         c1 ← lift (match head rows with Some r => column r 1 | None => Ret None end);
         match c0, c1 with
         | Some c0, Some c1 =>
             if to_int (strtol c0) =? 0 then
               let hash_out := strncpy0 hash_out_size c1 in
               or_abandon conn (sql_buffer 1024 (sql (DeleteFile file_id))) (DAO_DB_ERROR, hash_out)
               (fun _ =>
               or_abandon conn (sql Commit) (DAO_DB_ERROR, hash_out)
               (fun _ => release conn;; mret (DAO_SHOULD_DELETE_PHYSICAL, hash_out)))
             else
               or_abandon conn (sql Commit) (DAO_DB_ERROR, [])
               (fun _ => release conn;; mret (DAO_OK, []))
         | _, _ => abandon conn (DAO_DB_ERROR, [])
         end
     end).

(** [*hash_out] is the second component. *)
Definition dao_rm_file (user_id path_id hash_out_size : Z) : dbm (dao_status * list byte) :=
  conn ← acquire;
  match conn with
  | None => mret (DAO_DB_ERROR, [])
  | Some conn =>
      r ← query conn (sql StartTransaction);
      match r with
      | QError _ => release conn;; mret (DAO_DB_ERROR, [])
      | QOk _ =>
          or_abandon conn (sql_buffer 1024 (sql (SelectFileId path_id user_id))) (DAO_DB_ERROR, [])
          (fun res =>
             match res with
             | None => abandon conn (DAO_DB_ERROR, [])
             | Some rows =>
                 c ← lift (match head rows with Some r => column r 0 | None => Ret None end);
                 match c with
                 | None => abandon conn (DAO_NOT_FOUND, [])
                 | Some c =>
                     let file_id := strtoull c in
                     or_abandon conn (sql_buffer 1024 (sql (DeleteFilePath path_id user_id))) (DAO_DB_ERROR, [])
                     (fun _ =>
                     or_abandon conn (sql_buffer 1024 (sql (DecrementRefs file_id))) (DAO_DB_ERROR, [])
                     (fun _ => rm_file_finish conn file_id hash_out_size))
                 end
             end)
      end
  end.

(** 1, 0 and -1 as the source returns them; the second component is what is
    stored in [*file_id]. *)
Definition dao_file_find_by_hash (sha256_hex : list byte) (file_size : Z) : dbm (Z * option Z) :=
  res ← database_pool_query (sql_buffer 1024 (sql (SelectByHash sha256_hex file_size)));
  match res with
  | None => mret (-1, None)
  | Some res =>
      n ← lift (num_rows res);
      if n =? 0 then mret (0, None)
      else
        r ← lift (fetch_row res);
        match r with
        | None => mret (-1, None)
        | Some r =>
            c0 ← lift (column r 0);
            match c0 with
            | None => mret (-1, None)
            | Some c0 => mret (1, Some (strtoull c0))
            end
        end
  end.

(** ** [dao_auth.c] *)

Definition dao_auth_register (username password_hash : list byte) : dbm Z :=
  conn ← acquire;
  match conn with
  | None => mret (-1)
  | Some conn =>
      r ← query conn (sql StartTransaction);
      match r with
      | QError _ => release conn;; mret (-1)
      | QOk _ =>
          or_abandon conn (sql_buffer 1024 (sql (InsertUser username password_hash))) (-1)
          (fun _ =>
             user_id ← insert_id conn;
             or_abandon conn (sql_buffer 1024 (sql (InsertPath user_id [SLASH] None None [SLASH] 1))) (-1)
             (fun _ =>
             or_abandon conn (sql Commit) (-1)
             (fun _ => release conn;; mret 0)))
      end
  end.

(** 0 with the record, 1 when there is no such user, -1 on an error. *)
Definition dao_auth_get_login_info (username : list byte) : dbm (Z * login_info) :=
  let zero := {| li_user_id := 0; li_password_hash := []; li_root_path_id := 0 |} in
  res ← database_pool_query (sql_buffer 1024 (sql (SelectLogin username)));
  match res with
  | None => mret (-1, zero)
  | Some res =>
      n ← lift (num_rows res);
      if n =? 0 then mret (1, zero)
      else
        r ← lift (fetch_row res);
        match r with
        | None => mret (-1, zero)
        | Some r =>
            c0 ← lift (column r 0); c1 ← lift (column r 1); c2 ← lift (column r 2);
            match c0, c1, c2 with
            | Some c0, Some c1, Some c2 =>
                let out := {| li_user_id := strtoull c0; li_password_hash := [];
                              li_root_path_id := strtoull c2 |} in
                if CRYPT_OUTPUT_SIZE <=? Z.of_nat (length c1) then mret (-1, out)
                else mret (0, {| li_user_id := strtoull c0;
                                 li_password_hash := strncpy0 CRYPT_OUTPUT_SIZE c1;
                                 li_root_path_id := strtoull c2 |})
            | _, _, _ => mret (-1, zero)
            end
        end
  end.

(** ** [dao_transfer.c] *)

(** [mysql_real_escape_string] into a buffer of [capacity] bytes *)
Definition escape_into (capacity : Z) (s : list byte) : outcome (list byte) :=
  let e := mysql_real_escape_string s in
  if capacity <=? Z.of_nat (length e) then Undef else Ret e.

Definition dao_link_existing_file (user_id : Z) (target_path : list byte) (parent_id : Z)
    (file_name : list byte) (file_id : Z) : dbm Z :=
  conn ← acquire;
  match conn with
  | None => mret (-1)
  | Some conn =>
      escaped_path ← lift (escape_into (PATH_MAX * 2 + 1) target_path);
      escaped_name ← lift (escape_into (NAME_MAX * 2 + 1) file_name);
      r ← query conn (sql StartTransaction);
      match r with
      | QError _ => release conn;; mret (-1)
      | QOk _ =>
          or_abandon conn (sql_buffer 10240 (sql (IncrementRefs file_id))) (-1)
          (fun _ =>
          or_abandon conn
            (sql_buffer 10240 (sql (InsertPath user_id escaped_path (Some file_id) (Some parent_id) escaped_name 0)))
            (-1)
          (fun _ =>
          or_abandon conn (sql Commit) (-1)
          (fun _ => release conn;; mret 0)))
      end
  end.

Definition dao_create_file_with_path (user_id : Z) (target_path : list byte) (parent_id : Z)
    (file_name sha256_hex : list byte) (file_size : Z) : dbm Z :=
  conn ← acquire;
  match conn with
  | None => mret (-1)
  | Some conn =>
      escaped_path ← lift (escape_into (PATH_MAX * 2 + 1) target_path);
      escaped_name ← lift (escape_into (NAME_MAX * 2 + 1) file_name);
      r ← query conn (sql StartTransaction);
      match r with
      | QError _ => release conn;; mret (-1)
      | QOk _ =>
          or_abandon conn (sql_buffer 10240 (sql (UpsertFile sha256_hex file_size))) (-1)
          (fun _ =>
             file_id ← insert_id conn;
             if file_id =? 0 then abandon conn (-1)
             else
               or_abandon conn
                 (sql_buffer 10240 (sql (InsertPath user_id escaped_path (Some file_id) (Some parent_id) escaped_name 0)))
                 (-1)
               (fun _ =>
               or_abandon conn (sql Commit) (-1)
               (fun _ => release conn;; mret 0)))
      end
  end.

(** [file_meta0] is the caller's record before the call; the array
    [sha256_hex] keeps the bytes that [strncpy] does not write. *)
Definition dao_get_file_meta (user_id : Z) (target_path : list byte) (file_meta0 : file_meta)
    : dbm (dao_status * file_meta) :=
  res ← database_pool_query (sql_buffer 1024 (sql (SelectMeta user_id target_path)));
  match res with
  | None => mret (DAO_DB_ERROR, file_meta0)
  | Some res =>
      n ← lift (num_rows res);
      if n =? 0 then mret (DAO_NOT_FOUND, file_meta0)
      else
        r ← lift (fetch_row res);
        match r with
        | None => mret (DAO_DB_ERROR, file_meta0)
        | Some r =>
            c0 ← lift (column_text r 0);
            c1 ← lift (column_text r 1);
            c2 ← lift (column_text r 2);
            c3 ← lift (column_text r 3);
            c4 ← lift (column_text r 4);
            c5 ← lift (column_text r 5);
            let hex := take 64 (c5 ++ replicate 64 NUL) ++ drop 64 (fm_sha256_hex file_meta0) in
            let m := {| fm_path_id := strtoull c0; fm_file_id := strtoull c1;
                        fm_file_name := strncpy0 NAME_MAX c2; fm_size := strtoull c4;
                        fm_sha256_hex := hex |} in
            if to_int (strtol c3) =? 1 then mret (DAO_TYPE_MISMATCH, m) else mret (DAO_OK, m)
        end
  end.

End dao.
