(* ===== verification/Tables.v ===== *)
(** * Invariant of the database tables

    The rows of [users], [files] and [paths] as a forest of directories per user
    over reference-counted files, and the preservation of this invariant by the
    changes that the statements of the program make. *)

From Stdlib Require Import Strings.Byte.
From S2P Require Import Prelude CString Database.

(** ** Rows that a condition selects *)

Lemma where_unique {A} (p : A -> bool) (m : gmap Z A) :
  (forall i j a b, m !! i = Some a -> m !! j = Some b -> p a = true -> p b = true -> i = j) ->
  forall i a, m !! i = Some a -> p a = true ->
  List.filter (fun ir => p (snd ir)) (map_to_list m) = [(i, a)].
Proof.
  intros Hu i a Hi Ha. assert (Hin := proj2 (elem_of_where p m i a) (conj Hi Ha)).
  assert (Hnd : NoDup (List.filter (fun ir => p (snd ir)) (map_to_list m))).
  { apply NoDup_ListNoDup, List.NoDup_filter, NoDup_ListNoDup, NoDup_map_to_list. }
  set (l := List.filter _ _) in *. assert (Hall : forall x, x ∈ l -> x = (i, a)).
  { intros [j b] Hj. apply elem_of_where in Hj as [Hj Hb].
    assert (j = i) as -> by eauto. congruence. }
  clearbody l. destruct l as [| x [| y l]].
  - by apply elem_of_nil in Hin.
  - by rewrite (Hall x) by left.
  - exfalso. assert (Hx := Hall x ltac:(left)). assert (Hy := Hall y ltac:(right; left)).
    subst. apply NoDup_cons in Hnd as [Hn _]. apply Hn. left.
Qed.

Lemma where_head {A} (p : A -> bool) (m : gmap Z A) :
  (forall i j a b, m !! i = Some a -> m !! j = Some b -> p a = true -> p b = true -> i = j) ->
  forall i a, head (List.filter (fun ir => p (snd ir)) (map_to_list m)) = Some (i, a) <->
  m !! i = Some a /\ p a = true.
Proof.
  intros Hu i a. split.
  - intros Hh. apply (elem_of_where p). by apply head_Some_elem_of.
  - intros [Hi Ha]. by rewrite (where_unique p m Hu i a).
Qed.

Lemma where_option {A} (p : A -> bool) (m : gmap Z A) :
  (forall i j a b, m !! i = Some a -> m !! j = Some b -> p a = true -> p b = true -> i = j) ->
  let l := List.filter (fun ir => p (snd ir)) (map_to_list m) in l = option_list (head l).
Proof.
  intros Hu l. destruct (head l) as [[i a] |] eqn:E; [| by apply head_None in E].
  apply (where_head p m Hu) in E as [Hi Ha]. by apply where_unique.
Qed.

Lemma where_none {A} (p : A -> bool) (m : gmap Z A) :
  List.filter (fun ir => p (snd ir)) (map_to_list m) = [] <->
  forall i a, m !! i = Some a -> p a = false.
Proof.
  split.
  - intros He i a Hi. destruct (p a) eqn:E; [| done].
    assert (Hin := proj2 (elem_of_where p m i a) (conj Hi E)). rewrite He in Hin. by apply elem_of_nil in Hin.
  - intros Hn. destruct (List.filter _ _) as [| [i a] l] eqn:E; [done |].
    assert (Hin : (i, a) ∈ List.filter (fun ir => p (snd ir)) (map_to_list m)) by (rewrite E; left).
    apply elem_of_where in Hin as [Hi Ha]. specialize (Hn i a Hi). congruence.
Qed.

(** ** References to files *)

(** The number of path rows that refer to file [fid] *)
Definition references (fid : Z) (m : gmap Z path_row) : Z :=
  Z.of_nat (size (filter (fun ir : Z * path_row => p_file (snd ir) = Some fid) m)).

Lemma references_insert fid m i r :
  m !! i = None ->
  references fid (<[i := r]> m) = references fid m + (if bool_decide (p_file r = Some fid) then 1 else 0).
Proof.
  intros Hi. unfold references. case_bool_decide as E.
  - rewrite map_filter_insert_True by done. rewrite map_size_insert_None; [lia |].
    apply map_lookup_filter_None. by left.
  - rewrite map_filter_insert_False by done. rewrite delete_id by done. lia.
Qed.

Lemma references_delete fid m i r :
  m !! i = Some r ->
  references fid (delete i m) = references fid m - (if bool_decide (p_file r = Some fid) then 1 else 0).
Proof.
  intros Hi. rewrite <- (insert_id m i r Hi) at 2. rewrite <- insert_delete_eq.
  rewrite references_insert by apply lookup_delete_eq. lia.
Qed.

Lemma references_pos fid m i r : m !! i = Some r -> p_file r = Some fid -> 0 < references fid m.
Proof.
  intros Hi Hf. pose proof (references_delete fid m i r Hi) as Hd. rewrite bool_decide_eq_true_2 in Hd by done.
  assert (0 <= references fid (delete i m)) by (unfold references; lia). lia.
Qed.

Lemma references_none fid m : (forall i r, m !! i = Some r -> p_file r <> Some fid) -> references fid m = 0.
Proof.
  intros Hn. unfold references.
  assert (filter (fun ir : Z * path_row => p_file (snd ir) = Some fid) m = ∅) as ->; [| done].
  apply map_empty. intros i. apply map_lookup_filter_None. right. intros r Hi. by eapply Hn.
Qed.

(** ** The invariant *)

Section invariant.
Context (same : list byte -> list byte -> bool).
Context (same_equiv : Equivalence (fun a b => same a b = true)).

Lemma same_join a b c : same a c = true -> same b c = true -> same a b = true.
Proof.
  intros Ha Hb. apply (@Equivalence_Transitive _ _ same_equiv a c b); [done |].
  by apply (@Equivalence_Symmetric _ _ same_equiv).
Qed.

(** Every row but the root directories has a parent: a directory of the same
    user. *)
Definition parent_ok (m : gmap Z path_row) (r : path_row) : Prop :=
  match p_parent r with
  | None => p_path r = [SLASH]
  | Some j => exists r', m !! j = Some r' /\ p_user r' = p_user r /\ p_type r' = 1
  end.

Record tables_ok (t : tables) : Prop := {
  paths_unique : forall i j r r', paths t !! i = Some r -> paths t !! j = Some r' ->
    p_user r = p_user r' -> same (p_path r) (p_path r') = true -> i = j;
  users_unique : forall i j u u', users t !! i = Some u -> users t !! j = Some u' ->
    same (u_name u) (u_name u') = true -> i = j;
  files_unique : forall i j f f', files t !! i = Some f -> files t !! j = Some f' ->
    f_hash f = f_hash f' -> i = j;
  path_ids : forall i r, paths t !! i = Some r -> 0 < i < 2 ^ 63;
  user_ids : forall i u, users t !! i = Some u -> 0 < i < 2 ^ 31;
  file_ids : forall i f, files t !! i = Some f -> 0 < i < 2 ^ 63;
  path_owner : forall i r, paths t !! i = Some r -> is_Some (users t !! p_user r);
  path_type : forall i r, paths t !! i = Some r ->
    (p_type r = 0 /\ exists fid, p_file r = Some fid /\ is_Some (files t !! fid)) \/
    (p_type r = 1 /\ p_file r = None);
  path_parent : forall i r, paths t !! i = Some r -> parent_ok (paths t) r;
  user_root : forall i u, users t !! i = Some u ->
    exists j r, paths t !! j = Some r /\ p_user r = i /\ p_path r = [SLASH] /\ p_parent r = None /\ p_type r = 1;
  file_refs : forall i f, files t !! i = Some f -> f_refs f = references i (paths t) /\ 0 < f_refs f
}.

Lemma tables_ok_empty : tables_ok {| users := ∅; files := ∅; paths := ∅ |}.
Proof. by split; simpl; intros until 0; rewrite lookup_empty. Qed.

Lemma at_path_iff uid path r : at_path same uid path r = true <-> p_user r = uid /\ same (p_path r) path = true.
Proof. unfold at_path. rewrite andb_true_iff, Z.eqb_eq. done. Qed.

Lemma at_path_unique t uid path : tables_ok t ->
  forall i j a b, paths t !! i = Some a -> paths t !! j = Some b ->
  at_path same uid path a = true -> at_path same uid path b = true -> i = j.
Proof.
  intros Hok i j a b Hi Hj. rewrite !at_path_iff. intros [Hu1 Hs1] [Hu2 Hs2].
  eapply (paths_unique t Hok); [done | done | congruence |].
  by eapply same_join.
Qed.

(** The row of a user's path *)
Definition find_node (t : tables) (uid : Z) (path : list byte) : option (Z * path_row) :=
  head (paths_where (at_path same uid path) t).

Lemma find_node_Some t uid path i r :
  tables_ok t ->
  find_node t uid path = Some (i, r) <-> paths t !! i = Some r /\ p_user r = uid /\ same (p_path r) path = true.
Proof.
  intros Hok. unfold find_node, paths_where. rewrite <- at_path_iff.
  by apply where_head, at_path_unique.
Qed.

Lemma find_node_where t uid path : tables_ok t ->
  paths_where (at_path same uid path) t = option_list (find_node t uid path).
Proof. intros Hok. by apply where_option, at_path_unique. Qed.

Lemma find_node_None t uid path :
  find_node t uid path = None <->
  forall i r, paths t !! i = Some r -> p_user r = uid -> same (p_path r) path = false.
Proof.
  unfold find_node. rewrite head_None. unfold paths_where. rewrite (where_none (at_path same uid path)).
  split; intros Hn i r Hi.
  - intros Hu. specialize (Hn i r Hi). apply not_true_iff_false in Hn. rewrite at_path_iff in Hn.
    apply not_true_iff_false. naive_solver.
  - apply not_true_iff_false. rewrite at_path_iff. intros [Hu Hs]. specialize (Hn i r Hi Hu). congruence.
Qed.

(** The children of a directory *)
Definition children (t : tables) (uid parent : Z) : list (Z * path_row) := paths_where (under uid parent) t.

Lemma children_nil t uid parent :
  children t uid parent = [] <->
  forall i r, paths t !! i = Some r -> p_user r = uid -> p_parent r <> Some parent.
Proof.
  unfold children, paths_where. rewrite (where_none (under uid parent)). unfold under.
  split; intros Hn i r Hi.
  - intros Hu Hp. specialize (Hn i r Hi). rewrite Hu, Z.eqb_refl, bool_decide_eq_true_2 in Hn by done. done.
  - destruct (Z.eqb_spec (p_user r) uid) as [Hu |]; [| done]. simpl. apply bool_decide_eq_false_2. eauto.
Qed.

(** ** Adding a row to [paths] *)

Section add.
Context (t : tables) (us : gmap Z user_row) (fs : gmap Z file_row) (id : Z) (r : path_row).
Context (Hok : tables_ok t) (Hid : 0 < id < 2 ^ 63) (Hnew : paths t !! id = None).
Context (Hfind : find_node t (p_user r) (p_path r) = None).
Context (Husub : forall i u, users t !! i = Some u -> us !! i = Some u).
Context (Huu : forall i j u u', us !! i = Some u -> us !! j = Some u' -> same (u_name u) (u_name u') = true -> i = j).
Context (Hui : forall i u, us !! i = Some u -> 0 < i < 2 ^ 31).
Context (Hfsub : forall i f, files t !! i = Some f -> is_Some (fs !! i)).
Context (Hfu : forall i j f f', fs !! i = Some f -> fs !! j = Some f' -> f_hash f = f_hash f' -> i = j).
Context (Hfi : forall i f, fs !! i = Some f -> 0 < i < 2 ^ 63).
Context (Howner : is_Some (us !! p_user r)).
Context (Htype : (p_type r = 0 /\ exists fid, p_file r = Some fid /\ is_Some (fs !! fid)) \/
                 (p_type r = 1 /\ p_file r = None)).
Context (Hparent : parent_ok (paths t) r).
Context (Hroot : forall i u, us !! i = Some u -> is_Some (users t !! i) \/
   (i = p_user r /\ p_path r = [SLASH] /\ p_parent r = None /\ p_type r = 1)).
Context (Hrefs : forall i f, fs !! i = Some f ->
   f_refs f = references i (paths t) + (if bool_decide (p_file r = Some i) then 1 else 0) /\ 0 < f_refs f).

Let t' : tables := {| users := us; files := fs; paths := <[id := r]> (paths t) |}.

Lemma add_lookup i a : paths t' !! i = Some a -> (i = id /\ a = r) \/ paths t !! i = Some a.
Proof. simpl. rewrite lookup_insert_Some. naive_solver. Qed.

Lemma add_lookup_old i a : paths t !! i = Some a -> paths t' !! i = Some a.
Proof. simpl. intros Hi. rewrite lookup_insert_ne; [done |]. congruence. Qed.

Lemma add_parent_ok a : parent_ok (paths t) a -> parent_ok (paths t') a.
Proof.
  unfold parent_ok. destruct (p_parent a); [| done]. intros (r' & Hr' & Hp). exists r'.
  split; [by apply add_lookup_old | done].
Qed.

Lemma tables_ok_add : tables_ok t'.
Proof.
  pose proof (proj1 (find_node_None t (p_user r) (p_path r)) Hfind) as Hno.
  split.
  - intros i j a b Hi Hj Hu Hs. apply add_lookup in Hi as [[-> ->] | Hi]; apply add_lookup in Hj as [[-> ->] | Hj].
    + done.
    + exfalso. apply (@Equivalence_Symmetric _ _ same_equiv) in Hs. by rewrite (Hno j b) in Hs.
    + exfalso. by rewrite (Hno i a) in Hs.
    + by eapply (paths_unique t Hok).
  - exact Huu.
  - exact Hfu.
  - intros i a Hi. apply add_lookup in Hi as [[-> _] | Hi]; [done | by eapply (path_ids t Hok)].
  - exact Hui.
  - exact Hfi.
  - intros i a Hi. apply add_lookup in Hi as [[_ ->] | Hi]; [done |].
    destruct (path_owner t Hok i a Hi) as [u Hu]. exists u. by apply Husub.
  - intros i a Hi. apply add_lookup in Hi as [[_ ->] | Hi]; [done |].
    destruct (path_type t Hok i a Hi) as [(Ht & fid & Hf & f & Hff) | Ht]; [left | by right].
    split; [done |]. exists fid. split; [done |]. by eapply Hfsub.
  - intros i a Hi. apply add_lookup in Hi as [[_ ->] | Hi]; apply add_parent_ok; [done |].
    by eapply (path_parent t Hok).
  - intros i u Hu. destruct (Hroot i u Hu) as [[u' Hu'] | (-> & Hp & Hpar & Ht)].
    + destruct (user_root t Hok i u' Hu') as (j & a & Hj & Ha). exists j, a.
      split; [by apply add_lookup_old | done].
    + exists id, r. split; [apply lookup_insert_eq | done].
  - intros i f Hf. simpl. rewrite references_insert by done. by apply Hrefs.
Qed.

End add.

(** ** Removing a row of [paths] *)

Section remove.
Context (t : tables) (fs : gmap Z file_row) (id : Z) (r : path_row).
Context (Hok : tables_ok t) (Hr : paths t !! id = Some r).
Context (Hnonroot : p_parent r <> None).
Context (Hleaf : forall i a, paths t !! i = Some a -> p_parent a <> Some id).
Context (Hfold : forall i f, fs !! i = Some f -> exists f', files t !! i = Some f' /\ f_hash f = f_hash f').
Context (Hfkeep : forall i a fid, paths t !! i = Some a -> i <> id -> p_file a = Some fid -> is_Some (fs !! fid)).
Context (Hrefs : forall i f, fs !! i = Some f ->
   f_refs f = references i (paths t) - (if bool_decide (p_file r = Some i) then 1 else 0) /\ 0 < f_refs f).

Let t' : tables := {| users := users t; files := fs; paths := delete id (paths t) |}.

Lemma remove_lookup i a : paths t' !! i = Some a <-> i <> id /\ paths t !! i = Some a.
Proof. simpl. rewrite lookup_delete_Some. naive_solver. Qed.

Lemma tables_ok_remove : tables_ok t'.
Proof.
  split.
  - intros i j a b Hi Hj. apply remove_lookup in Hi as [_ Hi], Hj as [_ Hj]. by eapply (paths_unique t Hok).
  - apply (users_unique t Hok).
  - intros i j f f' Hf Hf' Hh. destruct (Hfold i f Hf) as (g & Hg & Hgh), (Hfold j f' Hf') as (g' & Hg' & Hgh').
    eapply (files_unique t Hok); [done | done | congruence].
  - intros i a Hi. apply remove_lookup in Hi as [_ Hi]. by eapply (path_ids t Hok).
  - apply (user_ids t Hok).
  - intros i f Hf. destruct (Hfold i f Hf) as (g & Hg & _). by eapply (file_ids t Hok).
  - intros i a Hi. apply remove_lookup in Hi as [_ Hi]. by eapply (path_owner t Hok).
  - intros i a Hi. apply remove_lookup in Hi as [Hne Hi].
    destruct (path_type t Hok i a Hi) as [(Ht & fid & Hf & _) | Ht]; [left | by right].
    split; [done |]. exists fid. split; [done |]. by eapply Hfkeep.
  - intros i a Hi. apply remove_lookup in Hi as [_ Hi]. pose proof (path_parent t Hok i a Hi) as Hp.
    pose proof (Hleaf i a Hi) as Hl. unfold parent_ok in *. destruct (p_parent a) as [j |]; [| done].
    destruct Hp as (b & Hb & Hp). exists b. split; [| done]. apply remove_lookup. split; [congruence | done].
  - intros i u Hu. destruct (user_root t Hok i u Hu) as (j & a & Hj & Ha & Hp & Hpar & Ht).
    exists j, a. split; [| done]. apply remove_lookup. split; [| done]. intros ->. congruence.
  - intros i f Hf. simpl. rewrite (references_delete _ _ _ r) by done. by apply Hrefs.
Qed.

End remove.

(** ** The changes that the program makes *)

Definition dir_row (uid : Z) (path : list byte) (parent : option Z) (name : list byte) : path_row :=
  {| p_user := uid; p_path := path; p_file := None; p_parent := parent; p_name := name; p_type := 1 |}.
Definition file_path_row (uid : Z) (path : list byte) (fid parent : Z) (name : list byte) : path_row :=
  {| p_user := uid; p_path := path; p_file := Some fid; p_parent := Some parent; p_name := name; p_type := 0 |}.
Definition set_refs (f : file_row) (n : Z) : file_row :=
  {| f_hash := f_hash f; f_size := f_size f; f_refs := n |}.

Definition is_dir (t : tables) (uid id : Z) : Prop :=
  exists r, paths t !! id = Some r /\ p_user r = uid /\ p_type r = 1.

(** A new directory *)
Definition mkdir_tables (t : tables) (id uid : Z) (path : list byte) (parent : Z) (name : list byte) : tables :=
  set_paths t (<[id := dir_row uid path (Some parent) name]> (paths t)).

Lemma tables_ok_mkdir t id uid path parent name :
  tables_ok t -> 0 < id < 2 ^ 63 -> paths t !! id = None -> find_node t uid path = None -> is_dir t uid parent ->
  tables_ok (mkdir_tables t id uid path parent name).
Proof.
  intros Hok Hid Hnew Hfind (r & Hr & Hu & Ht).
  apply (tables_ok_add t (users t) (files t)); simpl; try done.
  - apply (users_unique t Hok).
  - apply (user_ids t Hok).
  - apply (files_unique t Hok).
  - apply (file_ids t Hok).
  - rewrite <- Hu. by eapply (path_owner t Hok).
  - by right.
  - by exists r.
  - intros i u Hi. left. by exists u.
  - intros i f Hf. rewrite Z.add_0_r. by apply (file_refs t Hok).
Qed.

(** A new user with a root directory *)
Definition register_tables (t : tables) (uid rid : Z) (name hash : list byte) : tables :=
  {| users := <[uid := {| u_name := name; u_hash := hash |}]> (users t); files := files t;
     paths := <[rid := dir_row uid [SLASH] None [SLASH]]> (paths t) |}.

Definition name_taken (t : tables) (name : list byte) : Prop :=
  exists i u, users t !! i = Some u /\ same (u_name u) name = true.

Lemma user_no_paths t uid path : tables_ok t -> users t !! uid = None -> find_node t uid path = None.
Proof.
  intros Hok Hu. apply find_node_None. intros i r Hi Hr.
  destruct (path_owner t Hok i r Hi) as [u Hu']. congruence.
Qed.

Lemma tables_ok_register t uid rid name hash :
  tables_ok t -> 0 < uid < 2 ^ 31 -> users t !! uid = None -> ~ name_taken t name ->
  0 < rid < 2 ^ 63 -> paths t !! rid = None ->
  tables_ok (register_tables t uid rid name hash).
Proof.
  intros Hok Hid Hnew Hname Hrid Hrnew.
  apply (tables_ok_add t (<[uid := {| u_name := name; u_hash := hash |}]> (users t)) (files t)); simpl; try done.
  - by apply user_no_paths.
  - intros i u Hi. rewrite lookup_insert_ne; [done |]. congruence.
  - intros i j u u' Hi Hj Hs. apply lookup_insert_Some in Hi as [[<- <-] | [Hi1 Hi]];
      apply lookup_insert_Some in Hj as [[<- <-] | [Hj1 Hj]]; [done | exfalso | exfalso |].
    + apply Hname. exists j, u'. split; [done |]. by apply (@Equivalence_Symmetric _ _ same_equiv) in Hs.
    + apply Hname. by exists i, u.
    + by eapply (users_unique t Hok).
  - intros i u Hi. apply lookup_insert_Some in Hi as [[<- <-] | [_ Hi]]; [done | by eapply (user_ids t Hok)].
  - apply (files_unique t Hok).
  - apply (file_ids t Hok).
  - by rewrite lookup_insert_eq.
  - by right.
  - intros i u Hi. apply lookup_insert_Some in Hi as [[<- <-] | [_ Hi]]; [by right | left; by exists u].
  - intros i f Hf. rewrite Z.add_0_r. by apply (file_refs t Hok).
Qed.

(** Removing an empty directory *)
Definition rmdir_tables (t : tables) (id : Z) : tables := set_paths t (delete id (paths t)).

Lemma no_children t uid id r :
  tables_ok t -> paths t !! id = Some r -> p_user r = uid -> children t uid id = [] ->
  forall i a, paths t !! i = Some a -> p_parent a <> Some id.
Proof.
  intros Hok Hr Hu Hc i a Hi Hp. pose proof (path_parent t Hok i a Hi) as Hpar.
  unfold parent_ok in Hpar. rewrite Hp in Hpar. destruct Hpar as (r' & Hr' & Hu' & _).
  assert (r' = r) as -> by congruence. apply (proj1 (children_nil t uid id) Hc i a Hi); congruence.
Qed.

Lemma tables_ok_rmdir t uid id r :
  tables_ok t -> paths t !! id = Some r -> p_user r = uid -> p_type r = 1 -> p_parent r <> None ->
  children t uid id = [] -> tables_ok (rmdir_tables t id).
Proof.
  intros Hok Hr Hu Ht Hp Hc.
  assert (Hnf : p_file r = None).
  { destruct (path_type t Hok id r Hr) as [[H0 _] | [_ H1]]; [congruence | done]. }
  apply (tables_ok_remove t (files t) id r); try done.
  - by eapply no_children.
  - intros i f Hf. by exists f.
  - intros i a fid Hi _ Hf. destruct (path_type t Hok i a Hi) as [(_ & fid' & Hf' & Hs) | [_ Hn]]; congruence.
  - intros i f Hf. rewrite Hnf. simpl. rewrite Z.sub_0_r. by apply (file_refs t Hok).
Qed.

(** Removing a file: its row goes, and the stored file with its last reference *)
Definition rm_tables (t : tables) (id fid : Z) (f : file_row) : tables :=
  {| users := users t;
     files := if f_refs f =? 1 then delete fid (files t)
              else <[fid := set_refs f (f_refs f - 1)]> (files t);
     paths := delete id (paths t) |}.

Lemma file_is_leaf t id r :
  tables_ok t -> paths t !! id = Some r -> p_type r = 0 ->
  p_parent r <> None /\ forall i a, paths t !! i = Some a -> p_parent a <> Some id.
Proof.
  intros Hok Hr Ht. split.
  - intros Hp. pose proof (path_parent t Hok id r Hr) as Hpar. unfold parent_ok in Hpar. rewrite Hp in Hpar.
    destruct (path_owner t Hok id r Hr) as [u Hu].
    destruct (user_root t Hok _ _ Hu) as (j & a & Hj & Ha & Hpath & _ & Hta).
    assert (j = id) as ->; [| congruence].
    eapply (paths_unique t Hok); [done | done | done |]. rewrite Hpath, Hpar.
    apply (@Equivalence_Reflexive _ _ same_equiv).
  - intros i a Hi Hp. pose proof (path_parent t Hok i a Hi) as Hpar. unfold parent_ok in Hpar. rewrite Hp in Hpar.
    destruct Hpar as (r' & Hr' & _ & Ht'). congruence.
Qed.

Lemma tables_ok_rm t id r fid f :
  tables_ok t -> paths t !! id = Some r -> p_type r = 0 -> p_file r = Some fid -> files t !! fid = Some f ->
  tables_ok (rm_tables t id fid f).
Proof.
  intros Hok Hr Ht Hfile Hf. destruct (file_is_leaf t id r Hok Hr Ht) as [Hnr Hleaf].
  destruct (file_refs t Hok fid f Hf) as [Hrefs Hpos].
  apply (tables_ok_remove t _ id r); try done.
  - intros i g. destruct (f_refs f =? 1).
    + rewrite lookup_delete_Some. intros [_ Hg]. by exists g.
    + rewrite lookup_insert_Some. intros [[<- <-] | [_ Hg]]; [by exists f | by exists g].
  - intros i a fid' Hi Hne Ha. destruct (decide (fid' = fid)) as [-> | Hfn].
    + assert (1 < f_refs f).
      { rewrite Hrefs. pose proof (references_delete fid (paths t) id r Hr) as Hd.
        rewrite bool_decide_eq_true_2 in Hd by done.
        assert (0 < references fid (delete id (paths t))); [| lia].
        eapply references_pos; [| done]. by rewrite lookup_delete_ne. }
      destruct (Z.eqb_spec (f_refs f) 1); [lia |]. rewrite lookup_insert_eq. by eexists.
    + destruct (path_type t Hok i a Hi) as [(_ & fid2 & Hf2 & Hs) | [_ Hn]]; [| congruence].
      assert (fid2 = fid') as -> by congruence.
      destruct (f_refs f =? 1); [by rewrite lookup_delete_ne | by rewrite lookup_insert_ne].
  - intros i g Hg. rewrite Hfile. destruct (Z.eqb_spec (f_refs f) 1) as [E | E].
    + apply lookup_delete_Some in Hg as [Hne Hg]. rewrite bool_decide_eq_false_2 by congruence.
      rewrite Z.sub_0_r. by apply (file_refs t Hok).
    + apply lookup_insert_Some in Hg as [[<- <-] | [Hne Hg]].
      * rewrite bool_decide_eq_true_2 by done. simpl. lia.
      * rewrite bool_decide_eq_false_2 by congruence. rewrite Z.sub_0_r. by apply (file_refs t Hok).
Qed.

(** A new path for a stored file *)
Definition attach_tables (t : tables) (id fid : Z) (f : file_row) (uid : Z) (path : list byte) (parent : Z)
    (name : list byte) : tables :=
  {| users := users t; files := <[fid := f]> (files t);
     paths := <[id := file_path_row uid path fid parent name]> (paths t) |}.

(** [f] is the stored file with one more reference, or a new file. *)
Definition referenced (t : tables) (fid : Z) (f : file_row) : Prop :=
  (exists f0, files t !! fid = Some f0 /\ f = set_refs f0 (f_refs f0 + 1)) \/
  (files t !! fid = None /\ 0 < fid < 2 ^ 63 /\ f_refs f = 1 /\
   forall i f0, files t !! i = Some f0 -> f_hash f0 <> f_hash f).

Lemma tables_ok_attach t id fid f uid path parent name :
  tables_ok t -> 0 < id < 2 ^ 63 -> paths t !! id = None -> find_node t uid path = None -> is_dir t uid parent ->
  referenced t fid f -> tables_ok (attach_tables t id fid f uid path parent name).
Proof.
  intros Hok Hid Hnew Hfind (r & Hr & Hu & Ht) Href.
  apply (tables_ok_add t (users t) (<[fid := f]> (files t))); simpl; try done.
  - apply (users_unique t Hok).
  - apply (user_ids t Hok).
  - intros i g Hg. destruct (decide (fid = i)) as [-> |]; [by rewrite lookup_insert_eq |].
    by rewrite lookup_insert_ne.
  - intros i j g g' Hg Hg' Hh.
    assert (Hold : forall k a, <[fid := f]> (files t) !! k = Some a ->
              (k = fid /\ a = f) \/ (k <> fid /\ files t !! k = Some a)).
    { intros k a. rewrite lookup_insert_Some. naive_solver. }
    destruct Href as [(f0 & Hf0 & ->) | (Hno & _ & _ & Hhash)].
    + destruct (Hold _ _ Hg) as [[-> ->] | [_ Hgo]], (Hold _ _ Hg') as [[-> ->] | [_ Hgo']]; try done;
        by eapply (files_unique t Hok).
    + destruct (Hold _ _ Hg) as [[-> ->] | [_ Hgo]], (Hold _ _ Hg') as [[-> ->] | [_ Hgo']]; [done | | |].
      * by edestruct Hhash.
      * by edestruct Hhash.
      * by eapply (files_unique t Hok).
  - intros i g Hg. apply lookup_insert_Some in Hg as [[<- _] | [_ Hg]]; [| by eapply (file_ids t Hok)].
    destruct Href as [(f0 & Hf0 & _) | (_ & Hr0 & _)]; [by eapply (file_ids t Hok) | done].
  - rewrite <- Hu. by eapply (path_owner t Hok).
  - left. split; [done |]. exists fid. split; [done |]. by rewrite lookup_insert_eq.
  - by exists r.
  - intros i u Hi. left. by exists u.
  - intros i g Hg. apply lookup_insert_Some in Hg as [[<- <-] | [Hne Hg]].
    + rewrite bool_decide_eq_true_2 by done. destruct Href as [(f0 & Hf0 & ->) | (Hno & _ & Href & _)].
      * destruct (file_refs t Hok fid f0 Hf0). simpl. lia.
      * rewrite Href, references_none; [lia |]. intros i a Hi Hf.
        destruct (path_type t Hok i a Hi) as [(_ & fid' & Hf' & [g Hs]) | [_ Hn]]; congruence.
    + rewrite bool_decide_eq_false_2 by congruence. rewrite Z.add_0_r. by apply (file_refs t Hok).
Qed.

End invariant.
