(* ===== verification/DatabaseDemo.v ===== *)
(** * A server that satisfies the interface

    An executable server for the statements of this program, used to evaluate
    the theorems about [MySQLSpec] and [MySQLUp] on concrete data: it parses the
    text of a statement back, compares text without case, and numbers new rows
    from a counter. *)

From Stdlib Require Import Strings.Byte.
From S2P Require Import Prelude CString Database.

(** ** Reading a statement *)

Inductive piece := PLit (s : string) | PNum | POpt | PStr.
Inductive arg := ANum (z : Z) | AOpt (o : option Z) | AStr (s : list byte).

Fixpoint render_sql (ps : list piece) (args : list arg) : list byte :=
  match ps, args with
  | PLit s :: ps, args => lit s ++ render_sql ps args
  | PNum :: ps, ANum z :: args => dec z ++ render_sql ps args
  | POpt :: ps, AOpt o :: args => or_null o ++ render_sql ps args
  | PStr :: ps, AStr s :: args => s ++ render_sql ps args
  | _, _ => []
  end.

Fixpoint strip (p t : list byte) : option (list byte) :=
  match p, t with
  | [], t => Some t
  | a :: p, b :: t => if bool_decide (a = b) then strip p t else None
  | _ :: _, [] => None
  end.

Definition read_num (t : list byte) : option (Z * list byte) :=
  match take_while isdigit t with
  | [] => None
  | _ => Some (digits_val t, drop_while isdigit t)
  end.

Definition read_opt (t : list byte) : option (option Z * list byte) :=
  match strip (lit "NULL") t with
  | Some t => Some (None, t)
  | None => z ← read_num t; Some (Some (fst z), snd z)
  end.

(** The literal up to the quote that ends it. *)
Fixpoint read_str (t : list byte) : option (list byte * list byte) :=
  match t with
  | [] => None
  | b :: t' =>
      if bool_decide (b = QUOTE) then Some ([], t)
      else if bool_decide (b = BACKSLASH)
      then match t' with
           | [] => None
           | c :: t'' => r ← read_str t''; Some (b :: c :: fst r, snd r)
           end
      else r ← read_str t'; Some (b :: fst r, snd r)
  end.

Fixpoint read_sql (ps : list piece) (t : list byte) : option (list arg) :=
  match ps with
  | [] => match t with [] => Some [] | _ => None end
  | PLit s :: ps => strip (lit s) t ≫= read_sql ps
  | PNum :: ps => r ← read_num t; cons (ANum (fst r)) <$> read_sql ps (snd r)
  | POpt :: ps => r ← read_opt t; cons (AOpt (fst r)) <$> read_sql ps (snd r)
  | PStr :: ps => r ← read_str t; cons (AStr (fst r)) <$> read_sql ps (snd r)
  end.

(** A number is followed by text that does not start with a digit, a literal by
    its closing quote. *)
Definition starts_ok (p : byte -> bool) (at_end : bool) (ps : list piece) : bool :=
  match ps with
  | [] => at_end
  | PLit s :: _ => match lit s with b :: _ => p b | [] => false end
  | _ => false
  end.
Fixpoint shape_ok (ps : list piece) : bool :=
  match ps with
  | [] => true
  | PLit _ :: ps => shape_ok ps
  | (PNum | POpt) :: ps => starts_ok (fun b => negb (isdigit b)) true ps && shape_ok ps
  | PStr :: ps => starts_ok (fun b => bool_decide (b = QUOTE)) false ps && shape_ok ps
  end.

Fixpoint args_ok (ps : list piece) (args : list arg) : Prop :=
  match ps, args with
  | [], [] => True
  | PLit _ :: ps, args => args_ok ps args
  | PNum :: ps, ANum z :: args => is_u64 z /\ args_ok ps args
  | POpt :: ps, AOpt o :: args => (forall z, o = Some z -> is_u64 z) /\ args_ok ps args
  | PStr :: ps, AStr s :: args => good_text s /\ args_ok ps args
  | _, _ => False
  end.

Lemma strip_app p t : strip p (p ++ t) = Some t.
Proof. induction p as [| a p IH]; simpl; [done |]. by rewrite bool_decide_eq_true_2. Qed.

Lemma take_while_stop p t1 t2 :
  Forall (fun b => p b = true) t1 -> (forall b t, t2 = b :: t -> p b = false) ->
  take_while p (t1 ++ t2) = t1 /\ drop_while p (t1 ++ t2) = t2.
Proof.
  intros H1 H2. induction H1 as [| b t1 Hb _ [IH1 IH2]]; simpl.
  - destruct t2 as [| b t2]; simpl; [done |]. by rewrite (H2 b t2 eq_refl).
  - by rewrite Hb, IH1, IH2.
Qed.

Lemma read_num_dec z t :
  is_u64 z -> (forall b t', t = b :: t' -> isdigit b = false) -> read_num (dec z ++ t) = Some (z, t).
Proof.
  intros Hz Ht. destruct (dec_digits z Hz) as (b & ds & -> & Hds & Hv).
  destruct (take_while_stop isdigit (b :: ds) t Hds Ht) as [H1 H2].
  unfold read_num. rewrite H1, H2. unfold digits_val in *. rewrite H1.
  rewrite take_while_all in Hv by done. by rewrite Hv.
Qed.

Lemma read_opt_or_null o t :
  (forall z, o = Some z -> is_u64 z) -> (forall b t', t = b :: t' -> isdigit b = false) ->
  read_opt (or_null o ++ t) = Some (o, t).
Proof.
  intros Ho Ht. unfold read_opt. destruct o as [z |]; [| by cbn [or_null]; rewrite strip_app].
  cbn [or_null]. destruct (dec_digits z (Ho z eq_refl)) as (b & ds & Heq & Hds & _).
  assert (Hn : strip (lit "NULL") (dec z ++ t) = None).
  { rewrite Heq. cbn. rewrite bool_decide_eq_false_2; [done |]. intros <-. by inversion Hds. }
  rewrite Hn, read_num_dec by auto. done.
Qed.

Lemma read_str_good s t : good_text s -> read_str (s ++ QUOTE :: t) = Some (s, QUOTE :: t).
Proof.
  unfold good_text. remember (length s) as n eqn:Hn. revert s Hn.
  induction (lt_wf n) as [n _ IH]. intros [| b s] Hn; intros [v Hv]; [done |]. simpl in Hn, Hv.
  cbn [app read_str]. case_bool_decide; [done |]. case_bool_decide.
  - destruct s as [| c s]; [done |]. cbn [app]. simpl in Hn.
    destruct (sql_unescape s) as [w |] eqn:E; [| done].
    rewrite (IH (length s)); [done | lia | done | by eexists].
  - destruct (sql_unescape s) as [w |] eqn:E; [| done].
    rewrite (IH (length s)); [done | lia | done | by eexists].
Qed.

Lemma render_starts p at_end ps args b t :
  starts_ok p at_end ps = true -> render_sql ps args = b :: t -> p b = true.
Proof.
  destruct ps as [| [s | | |] ps]; simpl; try done.
  - destruct (lit s) as [| c l] eqn:E; [done |]. intros Hp. simpl. by intros [= <- _].
Qed.

Lemma render_starts_quote ps args :
  starts_ok (fun b => bool_decide (b = QUOTE)) false ps = true ->
  exists t, render_sql ps args = QUOTE :: t.
Proof.
  destruct ps as [| [s | | |] ps]; simpl; try done.
  destruct (lit s) as [| c l] eqn:E; [done |]. intros Hp. apply bool_decide_eq_true_1 in Hp as ->.
  by eexists.
Qed.

(** Reading inverts rendering. *)
Lemma read_render ps args :
  shape_ok ps = true -> args_ok ps args -> read_sql ps (render_sql ps args) = Some args.
Proof.
  revert args. induction ps as [| p ps IH]; intros args Hs Ha; [by destruct args |].
  destruct p as [s | | |]; cbn [shape_ok] in Hs.
  - cbn [render_sql read_sql]. rewrite strip_app. simpl. by apply IH.
  - apply andb_prop in Hs as [H1 H2]. destruct args as [| [z | |] args]; try done. destruct Ha as [Hz Ha].
    cbn [render_sql read_sql]. rewrite read_num_dec; [simpl; by rewrite IH | done |].
    intros b t Ht. apply negb_true_iff. exact (render_starts (fun b => negb (isdigit b)) _ _ _ _ _ H1 Ht).
  - apply andb_prop in Hs as [H1 H2]. destruct args as [| [| o |] args]; try done. destruct Ha as [Ho Ha].
    cbn [render_sql read_sql]. rewrite read_opt_or_null; [simpl; by rewrite IH | done |].
    intros b t Ht. apply negb_true_iff. exact (render_starts (fun b => negb (isdigit b)) _ _ _ _ _ H1 Ht).
  - apply andb_prop in Hs as [H1 H2]. destruct args as [| [| | s] args]; try done. destruct Ha as [Hs Ha].
    cbn [render_sql read_sql]. destruct (render_starts_quote ps args H1) as [t Ht].
    rewrite Ht, read_str_good by done. simpl. by rewrite <- Ht, IH.
Qed.

(** ** The statements of the program as shapes *)

Inductive form :=
| FStart | FCommit | FRollback | FNode | FChildren | FLs | FFileId | FRefs | FByHash | FLogin | FMeta
| FInsertPath | FInsertUser | FUpsert | FDeleteFilePath | FDeletePath | FDeleteFile | FDecrement | FIncrement.

Definition forms : list form :=
  [FStart; FCommit; FRollback; FNode; FChildren; FLs; FFileId; FRefs; FByHash; FLogin; FMeta;
   FInsertPath; FInsertUser; FUpsert; FDeleteFilePath; FDeletePath; FDeleteFile; FDecrement; FIncrement].

Definition shape (f : form) : list piece :=
  match f with
  | FStart => [PLit "START TRANSACTION"]
  | FCommit => [PLit "COMMIT"]
  | FRollback => [PLit "ROLLBACK"]
  | FNode => [PLit "SELECT id, type FROM paths WHERE user_id = "; PNum; PLit " AND path = '"; PStr; PLit "'"]
  | FChildren => [PLit "SELECT * FROM paths WHERE user_id = "; PNum; PLit " AND parent_id = "; PNum]
  | FLs => [PLit "SELECT file_name, type FROM paths WHERE user_id = "; PNum; PLit " AND parent_id = "; PNum]
  | FFileId => [PLit "SELECT file_id FROM paths WHERE id = "; PNum; PLit " AND user_id = "; PNum;
                PLit " AND type = 0"]
  | FRefs => [PLit "SELECT refs, LOWER(HEX(hash)) FROM files WHERE id = "; PNum]
  | FByHash => [PLit "SELECT id FROM files WHERE hash = UNHEX('"; PStr; PLit "') AND size = "; PNum;
                PLit " LIMIT 1"]
  | FLogin => [PLit "SELECT u.id, u.password_hash, p.id FROM users u JOIN paths p ON p.user_id = u.id WHERE u.username = '";
               PStr; PLit "' AND p.path = '/' LIMIT 1"]
  | FMeta => [PLit "SELECT p.id, p.file_id, p.file_name, p.type, f.size,LOWER(HEX(f.hash)) AS hash_hex FROM paths p LEFT JOIN files f ON p.file_id = f.id WHERE p.user_id = ";
              PNum; PLit " AND p.path = '"; PStr; PLit "' LIMIT 1"]
  | FInsertPath => [PLit "INSERT INTO paths(user_id, path, file_id, parent_id, file_name, type) VALUES("; PNum;
                    PLit ", '"; PStr; PLit "', "; POpt; PLit ", "; POpt; PLit ", '"; PStr; PLit "', "; PNum; PLit ")"]
  | FInsertUser => [PLit "INSERT INTO users(username, password_hash) VALUES('"; PStr; PLit "', '"; PStr; PLit "')"]
  | FUpsert => [PLit "INSERT INTO files(hash, size, refs) VALUES(UNHEX('"; PStr; PLit "'), "; PNum;
                PLit ", 1) ON DUPLICATE KEY UPDATE refs = refs + 1, id = LAST_INSERT_ID(id)"]
  | FDeleteFilePath => [PLit "DELETE FROM paths WHERE id = "; PNum; PLit " AND user_id = "; PNum; PLit " AND type = 0"]
  | FDeletePath => [PLit "DELETE FROM paths WHERE id = "; PNum]
  | FDeleteFile => [PLit "DELETE FROM files WHERE id = "; PNum; PLit " AND refs = 0"]
  | FDecrement => [PLit "UPDATE files SET refs = refs - 1 WHERE id = "; PNum; PLit " AND refs > 0"]
  | FIncrement => [PLit "UPDATE files SET refs = refs + 1 WHERE id = "; PNum]
  end.

Definition form_of (st : stmt) : form * list arg :=
  match st with
  | StartTransaction => (FStart, [])
  | Commit => (FCommit, [])
  | Rollback => (FRollback, [])
  | SelectNode uid path => (FNode, [ANum uid; AStr path])
  | SelectChildren uid parent => (FChildren, [ANum uid; ANum parent])
  | SelectLs uid parent => (FLs, [ANum uid; ANum parent])
  | SelectFileId id uid => (FFileId, [ANum id; ANum uid])
  | SelectRefs fid => (FRefs, [ANum fid])
  | SelectByHash hex size => (FByHash, [AStr hex; ANum size])
  | SelectLogin name => (FLogin, [AStr name])
  | SelectMeta uid path => (FMeta, [ANum uid; AStr path])
  | InsertPath uid path file parent name type =>
      (FInsertPath, [ANum uid; AStr path; AOpt file; AOpt parent; AStr name; ANum type])
  | InsertUser name hash => (FInsertUser, [AStr name; AStr hash])
  | UpsertFile hex size => (FUpsert, [AStr hex; ANum size])
  | DeletePath id => (FDeletePath, [ANum id])
  | DeleteFilePath id uid => (FDeleteFilePath, [ANum id; ANum uid])
  | DeleteFile fid => (FDeleteFile, [ANum fid])
  | DecrementRefs fid => (FDecrement, [ANum fid])
  | IncrementRefs fid => (FIncrement, [ANum fid])
  end.

Definition stmt_of (f : form) (args : list arg) : option stmt :=
  match f, args with
  | FStart, [] => Some StartTransaction
  | FCommit, [] => Some Commit
  | FRollback, [] => Some Rollback
  | FNode, [ANum uid; AStr path] => Some (SelectNode uid path)
  | FChildren, [ANum uid; ANum parent] => Some (SelectChildren uid parent)
  | FLs, [ANum uid; ANum parent] => Some (SelectLs uid parent)
  | FFileId, [ANum id; ANum uid] => Some (SelectFileId id uid)
  | FRefs, [ANum fid] => Some (SelectRefs fid)
  | FByHash, [AStr hex; ANum size] => Some (SelectByHash hex size)
  | FLogin, [AStr name] => Some (SelectLogin name)
  | FMeta, [ANum uid; AStr path] => Some (SelectMeta uid path)
  | FInsertPath, [ANum uid; AStr path; AOpt file; AOpt parent; AStr name; ANum type] =>
      Some (InsertPath uid path file parent name type)
  | FInsertUser, [AStr name; AStr hash] => Some (InsertUser name hash)
  | FUpsert, [AStr hex; ANum size] => Some (UpsertFile hex size)
  | FDeletePath, [ANum id] => Some (DeletePath id)
  | FDeleteFilePath, [ANum id; ANum uid] => Some (DeleteFilePath id uid)
  | FDeleteFile, [ANum fid] => Some (DeleteFile fid)
  | FDecrement, [ANum fid] => Some (DecrementRefs fid)
  | FIncrement, [ANum fid] => Some (IncrementRefs fid)
  | _, _ => None
  end.

Fixpoint parse_forms (fs : list form) (text : list byte) : option stmt :=
  match fs with
  | [] => None
  | f :: fs =>
      match read_sql (shape f) text with
      | Some args => stmt_of f args
      | None => parse_forms fs text
      end
  end.
Definition parse (text : list byte) : option stmt := parse_forms forms text.

Lemma sql_shape st : sql st = render_sql (shape (fst (form_of st))) (snd (form_of st)).
Proof. destruct st; cbn -[lit dec]; rewrite ?app_nil_r; reflexivity. Qed.

Lemma sha_text_good hex : sha_text hex -> good_text hex.
Proof. intros Hx. unfold good_text. rewrite unescape_plain by (by apply sha_text_plain). by eexists. Qed.

Lemma stmt_args_ok st : stmt_ok st -> args_ok (shape (fst (form_of st))) (snd (form_of st)).
Proof. destruct st; simpl; try naive_solver; intros [Hx Hs]; pose proof (sha_text_good _ Hx); naive_solver. Qed.

Lemma read_sql_stmt st :
  stmt_ok st -> read_sql (shape (fst (form_of st))) (sql st) = Some (snd (form_of st)).
Proof.
  intros Hst. rewrite sql_shape. apply read_render; [by destruct st | by apply stmt_args_ok].
Qed.

Lemma read_sql_delete_path id : is_u64 id -> read_sql (shape FDeleteFilePath) (sql (DeletePath id)) = None.
Proof.
  intros Hid. cbn [shape read_sql sql]. rewrite strip_app. cbn [mbind option_bind].
  rewrite <- (app_nil_r (dec id)), read_num_dec by done. reflexivity.
Qed.

(** The statement that is read is the one that was written. *)
Lemma parse_sql st : stmt_ok st -> parse (sql st) = Some st.
Proof.
  intros Hst. pose proof (read_sql_stmt st Hst) as Hr. unfold parse, forms.
  destruct st; cbn [form_of fst snd] in Hr; cbn [parse_forms]; rewrite ?Hr; try reflexivity.
  by rewrite (read_sql_delete_path id Hst).
Qed.

(** ** The server *)

Record demo_server := { demo_db : database; demo_next : Z; demo_last : Z }.

Definition demo_is_fresh (t : tables) (id : Z) : bool :=
  (0 <? id) && (id <? 2 ^ 31) && bool_decide (users t !! id = None) &&
  bool_decide (files t !! id = None) && bool_decide (paths t !! id = None).

Definition demo_set (s : demo_server) (d : database) (last : Z) : demo_server :=
  {| demo_db := d; demo_next := demo_next s + 1; demo_last := last |}.

Definition demo_write (st : stmt) (s : demo_server) : query_result * demo_server :=
  let d := demo_db s in
  if demo_is_fresh (now d) (demo_next s)
  then match written strcaseeq (demo_next s) st (now d) with
       | Some (t, last) => (QOk None, demo_set s (set_now d t) last)
       | None => (QError ER_DUP_ENTRY, demo_set s d 0)
       end
  else (QError 1, s).

Definition demo_exec (h : Z) (st : stmt) (s : demo_server) : query_result * demo_server :=
  let d := demo_db s in
  match st with
  | StartTransaction => (QOk None, demo_set s {| now := now d; txn := Some (h, now d) |} 0)
  | Commit => (QOk None, demo_set s (committed d) 0)
  | Rollback => (QOk None, demo_set s (rolled_back h d) 0)
  | _ =>
      match selected strcaseeq st (now d) with
      | Some all => (QOk (Some (if limit_one st then take 1 all else all)), demo_set s d 0)
      | None => demo_write st s
      end
  end.

Definition demo_query (h : Z) (text : list byte) (s : demo_server) : query_result * demo_server :=
  match parse text with
  | Some st => demo_exec h st s
  | None => (QError 1064, s)
  end.

Definition demo_escape (s : list byte) : list byte :=
  concat (map (fun b => if bool_decide (b = QUOTE) || bool_decide (b = BACKSLASH)
                        then [BACKSLASH; b] else [b]) s).

#[global] Instance demo_mysql : MySQL := {|
  server := demo_server;
  mysql_query := demo_query;
  mysql_insert_id _ s := demo_last s;
  mysql_real_escape_string := demo_escape
|}.

Lemma demo_escape_spec s : sql_unescape (demo_escape s) = Some s.
Proof.
  induction s as [| b s IH]; [done |]. unfold demo_escape. cbn [map concat]. fold (demo_escape s).
  case_bool_decide as Hq; [subst; cbn; by rewrite IH |].
  case_bool_decide as Hb; [subst; cbn; by rewrite IH |].
  cbn. rewrite !bool_decide_eq_false_2 by done. by rewrite IH.
Qed.

Lemma demo_escape_length s : (length (demo_escape s) <= 2 * length s)%nat.
Proof.
  induction s as [| b s IH]; [done |]. unfold demo_escape. cbn [map concat]. fold (demo_escape s).
  rewrite length_app. destruct (_ || _); simpl; lia.
Qed.

Lemma demo_fresh_id st t id : demo_is_fresh t id = true -> fresh_id st t id.
Proof.
  unfold demo_is_fresh, fresh_id. intros Hf. zbool. destruct st; try done; split; done || lia.
Qed.

Lemma demo_write_spec h st s :
  (forall all, selected strcaseeq st (now (demo_db s)) <> Some all) ->
  (st <> StartTransaction /\ st <> Commit /\ st <> Rollback) ->
  let (r, s') := demo_write st s in
  match r with
  | QError errno => fails strcaseeq h st (demo_db s) errno (demo_db s')
  | QOk rows => succeeds strcaseeq h st (demo_db s) rows (demo_last s') (demo_db s')
  end.
Proof.
  intros Hsel (Hs1 & Hs2 & Hs3). unfold demo_write.
  destruct (demo_is_fresh _ _) eqn:Hf; [| by split; [| destruct st; auto]].
  apply (demo_fresh_id st) in Hf.
  destruct (written _ _ _ _) as [[t last] |] eqn:Hw.
  - destruct st; try done; try (by edestruct Hsel); exists (demo_next s), t; done.
  - split; [intros _; split; [| done] | destruct st; auto; done].
    destruct st; try done; try (by edestruct Hsel); simpl in Hw |- *; split_match.
Qed.

Lemma strcaseeq_equiv : Equivalence (fun a b => strcaseeq a b = true).
Proof.
  unfold strcaseeq. split.
  - intros a. by apply bool_decide_eq_true_2.
  - intros a b Hab. apply bool_decide_eq_true_1 in Hab. by apply bool_decide_eq_true_2.
  - intros a b c Hab Hbc. apply bool_decide_eq_true_1 in Hab, Hbc. apply bool_decide_eq_true_2. congruence.
Qed.

Lemma demo_run_spec h st s :
  let (r, s') := demo_exec h st s in
  match r with
  | QError errno => fails strcaseeq h st (demo_db s) errno (demo_db s')
  | QOk rows => succeeds strcaseeq h st (demo_db s) rows (demo_last s') (demo_db s')
  end.
Proof.
  unfold demo_exec. destruct (selected strcaseeq st (now (demo_db s))) as [all |] eqn:E.
  - assert (Ha : answers st all (if limit_one st then take 1 all else all)).
    { unfold answers. destruct (limit_one st); [| done]. destruct all as [| x all]; [done |].
      exists x. split; [by left | done]. }
    destruct st; try discriminate E; unfold succeeds; rewrite E; (split; [| done]); intros l [= <-]; exact Ha.
  - destruct st; try done; try discriminate E; apply demo_write_spec; done || congruence.
Qed.

#[global] Program Instance demo_spec : MySQLSpec demo_mysql := {|
  database_of := demo_db : @server demo_mysql -> database;
  same_text := strcaseeq;
  same_text_equiv := strcaseeq_equiv;
  escape_spec := demo_escape_spec;
  escape_length := demo_escape_length
|}.
Next Obligation.
  intros h st s Hst _. simpl. unfold demo_query. rewrite parse_sql by done. apply demo_run_spec.
Qed.

(** It stores every result set. *)
Lemma demo_exec_stored h st s all :
  selected strcaseeq st (now (demo_db s)) = Some all -> fst (demo_exec h st s) <> QOk None.
Proof. intros E. unfold demo_exec. rewrite E. by destruct st. Qed.

#[global] Instance demo_results : MySQLStored demo_mysql demo_spec.
Proof.
  constructor. intros h st s all Hst _ E. simpl. unfold demo_query. rewrite parse_sql by done.
  by eapply demo_exec_stored.
Qed.

(** ** It stays up while its counter lasts *)

Definition below (t : tables) (c : Z) : Prop :=
  forall id, c <= id -> users t !! id = None /\ files t !! id = None /\ paths t !! id = None.

Definition demo_up (n : nat) (s : demo_server) : Prop :=
  0 < demo_next s /\ demo_next s + Z.of_nat n < 2 ^ 31 /\ below (now (demo_db s)) (demo_next s) /\
  forall h t, txn (demo_db s) = Some (h, t) -> below t (demo_next s).

Lemma below_mono t c c' : c <= c' -> below t c -> below t c'.
Proof. intros Hc Hb id Hid. apply Hb. lia. Qed.

Lemma demo_up_mono n s : demo_up (S n) s -> demo_up n s.
Proof. unfold demo_up. intros (? & ? & ? & ?). split_and!; [done | lia | done | done]. Qed.

Lemma demo_up_set n s d last :
  demo_up (S n) s -> below (now d) (demo_next s + 1) ->
  (forall h t, txn d = Some (h, t) -> below t (demo_next s + 1)) -> demo_up n (demo_set s d last).
Proof. unfold demo_up. simpl. intros (? & ? & ? & ?) ? ?. split_and!; [lia | lia | done | done]. Qed.

Lemma below_fresh s n : demo_up (S n) s -> demo_is_fresh (now (demo_db s)) (demo_next s) = true.
Proof.
  intros (Hp & Hn & Hb & _). destruct (Hb (demo_next s) ltac:(lia)) as (H1 & H2 & H3).
  unfold demo_is_fresh. rewrite H1, H2, H3, !bool_decide_eq_true_2 by done.
  rewrite (proj2 (Z.ltb_lt _ _)) by lia. rewrite (proj2 (Z.ltb_lt _ _)) by lia. done.
Qed.

Lemma below_written st c t t' last :
  below t c -> written strcaseeq c st t = Some (t', last) -> below t' (c + 1).
Proof.
  intros Hb Hw id Hid. destruct (Hb id ltac:(lia)) as (H1 & H2 & H3).
  assert (Hne : c <> id) by lia.
  assert (Hex : forall {A} (m : gmap Z A) k x, m !! k = Some x -> m !! id = None -> k <> id) by (intros; congruence).
  destruct st; cbn [written] in Hw; try discriminate Hw; repeat case_match; simplify_eq/=; split_and!; try done;
    rewrite ?lookup_insert_ne by eauto; rewrite ?lookup_delete_None; auto.
  assert (Hin : (last, f) ∈ files_where (hash_is (text_of hex)) t) by (rewrite H; by left).
  apply elem_of_where in Hin as [Hin _]. apply lookup_insert_None. split; [done | congruence].
Qed.

Lemma demo_up_write n st s :
  demo_up (S n) s ->
  let (r, s') := demo_write st s in demo_up n s' /\ forall errno, r = QError errno -> errno = ER_DUP_ENTRY.
Proof.
  intros Hu. pose proof Hu as (_ & _ & Hb & Ht). unfold demo_write. rewrite (below_fresh _ _ Hu).
  destruct (written _ _ _ _) as [[t last] |] eqn:Hw.
  - split; [| done]. apply demo_up_set; [done | by eapply below_written |].
    intros h t' Ht'. eapply below_mono; [| by eapply Ht]. lia.
  - split; [| by intros errno [= <-]]. apply demo_up_set; [done | |].
    + eapply below_mono; [| done]. lia.
    + intros h t' Ht'. eapply below_mono; [| by eapply Ht]. lia.
Qed.

Lemma demo_up_run n h st s :
  demo_up (S n) s ->
  let (r, s') := demo_exec h st s in demo_up n s' /\ forall errno, r = QError errno -> errno = ER_DUP_ENTRY.
Proof.
  intros Hu. pose proof Hu as (_ & _ & Hb & Ht).
  assert (Hb' : below (now (demo_db s)) (demo_next s + 1)) by (eapply below_mono; [| done]; lia).
  assert (Ht' : forall h t, txn (demo_db s) = Some (h, t) -> below t (demo_next s + 1)).
  { intros h' t Hh. eapply below_mono; [| by eapply Ht]. lia. }
  unfold demo_exec. destruct st;
    try (destruct (selected _ _ _); [split; [by apply demo_up_set | done] | by apply demo_up_write]).
  - split; [| done]. apply demo_up_set; [done | done |]. simpl. by intros h' t [= _ <-].
  - split; [| done]. apply demo_up_set; done.
  - split; [| done]. unfold rolled_back. destruct (txn (demo_db s)) as [[h' t] |] eqn:E.
    + destruct (h' =? h); apply demo_up_set; simpl; try done; [by eapply Ht' | by rewrite E].
    + apply demo_up_set; [done | done | by rewrite E].
Qed.

#[global] Program Instance demo_up_instance : MySQLUp demo_mysql demo_spec := {|
  up := demo_up : nat -> @server demo_mysql -> Prop;
  up_mono := demo_up_mono
|}.
Next Obligation.
  intros n h st s Hu Hst _ _. simpl. unfold demo_query. rewrite parse_sql by done.
  pose proof (demo_up_run n h st s Hu) as Hr. pose proof (demo_exec_stored h st s) as Hs.
  destruct (demo_exec h st s). destruct Hr as [Hn He]. split_and!; [done | done | exact Hs].
Qed.
