(* ===== verification/DaoSpec.v ===== *)
(** * What the data-access functions guarantee

    Specifications of [Dao] against the database interface: memory safety, the
    return of the connection, the answer on every branch, the atomicity of the
    transactions, and the invariant of the tables. *)

From Stdlib Require Import Strings.Byte.
From S2P Require Import Prelude CString Protocol Database DatabasePool Dao Tables DatabaseDemo.

(** ** Total correctness *)

Definition wp `{MySQL} {A} (m : dbm A) (Q : A -> db -> Prop) (s : db) : Prop :=
  exists a s', m s = Ret (a, s') /\ Q a s'.

Section wp.
Context `{MySQL}.

Lemma wp_ret {A} (a : A) Q s : Q a s -> wp (mret a) Q s.
Proof. by exists a, s. Qed.

Lemma wp_bind {A B} (m : dbm A) (f : A -> dbm B) Q s :
  wp m (fun a s' => wp (f a) Q s') s -> wp (m ≫= f) Q s.
Proof.
  intros (a & s1 & Hm & b & s2 & Hf & HQ). exists b, s2. split; [| done].
  unfold mbind, dbm_bind. rewrite Hm. done.
Qed.

Lemma wp_mono {A} (m : dbm A) (Q Q' : A -> db -> Prop) s :
  wp m Q s -> (forall a s', Q a s' -> Q' a s') -> wp m Q' s.
Proof. intros (a & s' & Hm & HQ) Himp. exists a, s'. auto. Qed.

Lemma wp_lift {A} (o : outcome A) a Q s : o = Ret a -> Q a s -> wp (lift o) Q s.
Proof. intros -> HQ. by exists a, s. Qed.

End wp.

(** One computation of the caller itself *)
Ltac wp_pure :=
  apply wp_bind; eapply wp_lift; [reflexivity |]; cbn -[dec strtoull strtol to_int wp mret children sql sql_buffer or_abandon abandon rm_file_finish strncpy0].

(** ** Pool with a free connection *)

(** [h] is the connection that is handed out next; [p'] is the pool meanwhile. *)
Definition hands_out (p : database_pool) (h : Z) (p' : database_pool) : Prop :=
  database_pool_acquire p = Ret (Some h, p') /\ database_pool_release p' (Some h) = Ret p.

Definition free_connection (p : database_pool) : Prop :=
  0 < available p <= Z.of_nat (length (connections p)) /\
  exists h, connections p !! Z.to_nat (available p - 1) = Some (Some h).

Lemma free_connection_hands_out p : free_connection p -> exists h p', hands_out p h p'.
Proof.
  intros [Hn [h Hh]]. destruct p as [cs size n]. simpl in *.
  exists h, {| connections := <[Z.to_nat (n - 1) := None]> cs; pool_size := size; available := n - 1 |}.
  split.
  - unfold database_pool_acquire, acquire_section. simpl.
    destruct (Z.eqb_spec n 0); [lia |]. destruct (Z.ltb_spec (n - 1) 0); [lia |].
    destruct (Z.leb_spec (Z.of_nat (length cs)) (n - 1)); [lia |]. simpl. by rewrite Hh.
  - unfold database_pool_release. simpl. rewrite length_insert.
    destruct (Z.ltb_spec (n - 1) 0); [lia |].
    destruct (Z.leb_spec (Z.of_nat (length cs)) (n - 1)); [lia |]. simpl.
    rewrite list_insert_insert_eq, list_insert_id by done. by replace (n - 1 + 1) with n by lia.
Qed.

(** ** Statements *)

Section statements.
Context {M : MySQL} {Spec : MySQLSpec M} {Stored : MySQLStored M Spec} {Up : MySQLUp M Spec}.

Definition dbase (s : db) : database := database_of (srv s).

(** No transaction is open, the pool is [p] and the tables are [t]. *)
Definition settled (p : database_pool) (t : tables) (s : db) : Prop :=
  pool s = p /\ dbase s = {| now := t; txn := None |}.

(** Connection [h] has a transaction open, started from the tables [t0]. *)
Definition in_txn (p : database_pool) (h : Z) (t0 t : tables) (s : db) : Prop :=
  pool s = p /\ dbase s = {| now := t; txn := Some (h, t0) |}.

(** From [s] to [s'] at most [k] statements were run: a server that is up for
    them and more is still up. *)
Definition spent (k : nat) (s s' : db) : Prop := forall n, up (k + n) (srv s) -> up n (srv s').

(** The effect of one statement that succeeds on the tables. *)
Definition effect (st : stmt) (t : tables) (rows : option (list row)) (insert_id : Z) (t' : tables) : Prop :=
  match selected same_text st t with
  | Some all => (forall l, rows = Some l -> answers st all l) /\ t' = t
  | None => exists id, fresh_id st t id /\ written same_text id st t = Some (t', insert_id)
  end.

Definition control (st : stmt) : bool :=
  match st with StartTransaction | Commit | Rollback => true | _ => false end.

(** The server does not stay up for one more statement. *)
Definition down (s : db) : Prop := ~ up 1 (srv s).

Lemma up_le k n s : (k <= n)%nat -> up n s -> up k s.
Proof. induction 1; [done |]. intros Hu. apply IHle. by apply up_mono. Qed.

Lemma spent_refl s : spent 0 s s.
Proof. by intros n. Qed.
Lemma spent_trans j k s1 s2 s3 : spent j s1 s2 -> spent k s2 s3 -> spent (j + k) s1 s3.
Proof. intros H1 H2 n Hu. apply H2, H1. by rewrite Nat.add_assoc. Qed.
Lemma spent_le j k s s' : (j <= k)%nat -> spent j s s' -> spent k s s'.
Proof. intros Hle Hs n Hu. apply Hs. eapply up_le; [| done]. lia. Qed.
Lemma spent_srv k s s1 s' : srv s = srv s1 -> spent k s1 s' -> spent k s s'.
Proof. unfold spent. by intros ->. Qed.

Definition fits (buffer_size : Z) (st : stmt) : Prop := Z.of_nat (length (sql st)) < buffer_size.

Lemma sql_buffer_fits n st : fits n st -> sql_buffer n (sql st) = sql st.
Proof. unfold fits, sql_buffer, snprintf. simpl. intros Hf. apply take_ge. lia. Qed.

(** One statement on an acquired connection *)
Lemma wp_query h st Q s :
  stmt_ok st -> owned h (dbase s) ->
  (forall r s', pool s' = pool s -> mysql_query h (sql st) (srv s) = (r, srv s') ->
     match r with
     | QError errno => fails same_text h st (dbase s) errno (dbase s') /\
                       (up 1 (srv s) -> stmt_fits (now (dbase s)) st -> errno = ER_DUP_ENTRY)
     | QOk rows => succeeds same_text h st (dbase s) rows (mysql_insert_id h (srv s')) (dbase s') /\
                   (up 1 (srv s) -> stmt_fits (now (dbase s)) st ->
                    forall all, selected same_text st (now (dbase s)) = Some all -> rows <> None)
     end ->
     (stmt_fits (now (dbase s)) st -> spent 1 s s') -> Q r s') ->
  wp (query h (sql st)) Q s.
Proof.
  intros Hok Hown HQ. pose proof (query_spec h st (srv s) Hok Hown) as Hspec.
  pose proof (fun n Hu Hf => up_query n h st (srv s) Hu Hok Hf Hown) as Hup.
  destruct (mysql_query h (sql st) (srv s)) as [r srv'] eqn:Eq.
  exists r, {| pool := pool s; srv := srv' |}. unfold query. rewrite Eq. split; [done |].
  apply HQ; [done | done | |].
  - destruct r; (split; [done |]); intros Hu Hf; destruct (Hup 0%nat Hu Hf) as (_ & He & Hn); [by apply He |].
    intros all Hall ->. by apply (Hn all Hall).
  - intros Hf n Hu. by destruct (Hup n Hu Hf).
Qed.

Lemma wp_acquire p h p' Q s :
  hands_out p h p' -> pool s = p ->
  (forall s', pool s' = p' -> srv s' = srv s -> Q (Some h) s') -> wp acquire Q s.
Proof.
  intros [Ha _] Hp HQ. exists (Some h), {| pool := p'; srv := srv s |}.
  unfold acquire. rewrite Hp, Ha. split; [done |]. by apply HQ.
Qed.

Lemma wp_release p h p' Q s :
  hands_out p h p' -> pool s = p' ->
  (forall s', pool s' = p -> srv s' = srv s -> Q tt s') -> wp (release h) Q s.
Proof.
  intros [_ Hr] Hp HQ. exists tt, {| pool := p; srv := srv s |}.
  unfold release. rewrite Hp, Hr. split; [done |]. by apply HQ.
Qed.

Lemma down_up s n : down s -> ~ up (S n) (srv s).
Proof. intros Hd Hu. apply Hd. eapply up_le; [| done]. lia. Qed.

Lemma settled_owned p t s h : settled p t s -> owned h (dbase s).
Proof. intros [_ Hd] h' t'. by rewrite Hd. Qed.

Lemma settled_rolled_back p t s h : settled p t s -> rolled_back h (dbase s) = dbase s.
Proof. intros [_ Hd]. by rewrite Hd. Qed.

Lemma settled_srv p t p' s s' : settled p t s -> pool s' = p' -> srv s' = srv s -> settled p' t s'.
Proof. intros [_ Hd] Hp Hs. split; [done |]. unfold dbase in *. by rewrite Hs. Qed.

Lemma select_not_control st t all : selected same_text st t = Some all -> control st = false.
Proof. by destruct st. Qed.

Lemma succeeds_effect h st d rows iid d' :
  control st = false -> succeeds same_text h st d rows iid d' ->
  exists t', effect st (now d) rows iid t' /\ d' = {| now := t'; txn := txn d |}.
Proof.
  unfold effect. destruct st; try done; intros _ Hs; unfold succeeds in Hs;
    (destruct (selected _ _ _) eqn:E;
     [destruct Hs as [Hs ->]; exists (now d); by destruct d
     | destruct Hs as (? & t & ? & ? & ->); exists t; eauto]).
Qed.

Lemma fails_cases h st d errno d' :
  control st = false -> fails same_text h st d errno d' ->
  (errno = ER_DUP_ENTRY -> duplicate_key same_text st (now d) /\ d' = d) /\ (d' = d \/ d' = rolled_back h d).
Proof. intros Hc [H1 H2]. split; [done |]. by destruct st. Qed.

(** ** One statement outside of a transaction *)

Lemma wp_pool_query p t st all Q s :
  free_connection p -> settled p t s -> stmt_ok st -> fits 1024 st ->
  selected same_text st t = Some all -> stmt_fits t st ->
  (forall s', settled p t s' -> down s -> Q None s') ->
  (forall l s', answers st all l -> settled p t s' -> spent 1 s s' -> Q (Some (Some l)) s') ->
  wp (database_pool_query (sql_buffer 1024 (sql st))) Q s.
Proof.
  intros Hfree Hs Hok Hfit Hsel Hfits HNone HSome. rewrite sql_buffer_fits by done.
  destruct (free_connection_hands_out p Hfree) as (h & p' & Hout). unfold database_pool_query.
  apply wp_bind. eapply wp_acquire; [done | apply Hs |]. intros s1 Hp1 Hv1.
  pose proof (settled_srv _ _ _ _ _ Hs Hp1 Hv1) as Hs1.
  apply wp_bind, wp_query; [done | by eapply settled_owned |]. intros r s2 Hp2 Hq Hr Hsp.
  apply wp_bind. eapply wp_release; [done | congruence |]. intros s3 Hp3 Hv3.
  assert (Hc := select_not_control _ _ _ Hsel). pose proof (settled_owned _ _ _ h Hs1) as Hown.
  destruct Hs1 as [Hp1' Hd1]. rewrite Hd1 in Hr, Hsp. cbn [now] in Hr, Hsp. destruct r as [errno | rows].
  - destruct Hr as [Hf He]. apply fails_cases in Hf as [Hdup Hd]; [| done].
    assert (Hd2 : dbase s2 = dbase s1) by (rewrite Hd1; by destruct Hd).
    apply wp_ret, HNone.
    + split; [done |]. unfold dbase in *. congruence.
    + intros Hu. rewrite <- Hv1 in Hu. destruct (Hdup (He Hu Hfits)) as [Hk _]. by destruct st.
  - destruct Hr as [Hr _]. apply succeeds_effect in Hr as (t' & He & Hd2); [| done]. unfold effect in He. simpl in He, Hd2.
    rewrite Hsel in He. destruct He as [Ha ->].
    assert (Hrows : rows <> None).
    { intros ->. apply (result_stored h st (srv s1) all); [done | done | by rewrite <- Hsel; unfold dbase in Hd1; rewrite Hd1 |].
      by rewrite Hq. }
    destruct rows as [l |]; [| done]. apply wp_ret, HSome; [by apply Ha | |].
    + split; [done |]. unfold dbase in *. by rewrite Hv3.
    + intros n Hu. rewrite <- Hv1 in Hu. rewrite Hv3. by apply Hsp.
Qed.

Lemma wp_pool_execute p t st Q s :
  free_connection p -> settled p t s -> stmt_ok st -> fits 1024 st ->
  control st = false -> selected same_text st t = None ->
  (forall s' id t' iid, fresh_id st t id -> written same_text id st t = Some (t', iid) ->
     settled p t' s' -> (stmt_fits t st -> spent 1 s s') -> Q 0 s') ->
  (forall s', duplicate_key same_text st t -> settled p t s' -> (stmt_fits t st -> spent 1 s s') -> Q 1 s') ->
  (forall s', settled p t s' -> (stmt_fits t st -> down s) -> Q (-1) s') ->
  wp (database_pool_execute (sql_buffer 1024 (sql st))) Q s.
Proof.
  intros Hfree Hs Hok Hfit Hc Hsel H0 H1 Hm. rewrite sql_buffer_fits by done.
  destruct (free_connection_hands_out p Hfree) as (h & p' & Hout). unfold database_pool_execute.
  apply wp_bind. eapply wp_acquire; [done | apply Hs |]. intros s1 Hp1 Hv1.
  pose proof (settled_srv _ _ _ _ _ Hs Hp1 Hv1) as Hs1.
  apply wp_bind, wp_query; [done | by eapply settled_owned |]. intros r s2 Hp2 _ Hr Hsp.
  apply wp_bind. eapply wp_release; [done | congruence |]. intros s3 Hp3 Hv3.
  destruct Hs1 as [Hp1' Hd1]. rewrite Hd1 in Hr, Hsp. cbn [now] in Hr, Hsp.
  assert (Hsp3 : stmt_fits t st -> spent 1 s s3).
  { intros Hf n Hu. rewrite Hv3. rewrite <- Hv1 in Hu. by apply Hsp. }
  destruct r as [errno | rows].
  - destruct Hr as [Hf He]. apply fails_cases in Hf as [Hdup Hd]; [| done].
    assert (Hd2 : dbase s2 = dbase s1) by (rewrite Hd1; by destruct Hd).
    assert (Hs3 : settled p t s3) by (split; [done |]; unfold dbase in *; congruence).
    apply wp_ret. destruct (Z.eqb_spec errno ER_DUP_ENTRY) as [E | E].
    + apply H1; [| done | done]. by destruct (Hdup E) as [Hk _].
    + apply Hm; [done |]. intros Hfs Hu. rewrite <- Hv1 in Hu. by apply E, (He Hu).
  - destruct Hr as [Hr _]. apply succeeds_effect in Hr as (t' & He & Hd2); [| done]. unfold effect in He. simpl in He, Hd2.
    rewrite Hsel in He. destruct He as (id & Hfresh & Hw). apply wp_ret. eapply H0; [done | done | | done].
    split; [done |]. unfold dbase in *. by rewrite Hv3.
Qed.

(** ** Transactions *)

Lemma in_txn_owned p h t0 t s : in_txn p h t0 t s -> owned h (dbase s).
Proof. intros [_ Hd] h' t'. rewrite Hd. by intros [= -> _]. Qed.

Lemma in_txn_rolled_back p h t0 t s :
  in_txn p h t0 t s -> rolled_back h (dbase s) = {| now := t0; txn := None |}.
Proof. intros [_ Hd]. rewrite Hd. unfold rolled_back. simpl. by rewrite Z.eqb_refl. Qed.

(** ROLLBACK restores the tables, whether or not an error did it before. *)
Lemma wp_abandon {A} (a : A) p p' h t0 Q s :
  hands_out p h p' -> pool s = p' -> owned h (dbase s) ->
  rolled_back h (dbase s) = {| now := t0; txn := None |} ->
  (forall s', settled p t0 s' -> spent 1 s s' -> Q a s') ->
  wp (abandon h a) Q s.
Proof.
  intros Hout Hp Hown Hrb HQ. unfold abandon.
  apply wp_bind, wp_query; [done | done |]. intros r s1 Hp1 _ Hr Hsp.
  apply wp_bind. eapply wp_release; [done | congruence |]. intros s2 Hp2 Hv2.
  apply wp_ret, HQ.
  - split; [done |]. unfold dbase at 1. rewrite Hv2. change (database_of (srv s1)) with (dbase s1).
    rewrite <- Hrb. destruct r; [apply (proj2 (proj1 Hr)) | apply (proj1 Hr)].
  - intros n Hu. rewrite Hv2. by apply Hsp.
Qed.

(** A statement inside of a transaction: either it takes effect, or the
    transaction is undone and [a] is returned. *)
Lemma wp_or_abandon {A} (a : A) p p' h t0 t st text k Q s :
  hands_out p h p' -> in_txn p' h t0 t s -> stmt_ok st -> text = sql st -> control st = false ->
  (forall s', settled p t0 s' -> (stmt_fits t st -> up 1 (srv s) -> duplicate_key same_text st t) ->
     (stmt_fits t st -> spent 2 s s') -> Q a s') ->
  (forall rows t' s', effect st t rows (mysql_insert_id h (srv s')) t' -> in_txn p' h t0 t' s' ->
     (stmt_fits t st -> up 1 (srv s) -> forall all, selected same_text st t = Some all -> rows <> None) ->
     (stmt_fits t st -> spent 1 s s') -> wp (k rows) Q s') ->
  wp (or_abandon h text a k) Q s.
Proof.
  intros Hout Hs Hok -> Hc Ha Hk. unfold or_abandon.
  apply wp_bind, wp_query; [done | by eapply in_txn_owned |]. intros r s1 Hp1 _ Hr Hsp.
  assert (Hnow : now (dbase s) = t) by (destruct Hs as [_ ->]; done). rewrite Hnow in Hr, Hsp.
  destruct r as [errno | rows].
  - destruct Hr as [Hf He]. apply fails_cases in Hf as [Hdup Hd]; [| done]. rewrite Hnow in Hdup.
    pose proof (in_txn_rolled_back _ _ _ _ _ Hs) as Hrb.
    assert (Hd1 : owned h (dbase s1) /\ rolled_back h (dbase s1) = {| now := t0; txn := None |}).
    { destruct Hd as [-> | ->]; [split; [by eapply in_txn_owned | done] |]. rewrite Hrb. done. }
    destruct Hd1 as [Hown Hrb1].
    apply (wp_abandon a p p' h t0); [done | by rewrite Hp1; apply Hs | done | done |].
    intros s2 Hs2 Hsp2. apply Ha; [done | |].
    + intros Hfits Hu. by apply Hdup, (He Hu).
    + intros Hfits. eapply (spent_trans 1 1); eauto.
  - destruct Hr as [Hr Hn]. apply succeeds_effect in Hr as (t' & He & Hd2); [| done]. destruct Hs as [Hp Hd].
    rewrite Hd in He, Hd2. eapply Hk; [exact He | | intros Hfits Hu; by apply Hn | done]. split; [congruence | done].
Qed.

(** COMMIT makes the new tables final; if it fails they are undone, or its
    report was lost. *)
Lemma wp_commit {A} (a b : A) p p' h t0 t Q s :
  hands_out p h p' -> in_txn p' h t0 t s ->
  (forall s', settled p t0 s' \/ settled p t s' -> down s -> Q a s') ->
  (forall s', settled p t s' -> spent 1 s s' -> Q b s') ->
  wp (or_abandon h (sql Commit) a (fun _ => release h;; mret b)) Q s.
Proof.
  intros Hout Hs Ha Hb. unfold or_abandon.
  apply wp_bind, wp_query; [done | by eapply in_txn_owned |]. intros r s1 Hp1 _ Hr Hsp.
  destruct Hs as [Hp Hd]. destruct r as [errno | rows].
  - destruct Hr as [[Hdup Hf] He]. assert (Hdown : down s) by (intros Hu; by destruct (Hdup (He Hu I))).
    assert (Hcase : exists t1, (t1 = t0 \/ t1 = t) /\ owned h (dbase s1) /\
              rolled_back h (dbase s1) = {| now := t1; txn := None |}).
    { rewrite Hd in Hf. destruct Hf as [-> | [-> | ->]].
      - exists t0. split_and!; [by left | by intros h' t' [= -> _] |]. unfold rolled_back. simpl. by rewrite Z.eqb_refl.
      - exists t0. unfold rolled_back. simpl. rewrite Z.eqb_refl. split_and!; [by left | done | done].
      - exists t. split_and!; [by right | done | done]. }
    destruct Hcase as (t1 & Ht1 & Hown & Hrb).
    apply (wp_abandon a p p' h t1); [done | by rewrite Hp1 | done | done |]. intros s2 Hs2 _.
    apply Ha; [| done]. destruct Ht1 as [-> | ->]; auto.
  - destruct Hr as [Hr _]. apply wp_bind. eapply wp_release; [done | congruence |]. intros s2 Hp2 Hv2.
    apply wp_ret, Hb.
    + split; [done |]. unfold succeeds in Hr. rewrite Hd in Hr. unfold dbase. by rewrite Hv2.
    + intros n Hu. rewrite Hv2. by apply Hsp.
Qed.

(** Acquire a connection and start a transaction on it. *)
Lemma wp_transaction {A} (a : A) (body : Z -> dbm A) p t Q s :
  free_connection p -> settled p t s ->
  (forall s', settled p t s' -> down s -> Q a s') ->
  (forall h p' s', hands_out p h p' -> in_txn p' h t t s' -> spent 1 s s' -> wp (body h) Q s') ->
  forall start : Z -> dbm A,
  (forall h s1, wp (r ← query h (sql StartTransaction);
     match r with QError _ => release h;; mret a | QOk _ => body h end) Q s1 -> wp (start h) Q s1) ->
  wp (conn ← acquire; match conn with None => mret a | Some h => start h end) Q s.
Proof.
  intros Hfree Hs Ha Hbody start Hstart.
  destruct (free_connection_hands_out p Hfree) as (h & p' & Hout).
  apply wp_bind. eapply wp_acquire; [done | apply Hs |]. intros s1 Hp1 Hv1.
  pose proof (settled_srv _ _ _ _ _ Hs Hp1 Hv1) as Hs1. apply Hstart.
  apply wp_bind, wp_query; [done | by eapply settled_owned |]. intros r s2 Hp2 _ Hr Hsp.
  destruct r as [errno | rows].
  - destruct Hr as [[Hdup Hf] He]. apply wp_bind. eapply wp_release; [done | congruence |]. intros s3 Hp3 Hv3.
    apply wp_ret, Ha.
    + rewrite (settled_rolled_back _ _ _ h Hs1) in Hf. assert (Hd2 : dbase s2 = dbase s1) by tauto.
      split; [done |]. destruct Hs1 as [_ Hd1]. unfold dbase in *. congruence.
    + intros Hu. rewrite <- Hv1 in Hu. by destruct (Hdup (He Hu I)).
  - destruct Hs1 as [Hp1' Hd1]. destruct Hr as [Hr _]. unfold succeeds in Hr. rewrite Hd1 in Hr.
    apply (Hbody h p'); [done | split; [congruence | done] |].
    intros n Hu. rewrite <- Hv1 in Hu. by apply Hsp.
Qed.

(** ** Statements that fit their buffers *)

Lemma fits_numbers st n :
  match st with
  | SelectChildren _ _ | SelectLs _ _ | SelectFileId _ _ | SelectRefs _ | DeletePath _
  | DeleteFilePath _ _ | DeleteFile _ | DecrementRefs _ | IncrementRefs _ => True
  | _ => False
  end -> 1024 <= n -> fits n st.
Proof.
  unfold fits. destruct st; try done; intros _ Hn; cbn [sql]; rewrite ?length_app;
    repeat match goal with |- context [dec ?z] => pose proof (length_dec z); generalize dependent (length (dec z)); intros end;
    simpl length; lia.
Qed.

Lemma fits_node uid path : (length path <= 900)%nat -> fits 1024 (SelectNode uid path).
Proof.
  unfold fits. cbn [sql]. rewrite !length_app. pose proof (length_dec uid). intros.
  change (length (lit "SELECT id, type FROM paths WHERE user_id = ")) with 43%nat.
  change (length (lit " AND path = '")) with 13%nat. change (length (lit "'")) with 1%nat. lia.
Qed.

Lemma good_plain s : plain s -> good_text s.
Proof. intros Hp. unfold good_text. rewrite unescape_plain by done. by eexists. Qed.

Lemma text_plain s : plain s -> text_of s = s.
Proof. intros Hp. unfold text_of. by rewrite unescape_plain. Qed.

Lemma ascii_plain s : plain s -> ascii (text_of s).
Proof. intros Hp. rewrite text_plain by done. by apply plain_ascii. Qed.

Lemma text_sha hex : sha_text hex -> text_of hex = hex.
Proof. intros Hx. by apply text_plain, sha_text_plain. Qed.

(** ** Lookups *)

Notation tables_ok := (tables_ok same_text).
Notation find_node := (find_node same_text).

Definition node_result (o : option (Z * path_row)) : dao_path_result * option Z :=
  match o with
  | None => (DAO_PATH_NOT_FOUND, None)
  | Some (id, r) => (if p_type r =? 0 then DAO_PATH_IS_FILE else DAO_PATH_IS_DIR, Some id)
  end.

Lemma to_int_small z : 0 <= z < 2 ^ 31 -> to_int z = z.
Proof.
  intros Hz. unfold to_int, u32, u32_mod. rewrite Z.mod_small by lia. by rewrite (proj2 (Z.leb_gt _ _)) by lia.
Qed.

Lemma get_node_id_spec p t uid path s :
  free_connection p -> settled p t s -> tables_ok t -> is_u64 uid -> plain path -> (length path <= 900)%nat ->
  wp (dao_path_get_node_id uid path)
     (fun a s' => settled p t s' /\
        ((a = node_result (find_node t uid path) /\ spent 1 s s') \/ (a = (DAO_PATH_DB_ERROR, None) /\ down s))) s.
Proof.
  intros Hfree Hs Hok Huid Hpl Hlen. unfold dao_path_get_node_id. apply wp_bind.
  eapply wp_pool_query; [done | done | by split; [| apply good_plain] | by apply fits_node | done | by apply ascii_plain | |].
  - intros s' Hs' Hd. apply wp_ret. by auto.
  - intros l s' Ha Hs' Hsp. unfold answers in Ha. cbn [limit_one] in Ha.
    rewrite text_plain, (find_node_where _ same_text_equiv) in Ha by done.
    destruct (find_node t uid path) as [[id r] |] eqn:E; cbn [option_list from_option map fst snd] in Ha.
    + apply Permutation_singleton_r in Ha as ->. apply (find_node_Some _ same_text_equiv) in E as (Hr & _ & _); [| done].
      do 4 wp_pure. rewrite strtoull_dec by (pose proof (path_ids _ _ Hok _ _ Hr); unfold is_u64, u64_mod; lia).
      assert (Hty : 0 <= p_type r <= 1) by (destruct (path_type _ _ Hok _ _ Hr) as [[-> _] | [-> _]]; lia).
      rewrite strtol_dec, to_int_small by lia. cbn [node_result].
      destruct (Z.eqb_spec (p_type r) 0); [apply wp_ret; auto |].
      destruct (Z.eqb_spec (p_type r) 1); [| lia]. apply wp_ret; auto.
    + apply Permutation_nil_r in Ha as ->. wp_pure. apply wp_ret. auto.
Qed.

Lemma has_child_spec p t uid parent s :
  free_connection p -> settled p t s -> is_u64 uid -> is_u64 parent ->
  wp (dao_path_dir_has_child uid parent)
     (fun n s' => settled p t s' /\
        ((n = to_int (Z.of_nat (length (children t uid parent))) /\ spent 1 s s') \/ (n = -1 /\ down s))) s.
Proof.
  intros Hfree Hs Huid Hpar. unfold dao_path_dir_has_child. apply wp_bind.
  eapply wp_pool_query; [done | done | done | by apply fits_numbers | done | done | |].
  - intros s' Hs' Hd. apply wp_ret. auto.
  - intros l s' Ha Hs' Hsp. unfold answers in Ha. cbn [limit_one] in Ha.
    apply Permutation_length in Ha. rewrite length_map in Ha.
    wp_pure. apply wp_ret. rewrite Ha. auto.
Qed.

(** What [ls] shows of a row *)
Definition ls_entry (r : path_row) : list byte :=
  p_name r ++ (if p_type r =? 1 then lit "/  " else lit "  ").

Lemma snprintf_room n s text : 0 <= n -> Z.of_nat (length text) < n -> snprintf n (text ++ s) =
  (Z.of_nat (length text) + Z.of_nat (length s), text ++ take (Z.to_nat (n - 1) - length text) s).
Proof.
  intros Hn Hl. unfold snprintf. rewrite length_app, take_app, take_ge by lia. f_equal. lia.
Qed.

Lemma ls_loop_spec n prs acc :
  0 < n -> Z.of_nat (length acc) < n ->
  Forall (fun ir : Z * path_row => p_type (snd ir) = 0 \/ p_type (snd ir) = 1) prs ->
  ls_loop n (map (fun ir => [Some (p_name (snd ir)); num (p_type (snd ir))]) prs) (Z.of_nat (length acc)) acc =
  Ret (take (Z.to_nat (n - 1)) (acc ++ concat (map (fun ir => ls_entry (snd ir)) prs))).
Proof.
  intros Hn. revert acc. induction prs as [| [i r] prs IH]; intros acc Hacc Hty.
  - simpl. rewrite app_nil_r, take_ge by lia. done.
  - inversion_clear Hty as [| ? ? Hr Hprs]. cbn [map fst snd] in *. cbn [ls_loop column_text column deref lookup list_lookup mbind outcome_bind num].
    rewrite strtol_dec by lia.
    set (e := ls_entry r).
    assert (Hstep : forall text, e = text ->
      (let (m, s) := snprintf (n - Z.of_nat (length acc)) text in
       if n <=? Z.of_nat (length acc) + m then Ret (acc ++ s)
       else ls_loop n (map (fun ir => [Some (p_name (snd ir)); num (p_type (snd ir))]) prs)
              (Z.of_nat (length acc) + m) (acc ++ s)) =
      Ret (take (Z.to_nat (n - 1)) (acc ++ e ++ concat (map (fun ir => ls_entry (snd ir)) prs)))).
    { intros text <-. unfold snprintf.
      assert (Hcut : acc ++ take (Z.to_nat (n - Z.of_nat (length acc) - 1)) e = take (Z.to_nat (n - 1)) (acc ++ e)).
      { rewrite take_app, (take_ge acc) by lia. do 2 f_equal. lia. }
      rewrite Hcut. rewrite app_assoc. destruct (Z.leb_spec n (Z.of_nat (length acc) + Z.of_nat (length e))).
      - rewrite (take_app_le (acc ++ e)); [done |]. rewrite length_app. lia.
      - rewrite (take_ge (acc ++ e)) by (rewrite length_app; lia).
        rewrite <- Nat2Z.inj_add, <- length_app. apply IH; [| done]. rewrite length_app. lia. }
    destruct Hr as [Hr | Hr]; rewrite Hr; cbn [Z.eqb Pos.eqb].
    + apply Hstep. unfold e, ls_entry. by rewrite Hr.
    + specialize (Hstep (p_name r ++ lit "/  ")). apply Hstep. unfold e, ls_entry. by rewrite Hr.
Qed.

Lemma under_types t uid parent :
  tables_ok t -> Forall (fun ir : Z * path_row => p_type (snd ir) = 0 \/ p_type (snd ir) = 1) (children t uid parent).
Proof.
  intros Hok. apply Forall_forall. intros [i r] Hin. apply elem_of_where in Hin as [Hr _]. simpl.
  destruct (path_type _ _ Hok i r Hr) as [[-> _] | [-> _]]; auto.
Qed.

(** The listing of a directory: its children in some order, cut to the buffer. *)
Definition listing (t : tables) (uid parent n : Z) (text : list byte) : Prop :=
  exists prs, prs ≡ₚ children t uid parent /\
    text = take (Z.to_nat (n - 1)) (concat (map (fun ir => ls_entry (snd ir)) prs)).

Lemma get_ls_dir_spec p t uid parent n s :
  free_connection p -> settled p t s -> tables_ok t -> is_u64 uid -> is_u64 parent -> 0 < n ->
  wp (dao_path_get_ls_dir uid parent n)
     (fun a s' => settled p t s' /\
        ((fst a = to_int (Z.of_nat (length (children t uid parent))) /\ listing t uid parent n (snd a) /\
          spent 1 s s') \/ (a = (-1, []) /\ down s))) s.
Proof.
  intros Hfree Hs Hok Huid Hpar Hn. unfold dao_path_get_ls_dir. apply wp_bind.
  eapply wp_pool_query; [done | done | done | by apply fits_numbers | done | done | |].
  - intros s' Hs' Hd. apply wp_ret. auto.
  - intros l s' Ha Hs' Hsp. unfold answers in Ha. cbn [limit_one] in Ha.
    pose proof (Permutation_length Ha) as Hl. rewrite length_map in Hl.
    apply Permutation_map_inv in Ha as (prs & -> & Hp).
    apply wp_bind. eapply wp_lift; [reflexivity |]. apply wp_bind. eapply wp_lift; [reflexivity |].
    apply wp_bind. eapply wp_lift; [apply (ls_loop_spec n prs [] Hn) |].
    + done.
    + fold (children t uid parent) in Hp. rewrite <- Hp. by apply under_types.
    + apply wp_ret. split; [done |]. left. fold (children t uid parent) in Hl. rewrite <- Hl. split_and!; [done | | done].
      exists prs. split; [by symmetry | done].
Qed.

(** ** Directories *)

Lemma find_node_nil t uid path : find_node t uid path = None <-> paths_where (at_path same_text uid path) t = [].
Proof. unfold Tables.find_node. apply head_None. Qed.

Lemma insert_dir_spec p t uid path parent name s :
  free_connection p -> settled p t s -> is_u64 uid -> is_u64 parent -> plain path -> plain name ->
  (length path + length name <= 800)%nat ->
  wp (dao_path_insert_dir uid path parent name)
     (fun a s' =>
        (a = 0 /\ find_node t uid path = None /\ exists id, (0 < id < 2 ^ 63 /\ paths t !! id = None) /\
           settled p (mkdir_tables t id uid path parent name) s') \/
        (a = 1 /\ find_node t uid path <> None /\ settled p t s') \/
        (a = -1 /\ settled p t s' /\
           (int_column uid -> bigint_column parent -> (length path <= 768)%nat -> (length name <= 255)%nat -> down s))) s.
Proof.
  intros Hfree Hs Huid Hpar Hpp Hpn Hlen. unfold dao_path_insert_dir.
  eapply wp_pool_execute; [done | done | | | done | done | | |].
  - split_and!; try done; try by apply good_plain. by intros z [= <-].
  - unfold fits. cbn [sql or_null]. rewrite !length_app.
    pose proof (length_dec uid). pose proof (length_dec parent). pose proof (length_dec 1).
    generalize dependent (length (dec uid)). generalize dependent (length (dec parent)).
    generalize dependent (length (dec 1)). intros. simpl length. lia.
  - intros s' id t' iid Hf Hw Hs' _. cbn [written] in Hw. rewrite !text_plain in Hw by done.
    destruct (paths_where _ t) eqn:E; [| done]. injection Hw as <- <-. left.
    split_and!; [done | by apply find_node_nil | by exists id].
  - intros s' Hdup Hs' _. right. left. cbn [duplicate_key] in Hdup. rewrite text_plain in Hdup by done.
    split_and!; [done | by rewrite find_node_nil | done].
  - intros s' Hs' Hd. right. right. split_and!; [done | done |]. intros H1 H2 H3 H4. apply Hd.
    cbn [stmt_fits]. rewrite !text_plain by done. apply plain_ascii in Hpp, Hpn.
    split_and!; try done. by intros z [= <-].
Qed.

Lemma rmdir_spec p t id s :
  free_connection p -> settled p t s -> is_u64 id ->
  wp (dao_path_rmdir id)
     (fun a s' => (a = 0 /\ settled p (rmdir_tables t id) s') \/ (a = -1 /\ settled p t s' /\ down s)) s.
Proof.
  intros Hfree Hs Hid. unfold dao_path_rmdir.
  eapply wp_pool_execute; [done | done | done | by apply fits_numbers | done | done | | |].
  - intros s' i t' iid _ Hw Hs' _. cbn [written] in Hw. injection Hw as <- <-. auto.
  - done.
  - intros s' Hs' Hd. right. split_and!; [done | done | by apply Hd].
Qed.

(** ** Users *)

Definition find_user (t : tables) (name : list byte) : option (Z * user_row) :=
  head (users_where (fun u => same_text (u_name u) name) t).

Lemma named_unique t name : tables_ok t ->
  forall i j a b, users t !! i = Some a -> users t !! j = Some b ->
  same_text (u_name a) name = true -> same_text (u_name b) name = true -> i = j.
Proof.
  intros Hok i j a b Hi Hj Ha Hb. eapply (users_unique _ t Hok); [done | done |].
  by eapply (same_join _ same_text_equiv).
Qed.

Lemma find_user_Some t name i u :
  tables_ok t ->
  find_user t name = Some (i, u) <-> users t !! i = Some u /\ same_text (u_name u) name = true.
Proof.
  intros Hok. apply (where_head (fun u => same_text (u_name u) name)). by apply named_unique.
Qed.

Lemma find_user_where t name : tables_ok t ->
  users_where (fun u => same_text (u_name u) name) t = option_list (find_user t name).
Proof.
  intros Hok. apply (where_option (fun u => same_text (u_name u) name)). by apply named_unique.
Qed.

Lemma find_user_None t name : find_user t name = None <-> ~ name_taken same_text t name.
Proof.
  unfold find_user, users_where. rewrite head_None, (where_none (fun u => same_text (u_name u) name)).
  unfold name_taken. split.
  - intros Hn (i & u & Hi & Hs). by rewrite (Hn i u Hi) in Hs.
  - intros Hn i u Hi. apply not_true_iff_false. intros Hs. apply Hn. eauto.
Qed.

(** The root directory of a user *)
Lemma find_root t uid u :
  tables_ok t -> users t !! uid = Some u ->
  exists j r, find_node t uid [SLASH] = Some (j, r) /\ p_path r = [SLASH] /\ p_type r = 1.
Proof.
  intros Hok Hu. destruct (user_root _ t Hok uid u Hu) as (j & r & Hj & Hr & Hp & _ & Ht). exists j, r.
  split; [| done]. apply (find_node_Some _ same_text_equiv); [done |]. split_and!; [done | done |].
  rewrite Hp. apply (@Equivalence_Reflexive _ _ same_text_equiv).
Qed.

(** What a login finds out about a name *)
Definition login_result (t : tables) (name : list byte) : option login_info :=
  match find_user t name with
  | None => None
  | Some (uid, u) =>
      root ← find_node t uid [SLASH];
      Some {| li_user_id := uid; li_password_hash := u_hash u; li_root_path_id := fst root |}
  end.

Lemma get_login_info_spec p t name s :
  free_connection p -> settled p t s -> tables_ok t -> plain name -> (length name <= 800)%nat ->
  (forall uid u, find_user t name = Some (uid, u) -> Z.of_nat (length (u_hash u)) < CRYPT_OUTPUT_SIZE) ->
  wp (dao_auth_get_login_info name)
     (fun a s' => settled p t s' /\
        ((fst a = -1 /\ down s) \/
         (match login_result t name with Some li => a = (0, li) | None => fst a = 1 end /\ spent 1 s s'))) s.
Proof.
  intros Hfree Hs Hok Hpn Hlen Hhash. unfold dao_auth_get_login_info. apply wp_bind.
  eapply wp_pool_query; [done | done | by apply good_plain | | done | by apply ascii_plain | |].
  - unfold fits. cbn [sql]. rewrite !length_app. generalize dependent (length name). intros. simpl length. lia.
  - intros s' Hs' Hd. apply wp_ret. auto.
  - intros l s' Ha Hs' Hsp. unfold answers in Ha. cbn [limit_one] in Ha.
    rewrite text_plain, find_user_where in Ha by done. unfold login_result.
    destruct (find_user t name) as [[uid u] |] eqn:E.
    + pose proof (Hhash _ _ eq_refl) as Hh. apply find_user_Some in E as [Hu Hn]; [| done].
      destruct (find_root t uid u Hok Hu) as (j & r & Hroot & _).
      change (option_list (Some (uid, u))) with [(uid, u)] in Ha. unfold mbind in Ha. cbn [list_bind fst snd] in Ha.
      rewrite (find_node_where _ same_text_equiv), Hroot in Ha by done.
      cbn [option_list from_option map app fst snd] in Ha. destruct Ha as (x & Hx & ->).
      apply list_elem_of_singleton in Hx as ->. rewrite Hroot.
      apply (find_node_Some _ same_text_equiv) in Hroot as (Hj & _); [| done].
      do 5 wp_pure.
      pose proof (user_ids _ t Hok _ _ Hu). pose proof (path_ids _ t Hok _ _ Hj).
      rewrite !strtoull_dec by (unfold is_u64, u64_mod; lia).
      destruct (Z.leb_spec CRYPT_OUTPUT_SIZE (Z.of_nat (length (u_hash u)))); [lia |].
      apply wp_ret. split; [done |]. right. split; [| done]. do 3 f_equal.
      unfold strncpy0. rewrite take_ge; [done | lia].
    + cbn in Ha. subst l. wp_pure. apply wp_ret. auto.
Qed.

(** ** Registration *)

Definition new_user (t : tables) (name : list byte) (uid rid : Z) : Prop :=
  find_user t name = None /\ 0 < uid < 2 ^ 31 /\ users t !! uid = None /\
  0 < rid < 2 ^ 63 /\ paths t !! rid = None.

Lemma effect_insert_user t name hash rows iid t' :
  plain name -> plain hash -> effect (InsertUser name hash) t rows iid t' ->
  find_user t name = None /\ 0 < iid < 2 ^ 31 /\ users t !! iid = None /\
  t' = set_users t (<[iid := {| u_name := name; u_hash := hash |}]> (users t)).
Proof.
  intros Hn Hh. unfold effect. cbn [selected]. intros (id & Hf & Hw). cbn [written] in Hw.
  rewrite !text_plain in Hw by done. destruct (users_where _ t) eqn:E; [| done]. injection Hw as <- <-.
  destruct Hf. split_and!; [by apply head_None | lia | lia | done | done].
Qed.

Lemma effect_insert_path t uid path file parent name type rows iid t' :
  good_text path -> good_text name -> effect (InsertPath uid path file parent name type) t rows iid t' ->
  find_node t uid (text_of path) = None /\ 0 < iid < 2 ^ 63 /\ paths t !! iid = None /\
  t' = set_paths t (<[iid := {| p_user := uid; p_path := text_of path; p_file := file; p_parent := parent;
         p_name := text_of name; p_type := type |}]> (paths t)).
Proof.
  intros Hp Hn. unfold effect. cbn [selected]. intros (id & Hf & Hw). cbn [written] in Hw.
  destruct (paths_where _ t) eqn:E; [| done]. injection Hw as <- <-.
  destruct Hf. split_and!; [by apply find_node_nil | lia | lia | done | done].
Qed.

Lemma root_fits t uid : 0 < uid < 2 ^ 31 -> stmt_fits t (InsertPath uid [SLASH] None None [SLASH] 1).
Proof.
  intros Hu. cbn [stmt_fits]. change (text_of [SLASH]) with [SLASH]. unfold int_column.
  assert (ascii [SLASH]) by (apply (bool_decide_unpack _); vm_compute; exact I).
  split_and!; try done; try lia; simpl; lia.
Qed.

Lemma register_spec p t name hash s :
  free_connection p -> settled p t s -> tables_ok t -> plain name -> plain hash ->
  (length name <= 400)%nat -> (length hash <= 400)%nat ->
  wp (dao_auth_register name hash)
     (fun a s' =>
        (a = 0 /\ exists uid rid, new_user t name uid rid /\ settled p (register_tables t uid rid name hash) s') \/
        (a = -1 /\ (settled p t s' \/
                    exists uid rid, new_user t name uid rid /\ settled p (register_tables t uid rid name hash) s') /\
         ((length name <= 64)%nat -> (length hash <= 384)%nat -> up 4 (srv s) -> find_user t name <> None))) s.
Proof.
  intros Hfree Hs Hok Hpn Hph Hln Hlh. unfold dao_auth_register.
  eapply (wp_transaction (-1)); [done | done | | | by intros ? ? Hstart; exact Hstart].
  - intros s' Hs' Hd. right. split_and!; [done | by left |]. intros _ _ Hu. by apply (down_up s 3) in Hd.
  - intros h p' s1 Hout Hs1 Hsp1. cbn beta.
    eapply (wp_or_abandon (-1) p p' h t t (InsertUser name hash)); [done | done | | | done | |].
    { split; by apply good_plain. }
    { apply sql_buffer_fits. unfold fits. cbn [sql]. rewrite !length_app.
      generalize dependent (length name). generalize dependent (length hash). intros. simpl length. lia. }
    { intros s2 Hs2 Hdup _. right. split_and!; [done | by left |]. intros H1 H2 Hu.
      cbn [stmt_fits duplicate_key] in Hdup. rewrite !text_plain in Hdup by done. unfold find_user.
      rewrite head_None. apply Hdup; [by apply plain_ascii in Hpn, Hph |]. eapply up_le; [| by apply (Hsp1 3%nat)]. lia. }
    intros rows t1 s2 He Hs2 _ Hsp2.
    assert (Hup2 : (length name <= 64)%nat -> (length hash <= 384)%nat -> up 4 (srv s) -> up 2 (srv s2)).
    { intros H1 H2 Hu. cbn [stmt_fits] in Hsp2. rewrite !text_plain in Hsp2 by done. apply plain_ascii in Hpn, Hph.
      by apply Hsp2, (Hsp1 3%nat). }
    apply effect_insert_user in He as (Hnone & Huid & Hu & ->); [| done | done].
    set (uid := mysql_insert_id h (srv s2)) in *.
    apply wp_bind. exists uid, s2. split; [done |].
    eapply (wp_or_abandon (-1) p p' h t _ (InsertPath uid [SLASH] None None [SLASH] 1)); [done | done | | | done | |].
    { assert (good_text [SLASH]) by by eexists. split_and!; try done. unfold is_u64, u64_mod. lia. }
    { apply sql_buffer_fits. unfold fits. cbn [sql]. rewrite !length_app. pose proof (length_dec uid).
      pose proof (length_dec 1). generalize dependent (length (dec uid)). generalize dependent (length (dec 1)).
      intros. simpl length. lia. }
    { intros s3 Hs3 Hdup _. right. split_and!; [done | by left |]. intros H1 H2 Hu4.
      exfalso. apply Hdup.
      - by apply root_fits.
      - eapply up_le; [| by apply Hup2]. lia.
      - apply find_node_nil, find_node_None. intros i r Hi Hr. exfalso. simpl in Hi.
        destruct (path_owner _ t Hok i r Hi) as [u' Hu']. congruence. }
    intros rows' t2 s3 He Hs3 _ Hsp3.
    apply effect_insert_path in He as (Hfree' & Hrid & Hr & ->); [| by eexists | by eexists].
    set (rid := mysql_insert_id h (srv s3)) in *. simpl in Hr.
    assert (Hnew : new_user t name uid rid) by (unfold new_user; split_and!; done || lia).
    eapply (wp_commit (-1) 0 p p' h t); [done | exact Hs3 | |].
    + intros s4 Hs4 Hd. right. split_and!; [done | |].
      * destruct Hs4 as [Hs4 | Hs4]; [by left |]. right. exists uid, rid. done.
      * intros H1 H2 Hu4. exfalso. apply (down_up s3 0) in Hd. apply Hd, (Hsp3 (root_fits _ uid Huid) 1%nat). by apply Hup2.
    + intros s4 Hs4 _. left. split; [done |]. exists uid, rid. done.
Qed.

(** ** Removing a file *)

Definition is_insert (st : stmt) : bool :=
  match st with InsertPath _ _ _ _ _ _ | InsertUser _ _ => true | _ => false end.

Lemma spent_down j s0 s : spent j s0 s -> down s -> ~ up (S j) (srv s0).
Proof. intros Hsp Hd Hu. apply Hd, Hsp. by rewrite Nat.add_1_r. Qed.

(** A statement that violates no key, [j] statements after [s0] *)
Lemma wp_statement {A} (a : A) j s0 p p' h t0 t st text k Q s :
  hands_out p h p' -> in_txn p' h t0 t s -> stmt_ok st -> text = sql st -> control st = false ->
  is_insert st = false -> stmt_fits t st -> spent j s0 s ->
  (forall s', settled p t0 s' -> ~ up (S j) (srv s0) -> Q a s') ->
  (forall rows t' s', effect st t rows (mysql_insert_id h (srv s')) t' -> in_txn p' h t0 t' s' ->
     (forall all, selected same_text st t = Some all -> rows = None -> ~ up (S j) (srv s0)) ->
     spent (S j) s0 s' -> wp (k rows) Q s') ->
  wp (or_abandon h text a k) Q s.
Proof.
  intros Hout Hs Hok Ht Hc Hi Hfits Hsp Ha Hk.
  eapply wp_or_abandon; [done | done | done | done | done | |].
  - intros s' Hs' Hdup _. apply Ha; [done |]. eapply spent_down; [done |]. intros Hu.
    specialize (Hdup Hfits Hu). by destruct st.
  - intros rows t' s' He Hs' Hn Hsp'. eapply Hk; [done | done | |].
    + intros all Hall Hnone. eapply spent_down; [done |]. intros Hu. by apply (Hn Hfits Hu all).
    + rewrite <- Nat.add_1_r. eapply spent_trans; [done | auto].
Qed.

Lemma wp_commit_after {A} (a b : A) j s0 p p' h t0 t Q s :
  hands_out p h p' -> in_txn p' h t0 t s -> spent j s0 s ->
  (forall s', settled p t0 s' \/ settled p t s' -> ~ up (S j) (srv s0) -> Q a s') ->
  (forall s', settled p t s' -> spent (S j) s0 s' -> Q b s') ->
  wp (or_abandon h (sql Commit) a (fun _ => release h;; mret b)) Q s.
Proof.
  intros Hout Hs Hsp Ha Hb. eapply wp_commit; [done | done | |].
  - intros s' Hs' Hd. apply Ha; [done |]. by eapply spent_down.
  - intros s' Hs' Hsp'. apply Hb; [done |]. rewrite <- Nat.add_1_r. by eapply spent_trans.
Qed.

Record file_at (t : tables) (uid id : Z) (r : path_row) (fid : Z) (f : file_row) : Prop := {
  fa_row : paths t !! id = Some r;
  fa_user : p_user r = uid;
  fa_type : p_type r = 0;
  fa_file : p_file r = Some fid;
  fa_stored : files t !! fid = Some f
}.

Definition removed (p : database_pool) (t : tables) (uid id : Z) (s' : db)
    (K : file_row -> Prop) : Prop :=
  exists r fid f, file_at t uid id r fid f /\ settled p (rm_tables t id fid f) s' /\ K f.

Lemma rm_tables_intermediate t id fid f :
  let t1 := set_paths t (delete id (paths t)) in
  let t2 := set_files t1 (<[fid := set_refs f (f_refs f - 1)]> (files t1)) in
  rm_tables t id fid f =
  (if f_refs f =? 1 then set_files t2 (delete fid (files t2)) else t2).
Proof. unfold rm_tables. simpl. destruct (f_refs f =? 1); [| done]. by rewrite delete_insert_eq. Qed.

Lemma effect_select st t all rows iid t' :
  selected same_text st t = Some all -> limit_one st = false -> effect st t rows iid t' ->
  (forall l, rows = Some l -> l ≡ₚ all) /\ t' = t.
Proof. unfold effect, answers. intros -> -> He. done. Qed.

Lemma effect_write st t rows iid t' :
  selected same_text st t = None -> is_insert st = false ->
  effect st t rows iid t' -> exists id, written same_text id st t = Some (t', iid).
Proof. unfold effect. intros -> _ (id & _ & Hw). by exists id. Qed.

Lemma rm_file_finish_spec j s0 p p' h t0 t fid f n Q s :
  hands_out p h p' -> in_txn p' h t0 t s -> spent j s0 s -> is_u64 fid ->
  files t !! fid = Some f -> 0 <= f_refs f < 2 ^ 31 ->
  (forall a s', fst a = DAO_DB_ERROR -> ~ up (S (S (S j))) (srv s0) ->
     settled p t0 s' \/ settled p (if f_refs f =? 0 then set_files t (delete fid (files t)) else t) s' -> Q a s') ->
  (forall s', settled p (if f_refs f =? 0 then set_files t (delete fid (files t)) else t) s' ->
     Q (if f_refs f =? 0 then (DAO_SHOULD_DELETE_PHYSICAL, strncpy0 n (f_hash f)) else (DAO_OK, [])) s') ->
  wp (rm_file_finish h fid n) Q s.
Proof.
  intros Hout Hs Hsp Hfid Hf Hrefs Herr Hgood. unfold rm_file_finish.
  assert (Hmono : forall i, (i <= S (S (S j)))%nat -> ~ up i (srv s0) -> ~ up (S (S (S j))) (srv s0)).
  { intros i Hi Hn Hu. apply Hn. by eapply up_le. }
  eapply (wp_statement _ j s0 p p' h t0 t (SelectRefs fid)); [done | done | done | | done | done | done | done | |].
  { by apply sql_buffer_fits, fits_numbers. }
  { intros s' Hs' Hd. apply Herr; [done | | by left]. by eapply Hmono, Hd; lia. }
  intros rows t1 s1 He Hs1 Hnull Hsp1. eapply effect_select in He as [Hl ->]; [| reflexivity | done].
  destruct rows as [l |].
  2:{ apply (wp_abandon _ p p' h t0); [done | apply Hs1 | by eapply in_txn_owned | by eapply in_txn_rolled_back |].
      intros s' Hs' _. apply Herr; [done | | by left]. by eapply Hmono, Hnull; [lia | |]. }
  specialize (Hl l eq_refl). rewrite Hf in Hl. apply Permutation_singleton_r in Hl as ->. do 2 wp_pure.
  rewrite strtol_dec, to_int_small by lia. destruct (Z.eqb_spec (f_refs f) 0) as [E | E].
  - eapply (wp_statement _ (S j) s0 p p' h t0 t (DeleteFile fid)); [done | done | done | | done | done | done | done | |].
    { by apply sql_buffer_fits, fits_numbers. }
    { intros s' Hs' Hd. apply Herr; [done | | by left]. by eapply Hmono, Hd; lia. }
    intros rows t2 s2 He Hs2 _ Hsp2. apply effect_write in He as [id Hw]; [| done | done].
    cbn [written] in Hw. rewrite Hf, E in Hw. injection Hw as <- Hid.
    eapply (wp_commit_after _ _ (S (S j)) s0 p p' h t0); [done | exact Hs2 | done | |].
    + intros s' Hs' Hd. by apply Herr.
    + intros s' Hs' _. by apply Hgood.
  - eapply (wp_commit_after _ _ (S j) s0 p p' h t0); [done | exact Hs1 | done | |].
    + intros s' Hs' Hd. apply Herr; [done | | done]. by eapply Hmono, Hd; lia.
    + intros s' Hs' _. by apply Hgood.
Qed.

Lemma rm_file_spec p t uid id n s :
  free_connection p -> settled p t s -> tables_ok t -> is_u64 uid -> is_u64 id ->
  (forall i f, files t !! i = Some f -> f_refs f < 2 ^ 31) ->
  wp (dao_rm_file uid id n)
     (fun a s' =>
        (a = (DAO_NOT_FOUND, []) /\ settled p t s' /\ forall r fid f, ~ file_at t uid id r fid f) \/
        removed p t uid id s' (fun f =>
          a = if f_refs f =? 1 then (DAO_SHOULD_DELETE_PHYSICAL, strncpy0 n (f_hash f)) else (DAO_OK, [])) \/
        (fst a = DAO_DB_ERROR /\ (settled p t s' \/ removed p t uid id s' (fun _ => True)) /\ ~ up 7 (srv s))) s.
Proof.
  intros Hfree Hs Hok Huid Hid Hbound. unfold dao_rm_file.
  assert (Hmono : forall i, (i <= 7)%nat -> ~ up i (srv s) -> ~ up 7 (srv s)).
  { intros i Hi Hn Hu. apply Hn. by eapply up_le. }
  eapply (wp_transaction (DAO_DB_ERROR, [])); [done | done | | | by intros ? ? Hstart; exact Hstart].
  { intros s' Hs' Hd. right. right. split_and!; [done | by left |]. by apply (Hmono 1%nat); [lia |]. }
  intros h p' s1 Hout Hs1 Hsp1. cbn beta.
  eapply (wp_statement _ 1 s p p' h t t (SelectFileId id uid)); [done | done | done | | done | done | done | done | |].
  { by apply sql_buffer_fits, fits_numbers. }
  { intros s' Hs' Hd. right. right. split_and!; [done | by left |]. by apply (Hmono 2%nat); [lia |]. }
  intros rows t1 s2 He Hs2 Hnull Hsp2. eapply effect_select in He as [Hl ->]; [| reflexivity | done].
  destruct rows as [l |].
  2:{ apply (wp_abandon _ p p' h t); [done | apply Hs2 | by eapply in_txn_owned | by eapply in_txn_rolled_back |].
      intros s' Hs' _. right. right. split_and!; [done | by left |]. by eapply (Hmono 2%nat), Hnull; [lia | |]. }
  specialize (Hl l eq_refl).
  assert (Hno : (forall r fid f, ~ file_at t uid id r fid f) ->
    wp (abandon h (DAO_NOT_FOUND, []))
       (fun a s' => (a = (DAO_NOT_FOUND, []) /\ settled p t s' /\ forall r fid f, ~ file_at t uid id r fid f) \/
        removed p t uid id s' (fun f =>
          a = if f_refs f =? 1 then (DAO_SHOULD_DELETE_PHYSICAL, strncpy0 n (f_hash f)) else (DAO_OK, [])) \/
        (fst a = DAO_DB_ERROR /\ (settled p t s' \/ removed p t uid id s' (fun _ => True)) /\ ~ up 7 (srv s))) s2).
  { intros Hn. apply (wp_abandon _ p p' h t); [done | apply Hs2 | by eapply in_txn_owned | by eapply in_txn_rolled_back |].
    intros s' Hs' _. left. done. }
  destruct (paths t !! id) as [r |] eqn:Hr.
  2:{ apply Permutation_nil_r in Hl as ->. wp_pure. apply Hno. intros r fid f []. congruence. }
  destruct ((p_user r =? uid) && (p_type r =? 0)) eqn:Hmine.
  2:{ apply Permutation_nil_r in Hl as ->. wp_pure. apply Hno. intros r' fid f [H1 H2 H3 _ _].
      assert (r' = r) as -> by congruence. rewrite H2, H3, Z.eqb_refl in Hmine. done. }
  zbool. apply Permutation_singleton_r in Hl as ->.
  destruct (path_type _ t Hok id r Hr) as [(_ & fid & Hfile & f & Hf) | [? _]]; [| congruence].
  assert (Hat : file_at t uid id r fid f) by done. rewrite Hfile. wp_pure.
  destruct (file_refs _ t Hok fid f Hf) as [_ Hpos]. pose proof (Hbound fid f Hf).
  assert (Hfid : is_u64 fid) by (pose proof (file_ids _ t Hok fid f Hf); unfold is_u64, u64_mod; lia).
  rewrite strtoull_dec by done.
  eapply (wp_statement _ 2 s p p' h t t (DeleteFilePath id uid)); [done | done | done | | done | done | done | done | |].
  { by apply sql_buffer_fits, fits_numbers. }
  { intros s' Hs' Hd. right. right. split_and!; [done | by left |]. by apply (Hmono 3%nat); [lia |]. }
  intros rows2 t2 s3 He Hs3 _ Hsp3. apply effect_write in He as [x Hw]; [| done | done].
  cbn [written] in Hw. rewrite Hr, H, Z.eqb_refl, H0 in Hw. injection Hw as <- _.
  eapply (wp_statement _ 3 s p p' h t _ (DecrementRefs fid)); [done | done | done | | done | done | done | done | |].
  { by apply sql_buffer_fits, fits_numbers. }
  { intros s' Hs' Hd. right. right. split_and!; [done | by left |]. by apply (Hmono 4%nat); [lia |]. }
  intros rows4 t3 s4 He Hs4 _ Hsp4. apply effect_write in He as [y Hw]; [| done | done].
  cbn [written files set_paths] in Hw. rewrite Hf, (proj2 (Z.ltb_lt _ _)) in Hw by lia. injection Hw as <- _.
  pose proof (rm_tables_intermediate t id fid f) as Hfin. cbn zeta in Hfin.
  assert (Hone : (f_refs f - 1 =? 0) = (f_refs f =? 1)).
  { destruct (Z.eqb_spec (f_refs f - 1) 0), (Z.eqb_spec (f_refs f) 1); lia. }
  eapply (rm_file_finish_spec 4 s p p' h t _ fid (set_refs f (f_refs f - 1))); [done | exact Hs4 | done | done | | | |].
  - apply lookup_insert_eq.
  - simpl. lia.
  - cbn [set_refs f_refs]. rewrite Hone. intros a s' Ha Hd Hs'. right. right. split_and!; [done | | done].
    destruct Hs' as [Hs' | Hs']; [by left |]. right. exists r, fid, f. split_and!; [done | | done].
    rewrite Hfin. by destruct (f_refs f =? 1).
  - cbn [set_refs f_refs f_hash]. rewrite Hone. intros s' Hs'. right. left. exists r, fid, f.
    rewrite Hfin. split_and!; [done | by destruct (f_refs f =? 1) | done].
Qed.

(** ** Adding a path for a stored file *)

Definition attached (p : database_pool) (t : tables) (uid : Z) (path : list byte) (parent : Z)
    (name : list byte) (s' : db) (K : Z -> file_row -> Prop) : Prop :=
  exists id fid f, 0 < id < 2 ^ 63 /\ paths t !! id = None /\ find_node t uid path = None /\
    referenced t fid f /\ K fid f /\ settled p (attach_tables t id fid f uid path parent name) s'.

Definition long_enough (path name : list byte) : Prop :=
  (length path <= 4095)%nat /\ (length name <= 254)%nat.

(** Values that the columns of [paths] hold, so that a server that is up does not
    refuse the new row. *)
Definition attachable (uid parent : Z) (path name : list byte) : Prop :=
  int_column uid /\ bigint_column parent /\ (length path <= 768)%nat /\ ascii path /\ ascii name.

Lemma escape_into_ok c s : 2 * Z.of_nat (length s) < c -> escape_into c s = Ret (mysql_real_escape_string s).
Proof.
  intros Hl. unfold escape_into. pose proof (escape_length s) as He.
  destruct (Z.leb_spec c (Z.of_nat (length (mysql_real_escape_string s)))); [lia | done].
Qed.

Lemma text_escape s : text_of (mysql_real_escape_string s) = s.
Proof. unfold text_of. by rewrite escape_spec. Qed.

Lemma good_escape s : good_text (mysql_real_escape_string s).
Proof. unfold good_text. rewrite escape_spec. by eexists. Qed.

Lemma fits_attach uid path fid parent name :
  long_enough path name ->
  fits 10240 (InsertPath uid (mysql_real_escape_string path) (Some fid) (Some parent)
                (mysql_real_escape_string name) 0).
Proof.
  intros [Hp Hn]. unfold fits. cbn [sql or_null]. rewrite !length_app.
  pose proof (length_dec uid). pose proof (length_dec fid). pose proof (length_dec parent). pose proof (length_dec 0).
  pose proof (escape_length path). pose proof (escape_length name).
  generalize dependent (length (mysql_real_escape_string path)).
  generalize dependent (length (mysql_real_escape_string name)).
  generalize dependent (length (dec uid)). generalize dependent (length (dec fid)).
  generalize dependent (length (dec parent)). generalize dependent (length (dec 0)). intros. simpl length. lia.
Qed.

(** The end that both functions share: insert the row and commit. *)
Lemma attach_finish_spec (G : Prop) s0 p p' h t fid f uid path parent name K s :
  hands_out p h p' -> in_txn p' h t (set_files t (<[fid := f]> (files t))) s -> (G -> spent 2 s0 s) ->
  is_u64 uid -> is_u64 parent -> bigint_column fid -> long_enough path name -> referenced t fid f -> K fid f ->
  wp (or_abandon h (sql_buffer 10240 (sql (InsertPath uid (mysql_real_escape_string path) (Some fid) (Some parent)
                                            (mysql_real_escape_string name) 0))) (-1)
      (fun _ => or_abandon h (sql Commit) (-1) (fun _ => release h;; mret 0)))
     (fun a s' =>
        (a = 0 /\ attached p t uid path parent name s' K) \/
        (a = -1 /\ (settled p t s' \/ attached p t uid path parent name s' K) /\
         (attachable uid parent path name -> G -> up 4 (srv s0) -> find_node t uid path <> None))) s.
Proof.
  intros Hout Hs Hsp Huid Hpar Hfid Hlen Href HK.
  assert (Hfits : attachable uid parent path name -> forall t', stmt_fits t'
    (InsertPath uid (mysql_real_escape_string path) (Some fid) (Some parent) (mysql_real_escape_string name) 0)).
  { intros (H1 & H2 & H3 & H4 & H5) t'. cbn [stmt_fits]. rewrite !text_escape. destruct Hlen.
    split_and!; try done; try lia; by intros z [= <-]. }
  assert (Hfid' : is_u64 fid) by (unfold bigint_column, is_u64, u64_mod in *; lia).
  eapply (wp_or_abandon (-1) p p' h t); [done | exact Hs | | by apply sql_buffer_fits, fits_attach | done | |].
  { split_and!; try done; try apply good_escape; by intros z [= <-]. }
  - intros s' Hs' Hdup _. right. split_and!; [done | by left |]. intros Hl HG Hu.
    rewrite find_node_nil. cbn [duplicate_key] in Hdup. rewrite text_escape in Hdup. apply Hdup.
    + by apply Hfits.
    + eapply up_le; [| by apply (Hsp HG 2%nat)]. lia.
  - intros rows t' s' He Hs' _ Hsp'. apply effect_insert_path in He as (Hnone & Hi & Hn & ->); try apply good_escape.
    rewrite !text_escape in *. simpl in Hn.
    eapply (wp_commit (-1) 0 p p' h t); [done | exact Hs' | |].
    + intros s2 Hs2 Hd. right. split_and!; [done | |].
      * destruct Hs2 as [Hs2 | Hs2]; [by left |]. right. by eexists _, fid, f.
      * intros Hl HG Hu. exfalso. apply Hd, Hsp'; [by apply Hfits | by apply (Hsp HG 2%nat)].
    + intros s2 Hs2 _. left. split; [done |]. by eexists _, fid, f.
Qed.

Lemma link_existing_spec p t uid path parent name fid f s :
  free_connection p -> settled p t s -> tables_ok t -> is_u64 uid -> is_u64 parent -> long_enough path name ->
  files t !! fid = Some f ->
  wp (dao_link_existing_file uid path parent name fid)
     (fun a s' =>
        (a = 0 /\ attached p t uid path parent name s' (fun i g => i = fid /\ g = set_refs f (f_refs f + 1))) \/
        (a = -1 /\ (settled p t s' \/
            attached p t uid path parent name s' (fun i g => i = fid /\ g = set_refs f (f_refs f + 1))) /\
         (attachable uid parent path name -> countable f -> up 4 (srv s) -> find_node t uid path <> None))) s.
Proof.
  intros Hfree Hs Hok Huid Hpar Hlen Hf. unfold dao_link_existing_file. destruct Hlen as [Hlp Hln].
  rewrite !escape_into_ok by (unfold PATH_MAX, NAME_MAX; lia).
  assert (Hfid : is_u64 fid) by (pose proof (file_ids _ t Hok fid f Hf); unfold is_u64, u64_mod; lia).
  eapply (wp_transaction (-1)); [done | done | | |].
  3:{ intros h s1 Hq. do 2 (apply wp_bind; eapply wp_lift; [reflexivity |]). exact Hq. }
  { intros s' Hs' Hd. right. split_and!; [done | by left |]. intros _ _ Hu. by apply (down_up s 3) in Hd. }
  intros h p' s1 Hout Hs1 Hsp1. cbn beta.
  assert (Hfits : countable f -> stmt_fits t (IncrementRefs fid)).
  { intros Hc. cbn [stmt_fits]. intros f' Hf'. by assert (f' = f) as -> by congruence. }
  eapply (wp_or_abandon _ p p' h t t (IncrementRefs fid)); [done | done | done | | done | |].
  { by apply sql_buffer_fits, fits_numbers. }
  { intros s' Hs' Hd _. right. split_and!; [done | by left |]. intros _ Hc Hu. exfalso.
    apply (Hd (Hfits Hc)). eapply up_le; [| by apply (Hsp1 3%nat)]. lia. }
  intros rows t1 s2 He Hs2 _ Hsp2. apply effect_write in He as [x Hw]; [| done | done].
  cbn [written] in Hw. rewrite Hf in Hw. injection Hw as <- _.
  eapply attach_finish_spec; [done | exact Hs2 | | done | done | | done | | done].
  - intros Hc. eapply (spent_trans 1 1); [done | by auto].
  - pose proof (file_ids _ t Hok fid f Hf). unfold bigint_column. lia.
  - left. by exists f.
Qed.

Lemma hash_is_unique t hex : tables_ok t ->
  forall i j a b, files t !! i = Some a -> files t !! j = Some b ->
  hash_is hex a = true -> hash_is hex b = true -> i = j.
Proof.
  intros Hok i j a b Hi Hj Ha Hb. unfold hash_is in *. zbool. eapply (files_unique _ t Hok); [done | done |]. congruence.
Qed.

(** What the upsert leaves: the file with one more reference, or a new one. *)
Lemma effect_upsert t hex size rows iid t' :
  tables_ok t -> sha_text hex -> effect (UpsertFile hex size) t rows iid t' ->
  exists f, t' = set_files t (<[iid := f]> (files t)) /\ referenced t iid f /\ 0 < iid < 2 ^ 63 /\
    f_hash f = map tolower hex /\ (files t !! iid = None -> f_size f = size).
Proof.
  intros Hok Hh. unfold effect. cbn [selected]. intros (id & Hfresh & Hw). cbn [written] in Hw.
  rewrite !text_sha in Hw by done. destruct (files_where (hash_is hex) t) as [| [fid f] l] eqn:E.
  - injection Hw as <- <-. destruct Hfresh as (Hid & Hn). eexists. split_and!; [done | | lia | lia | done | done].
    right. split_and!; [done | lia | lia | done |]. intros i f0 Hf0 Heq.
    pose proof (proj1 (where_none (hash_is hex) (files t)) E i f0 Hf0) as Hno.
    unfold hash_is in Hno. zbool. done.
  - injection Hw as <- <-.
    assert (Hin : (fid, f) ∈ files_where (hash_is hex) t) by (rewrite E; left).
    apply (elem_of_where (hash_is hex)) in Hin as [Hf Heq]. unfold hash_is in Heq. zbool.
    exists (set_refs f (f_refs f + 1)). pose proof (file_ids _ t Hok fid f Hf).
    split_and!; [done | left; by exists f | lia | lia | done | congruence].
Qed.

(** The size fits its column, and so does one more reference to the file. *)
Definition storable (t : tables) (hex : list byte) (size : Z) : Prop :=
  bigint_column size /\ forall i f, files t !! i = Some f -> f_hash f = map tolower hex -> countable f.

Lemma create_file_spec p t uid path parent name hex size s :
  free_connection p -> settled p t s -> tables_ok t -> is_u64 uid -> is_u64 parent -> is_u64 size ->
  long_enough path name -> sha_text hex ->
  wp (dao_create_file_with_path uid path parent name hex size)
     (fun a s' =>
        (a = 0 /\ attached p t uid path parent name s' (fun i g => f_hash g = map tolower hex /\
            (files t !! i = None -> f_size g = size))) \/
        (a = -1 /\ (settled p t s' \/
            attached p t uid path parent name s' (fun i g => f_hash g = map tolower hex /\
              (files t !! i = None -> f_size g = size))) /\
         (attachable uid parent path name -> storable t hex size -> up 4 (srv s) -> find_node t uid path <> None))) s.
Proof.
  intros Hfree Hs Hok Huid Hpar Hsize Hlen Hhex. unfold dao_create_file_with_path.
  rewrite !escape_into_ok by (destruct Hlen; unfold PATH_MAX, NAME_MAX; lia).
  eapply (wp_transaction (-1)); [done | done | | |].
  3:{ intros h s1 Hq. do 2 (apply wp_bind; eapply wp_lift; [reflexivity |]). exact Hq. }
  { intros s' Hs' Hd. right. split_and!; [done | by left |]. intros _ _ Hu. by apply (down_up s 3) in Hd. }
  intros h p' s1 Hout Hs1 Hsp1. cbn beta.
  assert (Hfits : storable t hex size -> stmt_fits t (UpsertFile hex size)).
  { intros [Hc Hr]. split; [done |]. intros i f Hi Hh. rewrite text_sha in Hh by done. unfold hash_is in Hh.
    apply bool_decide_eq_true in Hh. by eapply Hr. }
  eapply (wp_or_abandon _ p p' h t t (UpsertFile hex size)); [done | done | done | | done | |].
  { apply sql_buffer_fits. unfold fits. cbn [sql]. rewrite !length_app. pose proof (length_dec size).
    destruct Hhex as [Hlh _]. generalize dependent (length (dec size)). generalize dependent (length hex).
    intros. simpl length. lia. }
  { intros s' Hs' Hd _. right. split_and!; [done | by left |]. intros _ Hc Hu. exfalso. apply (Hd (Hfits Hc)).
    eapply up_le; [| by apply (Hsp1 3%nat)]. lia. }
  intros rows t1 s2 He Hs2 _ Hsp2. apply effect_upsert in He as (f & -> & Href & Hid & Hhash & Hsz); [| done | done].
  set (fid := mysql_insert_id h (srv s2)) in *. apply wp_bind. exists fid, s2. split; [done |].
  destruct (Z.eqb_spec fid 0); [lia |].
  eapply attach_finish_spec; [done | exact Hs2 | | done | done | | done | done | done].
  - intros Hc. eapply (spent_trans 1 1); [done | by auto].
  - unfold bigint_column. lia.
Qed.

(** ** Files by hash and by path *)

Lemma find_by_hash_spec p t hex size s :
  free_connection p -> settled p t s -> tables_ok t -> sha_text hex -> is_u64 size ->
  wp (dao_file_find_by_hash hex size)
     (fun a s' => settled p t s' /\
        ((a = (0, None) /\ spent 1 s s' /\
            forall i f, files t !! i = Some f -> ~ (f_hash f = map tolower hex /\ f_size f = size)) \/
         (spent 1 s s' /\ exists i f, a = (1, Some i) /\ files t !! i = Some f /\
            f_hash f = map tolower hex /\ f_size f = size) \/
         (a = (-1, None) /\ down s))) s.
Proof.
  intros Hfree Hs Hok Hhex Hsize. unfold dao_file_find_by_hash. apply wp_bind.
  set (P := fun f => hash_is hex f && (f_size f =? size)).
  assert (HP : forall f, P f = true <-> f_hash f = map tolower hex /\ f_size f = size).
  { intros f. unfold P, hash_is. rewrite andb_true_iff, Z.eqb_eq. by rewrite bool_decide_eq_true. }
  eapply wp_pool_query; [done | done | done | | done | done | |].
  - unfold fits. cbn [sql]. rewrite !length_app. pose proof (length_dec size). destruct Hhex as [Hlen _].
    generalize dependent (length (dec size)). generalize dependent (length hex). intros. simpl length. lia.
  - intros s' Hs' Hd. apply wp_ret. auto.
  - intros l s' Ha Hs' Hsp. unfold answers in Ha. cbn [limit_one] in Ha. rewrite text_sha in Ha by done.
    fold P in Ha. destruct (files_where P t) as [| [i f] fl] eqn:E; cbn [map] in Ha.
    + subst l. wp_pure. apply wp_ret. split; [done |]. left. split_and!; [done | done |].
      intros i f Hi Hf. apply HP in Hf. by rewrite (proj1 (where_none P (files t)) E i f Hi) in Hf.
    + destruct Ha as (x & Hx & ->).
      rewrite <- (map_cons (fun ir : Z * file_row => [num (fst ir)])) in Hx.
      apply list_elem_of_fmap in Hx as ([j g] & -> & Hx). rewrite <- E in Hx.
      apply (elem_of_where P) in Hx as [Hj Hg]. do 3 wp_pure.
      rewrite strtoull_dec by (pose proof (file_ids _ t Hok j g Hj); unfold is_u64, u64_mod; lia).
      apply wp_ret. split; [done |]. right. left. split; [done |]. exists j, g. apply HP in Hg. done.
Qed.

(** The rows of the join for a path *)
Lemma selected_meta t uid path : tables_ok t -> plain path ->
  selected same_text (SelectMeta uid path) t = Some (
    match find_node t uid path with
    | None => []
    | Some (id, r) =>
        let f := p_file r ≫= fun i => files t !! i in
        [[num id; p_file r ≫= num; Some (p_name r); num (p_type r); f ≫= (fun f => num (f_size f)); f_hash <$> f]]
    end).
Proof.
  intros Hok Hp. cbn [selected]. rewrite text_plain, (find_node_where _ same_text_equiv) by done.
  by destruct (find_node t uid path) as [[id r] |].
Qed.

Lemma fits_meta uid path : (length path <= 768)%nat -> fits 1024 (SelectMeta uid path).
Proof.
  intros Hl. unfold fits. cbn [sql]. rewrite !length_app. pose proof (length_dec uid).
  generalize dependent (length (dec uid)). generalize dependent (length path). intros. simpl length. lia.
Qed.

(** The metadata of a stored file.  The last byte of the hash array is left as
    it was. *)
Definition meta_of (m0 : file_meta) (id : Z) (r : path_row) (fid : Z) (f : file_row) : file_meta :=
  {| fm_path_id := id; fm_file_id := fid; fm_file_name := strncpy0 NAME_MAX (p_name r); fm_size := f_size f;
     fm_sha256_hex := take 64 (f_hash f ++ replicate 64 NUL) ++ drop 64 (fm_sha256_hex m0) |}.

Lemma get_file_meta_spec p t uid path m0 s :
  free_connection p -> settled p t s -> tables_ok t -> is_u64 uid -> plain path -> (length path <= 768)%nat ->
  (forall i f, files t !! i = Some f -> is_u64 (f_size f)) ->
  (forall id r, find_node t uid path = Some (id, r) -> p_type r = 0) ->
  wp (dao_get_file_meta uid path m0)
     (fun a s' => settled p t s' /\
        ((a = (DAO_DB_ERROR, m0) /\ down s) \/
         (a = (DAO_NOT_FOUND, m0) /\ find_node t uid path = None) \/
         (exists id r fid f, find_node t uid path = Some (id, r) /\ file_at t uid id r fid f /\
            a = (DAO_OK, meta_of m0 id r fid f)))) s.
Proof.
  intros Hfree Hs Hok Huid Hp Hlen Hsizes Hfile. unfold dao_get_file_meta. apply wp_bind.
  eapply wp_pool_query; [done | done | by split; [| apply good_plain] | by apply fits_meta | by apply selected_meta | by apply ascii_plain | |].
  - intros s' Hs' Hd. apply wp_ret. auto.
  - intros l s' Ha Hs' _. unfold answers in Ha. cbn [limit_one] in Ha.
    destruct (find_node t uid path) as [[id r] |] eqn:E.
    + specialize (Hfile id r eq_refl). apply (find_node_Some _ same_text_equiv) in E as (Hr & Hu & _); [| done].
      destruct (path_type _ t Hok id r Hr) as [(_ & fid & Hf & f & Hff) | [? _]]; [| congruence].
      cbn zeta in Ha. rewrite Hf in Ha. cbn [mbind option_bind] in Ha. rewrite Hff, Hfile in Ha.
      destruct Ha as (x & Hx & ->). apply list_elem_of_singleton in Hx as ->.
      apply wp_bind. eapply wp_lift; [reflexivity |]. cbn [length Z.of_nat Z.eqb].
      apply wp_bind. eapply wp_lift; [reflexivity |]. cbn [head].
      do 6 (apply wp_bind; eapply wp_lift; [reflexivity |]).
      pose proof (path_ids _ t Hok id r Hr). pose proof (file_ids _ t Hok fid f Hff). pose proof (Hsizes fid f Hff).
      rewrite !strtoull_dec, strtol_dec, to_int_small by (unfold is_u64, u64_mod in *; lia).
      apply wp_ret. split; [done |]. right. right. exists id, r, fid, f. split_and!; [done | done | done].
    + subst l. wp_pure. apply wp_ret. auto.
Qed.

(** The tables after an operation, with the connection back in the pool and no
    transaction left open. *)
Definition ends (p : database_pool) (s' : db) (K : tables -> Prop) : Prop :=
  exists t', settled p t' s' /\ tables_ok t' /\ K t'.

End statements.

(** ** Properties *)

Section properties.
Context {M : MySQL} {Spec : MySQLSpec M} {Stored : MySQLStored M Spec} {Up : MySQLUp M Spec}.

(** The numbers of a directory and of its owner fit their columns. *)
Lemma dir_ranges t uid id : tables_ok same_text t -> is_dir t uid id ->
  is_u64 uid /\ int_column uid /\ is_u64 id /\ bigint_column id.
Proof.
  intros Hok (r & Hr & Hu & _). pose proof (path_ids _ t Hok _ _ Hr).
  destruct (path_owner _ t Hok id r Hr) as [u Hus]. rewrite Hu in Hus. pose proof (user_ids _ t Hok _ _ Hus).
  unfold is_u64, u64_mod, int_column, bigint_column. lia.
Qed.

(** (C12) [dao_rm_file] is atomic and keeps the reference counts exact.  On any
    database that satisfies the invariant it returns, gives its connection back
    and leaves no transaction open; the invariant (each stored file counts the
    paths that refer to it, and at least one does) holds again.  A file of the
    user is removed, and its storage reported for deletion exactly when that was
    the last reference; anything else is NOT_FOUND with nothing changed; an error
    means that nothing or everything was done, and never happens while the
    server stays up. *)
Theorem dao_rm_file_atomic p t uid id n s :
  free_connection p -> settled p t s -> tables_ok same_text t -> is_u64 uid -> is_u64 id ->
  (forall i f, files t !! i = Some f -> f_refs f < 2 ^ 31) ->
  exists a s', dao_rm_file uid id n s = Ret (a, s') /\ ends p s' (fun t' =>
    match fst a with
    | DAO_OK => exists r fid f, file_at t uid id r fid f /\ 1 < f_refs f /\ t' = rm_tables t id fid f
    | DAO_SHOULD_DELETE_PHYSICAL =>
        exists r fid f, file_at t uid id r fid f /\ f_refs f = 1 /\ t' = rm_tables t id fid f /\
          files t' !! fid = None /\ snd a = strncpy0 n (f_hash f)
    | DAO_NOT_FOUND => t' = t /\ forall r fid f, ~ file_at t uid id r fid f
    | DAO_DB_ERROR => ~ up 7 (srv s) /\
        (t' = t \/ exists r fid f, file_at t uid id r fid f /\ t' = rm_tables t id fid f)
    | _ => False
    end).
Proof.
  intros Hfree Hs Hok Huid Hid Hb.
  assert (Hrm : forall r fid f, file_at t uid id r fid f -> tables_ok same_text (rm_tables t id fid f)).
  { intros r fid f []. by eapply (tables_ok_rm _ same_text_equiv). }
  destruct (rm_file_spec p t uid id n s Hfree Hs Hok Huid Hid Hb) as (a & s' & Hret & Hpost).
  exists a, s'. split; [done |].
  destruct Hpost as [(-> & Hs' & Hno) | [(r & fid & f & Hat & Hs' & ->) | (Herr & Hcase & Hup)]].
  - by exists t.
  - exists (rm_tables t id fid f). split_and!; [done | by eapply Hrm |].
    destruct (file_refs _ t Hok fid f (fa_stored _ _ _ _ _ _ Hat)) as [_ Hpos].
    destruct (Z.eqb_spec (f_refs f) 1) as [E | E]; simpl.
    + exists r, fid, f. split_and!; [done | done | done | | done]. rewrite (proj2 (Z.eqb_eq _ _) E).
      apply lookup_delete_eq.
    + exists r, fid, f. split_and!; [done | lia | done].
  - destruct a as [st h]. simpl in Herr. subst st. destruct Hcase as [Hs' | (r & fid & f & Hat & Hs' & _)].
    + exists t. split_and!; [done | done |]. simpl. auto.
    + exists (rm_tables t id fid f). split_and!; [done | by eapply Hrm |]. simpl. split; [done |]. right. eauto.
Qed.

(** [dao_auth_register] is atomic: it returns with its connection given back
    and no transaction open, and the invariant of the tables (unique names, one
    root directory per user, ...) holds again.  0 means that the name was free
    and that the user exists with the given password hash and a root directory;
    -1 means that nothing or all of this was done, and with a server that stays
    up and columns that hold the texts it means that the name was taken. *)
Theorem dao_auth_register_atomic p t name hash s :
  free_connection p -> settled p t s -> tables_ok same_text t -> plain name -> plain hash ->
  (length name <= 400)%nat -> (length hash <= 400)%nat ->
  exists a s', dao_auth_register name hash s = Ret (a, s') /\ ends p s' (fun t' =>
    (a = 0 \/ a = -1) /\
    (t' <> t -> exists uid rid, new_user t name uid rid /\ t' = register_tables t uid rid name hash) /\
    (a = 0 -> t' <> t) /\
    (a = -1 -> (length name <= 64)%nat -> (length hash <= 384)%nat -> up 4 (srv s) -> find_user t name <> None)).
Proof.
  intros Hfree Hs Hok Hpn Hph Hln Hlh.
  assert (Hreg : forall uid rid, new_user t name uid rid ->
    tables_ok same_text (register_tables t uid rid name hash) /\ register_tables t uid rid name hash <> t).
  { intros uid rid (Hnone & H1 & H2 & H3 & H4). split.
    - apply (tables_ok_register _ same_text_equiv); try done. by apply find_user_None.
    - intros Heq. assert (Hu : users (register_tables t uid rid name hash) !! uid = None) by by rewrite Heq.
      simpl in Hu. by rewrite lookup_insert_eq in Hu. }
  destruct (register_spec p t name hash s Hfree Hs Hok Hpn Hph Hln Hlh) as (a & s' & Hret & Hpost).
  exists a, s'. split; [done |].
  destruct Hpost as [(-> & uid & rid & Hnew & Hs') | (-> & Hcase & Hup)].
  - destruct (Hreg _ _ Hnew) as [Hok' Hne]. eexists. split_and!; [done | done | by left | by eauto | done | done].
  - destruct Hcase as [Hs' | (uid & rid & Hnew & Hs')].
    + exists t. split_and!; [done | done | by right | done | done | done].
    + destruct (Hreg _ _ Hnew) as [Hok' Hne]. eexists. split_and!; [done | done | by right | by eauto | done | done].
Qed.

(** (C26) [dao_create_file_with_path] is atomic and deduplicates: it returns with
    its connection given back and no transaction open, and the invariant holds
    again.  0 means that the path was free and now refers to a stored file with
    the given hash, which is the existing one with one more reference if there
    was one, and otherwise a new one with the given size; -1 means that nothing
    or all of this was done.  With a server that stays up, a path and a name that
    their columns hold, and a size and a reference count in range, -1 means that
    the path was taken.  The path and the name may be any bytes: they are
    escaped, and the statement always fits its buffer.  The hash is 64
    hexadecimal digits, as [handle_puts] checks. *)
Theorem dao_create_file_atomic p t uid path parent name hex size s :
  free_connection p -> settled p t s -> tables_ok same_text t -> is_u64 size ->
  is_dir t uid parent -> long_enough path name -> sha_text hex ->
  exists a s', dao_create_file_with_path uid path parent name hex size s = Ret (a, s') /\ ends p s' (fun t' =>
    (a = 0 \/ a = -1) /\
    (t' <> t -> find_node same_text t uid path = None /\ exists id fid f,
       t' = attach_tables t id fid f uid path parent name /\ f_hash f = map tolower hex /\
       (files t !! fid = None -> f_size f = size) /\
       (forall i g, files t !! i = Some g -> f_hash g = map tolower hex -> i = fid /\ f = set_refs g (f_refs g + 1))) /\
    (a = 0 -> t' <> t) /\
    (a = -1 -> (length path <= 768)%nat -> ascii path -> ascii name -> storable t hex size -> up 4 (srv s) ->
     find_node same_text t uid path <> None)).
Proof.
  intros Hfree Hs Hok Hsize Hdir Hlen Hhex. destruct (dir_ranges t uid parent Hok Hdir) as (Hu & Hu' & Hpar & Hpar').
  assert (Hatt : forall s', attached p t uid path parent name s' (fun i g => f_hash g = map tolower hex /\
            (files t !! i = None -> f_size g = size)) ->
    ends p s' (fun t' => t' <> t /\ find_node same_text t uid path = None /\ exists id fid f,
       t' = attach_tables t id fid f uid path parent name /\ f_hash f = map tolower hex /\
       (files t !! fid = None -> f_size f = size) /\
       (forall i g, files t !! i = Some g -> f_hash g = map tolower hex -> i = fid /\ f = set_refs g (f_refs g + 1)))).
  { intros s' (id & fid & f & Hid & Hnew & Hnone & Href & (Hh & Hsz) & Hs').
    exists (attach_tables t id fid f uid path parent name).
    split_and!; [done | by apply (tables_ok_attach _ same_text_equiv) | | done |].
    - intros Heq. assert (Hp : paths (attach_tables t id fid f uid path parent name) !! id = None) by by rewrite Heq.
      simpl in Hp. by rewrite lookup_insert_eq in Hp.
    - exists id, fid, f. split_and!; [done | done | done |]. intros i g Hi Hg.
      destruct Href as [(f0 & Hf0 & ->) | (_ & _ & _ & Hno)]; [| exfalso; eapply Hno; [done | congruence]].
      assert (i = fid) as -> by (eapply (files_unique _ t Hok); [done | done | simpl in Hh; congruence]).
      split; [done |]. congruence. }
  destruct (create_file_spec p t uid path parent name hex size s Hfree Hs Hok Hu Hpar Hsize Hlen Hhex)
    as (a & s' & Hret & Hpost). exists a, s'. split; [done |].
  assert (Hatb : (length path <= 768)%nat -> ascii path -> ascii name -> attachable uid parent path name) by done.
  destruct Hpost as [(-> & Ha) | (-> & [Hs' | Ha] & Hup)].
  - destruct (Hatt s' Ha) as (t' & Hst & Hok' & Hne & Hrest). exists t'. split_and!; [done | done | by left | done | done | done].
  - exists t. split_and!; [done | done | by right | done | done | by auto].
  - destruct (Hatt s' Ha) as (t' & Hst & Hok' & Hne & Hrest). exists t'.
    split_and!; [done | done | by right | done | done | by auto].
Qed.

(** A lookup reads through a NULL result set: [database_pool_query] reports
    success whatever [mysql_store_result] returned, and [dao_path_get_node_id]
    passes the pointer to [mysql_num_rows]. *)
Theorem null_result_undefined uid path h p p' srv' s :
  database_pool_acquire (pool s) = Ret (Some h, p) -> database_pool_release p (Some h) = Ret p' ->
  mysql_query h (sql_buffer 1024 (sql (SelectNode uid path))) (srv s) = (QOk None, srv') ->
  dao_path_get_node_id uid path s = Undef.
Proof.
  intros Ha Hr Hq. unfold dao_path_get_node_id, database_pool_query, acquire, query, release, mbind, dbm_bind.
  cbn [mbind outcome_bind]. rewrite Ha. cbn [mbind outcome_bind fst snd pool srv].
  rewrite Hq. cbn [mbind outcome_bind fst snd pool srv]. rewrite Hr. reflexivity.
Qed.

(** Asking for the metadata of a directory is undefined behaviour:
    [dao_get_file_meta] reads the NULL columns [file_id], [size] and [hash_hex]
    of the LEFT JOIN before it looks at the type of the path. *)
Theorem dao_get_file_meta_directory_undefined p t uid path m0 id r s :
  free_connection p -> settled p t s -> tables_ok same_text t -> is_u64 uid -> plain path -> (length path <= 768)%nat ->
  find_node same_text t uid path = Some (id, r) -> p_type r = 1 -> up 1 (srv s) ->
  dao_get_file_meta uid path m0 s = Undef.
Proof.
  intros Hfree Hs Hok Huid Hp Hlen Hfind Hty Hup.
  assert (Hq : wp (database_pool_query (sql_buffer 1024 (sql (SelectMeta uid path))))
    (fun a _ => exists c0, a = Some (Some [c0 :: None :: [Some (p_name r); num 1; None; None]])) s).
  { eapply wp_pool_query; [done | done | by split; [| apply good_plain] | by apply fits_meta | by apply selected_meta | by apply ascii_plain | |].
    - intros s' _ Hd. by destruct Hd.
    - intros l s' Ha _ _. unfold answers in Ha. cbn [limit_one] in Ha. rewrite Hfind in Ha.
      apply (find_node_Some same_text same_text_equiv) in Hfind as (Hr & _); [| done].
      destruct (path_type _ t Hok id r Hr) as [[? _] | [_ Hf]]; [congruence |].
      cbn zeta in Ha. rewrite Hf, Hty in Ha. destruct Ha as (x & Hx & ->).
      apply list_elem_of_singleton in Hx as ->. by eexists. }
  destruct Hq as (a & s' & Hq & c0 & ->). unfold dao_get_file_meta, mbind, dbm_bind.
  rewrite Hq. cbn -[strtoull]. by destruct c0.
Qed.

End properties.

(** ** Witnesses

    Alice (user 1, root directory 2) has the directory [/docs] (3) with the file
    [/docs/a.txt] (5), stored once as file 4. *)

Definition demo_hex : list byte := concat (replicate 32 (lit "ab")).
Definition demo_file : file_row := {| f_hash := demo_hex; f_size := 10; f_refs := 1 |}.
Definition demo_tables0 : tables := {| users := ∅; files := ∅; paths := ∅ |}.
Definition demo_tables1 : tables := register_tables demo_tables0 1 2 (lit "alice") (lit "$6$salt$digest").
Definition demo_tables2 : tables := mkdir_tables demo_tables1 3 1 (lit "/docs") 2 (lit "docs").
Definition demo_tables3 : tables :=
  attach_tables demo_tables2 5 4 demo_file 1 (lit "/docs/a.txt") 3 (lit "a.txt").

Definition demo_pool : database_pool :=
  {| DatabasePool.connections := [Some 70; Some 71]; pool_size := 2; available := 2 |}.
Definition demo_state (t : tables) : @db demo_mysql :=
  {| pool := demo_pool; srv := {| demo_db := {| now := t; txn := None |}; demo_next := 100; demo_last := 0 |} |}.

(** The value that a computation returns, for evaluation *)
Definition value {A S} (o : outcome (A * S)) : option A :=
  match o with Ret (a, _) => Some a | _ => None end.

Lemma demo_tables1_ok : tables_ok strcaseeq demo_tables1.
Proof.
  apply tables_ok_register; [exact strcaseeq_equiv | apply tables_ok_empty | lia | done | | lia | done].
  intros (i & u & Hi & _). done.
Qed.

Lemma demo_tables2_ok : tables_ok strcaseeq demo_tables2.
Proof.
  apply tables_ok_mkdir; [exact strcaseeq_equiv | exact demo_tables1_ok | lia | done | by vm_compute |].
  by eexists.
Qed.

Lemma demo_tables3_ok : tables_ok strcaseeq demo_tables3.
Proof.
  apply tables_ok_attach; [exact strcaseeq_equiv | exact demo_tables2_ok | lia | done | by vm_compute | by eexists |].
  right. split_and!; [done | lia | lia | done |]. intros i f Hi. done.
Qed.

Lemma demo_free : free_connection demo_pool.
Proof. split; [simpl; lia | by exists 71]. Qed.

Lemma demo_settled t : settled demo_pool t (demo_state t).
Proof. done. Qed.

Lemma demo_state_up t n : below t 100 -> Z.of_nat n < 1000 -> up n (srv (demo_state t)).
Proof. intros Hb Hn. split_and!; simpl; [lia | lia | done | done]. Qed.

Lemma below_empty c : below demo_tables0 c.
Proof. intros id _. split_and!; apply lookup_empty. Qed.

Lemma demo_tables1_below : below demo_tables1 100.
Proof. intros id Hid. cbn. rewrite !lookup_insert_ne by lia. done. Qed.
Lemma demo_tables3_below : below demo_tables3 100.
Proof. intros id Hid. cbn. rewrite !lookup_insert_ne by lia. done. Qed.

Lemma dao_rm_file_atomic_witness :
  file_at demo_tables3 1 5 (file_path_row 1 (lit "/docs/a.txt") 4 3 (lit "a.txt")) 4 demo_file /\
  exists a s', dao_rm_file 1 5 255 (demo_state demo_tables3) = Ret (a, s') /\ fst a = DAO_SHOULD_DELETE_PHYSICAL /\
    exists t', settled demo_pool t' s' /\ tables_ok strcaseeq t'.
Proof.
  split; [done |].
  destruct (dao_rm_file_atomic demo_pool demo_tables3 1 5 255 (demo_state demo_tables3)) as (a & s' & Hret & t' & Hs' & Hok & _).
  - exact demo_free.
  - apply demo_settled.
  - exact demo_tables3_ok.
  - by vm_compute.
  - by vm_compute.
  - intros i f Hf. cbn in Hf. apply lookup_insert_Some in Hf as [[<- <-] | [_ Hf]]; [by vm_compute | done].
  - exists a, s'. split; [exact Hret |]. split; [| exists t'; split; [exact Hs' | exact Hok]].
    apply (f_equal value) in Hret.
    assert (Hv : value (dao_rm_file 1 5 255 (demo_state demo_tables3)) = Some (DAO_SHOULD_DELETE_PHYSICAL, demo_hex)) by (vm_compute; reflexivity).
    rewrite Hv in Hret. by injection Hret as <-.
Defined.

Lemma dao_auth_register_atomic_witness :
  exists a s', dao_auth_register (lit "bob") (lit "hash") (demo_state demo_tables1) = Ret (a, s') /\ a = 0 /\
    exists t', settled demo_pool t' s' /\ tables_ok strcaseeq t'.
Proof.
  destruct (dao_auth_register_atomic demo_pool demo_tables1 (lit "bob") (lit "hash") (demo_state demo_tables1))
    as (a & s' & Hret & t' & Hs' & Hok & _).
  - exact demo_free.
  - apply demo_settled.
  - exact demo_tables1_ok.
  - apply (bool_decide_unpack _). vm_compute. exact I.
  - apply (bool_decide_unpack _). vm_compute. exact I.
  - vm_compute. lia.
  - vm_compute. lia.
  - exists a, s'. split; [exact Hret |]. split; [| exists t'; split; [exact Hs' | exact Hok]].
    apply (f_equal value) in Hret.
    assert (Hv : value (dao_auth_register (lit "bob") (lit "hash") (demo_state demo_tables1)) = Some 0) by (vm_compute; reflexivity).
    rewrite Hv in Hret. by injection Hret as <-.
Defined.

Lemma dao_create_file_atomic_witness :
  exists a s', dao_create_file_with_path 1 (lit "/docs/it's") 3 (lit "it's") demo_hex 10 (demo_state demo_tables3) =
      Ret (a, s') /\ a = 0 /\ exists t', settled demo_pool t' s' /\ tables_ok strcaseeq t'.
Proof.
  destruct (dao_create_file_atomic demo_pool demo_tables3 1 (lit "/docs/it's") 3 (lit "it's") demo_hex 10
              (demo_state demo_tables3)) as (a & s' & Hret & t' & Hs' & Hok & _).
  - exact demo_free.
  - apply demo_settled.
  - exact demo_tables3_ok.
  - by vm_compute.
  - by eexists.
  - split; vm_compute; lia.
  - apply (bool_decide_unpack _). vm_compute. exact I.
  - exists a, s'. split; [exact Hret |]. split; [| exists t'; split; [exact Hs' | exact Hok]].
    apply (f_equal value) in Hret.
    assert (Hv : value (dao_create_file_with_path 1 (lit "/docs/it's") 3 (lit "it's") demo_hex 10 (demo_state demo_tables3)) = Some 0) by (vm_compute; reflexivity).
    rewrite Hv in Hret. by injection Hret as <-.
Defined.

Lemma dao_get_file_meta_directory_undefined_witness :
  dao_get_file_meta 1 (lit "/docs")
    {| fm_path_id := 0; fm_file_id := 0; fm_file_name := []; fm_size := 0; fm_sha256_hex := [] |}
    (demo_state demo_tables3) = Undef.
Proof.
  apply (dao_get_file_meta_directory_undefined demo_pool demo_tables3 1 (lit "/docs") _ 3
           (dir_row 1 (lit "/docs") (Some 2) (lit "docs"))).
  - exact demo_free.
  - apply demo_settled.
  - exact demo_tables3_ok.
  - by vm_compute.
  - apply (bool_decide_unpack _). vm_compute. exact I.
  - vm_compute. lia.
  - by vm_compute.
  - done.
  - apply demo_state_up; [exact demo_tables3_below | lia].
Defined.
