(* ===== verification/HandlerBasic.v ===== *)
(** * The basic command handlers ([src/server/handler_basic.c])

    Each handler runs on one decoded request: it reads the payload, consults the
    database and the session table, and hands responses to the protocol layer.
    The results of [protocol_send_packet] are ignored by the source, so a
    response is here a packet added to the outbox of the connection. *)

From Stdlib Require Import Strings.Byte.
From S2P Require Import Prelude CString Protocol Utils Heap Session TimerWheel Database DatabasePool Dao.

(** ** Data *)

Record packet_task := {
  t_client_fd : Z;
  t_epoll_fd : Z;
  t_packet : packet;
  t_session : session_context;
  t_storage_root : list byte
}.

(** What the handlers read and change: the database, the session table, the
    responses in order, and the files deleted from the storage directory. *)
Record handler_state `{MySQL} := {
  h_db : db;
  h_sessions : session_table;
  h_sent : list packet;
  h_unlinked : list (list byte)
}.
Arguments handler_state {_}.

(** The answers of the C library and the kernel during one request:
    [crypt_r(phrase, setting)], the sixteen bytes read from [/dev/urandom], the
    allocations, random numbers and clock of the session table, and whether
    [unlink] succeeds. *)
Record handler_env := {
  crypt_r : list byte -> list byte -> option (list byte);
  urandom : option (list byte);
  create_alloc : option (addr * addr);
  create_random : list random_answer;
  create_clock : nat -> option timespec;
  cwd_clock : option timespec;
  unlink_ok : list byte -> bool
}.

(** The tables of the server that connections are entered in: sessions, idle
    timers and the epoll set; and the descriptors closed so far. *)
Record control := {
  c_sessions : session_table;
  c_wheel : timer_wheel;
  c_epoll : list Z;
  c_closed : list Z
}.

(** ** Strings *)

Definition charset : list byte :=
  lit "abcdefghijklmnopqrstuvwxyzABCDEFGHIJKLMNOPQRSTUVWXYZ0123456789./".

(** [generate_salt(salt, sizeof(salt))]: [None] is -1. *)
Definition generate_salt (random : option (list byte)) (salt_size : Z) : option (list byte) :=
  if salt_size <? 20 then None
  else
    match random with
    | None => None
    | Some random_bytes =>
        if (length random_bytes =? 16)%nat
        then Some (lit "$6$" ++ map (fun b => nth (Z.to_nat (byte_val b mod 64)) charset NUL) random_bytes)
        else None
    end.

(** The bytes of the request as the C string left in a buffer of [capacity]
    bytes. *)
Definition copy_payload (task : packet_task) (capacity : Z) (require_nonempty : bool) : option (list byte) :=
  let len := payload_len (header (t_packet task)) in
  let pl := payload (t_packet task) in
  if (capacity <=? len) || ((0 <? len) && bool_decide (pl = None)) ||
     (require_nonempty && ((len =? 0) || bool_decide (pl = None)))
  then None
  else Some (if 0 <? len then cstr (take (Z.to_nat len) (default [] pl)) else []).

(** Split a path at its last slash: the parent and the base name, as [handle_mkdir]
    and [handle_rmdir] do; [None] is a bad request. *)
Definition split_target (target_path : list byte) : option (list byte * list byte) :=
  let parent_path := strncpy0 PATH_MAX target_path in
  match strrchr SLASH parent_path with
  | None => None
  | Some slash =>
      let file_name := strncpy0 NAME_MAX (drop (S slash) parent_path) in
      if bool_decide (file_name = []) then None
      else Some (if (slash =? 0)%nat then take 1 parent_path else take slash parent_path, file_name)
  end.

(** The user name and password lines of a payload *)
Definition credentials (text : list byte) : option (list byte * list byte) :=
  match strtok NEWLINE text with
  | None => None
  | Some (username, rest) =>
      match strtok NEWLINE rest with
      | None => None
      | Some (password, _) => Some (username, password)
      end
  end.

Section handlers.
Context `{MySQL} (env : handler_env).

Definition hm (A : Type) : Type := handler_state -> outcome (A * handler_state).
#[global] Instance hm_ret : MRet hm := fun A a s => Ret (a, s).
#[global] Instance hm_bind : MBind hm := fun A B f m s => r ← m s; f (fst r) (snd r).

Definition on_db {A} (m : dbm A) : hm A := fun s =>
  r ← m (h_db s);
  Ret (fst r, {| h_db := snd r; h_sessions := h_sessions s; h_sent := h_sent s; h_unlinked := h_unlinked s |}).
Definition on_sessions {A} (m : session_table -> outcome (A * session_table)) : hm A := fun s =>
  r ← m (h_sessions s);
  Ret (fst r, {| h_db := h_db s; h_sessions := snd r; h_sent := h_sent s; h_unlinked := h_unlinked s |}).
Definition lift_h {A} (o : outcome A) : hm A := fun s => a ← o; Ret (a, s).

(** ** Responses *)

Definition send_response_with_session_id (ty : cmd_type) (st : status_code) (sid : session_id)
    (pl : option (list byte)) : hm unit := fun s =>
  match packet_init ty st (Some sid) pl (match pl with Some l => Z.of_nat (length l) | None => 0 end) with
  | None => Ret (tt, s)
  | Some p => Ret (tt, {| h_db := h_db s; h_sessions := h_sessions s; h_sent := h_sent s ++ [p];
                          h_unlinked := h_unlinked s |})
  end.

Definition send_response (task : packet_task) (ty : cmd_type) (st : status_code)
    (pl : option (list byte)) : hm unit :=
  send_response_with_session_id ty st (session_id_of (header (t_packet task))) pl.

Definition error (task : packet_task) (st : status_code) (pl : option (list byte)) : hm unit :=
  send_response task CMD_ERROR st pl.
Definition ack (task : packet_task) (pl : option (list byte)) : hm unit :=
  send_response task CMD_ACK STATUS_OK pl.

(** [unlink(path)]: whether it failed *)
Definition unlink (path : list byte) : hm bool := fun s =>
  if unlink_ok env path
  then Ret (false, {| h_db := h_db s; h_sessions := h_sessions s; h_sent := h_sent s;
                      h_unlinked := h_unlinked s ++ [path] |})
  else Ret (true, s).

(** ** Accounts *)

Definition handle_register (task : packet_task) : hm unit :=
  match copy_payload task 128 true with
  | None => error task STATUS_BAD_REQUEST None
  | Some text =>
      match credentials text with
      | None => error task STATUS_BAD_REQUEST None
      | Some (username, password) =>
          match generate_salt (urandom env) 20 with
          | None => error task STATUS_OTHER_ERROR None
          | Some salt =>
              match crypt_r env password salt with
              | None => error task STATUS_OTHER_ERROR None
              | Some password_hash =>
                  r ← on_db (dao_auth_register username password_hash);
                  if negb (r =? 0) then error task STATUS_DB_ERROR None
                  else ack task None
              end
          end
      end
  end.

Definition handle_login (task : packet_task) : hm unit :=
  match copy_payload task 128 true with
  | None => error task STATUS_BAD_REQUEST None
  | Some text =>
      match credentials text with
      | None => error task STATUS_BAD_REQUEST None
      | Some (username, password) =>
          r ← on_db (dao_auth_get_login_info username);
          let '(ret, info) := r in
          if ret =? 1 then error task STATUS_USER_NOTEXIST None
          else if ret =? -1 then error task STATUS_OTHER_ERROR None
          else
            match crypt_r env password (li_password_hash info) with
            | None => error task STATUS_PASSWD_ERROR None
            | Some encrypted_password =>
                if bool_decide (li_password_hash info <> encrypted_password)
                then error task STATUS_PASSWD_ERROR None
                else
                  new_id ← on_sessions (fun t =>
                    session_create t (create_alloc env) (t_client_fd task) (li_user_id info) username
                      (li_root_path_id info) (create_random env) (create_clock env));
                  match new_id with
                  | None => error task STATUS_OTHER_ERROR None
                  | Some new_id => send_response_with_session_id CMD_ACK STATUS_OK new_id None
                  end
            end
      end
  end.

(** ** Directories *)

Definition handle_pwd (task : packet_task) : hm unit := ack task (Some (ctx_cwd (t_session task))).

Definition handle_cd (task : packet_task) : hm unit :=
  match copy_payload task PATH_MAX false with
  | None => error task STATUS_BAD_REQUEST None
  | Some text =>
      virtual_path ← (match text with
                      | [] => mret (Some [SLASH])
                      | _ => lift_h (normalize_cd_path (ctx_cwd (t_session task)) text PATH_MAX)
                      end);
      match virtual_path with
      | None => error task STATUS_OTHER_ERROR None
      | Some virtual_path =>
          r ← on_db (dao_path_get_node_id (ctx_user_id (t_session task)) virtual_path);
          match r with
          | (DAO_PATH_IS_DIR, path_id) =>
              path_id ← lift_h (deref path_id);
              ret ← on_sessions (fun t =>
                session_update_cwd t (t_client_fd task) (session_id_of (header (t_packet task))) path_id
                  virtual_path (cwd_clock env));
              if negb (ret =? 0) then error task STATUS_OTHER_ERROR None
              else ack task (Some virtual_path)
          | (DAO_PATH_NOT_FOUND, _) => error task STATUS_DIR_NOTEXIST (Some virtual_path)
          | (DAO_PATH_IS_FILE, _) => error task STATUS_NOT_DIR (Some virtual_path)
          | _ => error task STATUS_OTHER_ERROR None
          end
      end
  end.

Definition handle_ls (task : packet_task) : hm unit :=
  match copy_payload task PATH_MAX false with
  | None => error task STATUS_BAD_REQUEST None
  | Some text =>
      target_path ← (match text with
                     | [] => mret (Some (ctx_cwd (t_session task)))
                     | _ => lift_h (normalize_cd_path (ctx_cwd (t_session task)) text PATH_MAX)
                     end);
      match target_path with
      | None => error task STATUS_BAD_REQUEST None
      | Some target_path =>
          r ← on_db (dao_path_get_node_id (ctx_user_id (t_session task)) target_path);
          match r with
          | (DAO_PATH_IS_FILE, _) =>
              match split_target target_path with
              | None => error task STATUS_BAD_REQUEST None
              | Some (_, file_name) => ack task (Some file_name)
              end
          | (DAO_PATH_IS_DIR, target_id) =>
              target_id ← lift_h (deref target_id);
              r ← on_db (dao_path_get_ls_dir (ctx_user_id (t_session task)) target_id MAX_PACKET_PAYLOAD);
              let '(ret, ls_resp) := r in
              if ret <? 0 then error task STATUS_OTHER_ERROR (Some target_path)
              else ack task (Some ls_resp)
          | (DAO_PATH_NOT_FOUND, _) => error task STATUS_DIR_NOTEXIST (Some target_path)
          | _ => error task STATUS_OTHER_ERROR (Some target_path)
          end
      end
  end.

Definition handle_mkdir (task : packet_task) : hm unit :=
  match copy_payload task NAME_MAX false with
  | None => error task STATUS_BAD_REQUEST None
  | Some text =>
      target_path ← lift_h (normalize_cd_path (ctx_cwd (t_session task)) text PATH_MAX);
      match target_path with
      | None => error task STATUS_BAD_REQUEST None
      | Some target_path =>
          if bool_decide (target_path = [SLASH]) then error task STATUS_BAD_REQUEST None
          else
            match split_target target_path with
            | None => error task STATUS_BAD_REQUEST None
            | Some (parent_path, file_name) =>
                r ← on_db (dao_path_get_node_id (ctx_user_id (t_session task)) parent_path);
                match r with
                | (DAO_PATH_IS_DIR, parent_id) =>
                    parent_id ← lift_h (deref parent_id);
                    ret ← on_db (dao_path_insert_dir (ctx_user_id (t_session task)) target_path parent_id file_name);
                    if ret =? 1 then error task STATUS_DIR_ALREADY_EXISTS (Some file_name)
                    else if ret <? 0 then error task STATUS_OTHER_ERROR (Some file_name)
                    else ack task (Some file_name)
                | (DAO_PATH_NOT_FOUND, _) => error task STATUS_DIR_NOTEXIST (Some parent_path)
                | (DAO_PATH_IS_FILE, _) => error task STATUS_NOT_DIR (Some parent_path)
                | _ => error task STATUS_OTHER_ERROR (Some parent_path)
                end
            end
      end
  end.

Definition handle_rmdir (task : packet_task) : hm unit :=
  match copy_payload task NAME_MAX false with
  | None => error task STATUS_BAD_REQUEST None
  | Some text =>
      target_path ← lift_h (normalize_cd_path (ctx_cwd (t_session task)) text PATH_MAX);
      match target_path with
      | None => error task STATUS_BAD_REQUEST None
      | Some target_path =>
          if bool_decide (target_path = [SLASH]) then error task STATUS_BAD_REQUEST None
          else
            match split_target target_path with
            | None => error task STATUS_BAD_REQUEST None
            | Some (_, file_name) =>
                r ← on_db (dao_path_get_node_id (ctx_user_id (t_session task)) target_path);
                match r with
                | (DAO_PATH_IS_DIR, target_dir_id) =>
                    target_dir_id ← lift_h (deref target_dir_id);
                    ret ← on_db (dao_path_dir_has_child (ctx_user_id (t_session task)) target_dir_id);
                    if 0 <? ret then error task STATUS_DIR_NOTEMPTY (Some file_name)
                    else if ret <? 0 then error task STATUS_OTHER_ERROR (Some file_name)
                    else
                      ret ← on_db (dao_path_rmdir target_dir_id);
                      if negb (ret =? 0) then error task STATUS_OTHER_ERROR (Some file_name)
                      else ack task (Some target_path)
                | (DAO_PATH_NOT_FOUND, _) => error task STATUS_DIR_NOTEXIST (Some file_name)
                | (DAO_PATH_IS_FILE, _) => error task STATUS_NOT_DIR (Some file_name)
                | _ => error task STATUS_OTHER_ERROR (Some file_name)
                end
            end
      end
  end.

Definition handle_rm (task : packet_task) : hm unit :=
  match copy_payload task NAME_MAX false with
  | None => error task STATUS_BAD_REQUEST None
  | Some text =>
      target_path ← lift_h (normalize_cd_path (ctx_cwd (t_session task)) text PATH_MAX);
      match target_path with
      | None => error task STATUS_BAD_REQUEST None
      | Some target_path =>
          let base_file_name := basename (strncpy0 PATH_MAX target_path) in
          r ← on_db (dao_path_get_node_id (ctx_user_id (t_session task)) target_path);
          match r with
          | (DAO_PATH_IS_FILE, target_file_id) =>
              target_file_id ← lift_h (deref target_file_id);
              r ← on_db (dao_rm_file (ctx_user_id (t_session task)) target_file_id NAME_MAX);
              let '(ret, hashed_filename) := r in
              match ret with
              | DAO_OK => ack task (Some base_file_name)
              | DAO_NOT_FOUND => error task STATUS_FILE_NOTEXIST (Some base_file_name)
              | DAO_SHOULD_DELETE_PHYSICAL =>
                  let physical_file_path :=
                    snd (snprintf (PATH_MAX + NAME_MAX + 1) (t_storage_root task ++ [SLASH] ++ hashed_filename)) in
                  failed ← unlink physical_file_path;
                  (if failed : bool then error task STATUS_IO_ERROR (Some base_file_name) else mret tt);;
                  ack task (Some base_file_name)
              | DAO_DB_ERROR => error task STATUS_DB_ERROR None
              | _ => error task STATUS_OTHER_ERROR (Some base_file_name)
              end
          | (DAO_PATH_IS_DIR, _) => error task STATUS_IS_DIR (Some base_file_name)
          | (DAO_PATH_NOT_FOUND, _) => error task STATUS_FILE_NOTEXIST (Some base_file_name)
          | _ => error task STATUS_OTHER_ERROR (Some base_file_name)
          end
      end
  end.

(** The dispatch of [handle_basic_task] *)
Definition dispatch (task : packet_task) : hm unit :=
  match type (header (t_packet task)) with
  | CMD_REGISTER_REQ => handle_register task
  | CMD_LOGIN_REQ => handle_login task
  | CMD_PWD => handle_pwd task
  | CMD_CD => handle_cd task
  | CMD_LS => handle_ls task
  | CMD_MKDIR => handle_mkdir task
  | CMD_RMDIR => handle_rmdir task
  | CMD_RM => handle_rm task
  | _ => error task STATUS_PROTOCOL_ERROR None
  end.

(** ** The task

    Besides what the handlers change, a task touches the wheel, the descriptors
    registered with epoll, and closes its descriptor. *)

(** [epoll_ctl_ok] is the success of [network_add_epoll_fd]. *)
Definition publish_control_fd (epoll_ctl_ok : bool) (fd : Z) (registered : list Z) : Z * list Z :=
  if epoll_ctl_ok then (0, registered ++ [fd]) else (-1, registered).

(** The end of the task: give the descriptor back to the event loop, or close
    it; [alloc] and [clock] are the answers to [timer_wheel_track_and_publish]. *)
Definition finish_basic_task (epoll_ctl_ok : bool) (alloc : option addr) (clock : option timespec)
    (fd : Z) (c : control) : outcome control :=
  '(ret, wheel, registered) ←
    timer_wheel_track_and_publish (c_wheel c) alloc fd clock (publish_control_fd epoll_ctl_ok) (c_epoll c);
  if negb (ret =? 0) then
    sessions ← session_detach_fd (c_sessions c) fd;
    Ret {| c_sessions := sessions; c_wheel := wheel; c_epoll := registered; c_closed := c_closed c ++ [fd] |}
  else
    Ret {| c_sessions := c_sessions c; c_wheel := wheel; c_epoll := registered; c_closed := c_closed c |}.

(** The whole task; the session table of [c] is the one the handlers use. *)
Definition handle_basic_task (epoll_ctl_ok : bool) (alloc : option addr) (clock : option timespec)
    (task : packet_task) (h : handler_state) (c : control) : outcome (handler_state * control) :=
  r ← dispatch task h;
  let h := snd r in
  c ← finish_basic_task epoll_ctl_ok alloc clock (t_client_fd task)
        {| c_sessions := h_sessions h; c_wheel := c_wheel c; c_epoll := c_epoll c; c_closed := c_closed c |};
  Ret ({| h_db := h_db h; h_sessions := c_sessions c; h_sent := h_sent h; h_unlinked := h_unlinked h |}, c).

End handlers.
