(* ===== verification/HandlerBasicSpec.v ===== *)
(** * What the basic handlers do

    For each command: the response, the tables and the session table afterwards,
    on every branch, from a database that satisfies the invariant of [Tables]. *)

From Stdlib Require Import Strings.Byte.
From S2P Require Import Prelude CString Protocol Utils Heap Session SessionSpec TimerWheel.
From S2P Require Import Database DatabasePool Dao Tables DatabaseDemo DaoSpec HandlerBasic.

(** ** Request paths *)

(** The components of the path that a request names from directory [cwd]. *)
Definition destination (cwd text : list byte) : list (list byte) := resolve [] (components (path_text cwd text)).

Lemma normalize_destination cwd text :
  Z.of_nat (length (path_text cwd text)) < PATH_MAX ->
  Z.of_nat (length (render (destination cwd text))) < PATH_MAX ->
  normalize_cd_path cwd text PATH_MAX = Ret (Some (render (destination cwd text))).
Proof.
  intros H1 H2. rewrite normalize_cd_path_text by (unfold PATH_MAX; lia). cbn zeta. fold (destination cwd text).
  destruct (Z.leb_spec PATH_MAX (Z.of_nat (length (path_text cwd text)))); [lia |].
  by destruct (Z.ltb_spec PATH_MAX (Z.of_nat (length (render (destination cwd text))) + 1)); [lia |].
Qed.

Lemma destination_good cwd text : Forall good_name (destination cwd text).
Proof. apply resolve_good; [apply components_good | constructor]. Qed.

Definition flat (dir : list (list byte)) : list byte := flat_map (fun name => SLASH :: name) dir.

Lemma render_flat dir : dir <> [] -> render dir = flat dir.
Proof. by destruct dir. Qed.

Lemma flat_snoc dir name : flat (dir ++ [name]) = flat dir ++ SLASH :: name.
Proof. unfold flat. rewrite flat_map_app. simpl. by rewrite app_nil_r. Qed.

Lemma render_snoc dir name : render (dir ++ [name]) = flat dir ++ SLASH :: name.
Proof. rewrite render_flat by (by destruct dir). apply flat_snoc. Qed.

(** Splitting at the last slash separates the last component. *)
Lemma split_target_render parent name :
  Forall good_name (parent ++ [name]) -> (length name <= 254)%nat ->
  Z.of_nat (length (render (parent ++ [name]))) < PATH_MAX ->
  split_target (render (parent ++ [name])) = Some (render parent, name).
Proof.
  intros Hg Hn Hl. apply Forall_app in Hg as [Hp Hg].
  inversion_clear Hg as [| ? ? (Hne & Hs & _) _]. unfold split_target, strncpy0.
  rewrite (take_ge (render (parent ++ [name]))) by lia.
  rewrite render_snoc, strrchr_app by done.
  assert (Hdrop : drop (S (length (flat parent))) (flat parent ++ SLASH :: name) = name).
  { rewrite drop_app_ge by lia. by replace (S (length (flat parent)) - length (flat parent))%nat with 1%nat by lia. }
  rewrite Hdrop, (take_ge name) by (unfold NAME_MAX; lia). rewrite bool_decide_eq_false_2 by done.
  f_equal. f_equal. destruct parent as [| n parent]; [done |].
  change (length (flat (n :: parent)) =? 0)%nat with false. cbn match.
  rewrite take_app_le, take_ge by lia. done.
Qed.

(** The names of a path are made of bytes of the request. *)
Lemma components_loop_bytes cur s name b :
  name ∈ components_loop cur s -> b ∈ name -> b ∈ cur \/ b ∈ s.
Proof.
  revert cur. induction s as [| c s IH]; intros cur; cbn [components_loop].
  - destruct cur; [by intros ?%elem_of_nil |]. intros ->%list_elem_of_singleton. by left.
  - case_bool_decide.
    + intros Hin Hb. assert (Hcase : name = cur \/ name ∈ components_loop [] s).
      { destruct cur; [by right |]. apply elem_of_cons in Hin. done. }
      destruct Hcase as [-> | Hin']; [by left |]. right. right.
      destruct (IH [] Hin' Hb) as [?%elem_of_nil | ?]; done.
    + intros Hin Hb. destruct (IH _ Hin Hb) as [Hc | Hc]; [| right; by right].
      apply elem_of_app in Hc as [? | ->%list_elem_of_singleton]; [by left | right; left].
Qed.

Lemma resolve_from names dir name : name ∈ resolve dir names -> name ∈ dir \/ name ∈ names.
Proof.
  unfold resolve. revert dir. induction names as [| n names IH]; intros dir; simpl; [by left |].
  intros Hin. destruct (IH _ Hin) as [Hd | Hd]; [| right; by right].
  unfold resolve_step in Hd. case_bool_decide; [by left |]. case_bool_decide.
  - left. destruct dir as [| d dir _] using rev_ind; [done |]. rewrite removelast_last in Hd.
    apply elem_of_app. by left.
  - apply elem_of_app in Hd as [? | ->%list_elem_of_singleton]; [by left | right; left].
Qed.

Lemma render_bytes cwd text b : b ∈ render (destination cwd text) -> b = SLASH \/ b ∈ cwd \/ b ∈ text.
Proof.
  intros Hb. assert (Hin : b = SLASH \/ exists name, name ∈ destination cwd text /\ b ∈ name).
  { destruct (destination cwd text) as [| n dir] eqn:E; [left; by apply list_elem_of_singleton in Hb |].
    rewrite render_flat in Hb by done. unfold flat in Hb. apply list_elem_of_In, in_flat_map in Hb as (x & Hx & Hb).
    apply list_elem_of_In, elem_of_cons in Hb as [-> | Hb]; [by left |]. right. exists x.
    split; [by apply list_elem_of_In | done]. }
  destruct Hin as [-> | (name & Hn & Hb')]; [by left |].
  apply resolve_from in Hn as [?%elem_of_nil | Hn]; [done |].
  destruct (components_loop_bytes [] _ _ _ Hn Hb') as [?%elem_of_nil | Hp]; [done |].
  unfold path_text in Hp. case_bool_decide; [by auto |]. case_bool_decide.
  - apply elem_of_cons in Hp as [-> | ?]; auto.
  - apply elem_of_app in Hp as [? | Hp]; [by auto |]. apply elem_of_cons in Hp as [-> | ?]; auto.
Qed.

(** A path is not longer than the text it is resolved from. *)
Lemma length_flat_app d1 d2 : length (flat (d1 ++ d2)) = (length (flat d1) + length (flat d2))%nat.
Proof. unfold flat. by rewrite flat_map_app, length_app. Qed.

Lemma length_flat_cons n dir : length (flat (n :: dir)) = (S (length n) + length (flat dir))%nat.
Proof. unfold flat. simpl. by rewrite length_app. Qed.

Lemma components_loop_flat cur s : (length (flat (components_loop cur s)) <= length cur + length s + 1)%nat.
Proof.
  revert cur. induction s as [| b s IH]; intros cur; cbn [components_loop].
  - destruct cur as [| c cur]; [simpl; lia |]. rewrite length_flat_cons. simpl. lia.
  - case_bool_decide.
    + pose proof (IH []) as Hi. destruct cur as [| c cur]; [simpl in *; lia |].
      rewrite length_flat_cons. simpl length in *. lia.
    + pose proof (IH (cur ++ [b])) as Hi. rewrite length_app in Hi. simpl length in *. lia.
Qed.

Lemma resolve_flat names dir : (length (flat (resolve dir names)) <= length (flat dir) + length (flat names))%nat.
Proof.
  unfold resolve. revert dir. induction names as [| n names IH]; intros dir; cbn [foldl]; [lia |].
  change (n :: names) with ([n] ++ names). rewrite length_flat_app. etrans; [apply IH |].
  unfold resolve_step. case_bool_decide; [lia |]. case_bool_decide.
  - destruct dir as [| d dir _] using rev_ind; [simpl; lia |]. rewrite removelast_last, length_flat_app. lia.
  - rewrite length_flat_app. lia.
Qed.

Lemma length_path_text cwd text : (length (path_text cwd text) <= length cwd + length text + 1)%nat.
Proof.
  unfold path_text. case_bool_decide; [lia |]. case_bool_decide; rewrite ?length_app; simpl; rewrite ?length_app; lia.
Qed.

Lemma length_destination cwd text : (length (render (destination cwd text)) <= length cwd + length text + 2)%nat.
Proof.
  destruct (destination cwd text) as [| n dir] eqn:E; [simpl; lia |]. rewrite render_flat by done. rewrite <- E.
  unfold destination. etrans; [apply resolve_flat |]. cbn [flat flat_map length].
  pose proof (components_loop_flat [] (path_text cwd text)) as Hc. simpl in Hc.
  fold (components (path_text cwd text)) in Hc. pose proof (length_path_text cwd text). simpl. lia.
Qed.

(** ** Total correctness of handlers *)

Section hwp.
Context {M : MySQL} {Spec : MySQLSpec M} {Stored : MySQLStored M Spec} {Up : MySQLUp M Spec} (env : handler_env).

Definition hwp {A} (m : hm A) (Q : A -> handler_state -> Prop) (s : handler_state) : Prop :=
  exists a s', m s = Ret (a, s') /\ Q a s'.

Lemma hwp_ret {A} (a : A) Q s : Q a s -> hwp (mret a) Q s.
Proof. by exists a, s. Qed.

Lemma hwp_bind {A B} (m : hm A) (f : A -> hm B) Q s :
  hwp m (fun a s' => hwp (f a) Q s') s -> hwp (m ≫= f) Q s.
Proof.
  intros (a & s1 & Hm & b & s2 & Hf & HQ). exists b, s2. split; [| done].
  unfold mbind, hm_bind. rewrite Hm. done.
Qed.

Lemma hwp_mono {A} (m : hm A) (Q Q' : A -> handler_state -> Prop) s :
  hwp m Q s -> (forall a s', Q a s' -> Q' a s') -> hwp m Q' s.
Proof. intros (a & s' & Hm & HQ) Himp. exists a, s'. auto. Qed.

Lemma hwp_lift {A} (o : outcome A) a Q s : o = Ret a -> Q a s -> hwp (lift_h o) Q s.
Proof. intros -> HQ. by exists a, s. Qed.

Definition with_db (s : handler_state) (d : db) : handler_state :=
  {| h_db := d; h_sessions := h_sessions s; h_sent := h_sent s; h_unlinked := h_unlinked s |}.
Definition with_sessions (s : handler_state) (t : session_table) : handler_state :=
  {| h_db := h_db s; h_sessions := t; h_sent := h_sent s; h_unlinked := h_unlinked s |}.
Definition with_sent (s : handler_state) (p : packet) : handler_state :=
  {| h_db := h_db s; h_sessions := h_sessions s; h_sent := h_sent s ++ [p]; h_unlinked := h_unlinked s |}.

Lemma hwp_db {A} (m : dbm A) (R : A -> db -> Prop) Q s :
  wp m R (h_db s) -> (forall a d, R a d -> Q a (with_db s d)) -> hwp (on_db m) Q s.
Proof.
  intros (a & d & Hm & HR) HQ. exists a, (with_db s d). split; [| auto]. unfold on_db. by rewrite Hm.
Qed.

Lemma hwp_sessions {A} (m : session_table -> outcome (A * session_table)) a t Q s :
  m (h_sessions s) = Ret (a, t) -> Q a (with_sessions s t) -> hwp (on_sessions m) Q s.
Proof. intros Hm HQ. exists a, (with_sessions s t). split; [| auto]. unfold on_sessions. by rewrite Hm. Qed.

(** ** Responses *)

Definition response (ty : cmd_type) (st : status_code) (sid : session_id) (pl : option (list byte)) : packet :=
  {| header := {| type := ty; status := st;
                  payload_len := match pl with Some l => Z.of_nat (length l) | None => 0 end;
                  session_id_of := sid |};
     payload := pl; owns_payload := false |}.

Definition small (pl : option (list byte)) : Prop :=
  forall l, pl = Some l -> Z.of_nat (length l) <= MAX_PACKET_PAYLOAD.

Lemma hwp_send ty st sid pl Q s :
  small pl -> Q tt (with_sent s (response ty st sid pl)) ->
  hwp (send_response_with_session_id ty st sid pl) Q s.
Proof.
  intros Hs HQ. exists tt, (with_sent s (response ty st sid pl)). split; [| done].
  unfold send_response_with_session_id, packet_init.
  assert (Hg : (MAX_PACKET_PAYLOAD <? match pl with Some l => Z.of_nat (length l) | None => 0 end)
     || ((0 <? match pl with Some l => Z.of_nat (length l) | None => 0 end) && bool_decide (pl = None)) = false).
  { destruct pl as [l |]; [| done]. specialize (Hs l eq_refl).
    rewrite (proj2 (Z.ltb_ge _ _)) by done. by rewrite andb_false_r. }
  by rewrite Hg.
Qed.

(** One response of this kind was sent; the database is at rest with tables [t'];
    nothing else changed. *)
Record replied (p : database_pool) (task : packet_task) (s : handler_state) (ty : cmd_type) (st : status_code)
    (pl : option (list byte)) (t' : tables) (s' : handler_state) : Prop := {
  rp_sent : h_sent s' = h_sent s ++ [response ty st (session_id_of (header (t_packet task))) pl];
  rp_db : settled p t' (h_db s');
  rp_sessions : h_sessions s' = h_sessions s;
  rp_unlinked : h_unlinked s' = h_unlinked s
}.

(** The state a handler starts from *)
Record at_rest (p : database_pool) (t : tables) (s : handler_state) : Prop := {
  ar_free : free_connection p;
  ar_db : settled p t (h_db s);
  ar_ok : tables_ok same_text t
}.

Lemma hwp_node p t uid path Q s :
  at_rest p t s -> is_u64 uid -> plain path -> (length path <= 900)%nat ->
  (forall d, settled p t d -> spent 1 (h_db s) d -> Q (node_result (find_node same_text t uid path)) (with_db s d)) ->
  (forall d, settled p t d -> down (h_db s) -> Q (DAO_PATH_DB_ERROR, None) (with_db s d)) ->
  hwp (on_db (dao_path_get_node_id uid path)) Q s.
Proof.
  intros [Hf Hd Hok] Hu Hp Hl H1 H2. eapply hwp_db; [by eapply get_node_id_spec |].
  intros a d [Hs [[-> Hsp] | [-> Hdn]]]; auto.
Qed.

Lemma node_result_dir t uid path :
  match find_node same_text t uid path with
  | None => node_result (find_node same_text t uid path) = (DAO_PATH_NOT_FOUND, None)
  | Some (id, r) => node_result (find_node same_text t uid path) =
      (if p_type r =? 0 then DAO_PATH_IS_FILE else DAO_PATH_IS_DIR, Some id)
  end.
Proof. by destruct (find_node same_text t uid path) as [[id r] |]. Qed.

Lemma small_some l : Z.of_nat (length l) <= MAX_PACKET_PAYLOAD -> small (Some l).
Proof. by intros H l' [= <-]. Qed.
Lemma small_none : small None.
Proof. by intros l. Qed.

Lemma find_node_dir t uid path id r :
  tables_ok same_text t -> find_node same_text t uid path = Some (id, r) ->
  paths t !! id = Some r /\ p_user r = uid /\ is_u64 id /\
  (if p_type r =? 0 then exists fid f, file_at t uid id r fid f else p_type r = 1 /\ is_dir t uid id).
Proof.
  intros Hok Hf. apply (find_node_Some _ same_text_equiv) in Hf as (Hr & Hu & _); [| done].
  pose proof (path_ids _ t Hok id r Hr). split_and!; [done | done | unfold is_u64, u64_mod; lia |].
  destruct (path_type _ t Hok id r Hr) as [(Ht & fid & Hfid & f & Hff) | [Ht _]]; rewrite Ht; simpl.
  - by exists fid, f.
  - split; [done |]. by exists r.
Qed.

Ltac reply :=
  unfold error, ack, send_response; apply hwp_send;
  [first [apply small_none | apply small_some; unfold MAX_PACKET_PAYLOAD in *; lia] |].

(** ** mkdir *)

(** What [mkdir] of [name] in directory [parent] answers. *)
Definition mkdir_expected (t : tables) (uid : Z) (parent : list (list byte)) (name : list byte)
    (ty : cmd_type) (st : status_code) (pl : option (list byte)) (t' : tables) : Prop :=
  match find_node same_text t uid (render parent) with
  | None => ty = CMD_ERROR /\ st = STATUS_DIR_NOTEXIST /\ pl = Some (render parent) /\ t' = t
  | Some (pid, r) =>
      if p_type r =? 0 then ty = CMD_ERROR /\ st = STATUS_NOT_DIR /\ pl = Some (render parent) /\ t' = t
      else
        match find_node same_text t uid (render (parent ++ [name])) with
        | Some _ => ty = CMD_ERROR /\ st = STATUS_DIR_ALREADY_EXISTS /\ pl = Some name /\ t' = t
        | None => ty = CMD_ACK /\ st = STATUS_OK /\ pl = Some name /\
                  exists id, (0 < id < 2 ^ 63 /\ paths t !! id = None) /\ t' = mkdir_tables t id uid (render (parent ++ [name])) pid name
        end
  end.

(** A request path that the statements of the handlers have room for. *)
Definition roomy (cwd text : list byte) (parent : list (list byte)) (name : list byte) : Prop :=
  destination cwd text = parent ++ [name] /\ Z.of_nat (length (path_text cwd text)) < PATH_MAX /\
  (length name <= 254)%nat /\ (length (render (parent ++ [name])) + length name <= 800)%nat /\
  (length (render (parent ++ [name])) <= 768)%nat /\ plain (render (parent ++ [name])).

Lemma plain_app s1 s2 : plain (s1 ++ s2) <-> plain s1 /\ plain s2.
Proof. apply Forall_app. Qed.

Lemma plain_root : plain [SLASH].
Proof. apply (bool_decide_unpack _). vm_compute. exact I. Qed.

Lemma roomy_parts cwd text parent name :
  roomy cwd text parent name ->
  Forall good_name (parent ++ [name]) /\ plain (render parent) /\ plain name /\
  (length (render parent) <= 800)%nat /\ render (parent ++ [name]) <> [SLASH] /\
  Z.of_nat (length (render (parent ++ [name]))) < PATH_MAX.
Proof.
  intros (Hd & _ & Hn & Hl & _ & Hp). pose proof (destination_good cwd text) as Hg. rewrite Hd in Hg.
  split; [done |]. rewrite render_snoc in *. rewrite length_app in Hl. cbn [length] in Hl.
  apply plain_app in Hp as [Hp1 Hp2]. change (SLASH :: name) with ([SLASH] ++ name) in Hp2.
  apply plain_app in Hp2 as [_ Hp2].
  assert (Hpar : plain (render parent) /\ (length (render parent) <= 800)%nat).
  { destruct parent; [split; [apply plain_root | simpl; lia] |]. rewrite render_flat by done. split; [done | lia]. }
  destruct Hpar. split_and!; [done | done | done | |].
  - apply Forall_app in Hg as [_ Hg]. inversion_clear Hg as [| ? ? (Hne & _) _].
    destruct (flat parent); simpl; [by destruct name |]. intros [= -> Hc]. by destruct l.
  - rewrite length_app. cbn [length]. unfold PATH_MAX. lia.
Qed.

Lemma handle_mkdir_spec p t task text parent name s :
  at_rest p t s -> is_u64 (ctx_user_id (t_session task)) -> copy_payload task NAME_MAX false = Some text ->
  roomy (ctx_cwd (t_session task)) text parent name ->
  hwp (handle_mkdir task)
    (fun _ s' => exists ty st pl t', replied p task s ty st pl t' s' /\
       (mkdir_expected t (ctx_user_id (t_session task)) parent name ty st pl t' \/
        (ty = CMD_ERROR /\ st = STATUS_OTHER_ERROR /\ t' = t /\ ~ up 2 (srv (h_db s))))) s.
Proof.
  intros Hrest Huid Hpl Hroom. pose proof Hroom as (Hd & Hlen & Hn & Hroom1 & Hroom2 & Hplain).
  destruct (roomy_parts _ _ _ _ Hroom) as (Hgood & Hpp & Hpn & Hlp & Hne & Hmax).
  set (uid := ctx_user_id (t_session task)) in *. unfold handle_mkdir. rewrite Hpl.
  apply hwp_bind. eapply hwp_lift; [apply normalize_destination; [done | by rewrite Hd] |]. rewrite Hd.
  rewrite bool_decide_eq_false_2 by done. rewrite split_target_render by done. fold uid.
  apply hwp_bind. apply (hwp_node p t); [done | done | done | lia | |].
  2:{ intros d Hs Hdn. reply.
      eexists _, _, _, t. split; [by split |]. right. split_and!; [done | done | done | by apply (down_up _ 1)]. }
  intros d Hs Hsp. unfold mkdir_expected. pose proof (node_result_dir t uid (render parent)) as Hnode.
  destruct (find_node same_text t uid (render parent)) as [[pid r] |] eqn:Ef; rewrite Hnode.
  2:{ reply. eexists _, _, _, t. split; [by split | by left]. }
  destruct (find_node_dir t uid _ pid r (ar_ok _ _ _ Hrest) Ef) as (Hr & Hu & Hpid & Hkind).
  destruct (p_type r =? 0) eqn:Ety.
  { reply. eexists _, _, _, t. split; [by split | by left]. }
  apply hwp_bind. eapply hwp_lift; [reflexivity |]. apply hwp_bind.
  eapply hwp_db; [apply (insert_dir_spec p t); try done; apply Hrest |].
  intros a d2 [(-> & Hnone & id & Hfresh & Hs2) | [(-> & Hsome & Hs2) | (-> & Hs2 & Hdn)]]; cbn [Z.eqb Z.ltb Z.compare].
  - reply.
    eexists _, _, _, _. split; [by split |]. left. rewrite Hnone. split_and!; [done | done | done |]. by exists id.
  - reply.
    eexists _, _, _, t. split; [by split |]. left.
    destruct (find_node same_text t uid (render (parent ++ [name]))); done.
  - reply.
    eexists _, _, _, t. split; [by split |]. right. split_and!; [done | done | done |].
    destruct (find_node_dir t uid _ pid r (ar_ok _ _ _ Hrest) Ef) as (_ & _ & _ & Hkind'). rewrite Ety in Hkind'.
    destruct (dir_ranges t uid pid (ar_ok _ _ _ Hrest) (proj2 Hkind')) as (_ & Hi & _ & Hb).
    intros Hu2. apply (Hdn Hi Hb ltac:(lia) ltac:(lia)). by apply (Hsp 1%nat).
Qed.

(** ** rmdir *)

Definition rmdir_expected (t : tables) (uid : Z) (target : list byte) (name : list byte)
    (ty : cmd_type) (st : status_code) (pl : option (list byte)) (t' : tables) : Prop :=
  match find_node same_text t uid target with
  | None => ty = CMD_ERROR /\ st = STATUS_DIR_NOTEXIST /\ pl = Some name /\ t' = t
  | Some (id, r) =>
      if p_type r =? 0 then ty = CMD_ERROR /\ st = STATUS_NOT_DIR /\ pl = Some name /\ t' = t
      else if bool_decide (children t uid id = [])
      then ty = CMD_ACK /\ st = STATUS_OK /\ pl = Some target /\ t' = rmdir_tables t id
      else ty = CMD_ERROR /\ st = STATUS_DIR_NOTEMPTY /\ pl = Some name /\ t' = t
  end.

Lemma handle_rmdir_spec p t task text parent name s :
  at_rest p t s -> is_u64 (ctx_user_id (t_session task)) -> copy_payload task NAME_MAX false = Some text ->
  roomy (ctx_cwd (t_session task)) text parent name ->
  (forall uid id, Z.of_nat (length (children t uid id)) < 2 ^ 31) ->
  hwp (handle_rmdir task)
    (fun _ s' => exists ty st pl t', replied p task s ty st pl t' s' /\
       (rmdir_expected t (ctx_user_id (t_session task)) (render (parent ++ [name])) name ty st pl t' \/
        (ty = CMD_ERROR /\ st = STATUS_OTHER_ERROR /\ t' = t /\ ~ up 3 (srv (h_db s))))) s.
Proof.
  intros Hrest Huid Hpl Hroom Hfew. pose proof Hroom as (Hd & Hlen & Hn & Hroom1 & Hroom2 & Hplain).
  destruct (roomy_parts _ _ _ _ Hroom) as (Hgood & Hpp & Hpn & Hlp & Hne & Hmax).
  set (uid := ctx_user_id (t_session task)) in *. set (target := render (parent ++ [name])) in *.
  unfold handle_rmdir. rewrite Hpl.
  apply hwp_bind. eapply hwp_lift; [apply normalize_destination; [done | by rewrite Hd] |]. rewrite Hd. fold target.
  rewrite bool_decide_eq_false_2 by done. unfold target at 1. rewrite split_target_render by done. fold uid.
  apply hwp_bind. apply (hwp_node p t); [done | done | done | lia | |].
  2:{ intros d Hs Hdn. reply. eexists _, _, _, t. split; [by split |]. right.
      split_and!; [done | done | done | by apply (down_up _ 2)]. }
  intros d Hs Hsp. unfold rmdir_expected. pose proof (node_result_dir t uid target) as Hnode.
  destruct (find_node same_text t uid target) as [[id r] |] eqn:Ef; rewrite Hnode.
  2:{ reply. eexists _, _, _, t. split; [by split | by left]. }
  destruct (find_node_dir t uid _ id r (ar_ok _ _ _ Hrest) Ef) as (Hr & Hu & Hid & Hkind).
  destruct (p_type r =? 0) eqn:Ety.
  { reply. eexists _, _, _, t. split; [by split | by left]. }
  apply hwp_bind. eapply hwp_lift; [reflexivity |]. apply hwp_bind.
  eapply hwp_db; [apply (has_child_spec p t); try done; apply Hrest |].
  intros a d2 [Hs2 [[-> Hsp2] | [-> Hdn]]].
  2:{ cbn [Z.ltb Z.compare]. reply. eexists _, _, _, t. split; [by split |]. right. split_and!; [done | done | done |].
      intros Hu3. apply Hdn. eapply up_le; [| by apply (Hsp 2%nat)]. lia. }
  rewrite to_int_small by (specialize (Hfew uid id); lia). case_bool_decide as Hc.
  2:{ destruct (Z.ltb_spec 0 (Z.of_nat (length (children t uid id)))) as [Hpos | Hpos].
      - reply. eexists _, _, _, t. split; [by split | by left].
      - exfalso. apply Hc. destruct (children t uid id); [done |]. simpl in Hpos. lia. }
  rewrite Hc. cbn [length Z.of_nat Z.ltb Z.compare]. apply hwp_bind.
  eapply hwp_db; [apply (rmdir_spec p t); try done; apply Hrest |].
  intros a d3 [(-> & Hs3) | (-> & Hs3 & Hdn)]; cbn [Z.eqb negb].
  - reply. eexists _, _, _, _. split; [by split | by left].
  - reply. eexists _, _, _, t. split; [by split |]. right. split_and!; [done | done | done |].
    intros Hu3. apply Hdn, (Hsp2 1%nat). by apply (Hsp 2%nat).
Qed.

(** ** cd *)

Definition cd_path (cwd text : list byte) : list byte :=
  match text with [] => [SLASH] | _ => render (destination cwd text) end.

Definition reachable_path (cwd text : list byte) : Prop :=
  Z.of_nat (length (path_text cwd text)) < PATH_MAX /\ (length (cd_path cwd text) <= 768)%nat /\
  plain (cd_path cwd text).

Lemma hwp_path cwd text (Q : option (list byte) -> handler_state -> Prop) s :
  reachable_path cwd text -> Q (Some (cd_path cwd text)) s ->
  hwp (match text with [] => mret (Some [SLASH]) | _ => lift_h (normalize_cd_path cwd text PATH_MAX) end) Q s.
Proof.
  intros (H1 & H2 & _) HQ. unfold cd_path in *. destruct text as [| b text]; [by apply hwp_ret |].
  eapply hwp_lift; [| exact HQ]. apply normalize_destination; [done |]. unfold PATH_MAX. lia.
Qed.

(** The session table after [cd] to the directory [id] *)
Definition chdir (A : table_spec) (task : packet_task) (id : Z) (path : list byte) (clock : option timespec)
    : option table_spec :=
  now ← clock;
  if (t_client_fd task <? 0) || bool_decide (head path <> Some SLASH) ||
     (PATH_MAX <=? Z.of_nat (length path)) then None
  else spec_update_cwd (t_client_fd task) (session_id_of (header (t_packet task))) id path now A.

Lemma handle_cd_spec p t A task text s :
  at_rest p t s -> rep (h_sessions s) A -> session_id_wf (session_id_of (header (t_packet task))) ->
  is_u64 (ctx_user_id (t_session task)) -> copy_payload task PATH_MAX false = Some text ->
  reachable_path (ctx_cwd (t_session task)) text ->
  hwp (handle_cd env task)
    (fun _ s' => exists ty st pl A', h_sent s' = h_sent s ++ [response ty st (session_id_of (header (t_packet task))) pl] /\
       settled p t (h_db s') /\ h_unlinked s' = h_unlinked s /\ rep (h_sessions s') A' /\
       let path := cd_path (ctx_cwd (t_session task)) text in
       match find_node same_text t (ctx_user_id (t_session task)) path with
       | None => ty = CMD_ERROR /\ st = STATUS_DIR_NOTEXIST /\ pl = Some path /\ A' = A
       | Some (id, r) =>
           if p_type r =? 0 then ty = CMD_ERROR /\ st = STATUS_NOT_DIR /\ pl = Some path /\ A' = A
           else match chdir A task id path (cwd_clock env) with
                | None => ty = CMD_ERROR /\ st = STATUS_OTHER_ERROR /\ pl = None /\ A' = A
                | Some A1 => ty = CMD_ACK /\ st = STATUS_OK /\ pl = Some path /\ A' = A1
                end
       end \/ (ty = CMD_ERROR /\ st = STATUS_OTHER_ERROR /\ pl = None /\ A' = A /\ ~ up 1 (srv (h_db s)))) s.
Proof.
  intros Hrest HA Hsid Huid Hpl Hpath. set (uid := ctx_user_id (t_session task)) in *.
  unfold handle_cd. rewrite Hpl. apply hwp_bind, hwp_path; [done |].
  destruct Hpath as (Hp1 & Hp2 & Hp3). set (path := cd_path (ctx_cwd (t_session task)) text) in *. fold uid.
  apply hwp_bind. apply (hwp_node p t); [done | done | done | lia | |].
  2:{ intros d Hs Hdn. reply. eexists _, _, _, A. split_and!; [done | done | done | done |]. by right. }
  intros d Hs Hsp. pose proof (node_result_dir t uid path) as Hnode. cbn zeta.
  destruct (find_node same_text t uid path) as [[id r] |] eqn:Ef; rewrite Hnode.
  2:{ reply. eexists _, _, _, A. split_and!; [done | done | done | done |]. by left. }
  destruct (p_type r =? 0) eqn:Ety.
  { reply. eexists _, _, _, A. split_and!; [done | done | done | done |]. by left. }
  apply hwp_bind. eapply hwp_lift; [reflexivity |]. apply hwp_bind.
  pose proof (session_update_cwd_rep (h_sessions s) A (t_client_fd task) _ id path (cwd_clock env) HA Hsid) as Hup.
  unfold chdir. unfold mbind in Hup |- *. destruct (option_bind _ _ _ _) as [A1 |].
  - destruct Hup as (t1 & Ht1 & HA1). eapply hwp_sessions; [exact Ht1 |]. cbn [Z.eqb negb].
    reply. eexists _, _, _, A1. split_and!; [done | done | done | done |]. by left.
  - eapply hwp_sessions; [exact Hup |]. cbn [Z.eqb negb].
    reply. eexists _, _, _, A. split_and!; [done | done | done | done |]. by left.
Qed.

(** ** rm *)

(** The name under which a stored file is kept on disk *)
Definition stored_path (task : packet_task) (f : file_row) : list byte :=
  snd (snprintf (PATH_MAX + NAME_MAX + 1) (t_storage_root task ++ [SLASH] ++ strncpy0 NAME_MAX (f_hash f))).

(** The responses of [rm], the tables and the deleted files. *)
Definition rm_expected (t : tables) (task : packet_task) (path : list byte) (rs : list packet) (t' : tables)
    (deleted : list (list byte)) : Prop :=
  let base := basename (strncpy0 PATH_MAX path) in
  let say ty st := response ty st (session_id_of (header (t_packet task))) (Some base) in
  match find_node same_text t (ctx_user_id (t_session task)) path with
  | None => rs = [say CMD_ERROR STATUS_FILE_NOTEXIST] /\ t' = t /\ deleted = []
  | Some (id, r) =>
      if p_type r =? 0 then
        exists fid f, file_at t (ctx_user_id (t_session task)) id r fid f /\ t' = rm_tables t id fid f /\
          if f_refs f =? 1 then
            if unlink_ok env (stored_path task f)
            then rs = [say CMD_ACK STATUS_OK] /\ deleted = [stored_path task f]
            else rs = [say CMD_ERROR STATUS_IO_ERROR; say CMD_ACK STATUS_OK] /\ deleted = []
          else rs = [say CMD_ACK STATUS_OK] /\ deleted = []
      else rs = [say CMD_ERROR STATUS_IS_DIR] /\ t' = t /\ deleted = []
  end.

Lemma length_basename s : (length (basename s) <= S (length s))%nat.
Proof.
  unfold basename. assert (Hs : (length (strip_slashes s) <= length s)%nat).
  { unfold strip_slashes. rewrite length_rev. etrans; [apply length_drop_while |]. by rewrite length_rev. }
  destruct (strip_slashes s) as [| b l]; [destruct s; simpl; lia |].
  destruct (strrchr SLASH (b :: l)); [rewrite length_drop; lia | lia].
Qed.

Lemma hwp_unlink path Q s :
  (if unlink_ok env path
   then Q false {| h_db := h_db s; h_sessions := h_sessions s; h_sent := h_sent s; h_unlinked := h_unlinked s ++ [path] |}
   else Q true s) ->
  hwp (unlink env path) Q s.
Proof.
  intros HQ. unfold hwp, unlink. destruct (unlink_ok env path); [by eexists false, _ | by eexists true, _].
Qed.

Lemma same_file t uid id r fid f r' fid' f' :
  file_at t uid id r fid f -> file_at t uid id r' fid' f' -> r' = r /\ fid' = fid /\ f' = f.
Proof. intros [] []. assert (r' = r) as -> by congruence. assert (fid' = fid) as -> by congruence. naive_solver. Qed.

Lemma handle_rm_spec p t task text s :
  at_rest p t s -> is_u64 (ctx_user_id (t_session task)) -> copy_payload task NAME_MAX false = Some text ->
  let path := render (destination (ctx_cwd (t_session task)) text) in
  Z.of_nat (length (path_text (ctx_cwd (t_session task)) text)) < PATH_MAX ->
  (length path <= 768)%nat -> plain path ->
  (forall i f, files t !! i = Some f -> f_refs f < 2 ^ 31) ->
  hwp (handle_rm env task)
    (fun _ s' => exists rs t' deleted, h_sent s' = h_sent s ++ rs /\ settled p t' (h_db s') /\
       h_sessions s' = h_sessions s /\ h_unlinked s' = h_unlinked s ++ deleted /\
       (rm_expected t task path rs t' deleted \/
        (~ up 8 (srv (h_db s)) /\ deleted = [] /\ (exists st pl, rs = [response CMD_ERROR st (session_id_of (header (t_packet task))) pl]) /\
         (t' = t \/ exists id r fid f, file_at t (ctx_user_id (t_session task)) id r fid f /\ t' = rm_tables t id fid f)))) s.
Proof.
  intros Hrest Huid Hpl path Hp1 Hp2 Hp3 Hrefs. set (uid := ctx_user_id (t_session task)) in *.
  assert (Hbase : (length (basename (strncpy0 PATH_MAX path)) <= 800)%nat).
  { etrans; [apply length_basename |]. unfold strncpy0. rewrite length_take. lia. }
  unfold handle_rm. rewrite Hpl. apply hwp_bind.
  eapply hwp_lift; [apply normalize_destination; [done |]; fold path; unfold PATH_MAX; lia |]. fold path uid. cbv zeta.
  apply hwp_bind. apply (hwp_node p t); [done | done | done | lia | |].
  2:{ intros d Hs Hdn. reply. eexists _, t, []. split_and!; [done | done | done | by rewrite app_nil_r |]. right.
      split_and!; [by apply (down_up _ 7) | done | by eexists _, _ | by left]. }
  intros d Hs Hsp. unfold rm_expected. fold uid. pose proof (node_result_dir t uid path) as Hnode.
  destruct (find_node same_text t uid path) as [[id r] |] eqn:Ef; rewrite Hnode.
  2:{ reply. eexists _, t, []. split_and!; [done | done | done | by rewrite app_nil_r |]. by left. }
  destruct (find_node_dir t uid _ id r (ar_ok _ _ _ Hrest) Ef) as (Hr & Hu & Hid & Hkind).
  destruct (p_type r =? 0) eqn:Ety.
  2:{ reply. eexists _, t, []. split_and!; [done | done | done | by rewrite app_nil_r |]. by left. }
  destruct Hkind as (fid & f & Hat). apply hwp_bind. eapply hwp_lift; [reflexivity |]. apply hwp_bind.
  eapply hwp_db; [apply (rm_file_spec p t); try done; apply Hrest |]. cbv beta.
  intros [st hash] d2 [(Heq & Hs2 & Hno) | [(r2 & fid2 & f2 & Hat2 & Hs2 & Ha) | (Herr & Hcase & Hup)]].
  - exfalso. by eapply Hno.
  - destruct (same_file _ _ _ _ _ _ _ _ _ Hat Hat2) as (-> & -> & ->).
    destruct (f_refs f =? 1) eqn:Eone; injection Ha as -> ->.
    + apply hwp_bind. fold (stored_path task f). apply hwp_unlink. destruct (unlink_ok env (stored_path task f)) eqn:Eun.
      * apply hwp_bind, hwp_ret. reply.
        eexists _, _, _. split_and!; [done | done | done | done |]. left. exists fid, f. by rewrite Eone, Eun.
      * apply hwp_bind. reply. reply.
        eexists _, _, []. split_and!; [simpl; by rewrite <- app_assoc | done | done | by rewrite app_nil_r |].
        left. exists fid, f. by rewrite Eone, Eun.
    + reply. eexists _, _, []. split_and!; [done | done | done | by rewrite app_nil_r |].
      left. exists fid, f. by rewrite Eone.
  - simpl in Herr. subst st. assert (Hup8 : ~ up 8 (srv (h_db s))) by (intros Hu8; apply Hup; by apply (Hsp 7%nat)).
    reply. destruct Hcase as [Hs2 | (r2 & fid2 & f2 & Hat2 & Hs2 & _)].
    + eexists _, t, []. split_and!; [done | done | done | by rewrite app_nil_r |]. right.
      split_and!; [done | done | by eexists _, _ | by left].
    + eexists _, _, []. split_and!; [done | exact Hs2 | done | by rewrite app_nil_r |]. right.
      split_and!; [done | done | by eexists _, _ | right; eauto 6].
Qed.

(** ** ls *)

Definition ls_path (cwd text : list byte) : list byte :=
  match text with [] => cwd | _ => render (destination cwd text) end.

Definition ls_expected (t : tables) (uid : Z) (path : list byte) (ty : cmd_type) (st : status_code)
    (pl : option (list byte)) : Prop :=
  match find_node same_text t uid path with
  | None => ty = CMD_ERROR /\ st = STATUS_DIR_NOTEXIST /\ pl = Some path
  | Some (id, r) =>
      if p_type r =? 0 then
        match split_target path with
        | None => ty = CMD_ERROR /\ st = STATUS_BAD_REQUEST /\ pl = None
        | Some (_, name) => ty = CMD_ACK /\ st = STATUS_OK /\ pl = Some name
        end
      else ty = CMD_ACK /\ st = STATUS_OK /\ exists text, pl = Some text /\ listing t uid id MAX_PACKET_PAYLOAD text
  end.

Lemma listing_length t uid id n text : 0 < n -> listing t uid id n text -> Z.of_nat (length text) < n.
Proof. intros Hn (prs & _ & ->). rewrite length_take. lia. Qed.

Lemma split_target_length path parent name : split_target path = Some (parent, name) -> (length name <= 254)%nat.
Proof.
  unfold split_target. destruct (strrchr _ _); [| done]. case_bool_decide; [done |]. intros [= _ <-].
  unfold strncpy0. rewrite length_take. unfold NAME_MAX. lia.
Qed.

Lemma handle_ls_spec p t task text s :
  at_rest p t s -> is_u64 (ctx_user_id (t_session task)) -> copy_payload task PATH_MAX false = Some text ->
  let path := ls_path (ctx_cwd (t_session task)) text in
  Z.of_nat (length (path_text (ctx_cwd (t_session task)) text)) < PATH_MAX ->
  (length path <= 768)%nat -> plain path ->
  (forall uid id, Z.of_nat (length (children t uid id)) < 2 ^ 31) ->
  hwp (handle_ls task)
    (fun _ s' => exists ty st pl, replied p task s ty st pl t s' /\
       (ls_expected t (ctx_user_id (t_session task)) path ty st pl \/
        (ty = CMD_ERROR /\ st = STATUS_OTHER_ERROR /\ ~ up 2 (srv (h_db s))))) s.
Proof.
  intros Hrest Huid Hpl path Hp1 Hp2 Hp3 Hfew. set (uid := ctx_user_id (t_session task)) in *.
  unfold handle_ls. rewrite Hpl. apply hwp_bind.
  assert (Hnorm : forall Q : option (list byte) -> handler_state -> Prop, Q (Some path) s ->
    hwp (match text with [] => mret (Some (ctx_cwd (t_session task)))
         | _ => lift_h (normalize_cd_path (ctx_cwd (t_session task)) text PATH_MAX) end) Q s).
  { intros Q HQ. unfold path, ls_path in *. destruct text; [by apply hwp_ret |].
    eapply hwp_lift; [apply normalize_destination; [done |] | exact HQ]. unfold PATH_MAX. lia. }
  apply Hnorm. fold uid. apply hwp_bind. apply (hwp_node p t); [done | done | done | lia | |].
  2:{ intros d Hs Hdn. reply. eexists _, _, _. split; [by split |]. right. split_and!; [done | done | by apply (down_up _ 1)]. }
  intros d Hs Hsp. unfold ls_expected. pose proof (node_result_dir t uid path) as Hnode.
  destruct (find_node same_text t uid path) as [[id r] |] eqn:Ef; rewrite Hnode.
  2:{ reply. eexists _, _, _. split; [by split | by left]. }
  destruct (find_node_dir t uid _ id r (ar_ok _ _ _ Hrest) Ef) as (Hr & Hu & Hid & Hkind).
  destruct (p_type r =? 0) eqn:Ety.
  - destruct (split_target path) as [[par name] |] eqn:Esp.
    + pose proof (split_target_length _ _ _ Esp). reply. eexists _, _, _. split; [by split | by left].
    + reply. eexists _, _, _. split; [by split | by left].
  - apply hwp_bind. eapply hwp_lift; [reflexivity |]. apply hwp_bind.
    eapply hwp_db; [apply (get_ls_dir_spec p t); try done; apply Hrest |].
    intros [n ls] d2 [Hs2 [(Hn & Hls & Hsp2) | [Heq Hdn]]].
    + simpl in Hn, Hls. rewrite Hn, to_int_small by (specialize (Hfew uid id); lia).
      rewrite (proj2 (Z.ltb_ge _ _)) by lia. 
      assert (Hll : Z.of_nat (length ls) < MAX_PACKET_PAYLOAD) by (eapply listing_length; [| exact Hls]; unfold MAX_PACKET_PAYLOAD; lia).
      reply. eexists _, _, _. split; [by split |]. left. split_and!; [done | done |]. by exists ls.
    + injection Heq as -> ->. cbn [Z.ltb Z.compare]. reply. eexists _, _, _. split; [by split |]. right.
      split_and!; [done | done |]. intros Hu2. apply Hdn. by apply (Hsp 1%nat).
Qed.

(** ** Accounts *)

Definition register_expected (t : tables) (username password : list byte) (ty : cmd_type) (st : status_code) (t' : tables)
    (alive : Prop) : Prop :=
  match generate_salt (urandom env) 20 ≫= crypt_r env password with
  | None => ty = CMD_ERROR /\ st = STATUS_OTHER_ERROR /\ t' = t
  | Some hash =>
      (ty = CMD_ACK /\ st = STATUS_OK /\
         exists uid rid, new_user t username uid rid /\ t' = register_tables t uid rid username hash) \/
      (ty = CMD_ERROR /\ st = STATUS_DB_ERROR /\
         (t' = t \/ exists uid rid, new_user t username uid rid /\ t' = register_tables t uid rid username hash) /\
         (alive -> (length username <= 64)%nat -> find_user t username <> None))
  end.

Lemma handle_register_spec p t task text username password s :
  at_rest p t s -> copy_payload task 128 true = Some text -> credentials text = Some (username, password) ->
  plain username -> (length username <= 400)%nat ->
  (forall hash, generate_salt (urandom env) 20 ≫= crypt_r env password = Some hash ->
     plain hash /\ (length hash < 384)%nat) ->
  hwp (handle_register env task)
    (fun _ s' => exists ty st t', replied p task s ty st None t' s' /\
       register_expected t username password ty st t' (up 4 (srv (h_db s)))) s.
Proof.
  intros Hrest Hpl Hcred Hpu Hlu Hcrypt. unfold handle_register. rewrite Hpl, Hcred. unfold register_expected.
  destruct (generate_salt (urandom env) 20) as [salt |]; cbn [mbind option_bind] in *.
  2:{ reply. eexists _, _, t. split; [split; try done; apply Hrest | done]. }
  destruct (crypt_r env password salt) as [hash |].
  2:{ reply. eexists _, _, t. split; [split; try done; apply Hrest | done]. }
  destruct (Hcrypt hash eq_refl) as [Hph Hlh]. apply hwp_bind.
  eapply hwp_db; [apply (register_spec p t); try done; [apply Hrest | apply Hrest | apply Hrest | lia] |].
  intros a d [(-> & uid & rid & Hnew & Hs) | (-> & Hcase & Hup)]; cbn [Z.eqb negb].
  - reply. eexists _, _, _. split; [by split |]. left. eauto 6.
  - assert (Hup' : up 4 (srv (h_db s)) -> (length username <= 64)%nat -> find_user t username <> None).
    { intros Hu Hl. apply Hup; [done | lia | done]. }
    reply. destruct Hcase as [Hs | (uid & rid & Hnew & Hs)].
    + eexists _, _, t. split; [by split |]. right. auto.
    + eexists _, _, _. split; [by split |]. right. split_and!; [done | done | | done]. right. eauto.
Qed.

Definition create_session (task : packet_task) (li : login_info) (username : list byte) (t : session_table) :=
  session_create t (create_alloc env) (t_client_fd task) (li_user_id li) username
    (li_root_path_id li) (create_random env) (create_clock env).

(** What a login with these credentials ends with: the response and the session
    table, concrete and abstract. *)
Definition login_expected (t : tables) (sessions : session_table) (A : table_spec) (task : packet_task)
    (username password : list byte) (resp : packet) (sessions' : session_table) (A' : table_spec) : Prop :=
  let sid := session_id_of (header (t_packet task)) in
  match login_result t username with
  | None => resp = response CMD_ERROR STATUS_USER_NOTEXIST sid None /\ A' = A
  | Some li =>
      if bool_decide (crypt_r env password (li_password_hash li) = Some (li_password_hash li)) then
        exists r, create_session task li username sessions = Ret (r, sessions') /\
          match r with
          | Some new_id => exists now, resp = response CMD_ACK STATUS_OK new_id None /\
              session_id_wf new_id /\ session_id_is_empty new_id = false /\ live A !! new_id = None /\
              bound A !! t_client_fd task = None /\
              A' = spec_create (t_client_fd task) new_id
                     (as_new (li_user_id li) (li_root_path_id li) username now) A
          | None => resp = response CMD_ERROR STATUS_OTHER_ERROR sid None /\ A' = A
          end
      else resp = response CMD_ERROR STATUS_PASSWD_ERROR sid None /\ A' = A
  end.

Lemma handle_login_spec p t A task text username password s :
  at_rest p t s -> rep (h_sessions s) A -> t_client_fd task <= int_max ->
  (forall sa ba, create_alloc env = Some (sa, ba) -> fresh_session (h_sessions s) sa /\ fresh_binding (h_sessions s) ba) ->
  (forall li, create_session task li username (h_sessions s) <> NoReturn) ->
  copy_payload task 128 true = Some text -> credentials text = Some (username, password) ->
  plain username -> (length username <= 400)%nat ->
  (forall uid u, find_user t username = Some (uid, u) -> Z.of_nat (length (u_hash u)) < CRYPT_OUTPUT_SIZE) ->
  hwp (handle_login env task)
    (fun _ s' => exists resp A', h_sent s' = h_sent s ++ [resp] /\ settled p t (h_db s') /\
       h_unlinked s' = h_unlinked s /\ rep (h_sessions s') A' /\
       (login_expected t (h_sessions s) A task username password resp (h_sessions s') A' \/
        (resp = response CMD_ERROR STATUS_OTHER_ERROR (session_id_of (header (t_packet task))) None /\ A' = A /\
         ~ up 1 (srv (h_db s))))) s.
Proof.
  intros Hrest HA Hfd Halloc Hret Hpl Hcred Hpu Hlu Hhash. unfold handle_login. rewrite Hpl, Hcred.
  apply hwp_bind. eapply hwp_db; [apply (get_login_info_spec p t); try done; [apply Hrest | apply Hrest | apply Hrest | lia] |].
  intros [ret li] d [Hs [[Hret1 Hdn] | [Hres Hsp]]].
  { simpl in Hret1. subst ret. cbn [Z.eqb]. reply. eexists _, A. split_and!; [done | done | done | done |]. by right. }
  unfold login_expected. destruct (login_result t username) as [li' |].
  2:{ simpl in Hres. subst ret. cbn [Z.eqb]. reply. eexists _, A. split_and!; [done | done | done | done |]. by left. }
  injection Hres as -> ->. cbn [Z.eqb]. destruct (crypt_r env password (li_password_hash li')) as [enc |] eqn:Ec.
  2:{ reply. eexists _, A. split_and!; [done | done | done | done |]. left. by rewrite bool_decide_eq_false_2. }
  case_bool_decide as Hneq.
  { reply. eexists _, A. split_and!; [done | done | done | done |]. left. rewrite bool_decide_eq_false_2; [done |]. congruence. }
  subst enc. rewrite (bool_decide_eq_true_2 (Some _ = Some _)) by done. apply hwp_bind.
  pose proof (session_create_rep (h_sessions s) A (create_alloc env) (t_client_fd task) (li_user_id li') username
     (li_root_path_id li') (create_random env) (create_clock env) HA Hfd Halloc) as [Hdef Hpost].
  specialize (Hret li'). unfold create_session in Hret.
  destruct (session_create (h_sessions s) _ _ _ _ _ _ _) as [[r t1] | |] eqn:Ecr; [| done | done].
  specialize (Hpost r t1 eq_refl). eapply hwp_sessions; [exact Ecr |]. destruct r as [new_id |].
  - destruct Hpost as (now & Hwf & Hne & Hfree & Hbound & HA'). reply.
    eexists _, _. split_and!; [done | done | done | exact HA' |]. left. exists (Some new_id). split; [exact Ecr |].
    by exists now.
  - subst t1. reply. eexists _, A. split_and!; [done | done | done | done |]. left. exists None. by split.
Qed.

(** ** Requests in general *)

(** A request whose working directory and argument are printable ASCII without
    quotes and backslashes and short enough for the buffers of the handlers. *)
Definition modest (task : packet_task) (text : list byte) : Prop :=
  plain (ctx_cwd (t_session task)) /\ plain text /\
  (length (ctx_cwd (t_session task)) + length text <= 380)%nat /\
  Forall (fun name => (length name <= 254)%nat) (destination (ctx_cwd (t_session task)) text).

Lemma modest_path task text :
  modest task text ->
  let cwd := ctx_cwd (t_session task) in
  Z.of_nat (length (path_text cwd text)) < PATH_MAX /\ (length (render (destination cwd text)) <= 382)%nat /\
  plain (render (destination cwd text)).
Proof.
  intros (Hp1 & Hp2 & Hl & _) cwd. fold cwd in Hp1, Hl.
  pose proof (length_path_text cwd text). pose proof (length_destination cwd text).
  split_and!; [unfold PATH_MAX; lia | lia |].
  apply Forall_forall. intros b Hin. apply render_bytes in Hin as [-> | [Hin | Hin]]; [done | |].
  - exact (proj1 (Forall_forall _ cwd) Hp1 b Hin).
  - exact (proj1 (Forall_forall _ text) Hp2 b Hin).
Qed.

Lemma modest_roomy task text :
  modest task text ->
  destination (ctx_cwd (t_session task)) text = [] \/
  exists parent name, roomy (ctx_cwd (t_session task)) text parent name.
Proof.
  intros Hm. destruct (modest_path task text Hm) as (H1 & H2 & H3). destruct Hm as (_ & _ & _ & Hn).
  destruct (destination (ctx_cwd (t_session task)) text) as [| name parent _] eqn:E using rev_ind; [by left |].
  right. exists parent, name. apply Forall_app in Hn as [_ Hn]. inversion_clear Hn as [| ? ? Hname _].
  assert (Hle : (length name <= length (render (parent ++ [name])))%nat).
  { rewrite render_snoc, length_app. simpl. lia. }
  split_and!; [done | done | done | lia | lia | done].
Qed.

(** Nothing of another user changes. *)
Definition isolated (uid : Z) (t t' : tables) : Prop :=
  users t' = users t /\ forall id r, p_user r <> uid -> paths t' !! id = Some r <-> paths t !! id = Some r.

Lemma isolated_refl uid t : isolated uid t t.
Proof. by split. Qed.

Lemma isolated_insert uid t id r fs :
  paths t !! id = None -> p_user r = uid ->
  isolated uid t {| users := users t; files := fs; paths := <[id := r]> (paths t) |}.
Proof.
  intros Hnew Hu. split; [done |]. intros i a Ha. simpl. rewrite lookup_insert_Some. split.
  - intros [[_ <-] | [_ ?]]; [congruence | done].
  - intros Hi. right. split; [congruence | done].
Qed.

Lemma isolated_delete uid t id r fs :
  paths t !! id = Some r -> p_user r = uid ->
  isolated uid t {| users := users t; files := fs; paths := delete id (paths t) |}.
Proof.
  intros Hr Hu. split; [done |]. intros i a Ha. simpl. rewrite lookup_delete_Some. split; [by intros [_ ?] |].
  intros Hi. split; [| done]. intros ->. congruence.
Qed.

Lemma mkdir_expected_ok t uid parent name ty st pl t' :
  tables_ok same_text t -> mkdir_expected t uid parent name ty st pl t' -> tables_ok same_text t' /\ isolated uid t t'.
Proof.
  intros Hok. unfold mkdir_expected. destruct (find_node same_text t uid (render parent)) as [[pid r] |] eqn:Ef.
  2:{ intros (_ & _ & _ & ->). split; [done | apply isolated_refl]. }
  destruct (find_node_dir t uid _ pid r Hok Ef) as (Hr & Hu & Hpid & Hkind).
  destruct (p_type r =? 0); [intros (_ & _ & _ & ->); split; [done | apply isolated_refl] |].
  destruct (find_node same_text t uid (render (parent ++ [name]))) eqn:En.
  - intros (_ & _ & _ & ->). split; [done | apply isolated_refl].
  - intros (_ & _ & _ & id & Hf & ->). split.
    + apply (tables_ok_mkdir _ same_text_equiv); [done | apply Hf | apply Hf | done | apply Hkind].
    + apply isolated_insert; [apply Hf | done].
Qed.

Lemma not_root_parent t uid path id r :
  tables_ok same_text t -> same_text path [SLASH] = false -> find_node same_text t uid path = Some (id, r) ->
  p_parent r <> None.
Proof.
  intros Hok Hroot Hf Hp. apply (find_node_Some _ same_text_equiv) in Hf as (Hr & Hu & Hs); [| done].
  pose proof (path_parent _ t Hok id r Hr) as Hpar. unfold parent_ok in Hpar. rewrite Hp in Hpar. rewrite Hpar in Hs.
  apply (@Equivalence_Symmetric _ _ same_text_equiv) in Hs. congruence.
Qed.

Lemma rmdir_expected_ok t uid target name ty st pl t' :
  tables_ok same_text t -> same_text target [SLASH] = false ->
  rmdir_expected t uid target name ty st pl t' -> tables_ok same_text t' /\ isolated uid t t'.
Proof.
  intros Hok Hroot. unfold rmdir_expected. destruct (find_node same_text t uid target) as [[id r] |] eqn:Ef.
  2:{ intros (_ & _ & _ & ->). split; [done | apply isolated_refl]. }
  destruct (find_node_dir t uid _ id r Hok Ef) as (Hr & Hu & Hid & Hkind).
  destruct (p_type r =? 0); [intros (_ & _ & _ & ->); split; [done | apply isolated_refl] |].
  case_bool_decide as Hc; intros (_ & _ & _ & ->); [| split; [done | apply isolated_refl]]. split.
  - eapply (tables_ok_rmdir _); [done | done | done | apply Hkind | by eapply not_root_parent | done].
  - by eapply isolated_delete.
Qed.

Lemma rm_tables_ok t uid id r fid f :
  tables_ok same_text t -> file_at t uid id r fid f ->
  tables_ok same_text (rm_tables t id fid f) /\ isolated uid t (rm_tables t id fid f).
Proof.
  intros Hok []. split; [by eapply (tables_ok_rm _ same_text_equiv) | by eapply isolated_delete].
Qed.

Lemma rm_expected_ok t task path rs t' deleted :
  tables_ok same_text t -> rm_expected t task path rs t' deleted ->
  tables_ok same_text t' /\ isolated (ctx_user_id (t_session task)) t t' /\ (1 <= length rs <= 2)%nat.
Proof.
  intros Hok. unfold rm_expected. destruct (find_node same_text t _ path) as [[id r] |].
  2:{ intros (-> & -> & _). split_and!; [done | apply isolated_refl | simpl; lia | simpl; lia]. }
  destruct (p_type r =? 0).
  2:{ intros (-> & -> & _). split_and!; [done | apply isolated_refl | simpl; lia | simpl; lia]. }
  intros (fid & f & Hat & -> & Hrs). destruct (rm_tables_ok _ _ _ _ _ _ Hok Hat). split_and!; [done | done | |];
    destruct (f_refs f =? 1); [destruct (unlink_ok env _) | | destruct (unlink_ok env _) |];
    destruct Hrs as [-> _]; simpl; lia.
Qed.

(** ** Every request is answered *)

Lemma copy_payload_mono task c text :
  c <= PATH_MAX -> copy_payload task c false = Some text -> copy_payload task PATH_MAX false = Some text.
Proof.
  intros Hc. unfold copy_payload. cbn [andb]. rewrite !orb_false_r.
  destruct (Z.leb_spec c (payload_len (header (t_packet task)))); [done |].
  by destruct (Z.leb_spec PATH_MAX (payload_len (header (t_packet task)))); [lia |].
Qed.

Section answered.
Context (p : database_pool) (t : tables) (A : table_spec) (task : packet_task) (s : handler_state).
Context (Hrest : at_rest p t s) (HA : rep (h_sessions s) A).
Context (Hsid : session_id_wf (session_id_of (header (t_packet task)))).
Context (Huid : is_u64 (ctx_user_id (t_session task))).
Context (Hcwd : Z.of_nat (length (ctx_cwd (t_session task))) < PATH_MAX).
Context (Hmod : forall text, copy_payload task PATH_MAX false = Some text -> modest task text).
Context (Hfew : forall uid id, Z.of_nat (length (children t uid id)) < 2 ^ 31).
Context (Hrefs : forall i f, files t !! i = Some f -> f_refs f < 2 ^ 31).
Context (Hroot : forall text, copy_payload task PATH_MAX false = Some text ->
  destination (ctx_cwd (t_session task)) text <> [] ->
  same_text (render (destination (ctx_cwd (t_session task)) text)) [SLASH] = false).

Definition answered (u : unit) (s' : handler_state) : Prop :=
  exists rs t' A', h_sent s' = h_sent s ++ rs /\ (1 <= length rs <= 2)%nat /\
    settled p t' (h_db s') /\ tables_ok same_text t' /\ rep (h_sessions s') A' /\
    isolated (ctx_user_id (t_session task)) t t'.

Lemma replied_answered ty st pl t' s' :
  replied p task s ty st pl t' s' -> tables_ok same_text t' -> isolated (ctx_user_id (t_session task)) t t' ->
  answered tt s'.
Proof.
  intros [Hs Hd Hss _] Hok Hiso. eexists _, t', A. rewrite Hss. split_and!; [exact Hs | simpl; lia | simpl; lia | done ..].
Qed.

Lemma unchanged_answered ty st pl s' : replied p task s ty st pl t s' -> answered tt s'.
Proof. intros Hr. eapply replied_answered; [done | apply Hrest | apply isolated_refl]. Qed.

Lemma say_answered ty st pl : small pl -> hwp (send_response task ty st pl) answered s.
Proof.
  intros Hs. unfold send_response. apply hwp_send; [done |].
  eapply (unchanged_answered ty st pl). split; [done | apply Hrest | done | done].
Qed.

Lemma pwd_answered : hwp (handle_pwd task) answered s.
Proof. apply say_answered, small_some. unfold MAX_PACKET_PAYLOAD, PATH_MAX in *. lia. Qed.

Lemma cd_answered : hwp (handle_cd env task) answered s.
Proof.
  destruct (copy_payload task PATH_MAX false) as [text |] eqn:Ec.
  2:{ unfold handle_cd. rewrite Ec. apply say_answered, small_none. }
  destruct (modest_path task text (Hmod text eq_refl)) as (H1 & H2 & H3).
  eapply hwp_mono; [apply (handle_cd_spec p t A task text s); try done |].
  - split_and!; [done | |]; unfold cd_path; destruct text; try done; [simpl; lia | lia | apply plain_root].
  - intros [] s' (ty & st & pl & A' & Hsent & Hd & _ & HA' & _).
    eexists _, t, A'. split_and!; [exact Hsent | simpl; lia | simpl; lia | done | apply Hrest | done | apply isolated_refl].
Qed.

Lemma ls_answered : hwp (handle_ls task) answered s.
Proof.
  destruct (copy_payload task PATH_MAX false) as [text |] eqn:Ec.
  2:{ unfold handle_ls. rewrite Ec. apply say_answered, small_none. }
  pose proof (Hmod text eq_refl) as Hm. destruct (modest_path task text Hm) as (H1 & H2 & H3).
  destruct Hm as (Hpc & _ & Hlc & _).
  eapply hwp_mono; [apply (handle_ls_spec p t task text s); try done |].
  - unfold ls_path. destruct text; lia.
  - unfold ls_path. by destruct text.
  - intros [] s' (ty & st & pl & Hrep & _). by eapply unchanged_answered.
Qed.

(** The cases in which [mkdir], [rmdir] and [rm] go on with a path *)
Lemma name_text : forall text, copy_payload task NAME_MAX false = Some text -> modest task text.
Proof. intros text Hc. apply Hmod. eapply copy_payload_mono; [| done]. unfold NAME_MAX, PATH_MAX. lia. Qed.

Lemma root_request text : modest task text -> destination (ctx_cwd (t_session task)) text = [] ->
  normalize_cd_path (ctx_cwd (t_session task)) text PATH_MAX = Ret (Some [SLASH]).
Proof.
  intros Hm Hd. destruct (modest_path task text Hm) as (H1 & H2 & _).
  rewrite normalize_destination; [by rewrite Hd | done | unfold PATH_MAX; lia].
Qed.

Lemma mkdir_answered : hwp (handle_mkdir task) answered s.
Proof.
  destruct (copy_payload task NAME_MAX false) as [text |] eqn:Ec.
  2:{ unfold handle_mkdir. rewrite Ec. apply say_answered, small_none. }
  pose proof (name_text text Ec) as Hm. destruct (modest_roomy task text Hm) as [Hd | (parent & name & Hroom)].
  - unfold handle_mkdir. rewrite Ec. apply hwp_bind. eapply hwp_lift; [by apply root_request |]. cbv beta iota.
    rewrite bool_decide_eq_true_2 by done. apply say_answered, small_none.
  - eapply hwp_mono; [by eapply (handle_mkdir_spec p t task text parent name s) |].
    intros [] s' (ty & st & pl & t' & Hrep & [Hexp | (_ & _ & -> & _)]); [| by eapply unchanged_answered].
    destruct (mkdir_expected_ok _ _ _ _ _ _ _ _ (ar_ok _ _ _ Hrest) Hexp). by eapply replied_answered.
Qed.

Lemma rmdir_answered : hwp (handle_rmdir task) answered s.
Proof.
  destruct (copy_payload task NAME_MAX false) as [text |] eqn:Ec.
  2:{ unfold handle_rmdir. rewrite Ec. apply say_answered, small_none. }
  pose proof (name_text text Ec) as Hm. destruct (modest_roomy task text Hm) as [Hd | (parent & name & Hroom)].
  - unfold handle_rmdir. rewrite Ec. apply hwp_bind. eapply hwp_lift; [by apply root_request |]. cbv beta iota.
    rewrite bool_decide_eq_true_2 by done. apply say_answered, small_none.
  - eapply hwp_mono; [by eapply (handle_rmdir_spec p t task text parent name s) |].
    intros [] s' (ty & st & pl & t' & Hrep & [Hexp | (_ & _ & -> & _)]); [| by eapply unchanged_answered].
    destruct (roomy_parts _ _ _ _ Hroom) as (_ & _ & _ & _ & Hne & _).
    destruct Hroom as (Hdest & _).
    assert (Hdiff : same_text (render (parent ++ [name])) [SLASH] = false).
    { rewrite <- Hdest. apply Hroot; [| rewrite Hdest; by destruct parent].
      eapply copy_payload_mono; [| done]. unfold NAME_MAX, PATH_MAX. lia. }
    destruct (rmdir_expected_ok _ _ _ _ _ _ _ _ (ar_ok _ _ _ Hrest) Hdiff Hexp). by eapply replied_answered.
Qed.

Lemma rm_answered : hwp (handle_rm env task) answered s.
Proof.
  destruct (copy_payload task NAME_MAX false) as [text |] eqn:Ec.
  2:{ unfold handle_rm. rewrite Ec. apply say_answered, small_none. }
  destruct (modest_path task text (name_text text Ec)) as (H1 & H2 & H3).
  eapply hwp_mono; [apply (handle_rm_spec p t task text s); try done; lia |].
  intros [] s' (rs & t' & del & Hsent & Hd & Hss & _ & Hcase).
  exists rs, t', A. rewrite Hss.
  destruct Hcase as [Hexp | (_ & _ & (st & pl & ->) & Ht)].
  - destruct (rm_expected_ok _ _ _ _ _ _ (ar_ok _ _ _ Hrest) Hexp) as (? & ? & ? & ?). split_and!; done.
  - destruct Ht as [-> | (id & r & fid & f & Hat & ->)].
    + split_and!; [done | simpl; lia | simpl; lia | done | apply Hrest | done | apply isolated_refl].
    + destruct (rm_tables_ok _ _ _ _ _ _ (ar_ok _ _ _ Hrest) Hat).
      split_and!; [done | simpl; lia | simpl; lia | done ..].
Qed.

End answered.

End hwp.

(** ** Properties *)

Section properties.
Context {M : MySQL} {Spec : MySQLSpec M} {Stored : MySQLStored M Spec} {Up : MySQLUp M Spec} (env : handler_env).

(** [handle_mkdir] answers exactly once and creates the directory exactly
    when its parent is a directory of the user and the path is free; otherwise it
    reports which of these fails (missing parent, parent is a file, already
    exists) and changes nothing.  The tree and reference-count invariant holds
    again, and no row of another user changes.  Any other error means that the
    server did not stay up. *)
Theorem handle_mkdir_correct p t task text parent name s :
  at_rest p t s -> is_u64 (ctx_user_id (t_session task)) -> copy_payload task NAME_MAX false = Some text ->
  roomy (ctx_cwd (t_session task)) text parent name ->
  exists s' ty st pl t', handle_mkdir task s = Ret (tt, s') /\ replied p task s ty st pl t' s' /\
    tables_ok same_text t' /\ isolated (ctx_user_id (t_session task)) t t' /\
    (mkdir_expected t (ctx_user_id (t_session task)) parent name ty st pl t' \/
     (ty = CMD_ERROR /\ st = STATUS_OTHER_ERROR /\ t' = t /\ ~ up 2 (srv (h_db s)))).
Proof.
  intros Hrest Huid Hpl Hroom.
  destruct (handle_mkdir_spec p t task text parent name s Hrest Huid Hpl Hroom) as ([] & s' & Hret & ty & st & pl & t' & Hrep & Hexp).
  exists s', ty, st, pl, t'. pose proof (ar_ok _ _ _ Hrest) as Hok.
  assert (tables_ok same_text t' /\ isolated (ctx_user_id (t_session task)) t t') as [].
  { destruct Hexp as [Hexp | (_ & _ & -> & _)]; [by eapply mkdir_expected_ok | split; [done | apply isolated_refl]]. }
  done.
Qed.

(** [handle_rmdir] answers exactly once and removes the directory exactly
    when it exists, is a directory and has no children; otherwise it reports which
    of these fails and changes nothing.  If the path is not equal to the root
    under the collation of the database, the invariant holds again: no directory
    loses a parent and no user loses the root. *)
Theorem handle_rmdir_correct p t task text parent name s :
  at_rest p t s -> is_u64 (ctx_user_id (t_session task)) -> copy_payload task NAME_MAX false = Some text ->
  roomy (ctx_cwd (t_session task)) text parent name ->
  (forall uid id, Z.of_nat (length (children t uid id)) < 2 ^ 31) ->
  same_text (render (parent ++ [name])) [SLASH] = false ->
  exists s' ty st pl t', handle_rmdir task s = Ret (tt, s') /\ replied p task s ty st pl t' s' /\
    tables_ok same_text t' /\ isolated (ctx_user_id (t_session task)) t t' /\
    (rmdir_expected t (ctx_user_id (t_session task)) (render (parent ++ [name])) name ty st pl t' \/
     (ty = CMD_ERROR /\ st = STATUS_OTHER_ERROR /\ t' = t /\ ~ up 3 (srv (h_db s)))).
Proof.
  intros Hrest Huid Hpl Hroom Hfew Hroot.
  destruct (handle_rmdir_spec p t task text parent name s Hrest Huid Hpl Hroom Hfew) as ([] & s' & Hret & ty & st & pl & t' & Hrep & Hexp).
  exists s', ty, st, pl, t'. pose proof (ar_ok _ _ _ Hrest) as Hok.
  assert (tables_ok same_text t' /\ isolated (ctx_user_id (t_session task)) t t') as [].
  { destruct Hexp as [Hexp | (_ & _ & -> & _)]; [by eapply rmdir_expected_ok | split; [done | apply isolated_refl]]. }
  done.
Qed.

End properties.

(** ** Properties that hold of a server that may fail *)

Section any_server.
Context {M : MySQL} {Spec : MySQLSpec M} {Stored : MySQLStored M Spec} (env : handler_env).

(** (C28) Only the right password opens a session.  For a user name in printable
    ASCII without quotes and backslashes (the name goes into the statement
    unescaped, so that any other name is an SQL fragment of the client's choosing),
    [handle_login] answers exactly once; an acknowledgement carries the id of a new
    session, and means that the name belongs to a user whose stored hash is
    [crypt_r] of the password with itself as setting, and that the session is bound
    to the connection, belongs to that user and stands in that user's root
    directory.  With any other answer the session table is unchanged; the database
    never changes. *)
Theorem handle_login_authentic p t A task text username password s :
  at_rest p t s -> rep (h_sessions s) A -> t_client_fd task <= int_max ->
  (forall sa ba, create_alloc env = Some (sa, ba) -> fresh_session (h_sessions s) sa /\ fresh_binding (h_sessions s) ba) ->
  (forall li, create_session env task li username (h_sessions s) <> NoReturn) ->
  copy_payload task 128 true = Some text -> credentials text = Some (username, password) ->
  plain username -> (length username <= 400)%nat ->
  (forall uid u, find_user t username = Some (uid, u) -> Z.of_nat (length (u_hash u)) < CRYPT_OUTPUT_SIZE) ->
  exists s' resp A', handle_login env task s = Ret (tt, s') /\ h_sent s' = h_sent s ++ [resp] /\
    settled p t (h_db s') /\ rep (h_sessions s') A' /\
    (A' = A /\ type (header resp) = CMD_ERROR \/
     exists uid u rid r now, type (header resp) = CMD_ACK /\
       users t !! uid = Some u /\ same_text (u_name u) username = true /\
       crypt_r env password (u_hash u) = Some (u_hash u) /\
       paths t !! rid = Some r /\ p_user r = uid /\ p_type r = 1 /\
       live A !! session_id_of (header resp) = None /\
       A' = spec_create (t_client_fd task) (session_id_of (header resp)) (as_new uid rid username now) A).
Proof.
  pose (never_up M Spec) as Up. intros Hrest HA Hfd Halloc Hret Hpl Hcred Hpu Hlu Hhash.
  destruct (handle_login_spec env p t A task text username password s Hrest HA Hfd Halloc Hret Hpl Hcred Hpu Hlu Hhash)
    as ([] & s' & Hrun & resp & A' & Hs & Hd & _ & HA' & Hexp).
  exists s', resp, A'. split_and!; [done | done | done | done |].
  destruct Hexp as [Hexp | (-> & -> & _)]; [| by left]. unfold login_expected, login_result in Hexp.
  destruct (find_user t username) as [[uid u] |] eqn:Eu; [| destruct Hexp as [-> ->]; by left].
  pose proof (ar_ok _ _ _ Hrest) as Hok. apply find_user_Some in Eu as [Hu Hn]; [| done].
  destruct (find_root t uid u Hok Hu) as (rid & r & Hroot & _ & Ht). rewrite Hroot in Hexp.
  cbn [mbind option_bind fst li_password_hash li_user_id li_root_path_id] in Hexp.
  case_bool_decide as Hcr; [| destruct Hexp as [-> ->]; by left]. destruct Hexp as ([new_id |] & _ & Hexp).
  - destruct Hexp as (now & -> & _ & _ & Hfree & _ & ->). right.
    apply (find_node_Some _ same_text_equiv) in Hroot as (Hr & Hur & _); [| done].
    exists uid, u, rid, r, now. done.
  - destruct Hexp as [-> ->]. by left.
Qed.

(** (C18) The file commands are answered safely, whatever errors the database
    reports.  For [pwd], [cd], [ls], [mkdir], [rmdir] and [rm] with a short argument
    and working directory in printable ASCII without quotes and backslashes, a path
    that the collation does not identify with the root, and a client library that
    can store its result sets, the handler returns without undefined behaviour,
    gives its database connection back, leaves no transaction open, sends one
    response (or the two of a failed [unlink]), keeps the invariant of the tables
    and the session table well formed, and changes no row of another user. *)
Theorem basic_request_safe p t A task s :
  at_rest p t s -> rep (h_sessions s) A -> session_id_wf (session_id_of (header (t_packet task))) ->
  is_u64 (ctx_user_id (t_session task)) -> Z.of_nat (length (ctx_cwd (t_session task))) < PATH_MAX ->
  (forall text, copy_payload task PATH_MAX false = Some text -> modest task text) ->
  (forall uid id, Z.of_nat (length (children t uid id)) < 2 ^ 31) ->
  (forall i f, files t !! i = Some f -> f_refs f < 2 ^ 31) ->
  (forall text, copy_payload task PATH_MAX false = Some text -> destination (ctx_cwd (t_session task)) text <> [] ->
     same_text (render (destination (ctx_cwd (t_session task)) text)) [SLASH] = false) ->
  type (header (t_packet task)) ∈ [CMD_PWD; CMD_CD; CMD_LS; CMD_MKDIR; CMD_RMDIR; CMD_RM] ->
  hwp (dispatch env task) (fun _ s' => exists rs t' A', h_sent s' = h_sent s ++ rs /\ (1 <= length rs <= 2)%nat /\
    settled p t' (h_db s') /\ tables_ok same_text t' /\ rep (h_sessions s') A' /\
    isolated (ctx_user_id (t_session task)) t t') s.
Proof.
  pose (never_up M Spec) as Up. intros Hrest HA Hsid Huid Hcwd Hmod Hfew Hrefs Hroot Hty. unfold dispatch.
  assert (Hcases : type (header (t_packet task)) = CMD_PWD \/ type (header (t_packet task)) = CMD_CD \/
    type (header (t_packet task)) = CMD_LS \/ type (header (t_packet task)) = CMD_MKDIR \/
    type (header (t_packet task)) = CMD_RMDIR \/ type (header (t_packet task)) = CMD_RM) by set_solver.
  destruct Hcases as [-> | [-> | [-> | [-> | [-> | ->]]]]].
  - by eapply pwd_answered.
  - by eapply cd_answered.
  - by eapply ls_answered.
  - by eapply mkdir_answered.
  - by eapply rmdir_answered.
  - by eapply rm_answered.
Qed.

End any_server.


(** ** Witnesses *)

Definition demo_crypt (phrase setting : list byte) : option (list byte) :=
  if bool_decide (plain phrase /\ (length phrase <= 100)%nat) then Some (lit "$6$" ++ phrase) else None.

Definition demo_env : handler_env := {|
  crypt_r := demo_crypt; urandom := Some (replicate 16 x41); create_alloc := Some (8%N, 16%N);
  create_random := [RandomBytes demo_id]; create_clock := demo_clock; cwd_clock := demo_clock 0;
  unlink_ok := fun _ => true |}.

(** A request of alice, from her root directory *)
Definition demo_task (ty : cmd_type) (text : list byte) : packet_task := {|
  t_client_fd := 5; t_epoll_fd := 3;
  t_packet := {| header := {| type := ty; status := STATUS_OK; payload_len := Z.of_nat (length text);
                              session_id_of := demo_id |}; payload := Some text; owns_payload := true |};
  t_session := {| ctx_user_id := 1; ctx_cwd_id := 2; ctx_username := lit "alice"; ctx_cwd := [SLASH] |};
  t_storage_root := lit "/srv" |}.

Definition demo_handler (t : tables) (sessions : session_table) : @handler_state demo_mysql :=
  {| h_db := demo_state t; h_sessions := sessions; h_sent := []; h_unlinked := [] |}.

Definition state_after {A S} (o : outcome (A * S)) (d : S) : S := match o with Ret (_, s) => s | _ => d end.

Lemma value_after {A S} (o : outcome (A * S)) a d : value o = Some a -> o = Ret (a, state_after o d).
Proof. destruct o as [[b s] | |]; simpl; try done. by intros [= ->]. Qed.

(** A check for [below] on concrete tables *)
Definition keys_below {A} (c : Z) (m : gmap Z A) : bool := forallb (fun ir => fst ir <? c) (map_to_list m).

Lemma keys_below_spec {A} c (m : gmap Z A) id : keys_below c m = true -> c <= id -> m !! id = None.
Proof.
  intros Hk Hid. destruct (m !! id) as [a |] eqn:E; [| done]. unfold keys_below in Hk.
  rewrite forallb_forall in Hk. apply elem_of_map_to_list, list_elem_of_In in E.
  apply Hk in E. simpl in E. apply Z.ltb_lt in E. lia.
Qed.

Lemma below_check t c : keys_below c (users t) && keys_below c (files t) && keys_below c (paths t) = true -> below t c.
Proof.
  intros Hc id Hid. apply andb_prop in Hc as [[H1 H2]%andb_prop H3].
  split_and!; by eapply keys_below_spec.
Qed.

Lemma demo_rest3 sessions : at_rest demo_pool demo_tables3 (demo_handler demo_tables3 sessions).
Proof. split; [exact demo_free | apply demo_settled | exact demo_tables3_ok]. Qed.

Lemma handle_mkdir_correct_witness :
  exists s' ty st pl t', handle_mkdir (demo_task CMD_MKDIR (lit "docs/new")) (demo_handler demo_tables3 demo_table) = Ret (tt, s') /\
    replied demo_pool (demo_task CMD_MKDIR (lit "docs/new")) (demo_handler demo_tables3 demo_table) ty st pl t' s' /\
    tables_ok strcaseeq t' /\ h_sent s' = [response CMD_ACK STATUS_OK demo_id (Some (lit "new"))].
Proof.
  destruct (handle_mkdir_correct demo_pool demo_tables3 (demo_task CMD_MKDIR (lit "docs/new")) (lit "docs/new")
    [lit "docs"] (lit "new") (demo_handler demo_tables3 demo_table)) as (s' & ty & st & pl & t' & Hret & Hrep & Hok & _).
  - apply demo_rest3.
  - by vm_compute.
  - by vm_compute.
  - split_and!; first [by vm_compute | vm_compute; lia | apply (bool_decide_unpack _); vm_compute; exact I].
  - exists s', ty, st, pl, t'. split; [exact Hret |]. split; [exact Hrep |]. split; [exact Hok |].
    assert (Hv : h_sent (state_after (handle_mkdir (demo_task CMD_MKDIR (lit "docs/new"))
      (demo_handler demo_tables3 demo_table)) (demo_handler demo_tables3 demo_table)) =
      [response CMD_ACK STATUS_OK demo_id (Some (lit "new"))]) by (vm_compute; reflexivity).
    rewrite Hret in Hv. exact Hv.
Defined.

Lemma demo_few uid id : Z.of_nat (length (children demo_tables3 uid id)) < 2 ^ 31.
Proof.
  assert (Hle : (length (children demo_tables3 uid id) <= length (map_to_list (paths demo_tables3)))%nat).
  { unfold children, paths_where. apply List.filter_length_le. }
  change (length (map_to_list (paths demo_tables3))) with 3%nat in Hle. lia.
Qed.

Lemma demo_refs i f : files demo_tables3 !! i = Some f -> f_refs f < 2 ^ 31.
Proof.
  intros Hf. cbn in Hf. apply lookup_insert_Some in Hf as [[<- <-] | [_ Hf]]; [by vm_compute | done].
Qed.

Lemma handle_rmdir_correct_witness :
  exists s' ty st pl t', handle_rmdir (demo_task CMD_RMDIR (lit "docs")) (demo_handler demo_tables3 demo_table) = Ret (tt, s') /\
    replied demo_pool (demo_task CMD_RMDIR (lit "docs")) (demo_handler demo_tables3 demo_table) ty st pl t' s' /\
    tables_ok strcaseeq t' /\ h_sent s' = [response CMD_ERROR STATUS_DIR_NOTEMPTY demo_id (Some (lit "docs"))].
Proof.
  destruct (handle_rmdir_correct demo_pool demo_tables3 (demo_task CMD_RMDIR (lit "docs")) (lit "docs")
    [] (lit "docs") (demo_handler demo_tables3 demo_table)) as (s' & ty & st & pl & t' & Hret & Hrep & Hok & _).
  - apply demo_rest3.
  - by vm_compute.
  - by vm_compute.
  - split_and!; first [by vm_compute | vm_compute; lia | apply (bool_decide_unpack _); vm_compute; exact I].
  - exact demo_few.
  - by vm_compute.
  - exists s', ty, st, pl, t'. split; [exact Hret |]. split; [exact Hrep |]. split; [exact Hok |].
    assert (Hv : h_sent (state_after (handle_rmdir (demo_task CMD_RMDIR (lit "docs"))
      (demo_handler demo_tables3 demo_table)) (demo_handler demo_tables3 demo_table)) =
      [response CMD_ERROR STATUS_DIR_NOTEMPTY demo_id (Some (lit "docs"))]) by (vm_compute; reflexivity).
    rewrite Hret in Hv. exact Hv.
Defined.

Lemma basic_request_safe_witness :
  hwp (dispatch demo_env (demo_task CMD_RM (lit "docs/a.txt"))) (fun _ s' => exists rs t' A',
    h_sent s' = h_sent (demo_handler demo_tables3 demo_table) ++ rs /\ (1 <= length rs <= 2)%nat /\
    settled demo_pool t' (h_db s') /\ tables_ok same_text t' /\ rep (h_sessions s') A' /\
    isolated (ctx_user_id (t_session (demo_task CMD_RM (lit "docs/a.txt")))) demo_tables3 t') (demo_handler demo_tables3 demo_table).
Proof.
  destruct demo_rep as (A & HA & _).
  apply (basic_request_safe demo_env demo_pool demo_tables3 A (demo_task CMD_RM (lit "docs/a.txt"))
           (demo_handler demo_tables3 demo_table)).
  - apply demo_rest3.
  - exact HA.
  - by vm_compute.
  - by vm_compute.
  - by vm_compute.
  - intros text Ht. assert (Hc : copy_payload (demo_task CMD_RM (lit "docs/a.txt")) PATH_MAX false = Some (lit "docs/a.txt"))
      by (vm_compute; reflexivity).
    rewrite Hc in Ht. injection Ht as <-. apply (bool_decide_unpack _). vm_compute. exact I.
  - exact demo_few.
  - exact demo_refs.
  - intros text Ht _. assert (Hc : copy_payload (demo_task CMD_RM (lit "docs/a.txt")) PATH_MAX false = Some (lit "docs/a.txt"))
      by (vm_compute; reflexivity).
    rewrite Hc in Ht. injection Ht as <-. vm_compute. reflexivity.
  - apply (bool_decide_unpack _). vm_compute. exact I.
Defined.

Lemma demo_create_session task li name :
  t_client_fd task = 5 -> name = lit "alice" ->
  create_session demo_env task li name demo_empty =
    Ret (Some demo_id, state_after (create_session demo_env task li name demo_empty) demo_empty).
Proof.
  intros Hfd ->. apply value_after. unfold create_session. rewrite Hfd. destruct li. vm_compute. reflexivity.
Qed.

Definition demo_users : tables := register_tables demo_tables0 1 2 (lit "alice") (lit "$6$secret").

Lemma demo_users_ok : tables_ok strcaseeq demo_users.
Proof.
  apply tables_ok_register; [exact strcaseeq_equiv | apply tables_ok_empty | lia | done | | lia | done].
  intros (i & u & Hi & _). done.
Qed.

Lemma handle_login_authentic_witness :
  exists s' resp A', handle_login demo_env (demo_task CMD_LOGIN_REQ (lit "alice
secret")) (demo_handler demo_users demo_empty) = Ret (tt, s') /\ h_sent s' = [] ++ [resp] /\ rep (h_sessions s') A' /\
    type (header resp) = CMD_ACK.
Proof.
  destruct (handle_login_authentic demo_env demo_pool demo_users empty_spec (demo_task CMD_LOGIN_REQ (lit "alice
secret")) (lit "alice
secret") (lit "alice") (lit "secret") (demo_handler demo_users demo_empty))
    as (s' & resp & A' & Hret & Hs & _ & HA' & _).
  - split; [exact demo_free | apply demo_settled | exact demo_users_ok].
  - exact demo_empty_rep.
  - by vm_compute.
  - intros sa ba [= <- <-]. exact demo_fresh.
  - intros li. rewrite demo_create_session; [intros Hc; discriminate Hc | reflexivity | reflexivity].
  - by vm_compute.
  - by vm_compute.
  - apply (bool_decide_unpack _). vm_compute. exact I.
  - vm_compute. lia.
  - intros uid u Hf. assert (Hu : find_user demo_users (lit "alice") = Some (1, {| u_name := lit "alice"; u_hash := lit "$6$secret" |}))
      by (vm_compute; reflexivity).
    rewrite Hu in Hf. injection Hf as <- <-. by vm_compute.
  - exists s', resp, A'. split; [exact Hret |]. split; [exact Hs |]. split; [exact HA' |].
    assert (Hv : (type ∘ header) <$> h_sent (state_after (handle_login demo_env (demo_task CMD_LOGIN_REQ (lit "alice
secret")) (demo_handler demo_users demo_empty)) (demo_handler demo_users demo_empty)) = [CMD_ACK]) by (vm_compute; reflexivity).
    rewrite Hret in Hv. simpl in Hv. rewrite Hs in Hv. by injection Hv.
Defined.

Definition demo_register : packet_task := demo_task CMD_REGISTER_REQ (lit "alice
secret").
Definition demo_registered : @handler_state demo_mysql :=
  state_after (handle_register demo_env demo_register (demo_handler demo_tables0 demo_empty))
    (demo_handler demo_tables0 demo_empty).

