(* ===== verification/Files.v ===== *)
(** * Files: the system calls on regular files, [write_n] and the hash of a file

    A file system maps paths to inodes and inodes to contents; an open file is
    an inode with a position.  The answers of the kernel and of OpenSSL are a
    script: each call takes the next answer, and every call succeeds once the
    script is exhausted. *)

From Stdlib Require Import Strings.Byte.
From S2P Require Import Prelude CString.

Inductive io_answer :=
| IoOk
| IoCount (n : nat)    (** a [read] or [write] of at most [n] bytes *)
| IoEintr
| IoEexist
| IoError.

Record fs := {
  dir : gmap (list byte) N;
  data : gmap N (list byte);
  opened : Z;              (** descriptors of regular files that are open *)
  io : list io_answer
}.

Record ofile := { ino : N; pos : nat }.

Definition set_io (f : fs) (l : list io_answer) : fs :=
  {| dir := dir f; data := data f; opened := opened f; io := l |}.
Definition set_dir (f : fs) (d : gmap (list byte) N) : fs :=
  {| dir := d; data := data f; opened := opened f; io := io f |}.
Definition set_data (f : fs) (d : gmap N (list byte)) : fs :=
  {| dir := dir f; data := d; opened := opened f; io := io f |}.
Definition add_opened (f : fs) (n : Z) : fs :=
  {| dir := dir f; data := data f; opened := opened f + n; io := io f |}.

Definition next_answer (f : fs) : io_answer * fs :=
  match io f with
  | [] => (IoOk, f)
  | a :: l => (a, set_io f l)
  end.

Definition answer_ok (a : io_answer) : bool :=
  match a with IoOk | IoCount _ => true | _ => false end.

Definition content (f : fs) (i : N) : list byte := default [] (data f !! i).

(** ** System calls *)

(** [open(path, O_RDONLY)] *)
Definition open_read (path : list byte) (f : fs) : option ofile * fs :=
  let '(a, f) := next_answer f in
  if answer_ok a then
    match dir f !! path with
    | None => (None, f)
    | Some i => (Some {| ino := i; pos := 0 |}, add_opened f 1)
    end
  else (None, f).

(** [open(path, O_CREAT | O_RDWR, 0666)] *)
Definition open_create (path : list byte) (f : fs) : option ofile * fs :=
  let '(a, f) := next_answer f in
  if answer_ok a then
    match dir f !! path with
    | Some i => (Some {| ino := i; pos := 0 |}, add_opened f 1)
    | None =>
        let i := fresh (dom (data f)) in
        (Some {| ino := i; pos := 0 |},
         add_opened (set_data (set_dir f (<[path := i]> (dir f))) (<[i := []]> (data f))) 1)
    end
  else (None, f).

Definition close (f : fs) : fs := add_opened f (-1).

(** A call that only succeeds or fails: [fsync], [EVP_...] *)
Definition call (f : fs) : bool * fs :=
  let '(a, f) := next_answer f in (answer_ok a, f).

(** [fstat], with [st_size] *)
Definition fstat_size (o : ofile) (f : fs) : option Z * fs :=
  let '(ok, f) := call f in
  (if ok then Some (Z.of_nat (length (content f (ino o)))) else None, f).

(** [ftruncate(fd, 0)] *)
Definition ftruncate0 (o : ofile) (f : fs) : bool * fs :=
  let '(ok, f) := call f in
  if ok then (true, set_data f (<[ino o := []]> (data f))) else (false, f).

(** [lseek(fd, offset, SEEK_SET)]; an offset that [off_t] cannot hold is refused *)
Definition lseek (o : ofile) (offset : Z) (f : fs) : option ofile * fs :=
  let '(ok, f) := call f in
  if ok && (offset <? 2 ^ 63) then (Some {| ino := ino o; pos := Z.to_nat offset |}, f) else (None, f).

Inductive read_result := ReadBytes (l : list byte) | ReadEintr | ReadError.

(** [read(fd, buffer, size)]: at least one byte unless at the end *)
Definition read (o : ofile) (size : nat) (f : fs) : read_result * ofile * fs :=
  let '(a, f) := next_answer f in
  let get n :=
    let l := take n (drop (pos o) (content f (ino o))) in
    (ReadBytes l, {| ino := ino o; pos := pos o + length l |}, f) in
  match a with
  | IoOk => get size
  | IoCount n => get (Nat.min size (Nat.max 1 n))
  | IoEintr => (ReadEintr, o, f)
  | _ => (ReadError, o, f)
  end.

(** The bytes of a file after [l] was written at [p]; a gap is filled with zeros. *)
Definition overwrite (p : nat) (l content : list byte) : list byte :=
  match l with
  | [] => content
  | _ => take p (content ++ replicate p NUL) ++ l ++ drop (p + length l) content
  end.

Definition store (o : ofile) (l : list byte) (f : fs) : ofile * fs :=
  ({| ino := ino o; pos := pos o + length l |},
   set_data f (<[ino o := overwrite (pos o) l (content f (ino o))]> (data f))).

(** [unlink(path)], [rename(from, to)] and [access(path, F_OK)] *)
Definition fs_unlink (path : list byte) (f : fs) : fs :=
  let '(ok, f) := call f in if ok then set_dir f (delete path (dir f)) else f.

(** The answer is [None] on success, and otherwise whether [errno] is [EEXIST]. *)
Definition rename (from to : list byte) (f : fs) : option bool * fs :=
  let '(a, f) := next_answer f in
  if answer_ok a then
    match dir f !! from with
    | Some i => (None, set_dir f (<[to := i]> (delete from (dir f))))
    | None => (Some false, f)
    end
  else (Some (match a with IoEexist => true | _ => false end), f).

Definition access (path : list byte) (f : fs) : bool * fs :=
  let '(ok, f) := call f in (ok && bool_decide (is_Some (dir f !! path)), f).

(** ** [write_n] *)

Fixpoint write_n_loop (script : list io_answer) (o : ofile) (buf : list byte) (f : fs)
    : Z * ofile * fs :=
  match buf with
  | [] => (0, o, set_io f script)
  | _ =>
      match script with
      | [] => let '(o, f) := store o buf f in (0, o, set_io f [])
      | IoOk :: rest => let '(o, f) := store o buf f in (0, o, set_io f rest)
      | IoCount n :: rest =>
          let '(o, f) := store o (take n buf) f in write_n_loop rest o (drop n buf) f
      | IoEintr :: rest => write_n_loop rest o buf f
      | _ :: rest => (-1, o, set_io f rest)
      end
  end.

Definition write_n (o : ofile) (buf : list byte) (f : fs) : Z * ofile * fs :=
  write_n_loop (io f) o buf f.

(** ** SHA-256 *)

(** The digest OpenSSL computes of the bytes fed to a context. *)
Class Sha256 := {
  sha256 : list byte -> list byte;
  sha256_length l : length (sha256 l) = 32%nat
}.

(** ["%02x"] *)
Definition hexdigit (d : Z) : byte := byte_of (if d <? 10 then 48 + d else 87 + d).
Definition hex (l : list byte) : list byte :=
  flat_map (fun b => [hexdigit (byte_val b / 16); hexdigit (byte_val b mod 16)]) l.

Section hash.
Context `{Sha256}.

(** The [while] loop of [utils_get_file_sha256]: [acc] is what the context has
    been fed; [None] is a failure. *)
Fixpoint digest_loop (fuel : nat) (o : ofile) (f : fs) (acc : list byte)
    : outcome (option (list byte) * ofile * fs) :=
  match fuel with
  | O => NoReturn
  | S fuel =>
      let '(r, o, f) := read o 4096 f in
      match r with
      | ReadBytes [] => Ret (Some acc, o, f)
      | ReadBytes l =>
          let '(ok, f) := call f in
          if ok then digest_loop fuel o f (acc ++ l) else Ret (None, o, f)
      | _ => Ret (None, o, f)
      end
  end.

(** [None] is -1; [Some] is the text left in [file_hash]. *)
Definition utils_get_file_sha256 (o : ofile) (size : Z) (f : fs)
    : outcome (option (list byte) * ofile * fs) :=
  if size <? 65 then Ret (None, o, f)
  else
    let '(ok, f) := call f in          (* EVP_MD_CTX_new *)
    if negb ok then Ret (None, o, f)
    else
      let '(ok, f) := call f in        (* EVP_DigestInit_ex *)
      if negb ok then Ret (None, o, f)
      else
        '(r, o, f) ← digest_loop (S (length (content f (ino o)))) o f [];
        match r with
        | None => Ret (None, o, f)
        | Some bytes =>
            let '(ok, f) := call f in  (* EVP_DigestFinal_ex *)
            if negb ok then Ret (None, o, f) else Ret (Some (hex (sha256 bytes)), o, f)
        end.

End hash.

(** ** Lemmas *)

(** Calls that only consume answers. *)
Definition same_files (f f' : fs) : Prop := exists l, f' = set_io f l.

Lemma same_files_refl f : same_files f f.
Proof. exists (io f). by destruct f. Qed.
Lemma same_files_trans f1 f2 f3 : same_files f1 f2 -> same_files f2 f3 -> same_files f1 f3.
Proof. intros [l1 ->] [l2 ->]. by exists l2. Qed.
#[export] Hint Resolve same_files_refl : cdd.

Lemma next_answer_same f a f' : next_answer f = (a, f') -> same_files f f'.
Proof. unfold next_answer. destruct (io f) eqn:E; intros [= <- <-]; [apply same_files_refl | by eexists]. Qed.

Lemma call_same f ok f' : call f = (ok, f') -> same_files f f'.
Proof.
  unfold call. destruct (next_answer f) as [a f1] eqn:E. intros [= <- <-]. by eapply next_answer_same.
Qed.

Lemma content_same f f' i : same_files f f' -> content f' i = content f i.
Proof. by intros [l ->]. Qed.

Lemma content_insert f i l m : content (set_data f (<[i := l]> m)) i = l.
Proof. unfold content. simpl. by rewrite lookup_insert_eq. Qed.

(** Every call will succeed, reads and writes possibly in small pieces. *)
Definition fault_free (f : fs) : Prop := Forall (fun a => answer_ok a = true) (io f).

Lemma next_answer_free f : fault_free f ->
  exists a l, next_answer f = (a, set_io f l) /\ answer_ok a = true /\ fault_free (set_io f l).
Proof.
  unfold next_answer, fault_free. destruct (io f) as [| a l] eqn:E; intros Hf.
  - exists IoOk, []. split_and!; [by destruct f; simpl in *; subst | done | constructor].
  - apply Forall_cons in Hf as [Ha Hl]. by exists a, l.
Qed.

Lemma call_free f : fault_free f -> exists l, call f = (true, set_io f l) /\ fault_free (set_io f l).
Proof.
  intros Hf. destruct (next_answer_free f Hf) as (a & l & Hn & Ha & Hl). exists l. unfold call. by rewrite Hn, Ha.
Qed.

(** *** Writing *)

Lemma overwrite_cons p l c : l <> [] -> overwrite p l c = take p (c ++ replicate p NUL) ++ l ++ drop (p + length l) c.
Proof. by destruct l. Qed.

Lemma length_prefix p (c : list byte) : length (take p (c ++ replicate p NUL)) = p.
Proof. rewrite length_take, length_app, length_replicate. lia. Qed.

Lemma overwrite_overwrite p a b c : overwrite (p + length a) b (overwrite p a c) = overwrite p (a ++ b) c.
Proof.
  destruct (decide (a = [])) as [-> | Ha]; [simpl; by rewrite Nat.add_0_r |].
  destruct (decide (b = [])) as [-> | Hb]; [by rewrite app_nil_r |].
  rewrite !overwrite_cons by (try done; by destruct a). set (q := take p (c ++ replicate p NUL)).
  assert (Hq : length q = p) by apply length_prefix.
  rewrite (app_assoc q a), <- (app_assoc (q ++ a)), take_app_le by (rewrite length_app; lia).
  rewrite take_ge by (rewrite length_app; lia). rewrite <- !app_assoc. do 3 f_equal.
  rewrite (app_assoc q a), drop_app_ge by (rewrite length_app; lia).
  rewrite drop_drop, !length_app. f_equal. lia.
Qed.

Lemma overwrite_end l c : overwrite (length c) l c = c ++ l.
Proof.
  destruct (decide (l = [])) as [-> | Hl]; [simpl; by rewrite app_nil_r |].
  rewrite overwrite_cons by done. rewrite take_app_le, take_ge by lia.
  rewrite drop_ge by lia. by rewrite app_nil_r.
Qed.

(** [f'] is [f] after [l] was written through [o]. *)
Record wrote (o : ofile) (l : list byte) (f : fs) (o' : ofile) (f' : fs) : Prop := {
  w_file : o' = {| ino := ino o; pos := pos o + length l |};
  w_dir : dir f' = dir f;
  w_opened : opened f' = opened f;
  w_content : content f' (ino o) = overwrite (pos o) l (content f (ino o));
  w_dom : is_Some (data f !! ino o) -> dom (data f') = dom (data f);
  w_other i : i <> ino o -> data f' !! i = data f !! i
}.

Lemma wrote_same o f f' : same_files f f' -> wrote o [] f o f'.
Proof. intros [l ->]. split; try done. destruct o; simpl; f_equal; lia. Qed.

Lemma wrote_store o l f : wrote o l f (store o l f).1 (store o l f).2.
Proof.
  split; simpl; try done.
  - apply content_insert.
  - intros Hi. apply (dom_insert_lookup_L (data f)). done.
  - intros i Hi. by rewrite lookup_insert_ne.
Qed.

Lemma wrote_trans o1 o2 o3 l1 l2 f1 f2 f3 :
  wrote o1 l1 f1 o2 f2 -> wrote o2 l2 f2 o3 f3 -> wrote o1 (l1 ++ l2) f1 o3 f3.
Proof.
  intros [Ho1 Hd1 Hp1 Hc1 Hm1 Hx1] [Ho2 Hd2 Hp2 Hc2 Hm2 Hx2]. subst o2. simpl in *. split.
  - rewrite Ho2, length_app. f_equal. lia.
  - congruence.
  - congruence.
  - by rewrite Hc2, Hc1, overwrite_overwrite.
  - intros Hi. rewrite Hm2, Hm1; [done | done |]. apply elem_of_dom. rewrite Hm1 by done. by apply elem_of_dom.
  - intros i Hi. by rewrite Hx2, Hx1.
Qed.

Lemma wrote_io o l f o' f' k : wrote o l f o' f' -> wrote o l f o' (set_io f' k).
Proof. by intros []. Qed.

(** Whatever the kernel answers, [write_n] writes a prefix of the buffer at the
    position of the file, all of it exactly when it returns 0. *)
Lemma write_n_loop_spec script : forall o buf f r o' f',
  write_n_loop script o buf f = (r, o', f') ->
  exists written rest, buf = written ++ rest /\ wrote o written f o' f' /\
    (r = 0 /\ rest = [] \/ r = -1).
Proof.
  induction script as [| a script IH]; intros o buf f r o' f'; cbn [write_n_loop];
    (destruct buf as [| b buf]; [intros [= <- <- <-]; exists [], []; split_and!;
      [done | apply wrote_same; by eexists | by left] |]).
  - intros [= <- <- <-]. exists (b :: buf), []. rewrite app_nil_r. split_and!; [done | | by left].
    apply wrote_io, wrote_store.
  - destruct a as [| n | | |].
    + intros [= <- <- <-]. exists (b :: buf), []. rewrite app_nil_r. split_and!; [done | | by left].
      apply wrote_io, wrote_store.
    + intros Hw. apply IH in Hw as (w & rest & Hb & Hw & Hr).
      exists (take n (b :: buf) ++ w), rest. rewrite <- app_assoc, <- Hb, take_drop.
      split_and!; [done | | done]. eapply wrote_trans; [apply wrote_store | exact Hw].
    + apply IH.
    + intros [= <- <- <-]. exists [], (b :: buf). split_and!; [done | apply wrote_same; by eexists | by right].
    + intros [= <- <- <-]. exists [], (b :: buf). split_and!; [done | apply wrote_same; by eexists | by right].
Qed.

Lemma write_n_spec o buf f r o' f' :
  write_n o buf f = (r, o', f') ->
  exists written rest, buf = written ++ rest /\ wrote o written f o' f' /\
    (r = 0 /\ rest = [] \/ r = -1).
Proof. apply write_n_loop_spec. Qed.

Lemma write_n_free o buf f : fault_free f ->
  exists o' f', write_n o buf f = (0, o', f') /\ wrote o buf f o' f' /\ fault_free f'.
Proof.
  unfold write_n, fault_free. generalize (io f) as script. intros script. revert o buf f.
  induction script as [| a script IH]; intros o buf f Hf; cbn [write_n_loop];
    (destruct buf as [| b buf]; [eexists _, _; split_and!; [done | apply wrote_same; by eexists | done] |]).
  - eexists _, _. split_and!; [done | apply wrote_io, wrote_store | constructor].
  - apply Forall_cons in Hf as [Ha Hf]. destruct a as [| n | | |]; try done.
    + eexists _, _. split_and!; [done | apply wrote_io, wrote_store | done].
    + destruct (IH (store o (take n (b :: buf)) f).1 (drop n (b :: buf)) (store o (take n (b :: buf)) f).2 Hf) as (o' & f' & Hw & Hwr & Hff).
      exists o', f'. split_and!; [exact Hw | | done]. rewrite <- (take_drop n (b :: buf)) at 1.
      eapply wrote_trans; [apply wrote_store | exact Hwr].
Qed.

(** *** Hashing *)

Lemma read_cases o size f r o' f' : read o size f = (r, o', f') -> (0 < size)%nat ->
  same_files f f' /\ ino o' = ino o /\
  match r with
  | ReadBytes l => l = take (length l) (drop (pos o) (content f (ino o))) /\ pos o' = (pos o + length l)%nat /\
                   (length l <= size)%nat /\ (l = [] -> drop (pos o) (content f (ino o)) = [])
  | _ => o' = o
  end.
Proof.
  unfold read. destruct (next_answer f) as [a f1] eqn:E. pose proof (next_answer_same _ _ _ E) as Hs.
  intros Hr Hsize. assert (Hget : forall n, (0 < n <= size)%nat ->
    let l := take n (drop (pos o) (content f1 (ino o))) in
    l = take (length l) (drop (pos o) (content f (ino o))) /\ (length l <= size)%nat /\
    (l = [] -> drop (pos o) (content f (ino o)) = [])).
  { intros n Hn l. subst l. rewrite (content_same f f1) by done. set (d := drop _ _). split_and!.
    - rewrite length_take. destruct (Nat.le_gt_cases n (length d)); [by rewrite Nat.min_l |].
      by rewrite Nat.min_r, !take_ge by lia.
    - rewrite length_take. lia.
    - intros Hl. destruct d; [done |]. by destruct n; [lia |]. }
  destruct a as [| n | | |]; injection Hr as <- <- <-; (split; [done | split; [done |]]); try done.
  - destruct (Hget size ltac:(lia)) as (? & ? & ?). split_and!; done.
  - destruct (Hget (Nat.min size (Nat.max 1 n)) ltac:(lia)) as (? & ? & ?). split_and!; done.
Qed.

Lemma read_free o size f : fault_free f -> (0 < size)%nat ->
  exists l o' f', read o size f = (ReadBytes l, o', f') /\ fault_free f'.
Proof.
  intros Hf Hs. destruct (next_answer_free f Hf) as (a & l & Hn & Ha & Hl). unfold read. rewrite Hn.
  destruct a; try done; by eexists _, _, _.
Qed.

Lemma skip_prefix {A} (l rest : list A) p c :
  l = take (length l) (drop p c) -> rest = drop (p + length l) c -> drop p c = l ++ rest.
Proof. intros Hl ->. rewrite Hl at 1. by rewrite <- drop_drop, take_drop. Qed.

(** The text of a digest: lower-case hexadecimal digits, nothing else *)
Lemma hex_digits b :
  let d := [hexdigit (byte_val b / 16); hexdigit (byte_val b mod 16)] in
  forallb isxdigit d = true /\ map tolower d = d /\ x27 ∉ d /\ x5c ∉ d /\ NUL ∉ d /\ SLASH ∉ d.
Proof. cbv zeta. apply (bool_decide_unpack _). destruct b; vm_compute; exact I. Qed.

Lemma hex_text l :
  length (hex l) = (2 * length l)%nat /\ forallb isxdigit (hex l) = true /\ map tolower (hex l) = hex l /\
  (x27 ∉ hex l) /\ (x5c ∉ hex l) /\ (NUL ∉ hex l) /\ (SLASH ∉ hex l).
Proof.
  induction l as [| b l (IH1 & IH2 & IH3 & IH4 & IH5 & IH6 & IH7)]; [by split_and!; try apply not_elem_of_nil |].
  destruct (hex_digits b) as (H2 & H3 & H4 & H5 & H6 & H7). cbn [hex flat_map]. fold (hex l).
  rewrite length_app, forallb_app, map_app, IH1, IH2, IH3, H2, H3. rewrite !not_elem_of_app. split_and!; try done. simpl. lia.
Qed.

Section hash_lemmas.
Context `{Sha256}.

(** The loop reads to the end of the file, unless a call fails. *)
Lemma digest_loop_spec fuel : forall o f acc,
  (length (drop (pos o) (content f (ino o))) < fuel)%nat ->
  exists r o' f', digest_loop fuel o f acc = Ret (r, o', f') /\ same_files f f' /\ ino o' = ino o /\
    (r = Some (acc ++ drop (pos o) (content f (ino o))) \/ r = None) /\
    (fault_free f -> r <> None /\ fault_free f').
Proof.
  induction fuel as [| fuel IH]; intros o f acc Hfuel; [lia |]. cbn [digest_loop].
  destruct (read o 4096 f) as [[r o1] f1] eqn:Er.
  pose proof (read_cases _ _ _ _ _ _ Er ltac:(lia)) as (Hs & Ho & Hr).
  assert (Hfree : fault_free f -> fault_free f1 /\ exists l, r = ReadBytes l).
  { intros Hf. destruct (read_free o 4096 f Hf ltac:(lia)) as (l & o2 & f2 & Hl & Hf2).
    rewrite Er in Hl. injection Hl as -> _ <-. eauto. }
  destruct r as [[| b l] | |].
  - destruct Hr as (_ & _ & _ & Hend). eexists _, _, _. split_and!; [done | done | done | | naive_solver].
    left. by rewrite Hend, app_nil_r.
  - destruct Hr as (Hl & Hp & _ & _). destruct (call f1) as [ok f2] eqn:Ec.
    pose proof (call_same _ _ _ Ec) as Hs2. pose proof (same_files_trans _ _ _ Hs Hs2) as Hs02.
    assert (Hd : drop (pos o) (content f (ino o)) = (b :: l) ++ drop (pos o1) (content f2 (ino o1))).
    { apply skip_prefix; [done |]. by rewrite Hp, Ho, (content_same f f2). }
    destruct ok.
    + destruct (IH o1 f2 (acc ++ b :: l)) as (r & o' & f' & -> & Hs' & Ho' & Hr' & Hf').
      { rewrite Hd in Hfuel. simpl in Hfuel. rewrite length_app in Hfuel. lia. }
      eexists _, _, _. split_and!; [done | by eapply same_files_trans | congruence | |].
      * rewrite Hd, app_assoc. done.
      * intros Hf. apply Hf'. destruct (Hfree Hf) as [Hf1 _]. destruct (call_free f1 Hf1) as (k & Hk & Hk').
        rewrite Ec in Hk. by injection Hk as ->.
    + eexists _, _, _. split_and!; [done | done | done | by right |].
      intros Hf. destruct (Hfree Hf) as [Hf1 _]. destruct (call_free f1 Hf1) as (k & Hk & _). congruence.
  - eexists _, _, _. split_and!; [done | done | done | by right |].
    intros Hf. destruct (Hfree Hf) as [_ [? ?]]. done.
  - eexists _, _, _. split_and!; [done | done | done | by right |].
    intros Hf. destruct (Hfree Hf) as [_ [? ?]]. done.
Qed.

Lemma utils_get_file_sha256_spec o size f : 65 <= size -> pos o = 0%nat ->
  exists r o' f', utils_get_file_sha256 o size f = Ret (r, o', f') /\ same_files f f' /\
    (r = Some (hex (sha256 (content f (ino o)))) \/ r = None) /\
    (fault_free f -> r <> None /\ fault_free f').
Proof.
  intros Hsize Hpos. unfold utils_get_file_sha256. rewrite (proj2 (Z.ltb_ge _ _)) by lia.
  destruct (call f) as [ok1 f1] eqn:E1. destruct (call f1) as [ok2 f2] eqn:E2.
  pose proof (call_same _ _ _ E1) as Hs1. pose proof (call_same _ _ _ E2) as Hs2.
  pose proof (same_files_trans _ _ _ Hs1 Hs2) as Hs.
  assert (Hok : fault_free f -> ok1 = true /\ ok2 = true /\ fault_free f2).
  { intros Hf. destruct (call_free f Hf) as (l & Hl & Hl'). rewrite E1 in Hl. injection Hl as -> ->.
    destruct (call_free _ Hl') as (l2 & Hl2 & Hl2'). rewrite E2 in Hl2. by injection Hl2 as -> ->. }
  destruct ok1; cbn [negb]; [| exists None, o, f1; naive_solver].
  destruct ok2; cbn [negb]; [| exists None, o, f2; naive_solver].
  destruct (digest_loop_spec (S (length (content f2 (ino o)))) o f2 [])
    as (r & o' & f3 & -> & Hs3 & _ & Hr & Hf3); [rewrite Hpos, drop_0; lia |].
  cbn [mbind outcome_bind]. pose proof (same_files_trans _ _ _ Hs Hs3) as Hs03.
  destruct r as [l |]; [| exists None, o', f3; naive_solver].
  assert (l = content f (ino o)) as ->.
  { destruct Hr as [[= ->] | ?]; [| done]. rewrite Hpos, (content_same f f2) by done. done. }
  destruct (call f3) as [ok4 f4] eqn:E4. pose proof (call_same _ _ _ E4) as Hs4.
  assert (Hok4 : fault_free f -> ok4 = true /\ fault_free f4).
  { intros Hf. destruct (Hf3 ltac:(naive_solver)) as [_ Hf3']. destruct (call_free f3 Hf3') as (l & Hl & Hl').
    rewrite E4 in Hl. by injection Hl as -> ->. }
  pose proof (same_files_trans _ _ _ Hs03 Hs4).
  destruct ok4; cbn [negb]; eexists _, _, _; split_and!; [done | done | by left | | done | done | by right |].
  all: naive_solver.
Qed.

End hash_lemmas.
