(* ===== verification/HandlerTransfer.v ===== *)
(** * The transfer handlers ([src/server/handler_transfer.c])

    Uploads ([handle_puts]) and downloads ([handle_gets]) run on a worker that
    owns the connection: they talk to the client over the socket, to the
    database, and to the two directories of the file store. *)

From Stdlib Require Import Strings.Byte.
From S2P Require Import Prelude CString Protocol Utils Heap Session Database DatabasePool Dao Files.

(** ** Data *)

Record transfer_task := {
  x_epoll_fd : Z;
  x_client_fd : Z;
  x_packet : packet;
  x_session : session_context;
  x_storage_root : list byte;
  x_transfer_temp_dir : list byte
}.

(** What a transfer reads and changes: its socket, the file system and the
    database. *)
Record xfer_state `{MySQL} := {
  xf_sock : socket;
  xf_fs : fs;
  xf_db : db
}.
Arguments xfer_state {_}.

(** The layouts of [upload_request_payload_t] and [file_info_payload_t]
    (the [uint64_t] members are aligned to 8 bytes). *)
Definition UPLOAD_REQUEST_SIZE : Z := 4176.
Definition FILE_INFO_SIZE : Z := 336.

(** A [char] array of [n] bytes that holds the string [s], the rest zero *)
Definition char_array (n : nat) (s : list byte) : list byte := take n (s ++ replicate n NUL).

Section layout.
Context `{Host}.

Definition upload_request_payload (remote_path : list byte) (file_size : Z) (sha256_hex : list byte)
    : list byte :=
  char_array (Z.to_nat PATH_MAX) remote_path ++ mem_of 8 (host_to_net_u64 file_size) ++
  char_array 65 sha256_hex ++ replicate 7 NUL.

Definition file_info_payload (file_name : list byte) (file_size : Z) (sha256_hex : list byte)
    : list byte :=
  char_array (Z.to_nat NAME_MAX) file_name ++ replicate 1 NUL ++ mem_of 8 (host_to_net_u64 file_size) ++
  char_array 65 sha256_hex ++ replicate 7 NUL.

(** The request of an upload, or the status it is refused with *)
Definition parse_upload_request (p : packet) : status_code + (list byte * Z * list byte) :=
  match payload p with
  | Some request =>
      if negb (payload_len (header p) =? UPLOAD_REQUEST_SIZE) then inl STATUS_PROTOCOL_ERROR
      else
        let remote_path := take (Z.to_nat PATH_MAX) request in
        let file_size := of_mem (take 8 (drop (Z.to_nat PATH_MAX) request)) in
        let sha256_hex := take 65 (drop (Z.to_nat PATH_MAX + 8) request) in
        if bool_decide (NUL ∉ remote_path) || bool_decide (NUL ∉ sha256_hex) ||
           bool_decide (head remote_path <> Some SLASH) ||
           negb (utils_is_valid_sha256_hex (cstr sha256_hex))
        then inl STATUS_BAD_REQUEST
        else inr (cstr remote_path, net_to_host_u64 file_size, cstr sha256_hex)
  | None => inl STATUS_PROTOCOL_ERROR
  end.
End layout.

(** The destination of an upload: parent directory and file name *)
Definition upload_target (target_path : list byte) : outcome (option (list byte * list byte)) :=
  if bool_decide (target_path = [SLASH]) then Ret None
  else
    base ← deref (strrchr SLASH target_path);
    let file_name := drop (S base) target_path in
    if (length file_name =? 0)%nat || (NAME_MAX <=? Z.of_nat (length file_name)) then Ret None
    else Ret (Some (if (base =? 0)%nat then [SLASH] else take base target_path, file_name)).

Section transfer.
Context `{Host} `{MySQL} `{Sha256} (malloc_ok : Z -> bool).

(** ** Effects *)

Definition xm (A : Type) : Type := xfer_state -> outcome (A * xfer_state).
#[global] Instance xm_ret : MRet xm := fun A a s => Ret (a, s).
#[global] Instance xm_bind : MBind xm := fun A B f m s => r ← m s; f (fst r) (snd r).

Definition lift_x {A} (o : outcome A) : xm A := fun s => a ← o; Ret (a, s).
Definition on_socket {A} (m : socket -> outcome (A * socket)) : xm A := fun s =>
  r ← m (xf_sock s); Ret (fst r, {| xf_sock := snd r; xf_fs := xf_fs s; xf_db := xf_db s |}).
Definition on_fs {A} (m : fs -> A * fs) : xm A := fun s =>
  let (a, f) := m (xf_fs s) in Ret (a, {| xf_sock := xf_sock s; xf_fs := f; xf_db := xf_db s |}).
Definition on_fs_loop {A} (m : fs -> outcome (A * fs)) : xm A := fun s =>
  r ← m (xf_fs s); Ret (fst r, {| xf_sock := xf_sock s; xf_fs := snd r; xf_db := xf_db s |}).
Definition on_xdb {A} (m : dbm A) : xm A := fun s =>
  r ← m (xf_db s); Ret (fst r, {| xf_sock := xf_sock s; xf_fs := xf_fs s; xf_db := snd r |}).

Definition x_close : xm unit := on_fs (fun f => (tt, close f)).
Definition x_release (p : packet) : xm unit := on_socket (fun s => Ret (tt, snd (packet_release s p))).

(** ** Packets *)

Definition task_sid (task : transfer_task) : session_id := session_id_of (header (x_packet task)).

Definition send_transfer_packet (task : transfer_task) (ty : cmd_type) (st : status_code)
    (pl : option (list byte)) : xm Z :=
  match packet_init ty st (Some (task_sid task)) pl
          (match pl with Some l => Z.of_nat (length l) | None => 0 end) with
  | None => mret (-1)
  | Some p => on_socket (fun s => protocol_send_packet s p)
  end.

(** [None] is -1 *)
Definition recv_transfer_packet (task : transfer_task) : xm (option packet) :=
  rp ← on_socket (fun s => '(r, p, s) ← protocol_recv_packet malloc_ok s; Ret ((r, p), s));
  let '(r, p) := rp in
  if negb (r =? 0) then mret None
  else if negb (session_id_equal (session_id_of (header p)) (task_sid task)) then
    x_release p;;
    send_transfer_packet task CMD_ERROR STATUS_UNAUTHORIZED None;;
    mret None
  else mret (Some p).

(** An error answer whose own failure is ignored *)
Definition refuse (task : transfer_task) (st : status_code) : xm unit :=
  send_transfer_packet task CMD_ERROR st None;; mret tt.

(** ** Uploads *)

Inductive receive_result := ReceiveAborted | Received (o : ofile) (received : Z) (got_file_end : bool).

(** [while (received < expected)] *)
Fixpoint receive_loop (fuel : nat) (task : transfer_task) (o : ofile) (received expected : Z)
    : xm receive_result :=
  if negb (received <? expected) then mret (Received o received false)
  else
    match fuel with
    | O => lift_x NoReturn
    | S fuel =>
        r ← recv_transfer_packet task;
        match r with
        | None => x_close;; mret ReceiveAborted
        | Some packet =>
            let len := payload_len (header packet) in
            if bool_decide (type (header packet) = CMD_FILE_END) then
              x_release packet;; mret (Received o received true)
            else if bool_decide (type (header packet) <> CMD_FILE_DATA) || (len =? 0) ||
                    (FILE_CHUNK_SIZE <? len) || (expected - received <? len) then
              x_release packet;; x_close;; refuse task STATUS_PROTOCOL_ERROR;; mret ReceiveAborted
            else
              bytes ← lift_x (deref (payload packet));
              wo ← on_fs (write_n o (take (Z.to_nat len) bytes));
              let '(w, o) := wo in
              if negb (w =? 0) then
                x_release packet;; x_close;; refuse task STATUS_IO_ERROR;; mret ReceiveAborted
              else
                x_release packet;;
                receive_loop fuel task o (received + len) expected
        end
    end.

(** The missing range and the [CMD_FILE_END] that follows it; [None] when the
    handler has returned. *)
Definition receive_missing (task : transfer_task) (o : ofile) (offset file_size : Z) : xm (option ofile) :=
  o' ← on_fs (lseek o offset);
  match o' with
  | None => x_close;; refuse task STATUS_IO_ERROR;; mret None
  | Some o =>
      let expected := file_size - offset in
      r ← receive_loop (Z.to_nat expected) task o 0 expected;
      match r with
      | ReceiveAborted => mret None
      | Received o received got_file_end =>
          if negb (received =? expected) then
            x_close;; refuse task STATUS_PROTOCOL_ERROR;; mret None
          else if got_file_end then mret (Some o)
          else
            r ← recv_transfer_packet task;
            match r with
            | None => x_close;; mret None
            | Some packet =>
                if bool_decide (type (header packet) <> CMD_FILE_END) then
                  x_release packet;; x_close;; refuse task STATUS_PROTOCOL_ERROR;; mret None
                else x_release packet;; mret (Some o)
            end
      end
  end.

(** Open the temporary file, announce where to resume, receive the rest *)
Definition receive_part (task : transfer_task) (part_path : list byte) (file_size : Z) : xm (option ofile) :=
  o ← on_fs (open_create part_path);
  match o with
  | None => refuse task STATUS_IO_ERROR;; mret None
  | Some o =>
      size ← on_fs (fstat_size o);
      match size with
      | None => x_close;; refuse task STATUS_IO_ERROR;; mret None
      | Some offset =>
          reset ← (if file_size <? offset then
                     ok ← on_fs (ftruncate0 o); mret (if ok : bool then Some 0 else None)
                   else mret (Some offset));
          match reset with
          | None => x_close;; refuse task STATUS_IO_ERROR;; mret None
          | Some offset =>
              r ← on_socket (fun s => send_puts_resume s (task_sid task) offset);
              if negb (r =? 0) then x_close;; mret None
              else if offset <? file_size then receive_missing task o offset file_size
              else mret (Some o)
          end
      end
  end.

(** Flush and hash the complete file, which is then closed *)
Definition verify_part (task : transfer_task) (o : ofile) : xm (option (list byte)) :=
  ok ← on_fs call;
  if negb ok then x_close;; refuse task STATUS_IO_ERROR;; mret None
  else
    o' ← on_fs (lseek o 0);
    match o' with
    | None => x_close;; refuse task STATUS_IO_ERROR;; mret None
    | Some o =>
        r ← on_fs_loop (fun f => '(r, o, f) ← utils_get_file_sha256 o 65 f; Ret (r, f));
        match r with
        | None => x_close;; refuse task STATUS_IO_ERROR;; mret None
        | Some actual_sha256 => x_close;; mret (Some actual_sha256)
        end
    end.

(** [rename] into the store; [false] when the handler has returned *)
Definition promote_part (task : transfer_task) (part_path final_path : list byte) : xm bool :=
  r ← on_fs (rename part_path final_path);
  match r with
  | None => mret true
  | Some eexist =>
      there ← (if eexist : bool then mret true else on_fs (access final_path));
      if there : bool then on_fs (fun f => (tt, fs_unlink part_path f));; mret true
      else refuse task STATUS_IO_ERROR;; mret false
  end.

(** Everything after the temporary file is complete *)
Definition publish_part (task : transfer_task) (o : ofile) (part_path final_path target_path : list byte)
    (parent_id : Z) (file_name sha256_hex : list byte) (file_size : Z) : xm unit :=
  actual ← verify_part task o;
  match actual with
  | None => mret tt
  | Some actual_sha256 =>
      if bool_decide (actual_sha256 <> sha256_hex) then
        on_fs (fun f => (tt, fs_unlink part_path f));; refuse task STATUS_BAD_REQUEST
      else
        promoted ← promote_part task part_path final_path;
        if negb promoted then mret tt
        else
          r ← on_xdb (dao_create_file_with_path (ctx_user_id (x_session task)) target_path parent_id
                        file_name sha256_hex file_size);
          if negb (r =? 0) then refuse task STATUS_OTHER_ERROR
          else send_transfer_packet task CMD_ACK STATUS_OK None;; mret tt
  end.

(** The content is already stored: only the path is created *)
Definition instant_upload (task : transfer_task) (target_path : list byte) (parent_id : Z)
    (file_name : list byte) (file_id file_size : Z) : xm unit :=
  r ← on_xdb (dao_link_existing_file (ctx_user_id (x_session task)) target_path parent_id file_name file_id);
  if negb (r =? 0) then refuse task STATUS_OTHER_ERROR
  else
    r ← on_socket (fun s => send_puts_resume s (task_sid task) file_size);
    if negb (r =? 0) then mret tt
    else send_transfer_packet task CMD_ACK STATUS_OK None;; mret tt.

(** Steps 7 to 10 of [handle_puts] *)
Definition upload_content (task : transfer_task) (target_path : list byte) (parent_id : Z)
    (file_name sha256_hex : list byte) (file_size : Z) : xm unit :=
  let '(n1, part_path) := snprintf PATH_MAX (x_transfer_temp_dir task ++ [SLASH] ++ sha256_hex ++ lit ".part") in
  let '(n2, final_path) := snprintf PATH_MAX (x_storage_root task ++ [SLASH] ++ sha256_hex) in
  if (PATH_MAX <=? n1) || (PATH_MAX <=? n2) then refuse task STATUS_BAD_REQUEST
  else
    o ← receive_part task part_path file_size;
    match o with
    | None => mret tt
    | Some o => publish_part task o part_path final_path target_path parent_id file_name sha256_hex file_size
    end.

Definition handle_puts (task : transfer_task) : xm unit :=
  match parse_upload_request (x_packet task) with
  | inl st => refuse task st
  | inr (remote_path, file_size, sha256_hex) =>
      let user_id := ctx_user_id (x_session task) in
      target ← lift_x (normalize_cd_path [SLASH] remote_path PATH_MAX);
      match target with
      | None => refuse task STATUS_BAD_REQUEST
      | Some target_path =>
          split ← lift_x (upload_target target_path);
          match split with
          | None => refuse task STATUS_BAD_REQUEST
          | Some (parent_path, file_name) =>
              parent ← on_xdb (dao_path_get_node_id user_id parent_path);
              match parent with
              | (DAO_PATH_NOT_FOUND, _) | (DAO_PATH_IS_FILE, _) => refuse task STATUS_BAD_REQUEST
              | (DAO_PATH_IS_DIR, parent_id) =>
                  parent_id ← lift_x (deref parent_id);
                  path ← on_xdb (dao_path_get_node_id user_id target_path);
                  match path with
                  | (DAO_PATH_IS_DIR, _) | (DAO_PATH_IS_FILE, _) => refuse task STATUS_BAD_REQUEST
                  | (DAO_PATH_NOT_FOUND, _) =>
                      found ← on_xdb (dao_file_find_by_hash sha256_hex file_size);
                      let '(file_ret, file_id) := found in
                      if file_ret <? 0 then refuse task STATUS_OTHER_ERROR
                      else if file_ret =? 1 then
                        file_id ← lift_x (deref file_id);
                        instant_upload task target_path parent_id file_name file_id file_size
                      else upload_content task target_path parent_id file_name sha256_hex file_size
                  | _ => refuse task STATUS_OTHER_ERROR
                  end
              | _ => refuse task STATUS_OTHER_ERROR
              end
          end
      end
  end.

(** ** Downloads *)

(** [sendfile_exact]: the bytes of [content] from [offset]; the results are the
    return value, the final offset and the socket. *)
Fixpoint sendfile_loop (script : list send_answer) (content : list byte) (offset remaining : Z)
    (out : list byte) : outcome (Z * Z * list byte * list send_answer) :=
  if negb (0 <? remaining) then Ret (0, offset, out, script)
  else
    match script with
    | [] => NoReturn
    | SendEintr :: rest => sendfile_loop rest content offset remaining out
    | SendError :: rest => Ret (-1, offset, out, rest)
    | SendCount n :: rest =>
        let l := take (Nat.min n (Z.to_nat remaining)) (drop (Z.to_nat offset) content) in
        match l with
        | [] => Ret (-1, offset, out, rest)
        | _ => sendfile_loop rest content (offset + Z.of_nat (length l))
                 (remaining - Z.of_nat (length l)) (out ++ l)
        end
    end.

Definition sendfile_exact (content : list byte) (offset count : Z) (s : socket) : outcome (Z * Z * socket) :=
  '(r, offset, out, script) ← sendfile_loop (send_script s) content offset count (sent s);
  Ret (r, offset, set_out s out script).

(** [while (remaining > 0)]: the result is whether everything was sent *)
Fixpoint send_chunks (fuel : nat) (task : transfer_task) (o : ofile) (offset remaining : Z) : xm bool :=
  if negb (0 <? remaining) then mret true
  else
    match fuel with
    | O => lift_x NoReturn
    | S fuel =>
        let chunk_size := if FILE_CHUNK_SIZE <? remaining then FILE_CHUNK_SIZE else remaining in
        let h := {| type := CMD_FILE_DATA; status := STATUS_OK; payload_len := chunk_size;
                    session_id_of := task_sid task |} in
        r ← on_socket (fun s => protocol_send_header s h);
        if negb (r =? 0) then mret false
        else
          content ← on_fs (fun f => (content f (ino o), f));
          ro ← on_socket (fun s => '(r, offset, s) ← sendfile_exact content offset chunk_size s;
                                   Ret ((r, offset), s));
          let '(r, offset) := ro in
          if negb (r =? 0) then mret false
          else send_chunks fuel task o offset (remaining - chunk_size)
    end.

(** Steps 5 to 7: the client says where to start and gets the rest *)
Definition serve_download (task : transfer_task) (physical_path : list byte) : xm unit :=
  r ← recv_transfer_packet task;
  match r with
  | None => mret tt
  | Some packet =>
      match payload packet with
      | Some bytes =>
          if bool_decide (type (header packet) <> CMD_RESUME_POS) ||
             negb (payload_len (header packet) =? 8)
          then x_release packet;; refuse task STATUS_PROTOCOL_ERROR
          else
            x_release packet;;
            o ← on_fs (open_read physical_path);
            match o with
            | None => mret tt
            | Some o =>
                size ← on_fs (fstat_size o);
                match size with
                | None => x_close
                | Some st_size =>
                    let start_offset := net_to_host_u64 (of_mem (take 8 bytes)) in
                    if st_size <? start_offset then x_close
                    else
                      all ← send_chunks (Z.to_nat (st_size - start_offset)) task o start_offset
                              (st_size - start_offset);
                      x_close;;
                      if negb all then mret tt
                      else
                        r ← send_transfer_packet task CMD_FILE_END STATUS_OK None;
                        if negb (r =? 0) then mret tt
                        else
                          r ← recv_transfer_packet task;
                          match r with
                          | None => mret tt
                          | Some packet => x_release packet
                          end
                end
            end
      | None => x_release packet;; refuse task STATUS_PROTOCOL_ERROR
      end
  end.

(** [file_meta0] is what the uninitialised [file_meta] holds. *)
Definition handle_gets (file_meta0 : file_meta) (task : transfer_task) : xm unit :=
  let len := payload_len (header (x_packet task)) in
  match payload (x_packet task) with
  | None => refuse task STATUS_BAD_REQUEST
  | Some bytes =>
      if (len =? 0) || (PATH_MAX <=? len) then refuse task STATUS_BAD_REQUEST
      else
        let req_path := cstr (take (Z.to_nat len) bytes) in
        target ← lift_x (normalize_cd_path (ctx_cwd (x_session task)) req_path PATH_MAX);
        match target with
        | None => refuse task STATUS_BAD_REQUEST
        | Some target_path =>
            r ← on_xdb (dao_get_file_meta (ctx_user_id (x_session task)) target_path file_meta0);
            let '(ret, file_meta) := r in
            match ret with
            | DAO_NOT_FOUND => refuse task STATUS_FILE_NOTEXIST
            | DAO_TYPE_MISMATCH => refuse task STATUS_IS_DIR
            | DAO_DB_ERROR => refuse task STATUS_DB_ERROR
            | _ =>
                (* the array is read as a string *)
                if bool_decide (NUL ∉ fm_sha256_hex file_meta) then lift_x Undef
                else
                  let sha256_hex := cstr (fm_sha256_hex file_meta) in
                  let physical_path :=
                    snd (snprintf (PATH_MAX + NAME_MAX + 1) (x_storage_root task ++ [SLASH] ++ sha256_hex)) in
                  let info := file_info_payload (strncpy0 NAME_MAX (fm_file_name file_meta)) (fm_size file_meta)
                                (strncpy0 65 sha256_hex) in
                  r ← send_transfer_packet task CMD_GETS_RESP STATUS_OK (Some info);
                  if negb (r =? 0) then mret tt else serve_download task physical_path
            end
        end
  end.

(** ** The task *)

(** The rest of what a task changes: the session table and the descriptors
    that were closed *)
Record transfer_world := {
  tw_xfer : xfer_state;
  tw_sessions : session_table;
  tw_closed : list Z
}.

Definition transfer_dispatch (file_meta0 : file_meta) (task : transfer_task) : xm unit :=
  match type (header (x_packet task)) with
  | CMD_PUTS_REQ => handle_puts task
  | CMD_GETS_REQ => handle_gets file_meta0 task
  | _ => refuse task STATUS_PROTOCOL_ERROR
  end.

Definition handle_transfer_task (file_meta0 : file_meta) (task : transfer_task) (w : transfer_world)
    : outcome transfer_world :=
  r ← transfer_dispatch file_meta0 task (tw_xfer w);
  sessions ← session_detach_fd (tw_sessions w) (x_client_fd task);
  r ← x_release (x_packet task) (snd r);
  Ret {| tw_xfer := snd r; tw_sessions := sessions; tw_closed := tw_closed w ++ [x_client_fd task] |}.

End transfer.
