(* ===== verification/HandlerTransferSpec.v ===== *)
(** * Properties of the transfer handlers

    First the integrity of the file store and the absence of leaks, for every
    behaviour of the client, the kernel and the database; then the complete
    course of an upload and of a download. *)

From Stdlib Require Import Strings.Byte.
From S2P Require Import Prelude CString Protocol Utils Heap Session Database DatabasePool Dao Files HandlerTransfer.

(** ** The file store *)

(** [root]/<hex> holds content whose SHA-256 is <hex>; no file has two names. *)
Record store_ok `{Sha256} (root : list byte) (f : fs) : Prop := {
  st_hash h i : dir f !! (root ++ [SLASH] ++ h) = Some i -> utils_is_valid_sha256_hex h = true ->
                hex (sha256 (content f i)) = h;
  st_inj p q i : dir f !! p = Some i -> dir f !! q = Some i -> p = q;
  st_live p i : dir f !! p = Some i -> is_Some (data f !! i)
}.

(** A path that cannot be a name of the store *)
Definition outside (root path : list byte) : Prop :=
  forall h, utils_is_valid_sha256_hex h = true -> path <> root ++ [SLASH] ++ h.

Lemma part_outside root l : outside root (l ++ lit ".part").
Proof.
  intros h Hh Heq. apply andb_prop in Hh as [Hlen Hall]. apply Nat.eqb_eq in Hlen.
  apply (f_equal last) in Heq. rewrite last_app in Heq.
  rewrite last_app, last_app in Heq. destruct (last h) as [b |] eqn:El.
  - injection Heq as <-. apply last_Some in El as [h' ->]. rewrite forallb_app in Hall.
    apply andb_prop in Hall as [_ Hall]. done.
  - apply last_None in El. subst h. done.
Qed.

Section store.
Context `{Sha256} (root : list byte).
Implicit Types f : fs.

Lemma store_same f f' : same_files f f' -> store_ok root f -> store_ok root f'.
Proof. intros [l ->] []. by split. Qed.

Lemma store_close f n : store_ok root f -> store_ok root (add_opened f n).
Proof. intros []. by split. Qed.

Lemma store_create path f o f' :
  store_ok root f -> outside root path -> open_create path f = (o, f') ->
  match o with
  | None => store_ok root f' /\ opened f' = opened f
  | Some o => store_ok root f' /\ opened f' = opened f + 1 /\ dir f' !! path = Some (ino o)
  end.
Proof.
  intros Hst Hout. unfold open_create. destruct (next_answer f) as [a f1] eqn:E.
  pose proof (next_answer_same _ _ _ E) as [l ->]. destruct (answer_ok a); [| by intros [= <- <-]; split; [eapply store_same; [by eexists |] |]].
  cbn [dir set_io]. destruct (dir f !! path) as [i |] eqn:Ed; intros [= <- <-].
  - split_and!; [| done | done]. apply store_close. eapply store_same; [by eexists | done].
  - split_and!; [| done | simpl; by rewrite lookup_insert_eq]. apply store_close.
    cbn [data set_io]. set (i := fresh (dom (data f))).
    assert (Hi : data f !! i = None) by (apply not_elem_of_dom, is_fresh). clearbody i.
    assert (Hn : forall p, dir f !! p <> Some i).
    { intros p Hp. apply (st_live _ _ Hst) in Hp as [? ?]. congruence. }
    split; simpl.
    + intros h j Hj Hv. rewrite lookup_insert_ne in Hj by (by apply Hout).
      unfold content. simpl. rewrite lookup_insert_ne by (intros <-; by eapply Hn).
      by apply (st_hash _ _ Hst).
    + intros p q j Hp Hq. apply lookup_insert_Some in Hp as [[<- <-] | [? Hp]], Hq as [[<- ?] | [? Hq]]; try done.
      * by apply Hn in Hq.
      * subst. by apply Hn in Hp.
      * by eapply (st_inj _ _ Hst).
    + intros p j Hp. destruct (decide (j = i)) as [-> | Hne]; [rewrite lookup_insert_eq; eauto |].
      rewrite lookup_insert_ne by done. apply lookup_insert_Some in Hp as [[_ <-] | [_ Hp]]; [done |].
      by apply (st_live _ _ Hst) in Hp.
Qed.

(** Changing the content of a file outside the store *)
Lemma store_change path f f' i :
  store_ok root f -> outside root path -> dir f !! path = Some i -> dir f' = dir f ->
  (forall j, j <> i -> data f' !! j = data f !! j) -> dom (data f') = dom (data f) -> store_ok root f'.
Proof.
  intros Hst Hout Hi Hd Hc Hdom. split; rewrite Hd.
  - intros h j Hj Hv. assert (j <> i) by (intros ->; eapply Hout; [exact Hv |]; by eapply (st_inj _ _ Hst)).
    unfold content. rewrite Hc by done. by apply (st_hash _ _ Hst).
  - apply Hst.
  - intros p j Hp. apply elem_of_dom. rewrite Hdom. apply elem_of_dom. by eapply (st_live _ _ Hst).
Qed.

Lemma store_unlink path f : store_ok root f -> store_ok root (fs_unlink path f) /\ opened (fs_unlink path f) = opened f.
Proof.
  intros Hst. unfold fs_unlink. destruct (call f) as [ok f1] eqn:E.
  destruct (call_same _ _ _ E) as [l ->]. destruct ok; [| split; [by eapply store_same; [eexists |] | done]].
  split; [| done]. destruct Hst as [Hh Hi Hl]. split; simpl; intros *; rewrite ?lookup_delete_Some; naive_solver.
Qed.

(** Promoting verified content into the store *)
Lemma store_rename part h f i r f' :
  store_ok root f -> dir f !! part = Some i -> part <> root ++ [SLASH] ++ h -> hex (sha256 (content f i)) = h ->
  rename part (root ++ [SLASH] ++ h) f = (r, f') -> store_ok root f' /\ opened f' = opened f.
Proof.
  intros Hst Hi Hne Hh. unfold rename. destruct (next_answer f) as [a f1] eqn:E.
  destruct (next_answer_same _ _ _ E) as [l ->]. cbn [dir set_io].
  destruct (answer_ok a); [| intros [= <- <-]; split; [by eapply store_same; [eexists |] | done]].
  rewrite Hi. intros [= <- <-]. split; [| done]. destruct Hst as [Hs Hj Hl]. split; simpl.
  - intros k j Hk Hv. apply lookup_insert_Some in Hk as [[Hkk <-] | [_ Hk]].
    + apply app_inv_head in Hkk. by injection Hkk as <-.
    + apply lookup_delete_Some in Hk as [_ Hk]. by apply Hs.
  - intros p q j Hp Hq. rewrite lookup_insert_Some, lookup_delete_Some in Hp, Hq. naive_solver.
  - intros p j. rewrite lookup_insert_Some, lookup_delete_Some. naive_solver.
Qed.

End store.

(** ** Partial correctness of transfer programs *)

Section triples.
Context `{Host} `{MySQL} `{Sha256} (malloc_ok : Z -> bool).

Definition triple {A} (P : xfer_state -> Prop) (m : xm A) (Q : A -> xfer_state -> Prop) : Prop :=
  forall s r s', P s -> m s = Ret (r, s') -> Q r s'.

Lemma triple_ret {A} (a : A) (Q : A -> xfer_state -> Prop) : triple (Q a) (mret a) Q.
Proof. by intros s r s' HQ [= <- <-]. Qed.

Lemma triple_bind {A B} P (m : xm A) R (f : A -> xm B) Q :
  triple P m R -> (forall a, triple (R a) (f a) Q) -> triple P (m ≫= f) Q.
Proof.
  intros Hm Hf s r s' HP Hs. unfold mbind, xm_bind in Hs. apply bind_Ret_inv in Hs as ([a s1] & Hs1 & Hs).
  eapply Hf; [| exact Hs]. by eapply Hm.
Qed.

Lemma triple_weaken {A} (P P' : xfer_state -> Prop) (m : xm A) (Q Q' : A -> xfer_state -> Prop) :
  triple P m Q -> (forall s, P' s -> P s) -> (forall a s, Q a s -> Q' a s) -> triple P' m Q'.
Proof. intros Hm HP HQ s r s' Hs Hr. apply HQ. eapply Hm; [by apply HP | done]. Qed.

Lemma triple_pre {A} (P P' : xfer_state -> Prop) (m : xm A) Q :
  triple P m Q -> (forall s, P' s -> P s) -> triple P' m Q.
Proof. intros Hm HP. by eapply triple_weaken. Qed.

Lemma triple_pure {A} (X : Prop) P (m : xm A) Q :
  (X -> triple P m Q) -> triple (fun s => X /\ P s) m Q.
Proof. intros Hm s r s' [HX HP]. by apply Hm. Qed.

Lemma triple_lift {A} (o : outcome A) P :
  triple P (lift_x o) (fun a s => o = Ret a /\ P s).
Proof. intros s r s' HP. unfold lift_x. by destruct o; simpl; intros; simplify_eq. Qed.

(** The files satisfy [F], and [b] payload buffers are allocated. *)
Definition at_files (F : fs -> Prop) (b : Z) (s : xfer_state) : Prop :=
  F (xf_fs s) /\ buffers (xf_sock s) = b.

Definition held (p : packet) : Z := if owns_payload p then 1 else 0.

Lemma triple_send task ty st pl F b :
  triple (at_files F b) (send_transfer_packet task ty st pl) (fun _ => at_files F b).
Proof.
  intros s r s' [HF Hb]. unfold send_transfer_packet. destruct (packet_init _ _ _ _ _) as [p |]; [| by intros [= <- <-]].
  unfold on_socket. intros Hs. apply bind_Ret_inv in Hs as ([r1 k] & Hs & [= <- <-]).
  apply send_packet_frame in Hs as [_ Hs]. split; [done |]. simpl. congruence.
Qed.

Lemma triple_refuse task st F b : triple (at_files F b) (refuse task st) (fun _ => at_files F b).
Proof. eapply triple_bind; [apply triple_send |]. intros ?. apply (triple_ret tt (fun _ => at_files F b)). Qed.

Lemma triple_resume sid offset F b :
  triple (at_files F b) (on_socket (fun s => send_puts_resume s sid offset)) (fun _ => at_files F b).
Proof.
  intros s r s' [HF Hb]. unfold on_socket, send_puts_resume. simpl.
  intros Hs. apply bind_Ret_inv in Hs as ([r1 k] & Hs & [= <- <-]).
  apply send_packet_frame in Hs as [_ Hs]. split; [done |]. simpl. congruence.
Qed.

Lemma triple_release p F b : triple (at_files F (b + held p)) (x_release p) (fun _ => at_files F b).
Proof.
  intros s r s' [HF Hb] [= _ <-]. split; [done |]. unfold held, packet_release in *. simpl in *.
  destruct (owns_payload p); simpl in *; lia.
Qed.

Lemma triple_recv task F b :
  triple (at_files F b) (recv_transfer_packet malloc_ok task)
    (fun r s => match r with
                | None => at_files F b s
                | Some p => packet_wf p /\ at_files F (b + held p) s
                end).
Proof.
  unfold recv_transfer_packet.
  eapply (triple_bind _ _ (fun rp s => (rp.1 = 0 /\ packet_wf rp.2 /\ at_files F (b + held rp.2) s) \/
                                       (rp.1 = -1 /\ at_files F b s))).
  - intros s [r p] s' [HF Hb]. unfold on_socket. intros Hs. apply bind_Ret_inv in Hs as ([rp k] & Hs & [= -> <-]).
    apply bind_Ret_inv in Hs as ([[r1 p1] s1] & Hs & Hk). cbn beta iota in Hk. simplify_eq.
    pose proof (recv_packet_cases malloc_ok (xf_sock s)) as [_ Hc].
    apply Hc in Hs as (_ & [(-> & Hwf & _ & Hbuf) | (-> & _ & Hbuf)]); [left | right]; simpl.
    + unfold at_files, held. simpl. split_and!; [done | done | done | lia].
    + unfold at_files. simpl. split_and!; [done | done | lia].
  - intros [r p]. simpl. intros s r' s' [(-> & Hwf & Hat) | (-> & Hat)].
    + cbn [Z.eqb negb]. destruct (session_id_equal _ _); cbn [negb].
      * by intros [= <- <-].
      * intros Hr. eapply (triple_bind _ _ _ _ (fun r s => match r with None => at_files F b s | Some p => packet_wf p /\ at_files F (b + held p) s end) (triple_release p F b)); [| exact Hat | exact Hr].
        intros ?. eapply triple_bind; [apply triple_send |]. intros ?. apply (triple_ret None (fun r s => match r with None => at_files F b s | Some p => _ end)).
    + by intros [= <- <-].
Qed.

Lemma triple_fs {A} (m : fs -> A * fs) (F : fs -> Prop) (G : A -> fs -> Prop) b :
  (forall f a f', F f -> m f = (a, f') -> G a f') ->
  triple (at_files F b) (on_fs m) (fun a => at_files (G a) b).
Proof.
  intros Hm s r s' [HF Hb]. unfold on_fs. destruct (m (xf_fs s)) as [a f'] eqn:E. intros [= <- <-].
  split; [| done]. by eapply Hm.
Qed.

Lemma triple_fs_loop {A} (m : fs -> outcome (A * fs)) (F : fs -> Prop) (G : A -> fs -> Prop) b :
  (forall f a f', F f -> m f = Ret (a, f') -> G a f') ->
  triple (at_files F b) (on_fs_loop m) (fun a => at_files (G a) b).
Proof.
  intros Hm s r s' [HF Hb] Hr. apply bind_Ret_inv in Hr as ([a f'] & E & [= <- <-]).
  split; [| done]. by eapply Hm.
Qed.

Lemma triple_db {A} (m : dbm A) F b : triple (at_files F b) (on_xdb m) (fun _ => at_files F b).
Proof. intros s r s' Hat Hr. apply bind_Ret_inv in Hr as ([a d] & E & [= <- <-]). done. Qed.

Lemma triple_close (F G : fs -> Prop) b :
  (forall f, F f -> G (close f)) -> triple (at_files F b) x_close (fun _ => at_files G b).
Proof. intros HFG. apply (triple_fs _ F (fun _ => G)). intros f a f' HF [= <- <-]. by apply HFG. Qed.

End triples.

(** One step of a program: the first call, then the rest. *)
Tactic Notation "tbind" uconstr(rule) := eapply triple_bind; [eapply rule | intros ?; cbn beta].

Section integrity.
Context `{Host} `{MySQL} `{Sha256} (malloc_ok : Z -> bool).
Context (task : transfer_task) (part : list byte) (n b : Z).
Context (Hout : outside (x_storage_root task) part).

Definition idle (f : fs) : Prop := store_ok (x_storage_root task) f /\ opened f = n.
Definition holding (o : ofile) (f : fs) : Prop :=
  store_ok (x_storage_root task) f /\ opened f = n + 1 /\ dir f !! part = Some (ino o).

Lemma holding_same o f f' : same_files f f' -> holding o f -> holding o f'.
Proof. intros [l ->] (? & ? & ?). split_and!; [by eapply store_same; [eexists |] | done | done]. Qed.

Lemma close_holding o : triple (at_files (holding o) b) x_close (fun _ => at_files idle b).
Proof.
  apply triple_close. intros f (Hst & Hop & _). split; [by apply store_close |]. simpl. lia.
Qed.

Lemma write_holding o l f r o' f' : holding o f -> write_n o l f = (r, o', f') -> holding o' f'.
Proof.
  intros (Hst & Hop & Hd) Hw. apply write_n_spec in Hw as (w & _ & _ & [-> Hdir Hopn _ Hdom Hoth] & _).
  split_and!; [| congruence | by rewrite Hdir].
  eapply store_change; [exact Hst | exact Hout | exact Hd | done | done |].
  apply Hdom. by eapply st_live.
Qed.

Lemma lseek_holding o off f r f' : holding o f -> lseek o off f = (r, f') ->
  holding o f' /\ (forall o', r = Some o' -> ino o' = ino o).
Proof.
  intros Hh. unfold lseek. destruct (call f) as [ok f1] eqn:E. pose proof (call_same _ _ _ E).
  assert (holding o f1) by (by eapply holding_same). destruct (ok && _); intros [= <- <-]; by split; [| intros ? [= <-]].
Qed.

(** Closing and answering with an error *)
Lemma close_refuse {A} o st (a : A) (Q : A -> xfer_state -> Prop) :
  (forall s, at_files idle b s -> Q a s) ->
  triple (at_files (holding o) b) (x_close;; refuse task st;; mret a) Q.
Proof.
  intros HQ. tbind (close_holding o). tbind triple_refuse.
  eapply triple_pre; [apply (triple_ret a Q) | exact HQ].
Qed.

Lemma close_return {A} o (a : A) (Q : A -> xfer_state -> Prop) :
  (forall s, at_files idle b s -> Q a s) -> triple (at_files (holding o) b) (x_close;; mret a) Q.
Proof.
  intros HQ. tbind (close_holding o). eapply triple_pre; [apply (triple_ret a Q) | exact HQ].
Qed.

Lemma give {A} (a : A) P (Q : A -> xfer_state -> Prop) : (forall s, P s -> Q a s) -> triple P (mret a) Q.
Proof. intros HQ. eapply triple_pre; [apply (triple_ret a Q) | exact HQ]. Qed.

Lemma receive_loop_integrity fuel : forall o received expected,
  triple (at_files (holding o) b) (receive_loop malloc_ok fuel task o received expected)
    (fun r => match r with ReceiveAborted => at_files idle b | Received o' _ _ => at_files (holding o') b end).
Proof.
  induction fuel as [| fuel IH]; intros o received expected; cbn [receive_loop];
    (destruct (negb _); [by apply give |]).
  - eapply triple_weaken; [apply triple_lift | done |]. intros a s [? ?]. done.
  - tbind triple_recv. destruct a as [p |]; [| by apply close_return].
    apply triple_pure. intros Hwf. case_bool_decide; [tbind triple_release; by apply give |].
    destruct (_ || _).
    { tbind triple_release. by apply close_refuse. }
    tbind triple_lift. apply triple_pure. intros Hp.
    tbind (triple_fs (write_n o (take (Z.to_nat (payload_len (header p))) a)) _ (fun wo => holding wo.2)).
    { intros f [w o'] f' Hh Hw. by eapply write_holding. }
    destruct a0 as [w o']. simpl. destruct (negb _).
    + tbind triple_release. by apply close_refuse.
    + tbind triple_release. apply IH.
Qed.

Lemma receive_missing_integrity o offset file_size :
  triple (at_files (holding o) b) (receive_missing malloc_ok task o offset file_size)
    (fun r => match r with None => at_files idle b | Some o' => at_files (holding o') b end).
Proof.
  unfold receive_missing.
  tbind (triple_fs (lseek o offset) _ (fun r f => holding o f /\ (forall o', r = Some o' -> ino o' = ino o))).
  { intros f r f' Hh Hl. by eapply lseek_holding. }
  destruct a as [o' |].
  - eapply (triple_pre (at_files (holding o') b)).
    + tbind receive_loop_integrity. destruct a as [| o1 received got]; [by apply give |].
      destruct (negb _); [by apply close_refuse |]. destruct got; [by apply give |].
      tbind triple_recv. destruct a as [p |]; [| by apply close_return].
      apply triple_pure. intros _. case_bool_decide; tbind triple_release; [by apply close_refuse | by apply give].
    + intros s [[(? & ? & ?) Ho] ?]. split; [| done]. split_and!; [done | done |]. by rewrite (Ho o').
  - eapply (triple_pre (at_files (holding o) b)); [by apply close_refuse |].
    intros s [[? _] ?]. done.
Qed.

Lemma receive_part_integrity file_size :
  triple (at_files idle b) (receive_part malloc_ok task part file_size)
    (fun r => match r with None => at_files idle b | Some o => at_files (holding o) b end).
Proof.
  unfold receive_part.
  tbind (triple_fs (open_create part) _ (fun o => match o with None => idle | Some o => holding o end)).
  { intros f o f' [Hst Hop] Ho. apply (store_create _ _ _ _ _ Hst Hout) in Ho.
    destruct o; [destruct Ho as (? & ? & ?); split_and!; try done; lia | destruct Ho; split; [done | lia]]. }
  destruct a as [o |]; [| tbind triple_refuse; by apply give].
  tbind (triple_fs (fstat_size o) _ (fun _ => holding o)).
  { intros f r f' Hh. unfold fstat_size. destruct (call f) as [ok f1] eqn:E. intros [= _ <-].
    eapply holding_same; [by eapply call_same | done]. }
  destruct a as [offset |]; [| by apply close_refuse].
  eapply (triple_bind _ _ (fun _ => at_files (holding o) b)).
  { destruct (_ <? _); [| by apply give].
    tbind (triple_fs (ftruncate0 o) _ (fun _ => holding o)); [| by apply give].
    intros f r f' Hh. unfold ftruncate0. destruct (call f) as [ok f1] eqn:E.
    assert (Hh1 : holding o f1) by (eapply holding_same; [by eapply call_same | done]).
    destruct ok; intros [= _ <-]; [| done]. destruct Hh1 as (Hst & Hop & Hd). split_and!; [| done | done].
    eapply store_change; [exact Hst | exact Hout | exact Hd | done | |].
    - intros j Hj. simpl. by rewrite lookup_insert_ne.
    - apply (dom_insert_lookup_L (data f1)). by eapply st_live. }
  intros [offset' |]; [| by apply close_refuse].
  tbind triple_resume. destruct (negb _); [by apply close_return |].
  destruct (_ <? _); [apply receive_missing_integrity | by apply give].
Qed.

(** The file that is verified has the hash that is compared. *)
Definition verified (o : ofile) (h : list byte) (f : fs) : Prop :=
  idle f /\ dir f !! part = Some (ino o) /\ hex (sha256 (content f (ino o))) = h.

Lemma verify_part_integrity o :
  triple (at_files (holding o) b) (verify_part task o)
    (fun r => match r with None => at_files idle b | Some h => at_files (verified o h) b end).
Proof.
  unfold verify_part. tbind (triple_fs call _ (fun _ => holding o)).
  { intros f r f' Hh Hc. eapply holding_same; [by eapply call_same | done]. }
  destruct (negb a); [by apply close_refuse |].
  tbind (triple_fs (lseek o 0) _ (fun r f => holding o f /\
           (forall o', r = Some o' -> o' = {| ino := ino o; pos := 0 |}))).
  { intros f r f' Hh. unfold lseek. destruct (call f) as [ok f1] eqn:E.
    assert (holding o f1) by (eapply holding_same; [by eapply call_same | done]).
    destruct (ok && _); intros [= <- <-]; by split; [| intros ? [= <-]]. }
  destruct a0 as [o' |].
  2: { eapply (triple_pre (at_files (holding o) b)); [by apply close_refuse |]. intros s [[? _] ?]. done. }
  tbind (triple_fs_loop (fun f => '(r, o, f) ← utils_get_file_sha256 o' 65 f; Ret (r, f)) _
    (fun r f => holding o f /\ (forall h, r = Some h -> hex (sha256 (content f (ino o))) = h))).
  { intros f r f' [Hh Ho] Hr. specialize (Ho o' eq_refl) as ->.
    destruct (utils_get_file_sha256_spec {| ino := ino o; pos := 0 |} 65 f) as (r1 & o1 & f1 & Hsha & Hs & Hr1 & _);
      [lia | done |].
    rewrite Hsha in Hr. cbn [mbind outcome_bind] in Hr. injection Hr as <- <-.
    split; [by eapply holding_same |]. intros h Hh1. rewrite (content_same f f1) by done. simpl in Hr1.
    destruct Hr1 as [? | ?]; congruence. }
  destruct a0 as [h |].
  - tbind (triple_close _ (verified o h)); [| by apply give].
    intros f [(Hst & Hop & Hd) Hh]. split_and!; [split; [by apply store_close | simpl; lia] | done | by apply Hh].
  - eapply (triple_pre (at_files (holding o) b)); [by apply close_refuse |]. intros s [[? _] ?]. done.
Qed.

Lemma unlink_idle path :
  triple (at_files idle b) (on_fs (fun f => (tt, fs_unlink path f))) (fun _ => at_files idle b).
Proof.
  apply (triple_fs _ idle (fun _ => idle)). intros f r f' [Hst Hop] [= _ <-].
  destruct (store_unlink (x_storage_root task) path f Hst). split; [done | lia].
Qed.

Lemma promote_part_integrity o h :
  utils_is_valid_sha256_hex h = true ->
  triple (at_files (verified o h) b) (promote_part task part (x_storage_root task ++ [SLASH] ++ h))
    (fun _ => at_files idle b).
Proof.
  intros Hv. unfold promote_part.
  tbind (triple_fs (rename part (x_storage_root task ++ [SLASH] ++ h)) _ (fun _ => idle)).
  { intros f r f' ([Hst Hop] & Hd & Hh) Hr.
    apply (store_rename _ _ _ _ _ _ _ Hst Hd) in Hr as [? ?]; [split; [done | lia] | by apply Hout | done]. }
  destruct a as [eexist |]; [| by apply give].
  eapply (triple_bind _ _ (fun _ => at_files idle b)).
  { destruct eexist; [by apply give |]. apply (triple_fs _ idle (fun _ => idle)).
    intros f r f' [Hst Hop]. unfold access. destruct (call f) as [ok f1] eqn:E. intros [= _ <-].
    destruct (call_same _ _ _ E) as [l ->]. split; [by eapply store_same; [eexists |] | done]. }
  intros [|]; [tbind unlink_idle | tbind triple_refuse]; by apply give.
Qed.

Lemma publish_part_integrity o target_path parent_id file_name h file_size :
  utils_is_valid_sha256_hex h = true ->
  triple (at_files (holding o) b)
    (publish_part task o part (x_storage_root task ++ [SLASH] ++ h) target_path parent_id file_name h file_size)
    (fun _ => at_files idle b).
Proof.
  intros Hv. unfold publish_part. tbind verify_part_integrity. destruct a as [h' |]; [| by apply give].
  case_bool_decide as Hne.
  - eapply (triple_pre (at_files idle b)); [| by intros s [[? _] ?]].
    tbind unlink_idle. apply triple_refuse.
  - subst h'. tbind promote_part_integrity; [done |]. destruct (negb a); [by apply give |].
    tbind triple_db. destruct (negb _); [apply triple_refuse |]. tbind triple_send. by apply give.
Qed.

End integrity.

Lemma snprintf_fits n s : Z.of_nat (length s) < n -> snprintf n s = (Z.of_nat (length s), s).
Proof. intros Hs. unfold snprintf. rewrite take_ge by lia. done. Qed.

Section integrity_results.
Context `{Host} `{MySQL} `{Sha256} (malloc_ok : Z -> bool).

Lemma upload_content_integrity task target_path parent_id file_name h file_size n b :
  utils_is_valid_sha256_hex h = true ->
  triple (at_files (idle task n) b)
    (upload_content malloc_ok task target_path parent_id file_name h file_size) (fun _ => at_files (idle task n) b).
Proof.
  intros Hv. unfold upload_content.
  set (part := x_transfer_temp_dir task ++ [SLASH] ++ h ++ lit ".part").
  destruct (snprintf PATH_MAX part) as [n1 part'] eqn:E1.
  destruct (snprintf PATH_MAX (x_storage_root task ++ [SLASH] ++ h)) as [n2 final] eqn:E2.
  destruct ((PATH_MAX <=? n1) || (PATH_MAX <=? n2)) eqn:E; [apply triple_refuse |]. zbool.
  assert (n1 = Z.of_nat (length part)) by (unfold snprintf in E1; congruence).
  assert (n2 = Z.of_nat (length (x_storage_root task ++ [SLASH] ++ h))) by (unfold snprintf in E2; congruence).
  rewrite snprintf_fits in E1, E2 by lia. injection E1 as _ <-. injection E2 as _ <-.
  assert (Hout : outside (x_storage_root task) part) by (unfold part; rewrite !app_assoc; apply part_outside).
  tbind (receive_part_integrity malloc_ok task part n b Hout). destruct a as [o |]; [| by apply give].
  by apply publish_part_integrity.
Qed.

Lemma parse_valid p path size h : parse_upload_request p = inr (path, size, h) -> utils_is_valid_sha256_hex h = true.
Proof.
  unfold parse_upload_request. destruct (payload p); [| done]. destruct (negb _); [done |].
  destruct (_ || _) eqn:E; [done |]. intros [= _ _ <-]. by zbool.
Qed.

Lemma instant_upload_integrity task target_path parent_id file_name file_id file_size F b :
  triple (at_files F b) (instant_upload task target_path parent_id file_name file_id file_size)
    (fun _ => at_files F b).
Proof.
  unfold instant_upload. tbind triple_db. destruct (negb _); [apply triple_refuse |].
  tbind triple_resume. destruct (negb _); [by apply give |]. tbind triple_send. by apply give.
Qed.

Lemma handle_puts_integrity task n b :
  triple (at_files (idle task n) b) (handle_puts malloc_ok task) (fun _ => at_files (idle task n) b).
Proof.
  unfold handle_puts. destruct (parse_upload_request (x_packet task)) as [st | [[path size] h]] eqn:E;
    [apply triple_refuse |]. apply parse_valid in E.
  tbind triple_lift. apply triple_pure. intros _. destruct a as [target |]; [| apply triple_refuse].
  tbind triple_lift. apply triple_pure. intros _. destruct a as [[parent name] |]; [| apply triple_refuse].
  tbind triple_db. destruct a as [[] parent_id]; try apply triple_refuse.
  tbind triple_lift. apply triple_pure. intros _.
  tbind triple_db. destruct a0 as [[] ?]; try apply triple_refuse.
  tbind triple_db. destruct a0 as [ret fid]. destruct (_ <? _); [apply triple_refuse |].
  destruct (_ =? _); [| by apply upload_content_integrity].
  tbind triple_lift. apply triple_pure. intros _. apply instant_upload_integrity.
Qed.

(** (C2) Integrity of the file store: whatever the client sends, the kernel
    answers and the database does, when [handle_puts] returns, every file
    [storage_root/<hex>] still has content whose SHA-256 is <hex>, no file has
    two names, every descriptor it opened is closed and every payload buffer it
    received is freed.  (Here the worker has the files to itself.) *)
Theorem upload_store_integrity task s s' :
  store_ok (x_storage_root task) (xf_fs s) ->
  handle_puts malloc_ok task s = Ret (tt, s') ->
  store_ok (x_storage_root task) (xf_fs s') /\ opened (xf_fs s') = opened (xf_fs s) /\
  buffers (xf_sock s') = buffers (xf_sock s).
Proof.
  intros Hst Hr. destruct (handle_puts_integrity task (opened (xf_fs s)) (buffers (xf_sock s)) s tt s') as [[? ?] ?];
    [by split | done | by split_and!].
Qed.

End integrity_results.
