(* ===== verification/HandlerTransferFlow.v ===== *)
(** * The course of an upload and of a download

    Total correctness: with a client that follows the protocol, a kernel that
    does not fail and a database that stays up, [handle_puts] stores exactly the
    content that was announced and [handle_gets] sends exactly the rest of the
    stored content. *)

From Stdlib Require Import Strings.Byte.
From S2P Require Import Prelude CString Protocol Utils Heap Session Database DatabasePool Dao Tables DatabaseDemo DaoSpec.
From S2P Require Import HandlerBasic HandlerBasicSpec Files HandlerTransfer HandlerTransferSpec.

(** ** Packets of the flow *)

(** [cmd_wf] and [status_wf] of an enumerator *)
Ltac enum_wf := split; [unfold is_u32, u32_mod; simpl; lia | reflexivity].

Section flow.
Context `{Host} {M : MySQL} {Spec : MySQLSpec M} {Stored : MySQLStored M Spec} {Up : MySQLUp M Spec} `{Sha256} (malloc_ok : Z -> bool).
Context (Hmalloc : forall n, malloc_ok n = true).

Lemma response_wf ty st sid pl :
  cmd_wf ty -> status_wf st -> small pl -> session_id_wf sid -> packet_wf (response ty st sid pl).
Proof.
  intros Hc Hs Hp Hid. unfold packet_wf, header_wf, response. simpl.
  destruct pl as [l |]; [specialize (Hp l eq_refl) |]; split_and!; try done; lia.
Qed.

Lemma received_payload ty st sid l :
  l <> [] -> payload (received (response ty st sid (Some l))) = Some l.
Proof. intros Hl. simpl. destruct (Z.eqb_spec (Z.of_nat (length l)) 0); [| done]. by destruct l. Qed.

(** ** Total correctness of transfer programs *)

Definition xwp {A} (m : xm A) (Q : A -> xfer_state -> Prop) (s : xfer_state) : Prop :=
  exists a s', m s = Ret (a, s') /\ Q a s'.

Lemma xwp_ret {A} (a : A) Q s : Q a s -> xwp (mret a) Q s.
Proof. by exists a, s. Qed.

Lemma xwp_bind {A B} (m : xm A) (f : A -> xm B) Q s :
  xwp m (fun a s' => xwp (f a) Q s') s -> xwp (m ≫= f) Q s.
Proof.
  intros (a & s1 & Hm & b & s2 & Hf & HQ). exists b, s2. split; [| done].
  unfold mbind, xm_bind. rewrite Hm. done.
Qed.

Lemma xwp_mono {A} (m : xm A) (Q Q' : A -> xfer_state -> Prop) s :
  xwp m Q s -> (forall a s', Q a s' -> Q' a s') -> xwp m Q' s.
Proof. intros (a & s' & Hm & HQ) Himp. exists a, s'. auto. Qed.

Lemma xwp_lift {A} (o : outcome A) a Q s : o = Ret a -> Q a s -> xwp (lift_x o) Q s.
Proof. intros -> HQ. by exists a, s. Qed.

Lemma xwp_db {A} (m : dbm A) (R : A -> db -> Prop) Q s :
  wp m R (xf_db s) ->
  (forall a d, R a d -> Q a {| xf_sock := xf_sock s; xf_fs := xf_fs s; xf_db := d |}) -> xwp (on_xdb m) Q s.
Proof. intros (a & d & Hm & HR) HQ. eexists a, _. split; [unfold on_xdb; by rewrite Hm | by apply HQ]. Qed.

Lemma xwp_fs {A} (m : fs -> A * fs) a f' Q s :
  m (xf_fs s) = (a, f') -> Q a {| xf_sock := xf_sock s; xf_fs := f'; xf_db := xf_db s |} -> xwp (on_fs m) Q s.
Proof. intros Hm HQ. eexists a, _. split; [unfold on_fs; by rewrite Hm | done]. Qed.

(** The connection, the files and the database *)
Definition world (out inp : list byte) (room : nat) (f : fs) (d : db) (s : xfer_state) : Prop :=
  channel out inp room (xf_sock s) /\ xf_fs s = f /\ xf_db s = d.

Lemma xwp_release out inp room f d p Q s :
  world out inp room f d s -> (forall s', world out inp room f d s' -> Q tt s') -> xwp (x_release p) Q s.
Proof.
  intros (Hch & <- & <-) HQ. eexists tt, _. split; [done |]. apply HQ. split_and!; [| done | done].
  simpl. by destruct (owns_payload p); [apply channel_buffers |].
Qed.

Lemma xwp_close out inp room f d Q s :
  world out inp room f d s -> (forall s', world out inp room (close f) d s' -> Q tt s') -> xwp x_close Q s.
Proof. intros (Hch & <- & <-) HQ. eexists tt, _. split; [done |]. by apply HQ. Qed.

Lemma xwp_send out inp room f d task ty st pl Q s :
  cmd_wf ty -> status_wf st -> small pl -> session_id_wf (task_sid task) ->
  world out inp (length (wire_packet (response ty st (task_sid task) pl)) + room) f d s ->
  (forall s', world (out ++ wire_packet (response ty st (task_sid task) pl)) inp room f d s' -> Q 0 s') ->
  xwp (send_transfer_packet task ty st pl) Q s.
Proof.
  intros Hc Hst Hp Hsid (Hch & <- & <-) HQ. unfold send_transfer_packet, packet_init.
  assert (Hg : (MAX_PACKET_PAYLOAD <? match pl with Some l => Z.of_nat (length l) | None => 0 end)
     || ((0 <? match pl with Some l => Z.of_nat (length l) | None => 0 end) && bool_decide (pl = None)) = false).
  { destruct pl as [l |]; [| done]. specialize (Hp l eq_refl).
    rewrite (proj2 (Z.ltb_ge _ _)) by done. by rewrite andb_false_r. }
  rewrite Hg. destruct (channel_send _ _ _ _ _ (response_wf ty st (task_sid task) pl Hc Hst Hp Hsid) Hch) as (k & Hs & Hch').
  eexists 0, _. split; [unfold on_socket; unfold response in Hs; simpl; by rewrite Hs | by apply HQ].
Qed.

Lemma xwp_recv out inp room f d task ty st pl Q s :
  cmd_wf ty -> status_wf st -> small pl -> session_id_wf (task_sid task) ->
  world out (wire_packet (response ty st (task_sid task) pl) ++ inp) room f d s ->
  (forall s', world out inp room f d s' -> Q (Some (received (response ty st (task_sid task) pl))) s') ->
  xwp (recv_transfer_packet malloc_ok task) Q s.
Proof.
  intros Hc Hst Hp Hsid (Hch & <- & <-) HQ.
  destruct (channel_recv malloc_ok _ _ _ _ _ (response_wf ty st (task_sid task) pl Hc Hst Hp Hsid) (Hmalloc _) Hch)
    as (k & Hr & Hch'). unfold recv_transfer_packet. apply xwp_bind. eexists _, _. split.
  { unfold on_socket. rewrite Hr. reflexivity. }
  cbn [Z.eqb negb fst]. unfold session_id_equal. cbn [received response header session_id_of].
  rewrite bool_decide_eq_true_2 by done. cbn [negb]. apply xwp_ret. by apply HQ.
Qed.

Lemma xwp_resume out inp room f d task offset Q s :
  session_id_wf (task_sid task) ->
  world out inp (length (wire_packet (response CMD_PUTS_RESP STATUS_OK (task_sid task) (Some (resume_payload offset)))) + room) f d s ->
  (forall s', world (out ++ wire_packet (response CMD_PUTS_RESP STATUS_OK (task_sid task) (Some (resume_payload offset))))
     inp room f d s' -> Q 0 s') ->
  xwp (on_socket (fun s => send_puts_resume s (task_sid task) offset)) Q s.
Proof.
  intros Hsid (Hch & <- & <-) HQ.
  assert (Hlen : length (resume_payload offset) = 8%nat).
  { unfold resume_payload, mem_of. destruct big_endian; rewrite ?length_rev; apply length_bytes_le. }
  assert (Hwf : packet_wf (response CMD_PUTS_RESP STATUS_OK (task_sid task) (Some (resume_payload offset)))).
  { apply response_wf; [enum_wf | enum_wf | | done]. apply small_some. rewrite Hlen. done. }
  destruct (channel_send _ _ _ _ _ Hwf Hch) as (k & Hs & Hch').
  assert (Hr : send_puts_resume (xf_sock s) (task_sid task) offset = Ret (0, k)).
  { unfold response in Hs. rewrite Hlen in Hs. exact Hs. }
  eexists 0, _. split; [unfold on_socket; by rewrite Hr | by apply HQ].
Qed.

(** ** Receiving a file *)

(** The [CMD_FILE_DATA] packets that carry [chunks] *)
Definition frames (sid : session_id) (chunks : list (list byte)) : list byte :=
  flat_map (fun c => wire_packet (response CMD_FILE_DATA STATUS_OK sid (Some c))) chunks.

Definition chunk_ok (c : list byte) : Prop := c <> [] /\ Z.of_nat (length c) <= FILE_CHUNK_SIZE.

Definition end_packet (sid : session_id) : packet := response CMD_FILE_END STATUS_OK sid None.

Lemma chunk_small c : chunk_ok c -> small (Some c).
Proof. intros [_ Hc]. apply small_some. unfold FILE_CHUNK_SIZE, MAX_PACKET_PAYLOAD in *. lia. Qed.

Lemma receive_loop_flow task chunks : session_id_wf (task_sid task) -> forall fuel o got expected out inp room f d s,
  Forall chunk_ok chunks -> got + Z.of_nat (length (concat chunks)) = expected ->
  (length chunks <= fuel)%nat -> fault_free f ->
  world out (frames (task_sid task) chunks ++ inp) room f d s ->
  xwp (receive_loop malloc_ok fuel task o got expected)
    (fun r s' => exists o' f', r = Received o' expected false /\ world out inp room f' d s' /\
       wrote o (concat chunks) f o' f' /\ fault_free f') s.
Proof.
  intros Hsid. induction chunks as [| c chunks IH]; intros fuel o got expected out inp room f d s Hok Hlen Hfuel Hff Hw.
  - destruct fuel; cbn [receive_loop]; rewrite (proj2 (Z.ltb_ge _ _)) by (simpl in Hlen; lia); cbn [negb];
      apply xwp_ret; (replace expected with got by (simpl in Hlen; lia)); exists o, f; split_and!; try done;
      apply wrote_same, same_files_refl.
  - apply Forall_cons in Hok as [[Hne Hc] Hok]. cbn [concat] in *. rewrite length_app in Hlen.
    assert (Hpos : (0 < length c)%nat) by (destruct c; [done | simpl; lia]).
    destruct fuel as [| fuel]; [simpl in Hfuel; lia |]. cbn [receive_loop].
    rewrite (proj2 (Z.ltb_lt _ _)) by lia. cbn [negb]. apply xwp_bind.
    cbn [frames flat_map] in Hw. rewrite <- app_assoc in Hw.
    eapply xwp_recv; [| | | done | exact Hw |]; [enum_wf | enum_wf | by apply chunk_small |].
    intros s1 Hw1. cbn [received header response type payload_len]. rewrite bool_decide_eq_false_2 by done.
    rewrite bool_decide_eq_false_2 by (intros Hx; by apply Hx). cbn [orb].
    rewrite (proj2 (Z.eqb_neq _ _)), (proj2 (Z.ltb_ge FILE_CHUNK_SIZE _)), (proj2 (Z.ltb_ge (expected - got) _)) by lia.
    cbn [orb]. apply xwp_bind. eapply xwp_lift; [by rewrite received_payload |].
    rewrite Nat2Z.id, take_ge by done.
    destruct (write_n_free o c f Hff) as (o1 & f1 & Hwr & Hwrote & Hff1). destruct Hw1 as (Hch & Hf & Hd).
    apply xwp_bind. eapply xwp_fs; [rewrite Hf; exact Hwr |]. cbn [Z.eqb negb].
    apply xwp_bind. eapply (xwp_release out (frames (task_sid task) chunks ++ inp) room f1 d); [done |].
    intros s2 Hw2. eapply xwp_mono; [eapply (IH fuel o1 _ expected); [done | lia | simpl in Hfuel; lia | done | exact Hw2] |].
    intros r s3 (o' & f' & -> & Hw3 & Hwr' & Hff'). exists o', f'. split_and!; [done | done | | done].
    by eapply wrote_trans.
Qed.

Lemma chunks_count chunks : Forall chunk_ok chunks -> (length chunks <= length (concat chunks))%nat.
Proof.
  induction 1 as [| c chunks [Hc _] _ IH]; simpl; [done |]. rewrite length_app. destruct c; [done | simpl; lia].
Qed.

(** What the client sends: the missing bytes and the end mark, or nothing when
    nothing is missing. *)
Definition incoming (sid : session_id) (chunks : list (list byte)) : list byte :=
  match chunks with [] => [] | _ => frames sid chunks ++ wire_packet (end_packet sid) end.

Lemma lseek_free o off f : fault_free f -> off < 2 ^ 63 ->
  exists l, lseek o off f = (Some {| ino := ino o; pos := Z.to_nat off |}, set_io f l) /\ fault_free (set_io f l).
Proof.
  intros Hf Ho. destruct (call_free f Hf) as (l & Hl & Hl'). exists l. unfold lseek. rewrite Hl.
  by rewrite (proj2 (Z.ltb_lt _ _)).
Qed.

Lemma receive_missing_flow task chunks o offset size out inp room f d s :
  session_id_wf (task_sid task) -> Forall chunk_ok chunks -> chunks <> [] ->
  0 <= offset -> offset + Z.of_nat (length (concat chunks)) = size -> size < 2 ^ 63 ->
  offset = Z.of_nat (length (content f (ino o))) -> fault_free f ->
  world out (incoming (task_sid task) chunks ++ inp) room f d s ->
  xwp (receive_missing malloc_ok task o offset size)
    (fun r s' => exists o' f', r = Some o' /\ world out inp room f' d s' /\ ino o' = ino o /\
       dir f' = dir f /\ opened f' = opened f /\ content f' (ino o) = content f (ino o) ++ concat chunks /\
       (forall i, i <> ino o -> data f' !! i = data f !! i) /\ fault_free f') s.
Proof.
  intros Hsid Hok Hne Hoff Hsize Hmax Hlen Hff (Hch & Hf & Hd). unfold receive_missing.
  destruct (lseek_free o offset f Hff ltac:(lia)) as (l & Hseek & Hff1).
  apply xwp_bind. eapply xwp_fs; [rewrite Hf; exact Hseek |]. cbn beta iota zeta.
  assert (Hin : incoming (task_sid task) chunks = frames (task_sid task) chunks ++ wire_packet (end_packet (task_sid task)))
    by (by destruct chunks). rewrite Hin, <- app_assoc in Hch.
  apply xwp_bind. eapply xwp_mono.
  { eapply (receive_loop_flow task chunks Hsid _ _ 0 (size - offset)); [done | lia | | exact Hff1 | by split].
    pose proof (chunks_count chunks Hok). lia. }
  intros r s1 (o1 & f1 & -> & Hw1 & Hwr & Hff2). rewrite Z.eqb_refl. cbn [negb].
  apply xwp_bind. eapply (xwp_recv out inp room f1 d task CMD_FILE_END STATUS_OK None);
    [enum_wf | enum_wf | apply small_none | done | exact Hw1 |].
  intros s2 Hw2. rewrite bool_decide_eq_false_2 by (intros Hx; by apply Hx).
  apply xwp_bind. eapply xwp_release; [exact Hw2 |]. intros s3 Hw3. apply xwp_ret.
  destruct Hwr as [Ho1 Hdir Hop Hcon _ Hoth]. simpl in Hcon. exists o1, f1. split_and!; try done.
  - by rewrite Ho1.
  - rewrite Hcon, Hlen, Nat2Z.id. apply overwrite_end.
Qed.

(** What an earlier attempt left in the temporary file, and what of it is kept:
    nothing when it is longer than the file that is announced. *)
Definition saved (f : fs) (part : list byte) : list byte :=
  match dir f !! part with Some i => content f i | None => [] end.
Definition usable (size : Z) (l : list byte) : list byte := if size <? Z.of_nat (length l) then [] else l.

Definition resume_packet (sid : session_id) (offset : Z) : packet :=
  response CMD_PUTS_RESP STATUS_OK sid (Some (resume_payload offset)).

(** [f'] is [f] with the file [part] holding [l], open once more as [o]. *)
Record part_holds (part l : list byte) (o : ofile) (f f' : fs) : Prop := {
  ph_dir : dir f' = <[part := ino o]> (dir f);
  ph_content : content f' (ino o) = l;
  ph_other i : i <> ino o -> data f' !! i = data f !! i;
  ph_new : dir f !! part = Some (ino o) \/ (dir f !! part = None /\ data f !! ino o = None);
  ph_opened : opened f' = opened f + 1
}.

Lemma open_create_free part f : fault_free f ->
  exists o f', open_create part f = (Some o, f') /\ pos o = 0%nat /\ fault_free f' /\ part_holds part (saved f part) o f f'.
Proof.
  intros Hf. unfold open_create. destruct (next_answer_free f Hf) as (a & l & -> & -> & Hl). cbn [dir set_io data].
  unfold saved. destruct (dir f !! part) as [i |] eqn:E; eexists _, _; split_and!; try done.
  - split; simpl; try done; [by rewrite (fin_maps.insert_id (dir f)) | by left].
  - split; simpl; try done.
    + apply content_insert.
    + intros j Hj. by rewrite lookup_insert_ne.
    + right. split; [done |]. apply not_elem_of_dom, is_fresh.
Qed.

Lemma truncate_free part l o f f' : fault_free f' -> part_holds part l o f f' ->
  exists f2, ftruncate0 o f' = (true, f2) /\ fault_free f2 /\ part_holds part [] o f f2.
Proof.
  intros Hf []. destruct (call_free f' Hf) as (k & Hk & Hk'). unfold ftruncate0. rewrite Hk. eexists. split_and!; [done | done |].
  split; simpl; try done; [apply content_insert |]. intros i Hi. rewrite lookup_insert_ne by done. by apply ph_other0.
Qed.

Lemma part_holds_same part l o f f' f2 : same_files f' f2 -> part_holds part l o f f' -> part_holds part l o f f2.
Proof. by intros [k ->] []. Qed.

Lemma receive_part_flow task part chunks size have out inp room f d s :
  session_id_wf (task_sid task) -> Forall chunk_ok chunks -> have = usable size (saved f part) ->
  size = Z.of_nat (length have + length (concat chunks)) -> size < 2 ^ 63 -> fault_free f ->
  world out (incoming (task_sid task) chunks ++ inp)
    (length (wire_packet (resume_packet (task_sid task) (Z.of_nat (length have)))) + room) f d s ->
  xwp (receive_part malloc_ok task part size)
    (fun r s' => exists o f', r = Some o /\
       world (out ++ wire_packet (resume_packet (task_sid task) (Z.of_nat (length have)))) inp room f' d s' /\
       part_holds part (have ++ concat chunks) o f f' /\ fault_free f') s.
Proof.
  intros Hsid Hok Hhave Hsize Hmax Hff (Hch & Hf & Hd). unfold receive_part.
  destruct (open_create_free part f Hff) as (o & f1 & Hopen & Hpos & Hff1 & Hp1).
  apply xwp_bind. eapply xwp_fs; [rewrite Hf; exact Hopen |]. cbn beta iota.
  destruct (call_free f1 Hff1) as (l & Hl & Hff2). apply xwp_bind. eapply xwp_fs.
  { cbn [xf_fs]. unfold fstat_size. rewrite Hl. reflexivity. }
  cbn beta iota. change (content (set_io f1 l) (ino o)) with (content f1 (ino o)). rewrite (ph_content _ _ _ _ _ Hp1).
  assert (Hp2 : part_holds part (saved f part) o f (set_io f1 l)) by (eapply part_holds_same; [by eexists | done]).
  (* the offset that is announced *)
  apply xwp_bind. eapply (xwp_mono _ (fun r s1 => r = Some (Z.of_nat (length have)) /\ exists f2,
    world out (incoming (task_sid task) chunks ++ inp)
      (length (wire_packet (resume_packet (task_sid task) (Z.of_nat (length have)))) + room) f2 d s1 /\
    part_holds part have o f f2 /\ fault_free f2)).
  { unfold usable in Hhave. destruct (size <? Z.of_nat (length (saved f part))).
    - destruct (truncate_free _ _ _ _ _ Hff2 Hp2) as (f2 & Ht & Hff3 & Hp3).
      apply xwp_bind. eapply xwp_fs; [exact Ht |]. apply xwp_ret. subst have. split; [done |]. by exists f2.
    - apply xwp_ret. subst have. split; [done |]. by exists (set_io f1 l). }
  intros r s1 (-> & f2 & Hw1 & Hp & Hff3).
  apply xwp_bind. eapply xwp_resume; [done | exact Hw1 |]. intros s2 Hw2. cbn [Z.eqb negb].
  destruct chunks as [| c chunks].
  - rewrite (proj2 (Z.ltb_ge _ _)) by (simpl in Hsize; lia). apply xwp_ret. exists o, f2.
    cbn [concat]. rewrite app_nil_r. by split_and!.
  - assert (Hpos1 : (0 < length (concat (c :: chunks)))%nat).
    { apply chunks_count in Hok. simpl in Hok |- *. lia. }
    rewrite (proj2 (Z.ltb_lt _ _)) by lia. eapply xwp_mono.
    { eapply (receive_missing_flow task (c :: chunks) o (Z.of_nat (length have)) size); [done | done | done | lia | lia | done | | exact Hff3 | exact Hw2].
      by rewrite (ph_content _ _ _ _ _ Hp). }
    intros r s3 (o' & f3 & -> & Hw3 & Ho & Hdir & Hop & Hcon & Hoth & Hff4). exists o', f3.
    split_and!; [done | done | | done]. destruct Hp as [Hp_dir Hp_con Hp_oth Hp_new Hp_op]. split; rewrite ?Ho; try done.
    + congruence.
    + by rewrite Hcon, Hp_con.
    + intros i Hi. by rewrite Hoth, Hp_oth.
    + congruence.
Qed.

(** ** Publishing a file *)

Lemma verify_part_flow task part l o f0 out inp room f d s :
  fault_free f -> part_holds part l o f0 f -> world out inp room f d s ->
  xwp (verify_part task o)
    (fun r s' => exists f', r = Some (hex (sha256 l)) /\ world out inp room f' d s' /\
       same_files f (add_opened f' 1) /\ fault_free f') s.
Proof.
  intros Hff Hp (Hch & Hf & Hd). unfold verify_part. destruct (call_free f Hff) as (k & Hk & Hff1).
  apply xwp_bind. eapply xwp_fs; [rewrite Hf; exact Hk |]. cbn [negb].
  destruct (lseek_free o 0 (set_io f k) Hff1 ltac:(lia)) as (k2 & Hk2 & Hff2).
  apply xwp_bind. eapply xwp_fs; [exact Hk2 |]. cbn beta iota.
  destruct (utils_get_file_sha256_spec {| ino := ino o; pos := Z.to_nat 0 |} 65 (set_io (set_io f k) k2))
    as (r & o' & f3 & Hsha & Hs3 & Hr & Hfree); [lia | done |].
  destruct (Hfree Hff2) as [Hne Hff3]. destruct Hr as [-> | ?]; [| done].
  assert (Hcon : content (set_io (set_io f k) k2) (ino o) = l) by (rewrite <- (ph_content _ _ _ _ _ Hp); done).
  cbn [ino] in Hsha. rewrite Hcon in Hsha.
  apply xwp_bind. eexists _, _. split; [unfold on_fs_loop; cbn [xf_fs]; rewrite Hsha; reflexivity |]. cbn beta iota.
  apply xwp_bind. eapply (xwp_close out inp room f3 d); [done |]. intros s4 Hw4. apply xwp_ret.
  exists (close f3). split_and!; [done | done | | done].
  destruct Hs3 as [k3 ->]. exists k3. unfold close, add_opened, set_io. simpl. f_equal. lia.
Qed.

Lemma promote_part_flow task part final i out inp room f d s :
  fault_free f -> dir f !! part = Some i -> world out inp room f d s ->
  xwp (promote_part task part final)
    (fun r s' => exists f', r = true /\ world out inp room f' d s' /\ fault_free f' /\
       dir f' = <[final := i]> (delete part (dir f)) /\ data f' = data f /\ opened f' = opened f) s.
Proof.
  intros Hff Hi (Hch & Hf & Hd). unfold promote_part.
  destruct (next_answer_free f Hff) as (a & k & Hn & Ha & Hk).
  apply xwp_bind. eapply xwp_fs; [rewrite Hf; unfold rename; rewrite Hn, Ha; cbn [dir set_io]; rewrite Hi; reflexivity |].
  apply xwp_ret. eexists. by split_and!.
Qed.

(** The rows that an upload adds, and the file in the store *)
Record uploaded (p : database_pool) (t : tables) (task : transfer_task) (path : list byte) (parent_id : Z)
    (name l : list byte) (f f' : fs) (d' : db) : Prop := {
  up_rows : attached p t (ctx_user_id (x_session task)) path parent_id name d'
    (fun i g => f_hash g = hex (sha256 l) /\ (files t !! i = None -> f_size g = Z.of_nat (length l)));
  up_there : is_Some (dir f' !! (x_storage_root task ++ [SLASH] ++ hex (sha256 l)));
  up_file : saved f' (x_storage_root task ++ [SLASH] ++ hex (sha256 l)) = l;
  up_part : dir f' !! (x_transfer_temp_dir task ++ [SLASH] ++ hex (sha256 l) ++ lit ".part") = None;
  up_others q : q <> x_storage_root task ++ [SLASH] ++ hex (sha256 l) ->
    q <> x_transfer_temp_dir task ++ [SLASH] ++ hex (sha256 l) ++ lit ".part" ->
    dir f' !! q = dir f !! q /\ saved f' q = saved f q;
  up_opened : opened f' = opened f
}.

Definition ack_packet (sid : session_id) : packet := response CMD_ACK STATUS_OK sid None.

Lemma hash_text l :
  utils_is_valid_sha256_hex (hex (sha256 l)) = true /\ length (hex (sha256 l)) = 64%nat /\
  map tolower (hex (sha256 l)) = hex (sha256 l) /\ sha_text (hex (sha256 l)).
Proof.
  destruct (hex_text (sha256 l)) as (Hlen & Hx & Hl & _). rewrite sha256_length in Hlen.
  split_and!; [unfold utils_is_valid_sha256_hex; by rewrite Hlen, Hx | done | done |]. split; [done |].
  apply Forall_forall. intros b Hb. rewrite forallb_forall in Hx. by apply Hx, list_elem_of_In.
Qed.

(** The content of the part file, verified and renamed, and nothing else changed *)
Lemma promoted_saved root part final l o f f1 f2 :
  store_ok root f -> part_holds part l o f f1 -> part <> final ->
  dir f2 = <[final := ino o]> (delete part (dir f1)) -> data f2 = data f1 ->
  saved f2 final = l /\ dir f2 !! part = None /\
  (forall q, q <> final -> q <> part -> dir f2 !! q = dir f !! q /\ saved f2 q = saved f q).
Proof.
  intros Hst [Hdir Hcon Hoth Hnew Hop] Hne Hd2 Hdata. rewrite Hdir in Hd2.
  assert (Hc : forall i, content f2 i = content f1 i) by (intros i; unfold content; by rewrite Hdata).
  split_and!.
  - unfold saved. by rewrite Hd2, lookup_insert_eq, Hc.
  - by rewrite Hd2, lookup_insert_ne, lookup_delete_eq.
  - intros q Hq Hqp. assert (Hl : dir f2 !! q = dir f !! q)
      by (by rewrite Hd2, lookup_insert_ne, lookup_delete_ne, lookup_insert_ne).
    split; [done |]. unfold saved. rewrite Hl. destruct (dir f !! q) as [i |] eqn:Ei; [| done].
    rewrite Hc. unfold content. rewrite Hoth; [done |]. intros ->. destruct Hnew as [Hp | [_ Hp]].
    + apply Hqp. by eapply (st_inj _ _ Hst).
    + apply (st_live _ _ Hst) in Ei as [? ?]. congruence.
Qed.

Lemma upload_content_flow p t task path parent_id name l have chunks out inp room f d s :
  session_id_wf (task_sid task) -> store_ok (x_storage_root task) f -> fault_free f ->
  Z.of_nat (length (x_transfer_temp_dir task) + 70) < PATH_MAX ->
  Z.of_nat (length (x_storage_root task) + 65) < PATH_MAX ->
  have = usable (Z.of_nat (length l)) (saved f (x_transfer_temp_dir task ++ [SLASH] ++ hex (sha256 l) ++ lit ".part")) ->
  Forall chunk_ok chunks -> have ++ concat chunks = l -> Z.of_nat (length l) < 2 ^ 63 ->
  free_connection p -> settled p t d -> tables_ok same_text t -> up 4 (srv d) ->
  attachable (ctx_user_id (x_session task)) parent_id path name -> long_enough path name ->
  (forall i g, files t !! i = Some g -> f_hash g <> hex (sha256 l)) ->
  find_node same_text t (ctx_user_id (x_session task)) path = None ->
  world out (incoming (task_sid task) chunks ++ inp)
    (length (wire_packet (resume_packet (task_sid task) (Z.of_nat (length have)))) +
     (length (wire_packet (ack_packet (task_sid task))) + room)) f d s ->
  xwp (upload_content malloc_ok task path parent_id name (hex (sha256 l)) (Z.of_nat (length l)))
    (fun _ s' => exists f' d',
       world (out ++ wire_packet (resume_packet (task_sid task) (Z.of_nat (length have))) ++
              wire_packet (ack_packet (task_sid task))) inp room f' d' s' /\
       uploaded p t task path parent_id name l f f' d') s.
Proof.
  intros Hsid Hst Hff Htemp Hroot Hhave Hok Hl Hmax Hfree Hset Htab Hup Hfit Hlong Hnew Hnone Hw.
  destruct (hash_text l) as (Hv & Hh64 & Hlow & Hsha). unfold upload_content.
  set (part := x_transfer_temp_dir task ++ [SLASH] ++ hex (sha256 l) ++ lit ".part") in *.
  set (final := x_storage_root task ++ [SLASH] ++ hex (sha256 l)) in *.
  assert (Hp1 : Z.of_nat (length part) < PATH_MAX) by (unfold part; rewrite !length_app, Hh64; simpl; lia).
  assert (Hp2 : Z.of_nat (length final) < PATH_MAX) by (unfold final; rewrite !length_app, Hh64; simpl; lia).
  rewrite !snprintf_fits by done. rewrite !(proj2 (Z.leb_gt _ _)) by done. cbn [orb].
  assert (Hne : part <> final).
  { unfold part. rewrite !app_assoc. by apply part_outside. }
  apply xwp_bind. eapply xwp_mono.
  { eapply (receive_part_flow task part chunks (Z.of_nat (length l)) have); [done | done | done | | done | exact Hff | exact Hw].
    by rewrite <- Hl, length_app. }
  intros r s1 (o & f1 & -> & Hw1 & Hpart & Hff1). rewrite Hl in Hpart. unfold publish_part.
  apply xwp_bind. eapply xwp_mono; [eapply verify_part_flow; [exact Hff1 | exact Hpart | exact Hw1] |].
  intros r s2 (f2 & -> & Hw2 & [k Hf12] & Hff2). rewrite bool_decide_eq_false_2 by (intros Hx; by apply Hx).
  assert (Hd12 : dir f2 = dir f1 /\ data f2 = data f1 /\ opened f2 + 1 = opened f1) by (by injection Hf12 as -> -> ->).
  destruct Hd12 as (Hdir2 & Hdata2 & Hop2).
  apply xwp_bind. eapply xwp_mono.
  { eapply (promote_part_flow task part final (ino o)); [exact Hff2 | | exact Hw2].
    by rewrite Hdir2, (ph_dir _ _ _ _ _ Hpart), lookup_insert_eq. }
  intros r s3 (f3 & -> & Hw3 & Hff3 & Hdir3 & Hdata3 & Hop3). cbn [negb].
  rewrite Hdir2 in Hdir3. rewrite Hdata2 in Hdata3.
  destruct (promoted_saved _ _ _ _ _ _ _ _ Hst Hpart Hne Hdir3 Hdata3) as (Hfin & Hgone & Hothers).
  destruct Hw3 as (Hch3 & Hf3 & Hd3). apply xwp_bind. eapply xwp_db.
  { destruct Hfit as ([? ?] & [? ?] & _). rewrite Hd3.
    apply (create_file_spec p t); try done; unfold is_u64, u64_mod; lia. }
  rewrite Hlow. intros a d' [(-> & Hatt) | (-> & _ & Hno)].
  2:{ exfalso. apply (Hno Hfit); [| done | done]. split; [unfold bigint_column; lia |].
      intros i g Hi Hg. rewrite Hlow in Hg. by edestruct (Hnew i g). }
  cbn [Z.eqb negb]. apply xwp_bind.
  eapply (xwp_send _ inp room f3 d'); [enum_wf | enum_wf | apply small_none | done | split_and!; [exact Hch3 | done | done] |].
  intros s4 Hw4. apply xwp_ret. exists f3, d'. split; [by rewrite app_assoc |].
  split; [done | by rewrite Hdir3, lookup_insert_eq | done | done | done |]. rewrite Hop3. pose proof (ph_opened _ _ _ _ _ Hpart). lia.
Qed.

(** ** The request *)

Lemma length_char_array n s : length (char_array n s) = n.
Proof. unfold char_array. rewrite length_take, length_app, length_replicate. lia. Qed.

Lemma cstr_app_nul s l : NUL ∉ s -> cstr (s ++ NUL :: l) = s.
Proof.
  intros Hs. unfold cstr. induction s as [| c s IH]; cbn [app take_while]; [by rewrite bool_decide_eq_false_2 by naive_solver |].
  apply not_elem_of_cons in Hs as [Hc Hs]. rewrite bool_decide_eq_true_2 by done. by rewrite IH.
Qed.

Lemma char_array_string n s : (length s < n)%nat -> NUL ∉ s ->
  NUL ∈ char_array n s /\ cstr (char_array n s) = s /\ head (char_array n s) = Some (default NUL (head s)).
Proof.
  intros Hl Hs. unfold char_array. rewrite take_app_ge by lia. rewrite take_replicate, Nat.min_l by lia.
  destruct (n - length s)%nat as [| k] eqn:E; [lia |]. cbn [replicate]. split_and!.
  - apply elem_of_app. right. left.
  - by apply cstr_app_nul.
  - by destruct s.
Qed.

Lemma parse_upload_payload sid path size h :
  (Z.of_nat (length path) < PATH_MAX) -> NUL ∉ path -> head path = Some SLASH -> is_u64 size ->
  utils_is_valid_sha256_hex h = true -> NUL ∉ h ->
  parse_upload_request (received (response CMD_PUTS_REQ STATUS_OK sid (Some (upload_request_payload path size h)))) =
    inr (path, size, h).
Proof.
  intros Hlp Hnp Hhd Hsize Hv Hnh. assert (Hlh : length h = 64%nat) by (apply andb_prop in Hv as [Hv _]; by apply Nat.eqb_eq).
  unfold upload_request_payload. set (c1 := char_array (Z.to_nat PATH_MAX) path). set (c2 := mem_of 8 _). set (c3 := char_array 65 h).
  assert (L1 : length c1 = Z.to_nat PATH_MAX) by apply length_char_array.
  assert (L2 : length c2 = 8%nat) by apply length_mem_of. assert (L3 : length c3 = 65%nat) by apply length_char_array.
  assert (Hlen : Z.of_nat (length (c1 ++ c2 ++ c3 ++ replicate 7 NUL)) = UPLOAD_REQUEST_SIZE)
    by (rewrite !length_app, L1, L2, L3; done).
  destruct (char_array_string (Z.to_nat PATH_MAX) path) as (N1 & S1 & F1); [lia | done |].
  destruct (char_array_string 65 h) as (N3 & S3 & _); [lia | done |].
  unfold parse_upload_request. rewrite received_payload by (intros Hx; by rewrite Hx in Hlen).
  cbn [received response header payload_len]. rewrite Hlen, Z.eqb_refl. cbn [negb].
  rewrite (take_app_length' c1), (drop_app_length' c1 _ (Z.to_nat PATH_MAX)), (take_app_length' c2) by congruence.
  rewrite (app_assoc c1 c2), (drop_app_length' (c1 ++ c2)) by (rewrite length_app; lia). rewrite (take_app_length' c3) by congruence.
  rewrite (bool_decide_eq_false_2 (NUL ∉ c1)) by (intros Hx; by apply Hx).
  rewrite (bool_decide_eq_false_2 (NUL ∉ c3)) by (intros Hx; by apply Hx).
  unfold c1, c3 in *. rewrite F1, S1, S3, Hhd, Hv. cbn [default]. rewrite bool_decide_eq_false_2 by (intros Hx; by apply Hx).
  cbn [orb negb]. unfold c2. by rewrite u64_field.
Qed.

Lemma upload_target_render parent name :
  Forall good_name (parent ++ [name]) -> (length name <= 254)%nat ->
  upload_target (render (parent ++ [name])) = Ret (Some (render parent, name)).
Proof.
  intros Hg Hn. apply Forall_app in Hg as [Hp Hg]. inversion_clear Hg as [| ? ? (Hne & Hs & _) _].
  unfold upload_target. rewrite render_snoc, bool_decide_eq_false_2.
  2:{ destruct (flat parent); simpl; [by destruct name |]. intros [= -> Hc]. by destruct l. }
  rewrite strrchr_app by done. cbn [deref mbind outcome_bind].
  assert (Hdrop : drop (S (length (flat parent))) (flat parent ++ SLASH :: name) = name).
  { rewrite drop_app_ge by lia. by replace (S (length (flat parent)) - length (flat parent))%nat with 1%nat by lia. }
  rewrite Hdrop. rewrite (proj2 (Nat.eqb_neq (length name) 0)) by (by destruct name).
  rewrite (proj2 (Z.leb_gt _ _)) by (unfold NAME_MAX; lia). cbn [orb]. do 3 f_equal.
  destruct parent as [| n parent]; [done |].
  change (length (flat (n :: parent)) =? 0)%nat with false. cbn match.
  rewrite take_app_le, take_ge by lia. done.
Qed.

Lemma xwp_node p t uid path Q s :
  free_connection p -> settled p t (xf_db s) -> tables_ok same_text t -> up 1 (srv (xf_db s)) ->
  is_u64 uid -> plain path -> (length path <= 900)%nat ->
  (forall d, settled p t d -> spent 1 (xf_db s) d ->
     Q (node_result (find_node same_text t uid path)) {| xf_sock := xf_sock s; xf_fs := xf_fs s; xf_db := d |}) ->
  xwp (on_xdb (dao_path_get_node_id uid path)) Q s.
Proof.
  intros Hf Hd Hok Hup Hu Hp Hl HQ. eapply xwp_db; [by eapply get_node_id_spec |].
  intros a d [Hs [[-> Hsp] | [-> Hdn]]]; [by apply HQ | by apply Hdn in Hup].
Qed.

(** The request packet of an upload *)
Definition puts_request (sid : session_id) (path l : list byte) : packet :=
  received (response CMD_PUTS_REQ STATUS_OK sid
    (Some (upload_request_payload path (Z.of_nat (length l)) (hex (sha256 l))))).

(** The server can take an upload of [l] to [parent]/[name]: the parent is a
    directory with id [pid], the path is free and the content is new. *)
Record upload_possible (p : database_pool) (t : tables) (task : transfer_task) (path : list byte)
    (parent : list (list byte)) (name : list byte) (pid : Z) (l : list byte) (f : fs) (d : db) : Prop := {
  po_packet : x_packet task = puts_request (task_sid task) path l;
  po_sid : session_id_wf (task_sid task);
  po_uid : is_u64 (ctx_user_id (x_session task));
  po_path : (NUL ∉ path) /\ head path = Some SLASH /\ roomy [SLASH] path parent name;
  po_pool : free_connection p /\ settled p t d /\ up 7 (srv d);
  po_tables : tables_ok same_text t;
  po_parent : exists r, find_node same_text t (ctx_user_id (x_session task)) (render parent) = Some (pid, r) /\ p_type r = 1;
  po_free : find_node same_text t (ctx_user_id (x_session task)) (render (parent ++ [name])) = None;
  po_new i g : files t !! i = Some g -> f_hash g <> hex (sha256 l);
  po_store : store_ok (x_storage_root task) f;
  po_kernel : fault_free f;
  po_names : Z.of_nat (length (x_transfer_temp_dir task) + 70) < PATH_MAX /\
             Z.of_nat (length (x_storage_root task) + 65) < PATH_MAX;
  po_size : Z.of_nat (length l) < 2 ^ 63
}.

Lemma handle_puts_flow p t task path parent name pid l have chunks out inp room f d s :
  upload_possible p t task path parent name pid l f d ->
  have = usable (Z.of_nat (length l)) (saved f (x_transfer_temp_dir task ++ [SLASH] ++ hex (sha256 l) ++ lit ".part")) ->
  Forall chunk_ok chunks -> have ++ concat chunks = l ->
  world out (incoming (task_sid task) chunks ++ inp)
    (length (wire_packet (resume_packet (task_sid task) (Z.of_nat (length have)))) +
     (length (wire_packet (ack_packet (task_sid task))) + room)) f d s ->
  xwp (handle_puts malloc_ok task)
    (fun _ s' => exists f' d',
       world (out ++ wire_packet (resume_packet (task_sid task) (Z.of_nat (length have))) ++
              wire_packet (ack_packet (task_sid task))) inp room f' d' s' /\
       uploaded p t task (render (parent ++ [name])) pid name l f f' d') s.
Proof.
  intros [Hpk Hsid Huid (Hnul & Hhd & Hroom) (Hfree & Hset & Hup) Htab (r & Hpar & Hty) Hpath Hnew Hst Hff [Ht Hr] Hmax]
    Hhave Hok Hl Hw.
  pose proof Hroom as (Hdest & Hptl & Hn & _ & Hlen & Hplain).
  destruct (roomy_parts _ _ _ _ Hroom) as (Hgood & Hpp & Hpn & Hlp & Hne & Hpm).
  destruct (hash_text l) as (Hv & Hh64 & Hlow & Hhp). destruct (hex_text (sha256 l)) as (_ & _ & _ & _ & _ & Hhn & _).
  set (uid := ctx_user_id (x_session task)) in *.
  assert (Hsize : is_u64 (Z.of_nat (length l))) by (unfold is_u64, u64_mod; lia).
  unfold handle_puts. rewrite Hpk. unfold puts_request.
  assert (Hpath_len : Z.of_nat (length path) < PATH_MAX).
  { unfold path_text in Hptl. destruct path as [| b path]; [done |]. injection Hhd as ->. done. }
  rewrite parse_upload_payload by done. fold uid.
  apply xwp_bind. eapply xwp_lift; [apply normalize_destination; [done | by rewrite Hdest] |]. rewrite Hdest.
  apply xwp_bind. eapply xwp_lift; [by apply upload_target_render |]. cbn beta iota.
  destruct Hw as (Hch & Hf & Hd).
  apply xwp_bind. apply (xwp_node p t); [done | by rewrite Hd | done | rewrite Hd; by eapply (up_le 1 7); [lia |] | done | done | lia |].
  rewrite Hd. intros d1 Hset1 Hsp1. pose proof (node_result_dir t uid (render parent)) as Hnode. rewrite Hpar in Hnode |- *.
  rewrite Hty in Hnode. rewrite Hnode. cbn [Z.eqb]. apply xwp_bind. eapply xwp_lift; [reflexivity |].
  assert (Hup1 : up 6 (srv d1)) by (by apply (Hsp1 6%nat)).
  apply xwp_bind. apply (xwp_node p t); cbn [xf_db xf_sock xf_fs]; [done | done | done | by eapply (up_le 1 6); [lia |] | done | done | lia |].
  intros d2 Hset2 Hsp2. rewrite Hpath. cbn [node_result]. assert (Hup2 : up 5 (srv d2)) by (by apply (Hsp2 5%nat)).
  apply xwp_bind. eapply xwp_db; cbn [xf_db xf_sock xf_fs]; [by apply (find_by_hash_spec p t) |].
  intros a d3 [Hset3 [(-> & Hsp3 & _) | [(_ & i & g & _ & Hi & Hg & _) | (_ & Hdn)]]].
  2:{ exfalso. rewrite Hlow in Hg. by eapply Hnew. }
  2:{ exfalso. apply Hdn. by eapply (up_le 1 5); [lia |]. }
  cbn [Z.ltb Z.eqb Z.compare]. assert (Hup3 : up 4 (srv d3)) by (by apply (Hsp3 4%nat)).
  eapply (upload_content_flow p t task _ pid name l have chunks out inp room f d3); try done.
  - apply (find_node_dir t uid) in Hpar as (_ & _ & _ & Hkind); [| done]. rewrite Hty in Hkind. cbn [Z.eqb] in Hkind.
    destruct (dir_ranges t uid pid Htab (proj2 Hkind)) as (_ & Hi & _ & Hb).
    split_and!; [done | done | done | by apply plain_ascii | by apply plain_ascii].
  - split; [unfold PATH_MAX in *; lia | done].
Qed.

(** ** Sending a file *)

(** Whatever the kernel answers, [sendfile_exact] sends a prefix of the range,
    the whole of it exactly when it returns 0, and advances the offset by what
    was sent. *)
Lemma sendfile_loop_spec script : forall content offset remaining out r offset' out' script',
  0 <= offset -> 0 <= remaining ->
  sendfile_loop script content offset remaining out = Ret (r, offset', out', script') ->
  exists k, 0 <= k <= remaining /\ offset' = offset + k /\
    out' = out ++ take (Z.to_nat k) (drop (Z.to_nat offset) content) /\
    (r = 0 /\ k = remaining \/ r = -1 /\ k < remaining).
Proof.
  induction script as [| a script IH]; intros content offset remaining out r offset' out' script' Ho Hr; cbn [sendfile_loop];
    (destruct (Z.ltb_spec 0 remaining) as [Hpos | Hz]; cbn [negb];
     [| intros [= <- <- <- <-]; exists 0; rewrite app_nil_r; split_and!; [lia | lia | lia | done | left; lia]]); [done |].
  destruct a as [n | |].
  - set (l := take (Nat.min n (Z.to_nat remaining)) (drop (Z.to_nat offset) content)).
    assert (Hl : l = take (length l) (drop (Z.to_nat offset) content) /\ Z.of_nat (length l) <= remaining).
    { unfold l. rewrite length_take. split; [| lia]. set (d := drop _ _). destruct (Nat.le_gt_cases (Nat.min n (Z.to_nat remaining)) (length d)).
      - by rewrite (Nat.min_l _ (length d)).
      - rewrite (Nat.min_r _ (length d)) by lia. by rewrite !take_ge by lia. }
    clearbody l. destruct Hl as [Hl Hle]. destruct l as [| b l].
    + intros [= <- <- <- <-]. exists 0. rewrite app_nil_r. split_and!; [lia | lia | lia | done | right; lia].
    + intros Hs. apply IH in Hs as (k & Hk & -> & -> & Hcase); [| lia | lia].
      exists (Z.of_nat (length (b :: l)) + k). split_and!; [lia | lia | lia | | lia].
      rewrite <- app_assoc. f_equal. rewrite Hl at 1.
      rewrite !Z2Nat.inj_add, Nat2Z.id by lia. rewrite <- drop_drop. by rewrite take_take_drop.
  - intros Hs. by apply IH in Hs.
  - intros [= <- <- <- <-]. exists 0. rewrite app_nil_r. split_and!; [lia | lia | lia | done | right; lia].
Qed.

Lemma channel_sendfile content offset count out inp room s :
  0 <= offset -> 0 <= count -> offset + count <= Z.of_nat (length content) ->
  channel out inp (Z.to_nat count + room) s ->
  exists s', sendfile_exact content offset count s = Ret (0, offset + count, s') /\
    channel (out ++ take (Z.to_nat count) (drop (Z.to_nat offset) content)) inp room s'.
Proof.
  intros Ho Hc Hlen [Hsent Hst Hcl Hok Hroom]. unfold sendfile_exact.
  assert (Htotal : exists offset' out' script', sendfile_loop (send_script s) content offset count (sent s) =
      Ret (0, offset', out', script') /\ Forall good_send script' /\
      (send_room (send_script s) <= send_room script' + Z.to_nat count)%nat).
  { clear Hsent. revert offset count Ho Hc Hlen Hroom. generalize (sent s) as acc.
    induction (send_script s) as [| a script IH]; intros acc offset count Ho Hc Hlen Hroom; cbn [sendfile_loop];
      (destruct (Z.ltb_spec 0 count) as [Hpos | Hz]; cbn [negb]; [| eexists _, _, _; split_and!; [done | done | lia]]).
    - simpl in Hroom. lia.
    - apply Forall_cons in Hok as [[Hne Hnz] Hok]. destruct a as [n | |]; [| | done].
      + set (l := take (Nat.min n (Z.to_nat count)) (drop (Z.to_nat offset) content)).
        assert (Hl : (1 <= length l)%nat /\ Z.of_nat (length l) <= count).
        { unfold l. rewrite length_take, length_drop. destruct n; [done |]. lia. }
        clearbody l. destruct l as [| b l]; [simpl in Hl; lia |].
        assert (Hn : exists m, n = S m) by (destruct n; [done | eauto]). destruct Hn as [m ->]. cbn [send_room] in *.
        destruct (IH Hok (acc ++ b :: l) (offset + Z.of_nat (length (b :: l))) (count - Z.of_nat (length (b :: l))))
          as (o' & out' & sc' & Hs & Hsc & Hr); [lia | lia | lia | simpl length in *; lia |].
        eexists _, _, _. split_and!; [exact Hs | done | simpl length in *; lia].
      + cbn [send_room] in *. by apply IH. }
  destruct Htotal as (offset' & out' & script' & Hs & Hsc & Hr). rewrite Hs. cbn [mbind outcome_bind].
  apply sendfile_loop_spec in Hs as (k & Hk & -> & -> & [[_ ->] | [? _]]); [| lia | lia | done].
  eexists. split; [done |]. split; simpl; try done; [by rewrite Hsent | lia].
Qed.

(** The file in pieces of [FILE_CHUNK_SIZE] bytes *)
Fixpoint chunked (fuel : nat) (l : list byte) : list (list byte) :=
  match fuel, l with
  | S fuel, _ :: _ => take (Z.to_nat FILE_CHUNK_SIZE) l :: chunked fuel (drop (Z.to_nat FILE_CHUNK_SIZE) l)
  | _, _ => []
  end.
Definition chunks_of (l : list byte) : list (list byte) := chunked (length l) l.

Lemma chunked_spec fuel : forall l, (length l <= fuel)%nat -> concat (chunked fuel l) = l /\ Forall chunk_ok (chunked fuel l).
Proof.
  induction fuel as [| fuel IH]; intros [| b l] Hl; [done | simpl in Hl; lia | done |]. cbn [chunked concat].
  destruct (IH (drop (Z.to_nat FILE_CHUNK_SIZE) (b :: l))) as [Hc Hf].
  { rewrite length_drop. simpl length in *. change (Z.to_nat FILE_CHUNK_SIZE) with 4096%nat. lia. }
  rewrite Hc, take_drop. split; [done |]. constructor; [| done]. split; [done |].
  rewrite length_take. change (Z.to_nat FILE_CHUNK_SIZE) with 4096%nat. unfold FILE_CHUNK_SIZE. lia.
Qed.

Lemma xwp_sock {A} (m : socket -> outcome (A * socket)) a k Q s :
  m (xf_sock s) = Ret (a, k) -> Q a {| xf_sock := k; xf_fs := xf_fs s; xf_db := xf_db s |} -> xwp (on_socket m) Q s.
Proof. intros Hm HQ. eexists a, _. split; [unfold on_socket; by rewrite Hm | done]. Qed.

Lemma send_chunks_flow task o l : session_id_wf (task_sid task) -> forall fuel offset remaining out inp room f d s,
  content f (ino o) = l -> 0 <= offset -> 0 <= remaining -> offset + remaining = Z.of_nat (length l) ->
  (Z.to_nat remaining <= fuel)%nat ->
  world out inp (length (frames (task_sid task) (chunked fuel (drop (Z.to_nat offset) l))) + room) f d s ->
  xwp (send_chunks fuel task o offset remaining)
    (fun r s' => r = true /\ world (out ++ frames (task_sid task) (chunked fuel (drop (Z.to_nat offset) l))) inp room f d s') s.
Proof.
  intros Hsid. induction fuel as [| fuel IH]; intros offset remaining out inp room f d s Hl Ho Hr Hsum Hfuel Hw.
  { assert (remaining = 0) as -> by lia. apply xwp_ret. simpl in *. by rewrite app_nil_r. }
  cbn [send_chunks]. destruct (Z.ltb_spec 0 remaining) as [Hpos | Hz]; cbn [negb].
  2:{ apply xwp_ret. rewrite (drop_ge l) in * by lia. simpl in *. by rewrite app_nil_r. }
  set (chunk := if FILE_CHUNK_SIZE <? remaining then FILE_CHUNK_SIZE else remaining).
  assert (Hchunk : 0 < chunk <= remaining /\ chunk <= FILE_CHUNK_SIZE /\ (chunk < FILE_CHUNK_SIZE -> chunk = remaining)).
  { unfold chunk, FILE_CHUNK_SIZE. destruct (Z.ltb_spec 4096 remaining); lia. }
  set (rest := drop (Z.to_nat offset) l) in *.
  assert (Hrest : Z.of_nat (length rest) = remaining) by (unfold rest; rewrite length_drop; lia).
  assert (Htake : take (Z.to_nat FILE_CHUNK_SIZE) rest = take (Z.to_nat chunk) rest).
  { destruct (Z.eq_dec chunk FILE_CHUNK_SIZE) as [-> | ?]; [done |]. rewrite !take_ge by lia. done. }
  assert (Hdrop : drop (Z.to_nat FILE_CHUNK_SIZE) rest = drop (Z.to_nat (offset + chunk)) l).
  { unfold rest. rewrite drop_drop. destruct (Z.eq_dec chunk FILE_CHUNK_SIZE) as [-> | ?]; [f_equal; lia |].
    rewrite !drop_ge by lia. done. }
  assert (Hchunked : chunked (S fuel) rest = take (Z.to_nat chunk) rest :: chunked fuel (drop (Z.to_nat (offset + chunk)) l)).
  { rewrite <- Htake, <- Hdrop. destruct rest; [simpl in Hrest; lia | done]. }
  rewrite Hchunked in *. cbn [frames flat_map] in *. fold (frames (task_sid task) (chunked fuel (drop (Z.to_nat (offset + chunk)) l))) in *.
  set (rest_frames := frames (task_sid task) (chunked fuel (drop (Z.to_nat (offset + chunk)) l))) in *.
  set (h := {| type := CMD_FILE_DATA; status := STATUS_OK; payload_len := chunk; session_id_of := task_sid task |}).
  assert (Hlen : length (take (Z.to_nat chunk) rest) = Z.to_nat chunk) by (rewrite length_take; lia).
  assert (Hwire : wire_packet (response CMD_FILE_DATA STATUS_OK (task_sid task) (Some (take (Z.to_nat chunk) rest))) =
                  wire_header h ++ take (Z.to_nat chunk) rest).
  { unfold wire_packet, response. cbn [header payload default]. rewrite Hlen, Z2Nat.id by lia. done. }
  assert (Hwf : header_wf h).
  { unfold header_wf, h, MAX_PACKET_PAYLOAD, FILE_CHUNK_SIZE in *. cbn [type status payload_len session_id_of].
    split_and!; [enum_wf | enum_wf | lia | lia | done]. }
  rewrite Hwire in *. destruct Hw as (Hch & Hf & Hd). rewrite !length_app, Hlen, length_wire_header in Hch by done.
  destruct (channel_header out inp (Z.to_nat chunk + (length rest_frames + room)) (xf_sock s) h Hwf) as (k1 & Hk1 & Hch1).
  { eapply channel_room; [exact Hch | lia]. }
  apply xwp_bind. eapply xwp_sock; [exact Hk1 |]. cbn [Z.eqb negb].
  apply xwp_bind. eapply xwp_fs; [reflexivity |]. cbn [xf_sock xf_fs xf_db]. rewrite Hf, Hl.
  destruct (channel_sendfile l offset chunk _ _ (length rest_frames + room) _ Ho ltac:(lia) ltac:(lia) Hch1) as (k2 & Hk2 & Hch2).
  apply xwp_bind. eapply xwp_sock; [cbn [xf_sock]; rewrite Hk2; reflexivity |]. cbn [Z.eqb negb xf_sock xf_fs xf_db].
  eapply xwp_mono; [eapply (IH (offset + chunk) (remaining - chunk)); [exact Hl | lia | lia | lia | lia | by split_and!] |].
  intros r s' [-> Hw']. split; [done |]. fold rest rest_frames in Hw'. by rewrite <- !app_assoc in *.
Qed.

Definition start_packet (sid : session_id) (offset : Z) : packet :=
  response CMD_RESUME_POS STATUS_OK sid (Some (resume_payload offset)).
Definition info_packet (sid : session_id) (name : list byte) (size : Z) (hash : list byte) : packet :=
  response CMD_GETS_RESP STATUS_OK sid (Some (file_info_payload name size hash)).

(** The rest of a file from an offset, and the end mark *)
Definition download_bytes (sid : session_id) (offset : nat) (l : list byte) : list byte :=
  frames sid (chunks_of (drop offset l)) ++ wire_packet (end_packet sid).

Lemma length_resume offset : length (resume_payload offset) = 8%nat.
Proof. apply length_mem_of. Qed.

Lemma length_file_info name size hash : Z.of_nat (length (file_info_payload name size hash)) = FILE_INFO_SIZE.
Proof.
  unfold file_info_payload. rewrite !length_app, !length_char_array, length_mem_of, !length_replicate. done.
Qed.

Lemma serve_download_flow task path i l (offset : nat) out inp room f d s :
  session_id_wf (task_sid task) -> fault_free f -> dir f !! path = Some i -> content f i = l ->
  (offset <= length l)%nat -> Z.of_nat (length l) < 2 ^ 63 ->
  world out (wire_packet (start_packet (task_sid task) (Z.of_nat offset)) ++ wire_packet (ack_packet (task_sid task)) ++ inp)
    (length (download_bytes (task_sid task) offset l) + room) f d s ->
  xwp (serve_download malloc_ok task path)
    (fun _ s' => exists f', world (out ++ download_bytes (task_sid task) offset l) inp room f' d s' /\ same_files f f') s.
Proof.
  intros Hsid Hff Hdir Hl Hoff Hmax Hw. unfold serve_download. apply xwp_bind.
  eapply (xwp_recv _ _ _ f d task CMD_RESUME_POS STATUS_OK (Some (resume_payload (Z.of_nat offset))));
    [enum_wf | enum_wf | | done | exact Hw |]. { apply small_some. by rewrite length_resume. }
  intros s1 Hw1. rewrite received_payload by (intros Hx; pose proof (length_resume (Z.of_nat offset)) as Hy; by rewrite Hx in Hy).
  cbn [received response header type payload_len]. rewrite length_resume. rewrite bool_decide_eq_false_2 by (intros Hx; by apply Hx).
  cbn [orb Z.of_nat Z.eqb negb]. change (Z.pos (Pos.of_succ_nat 7) =? 8) with true. cbn [negb].
  apply xwp_bind. eapply xwp_release; [exact Hw1 |]. intros s2 (Hch & Hf & Hd).
  destruct (next_answer_free f Hff) as (a & k & Hn & Ha & Hff1).
  apply xwp_bind. eapply xwp_fs; [rewrite Hf; unfold open_read; rewrite Hn, Ha; cbn [dir set_io]; rewrite Hdir; reflexivity |].
  cbn beta iota. set (f1 := add_opened (set_io f k) 1). assert (Hff2 : fault_free f1) by done.
  destruct (call_free f1 Hff2) as (k2 & Hk2 & Hff3).
  apply xwp_bind. eapply xwp_fs; [cbn [xf_fs]; unfold fstat_size; rewrite Hk2; reflexivity |]. cbn beta iota zeta.
  assert (Hc : content (set_io f1 k2) i = l) by done. cbn [ino]. rewrite Hc. rewrite take_ge by (by rewrite length_resume).
  unfold resume_payload. rewrite u64_field by (unfold is_u64, u64_mod; lia).
  rewrite (proj2 (Z.ltb_ge _ _)) by lia. unfold download_bytes in *. rewrite !length_app in *.
  assert (Hlen : Z.to_nat (Z.of_nat (length l) - Z.of_nat offset) = length (drop offset l)) by (rewrite length_drop; lia).
  apply xwp_bind. eapply xwp_mono.
  { eapply (send_chunks_flow task {| ino := i; pos := 0 |} l Hsid _ (Z.of_nat offset) _ out
      (wire_packet (ack_packet (task_sid task)) ++ inp) (length (wire_packet (end_packet (task_sid task))) + room)
      (set_io f1 k2) d); [done | lia | lia | lia | done |].
    rewrite Hlen, Nat2Z.id. fold (chunks_of (drop offset l)). split_and!; [| done | done].
    eapply channel_room; [exact Hch | lia]. }
  rewrite Hlen, Nat2Z.id. fold (chunks_of (drop offset l)). intros r s3 [-> Hw3].
  apply xwp_bind. eapply xwp_close; [exact Hw3 |]. intros s4 Hw4. cbn [negb].
  apply xwp_bind. eapply (xwp_send _ _ room _ d task CMD_FILE_END STATUS_OK None); [enum_wf | enum_wf | apply small_none | done | exact Hw4 |].
  intros s5 Hw5. cbn [Z.eqb negb]. apply xwp_bind.
  eapply (xwp_recv _ inp room _ d task CMD_ACK STATUS_OK None); [enum_wf | enum_wf | apply small_none | done | exact Hw5 |].
  intros s6 Hw6. eapply xwp_release; [exact Hw6 |]. intros s7 Hw7. eexists. split.
  - rewrite app_assoc. exact Hw7.
  - exists k2. unfold close, f1, add_opened, set_io. simpl. f_equal. lia.
Qed.

(** The server can serve [l] as the file that [req] names. *)
Record download_possible (p : database_pool) (t : tables) (task : transfer_task) (m0 : file_meta) (req : list byte)
    (name hash l : list byte) (size : Z) (f : fs) (d : db) : Prop := {
  do_packet : x_packet task = received (response CMD_GETS_REQ STATUS_OK (task_sid task) (Some req));
  do_sid : session_id_wf (task_sid task);
  do_uid : is_u64 (ctx_user_id (x_session task));
  do_req : (NUL ∉ req) /\ req <> [] /\ Z.of_nat (length req) < PATH_MAX;
  do_room : Z.of_nat (length (path_text (ctx_cwd (x_session task)) req)) < PATH_MAX /\
            (length (render (destination (ctx_cwd (x_session task)) req)) <= 768)%nat /\
            plain (render (destination (ctx_cwd (x_session task)) req));
  do_pool : free_connection p /\ settled p t d /\ up 1 (srv d);
  do_tables : tables_ok same_text t /\ (forall i g, files t !! i = Some g -> is_u64 (f_size g));
  do_row : exists id r fid g, p_type r = 0 /\ p_name r = name /\ f_hash g = hash /\ f_size g = size /\
    find_node same_text t (ctx_user_id (x_session task)) (render (destination (ctx_cwd (x_session task)) req)) = Some (id, r) /\
    p_file r = Some fid /\ files t !! fid = Some g;
  do_name : (length name <= 254)%nat;
  do_hash : length hash = 64%nat /\ (NUL ∉ hash);
  do_stack : length (fm_sha256_hex m0) = 65%nat;
  do_root : Z.of_nat (length (x_storage_root task) + 65) < PATH_MAX;
  do_file : exists i, dir f !! (x_storage_root task ++ [SLASH] ++ hash) = Some i /\ content f i = l;
  do_size : Z.of_nat (length l) < 2 ^ 63;
  do_kernel : fault_free f
}.

(** The 65th byte of the hash array of [handle_gets], which [dao_get_file_meta]
    does not write: what happens to lie on the stack. *)
Definition stale (m0 : file_meta) : list byte := drop 64 (fm_sha256_hex m0).

(** The handler finds the row of the file. *)
Lemma gets_meta p t task m0 req name hash l size f d :
  download_possible p t task m0 req name hash l size f d ->
  exists m d', dao_get_file_meta (ctx_user_id (x_session task)) (render (destination (ctx_cwd (x_session task)) req)) m0 d =
      Ret (DAO_OK, m, d') /\ settled p t d' /\
    fm_file_name m = name /\ fm_size m = size /\ fm_sha256_hex m = hash ++ stale m0.
Proof.
  intros [_ _ Huid _ (_ & Hl768 & Hplain) (Hfree & Hset & Hup) (Htab & Hsizes)
    (id & r & fid & g & Hty & Hname & Hhash & Hsize & Hfind & Hpf & Hg) Hn (Hh64 & _) _ _ _ _ _].
  destruct (get_file_meta_spec p t (ctx_user_id (x_session task)) (render (destination (ctx_cwd (x_session task)) req)) m0 d)
    as (a & d' & Hret & Hset' & Hcase); try done.
  { intros id' r' Hx. rewrite Hfind in Hx. by injection Hx as _ <-. }
  destruct Hcase as [(-> & Hdn) | [(-> & Hx) | (id' & r' & fid' & g' & Hx & Hat & ->)]]; [by apply Hdn in Hup | congruence |].
  rewrite Hfind in Hx. injection Hx as <- <-. destruct Hat as [_ _ _ Hpf' Hg'].
  rewrite Hpf in Hpf'. injection Hpf' as <-. rewrite Hg in Hg'. injection Hg' as <-.
  eexists _, d'. split_and!; [exact Hret | done | | done |].
  - simpl. rewrite Hname. unfold strncpy0. apply take_ge. unfold NAME_MAX. lia.
  - simpl. rewrite Hhash. by rewrite take_app_le, take_ge by lia.
Qed.

(** The request up to the lookup *)
Lemma gets_lookup p t task m0 req name hash l size f d s :
  download_possible p t task m0 req name hash l size f d ->
  handle_gets malloc_ok m0 task s =
  (r ← on_xdb (dao_get_file_meta (ctx_user_id (x_session task)) (render (destination (ctx_cwd (x_session task)) req)) m0);
   let '(ret, file_meta) := r in
   match ret with
   | DAO_NOT_FOUND => refuse task STATUS_FILE_NOTEXIST
   | DAO_TYPE_MISMATCH => refuse task STATUS_IS_DIR
   | DAO_DB_ERROR => refuse task STATUS_DB_ERROR
   | _ =>
       if bool_decide (NUL ∉ fm_sha256_hex file_meta) then lift_x Undef
       else
         let sha256_hex := cstr (fm_sha256_hex file_meta) in
         let physical_path :=
           snd (snprintf (PATH_MAX + NAME_MAX + 1) (x_storage_root task ++ [SLASH] ++ sha256_hex)) in
         let info := file_info_payload (strncpy0 NAME_MAX (fm_file_name file_meta)) (fm_size file_meta)
                       (strncpy0 65 sha256_hex) in
         r ← send_transfer_packet task CMD_GETS_RESP STATUS_OK (Some info);
         if negb (r =? 0) then mret tt else serve_download malloc_ok task physical_path
   end) s.
Proof.
  intros [Hpk _ _ (Hnul & Hreq & Hlen) (Hptl & Hl768 & _) _ _ _ _ _ _ _ _ _ _].
  unfold handle_gets. rewrite Hpk, received_payload by done. cbn [received response header payload_len].
  assert (Hpos : (0 < length req)%nat) by (destruct req; [done | simpl; lia]).
  rewrite (proj2 (Z.eqb_neq _ _)), (proj2 (Z.leb_gt _ _)) by lia. cbn [orb].
  rewrite Nat2Z.id, take_ge by done. rewrite cstr_id by done.
  rewrite normalize_destination by (done || (unfold PATH_MAX; lia)). reflexivity.
Qed.

(** A stack byte that is not NUL: the hash is read past the end of its array. *)
Lemma handle_gets_stale p t task m0 req name hash l size f d s :
  download_possible p t task m0 req name hash l size f d -> xf_db s = d -> stale m0 <> [NUL] ->
  handle_gets malloc_ok m0 task s = Undef.
Proof.
  intros Hdo Hd Hst. rewrite (gets_lookup _ _ _ _ _ _ _ _ _ _ _ _ Hdo).
  destruct (gets_meta _ _ _ _ _ _ _ _ _ _ _ Hdo) as (m & d' & Hret & _ & _ & _ & Hhex).
  destruct (do_hash _ _ _ _ _ _ _ _ _ _ _ Hdo) as [_ Hnul]. pose proof (do_stack _ _ _ _ _ _ _ _ _ _ _ Hdo) as H65.
  unfold mbind at 1, xm_bind, on_xdb. rewrite Hd, Hret. cbn [mbind outcome_bind fst snd]. rewrite Hhex.
  rewrite bool_decide_eq_true_2; [done |]. unfold stale in *.
  assert (Hone : exists b, drop 64 (fm_sha256_hex m0) = [b]).
  { pose proof (length_drop (fm_sha256_hex m0) 64) as Hl. rewrite H65 in Hl. destruct (drop 64 _) as [| b [|]]; [done | eauto | done]. }
  destruct Hone as [b Hb]. rewrite Hb in *. apply not_elem_of_app. split; [done |].
  intros Hx%list_elem_of_singleton. by rewrite <- Hx in Hst.
Qed.

Lemma handle_gets_flow p t task m0 req name hash l size (offset : nat) out inp room f d s :
  download_possible p t task m0 req name hash l size f d -> stale m0 = [NUL] -> (offset <= length l)%nat ->
  world out (wire_packet (start_packet (task_sid task) (Z.of_nat offset)) ++ wire_packet (ack_packet (task_sid task)) ++ inp)
    (length (wire_packet (info_packet (task_sid task) name size hash)) +
     (length (download_bytes (task_sid task) offset l) + room)) f d s ->
  xwp (handle_gets malloc_ok m0 task)
    (fun _ s' => exists f' d', world (out ++ wire_packet (info_packet (task_sid task) name size hash) ++
        download_bytes (task_sid task) offset l) inp room f' d' s' /\ same_files f f' /\ settled p t d') s.
Proof.
  intros Hdo Hstack Hoff Hw. destruct (gets_meta _ _ _ _ _ _ _ _ _ _ _ Hdo) as (m & d' & Hret & Hset' & Hname & Hsize & Hhex).
  unfold xwp. rewrite (gets_lookup _ _ _ _ _ _ _ _ _ _ _ _ Hdo).
  destruct Hdo as [Hpk Hsid _ _ _ _ _ _ Hn (Hh64 & Hhn) _ Hroot (i & Hdir & Hcon) Hmax Hff]. destruct Hw as (Hch & Hf & Hd).
  apply xwp_bind. eapply (xwp_db _ (fun a d1 => a = (DAO_OK, m) /\ d1 = d')); [rewrite Hd; by eexists _, _ |].
  intros a d1 [-> ->]. cbv beta iota zeta. rewrite Hhex, Hstack, Hname, Hsize.
  rewrite bool_decide_eq_false_2 by (intros Hx; apply Hx; apply elem_of_app; right; left).
  rewrite (cstr_app_nul hash []) by done. rewrite snprintf_fits by (rewrite !length_app; unfold PATH_MAX, NAME_MAX in *; simpl; lia).
  cbn [snd]. unfold strncpy0. rewrite !take_ge by (rewrite ?length_take; unfold NAME_MAX; lia).
  apply xwp_bind. eapply (xwp_send out _ _ f d' task CMD_GETS_RESP STATUS_OK (Some (file_info_payload name size hash)));
    [enum_wf | enum_wf | | done | split_and!; [exact Hch | done | done] |].
  { apply small_some. rewrite length_file_info. done. }
  intros s1 Hw1. cbn [Z.eqb negb]. eapply xwp_mono; [eapply serve_download_flow; [done | done | exact Hdir | exact Hcon | done | by subst l | exact Hw1] |].
  intros u s2 (f' & Hw2 & Hsame). exists f', d'. split_and!; [| done | done]. by rewrite <- app_assoc in Hw2.
Qed.

End flow.

(** ** Main results *)

Section results.
Context `{Host} {M : MySQL} {Spec : MySQLSpec M} {Stored : MySQLStored M Spec} {Up : MySQLUp M Spec} `{Sha256} (malloc_ok : Z -> bool).

(** A complete upload: when the destination is free, the content is new,
    the client sends what is missing of the announced content in any division
    into chunks, and neither kernel nor database fails, [handle_puts] returns
    after sending exactly two packets, the offset to resume from (the size of
    what an earlier attempt left, or 0 when that is too long) and the final ACK.
    Then the store holds the content under its SHA-256, the temporary file is
    gone, no other file has changed, and the database has the new path and a file
    row with that hash and size. *)
Theorem upload_completes p t task path parent name pid l have chunks out inp room f d s :
  (forall n, malloc_ok n = true) ->
  upload_possible p t task path parent name pid l f d ->
  have = usable (Z.of_nat (length l)) (saved f (x_transfer_temp_dir task ++ [SLASH] ++ hex (sha256 l) ++ lit ".part")) ->
  Forall chunk_ok chunks -> have ++ concat chunks = l ->
  world out (incoming (task_sid task) chunks ++ inp)
    (length (wire_packet (resume_packet (task_sid task) (Z.of_nat (length have)))) +
     (length (wire_packet (ack_packet (task_sid task))) + room)) f d s ->
  exists s' f' d', handle_puts malloc_ok task s = Ret (tt, s') /\
    world (out ++ wire_packet (resume_packet (task_sid task) (Z.of_nat (length have))) ++
           wire_packet (ack_packet (task_sid task))) inp room f' d' s' /\
    uploaded p t task (render (parent ++ [name])) pid name l f f' d'.
Proof.
  intros Hm Hpo Hhave Hok Hl Hw.
  destruct (handle_puts_flow malloc_ok Hm p t task path parent name pid l have chunks out inp room f d s Hpo Hhave Hok Hl Hw)
    as ([] & s' & Hret & f' & d' & Hw' & Hup). by exists s', f', d'.
Qed.

(** A complete download: when the requested path is a file whose content is
    in the store, [handle_gets] sends its name, size and hash, reads the offset
    the client starts from, and sends exactly the bytes of the stored content from
    that offset on, in packets of at most [FILE_CHUNK_SIZE] bytes, and the end
    mark, provided that the byte after the hash on its stack is NUL.  The files and the tables are unchanged, and the file is closed. *)
Theorem download_exact p t task m0 req name hash l size (offset : nat) out inp room f d s :
  (forall n, malloc_ok n = true) ->
  download_possible p t task m0 req name hash l size f d -> stale m0 = [NUL] -> (offset <= length l)%nat ->
  world out (wire_packet (start_packet (task_sid task) (Z.of_nat offset)) ++ wire_packet (ack_packet (task_sid task)) ++ inp)
    (length (wire_packet (info_packet (task_sid task) name size hash)) +
     (length (download_bytes (task_sid task) offset l) + room)) f d s ->
  exists s' f' d' chunks, handle_gets malloc_ok m0 task s = Ret (tt, s') /\
    world (out ++ wire_packet (info_packet (task_sid task) name size hash) ++
           frames (task_sid task) chunks ++ wire_packet (end_packet (task_sid task))) inp room f' d' s' /\
    concat chunks = drop offset l /\ Forall chunk_ok chunks /\ same_files f f' /\ settled p t d'.
Proof.
  intros Hm Hdo Hst Hoff Hw.
  destruct (handle_gets_flow malloc_ok Hm p t task m0 req name hash l size offset out inp room f d s Hdo Hst Hoff Hw)
    as ([] & s' & Hret & f' & d' & Hw' & Hsame & Hset). exists s', f', d', (chunks_of (drop offset l)).
  destruct (chunked_spec (length (drop offset l)) (drop offset l)) as [Hc Hf]; [done |]. by split_and!.
Qed.

(** [sendfile_exact] never sends a byte outside the range it was given:
    whatever the kernel answers, it sends a prefix of the range, advances the
    offset by as much, and returns 0 exactly when the prefix is the whole range;
    with a kernel that keeps accepting bytes it returns 0. *)
Theorem sendfile_exact_range content offset count s :
  0 <= offset -> 0 <= count ->
  (forall r offset' s', sendfile_exact content offset count s = Ret (r, offset', s') ->
     exists k, 0 <= k <= count /\ offset' = offset + k /\
       sent s' = sent s ++ take (Z.to_nat k) (drop (Z.to_nat offset) content) /\
       (r = 0 /\ k = count \/ r = -1 /\ k < count)) /\
  (offset + count <= Z.of_nat (length content) -> Forall good_send (send_script s) ->
   (Z.to_nat count <= send_room (send_script s))%nat ->
   exists s', sendfile_exact content offset count s = Ret (0, offset + count, s')).
Proof.
  intros Ho Hc. split.
  - intros r offset' s' Hs. unfold sendfile_exact in Hs. apply bind_Ret_inv in Hs as ([[[r1 o1] out1] sc1] & Hs & Hk).
    cbn beta iota in Hk. injection Hk as <- <- <-. by apply sendfile_loop_spec in Hs.
  - intros Hlen Hok Hroom. unfold sendfile_exact.
    destruct (channel_sendfile content offset count (sent s) [] 0
      {| sent := sent s; send_script := send_script s; recv_script := []; buffers := buffers s |}) as (s' & Hs & _);
      [done | done | done | split; simpl; [done | done | constructor | done | lia] |].
    unfold sendfile_exact in Hs. cbn [send_script sent] in Hs.
    destruct (sendfile_loop _ _ _ _ _) as [[[[r1 o1] out1] sc1] | |]; try done. cbn [mbind outcome_bind] in *.
    injection Hs as -> -> _. eauto.
Qed.

End results.

(** ** A concrete server: [/docs] of user 1, an interrupted upload of 6 bytes *)

Definition demo_digest (l : list byte) : list byte := take 32 (l ++ replicate 32 x00).

Lemma length_demo_digest l : length (demo_digest l) = 32%nat.
Proof. unfold demo_digest. rewrite length_take, length_app, length_replicate. lia. Qed.

Definition demo_sha256 : Sha256 := {| sha256 := demo_digest; sha256_length := length_demo_digest |}.

Definition demo_content : list byte := lit "hello cloud".
Definition demo_hash : list byte := hex (demo_digest demo_content).
Definition demo_part : list byte := lit "/tmp/" ++ demo_hash ++ lit ".part".

Definition demo_context : session_context :=
  {| ctx_user_id := 1; ctx_username := lit "alice"; ctx_cwd_id := 2; ctx_cwd := [SLASH] |}.

Definition demo_upload : transfer_task := {|
  x_epoll_fd := 3; x_client_fd := 5; x_packet := @puts_request false demo_sha256 demo_sid (lit "/docs/new.txt") demo_content;
  x_session := demo_context; x_storage_root := lit "/srv"; x_transfer_temp_dir := lit "/tmp" |}.

Definition demo_files : fs :=
  {| dir := {[ demo_part := 0%N ]}; data := {[ 0%N := lit "hello " ]}; opened := 0; io := [IoOk; IoCount 3] |}.

Definition demo_socket (script : list byte) : socket :=
  {| sent := []; send_script := replicate 600 (SendCount 7); recv_script := [RecvBytes script]; buffers := 1 |}.

Definition demo_xfer (script : list byte) (f : fs) (t : tables) : @xfer_state demo_mysql :=
  {| xf_sock := demo_socket script; xf_fs := f; xf_db := demo_state t |}.

Definition demo_chunk : list (list byte) := [lit "cl"; lit "oud"].

Lemma demo_store_ok : @store_ok demo_sha256 (lit "/srv") demo_files.
Proof.
  split; cbn [dir data demo_files].
  - intros h i Hi Hv. apply lookup_singleton_Some in Hi as [Hp _]. exfalso. revert Hp.
    change demo_part with (((lit "/tmp/") ++ demo_hash) ++ lit ".part"). by apply part_outside.
  - intros p q i Hp Hq. apply lookup_singleton_Some in Hp as [<- _], Hq as [<- _]. done.
  - intros p i Hp. apply lookup_singleton_Some in Hp as [_ <-]. by rewrite lookup_singleton_eq.
Qed.

Lemma demo_channel script room : script <> [] -> (room <= 600)%nat -> channel [] script room (demo_socket script).
Proof.
  intros Hne Hroom. split; cbn [demo_socket sent recv_script send_script stream flat_map]; [done | by rewrite app_nil_r | | |].
  - by repeat constructor.
  - apply Forall_replicate. by split.
  - assert (Hr : forall n, send_room (replicate n (SendCount 7)) = n) by (induction n as [| n IH]; simpl; congruence).
    by rewrite Hr.
Qed.

Lemma demo_tables2_below : below demo_tables2 100.
Proof. apply below_check. by vm_compute. Qed.

Lemma demo_upload_possible :
  @upload_possible false demo_mysql demo_spec demo_up_instance demo_sha256 demo_pool demo_tables2 demo_upload
    (lit "/docs/new.txt") [lit "docs"] (lit "new.txt") 3 demo_content demo_files (demo_state demo_tables2).
Proof.
  split.
  - reflexivity.
  - reflexivity.
  - by vm_compute.
  - split; [apply (bool_decide_unpack _); vm_compute; exact I |]. split; [reflexivity |].
    split_and!; first [by vm_compute | vm_compute; lia | apply (bool_decide_unpack _); vm_compute; exact I].
  - split_and!; [exact demo_free | apply demo_settled | apply demo_state_up; [exact demo_tables2_below | lia]].
  - exact demo_tables2_ok.
  - eexists. split; vm_compute; reflexivity.
  - vm_compute; reflexivity.
  - intros i g Hi. exfalso. revert Hi. change (files demo_tables2) with (∅ : gmap Z file_row). by rewrite lookup_empty.
  - exact demo_store_ok.
  - by repeat constructor.
  - split; vm_compute; reflexivity.
  - vm_compute; reflexivity.
Qed.

Definition demo_upload_state : @xfer_state demo_mysql :=
  demo_xfer (incoming demo_sid demo_chunk) demo_files demo_tables2.

Lemma demo_upload_world :
  world [] (incoming (task_sid demo_upload) demo_chunk ++ [])
    (length (wire_packet (@resume_packet false (task_sid demo_upload) (Z.of_nat (length (lit "hello "))))) +
     (length (wire_packet (ack_packet (task_sid demo_upload))) + 10)) demo_files (demo_state demo_tables2) demo_upload_state.
Proof.
  split_and!; [| reflexivity | reflexivity]. rewrite app_nil_r. apply demo_channel; [done |]. vm_compute. lia.
Qed.

Lemma demo_chunk_ok : Forall chunk_ok demo_chunk.
Proof. by repeat constructor. Qed.

Lemma upload_completes_witness :
  exists s', @handle_puts false demo_mysql demo_sha256 (fun _ => true) demo_upload demo_upload_state = Ret (tt, s') /\
    saved (xf_fs s') (lit "/srv/" ++ demo_hash) = demo_content.
Proof.
  destruct (@upload_completes false demo_mysql demo_spec demo_results demo_up_instance demo_sha256 (fun _ => true)
    demo_pool demo_tables2 demo_upload (lit "/docs/new.txt") [lit "docs"] (lit "new.txt") 3 demo_content (lit "hello ")
    demo_chunk [] [] 10 demo_files (demo_state demo_tables2) demo_upload_state) as (s' & f' & d' & Hret & Hw & Hup).
  - done.
  - exact demo_upload_possible.
  - vm_compute; reflexivity.
  - exact demo_chunk_ok.
  - reflexivity.
  - exact demo_upload_world.
  - exists s'. split; [exact Hret |]. destruct Hw as (_ & -> & _). exact (up_file _ _ _ _ _ _ _ _ _ _ Hup).
Defined.

(** The same file, stored *)
Definition demo_stored : file_row := {| f_hash := demo_hash; f_size := 11; f_refs := 1 |}.
Definition demo_tables4 : tables :=
  attach_tables demo_tables2 5 4 demo_stored 1 (lit "/docs/new.txt") 3 (lit "new.txt").

Lemma demo_tables4_ok : tables_ok strcaseeq demo_tables4.
Proof.
  apply tables_ok_attach; [exact strcaseeq_equiv | exact demo_tables2_ok | lia | done | by vm_compute | by eexists |].
  right. split_and!; [done | lia | lia | done |]. intros i f Hi. done.
Qed.

Lemma demo_tables4_below : below demo_tables4 100.
Proof. apply below_check. by vm_compute. Qed.

Definition demo_download : transfer_task := {|
  x_epoll_fd := 3; x_client_fd := 5;
  x_packet := received (response CMD_GETS_REQ STATUS_OK demo_sid (Some (lit "docs/new.txt")));
  x_session := demo_context; x_storage_root := lit "/srv"; x_transfer_temp_dir := lit "/tmp" |}.

Definition demo_store : fs :=
  {| dir := {[ lit "/srv/" ++ demo_hash := 0%N ]}; data := {[ 0%N := demo_content ]}; opened := 0; io := [] |}.

Definition demo_meta0 : file_meta :=
  {| fm_path_id := 0; fm_file_id := 0; fm_file_name := []; fm_size := 0; fm_sha256_hex := replicate 65 NUL |}.

Lemma demo_sizes i g : files demo_tables4 !! i = Some g -> is_u64 (f_size g).
Proof.
  change (files demo_tables4) with (<[4 := demo_stored]> (∅ : gmap Z file_row)).
  intros [[_ <-] | [_ Hx]]%lookup_insert_Some; [by vm_compute | by rewrite lookup_empty in Hx].
Qed.

Definition demo_start : list byte :=
  wire_packet (@start_packet false demo_sid 6) ++ wire_packet (ack_packet demo_sid).

Lemma demo_download_possible :
  @download_possible demo_mysql demo_spec demo_up_instance demo_pool demo_tables4 demo_download demo_meta0
    (lit "docs/new.txt") (lit "new.txt") demo_hash demo_content 11 demo_store (demo_state demo_tables4).
Proof.
  split.
  - reflexivity.
  - reflexivity.
  - by vm_compute.
  - split_and!; [apply (bool_decide_unpack _); vm_compute; exact I | done | vm_compute; reflexivity].
  - split_and!; first [by vm_compute | vm_compute; lia | apply (bool_decide_unpack _); vm_compute; exact I].
  - split_and!; [exact demo_free | apply demo_settled | apply demo_state_up; [exact demo_tables4_below | lia]].
  - split; [exact demo_tables4_ok | exact demo_sizes].
  - eexists 5, _, 4, demo_stored.
    split_and!; cycle 4; [vm_compute; reflexivity | reflexivity | vm_compute; reflexivity | reflexivity | reflexivity | reflexivity | reflexivity].
  - vm_compute; lia.
  - split; [vm_compute; reflexivity | apply (bool_decide_unpack _); vm_compute; exact I].
  - reflexivity.
  - vm_compute; reflexivity.
  - exists 0%N. split; vm_compute; reflexivity.
  - vm_compute; reflexivity.
  - constructor.
Qed.

Lemma download_exact_witness :
  exists s' chunks, @handle_gets false demo_mysql (fun _ => true) demo_meta0 demo_download
      (demo_xfer demo_start demo_store demo_tables4) = Ret (tt, s') /\ concat chunks = lit "cloud" /\
    sent (xf_sock s') = wire_packet (@info_packet false demo_sid (lit "new.txt") 11 demo_hash) ++
      frames demo_sid chunks ++ wire_packet (end_packet demo_sid).
Proof.
  destruct (@download_exact false demo_mysql demo_spec demo_results demo_up_instance (fun _ => true)
    demo_pool demo_tables4 demo_download demo_meta0 (lit "docs/new.txt") (lit "new.txt") demo_hash demo_content 11 6
    [] [] 10 demo_store (demo_state demo_tables4) (demo_xfer demo_start demo_store demo_tables4))
    as (s' & f' & d' & chunks & Hret & Hw & Hc & _).
  - done.
  - exact demo_download_possible.
  - reflexivity.
  - vm_compute; lia.
  - split_and!; [| reflexivity | reflexivity]. rewrite app_nil_r. apply demo_channel; [done |]. vm_compute. lia.
  - exists s', chunks. split; [exact Hret |]. split; [exact Hc |]. destruct Hw as ([Hs _ _ _ _] & _). exact Hs.
Defined.

Lemma sendfile_exact_range_witness :
  exists s', sendfile_exact (lit "hello cloud") 6 5 (demo_socket []) = Ret (0, 11, s').
Proof.
  destruct (sendfile_exact_range (lit "hello cloud") 6 5 (demo_socket [])) as [_ Htotal]; [lia | lia |].
  apply Htotal; [vm_compute; discriminate | apply Forall_replicate; by split | vm_compute; lia].
Defined.

Lemma upload_store_integrity_witness :
  exists s', @handle_puts false demo_mysql demo_sha256 (fun _ => true) demo_upload demo_upload_state = Ret (tt, s') /\
    @store_ok demo_sha256 (lit "/srv") (xf_fs s') /\ opened (xf_fs s') = 0 /\ buffers (xf_sock s') = 1.
Proof.
  destruct (@handle_puts_flow false demo_mysql demo_spec demo_results demo_up_instance demo_sha256 (fun _ => true) (fun _ => eq_refl)
    demo_pool demo_tables2 demo_upload _ _ _ 3 demo_content (lit "hello ") demo_chunk [] [] 10 demo_files _ demo_upload_state
    demo_upload_possible eq_refl demo_chunk_ok eq_refl demo_upload_world) as ([] & s' & Hret & _).
  exists s'. split; [exact Hret |].
  exact (@upload_store_integrity false demo_mysql demo_sha256 (fun _ => true) demo_upload demo_upload_state s' demo_store_ok Hret).
Defined.
