(* ===== verification/UploadSteps.v ===== *)
(** * An upload as a sequence of system calls

    [handle_puts] of [src/server/handler_transfer.c] runs on one of several
    workers that share the two directories of the file store.  Here the part of
    it that touches files (its steps 7 to 10) is cut at the system calls: between
    two steps another worker may change the files.  [UploadStepsSpec] shows that a
    worker that runs alone computes what [handle_puts] computes. *)

From Stdlib Require Import Strings.Byte.
From S2P Require Import Prelude CString Protocol Utils Heap Session Database DatabasePool Dao Files HandlerTransfer.

(** ** Data *)

(** The local variables that no longer change *)
Record upload := {
  u_task : transfer_task;
  u_part_path : list byte;
  u_final_path : list byte;
  u_target_path : list byte;
  u_parent_id : Z;
  u_file_name : list byte;
  u_sha256_hex : list byte;
  u_file_size : Z
}.

(** Where a worker stands: the call it makes next *)
Inductive upload_phase :=
| UOpen                                                     (** [open(part_path)] *)
| UStat (o : ofile)                                         (** [fstat] *)
| UTruncate (o : ofile)                                     (** [ftruncate] *)
| UAnnounce (o : ofile) (offset : Z)                        (** [send_puts_resume] *)
| USeek (o : ofile) (offset : Z)                            (** [lseek] to the missing range *)
| UReceive (o : ofile) (received expected : Z)              (** a packet and its [write_n] *)
| UEnd (o : ofile)                                          (** the packet [CMD_FILE_END] *)
| UFlush (o : ofile)                                        (** [fsync] *)
| URewind (o : ofile)                                       (** [lseek] to the start *)
| UHash (o : ofile)                                         (** the hash context *)
| UDigest (o : ofile) (acc : list byte)                     (** one [read] of the hash loop *)
| UReject                                                   (** [unlink] after a mismatch *)
| UPromote                                                  (** [rename] *)
| UProbe                                                    (** [access] *)
| UDiscard                                                  (** [unlink] of a duplicate *)
| URecord                                                   (** the database and the answer *)
| UDone.

#[global] Instance ofile_eq_dec : EqDecision ofile.
Proof. solve_decision. Defined.
#[global] Instance upload_phase_eq_dec : EqDecision upload_phase.
Proof. solve_decision. Defined.

(** The descriptor that is open *)
Definition phase_file (ph : upload_phase) : option ofile :=
  match ph with
  | UStat o | UTruncate o | UAnnounce o _ | USeek o _ | UReceive o _ _ | UEnd o | UFlush o | URewind o | UHash o
  | UDigest o _ => Some o
  | UOpen | UReject | UPromote | UProbe | UDiscard | URecord | UDone => None
  end.

Section steps.
Context `{Host} `{MySQL} `{Sha256} (malloc_ok : Z -> bool).

(** [None]: one of the two paths is too long. *)
Definition upload_paths (task : transfer_task) (target_path : list byte) (parent_id : Z)
    (file_name sha256_hex : list byte) (file_size : Z) : option upload :=
  let '(n1, part_path) := snprintf PATH_MAX (x_transfer_temp_dir task ++ [SLASH] ++ sha256_hex ++ lit ".part") in
  let '(n2, final_path) := snprintf PATH_MAX (x_storage_root task ++ [SLASH] ++ sha256_hex) in
  if (PATH_MAX <=? n1) || (PATH_MAX <=? n2) then None
  else Some {| u_task := task; u_part_path := part_path; u_final_path := final_path; u_target_path := target_path;
               u_parent_id := parent_id; u_file_name := file_name; u_sha256_hex := sha256_hex;
               u_file_size := file_size |}.

(** Steps 1 to 6: the checks of the request against the database, and the upload
    of content that is already stored.  [None]: the handler has answered. *)
Definition admit_upload (task : transfer_task) : xm (option upload) :=
  match parse_upload_request (x_packet task) with
  | inl st => refuse task st;; mret None
  | inr (remote_path, file_size, sha256_hex) =>
      let user_id := ctx_user_id (x_session task) in
      target ← lift_x (normalize_cd_path [SLASH] remote_path PATH_MAX);
      match target with
      | None => refuse task STATUS_BAD_REQUEST;; mret None
      | Some target_path =>
          split ← lift_x (upload_target target_path);
          match split with
          | None => refuse task STATUS_BAD_REQUEST;; mret None
          | Some (parent_path, file_name) =>
              parent ← on_xdb (dao_path_get_node_id user_id parent_path);
              match parent with
              | (DAO_PATH_NOT_FOUND, _) | (DAO_PATH_IS_FILE, _) => refuse task STATUS_BAD_REQUEST;; mret None
              | (DAO_PATH_IS_DIR, parent_id) =>
                  parent_id ← lift_x (deref parent_id);
                  path ← on_xdb (dao_path_get_node_id user_id target_path);
                  match path with
                  | (DAO_PATH_IS_DIR, _) | (DAO_PATH_IS_FILE, _) => refuse task STATUS_BAD_REQUEST;; mret None
                  | (DAO_PATH_NOT_FOUND, _) =>
                      found ← on_xdb (dao_file_find_by_hash sha256_hex file_size);
                      let '(file_ret, file_id) := found in
                      if file_ret <? 0 then refuse task STATUS_OTHER_ERROR;; mret None
                      else if file_ret =? 1 then
                        file_id ← lift_x (deref file_id);
                        instant_upload task target_path parent_id file_name file_id file_size;; mret None
                      else
                        match upload_paths task target_path parent_id file_name sha256_hex file_size with
                        | None => refuse task STATUS_BAD_REQUEST;; mret None
                        | Some u => mret (Some u)
                        end
                  | _ => refuse task STATUS_OTHER_ERROR;; mret None
                  end
              | _ => refuse task STATUS_OTHER_ERROR;; mret None
              end
          end
      end
  end.

(** The error returns, after the descriptor was closed or before it was opened *)
Definition abort (u : upload) (st : status_code) : xm upload_phase := refuse (u_task u) st;; mret UDone.
Definition close_abort (u : upload) (st : status_code) : xm upload_phase := x_close;; abort u st.

(** One turn of [while (received < expected)] *)
Definition receive_step (u : upload) (o : ofile) (received expected : Z) : xm upload_phase :=
  r ← recv_transfer_packet malloc_ok (u_task u);
  match r with
  | None => x_close;; mret UDone
  | Some packet =>
      let len := payload_len (header packet) in
      if bool_decide (type (header packet) = CMD_FILE_END) then
        x_release packet;; close_abort u STATUS_PROTOCOL_ERROR
      else if bool_decide (type (header packet) <> CMD_FILE_DATA) || (len =? 0) ||
              (FILE_CHUNK_SIZE <? len) || (expected - received <? len) then
        x_release packet;; close_abort u STATUS_PROTOCOL_ERROR
      else
        bytes ← lift_x (deref (payload packet));
        wo ← on_fs (write_n o (take (Z.to_nat len) bytes));
        let '(w, o) := wo in
        if negb (w =? 0) then x_release packet;; close_abort u STATUS_IO_ERROR
        else x_release packet;; mret (if received + len <? expected then UReceive o (received + len) expected else UEnd o)
  end.

(** One turn of the loop of [utils_get_file_sha256]; at the end of the file the
    text of the digest is compared with the announced one. *)
Definition digest_step (u : upload) (o : ofile) (acc : list byte) : xm upload_phase :=
  ro ← on_fs (fun f => let '(r, o, f) := read o 4096 f in ((r, o), f));
  match ro with
  | (ReadBytes [], o) =>
      ok ← on_fs call;
      if negb ok then close_abort u STATUS_IO_ERROR
      else x_close;; mret (if bool_decide (hex (sha256 acc) <> u_sha256_hex u) then UReject else UPromote)
  | (ReadBytes l, o) =>
      ok ← on_fs call;
      if ok : bool then mret (UDigest o (acc ++ l)) else close_abort u STATUS_IO_ERROR
  | _ => close_abort u STATUS_IO_ERROR
  end.

Definition upload_step (u : upload) (ph : upload_phase) : xm upload_phase :=
  match ph with
  | UOpen =>
      o ← on_fs (open_create (u_part_path u));
      match o with
      | None => abort u STATUS_IO_ERROR
      | Some o => mret (UStat o)
      end
  | UStat o =>
      size ← on_fs (fstat_size o);
      match size with
      | None => close_abort u STATUS_IO_ERROR
      | Some offset => mret (if u_file_size u <? offset then UTruncate o else UAnnounce o offset)
      end
  | UTruncate o =>
      ok ← on_fs (ftruncate0 o);
      if ok : bool then mret (UAnnounce o 0) else close_abort u STATUS_IO_ERROR
  | UAnnounce o offset =>
      r ← on_socket (fun s => send_puts_resume s (task_sid (u_task u)) offset);
      if negb (r =? 0) then x_close;; mret UDone
      else mret (if offset <? u_file_size u then USeek o offset else UFlush o)
  | USeek o offset =>
      o' ← on_fs (lseek o offset);
      match o' with
      | None => close_abort u STATUS_IO_ERROR
      | Some o => mret (UReceive o 0 (u_file_size u - offset))
      end
  | UReceive o received expected => receive_step u o received expected
  | UEnd o =>
      r ← recv_transfer_packet malloc_ok (u_task u);
      match r with
      | None => x_close;; mret UDone
      | Some packet =>
          if bool_decide (type (header packet) <> CMD_FILE_END) then
            x_release packet;; close_abort u STATUS_PROTOCOL_ERROR
          else x_release packet;; mret (UFlush o)
      end
  | UFlush o =>
      ok ← on_fs call;
      if negb ok then close_abort u STATUS_IO_ERROR else mret (URewind o)
  | URewind o =>
      o' ← on_fs (lseek o 0);
      match o' with
      | None => close_abort u STATUS_IO_ERROR
      | Some o => mret (UHash o)
      end
  | UHash o =>
      ok ← on_fs call;
      if negb ok then close_abort u STATUS_IO_ERROR
      else
        ok ← on_fs call;
        if negb ok then close_abort u STATUS_IO_ERROR else mret (UDigest o [])
  | UDigest o acc => digest_step u o acc
  | UReject => on_fs (fun f => (tt, fs_unlink (u_part_path u) f));; abort u STATUS_BAD_REQUEST
  | UPromote =>
      r ← on_fs (rename (u_part_path u) (u_final_path u));
      mret (match r with None => URecord | Some true => UDiscard | Some false => UProbe end)
  | UProbe =>
      there ← on_fs (access (u_final_path u));
      if there : bool then mret UDiscard else abort u STATUS_IO_ERROR
  | UDiscard => on_fs (fun f => (tt, fs_unlink (u_part_path u) f));; mret URecord
  | URecord =>
      r ← on_xdb (dao_create_file_with_path (ctx_user_id (x_session (u_task u))) (u_target_path u) (u_parent_id u)
                    (u_file_name u) (u_sha256_hex u) (u_file_size u));
      if negb (r =? 0) then abort u STATUS_OTHER_ERROR
      else send_transfer_packet (u_task u) CMD_ACK STATUS_OK None;; mret UDone
  | UDone => mret UDone
  end.

(** The steps of a worker that is not interrupted *)
Fixpoint upload_iter (fuel : nat) (u : upload) (ph : upload_phase) : xm unit :=
  match ph with
  | UDone => mret tt
  | _ =>
      match fuel with
      | O => lift_x NoReturn
      | S fuel => ph ← upload_step u ph; upload_iter fuel u ph
      end
  end.

Definition puts_alone (fuel : nat) (task : transfer_task) : xm unit :=
  admitted ← admit_upload task;
  match admitted with
  | None => mret tt
  | Some u => upload_iter fuel u UOpen
  end.

End steps.
