(* ===== verification/UploadStepsSpec.v ===== *)
(** * The steps of an upload make up the handler

    [rest u ph] is the code of [handle_puts] that remains to be executed in phase
    [ph].  One step followed by the rest is the rest, and the steps decrease a
    measure; so a worker that runs alone computes [upload_content]. *)

From Stdlib Require Import Strings.Byte.
From S2P Require Import Prelude CString Protocol Utils Heap Session Database DatabasePool Dao Files HandlerTransfer.
From S2P Require Import HandlerTransferSpec UploadSteps.

Section rest.
Context `{Host} `{MySQL} `{Sha256} (malloc_ok : Z -> bool).
Implicit Types (u : upload) (o : ofile).

(** ** The code that remains *)

Definition publish u o : xm unit :=
  publish_part (u_task u) o (u_part_path u) (u_final_path u) (u_target_path u) (u_parent_id u) (u_file_name u)
    (u_sha256_hex u) (u_file_size u).

Definition then_publish u (r : option ofile) : xm unit :=
  match r with None => mret tt | Some o => publish u o end.

Definition record_upload u : xm unit :=
  r ← on_xdb (dao_create_file_with_path (ctx_user_id (x_session (u_task u))) (u_target_path u) (u_parent_id u)
                (u_file_name u) (u_sha256_hex u) (u_file_size u));
  if negb (r =? 0) then refuse (u_task u) STATUS_OTHER_ERROR
  else send_transfer_packet (u_task u) CMD_ACK STATUS_OK None;; mret tt.

Definition discard u : xm unit := on_fs (fun f => (tt, fs_unlink (u_part_path u) f)).

Definition rest_loop u (expected : Z) (r : receive_result) : xm (option ofile) :=
  match r with
  | ReceiveAborted => mret None
  | Received o received got_file_end =>
      if negb (received =? expected) then x_close;; refuse (u_task u) STATUS_PROTOCOL_ERROR;; mret None
      else if got_file_end then mret (Some o)
      else
        r ← recv_transfer_packet malloc_ok (u_task u);
        match r with
        | None => x_close;; mret None
        | Some packet =>
            if bool_decide (type (header packet) <> CMD_FILE_END) then
              x_release packet;; x_close;; refuse (u_task u) STATUS_PROTOCOL_ERROR;; mret None
            else x_release packet;; mret (Some o)
        end
  end.

Definition rest_announce u o (offset : Z) : xm (option ofile) :=
  r ← on_socket (fun s => send_puts_resume s (task_sid (u_task u)) offset);
  if negb (r =? 0) then x_close;; mret None
  else if offset <? u_file_size u then receive_missing malloc_ok (u_task u) o offset (u_file_size u)
  else mret (Some o).

Definition rest_truncate u o : xm (option ofile) :=
  ok ← on_fs (ftruncate0 o);
  if ok : bool then rest_announce u o 0 else x_close;; refuse (u_task u) STATUS_IO_ERROR;; mret None.

Definition rest_stat u o : xm (option ofile) :=
  size ← on_fs (fstat_size o);
  match size with
  | None => x_close;; refuse (u_task u) STATUS_IO_ERROR;; mret None
  | Some offset => if u_file_size u <? offset then rest_truncate u o else rest_announce u o offset
  end.

(** After the hash *)
Definition rest_hash u (actual : option (list byte)) : xm unit :=
  match actual with
  | None => x_close;; refuse (u_task u) STATUS_IO_ERROR
  | Some actual =>
      x_close;;
      if bool_decide (actual <> u_sha256_hex u) then discard u;; refuse (u_task u) STATUS_BAD_REQUEST
      else
        promoted ← promote_part (u_task u) (u_part_path u) (u_final_path u);
        if negb promoted then mret tt else record_upload u
  end.

Definition digest_fuel o (f : fs) : nat := S (length (content f (ino o)) - pos o).

Definition digest_rest o (acc : list byte) (f : fs) : outcome (option (list byte) * fs) :=
  '(r, o, f) ← digest_loop (digest_fuel o f) o f acc;
  match r with
  | None => Ret (None, f)
  | Some bytes => let '(ok, f) := call f in Ret (if negb ok then None else Some (hex (sha256 bytes)), f)
  end.

Definition rest_digest u o (acc : list byte) : xm unit := on_fs_loop (digest_rest o acc) ≫= rest_hash u.

Definition rest u (ph : upload_phase) : xm unit :=
  match ph with
  | UOpen => receive_part malloc_ok (u_task u) (u_part_path u) (u_file_size u) ≫= then_publish u
  | UStat o => rest_stat u o ≫= then_publish u
  | UTruncate o => rest_truncate u o ≫= then_publish u
  | UAnnounce o offset => rest_announce u o offset ≫= then_publish u
  | USeek o offset => receive_missing malloc_ok (u_task u) o offset (u_file_size u) ≫= then_publish u
  | UReceive o received expected =>
      (receive_loop malloc_ok (Z.to_nat (expected - received)) (u_task u) o received expected ≫= rest_loop u expected)
        ≫= then_publish u
  | UEnd o => rest_loop u 0 (Received o 0 false) ≫= then_publish u
  | UFlush o => publish u o
  | URewind o =>
      o' ← on_fs (lseek o 0);
      match o' with
      | None => x_close;; refuse (u_task u) STATUS_IO_ERROR
      | Some o => r ← on_fs_loop (fun f => '(r, o, f) ← utils_get_file_sha256 o 65 f; Ret (r, f)); rest_hash u r
      end
  | UHash o => r ← on_fs_loop (fun f => '(r, o, f) ← utils_get_file_sha256 o 65 f; Ret (r, f)); rest_hash u r
  | UDigest o acc => rest_digest u o acc
  | UReject => discard u;; refuse (u_task u) STATUS_BAD_REQUEST
  | UPromote =>
      promoted ← promote_part (u_task u) (u_part_path u) (u_final_path u);
      if negb promoted then mret tt else record_upload u
  | UProbe =>
      there ← on_fs (access (u_final_path u));
      if there : bool then discard u;; record_upload u else refuse (u_task u) STATUS_IO_ERROR
  | UDiscard => discard u;; record_upload u
  | URecord => record_upload u
  | UDone => mret tt
  end.

(** ** Laws of the monad *)

Definition xeq {A} (m1 m2 : xm A) : Prop := forall s, m1 s = m2 s.

#[global] Instance xeq_equiv A : Equivalence (@xeq A).
Proof. split; [done | by intros m1 m2 Hm s | intros m1 m2 m3 E1 E2 s; by rewrite E1]. Qed.

Lemma xbind_congr {A B} (m : xm A) (f g : A -> xm B) : (forall a, xeq (f a) (g a)) -> xeq (m ≫= f) (m ≫= g).
Proof. intros Hf s. unfold mbind, xm_bind. destruct (m s) as [[a s'] | |]; simpl; [apply Hf | done | done]. Qed.

Lemma xbind_congr_l {A B} (m1 m2 : xm A) (f : A -> xm B) : xeq m1 m2 -> xeq (m1 ≫= f) (m2 ≫= f).
Proof. intros Hm s. unfold mbind, xm_bind. by rewrite Hm. Qed.

(** Only the results that the first part can have matter. *)
Lemma xbind_congr_post {A B} (m : xm A) (f g : A -> xm B) :
  (forall a, (exists s s', m s = Ret (a, s')) -> xeq (f a) (g a)) -> xeq (m ≫= f) (m ≫= g).
Proof. intros Hf s. unfold mbind, xm_bind. destruct (m s) as [[a s'] | |] eqn:E; simpl; [eapply Hf; eauto | done | done]. Qed.

#[global] Instance xbind_proper {A B} (m : xm A) :
  Proper (pointwise_relation A xeq ==> xeq) (fun f : A -> xm B => m ≫= f).
Proof. intros f g Hf. by apply xbind_congr. Qed.

Lemma xbind_assoc {A B C} (m : xm A) (f : A -> xm B) (g : B -> xm C) :
  xeq ((m ≫= f) ≫= g) (m ≫= (fun a => f a ≫= g)).
Proof. intros s. unfold mbind, xm_bind. by destruct (m s) as [[a s'] | |]. Qed.

Lemma xret_bind {A B} (a : A) (f : A -> xm B) : xeq (mret a ≫= f) (f a).
Proof. done. Qed.

End rest.

(** Both sides make the same first call, and go on from its result. *)
Ltac xassoc :=
  match goal with
  | |- xeq (mbind ?g (mbind ?f ?m)) _ => etransitivity; [apply (xbind_assoc m f g) | cbn beta]
  | |- xeq (mbind ?f (mret ?a)) _ => etransitivity; [apply (xret_bind a f) | cbn beta]
  end.
Ltac xfirst := repeat xassoc; symmetry; repeat xassoc; symmetry; apply xbind_congr; intros ?.

Section one_step.
Context `{Host} `{MySQL} `{Sha256} (malloc_ok : Z -> bool).
Implicit Types (u : upload) (o : ofile).

Lemma abort_rest u st (k : xm unit) :
  xeq (refuse (u_task u) st;; mret tt) k -> xeq (abort u st ≫= rest malloc_ok u) k.
Proof. intros <-. unfold abort. xassoc. by apply xbind_congr. Qed.

Lemma refuse_tt u st : xeq (refuse (u_task u) st;; mret tt) (refuse (u_task u) st).
Proof. unfold refuse. xassoc. by apply xbind_congr. Qed.

Lemma close_abort_rest {R} u st (r : R) (k : R -> xm unit) :
  k r = mret tt ->
  xeq (close_abort u st ≫= rest malloc_ok u) ((x_close;; refuse (u_task u) st;; mret r) ≫= k).
Proof.
  intros Hk. unfold close_abort, abort. xfirst. xfirst. change (xeq (mret tt) (k r)). by rewrite Hk.
Qed.

Lemma close_abort_refuse u st :
  xeq (close_abort u st ≫= rest malloc_ok u) (x_close;; refuse (u_task u) st).
Proof. unfold close_abort. xassoc. apply xbind_congr. intros _. apply abort_rest, refuse_tt. Qed.

Lemma rest_open u : xeq (upload_step malloc_ok u UOpen ≫= rest malloc_ok u) (rest malloc_ok u UOpen).
Proof.
  unfold rest at 2, receive_part. cbn [upload_step]. xfirst. destruct a as [o |].
  - change (xeq (rest_stat malloc_ok u o ≫= then_publish u)
      ((size ← on_fs (fstat_size o);
        match size with
        | None => x_close;; refuse (u_task u) STATUS_IO_ERROR;; mret None
        | Some offset =>
            reset ← (if u_file_size u <? offset then
                       ok ← on_fs (ftruncate0 o); mret (if ok : bool then Some 0 else None)
                     else mret (Some offset));
            match reset with
            | None => x_close;; refuse (u_task u) STATUS_IO_ERROR;; mret None
            | Some offset => rest_announce malloc_ok u o offset
            end
        end) ≫= then_publish u)).
    unfold rest_stat. xfirst. destruct a as [offset |]; [| done]. destruct (_ <? _); [| done].
    unfold rest_truncate. xfirst. by destruct a.
  - apply abort_rest. xfirst. done.
Qed.
Lemma rest_small u ph :
  match ph with UStat _ | UTruncate _ | UAnnounce _ _ | UReject | UPromote | UProbe | UDiscard | URecord => True | _ => False end ->
  xeq (upload_step malloc_ok u ph ≫= rest malloc_ok u) (rest malloc_ok u ph).
Proof.
  destruct ph; try done; intros _; cbn [upload_step rest].
  - unfold rest_stat. xfirst. destruct a as [offset |]; [| by apply close_abort_rest]. by destruct (_ <? _).
  - unfold rest_truncate. xfirst. destruct a; [done | by apply close_abort_rest].
  - unfold rest_announce. xfirst. destruct (negb _); [by xfirst |]. by destruct (_ <? _).
  - unfold discard. xassoc. apply xbind_congr. intros _. apply abort_rest, refuse_tt.
  - unfold promote_part. xfirst. destruct a as [[] |]; [| | done].
    + change (xeq (discard u;; record_upload u)
        ((discard u;; mret true) ≫= (fun promoted : bool => if negb promoted then mret tt else record_upload u))).
      symmetry. by xassoc.
    + etransitivity; [apply xret_bind |]. cbn [rest]. xfirst. destruct a; [by xfirst |]. symmetry. xassoc. apply refuse_tt.
  - xassoc. apply xbind_congr. intros there. destruct there; [done |]. apply abort_rest, refuse_tt.
  - unfold record_upload. xassoc. apply xbind_congr. intros r. destruct (negb _); [apply abort_rest, refuse_tt |].
    xassoc. by apply xbind_congr.
Qed.

Lemma rest_end u o : xeq (upload_step malloc_ok u (UEnd o) ≫= rest malloc_ok u) (rest malloc_ok u (UEnd o)).
Proof.
  cbn [upload_step rest rest_loop]. cbn [Z.eqb negb]. xfirst. destruct a as [packet |]; [| by xfirst].
  case_bool_decide; [| by xfirst]. xfirst. by apply close_abort_rest.
Qed.

(** *** Receiving *)

Lemma recv_len task p s s' :
  recv_transfer_packet malloc_ok task s = Ret (Some p, s') -> 0 <= payload_len (header p).
Proof.
  intros Hr. destruct (triple_recv malloc_ok task (fun _ => True) (buffers (xf_sock s)) s (Some p) s') as [Hwf _];
    [done | done |]. apply Hwf.
Qed.

Lemma receive_loop_fuel task expected : forall n1 n2 o received,
  (Z.to_nat (expected - received) <= n1)%nat -> (Z.to_nat (expected - received) <= n2)%nat ->
  xeq (receive_loop malloc_ok n1 task o received expected) (receive_loop malloc_ok n2 task o received expected).
Proof.
  induction n1 as [| n1 IH]; intros n2 o received Hn1 Hn2.
  - destruct n2; cbn [receive_loop]; (destruct (negb _) eqn:E; [done | zbool; lia]).
  - destruct n2 as [| n2]; cbn [receive_loop]; (destruct (negb (received <? expected)) eqn:E; [done |]); zbool; [lia |].
    apply xbind_congr_post. intros [packet |] (s1 & s2 & Hp); [apply recv_len in Hp | done].
    case_bool_decide; [done |]. destruct (_ || _) eqn:Eg; [done |].
    apply xbind_congr. intros bytes. apply xbind_congr. intros [w o']. destruct (negb _); [done |].
    apply xbind_congr. intros _. apply IH; zbool; lia.
Qed.

Lemma rest_seek u o offset :
  offset < u_file_size u ->
  xeq (upload_step malloc_ok u (USeek o offset) ≫= rest malloc_ok u) (rest malloc_ok u (USeek o offset)).
Proof.
  intros Hoff. cbn [upload_step]. unfold rest at 2, receive_missing. xfirst.
  destruct a as [o' |]; [| by apply close_abort_rest]. cbn [rest].
  change (xeq (rest malloc_ok u (UReceive o' 0 (u_file_size u - offset)))
    ((receive_loop malloc_ok (Z.to_nat (u_file_size u - offset)) (u_task u) o' 0 (u_file_size u - offset)
        ≫= rest_loop malloc_ok u (u_file_size u - offset)) ≫= then_publish u)).
  cbn [rest]. by rewrite Z.sub_0_r.
Qed.

Lemma rest_receive u o received expected :
  received < expected ->
  xeq (upload_step malloc_ok u (UReceive o received expected) ≫= rest malloc_ok u)
      (rest malloc_ok u (UReceive o received expected)).
Proof.
  intros Hlt. cbn [upload_step rest]. unfold receive_step.
  destruct (Z.to_nat (expected - received)) as [| n] eqn:En; [lia |]. cbn [receive_loop].
  destruct (negb (received <? expected)) eqn:E; [zbool; lia |]. clear E.
  repeat xassoc. symmetry. repeat xassoc. symmetry.
  apply xbind_congr_post. intros [packet |] (s1 & s2 & Hp); [apply recv_len in Hp | by xfirst]. case_bool_decide.
  { xfirst. symmetry. etransitivity; [| symmetry; by apply (close_abort_rest u STATUS_PROTOCOL_ERROR None (then_publish u))].
    xassoc. cbn [rest_loop]. destruct (negb (received =? expected)) eqn:E; [done | zbool; lia]. }
  destruct (_ || _) eqn:Eg.
  { xfirst. etransitivity; [by apply (close_abort_rest u STATUS_PROTOCOL_ERROR None (then_publish u)) |]. xfirst. by xfirst. }
  xfirst. xfirst. destruct a0 as [w o']. destruct (negb _).
  { xfirst. etransitivity; [by apply (close_abort_rest u STATUS_IO_ERROR None (then_publish u)) |]. xfirst. by xfirst. }
  xfirst. set (len := payload_len (header packet)) in *.
  destruct (received + len <? expected) eqn:El.
  - change (xeq (rest malloc_ok u (UReceive o' (received + len) expected))
      (receive_loop malloc_ok n (u_task u) o' (received + len) expected ≫=
         (fun r => rest_loop malloc_ok u expected r ≫= then_publish u))).
    cbn [rest]. xassoc. intros s. unfold mbind, xm_bind.
    rewrite (receive_loop_fuel _ _ _ n) by (zbool; lia). done.
  - assert (received + len = expected) as Heq by (zbool; lia).
    change (xeq (rest malloc_ok u (UEnd o'))
      (receive_loop malloc_ok n (u_task u) o' (received + len) expected ≫=
         (fun r => rest_loop malloc_ok u expected r ≫= then_publish u))).
    intros s. destruct n; cbn [receive_loop]; rewrite El; cbn [negb];
      (change (rest malloc_ok u (UEnd o') s = (rest_loop malloc_ok u expected (Received o' (received + len) false) ≫= then_publish u) s));
      cbn [rest rest_loop]; by rewrite Heq, (Z.eqb_refl expected).
Qed.

(** *** Hashing *)

Lemma digest_loop_fuel : forall n1 n2 o f acc,
  (length (content f (ino o)) - pos o < n1)%nat -> (length (content f (ino o)) - pos o < n2)%nat ->
  digest_loop n1 o f acc = digest_loop n2 o f acc.
Proof.
  induction n1 as [| n1 IH]; intros n2 o f acc Hn1 Hn2; [lia |]. destruct n2 as [| n2]; [lia |]. cbn [digest_loop].
  destruct (read o 4096 f) as [[r o1] f1] eqn:Er.
  pose proof (read_cases _ _ _ _ _ _ Er ltac:(lia)) as (Hs & Ho & Hr).
  destruct r as [[| b l] | |]; try done. destruct Hr as (Hl & Hp & _ & _). destruct (call f1) as [ok f2] eqn:Ec.
  destruct ok; [| done]. pose proof (call_same _ _ _ Ec) as Hs2.
  assert (Hc : content f2 (ino o1) = content f (ino o)).
  { by rewrite Ho, (content_same f f2) by (by eapply same_files_trans). }
  assert (length (b :: l) <= length (content f (ino o)) - pos o)%nat.
  { rewrite Hl, length_take, length_drop. lia. }
  simpl length in *. apply IH; rewrite Hc; lia.
Qed.

Lemma digest_rest_step o acc f :
  digest_rest o acc f =
  let '(r, o, f) := read o 4096 f in
  match r with
  | ReadBytes [] => let '(ok, f) := call f in Ret (if negb ok then None else Some (hex (sha256 acc)), f)
  | ReadBytes l => let '(ok, f) := call f in if ok then digest_rest o (acc ++ l) f else Ret (None, f)
  | _ => Ret (None, f)
  end.
Proof.
  unfold digest_rest at 1, digest_fuel. cbn [digest_loop]. destruct (read o 4096 f) as [[r o1] f1] eqn:Er.
  pose proof (read_cases _ _ _ _ _ _ Er ltac:(lia)) as (Hs & Ho & Hr).
  destruct r as [[| b l] | |]; try done. destruct Hr as (Hl & Hp & _ & _). destruct (call f1) as [ok f2] eqn:Ec.
  destruct ok; [| done]. pose proof (call_same _ _ _ Ec) as Hs2.
  assert (Hc : content f2 (ino o1) = content f (ino o)).
  { by rewrite Ho, (content_same f f2) by (by eapply same_files_trans). }
  assert (length (b :: l) <= length (content f (ino o)) - pos o)%nat.
  { rewrite Hl, length_take, length_drop. lia. }
  simpl length in *. unfold digest_rest, digest_fuel.
  by rewrite (digest_loop_fuel _ (S (length (content f2 (ino o1)) - pos o1))) by (rewrite Hc; lia).
Qed.

Lemma rest_flush u o : xeq (upload_step malloc_ok u (UFlush o) ≫= rest malloc_ok u) (rest malloc_ok u (UFlush o)).
Proof.
  cbn [upload_step]. unfold rest at 2, publish, publish_part, verify_part. xfirst.
  destruct (negb a); [by apply close_abort_rest |]. xassoc. cbn [rest]. xfirst.
  destruct a0 as [o' |]; [| xfirst; symmetry; repeat xassoc; apply refuse_tt].
  xfirst. destruct a0 as [actual |]; cbn [rest_hash]; [| xfirst; symmetry; repeat xassoc; apply refuse_tt]. by xfirst.
Qed.

Lemma rest_rewind u o : xeq (upload_step malloc_ok u (URewind o) ≫= rest malloc_ok u) (rest malloc_ok u (URewind o)).
Proof. cbn [upload_step rest]. xfirst. destruct a as [o' |]; [done | apply close_abort_refuse]. Qed.

Lemma on_fs_bind {A B} (m : fs -> A * fs) (k : A -> xm B) s :
  (on_fs m ≫= k) s =
    k (fst (m (xf_fs s))) {| xf_sock := xf_sock s; xf_fs := snd (m (xf_fs s)); xf_db := xf_db s |}.
Proof. unfold mbind, xm_bind, on_fs. by destruct (m (xf_fs s)). Qed.

Lemma hash_split o :
  xeq (on_fs_loop (fun f => '(r, o, f) ← utils_get_file_sha256 o 65 f; Ret (r, f)))
      (ok ← on_fs call;
       if negb ok then mret None
       else ok ← on_fs call; if negb ok then mret None else on_fs_loop (digest_rest o [])).
Proof.
  intros s. unfold on_fs_loop, utils_get_file_sha256. cbn [Z.ltb Z.compare Pos.compare Pos.compare_cont].
  rewrite on_fs_bind. destruct (call (xf_fs s)) as [ok f1]. cbn [fst snd]. destruct ok; [| done].
  cbn [negb]. rewrite on_fs_bind. cbn [xf_fs]. destruct (call f1) as [ok f2]. cbn [fst snd]. destruct ok; [| done].
  cbn [negb xf_fs].
  unfold digest_rest, digest_fuel.
  rewrite (digest_loop_fuel _ (S (length (content f2 (ino o)) - pos o))) by lia.
  destruct (digest_loop _ o f2 []) as [[[r o'] f3] | |]; cbn [mbind outcome_bind]; [| done | done].
  destruct r as [bytes |]; [| done]. destruct (call f3) as [[] f4]; done.
Qed.

Lemma digest_split o acc :
  xeq (on_fs_loop (digest_rest o acc))
      (ro ← on_fs (fun f => let '(r, o, f) := read o 4096 f in ((r, o), f));
       match ro with
       | (ReadBytes [], o) => ok ← on_fs call; mret (if negb ok then None else Some (hex (sha256 acc)))
       | (ReadBytes l, o) => ok ← on_fs call; if ok : bool then on_fs_loop (digest_rest o (acc ++ l)) else mret None
       | _ => mret None
       end).
Proof.
  intros s. unfold on_fs_loop at 1. rewrite digest_rest_step.
  rewrite on_fs_bind. destruct (read o 4096 (xf_fs s)) as [[r o1] f1]. cbn [fst snd].
  destruct r as [[| b l] | |]; try done; rewrite on_fs_bind; cbn [xf_fs]; by destruct (call f1) as [[] f2].
Qed.

Lemma rest_hash_start u o : xeq (upload_step malloc_ok u (UHash o) ≫= rest malloc_ok u) (rest malloc_ok u (UHash o)).
Proof.
  cbn [upload_step rest]. symmetry. etransitivity; [apply xbind_congr_l, hash_split |]. symmetry. xfirst. destruct (negb a); [apply close_abort_refuse |]. xfirst.
  destruct (negb a0); [apply close_abort_refuse | done].
Qed.

Lemma rest_digest_step u o acc :
  xeq (upload_step malloc_ok u (UDigest o acc) ≫= rest malloc_ok u) (rest malloc_ok u (UDigest o acc)).
Proof.
  cbn [upload_step rest]. unfold digest_step, rest_digest. symmetry. etransitivity; [apply xbind_congr_l, digest_split |]. symmetry. xfirst. destruct a as [[[| b l] | |] o1]; [| | apply close_abort_refuse | apply close_abort_refuse].
  - xfirst. destruct (negb a); [apply close_abort_refuse |]. cbn [rest_hash]. xfirst. by case_bool_decide.
  - xfirst. destruct a; [done | apply close_abort_refuse].
Qed.

End one_step.

(** ** The steps end *)

Definition phase_ok (u : upload) (ph : upload_phase) : Prop :=
  match ph with
  | USeek _ offset => offset < u_file_size u
  | UReceive _ received expected => received < expected
  | _ => True
  end.

Definition rank (ph : upload_phase) : nat :=
  match ph with
  | UOpen => 15 | UStat _ => 14 | UTruncate _ => 13 | UAnnounce _ _ => 12 | USeek _ _ => 11 | UReceive _ _ _ => 10
  | UEnd _ => 9 | UFlush _ => 8 | URewind _ => 7 | UHash _ => 6 | UDigest _ _ => 5 | UReject => 4 | UPromote => 4
  | UProbe => 3 | UDiscard => 2 | URecord => 1 | UDone => 0
  end.

(** The bytes that are still to be received or read in the two loops *)
Definition remaining (ph : upload_phase) (f : fs) : nat :=
  match ph with
  | UReceive _ received expected => Z.to_nat (expected - received)
  | UDigest o _ => length (content f (ino o)) - pos o
  | _ => 0
  end.

Section progress.
Context `{Host} `{MySQL} `{Sha256} (malloc_ok : Z -> bool).
Implicit Types (u : upload) (o : ofile).

(** The phases that a step of [ph] may lead to *)
Definition next_ok u (n m : nat) (ph : upload_phase) (s : xfer_state) : Prop :=
  phase_ok u ph /\ ((rank ph < n)%nat \/ rank ph = n /\ (remaining ph (xf_fs s) < m)%nat).

Lemma triple_top {A} (P : xfer_state -> Prop) (m : xm A) : triple P m (fun _ _ => True).
Proof. by intros s r s' _ _. Qed.

Lemma next_ret u n m ph P : phase_ok u ph -> (rank ph < n)%nat -> triple P (mret ph) (next_ok u n m).
Proof. intros Hok Hn s r s' _ [= <- <-]. split; [done | by left]. Qed.

Lemma next_abort u n m st P : (0 < n)%nat -> triple P (abort u st) (next_ok u n m).
Proof. intros Hn. tbind triple_top. by apply next_ret. Qed.

Lemma next_close u n m P : (0 < n)%nat -> triple P (x_close;; mret UDone) (next_ok u n m).
Proof. intros Hn. tbind triple_top. by apply next_ret. Qed.

Lemma next_close_abort u n m st P : (0 < n)%nat -> triple P (close_abort u st) (next_ok u n m).
Proof. intros Hn. tbind triple_top. by apply next_abort. Qed.

Lemma next_release_abort u n m p st P : (0 < n)%nat -> triple P (x_release p;; close_abort u st) (next_ok u n m).
Proof. intros Hn. tbind triple_top. by apply next_close_abort. Qed.

Ltac leads :=
  lazymatch goal with
  | |- triple _ (mret _) _ => apply next_ret
  | |- triple _ (abort _ _) _ => apply next_abort
  | |- triple _ (close_abort _ _) _ => apply next_close_abort
  | |- triple _ (mbind _ x_close) _ => apply next_close
  | |- triple _ (mbind _ (x_release _)) _ => apply next_release_abort
  end; simpl; done || lia.

Lemma receive_step_next u o received expected P :
  triple P (receive_step malloc_ok u o received expected) (next_ok u 10 (Z.to_nat (expected - received))).
Proof.
  unfold receive_step. eapply (triple_bind _ _ (fun r _ => (forall p, r = Some p -> 0 <= payload_len (header p)) /\ True)).
  { intros s r s' _ Hr. split; [| done]. intros p ->. by eapply recv_len. }
  intros [p |]; [| leads]. apply triple_pure. intros Hlen. specialize (Hlen p eq_refl).
  case_bool_decide; [leads |]. destruct (_ || _) eqn:Eg; [leads |].
  tbind triple_top. tbind triple_top. destruct a0 as [w o']. destruct (negb _); [leads |]. tbind triple_top.
  destruct (received + payload_len (header p) <? expected) eqn:El; [| apply next_ret; [exact I | simpl; lia]].
  intros s r s' _ [= <- <-]. zbool. split; [done |]. right. split; [done |]. simpl. lia.
Qed.

Lemma digest_step_next u o acc c :
  triple (fun s => content (xf_fs s) (ino o) = c) (digest_step u o acc) (next_ok u 5 (length c - pos o)).
Proof.
  unfold digest_step. eapply (triple_bind _ _ (fun ro s => content (xf_fs s) (ino (snd ro)) = c /\
    forall l, fst ro = ReadBytes l -> l <> [] -> (pos (snd ro) = pos o + length l /\ pos o + length l <= length c)%nat)).
  { intros s [r o1] s' Hc. unfold on_fs. destruct (read o 4096 (xf_fs s)) as [[r1 o2] f1] eqn:Er. intros [= <- <- <-].
    pose proof (read_cases _ _ _ _ _ _ Er ltac:(lia)) as (Hs & Ho & Hr). cbn [snd fst xf_fs].
    split; [by rewrite Ho, (content_same _ _ _ Hs) |]. intros l -> Hne. destruct Hr as (Hl & Hp & _ & _).
    split; [done |]. rewrite Hc in Hl. apply (f_equal length) in Hl. rewrite length_take, length_drop in Hl.
    assert (length l <> 0)%nat by (by destruct l). lia. }
  intros [[[| b l] | |] o1]; cbn [fst snd]; [| | leads | leads].
  - tbind triple_top. destruct (negb a); [leads |]. tbind triple_top.
    case_bool_decide; apply next_ret; simpl; done || lia.
  - eapply (triple_bind _ _ (fun _ s => content (xf_fs s) (ino o1) = c /\
      (pos o1 = pos o + length (b :: l) /\ pos o + length (b :: l) <= length c)%nat)).
    { intros s ok s' [Hc Hl]. unfold on_fs. destruct (call (xf_fs s)) as [ok1 f1] eqn:Ec. intros [= <- <-].
      cbn [xf_fs]. rewrite (content_same (xf_fs s)) by (by eapply call_same). split; [done | by apply Hl]. }
    intros []; [| leads]. intros s r s' (Hc & Hp & Hle) [= <- <-]. split; [done |]. right.
    split; [done |]. simpl remaining. simpl length in *. rewrite Hc. lia.
Qed.

Lemma upload_step_next u ph s : phase_ok u ph -> ph <> UDone ->
  triple (eq s) (upload_step malloc_ok u ph) (next_ok u (rank ph) (remaining ph (xf_fs s))).
Proof.
  intros Hok Hne. destruct ph; cbn [upload_step rank remaining phase_ok] in *.
  - tbind triple_top. destruct a; leads.
  - tbind triple_top. destruct a as [offset |]; [destruct (u_file_size u <? offset) |]; leads.
  - tbind triple_top. destruct a; leads.
  - tbind triple_top. destruct (negb _); [leads |]. destruct (offset <? u_file_size u) eqn:E; zbool; leads.
  - tbind triple_top. destruct a; leads.
  - eapply triple_pre; [apply receive_step_next | done].
  - tbind triple_top. destruct a as [p |]; [case_bool_decide; [leads | tbind triple_top; leads] | leads].
  - tbind triple_top. destruct (negb a); leads.
  - tbind triple_top. destruct a; leads.
  - tbind triple_top. destruct (negb a); [leads |]. tbind triple_top. destruct (negb a0); leads.
  - eapply triple_pre; [apply (digest_step_next u o acc (content (xf_fs s) (ino o))) | by intros ? <-].
  - tbind triple_top. leads.
  - tbind triple_top. destruct a as [[] |]; leads.
  - tbind triple_top. destruct a; leads.
  - tbind triple_top. leads.
  - tbind triple_top. destruct (negb _); [leads |]. tbind triple_top. leads.
  - done.
Qed.
(** ** A step and the rest are the rest *)

Lemma rest_step u ph : phase_ok u ph -> ph <> UDone ->
  xeq (upload_step malloc_ok u ph ≫= rest malloc_ok u) (rest malloc_ok u ph).
Proof.
  intros Hok Hne. destruct ph; try done; try (by apply rest_small).
  - apply rest_open.
  - by apply rest_seek.
  - by apply rest_receive.
  - apply rest_end.
  - apply rest_flush.
  - apply rest_rewind.
  - apply rest_hash_start.
  - apply rest_digest_step.
Qed.

Lemma upload_iter_S n u ph : ph <> UDone ->
  upload_iter malloc_ok (S n) u ph = (upload_step malloc_ok u ph ≫= upload_iter malloc_ok n u).
Proof. by destruct ph. Qed.

Lemma upload_iter_rest : forall n m u ph s,
  phase_ok u ph -> rank ph = n -> remaining ph (xf_fs s) = m ->
  exists fuel, forall k, (fuel <= k)%nat -> upload_iter malloc_ok k u ph s = rest malloc_ok u ph s.
Proof.
  induction n as [n IHn] using lt_wf_ind. induction m as [m IHm] using lt_wf_ind. intros u ph s Hok Hn Hm.
  destruct (decide (ph = UDone)) as [-> | Hne]; [exists 0%nat; by intros [] |].
  destruct (upload_step malloc_ok u ph s) as [[ph' s'] | |] eqn:E.
  - destruct (upload_step_next u ph s Hok Hne s ph' s' eq_refl E) as [Hok' Hlt].
    assert (exists fuel, forall k, (fuel <= k)%nat -> upload_iter malloc_ok k u ph' s' = rest malloc_ok u ph' s') as [fuel Hf].
    { destruct Hlt as [Hlt | [Heq Hlt]]; [by eapply (IHn (rank ph')); [lia | ..] |].
      eapply (IHm (remaining ph' (xf_fs s'))); [lia | done | lia | done]. }
    exists (S fuel). intros [| k] Hk; [lia |]. rewrite upload_iter_S, <- rest_step by done.
    unfold mbind, xm_bind. rewrite E. simpl. apply Hf. lia.
  - exists 1%nat. intros [| k] Hk; [lia |]. rewrite upload_iter_S, <- rest_step by done.
    unfold mbind, xm_bind. by rewrite E.
  - exists 1%nat. intros [| k] Hk; [lia |]. rewrite upload_iter_S, <- rest_step by done.
    unfold mbind, xm_bind. by rewrite E.
Qed.

Lemma upload_content_steps task target_path parent_id file_name sha256_hex file_size s :
  match upload_paths task target_path parent_id file_name sha256_hex file_size with
  | None => upload_content malloc_ok task target_path parent_id file_name sha256_hex file_size s =
            refuse task STATUS_BAD_REQUEST s
  | Some u => exists fuel, forall k, (fuel <= k)%nat ->
      upload_iter malloc_ok k u UOpen s =
      upload_content malloc_ok task target_path parent_id file_name sha256_hex file_size s
  end.
Proof.
  unfold upload_paths, upload_content.
  destruct (snprintf PATH_MAX (x_transfer_temp_dir task ++ _)) as [n1 part].
  destruct (snprintf PATH_MAX (x_storage_root task ++ _)) as [n2 final].
  destruct ((PATH_MAX <=? n1) || (PATH_MAX <=? n2)); [done |].
  set (u := {| u_task := task |}). by apply (upload_iter_rest 15 0 u UOpen s).
Qed.

(** [m] is computed by the steps after an admission [a], from [s]. *)
Definition computed (m : xm unit) (a : xm (option upload)) (s : xfer_state) : Prop :=
  exists fuel, forall k, (fuel <= k)%nat ->
    (a ≫= (fun admitted => match admitted with None => mret tt | Some u => upload_iter malloc_ok k u UOpen end)) s = m s.

Lemma computed_end m a s : xeq (a ≫= (fun _ => mret tt)) m ->
  (forall s r s', a s = Ret (r, s') -> r = None) -> computed m a s.
Proof.
  intros Hm Ha. exists 0%nat. intros k _. rewrite <- Hm. unfold mbind, xm_bind.
  destruct (a s) as [[r s'] | |] eqn:E; [| done | done]. simpl. by rewrite (Ha _ _ _ E).
Qed.

Lemma computed_refuse task st s : computed (refuse task st) (refuse task st;; mret None) s.
Proof.
  apply computed_end.
  - unfold refuse. intros s'. unfold mbind, xm_bind. by destruct (send_transfer_packet _ _ _ _ _) as [[] | |].
  - intros s1 r s2 Hr. apply bind_Ret_inv in Hr as ([] & _ & [= <- _]). done.
Qed.

Lemma computed_bind {A} (c : xm A) (f : A -> xm unit) (g : A -> xm (option upload)) s :
  (forall a s', computed (f a) (g a) s') -> computed (c ≫= f) (c ≫= g) s.
Proof.
  intros Hfg. unfold computed, mbind, xm_bind. destruct (c s) as [[a s'] | |]; [| by exists 0%nat | by exists 0%nat].
  simpl. apply Hfg.
Qed.

(** (C13) The steps are the handler: from every state, whatever the client sends
    and the kernel and the database answer, a worker that makes its steps without
    interruption ends after finitely many of them with the result of [handle_puts]. *)
Theorem upload_steps_equivalent task s :
  exists fuel, forall k, (fuel <= k)%nat -> puts_alone malloc_ok k task s = handle_puts malloc_ok task s.
Proof.
  change (computed (handle_puts malloc_ok task) (admit_upload task) s). unfold handle_puts, admit_upload.
  destruct (parse_upload_request _) as [st | [[path size] sha]]; [apply computed_refuse |].
  apply computed_bind. intros [target |] s1; [| apply computed_refuse].
  apply computed_bind. intros [[parent name] |] s2; [| apply computed_refuse].
  apply computed_bind. intros [[] parent_id] s3; try apply computed_refuse.
  apply computed_bind. intros pid s4. apply computed_bind. intros [[] ?] s5; try apply computed_refuse.
  apply computed_bind. intros [file_ret file_id] s6.
  destruct (file_ret <? 0); [apply computed_refuse |]. destruct (file_ret =? 1).
  - apply computed_bind. intros fid s7. apply computed_end.
    + intros s8. unfold mbind, xm_bind. by destruct (instant_upload _ _ _ _ _ _ s8) as [[[] ?] | |].
    + intros s8 r s9 Hr. apply bind_Ret_inv in Hr as ([[] ?] & _ & [= <- _]). done.
  - pose proof (upload_content_steps task target pid name sha size s6) as Hsteps.
    destruct (upload_paths _ _ _ _ _ _) as [u |]; [destruct Hsteps as [fuel Hf]; by exists fuel |].
    destruct (computed_refuse task STATUS_BAD_REQUEST s6) as [fuel Hf]. exists fuel. intros k Hk.
    rewrite Hsteps. by apply Hf.
Qed.

End progress.
