(* ===== verification/UploadConcurrent.v ===== *)
(** * Concurrent uploads over one file store

    Several workers run the steps of [UploadSteps] on the shared file system and
    database, and removals delete stored files.  Uploads of different contents
    never disturb each other; two uploads of one content share their temporary
    file, and then the store can be corrupted. *)

From Stdlib Require Import Strings.Byte.
From S2P Require Import Prelude CString Protocol Utils Heap Session Database DatabasePool Dao Files HandlerTransfer.
From S2P Require Import HandlerTransferSpec UploadSteps UploadStepsSpec.

(** ** The system *)

Record worker := { wk_upload : upload; wk_phase : upload_phase; wk_sock : socket }.

Record uploads `{MySQL} := {
  ups_workers : list worker;
  ups_removals : list (list byte);   (** files that [handle_rm] has still to unlink *)
  ups_fs : fs;
  ups_db : db
}.
Arguments uploads {_}.

Section system.
Context `{Host} `{MySQL} `{Sha256} (malloc_ok : Z -> bool).

Definition worker_state (U : uploads) (k : socket) : xfer_state :=
  {| xf_sock := k; xf_fs := ups_fs U; xf_db := ups_db U |}.

(** Worker [i] makes its next step. *)
Definition worker_step (U : uploads) (i : nat) : outcome uploads :=
  w ← deref (ups_workers U !! i);
  '(ph, s) ← upload_step malloc_ok (wk_upload w) (wk_phase w) (worker_state U (wk_sock w));
  Ret {| ups_workers := <[i := {| wk_upload := wk_upload w; wk_phase := ph; wk_sock := xf_sock s |}]> (ups_workers U);
         ups_removals := ups_removals U; ups_fs := xf_fs s; ups_db := xf_db s |}.

(** A worker takes the request [task] from the connection [k]. *)
Definition accept_upload (U : uploads) (task : transfer_task) (k : socket) : outcome uploads :=
  '(admitted, s) ← admit_upload task (worker_state U k);
  Ret {| ups_workers := match admitted with
                        | None => ups_workers U
                        | Some u => ups_workers U ++ [{| wk_upload := u; wk_phase := UOpen; wk_sock := xf_sock s |}]
                        end;
         ups_removals := ups_removals U; ups_fs := xf_fs s; ups_db := xf_db s |}.

(** The database part of [handle_rm] on a file: the hash of the stored file when
    this was its last path *)
Definition begin_removal (U : uploads) (user_id : Z) (target_path : list byte) : outcome (option (list byte) * db) :=
  '(node, d) ← dao_path_get_node_id user_id target_path (ups_db U);
  match node with
  | (DAO_PATH_IS_FILE, Some path_id) =>
      '(r, d) ← dao_rm_file user_id path_id NAME_MAX d;
      Ret (match r with (DAO_SHOULD_DELETE_PHYSICAL, hash) => Some hash | _ => None end, d)
  | _ => Ret (None, d)
  end.

Context (root temp : list byte).

Definition configured (task : transfer_task) : Prop :=
  x_storage_root task = root /\ x_transfer_temp_dir task = temp.

Inductive uploads_step (U : uploads) : uploads -> Prop :=
| step_works i w U' :
    ups_workers U !! i = Some w -> wk_phase w <> UDone -> worker_step U i = Ret U' -> uploads_step U U'
| step_accepts task k U' : configured task -> accept_upload U task k = Ret U' -> uploads_step U U'
| step_begins_removal user_id target_path hash d :
    begin_removal U user_id target_path = Ret (Some hash, d) -> utils_is_valid_sha256_hex hash = true ->
    uploads_step U {| ups_workers := ups_workers U; ups_removals := ups_removals U ++ [root ++ [SLASH] ++ hash];
                      ups_fs := ups_fs U; ups_db := d |}
| step_other_removal user_id target_path d :
    begin_removal U user_id target_path = Ret (None, d) ->
    uploads_step U {| ups_workers := ups_workers U; ups_removals := ups_removals U; ups_fs := ups_fs U; ups_db := d |}
| step_unlinks i path :
    ups_removals U !! i = Some path ->
    uploads_step U {| ups_workers := ups_workers U; ups_removals := delete i (ups_removals U);
                      ups_fs := fs_unlink path (ups_fs U); ups_db := ups_db U |}.

(** No two unfinished uploads are of the same content. *)
Definition different_contents (U : uploads) : Prop :=
  forall i j v w, ups_workers U !! i = Some v -> ups_workers U !! j = Some w ->
    wk_phase v <> UDone -> wk_phase w <> UDone -> u_sha256_hex (wk_upload v) = u_sha256_hex (wk_upload w) -> i = j.

Definition uploads_initial (f : fs) (d : db) : uploads := {| ups_workers := []; ups_removals := []; ups_fs := f; ups_db := d |}.

(** Reachable with different contents all the time *)
Inductive separate_run (f : fs) (d : db) : uploads -> Prop :=
| separate_start : separate_run f d (uploads_initial f d)
| separate_step U U' : separate_run f d U -> uploads_step U U' -> different_contents U' -> separate_run f d U'.

End system.

(** Descriptors that the workers have open *)
Definition has_file (w : worker) : nat := if phase_file (wk_phase w) then 1 else 0.
Definition open_files (ws : list worker) : nat := sum_list_with has_file ws.

Lemma open_files_insert ws i v w : ws !! i = Some v -> (open_files (<[i := w]> ws) + has_file v = open_files ws + has_file w)%nat.
Proof.
  revert i. induction ws as [| x ws IH]; intros [| i] Hi; simplify_eq/=; [lia |].
  specialize (IH i Hi). unfold open_files in *. lia.
Qed.

(** ** What a worker relies on and guarantees *)

(** Between [f] and [f'] only the paths [p] and [q], and contents that no other
    path names, have changed. *)
Record only_changes (p q : list byte) (f f' : fs) : Prop := {
  oc_dir r : r <> p -> r <> q -> dir f' !! r = dir f !! r;
  oc_content r i : r <> p -> r <> q -> dir f !! r = Some i -> content f' i = content f i
}.

Lemma only_changes_refl p q f : only_changes p q f f.
Proof. by split. Qed.

Lemma only_changes_trans p q f1 f2 f3 : only_changes p q f1 f2 -> only_changes p q f2 f3 -> only_changes p q f1 f3.
Proof.
  intros [Hd1 Hc1] [Hd2 Hc2]. split; intros r.
  - intros Hp Hq. by rewrite Hd2, Hd1.
  - intros i Hp Hq Hi. rewrite (Hc2 r), (Hc1 r) by (try done; by rewrite Hd1). done.
Qed.

#[global] Instance only_changes_preorder p q : PreOrder (only_changes p q).
Proof. split; [intros f; apply only_changes_refl | intros f1 f2 f3; apply only_changes_trans]. Qed.

Section worker.
Context `{Host} `{MySQL} `{Sha256} (malloc_ok : Z -> bool).
Context (root temp : list byte).

Record upload_wf (u : upload) : Prop := {
  uw_hash : utils_is_valid_sha256_hex (u_sha256_hex u) = true;
  uw_part : u_part_path u = temp ++ [SLASH] ++ u_sha256_hex u ++ lit ".part";
  uw_final : u_final_path u = root ++ [SLASH] ++ u_sha256_hex u;
}.

(** What is true of the files in each phase *)
Definition phase_inv (u : upload) (ph : upload_phase) (f : fs) : Prop :=
  (forall o, phase_file ph = Some o -> dir f !! u_part_path u = Some (ino o)) /\
  match ph with
  | UHash o => pos o = 0%nat
  | UDigest o acc => acc = take (pos o) (content f (ino o))
  | UPromote => exists i, dir f !! u_part_path u = Some i /\ hex (sha256 (content f i)) = u_sha256_hex u
  | _ => True
  end.

Lemma phase_inv_frame u ph f f' :
  dir f' !! u_part_path u = dir f !! u_part_path u ->
  (forall i, dir f !! u_part_path u = Some i -> content f' i = content f i) ->
  phase_inv u ph f -> phase_inv u ph f'.
Proof.
  intros Hd Hc [Hown Hph]. split; [by rewrite Hd |]. destruct ph; try done.
  - by rewrite Hc by (by apply Hown).
  - destruct Hph as (i & Hi & Hh). exists i. by rewrite Hd, Hc.
Qed.

Context (u : upload) (Hwf : upload_wf u) (f0 : fs) (n b : Z).
#[local] Notation part := (u_part_path u).

(** The store is intact, nothing but the files of [u] has changed since [f0],
    and [k] of the descriptors are the worker's. *)
Record base (k : Z) (f : fs) : Prop := {
  b_store : store_ok root f;
  b_only : only_changes part (u_final_path u) f0 f;
  b_opened : opened f = n + k
}.

Definition owns (o : ofile) (f : fs) : Prop := base 1 f /\ dir f !! part = Some (ino o).

Lemma u_outside : outside root part.
Proof. rewrite (uw_part _ Hwf), !app_assoc. apply part_outside. Qed.

Lemma base_same k f f' : same_files f f' -> base k f -> base k f'.
Proof. intros [l ->] [Hs Ho Hn]. split; [by eapply store_same; [eexists |] | | done]. destruct Ho. by split. Qed.

Lemma owns_same o f f' : same_files f f' -> owns o f -> owns o f'.
Proof. intros Hs [Hb Hd]. split; [by eapply base_same |]. by destruct Hs as [l ->]. Qed.

Lemma base_close o f : owns o f -> base 0 (close f).
Proof. intros [[Hs Ho Hn] _]. split; [by apply store_close | by destruct Ho; split | simpl; lia]. Qed.

Lemma base_change o f f' :
  owns o f -> dir f' = dir f -> opened f' = opened f -> (forall j, j <> ino o -> data f' !! j = data f !! j) ->
  dom (data f') = dom (data f) -> owns o f'.
Proof.
  intros [[Hs Ho Hn] Hp] Hd Hop Hdata Hdom. split; [| by rewrite Hd]. split; [| | lia].
  - by eapply store_change; [exact Hs | exact u_outside | exact Hp | ..].
  - eapply only_changes_trans; [exact Ho |]. split; [by rewrite Hd |]. intros r i Hr _ Hi. unfold content.
    rewrite Hdata; [done |]. intros ->. apply Hr. by eapply (st_inj _ _ Hs).
Qed.

Lemma base_create f r f' : base 0 f -> open_create part f = (r, f') ->
  match r with None => base 0 f' | Some o => owns o f' end.
Proof.
  intros [Hs Ho Hn] Hc. pose proof (store_create _ _ _ _ _ Hs u_outside Hc) as Hst.
  assert (Hf : only_changes part (u_final_path u) f f').
  { unfold open_create in Hc. destruct (next_answer f) as [a f1] eqn:E.
    destruct (next_answer_same _ _ _ E) as [l ->]. destruct (answer_ok a); [| injection Hc as _ <-; by split].
    cbn [dir set_io] in Hc. destruct (dir f !! part) as [i |] eqn:Ed; injection Hc as _ <-; [by split |].
    split; intros r0; simpl; [intros Hr _; by rewrite lookup_insert_ne by done |].
    intros i Hr _ Hi. unfold content. simpl. rewrite lookup_insert_ne; [done |].
    intros <-. apply (st_live _ _ Hs), elem_of_dom in Hi. exact (is_fresh (dom (data f)) Hi). }
  destruct r as [o |].
  - destruct Hst as (Hst & Hop & Hd). split; [split; [done | by etransitivity | lia] | done].
  - destruct Hst as (Hst & Hop). split; [done | by etransitivity | lia].
Qed.

Lemma base_unlink f : base 0 f -> base 0 (fs_unlink part f).
Proof.
  intros [Hs Ho Hn]. destruct (store_unlink root part f Hs) as [Hs' Hop]. split; [done | | lia].
  etransitivity; [exact Ho |]. unfold fs_unlink. destruct (call f) as [ok f1] eqn:E.
  destruct (call_same _ _ _ E) as [l ->]. destruct ok; [| by split]. split; intros r; simpl; [| done].
  intros Hr _. by rewrite lookup_delete_ne by done.
Qed.

Lemma base_rename f i r f' :
  base 0 f -> dir f !! part = Some i -> hex (sha256 (content f i)) = u_sha256_hex u ->
  rename part (u_final_path u) f = (r, f') -> base 0 f'.
Proof.
  intros [Hs Ho Hn] Hi Hh Hr. assert (Hf : only_changes part (u_final_path u) f f').
  { unfold rename in Hr. destruct (next_answer f) as [a f1] eqn:E. destruct (next_answer_same _ _ _ E) as [l ->].
    destruct (answer_ok a); [| injection Hr as _ <-; by split]. cbn [dir set_io] in Hr. rewrite Hi in Hr.
    injection Hr as _ <-. split; intros r0; simpl; [| done].
    intros Hp Hq. by rewrite lookup_insert_ne, lookup_delete_ne by done. }
  rewrite (uw_final _ Hwf) in Hr.
  apply (store_rename _ _ _ _ _ _ _ Hs Hi) in Hr as [Hs' Hop]; [| by apply u_outside, Hwf | done].
  split; [done | by etransitivity | lia].
Qed.

(** The files in phase [ph] *)
Definition goes (ph : upload_phase) (f : fs) : Prop :=
  base (if phase_file ph then 1 else 0) f /\ phase_inv u ph f.

Notation leads m P := (triple (at_files P b) m (fun ph => at_files (goes ph) b)).

Lemma goes_owns ph o f : phase_file ph = Some o -> goes ph f -> owns o f.
Proof. intros Ho [Hb [Hown _]]. rewrite Ho in Hb. split; [done | by apply Hown]. Qed.

Lemma goes_file ph o f :
  phase_file ph = Some o ->
  match ph with UHash o => pos o = 0%nat | UDigest o acc => acc = take (pos o) (content f (ino o)) | _ => True end ->
  owns o f -> goes ph f.
Proof.
  intros Ho Hph [Hb Hd]. split; [by rewrite Ho |]. split; [by rewrite Ho; intros o' [= <-] |]. by destruct ph.
Qed.

Lemma goes_base ph f :
  match ph with UOpen | UReject | UProbe | UDiscard | URecord | UDone => True | _ => False end -> base 0 f -> goes ph f.
Proof. intros Hph Hb. destruct ph; try done; split; done. Qed.

Lemma leads_file ph o P :
  phase_file ph = Some o -> match ph with UHash _ | UDigest _ _ => False | _ => True end ->
  (forall f, P f -> owns o f) -> leads (mret ph) P.
Proof.
  intros Ho Hph HP. apply give. intros s [Hf Hb]. split; [| done]. eapply goes_file; [done | by destruct ph | by apply HP].
Qed.

Lemma leads_base ph P :
  match ph with UOpen | UReject | UProbe | UDiscard | URecord | UDone => True | _ => False end ->
  (forall f, P f -> base 0 f) -> leads (mret ph) P.
Proof. intros Hph HP. apply give. intros s [Hf Hb]. split; [| done]. apply goes_base; [done | by apply HP]. Qed.

Lemma leads_abort st : leads (abort u st) (base 0).
Proof. unfold abort. tbind triple_refuse. by apply leads_base. Qed.

Lemma close_owns o : triple (at_files (owns o) b) x_close (fun _ => at_files (base 0) b).
Proof. apply triple_close. intros f. apply base_close. Qed.

Lemma leads_close o : leads (x_close;; mret UDone) (owns o).
Proof. tbind close_owns. by apply leads_base. Qed.

Lemma leads_close_abort o st : leads (close_abort u st) (owns o).
Proof. unfold close_abort. tbind close_owns. apply leads_abort. Qed.

Lemma leads_release_abort o st p :
  triple (at_files (owns o) (b + held p)) (x_release p;; close_abort u st) (fun ph => at_files (goes ph) b).
Proof. tbind triple_release. apply leads_close_abort. Qed.

(** A call that only consumes an answer *)
Lemma triple_call o : triple (at_files (owns o) b) (on_fs call) (fun _ => at_files (owns o) b).
Proof.
  apply (triple_fs _ (owns o) (fun _ => owns o)). intros f r f' Hf Hc. eapply owns_same; [by eapply call_same | done].
Qed.

Lemma triple_lseek o off :
  triple (at_files (owns o) b) (on_fs (lseek o off))
    (fun r => at_files (fun f => owns o f /\ forall o', r = Some o' -> o' = {| ino := ino o; pos := Z.to_nat off |}) b).
Proof.
  apply triple_fs. intros f r f' Hf. unfold lseek. destruct (call f) as [ok f1] eqn:E.
  assert (owns o f1) by (eapply owns_same; [by eapply call_same | done]).
  destruct (ok && _); intros [= <- <-]; by split; [| intros ? [= <-]].
Qed.

Lemma owns_ino o o' f : ino o' = ino o -> owns o f -> owns o' f.
Proof. intros Ho [Hb Hd]. split; [done | by rewrite Ho]. Qed.

Lemma step_open : leads (upload_step malloc_ok u UOpen) (goes UOpen).
Proof.
  cbn [upload_step]. tbind (triple_fs (open_create part) _ (fun r => match r with None => base 0 | Some o => owns o end)).
  { intros f r f' [Hb _] Hc. pose proof (base_create _ _ _ Hb Hc). by destruct r. }
  destruct a as [o |]; [by eapply leads_file | apply leads_abort].
Qed.

Lemma step_stat o : leads (upload_step malloc_ok u (UStat o)) (owns o).
Proof.
  cbn [upload_step]. tbind (triple_fs (fstat_size o) _ (fun _ => owns o)).
  { intros f r f' Hf. unfold fstat_size. destruct (call f) as [ok f1] eqn:E. intros [= _ <-].
    eapply owns_same; [by eapply call_same | done]. }
  destruct a as [offset |]; [| apply leads_close_abort]. destruct (_ <? _); by eapply leads_file.
Qed.

Lemma step_truncate o : leads (upload_step malloc_ok u (UTruncate o)) (owns o).
Proof.
  cbn [upload_step]. tbind (triple_fs (ftruncate0 o) _ (fun _ => owns o)); [| destruct a].
  - intros f r f' Hf. unfold ftruncate0. destruct (call f) as [ok f1] eqn:E.
    assert (Hf1 : owns o f1) by (eapply owns_same; [by eapply call_same | done]).
    destruct ok; intros [= _ <-]; [| done]. eapply base_change; [exact Hf1 | done | done | |].
    + intros j Hj. simpl. by rewrite lookup_insert_ne.
    + apply (dom_insert_lookup_L (data f1)). destruct Hf1 as [[Hs _ _] Hd]. by eapply st_live.
  - by eapply leads_file.
  - apply leads_close_abort.
Qed.

Lemma step_announce o offset : leads (upload_step malloc_ok u (UAnnounce o offset)) (owns o).
Proof.
  cbn [upload_step]. tbind triple_resume. destruct (negb _); [apply leads_close |].
  destruct (offset <? u_file_size u); by eapply leads_file.
Qed.

Lemma step_seek o offset : leads (upload_step malloc_ok u (USeek o offset)) (owns o).
Proof.
  cbn [upload_step]. tbind triple_lseek. destruct a as [o' |].
  - eapply leads_file; [done | done |]. intros f [Hf Ho]. eapply owns_ino; [| exact Hf]. by rewrite (Ho o').
  - eapply triple_pre; [apply (leads_close_abort o) |]. by intros s [[? _] ?].
Qed.

Lemma write_owns o l f r o' f' : owns o f -> write_n o l f = (r, o', f') -> owns o' f'.
Proof.
  intros Hf Hw. apply write_n_spec in Hw as (w & _ & _ & [-> Hdir Hopn _ Hdom Hoth] & _).
  apply (owns_ino o); [done |]. eapply base_change; [exact Hf | done | done | done |].
  apply Hdom. destruct Hf as [[Hs _ _] Hd]. by eapply st_live.
Qed.

Lemma step_receive o received expected : leads (upload_step malloc_ok u (UReceive o received expected)) (owns o).
Proof.
  cbn [upload_step]. unfold receive_step. tbind triple_recv. destruct a as [p |]; [| apply leads_close].
  apply triple_pure. intros Hp. case_bool_decide; [apply leads_release_abort |].
  destruct (_ || _); [apply leads_release_abort |]. tbind triple_lift. apply triple_pure. intros _.
  tbind (triple_fs (write_n o (take (Z.to_nat (payload_len (header p))) a)) _ (fun wo => owns wo.2)).
  { intros f [w o'] f' Hf Hw. by eapply write_owns. }
  destruct a0 as [w o']. simpl. destruct (negb _); [apply leads_release_abort |]. tbind triple_release.
  destruct (_ <? expected); by eapply leads_file.
Qed.

Lemma step_end o : leads (upload_step malloc_ok u (UEnd o)) (owns o).
Proof.
  cbn [upload_step]. tbind triple_recv. destruct a as [p |]; [| apply leads_close].
  apply triple_pure. intros _. case_bool_decide; [apply leads_release_abort |]. tbind triple_release. by eapply leads_file.
Qed.

Lemma step_flush o : leads (upload_step malloc_ok u (UFlush o)) (owns o).
Proof. cbn [upload_step]. tbind triple_call. destruct (negb a); [apply leads_close_abort | by eapply leads_file]. Qed.

Lemma step_rewind o : leads (upload_step malloc_ok u (URewind o)) (owns o).
Proof.
  cbn [upload_step]. tbind triple_lseek. destruct a as [o' |].
  - apply give. intros s [[Hf Ho] Hb]. split; [| done]. specialize (Ho o' eq_refl) as ->.
    eapply goes_file; [done | done | by eapply owns_ino].
  - eapply triple_pre; [apply (leads_close_abort o) |]. by intros s [[? _] ?].
Qed.

Lemma step_hash o : pos o = 0%nat -> leads (upload_step malloc_ok u (UHash o)) (owns o).
Proof.
  intros Hpos. cbn [upload_step]. tbind triple_call. destruct (negb a); [apply leads_close_abort |].
  tbind triple_call. destruct (negb a0); [apply leads_close_abort |].
  apply give. intros s [Hf Hb]. split; [| done]. eapply goes_file; [done | by rewrite Hpos | done].
Qed.

(** The bytes hashed so far are the beginning of the file; at its end they are
    the file. *)
Lemma step_digest o acc :
  leads (upload_step malloc_ok u (UDigest o acc)) (fun f => owns o f /\ acc = take (pos o) (content f (ino o))).
Proof.
  cbn [upload_step]. unfold digest_step.
  tbind (triple_fs (fun f => let '(r, o, f) := read o 4096 f in ((r, o), f)) _ (fun ro f => owns (snd ro) f /\
    forall l, fst ro = ReadBytes l -> acc ++ l = take (pos (snd ro)) (content f (ino (snd ro))) /\
      (l = [] -> acc = content f (ino (snd ro))))).
  { intros f ro f' [Hf Hacc]. destruct (read o 4096 f) as [[r o1] f1] eqn:Er. intros [= <- <-]. cbn [fst snd].
    pose proof (read_cases _ _ _ _ _ _ Er ltac:(lia)) as (Hs & Ho & Hr).
    split; [eapply owns_ino, owns_same; [exact Ho | exact Hs | exact Hf] |]. intros l ->.
    destruct Hr as (Hl & Hp & _ & Hend). rewrite Ho, (content_same _ _ _ Hs). split.
    - by rewrite Hp, <- take_take_drop, <- Hl, Hacc.
    - intros ->. rewrite Hacc, take_ge; [done |]. specialize (Hend eq_refl). apply (f_equal length) in Hend.
      rewrite length_drop in Hend. simpl in Hend. lia. }
  destruct a as [r o1]. cbn [fst snd].
  destruct r as [l | |]; [| eapply triple_pre; [apply (leads_close_abort o1) | by intros s [[? _] ?]] ..].
  eapply (triple_pre (at_files (fun f => owns o1 f /\ acc ++ l = take (pos o1) (content f (ino o1)) /\
    (l = [] -> acc = content f (ino o1))) b)); [| by intros s [[? Hl] ?]; split; [split; [| apply Hl] |]].
  assert (Hcall : triple (at_files (fun f => owns o1 f /\ acc ++ l = take (pos o1) (content f (ino o1)) /\
      (l = [] -> acc = content f (ino o1))) b) (on_fs call)
    (fun _ => at_files (fun f => owns o1 f /\ acc ++ l = take (pos o1) (content f (ino o1)) /\
      (l = [] -> acc = content f (ino o1))) b)).
  { apply (triple_fs _ _ (fun _ f => owns o1 f /\ acc ++ l = take (pos o1) (content f (ino o1)) /\
      (l = [] -> acc = content f (ino o1)))). intros f r f' (Hf & Hl & Hc) Hr. apply call_same in Hr.
    rewrite (content_same f f') by done. split_and!; [by eapply owns_same | done | done]. }
  destruct l as [| x l]; (tbind Hcall).
  - destruct a; cbn [negb].
    + tbind (triple_close _ (fun f => base 0 f /\ phase_inv u UPromote f \/ hex (sha256 acc) <> u_sha256_hex u /\ base 0 f)).
      { intros f (Hf & _ & Hc). destruct (decide (hex (sha256 acc) = u_sha256_hex u)) as [Hh | Hh];
          [left | right]; (split; [| try by eapply base_close]); [by eapply base_close | | done].
        split; [done |]. exists (ino o1). split; [apply Hf |]. change (content (close f)) with (content f). by rewrite <- Hc. }
      apply give. intros s [Hs Hb]. split; [| done]. case_bool_decide as Hh.
      * apply goes_base; [done |]. by destruct Hs as [[? _] | [_ ?]].
      * destruct Hs as [Hs | [Hn _]]; [exact Hs | by destruct Hh].
    + eapply triple_pre; [apply (leads_close_abort o1) | by intros s [[? _] ?]].
  - destruct a; [| eapply triple_pre; [apply (leads_close_abort o1) | by intros s [[? _] ?]]].
    apply give. intros s [(Hf & Hl & _) Hb]. split; [| done]. by eapply goes_file.
Qed.

Lemma unlink_base : triple (at_files (base 0) b) (on_fs (fun f => (tt, fs_unlink part f))) (fun _ => at_files (base 0) b).
Proof. apply (triple_fs _ _ (fun _ => base 0)). intros f r f' Hb [= _ <-]. by apply base_unlink. Qed.

Lemma step_promote : leads (upload_step malloc_ok u UPromote) (goes UPromote).
Proof.
  cbn [upload_step]. tbind (triple_fs (rename part (u_final_path u)) _ (fun _ => base 0)).
  { intros f r f' [Hb [_ (i & Hi & Hh)]] Hr. by eapply base_rename. }
  destruct a as [[] |]; by apply leads_base.
Qed.

Lemma step_closed ph :
  match ph with UReject | UProbe | UDiscard | URecord | UDone => True | _ => False end ->
  leads (upload_step malloc_ok u ph) (base 0).
Proof.
  destruct ph; intros Hph; try done; cbn [upload_step].
  - tbind unlink_base. apply leads_abort.
  - tbind (triple_fs (access (u_final_path u)) _ (fun _ => base 0)).
    { intros f r f' Hb. unfold access. destruct (call f) as [ok f1] eqn:E. intros [= _ <-].
      eapply base_same; [by eapply call_same | done]. }
    destruct a; [by apply leads_base | apply leads_abort].
  - tbind unlink_base. by apply leads_base.
  - tbind triple_db. destruct (negb _); [apply leads_abort |]. tbind triple_send. by apply leads_base.
  - by apply leads_base.
Qed.

(** Every step keeps the store and the worker's own file, and disturbs nobody. *)
Lemma upload_step_goes ph : leads (upload_step malloc_ok u ph) (goes ph).
Proof.
  assert (Hclosed : phase_file ph = None -> leads (upload_step malloc_ok u ph) (base 0) ->
    leads (upload_step malloc_ok u ph) (goes ph)).
  { intros Ho Hl. eapply triple_pre; [exact Hl |]. intros s [[Hb _] Hbuf]. by rewrite Ho in Hb. }
  destruct (phase_file ph) as [o |] eqn:Ho.
  - eapply (triple_pre (at_files (fun f => owns o f /\ phase_inv u ph f) b)).
    2: { intros s [Hg Hb]. split; [| done]. split; [by eapply goes_owns | apply Hg]. }
    assert (Hdrop : leads (upload_step malloc_ok u ph) (owns o) ->
      leads (upload_step malloc_ok u ph) (fun f => owns o f /\ phase_inv u ph f)).
    { intros Hl. eapply triple_pre; [exact Hl | by intros s [[? _] ?]]. }
    destruct ph; simplify_eq/=.
    + apply Hdrop, step_stat.
    + apply Hdrop, step_truncate.
    + apply Hdrop, step_announce.
    + apply Hdrop, step_seek.
    + apply Hdrop, step_receive.
    + apply Hdrop, step_end.
    + apply Hdrop, step_flush.
    + apply Hdrop, step_rewind.
    + intros s r s' [[Hf [_ Hp]] Hb]. by apply (step_hash o Hp).
    + eapply triple_pre; [apply step_digest |]. intros s [[Hf [_ Hp]] Hb]. done.
  - destruct ph; try discriminate Ho; [apply step_open | .. ]; try (apply Hclosed; [done | by apply step_closed]).
    apply step_promote.
Qed.

End worker.

(** ** Uploads of different contents *)

Section separate.
Context `{Host} `{MySQL} `{Sha256} (malloc_ok : Z -> bool).
Context (root temp : list byte).

Record uploads_ok (n : Z) (U : uploads) : Prop := {
  uo_store : store_ok root (ups_fs U);
  uo_opened : opened (ups_fs U) = n + Z.of_nat (open_files (ups_workers U));
  uo_workers i w : ups_workers U !! i = Some w ->
    upload_wf root temp (wk_upload w) /\ phase_inv (wk_upload w) (wk_phase w) (ups_fs U);
  uo_removals path : path ∈ ups_removals U ->
    exists h, utils_is_valid_sha256_hex h = true /\ path = root ++ [SLASH] ++ h
}.

Lemma upload_paths_wf task target parent_id name sha size u :
  configured root temp task -> utils_is_valid_sha256_hex sha = true ->
  upload_paths task target parent_id name sha size = Some u -> upload_wf root temp u.
Proof.
  intros [Hroot Htemp] Hv. unfold upload_paths.
  destruct (snprintf PATH_MAX (x_transfer_temp_dir task ++ _)) as [n1 part] eqn:E1.
  destruct (snprintf PATH_MAX (x_storage_root task ++ _)) as [n2 final] eqn:E2.
  destruct (_ || _) eqn:E; [done |]. intros [= <-]. zbool.
  assert (n1 = Z.of_nat (length (x_transfer_temp_dir task ++ [SLASH] ++ sha ++ lit ".part"))) by (unfold snprintf in E1; congruence).
  assert (n2 = Z.of_nat (length (x_storage_root task ++ [SLASH] ++ sha))) by (unfold snprintf in E2; congruence).
  rewrite snprintf_fits in E1, E2 by lia. injection E1 as _ <-. injection E2 as _ <-.
  split; simpl; [done | by rewrite Htemp | by rewrite Hroot].
Qed.

(** Admission does not touch the files. *)
Lemma admit_triple task f b :
  configured root temp task ->
  triple (at_files (eq f) b) (admit_upload task)
    (fun r s => at_files (eq f) b s /\ forall u, r = Some u -> upload_wf root temp u).
Proof.
  intros Hc. set (Q := fun (r : option upload) s => at_files (eq f) b s /\ forall u, r = Some u -> upload_wf root temp u).
  assert (Hnone : triple (at_files (eq f) b) (mret None) Q) by (apply give; by split).
  assert (Hrefuse : forall st, triple (at_files (eq f) b) (refuse task st;; mret None) Q).
  { intros st. tbind triple_refuse. exact Hnone. }
  unfold admit_upload. destruct (parse_upload_request _) as [st | [[path size] sha]] eqn:E; [apply Hrefuse |].
  apply parse_valid in E. tbind triple_lift. apply triple_pure. intros _. destruct a as [target |]; [| apply Hrefuse].
  tbind triple_lift. apply triple_pure. intros _. destruct a as [[parent name] |]; [| apply Hrefuse].
  tbind triple_db. destruct a as [[] parent_id]; try apply Hrefuse.
  tbind triple_lift. apply triple_pure. intros _. tbind triple_db. destruct a0 as [[] ?]; try apply Hrefuse.
  tbind triple_db. destruct a0 as [ret fid]. destruct (ret <? 0); [apply Hrefuse |]. destruct (ret =? 1).
  - tbind triple_lift. apply triple_pure. intros _. tbind instant_upload_integrity. exact Hnone.
  - destruct (upload_paths _ _ _ _ _ _) as [u |] eqn:Eu; [| apply Hrefuse].
    apply give. intros s Hs. split; [done |]. intros ? [= <-]. by eapply upload_paths_wf.
Qed.

Lemma accept_upload_ok n U task k U' :
  configured root temp task -> accept_upload U task k = Ret U' -> uploads_ok n U -> uploads_ok n U'.
Proof.
  intros Hc Ha [Hs Hn Hw Hr]. apply bind_Ret_inv in Ha as ([r s] & Ha & [= <-]).
  destruct (admit_triple task (ups_fs U) (buffers k) Hc (worker_state U k) r s) as [[Hf _] Hu]; [done | done |].
  split; cbn [ups_fs ups_workers ups_removals]; rewrite <- ?Hf; [done | | | done].
  - rewrite Hn. destruct r as [u |]; [| done]. unfold open_files. rewrite sum_list_with_app. simpl. lia.
  - intros i w Hi. destruct r as [u |]; [| by apply Hw in Hi].
    apply lookup_app_Some in Hi as [Hi | [_ Hi]]; [by apply Hw in Hi |].
    apply list_lookup_singleton_Some in Hi as [_ <-]. split; [by apply Hu |]. by split; [intros o |].
Qed.

Lemma unlink_other path p f :
  path <> p -> dir (fs_unlink path f) !! p = dir f !! p /\ forall i, content (fs_unlink path f) i = content f i.
Proof.
  intros Hp. unfold fs_unlink. destruct (call f) as [ok f1] eqn:E. destruct (call_same _ _ _ E) as [l ->].
  destruct ok; [| done]. simpl. by rewrite lookup_delete_ne.
Qed.

Lemma removal_ok n U h d :
  utils_is_valid_sha256_hex h = true -> uploads_ok n U ->
  uploads_ok n {| ups_workers := ups_workers U; ups_removals := ups_removals U ++ [root ++ [SLASH] ++ h];
                  ups_fs := ups_fs U; ups_db := d |}.
Proof.
  intros Hv [Hs Hn Hw Hr]. split; cbn [ups_fs ups_workers ups_removals]; [done | done | done |].
  intros path [Hp | ->%list_elem_of_singleton]%elem_of_app; [by apply Hr | by exists h].
Qed.

Lemma unlink_ok n U i path :
  ups_removals U !! i = Some path -> uploads_ok n U ->
  uploads_ok n {| ups_workers := ups_workers U; ups_removals := delete i (ups_removals U);
                  ups_fs := fs_unlink path (ups_fs U); ups_db := ups_db U |}.
Proof.
  intros Hi [Hs Hn Hw Hr]. destruct (Hr path) as (h & Hv & ->); [by eapply list_elem_of_lookup_2 |].
  destruct (store_unlink root (root ++ [SLASH] ++ h) _ Hs) as [Hs' Hop].
  split; cbn [ups_fs ups_workers ups_removals]; [done | lia | |].
  - intros j w Hj. destruct (Hw j w Hj) as [Hwf Hinv]. split; [done |].
    destruct (unlink_other (root ++ [SLASH] ++ h) (u_part_path (wk_upload w)) (ups_fs U)) as [Hd Hc].
    { intros Heq. by eapply (u_outside _ _ _ Hwf). }
    by eapply phase_inv_frame.
  - intros p Hp. apply Hr. by eapply list_elem_of_delete_inv.
Qed.

(** The temporary files of different contents are different. *)
Lemma parts_differ u v : upload_wf root temp u -> upload_wf root temp v ->
  u_sha256_hex u <> u_sha256_hex v -> u_part_path u <> u_part_path v.
Proof.
  intros Hu Hv Hne Heq. apply Hne. rewrite (uw_part _ _ _ Hu), (uw_part _ _ _ Hv) in Heq.
  do 2 apply app_inv_head in Heq. by apply app_inv_tail in Heq.
Qed.

Lemma work_ok n U i w U' :
  ups_workers U !! i = Some w -> wk_phase w <> UDone -> worker_step malloc_ok U i = Ret U' -> different_contents U ->
  uploads_ok n U -> uploads_ok n U'.
Proof.
  intros Hi Hne Hstep Hdiff [Hs Hn Hw Hr]. destruct (Hw i w Hi) as [Hwf Hinv].
  unfold worker_step in Hstep. rewrite Hi in Hstep. cbn [deref mbind outcome_bind] in Hstep.
  apply bind_Ret_inv in Hstep as ([ph s] & Hstep & Heq). cbn beta iota in Heq. injection Heq as <-.
  set (m := opened (ups_fs U) - (if phase_file (wk_phase w) then 1 else 0)).
  destruct (upload_step_goes malloc_ok root temp (wk_upload w) Hwf (ups_fs U) m (buffers (wk_sock w)) (wk_phase w)
    (worker_state U (wk_sock w)) ph s) as [[[Hs' Ho' Hn'] Hinv'] _]; [| exact Hstep |].
  { split; [| done]. split; [| exact Hinv]. split; [exact Hs | reflexivity | unfold m; cbn [xf_fs worker_state]; lia]. }
  split; cbn [ups_fs ups_workers ups_removals]; [exact Hs' | | | exact Hr].
  - pose proof (open_files_insert _ _ _ {| wk_upload := wk_upload w; wk_phase := ph; wk_sock := xf_sock s |} Hi) as Hcount.
    unfold has_file in Hcount. cbn [wk_phase] in Hcount. unfold m in Hn'.
    destruct (phase_file (wk_phase w)), (phase_file ph); lia.
  - intros j v Hj. apply list_lookup_insert_Some in Hj as [(<- & <- & _) | [Hij Hj]]; [done |].
    destruct (Hw j v Hj) as [Hwfv Hinvv]. split; [done |].
    destruct (decide (wk_phase v = UDone)) as [-> | Hnv]; [done |].
    assert (Hsha : u_sha256_hex (wk_upload w) <> u_sha256_hex (wk_upload v)).
    { intros Heq. apply Hij. exact (Hdiff i j w v Hi Hj Hne Hnv Heq). }
    assert (u_part_path (wk_upload v) <> u_part_path (wk_upload w)) by (apply not_eq_sym; by apply parts_differ).
    assert (u_part_path (wk_upload v) <> u_final_path (wk_upload w)).
    { rewrite (uw_final _ _ _ Hwf). apply (u_outside _ _ _ Hwfv), Hwf. }
    eapply phase_inv_frame; [| | exact Hinvv]; [by apply Ho' | intros k Hk; by eapply (oc_content _ _ _ _ Ho')].
Qed.

Lemma separate_different f d U : separate_run malloc_ok root temp f d U -> different_contents U.
Proof. destruct 1 as [| U U' _ _ Hd]; [| exact Hd]. intros i j v w Hi. done. Qed.

Lemma separate_ok f d U :
  store_ok root f -> separate_run malloc_ok root temp f d U -> uploads_ok (opened f) U.
Proof.
  intros Hs Hrun. induction Hrun as [| U U' Hrun IH Hstep _].
  - split; simpl; [done | lia | done | by intros p ?%elem_of_nil].
  - pose proof (separate_different _ _ _ Hrun) as Hd. destruct Hstep as [i w U' Hi Hne Hstep | task k U' Hc Ha | uid path h d' _ Hv | uid path d' _ | i path Hi].
    + by eapply work_ok.
    + by eapply accept_upload_ok.
    + by apply removal_ok.
    + by destruct IH; split.
    + by apply unlink_ok.
Qed.

(** (C3) Uploads of different contents do not disturb each other: along every
    interleaving of the system calls of any number of uploads, with requests
    arriving and stored files being removed at any time, as long as no two
    unfinished uploads announce the same hash, every stored file has the content
    its name says, and the open descriptors are exactly the unfinished workers'. *)
Theorem separate_uploads_intact f d U :
  store_ok root f -> separate_run malloc_ok root temp f d U ->
  store_ok root (ups_fs U) /\ opened (ups_fs U) = opened f + Z.of_nat (open_files (ups_workers U)).
Proof. intros Hs Hrun. destruct (separate_ok _ _ _ Hs Hrun). done. Qed.

End separate.
