(* ===== verification/UploadRace.v ===== *)
(** * Two uploads of the same content corrupt the store

    The temporary file of an upload is named after the announced hash, so two
    uploads of one content write to one file.  Here two clients announce the same
    hash; the honest one sends the content, is told that the upload succeeded,
    and afterwards the other one overwrites the stored file through the descriptor
    that it still has. *)

From Stdlib Require Import Strings.Byte.
From S2P Require Import Prelude CString Protocol Utils Heap Session Database DatabasePool Dao Tables DatabaseDemo DaoSpec.
From S2P Require Import HandlerBasic HandlerBasicSpec Files HandlerTransfer HandlerTransferSpec HandlerTransferFlow UploadSteps UploadStepsSpec.
From S2P Require Import UploadConcurrent.

(** ** Schedules *)

Inductive upload_event :=
| Arrive (task : transfer_task) (k : socket)
| Work (i : nat)
| Remove (user_id : Z) (target_path : list byte)   (** the database part of a removal *)
| Unlink (i : nat).

Section schedules.
Context `{Host} `{MySQL} `{Sha256} (malloc_ok : Z -> bool) (root temp : list byte).

Definition perform_event (U : uploads) (e : upload_event) : outcome uploads :=
  match e with
  | Arrive task k =>
      if bool_decide (x_storage_root task = root) && bool_decide (x_transfer_temp_dir task = temp)
      then accept_upload U task k else Undef
  | Work i =>
      w ← deref (ups_workers U !! i);
      if bool_decide (wk_phase w = UDone) then Undef else worker_step malloc_ok U i
  | Remove user_id target_path =>
      '(hash, d) ← begin_removal U user_id target_path;
      match hash with
      | None => Ret {| ups_workers := ups_workers U; ups_removals := ups_removals U; ups_fs := ups_fs U; ups_db := d |}
      | Some hash =>
          if utils_is_valid_sha256_hex hash
          then Ret {| ups_workers := ups_workers U; ups_removals := ups_removals U ++ [root ++ [SLASH] ++ hash];
                      ups_fs := ups_fs U; ups_db := d |}
          else Undef
      end
  | Unlink i =>
      path ← deref (ups_removals U !! i);
      Ret {| ups_workers := ups_workers U; ups_removals := delete i (ups_removals U);
             ups_fs := fs_unlink path (ups_fs U); ups_db := ups_db U |}
  end.

Fixpoint run_schedule (U : uploads) (es : list upload_event) : outcome uploads :=
  match es with
  | [] => Ret U
  | e :: es => U ← perform_event U e; run_schedule U es
  end.

Lemma perform_event_step U e U' : perform_event U e = Ret U' -> uploads_step malloc_ok root temp U U'.
Proof.
  destruct e as [task k | i | uid path | i]; simpl.
  - destruct (_ && _) eqn:E; [| done]. apply andb_prop in E as [E1 E2].
    apply bool_decide_eq_true in E1, E2. by apply step_accepts.
  - destruct (ups_workers U !! i) as [w |] eqn:Ei; [| done]. cbn [deref mbind outcome_bind].
    case_bool_decide; [done |]. by apply (step_works _ _ _ _ i w).
  - intros Hr. apply bind_Ret_inv in Hr as ([[hash |] d] & Hb & Hr); cbn beta iota in Hr.
    + destruct (utils_is_valid_sha256_hex hash) eqn:Hv; [| done]. injection Hr as <-. by eapply step_begins_removal.
    + injection Hr as <-. by eapply step_other_removal.
  - destruct (ups_removals U !! i) as [path |] eqn:Ei; [| done]. intros [= <-]. by apply step_unlinks.
Qed.

Lemma run_schedule_steps es U U' : run_schedule U es = Ret U' -> rtc (uploads_step malloc_ok root temp) U U'.
Proof.
  revert U. induction es as [| e es IH]; simpl; intros U Hr; [injection Hr as <-; apply rtc_refl |].
  apply bind_Ret_inv in Hr as (U1 & H1' & Hr). eapply rtc_l; [by apply perform_event_step in H1' | by apply IH].
Qed.
End schedules.

(** ** The attack *)

(** Another path, the same announced content *)
Definition rival_upload : transfer_task := {|
  x_epoll_fd := 3; x_client_fd := 6; x_packet := @puts_request false demo_sha256 demo_sid (lit "/docs/other.txt") demo_content;
  x_session := demo_context; x_storage_root := lit "/srv"; x_transfer_temp_dir := lit "/tmp" |}.

Definition rival_content : list byte := lit "not the one".

Definition no_files : fs := {| dir := ∅; data := ∅; opened := 0; io := [] |}.

Definition race_start : @uploads demo_mysql := uploads_initial no_files (demo_state demo_tables2).

(** Both open the temporary file and learn that nothing is there yet; the honest
    worker 0 runs to its end; then worker 1 does. *)
Definition race_schedule : list upload_event :=
  [Arrive demo_upload (demo_socket (incoming demo_sid [demo_content]));
   Arrive rival_upload (demo_socket (incoming demo_sid [rival_content]));
   Work 0; Work 1; Work 0; Work 1] ++ replicate 11 (Work 0) ++ replicate 10 (Work 1).

(** The state at the end of a schedule *)
Definition demo_schedule (es : list upload_event) : outcome (@uploads demo_mysql) :=
  @run_schedule false demo_mysql demo_sha256 (fun _ => true) (lit "/srv") (lit "/tmp") race_start es.
Definition demo_end (es : list upload_event) : @uploads demo_mysql :=
  match demo_schedule es with Ret U => U | _ => race_start end.

Lemma demo_end_run es : (if demo_schedule es is Ret _ then true else false) = true -> demo_schedule es = Ret (demo_end es).
Proof. unfold demo_end. by destruct (demo_schedule es). Qed.

Definition race_end : @uploads demo_mysql := demo_end race_schedule.

Lemma race_run : demo_schedule race_schedule = Ret race_end.
Proof. apply demo_end_run. vm_compute. reflexivity. Qed.

Lemma no_files_ok `{Sha256} root : store_ok root no_files.
Proof. split; cbn [dir data no_files]; intros *; rewrite lookup_empty; done. Qed.

Lemma demo_hash_valid : utils_is_valid_sha256_hex demo_hash = true.
Proof. vm_compute. reflexivity. Qed.

(** (C4) Integrity of the store fails for concurrent uploads of one content: from
    an empty store there is an interleaving of two uploads at whose end both
    workers have returned, the first client has been told that its upload
    succeeded and the second that its request was bad, no descriptor is open, and
    the file stored under the announced hash has the content that the second
    client sent, which has another hash. *)
Theorem same_content_corrupts :
  exists U, rtc (@uploads_step false demo_mysql demo_sha256 (fun _ => true) (lit "/srv") (lit "/tmp")) race_start U /\
    @store_ok demo_sha256 (lit "/srv") (ups_fs race_start) /\
    map wk_phase (ups_workers U) = [UDone; UDone] /\ opened (ups_fs U) = 0 /\
    map (fun w => sent (wk_sock w)) (ups_workers U) =
      map (fun answer => wire_packet (@resume_packet false demo_sid 0) ++ wire_packet answer)
        [ack_packet demo_sid; response CMD_ERROR STATUS_BAD_REQUEST demo_sid None] /\
    saved (ups_fs U) (lit "/srv/" ++ demo_hash) = rival_content /\
    ~ @store_ok demo_sha256 (lit "/srv") (ups_fs U).
Proof.
  exists race_end. split; [apply (run_schedule_steps _ _ _ race_schedule); exact race_run |].
  split; [apply no_files_ok |]. split; [vm_compute; reflexivity |]. split; [vm_compute; reflexivity |].
  split; [vm_compute; reflexivity |]. split; [vm_compute; reflexivity |].
  intros Hs. assert (Hd : dir (ups_fs race_end) !! (lit "/srv" ++ [SLASH] ++ demo_hash) = Some 0%N) by (vm_compute; reflexivity).
  pose proof (st_hash _ _ Hs _ _ Hd demo_hash_valid) as Hh. vm_compute in Hh. discriminate Hh.
Qed.

(** ** A removal that unlinks a new upload *)

(** The second upload announces the content that is being removed. *)
Definition removal_schedule : list upload_event :=
  [Arrive demo_upload (demo_socket (incoming demo_sid [demo_content]))] ++ replicate 13 (Work 0) ++
  [Remove 1 (lit "/docs/new.txt"); Arrive rival_upload (demo_socket (incoming demo_sid [demo_content]))] ++
  replicate 13 (Work 1) ++ [Unlink 0].

Definition removal_end : @uploads demo_mysql := demo_end removal_schedule.

Definition blank_meta : file_meta :=
  {| fm_path_id := 0; fm_file_id := 0; fm_file_name := []; fm_size := 0; fm_sha256_hex := replicate 65 NUL |}.

Lemma removal_run : demo_schedule removal_schedule = Ret removal_end.
Proof. apply demo_end_run. vm_compute. reflexivity. Qed.

(** (C15) An acknowledged upload can be lost: [handle_rm] unlinks the stored file
    after its transaction, and an upload of the same content in between stores the
    file anew.  At the end of this interleaving, which never has two unfinished
    uploads, both uploads were acknowledged, the path of the second and its hash
    are in the database, and the stored file is gone. *)
Theorem removal_loses_upload :
  exists U, rtc (@uploads_step false demo_mysql demo_sha256 (fun _ => true) (lit "/srv") (lit "/tmp")) race_start U /\
    map wk_phase (ups_workers U) = [UDone; UDone] /\ ups_removals U = [] /\
    map (fun w => sent (wk_sock w)) (ups_workers U) =
      replicate 2 (wire_packet (@resume_packet false demo_sid 0) ++ wire_packet (ack_packet demo_sid)) /\
    option_map (fun r => (fst r, cstr (fm_sha256_hex (snd r))))
      (value (dao_get_file_meta 1 (lit "/docs/other.txt") blank_meta (ups_db U))) = Some (DAO_OK, demo_hash) /\
    dir (ups_fs U) !! (lit "/srv/" ++ demo_hash) = None.
Proof.
  exists removal_end. split; [apply (run_schedule_steps _ _ _ removal_schedule); exact removal_run |].
  split_and!; vm_compute; reflexivity.
Qed.

(** ** Two uploads of different contents *)

Section separation.
Context `{Host} `{MySQL} `{Sha256} (malloc_ok : Z -> bool) (root temp : list byte).

Definition unfinished_hash (w : worker) : option (list byte) :=
  if bool_decide (wk_phase w = UDone) then None else Some (u_sha256_hex (wk_upload w)).

Lemma omap_NoDup_inj {A B} (g : A -> option B) (l : list A) i j x y b :
  NoDup (omap g l) -> l !! i = Some x -> l !! j = Some y -> g x = Some b -> g y = Some b -> i = j.
Proof.
  revert i j. induction l as [| z l IH]; intros i j Hnd Hi Hj Hx Hy; [done |].
  assert (Hin : forall k w, l !! k = Some w -> g w = Some b -> b ∈ omap g l).
  { intros k w Hk Hw. apply list_elem_of_omap. exists w. split; [by eapply list_elem_of_lookup_2 | done]. }
  cbn [omap list_omap] in Hnd.
  destruct i as [| i], j as [| j]; simplify_eq/=; [done | rewrite ?Hx, ?Hy in Hnd.. |].
  - apply NoDup_cons in Hnd as [Hn _]. by destruct Hn; eapply Hin.
  - apply NoDup_cons in Hnd as [Hn _]. by destruct Hn; eapply Hin.
  - f_equal. eapply IH; try done. destruct (g z); [by apply NoDup_cons in Hnd as [_ ?] | done].
Qed.

Lemma different_check (U : uploads) : NoDup (omap unfinished_hash (ups_workers U)) -> different_contents U.
Proof.
  intros Hnd i j v w Hi Hj Hv Hw Heq. eapply omap_NoDup_inj; [exact Hnd | exact Hi | exact Hj | |].
  - unfold unfinished_hash. by rewrite bool_decide_eq_false_2.
  - unfold unfinished_hash. by rewrite bool_decide_eq_false_2, Heq.
Qed.

Fixpoint separate_schedule (U : uploads) (es : list upload_event) : bool :=
  match es with
  | [] => true
  | e :: es =>
      match perform_event malloc_ok root temp U e with
      | Ret U => bool_decide (NoDup (omap unfinished_hash (ups_workers U))) && separate_schedule U es
      | _ => false
      end
  end.

Lemma separate_schedule_run f d es U U' :
  separate_run malloc_ok root temp f d U -> separate_schedule U es = true ->
  run_schedule malloc_ok root temp U es = Ret U' -> separate_run malloc_ok root temp f d U'.
Proof.
  revert U. induction es as [| e es IH]; simpl; intros U Hrun Hsep Hr; [by injection Hr as <- |].
  destruct (perform_event malloc_ok root temp U e) as [U1 | |] eqn:E; [| done | done].
  apply andb_prop in Hsep as [Hd Hsep]. apply bool_decide_eq_true in Hd. cbn [mbind outcome_bind] in Hr.
  apply (IH U1); [| done | done]. eapply separate_step; [exact Hrun | by eapply perform_event_step | by apply different_check].
Qed.
End separation.

Definition second_upload : transfer_task := {|
  x_epoll_fd := 3; x_client_fd := 6; x_packet := @puts_request false demo_sha256 demo_sid (lit "/docs/other.txt") rival_content;
  x_session := demo_context; x_storage_root := lit "/srv"; x_transfer_temp_dir := lit "/tmp" |}.

(** The two workers take turns. *)
Definition fair_schedule : list upload_event :=
  [Arrive demo_upload (demo_socket (incoming demo_sid [demo_content]));
   Arrive second_upload (demo_socket (incoming demo_sid [rival_content]))] ++
  concat (replicate 13 [Work 0; Work 1]).

Definition fair_end : @uploads demo_mysql := demo_end fair_schedule.

Lemma separate_uploads_intact_witness :
  saved (ups_fs fair_end) (lit "/srv/" ++ demo_hash) = demo_content /\
  saved (ups_fs fair_end) (lit "/srv/" ++ hex (demo_digest rival_content)) = rival_content /\
  @store_ok demo_sha256 (lit "/srv") (ups_fs fair_end) /\
  opened (ups_fs fair_end) = opened no_files + Z.of_nat (open_files (ups_workers fair_end)).
Proof.
  split; [vm_compute; reflexivity |]. split; [vm_compute; reflexivity |].
  apply (@separate_uploads_intact false demo_mysql demo_sha256 (fun _ => true) (lit "/srv") (lit "/tmp") no_files
           (demo_state demo_tables2) fair_end).
  - apply no_files_ok.
  - eapply (separate_schedule_run _ _ _ _ _ fair_schedule race_start).
    + apply separate_start.
    + vm_compute. reflexivity.
    + apply (demo_end_run fair_schedule). vm_compute. reflexivity.
Defined.
