(* ===== verification/HandlerEvent.v ===== *)
(** * The event loop ([src/server/handler_event.c] and the loop of [src/server/main.c])

    The main thread accepts connections, reads one packet of a ready connection,
    checks its session, and hands the request to a worker; a connection that a
    worker owns is neither in the epoll set nor in the timer wheel. *)

From Stdlib Require Import Strings.Byte.
From S2P Require Import Prelude CString Protocol Utils Heap Session TimerWheel ThreadPool.
From S2P Require Import Database DatabasePool Dao HandlerBasic Files HandlerTransfer.

(** ** State *)

(** A task that the pool has accepted and that has not ended *)
Inductive work :=
| BasicWork (t : packet_task)
| TransferWork (t : transfer_task).

Definition work_fd (w : work) : Z :=
  match w with BasicWork t => t_client_fd t | TransferWork t => x_client_fd t end.
Definition work_packet (w : work) : packet :=
  match w with BasicWork t => t_packet t | TransferWork t => x_packet t end.
Definition work_session (w : work) : session_context :=
  match w with BasicWork t => t_session t | TransferWork t => x_session t end.

(** [ev_sockets] holds the open client connections. *)
Record event_state := {
  ev_control : control;
  ev_sockets : gmap Z socket;
  ev_tasks : list work
}.

Definition ev_sessions (s : event_state) : session_table := c_sessions (ev_control s).
Definition ev_wheel (s : event_state) : timer_wheel := c_wheel (ev_control s).
Definition ev_epoll (s : event_state) : list Z := c_epoll (ev_control s).

Definition put_sessions (t : session_table) (s : event_state) : event_state :=
  {| ev_control := {| c_sessions := t; c_wheel := c_wheel (ev_control s); c_epoll := c_epoll (ev_control s);
                      c_closed := c_closed (ev_control s) |};
     ev_sockets := ev_sockets s; ev_tasks := ev_tasks s |}.
Definition put_wheel (w : timer_wheel) (s : event_state) : event_state :=
  {| ev_control := {| c_sessions := c_sessions (ev_control s); c_wheel := w; c_epoll := c_epoll (ev_control s);
                      c_closed := c_closed (ev_control s) |};
     ev_sockets := ev_sockets s; ev_tasks := ev_tasks s |}.
Definition put_epoll (l : list Z) (s : event_state) : event_state :=
  {| ev_control := {| c_sessions := c_sessions (ev_control s); c_wheel := c_wheel (ev_control s); c_epoll := l;
                      c_closed := c_closed (ev_control s) |};
     ev_sockets := ev_sockets s; ev_tasks := ev_tasks s |}.
Definition put_socket (fd : Z) (k : socket) (s : event_state) : event_state :=
  {| ev_control := ev_control s; ev_sockets := <[fd := k]> (ev_sockets s); ev_tasks := ev_tasks s |}.
Definition put_tasks (l : list work) (s : event_state) : event_state :=
  {| ev_control := ev_control s; ev_sockets := ev_sockets s; ev_tasks := l |}.

(** [close(fd)] *)
Definition close_fd (fd : Z) (s : event_state) : event_state :=
  {| ev_control := {| c_sessions := c_sessions (ev_control s); c_wheel := c_wheel (ev_control s);
                      c_epoll := c_epoll (ev_control s); c_closed := c_closed (ev_control s) ++ [fd] |};
     ev_sockets := delete fd (ev_sockets s); ev_tasks := ev_tasks s |}.

(** [epoll_ctl(epoll_fd, EPOLL_CTL_DEL, fd, NULL)], whose result is ignored *)
Definition epoll_del (fd : Z) (s : event_state) : event_state :=
  put_epoll (filter (fun x => x <> fd) (ev_epoll s)) s.

Definition EPOLLIN : Z := 0x1.
Definition EPOLLERR : Z := 0x8.
Definition EPOLLHUP : Z := 0x10.
Definition EPOLLRDHUP : Z := 0x2000.

(** What [calloc] leaves in the session of a task *)
Definition zero_context : session_context :=
  {| ctx_user_id := 0; ctx_cwd_id := 0; ctx_username := []; ctx_cwd := [] |}.

Definition command_is_anonymous (ty : cmd_type) : bool :=
  bool_decide (ty = CMD_LOGIN_REQ) || bool_decide (ty = CMD_REGISTER_REQ).

(** ** Closing *)

(** [table] tells whether [session_table] is not NULL. *)
Definition close_client (table : bool) (fd : Z) (s : event_state) : outcome event_state :=
  w ← timer_wheel_remove (ev_wheel s) fd;
  let s := epoll_del fd (put_wheel w s) in
  t ← (if table then session_detach_fd (ev_sessions s) fd else Ret (ev_sessions s));
  Ret (close_fd fd (put_sessions t s)).

(** ** Accepting *)

(** The answers to [accept], [network_add_epoll_fd] and, in [timer_wheel_track],
    [calloc] and [clock_gettime] *)
Record accept_answers := {
  aa_accept : option (Z * socket);
  aa_epoll_ok : bool;
  aa_alloc : option addr;
  aa_clock : option timespec
}.

Definition handle_accept_event (a : accept_answers) (s : event_state) : outcome event_state :=
  match aa_accept a with
  | None => Ret s
  | Some (client_fd, k) =>
      let s := put_socket client_fd k s in
      if negb (aa_epoll_ok a) then close_client false client_fd s
      else
        let s := put_epoll (ev_epoll s ++ [client_fd]) s in
        '(r, w) ← timer_wheel_track (ev_wheel s) (aa_alloc a) client_fd (aa_clock a);
        let s := put_wheel w s in
        if negb (r =? 0) then close_client false client_fd s else Ret s
  end.

(** ** Requests *)

(** The allocations, the answers to [session_authorize], and what
    [thread_pool_add] does with the task: [AddWaits] is a pool that stays full. *)
Record client_answers := {
  ca_task_alloc : bool;
  ca_malloc : Z -> bool;
  ca_bind_alloc : option addr;
  ca_clock : option timespec;
  ca_transfer_alloc : bool;
  ca_add : add_exit
}.

Section events.
Context `{Host} (epoll_fd : Z) (storage_root transfer_temp_dir : list byte).

(** A call on a descriptor that is not open fails with [EBADF]. *)
Definition recv_packet_on (c : client_answers) (fd : Z) (s : event_state) : outcome (Z * packet * event_state) :=
  match ev_sockets s !! fd with
  | None => Ret (-1, zero_packet, s)
  | Some k => '(r, p, k) ← protocol_recv_packet (ca_malloc c) k; Ret (r, p, put_socket fd k s)
  end.

Definition release_on (fd : Z) (p : packet) (s : event_state) : event_state :=
  match ev_sockets s !! fd with
  | None => s
  | Some k => put_socket fd (snd (packet_release k p)) s
  end.

Definition send_event_error (fd : Z) (sid : session_id) (st : status_code) (s : event_state)
    : outcome (Z * event_state) :=
  match packet_init CMD_ERROR st (Some sid) None 0, ev_sockets s !! fd with
  | Some p, Some k => '(r, k) ← protocol_send_packet k p; Ret (r, put_socket fd k s)
  | _, _ => Ret (-1, s)
  end.

(** A request that is refused: the error answer, and the connection is closed
    only when that cannot be sent. *)
Definition refuse_event (fd : Z) (p : packet) (st : status_code) (s : event_state) : outcome event_state :=
  '(r, s) ← send_event_error fd (session_id_of (header p)) st s;
  let s := release_on fd p s in
  if negb (r =? 0) then close_client true fd s else Ret s.

(** [strncpy(dst, src, strlen(src)); dst[strlen(src)] = 0] into [PATH_MAX] bytes *)
Definition copy_path (path : list byte) : outcome (list byte) :=
  if PATH_MAX <=? Z.of_nat (length path) then Undef else Ret path.

(** [thread_pool_add], and what follows when the task is refused *)
Definition submit (c : client_answers) (fd : Z) (w : work) (s : event_state) : outcome event_state :=
  match ca_add c with
  | AddWaits => NoReturn
  | AddReturns r =>
      if negb (r =? 0) then close_client true fd (release_on fd (work_packet w) s)
      else Ret (put_tasks (ev_tasks s ++ [w]) s)
  end.

(** The rest of [handle_client_event] for an accepted request *)
Definition dispatch_request (c : client_answers) (fd : Z) (p : packet) (ctx : session_context)
    (s : event_state) : outcome event_state :=
  w ← timer_wheel_remove (ev_wheel s) fd;
  let s := put_wheel w s in
  if bool_decide (type (header p) = CMD_PUTS_REQ) || bool_decide (type (header p) = CMD_GETS_REQ) then
    if negb (ca_transfer_alloc c) then close_client true fd (release_on fd p s)
    else
      root ← copy_path storage_root;
      temp ← copy_path transfer_temp_dir;
      submit c fd (TransferWork {| x_epoll_fd := epoll_fd; x_client_fd := fd; x_packet := p; x_session := ctx;
                                   x_storage_root := root; x_transfer_temp_dir := temp |}) (epoll_del fd s)
  else
    submit c fd (BasicWork {| t_client_fd := fd; t_epoll_fd := epoll_fd; t_packet := p; t_session := ctx;
                              t_storage_root := strncpy0 PATH_MAX storage_root |}) (epoll_del fd s).

Definition handle_client_event (c : client_answers) (fd events : Z) (s : event_state) : outcome event_state :=
  if negb (Z.land events (Z.lor EPOLLRDHUP (Z.lor EPOLLHUP EPOLLERR)) =? 0) then close_client true fd s
  else if negb (Z.land events EPOLLIN =? 0) then
    if negb (ca_task_alloc c) then close_client true fd s
    else
      '(r, p, s) ← recv_packet_on c fd s;
      if negb (r =? 0) then close_client true fd s
      else if command_is_anonymous (type (header p)) then
        if negb (session_id_is_empty (session_id_of (header p)))
        then refuse_event fd p STATUS_BAD_REQUEST s
        else dispatch_request c fd p zero_context s
      else
        '(ctx, t) ← session_authorize (ev_sessions s) (ca_bind_alloc c) fd (session_id_of (header p)) (ca_clock c);
        let s := put_sessions t s in
        match ctx with
        | None => refuse_event fd p STATUS_UNAUTHORIZED s
        | Some ctx => dispatch_request c fd p ctx s
        end
  else Ret s.

(** ** The loop of [main] *)

(** [close_idle_client], called by [timer_wheel_advance] with the wheel's lock
    held *)
Definition close_idle_client (fd : Z) (s : outcome event_state) : outcome event_state :=
  s ← s;
  let s := epoll_del fd s in
  t ← session_detach_fd (ev_sessions s) fd;
  Ret (close_fd fd (put_sessions t s)).

(** One entry of the array filled by [epoll_wait] *)
Inductive ready :=
| ReadyPipe
| ReadyTimer (read_ok : bool)
| ReadyListen (a : accept_answers)
| ReadyClient (fd events : Z) (c : client_answers).

(** The [for] loop over the ready descriptors; [inl] is the shutdown. *)
Fixpoint handle_ready (l : list ready) (timer_ready : bool) (s : event_state)
    : outcome (event_state + bool * event_state) :=
  match l with
  | [] => Ret (inr (timer_ready, s))
  | ReadyPipe :: _ => Ret (inl s)
  | ReadyTimer read_ok :: l => handle_ready l (if read_ok then true else timer_ready) s
  | ReadyListen a :: l => s ← handle_accept_event a s; handle_ready l timer_ready s
  | ReadyClient fd events c :: l => s ← handle_client_event c fd events s; handle_ready l timer_ready s
  end.

(** [timer_wheel_advance(timer_wheel, close_idle_client, &idle_context)] *)
Definition expire_idle (clock : option timespec) (s : event_state) : outcome event_state :=
  '(r, w, e) ← timer_wheel_advance (ev_wheel s) clock close_idle_client (Ret s);
  s ← e;
  Ret (put_wheel w s).

(** One turn of [while (1)]: the shutdown, or the state for the next turn *)
Definition loop_turn (l : list ready) (clock : option timespec) (s : event_state) : outcome (event_state + event_state) :=
  r ← handle_ready l false s;
  match r with
  | inl s => Ret (inl s)
  | inr (timer_ready, s) => if timer_ready : bool then s ← expire_idle clock s; Ret (inr s) else Ret (inr s)
  end.

End events.
