(* ===== verification/HandlerEventSpec.v ===== *)
(** * Properties of the event loop

    Every open connection is in exactly one place: idle (in the epoll set and in
    the timer wheel) or owned by one worker; sessions are bound to open
    connections only; and no request reaches a worker without authorization. *)

From Stdlib Require Import Strings.Byte.
From S2P Require Import Prelude CString Protocol Utils Heap Session SessionSpec TimerWheel TimerWheelSpec ThreadPool.
From S2P Require Import Database DatabasePool Dao HandlerBasic Files HandlerTransfer HandlerEvent.

(** ** Ownership of connections *)

Ltac evs := unfold ev_epoll, ev_sessions, ev_wheel in *; simpl in *.

Definition busy (s : event_state) : list Z := work_fd <$> ev_tasks s.

(** [idle] are the connections that wait for a request.  [cur] is the connection
    that the main thread is handling, if any: nothing is said of its place. *)
Record owned (cur : option Z) (A : table_spec) (idle : gset Z) (s : event_state) : Prop := {
  cn_sessions : rep (ev_sessions s) A;
  cn_epoll fd : cur <> Some fd -> (fd ∈ ev_epoll s <-> fd ∈ idle);
  cn_nodup : NoDup (filter (fun x => cur <> Some x) (ev_epoll s));
  cn_busy : NoDup (busy s);
  cn_cur fd : cur = Some fd -> fd ∉ busy s;
  cn_apart fd : fd ∈ busy s -> fd ∉ idle;
  cn_open fd : cur <> Some fd -> (is_Some (ev_sockets s !! fd) <-> fd ∈ idle \/ fd ∈ busy s);
  cn_bound fd sid : cur <> Some fd -> bound A !! fd = Some sid -> is_Some (ev_sockets s !! fd);
  cn_fds fd : cur <> Some fd -> is_Some (ev_sockets s !! fd) -> is_fd fd
}.

Lemma filter_filter_keep {X} (P Q : X -> Prop) `{!forall x, Decision (P x)} `{!forall x, Decision (Q x)} (l : list X) :
  (forall x, P x -> Q x) -> filter P (filter Q l) = filter P l.
Proof.
  intros HPQ. induction l as [| x l IH]; [done |]. rewrite (filter_cons Q), (filter_cons P).
  destruct (decide (Q x)) as [HQ | HQ]; [rewrite filter_cons, IH; done |].
  destruct (decide (P x)) as [HP | HP]; [by apply HPQ in HP | done].
Qed.

Lemma filter_all {X} (P : X -> Prop) `{!forall x, Decision (P x)} (l : list X) :
  (forall x, x ∈ l -> P x) -> filter P l = l.
Proof.
  induction l as [| x l IH]; intros HP; [done |]. rewrite filter_cons_True by (apply HP; by left).
  rewrite IH; [done |]. intros y Hy. apply HP. by right.
Qed.

(** The main thread takes an idle connection in hand. *)
Lemma owned_take A idle s fd : owned None A idle s -> fd ∉ busy s -> owned (Some fd) A idle s.
Proof.
  intros [] Hb. split; try done.
  - intros x _. by apply cn_epoll0.
  - rewrite filter_all in cn_nodup0 by done. by apply NoDup_filter.
  - by intros x [= <-].
  - intros x _. by apply cn_open0.
  - intros x sid _. by apply cn_bound0.
  - intros x _. by apply cn_fds0.
Qed.

Lemma spec_detach_other fd A x : x <> fd -> bound (spec_detach fd A) !! x = bound A !! x.
Proof.
  intros Hx. unfold spec_detach. destruct (bound A !! fd); [| done]. simpl. by rewrite lookup_delete_ne.
Qed.
Lemma spec_detach_self fd A : bound (spec_detach fd A) !! fd = None.
Proof.
  unfold spec_detach. destruct (bound A !! fd) eqn:E; [| done]. simpl. by rewrite lookup_delete_eq.
Qed.

(** Closing the connection in hand *)
Lemma owned_close A A' idle s fd t :
  owned (Some fd) A idle s -> rep t A' -> (forall x, x <> fd -> bound A' !! x = bound A !! x) -> bound A' !! fd = None ->
  owned None A' (idle ∖ {[fd]}) (close_fd fd (put_sessions t (epoll_del fd s))).
Proof.
  intros [] Ht Hoth Hself. split; evs.
  - done.
  - intros x _. rewrite list_elem_of_filter, elem_of_difference, not_elem_of_singleton.
    destruct (decide (x = fd)) as [-> | Hne]; [naive_solver |]. rewrite (cn_epoll0 x) by congruence. naive_solver.
  - rewrite filter_all by done. eapply eq_ind; [exact cn_nodup0 |]. apply list_filter_iff. naive_solver.
  - done.
  - done.
  - intros x Hx. apply cn_apart0 in Hx. set_solver.
  - intros x _. rewrite elem_of_difference, not_elem_of_singleton. destruct (decide (x = fd)) as [-> | Hne].
    + rewrite lookup_delete_eq. pose proof (cn_cur0 fd eq_refl). split; [by intros [? ?] |]. intros [[_ ?] | ?]; done.
    + rewrite lookup_delete_ne by done. rewrite (cn_open0 x) by congruence. naive_solver.
  - intros x sid _ Hb. destruct (decide (x = fd)) as [-> | Hne]; [congruence |].
    rewrite lookup_delete_ne by done. eapply cn_bound0; [congruence |]. rewrite <- Hoth; done.
  - intros x _ Hx. destruct (decide (x = fd)) as [-> | Hne]; [rewrite lookup_delete_eq in Hx; by destruct Hx |].
    rewrite lookup_delete_ne in Hx by done. apply cn_fds0; [congruence | done].
Qed.

(** Handing the connection in hand to a worker *)
Lemma owned_submit A idle s fd w :
  owned (Some fd) A idle s -> is_Some (ev_sockets s !! fd) -> is_fd fd -> work_fd w = fd ->
  owned None A (idle ∖ {[fd]}) (put_tasks (ev_tasks s ++ [w]) (epoll_del fd s)).
Proof.
  intros [] Hopen Hfd Hw. pose proof (cn_cur0 fd eq_refl) as Hnb.
  assert (Hbusy : busy (put_tasks (ev_tasks s ++ [w]) (epoll_del fd s)) = busy s ++ [fd]).
  { unfold busy. simpl. rewrite fmap_app. simpl. by rewrite Hw. }
  split; rewrite ?Hbusy; evs.
  - done.
  - intros x _. rewrite list_elem_of_filter, elem_of_difference, not_elem_of_singleton.
    destruct (decide (x = fd)) as [-> | Hne]; [naive_solver |]. rewrite (cn_epoll0 x) by congruence. naive_solver.
  - rewrite filter_all by done. eapply eq_ind; [exact cn_nodup0 |]. apply list_filter_iff. naive_solver.
  - apply NoDup_app. split_and!; [done | | apply NoDup_singleton]. intros x Hx ->%list_elem_of_singleton. done.
  - done.
  - intros x. rewrite elem_of_app, list_elem_of_singleton. intros [Hx | ->]; [apply cn_apart0 in Hx |]; set_solver.
  - intros x _. rewrite elem_of_app, list_elem_of_singleton, elem_of_difference, not_elem_of_singleton.
    destruct (decide (x = fd)) as [-> | Hne]; [naive_solver |]. rewrite (cn_open0 x) by congruence. naive_solver.
  - intros x sid _ Hb. destruct (decide (x = fd)) as [-> | Hne]; [done |]. eapply cn_bound0; [congruence | done].
  - intros x _ Hx. destruct (decide (x = fd)) as [-> | Hne]; [done |]. apply cn_fds0; [congruence | done].
Qed.

(** The content of an open socket does not matter. *)
Lemma owned_socket cur A idle s fd k : is_Some (ev_sockets s !! fd) -> owned cur A idle s -> owned cur A idle (put_socket fd k s).
Proof.
  intros Hfd []. assert (Hs : forall x, is_Some (<[fd := k]> (ev_sockets s) !! x) <-> is_Some (ev_sockets s !! x)).
  { intros x. destruct (decide (x = fd)) as [-> | Hne]; [rewrite lookup_insert_eq; naive_solver |]. by rewrite lookup_insert_ne. }
  split; evs; try done.
  - intros x Hx. rewrite Hs. by apply cn_open0.
  - intros x sid Hx Hb. rewrite Hs. by eapply cn_bound0.
  - intros x Hx Hy. apply cn_fds0; [done |]. by apply Hs.
Qed.

Lemma owned_wheel cur A idle s w : owned cur A idle s -> owned cur A idle (put_wheel w s).
Proof. by intros []. Qed.

(** Changing the sessions of the connection in hand only *)
Lemma owned_sessions cur A A' idle s t fd :
  rep t A' -> (forall x, x <> fd -> bound A' !! x = bound A !! x) -> cur = Some fd \/ is_Some (ev_sockets s !! fd) ->
  owned cur A idle s -> owned cur A' idle (put_sessions t s).
Proof.
  intros Ht Hoth Hcur []. split; evs; try done.
  intros x sid Hx Hb. destruct (decide (x = fd)) as [-> | Hne]; [naive_solver |].
  eapply cn_bound0; [done |]. rewrite <- Hoth; done.
Qed.

(** Nothing is said of the place of the connection in hand. *)
Lemma owned_idle A idle idle' s fd :
  idle ∖ {[fd]} = idle' ∖ {[fd]} -> owned (Some fd) A idle s -> owned (Some fd) A idle' s.
Proof.
  intros Heq [].
  assert (Hi : forall x, x <> fd -> (x ∈ idle <-> x ∈ idle')).
  { intros x Hx. assert (x ∈ idle ∖ {[fd]} <-> x ∈ idle' ∖ {[fd]}) by (by rewrite Heq). set_solver. }
  split; try done.
  - intros x Hx. rewrite <- Hi by congruence. by apply cn_epoll0.
  - intros x Hb. assert (x <> fd) by (intros ->; by eapply cn_cur0). rewrite <- Hi by done. by apply cn_apart0.
  - intros x Hx. rewrite <- Hi by congruence. by apply cn_open0.
Qed.

(** A new connection is in the hands of the main thread. *)
Lemma owned_accept A idle s fd k :
  owned None A idle s -> ev_sockets s !! fd = None -> owned (Some fd) A idle (put_socket fd k s).
Proof.
  intros Ho Hfd. assert (Hb : fd ∉ busy s).
  { intros Hb. destruct (cn_open _ _ _ _ Ho fd) as [_ Hopen]; [done |]. rewrite Hfd in Hopen.
    destruct Hopen as [? ?]; [by right | done]. }
  apply owned_take with (fd := fd) in Ho as []; [| done]. split; evs; try done.
  - intros x Hx. rewrite lookup_insert_ne by congruence. by apply cn_open0.
  - intros x sid Hx Hs. rewrite lookup_insert_ne by congruence. by eapply cn_bound0.
  - intros x Hx. rewrite lookup_insert_ne by congruence. by apply cn_fds0.
Qed.

(** The connection in hand is entered in the epoll set. *)
Lemma owned_enter A idle s fd :
  owned (Some fd) A idle s -> owned (Some fd) A idle (put_epoll (ev_epoll s ++ [fd]) s).
Proof.
  intros []. split; evs; try done.
  - intros x Hx. rewrite elem_of_app, list_elem_of_singleton, cn_epoll0 by done. naive_solver.
  - rewrite filter_app, filter_cons_False by (intros H; by apply H). by rewrite app_nil_r.
Qed.

(** ... and then waits for its first request. *)
Lemma owned_wait A idle s fd :
  owned (Some fd) A idle s -> fd ∉ ev_epoll s -> is_Some (ev_sockets s !! fd) -> is_fd fd ->
  owned None A ({[fd]} ∪ idle) (put_epoll (ev_epoll s ++ [fd]) s).
Proof.
  intros [] Hnew Hopen Hfd. pose proof (cn_cur0 fd eq_refl) as Hnb. split; evs; try done.
  - intros x _. rewrite elem_of_app, list_elem_of_singleton.
    destruct (decide (x = fd)) as [-> | Hne]; [set_solver |]. rewrite cn_epoll0 by congruence. set_solver.
  - rewrite filter_all by done. apply NoDup_app. split_and!; [| | apply NoDup_singleton].
    + rewrite filter_all in cn_nodup0; [done |]. intros x Hx [= ->]. done.
    + intros x Hx ->%list_elem_of_singleton. done.
  - intros x Hx. apply cn_apart0 in Hx as Hi. assert (x <> fd) by (intros ->; done). set_solver.
  - intros x _. destruct (decide (x = fd)) as [-> | Hne]; [set_solver |].
    rewrite cn_open0 by congruence. set_solver.
  - intros x sid _ Hb. destruct (decide (x = fd)) as [-> | Hne]; [done |]. eapply cn_bound0; [congruence | done].
  - intros x _ Hx. destruct (decide (x = fd)) as [-> | Hne]; [done |]. apply cn_fds0; [congruence | done].
Qed.

(** A worker hands its connection back to the main thread. *)
Lemma owned_finish A idle s l1 w l2 :
  owned None A idle s -> ev_tasks s = l1 ++ w :: l2 ->
  owned (Some (work_fd w)) A idle (put_tasks (l1 ++ l2) s).
Proof.
  intros [] Ht.
  assert (Hb : forall x, x ∈ busy s <-> x = work_fd w \/ x ∈ busy (put_tasks (l1 ++ l2) s)).
  { intros x. unfold busy. simpl. rewrite Ht, !fmap_app, fmap_cons, !elem_of_app, elem_of_cons. naive_solver. }
  assert (Hnd : NoDup (work_fd w :: busy (put_tasks (l1 ++ l2) s))).
  { unfold busy in *. simpl. rewrite Ht in cn_busy0.
    by rewrite fmap_app in *; rewrite fmap_cons, <- Permutation_middle in cn_busy0. }
  apply NoDup_cons in Hnd as [Hno Hnd]. split; evs; try done.
  - intros x _. by apply cn_epoll0.
  - rewrite filter_all in cn_nodup0 by done. by apply NoDup_filter.
  - by intros x [= <-].
  - intros x Hx. apply cn_apart0, Hb. by right.
  - intros x Hx. rewrite cn_open0, Hb by done. naive_solver.
  - intros x sid _. by apply cn_bound0.
  - intros x _. by apply cn_fds0.
Qed.

(** ** The invariant of the server *)

(** [D] holds the deadlines of the idle connections. *)
Record server_inv (cur : option Z) (A : table_spec) (D : gmap Z timespec) (s : event_state) : Prop := {
  si_owned : owned cur A (dom D) s;
  si_wheel : wheel_rep (ev_wheel s) D;
  si_step : in_step (ev_wheel s) D
}.

Lemma in_step_delete w w' D fd : in_step w D -> current_second w' = current_second w -> in_step w' (delete fd D).
Proof. intros Hs Hc x d [_ Hd]%lookup_delete_Some. rewrite Hc. by eapply Hs. Qed.

Lemma server_take A D s fd : server_inv None A D s -> fd ∉ busy s -> server_inv (Some fd) A D s.
Proof. intros []. split; [by apply owned_take | done | done]. Qed.

(** [close_client] on the connection in hand *)
Lemma close_client_inv table A D s fd :
  server_inv (Some fd) A D s -> table = true \/ bound A !! fd = None ->
  exists s', close_client table fd s = Ret s' /\ ev_tasks s' = ev_tasks s /\ ev_sockets s' = delete fd (ev_sockets s) /\
    server_inv None (if table then spec_detach fd A else A) (delete fd D) s'.
Proof.
  intros [Ho Hw Hs] Htable. unfold close_client.
  destruct (timer_wheel_remove_rep _ _ fd Hw) as (w & -> & Hw' & Hc & _). cbn [mbind outcome_bind].
  set (s1 := put_wheel w s).
  assert (Ho1 : owned (Some fd) A (dom D) s1) by (by apply owned_wheel).
  assert (Hclose : forall t A', rep t A' -> (forall x, x <> fd -> bound A' !! x = bound A !! x) -> bound A' !! fd = None ->
    server_inv None A' (delete fd D) (close_fd fd (put_sessions t (epoll_del fd s1)))).
  { intros t A' Ht Hoth Hself. split.
    - rewrite dom_delete_L. by eapply owned_close.
    - done.
    - by eapply in_step_delete. }
  destruct table; cbn [mbind outcome_bind].
  - destruct (session_detach_fd_rep _ _ fd (cn_sessions _ _ _ _ Ho)) as (t & Ht & Hr).
    change (ev_sessions (epoll_del fd s1)) with (ev_sessions s). rewrite Ht. eexists. split_and!; [done | done | done |].
    apply Hclose; [done | by intros x; apply spec_detach_other | apply spec_detach_self].
  - eexists. split_and!; [done | done | done |]. destruct Htable as [? | Hb]; [done |].
    apply Hclose; [apply Ho | done | done].
Qed.

(** ** Accepting *)

(** What the kernel and the allocator promise to [handle_accept_event] *)
Record good_accept (a : accept_answers) (s : event_state) : Prop := {
  ga_fd fd k : aa_accept a = Some (fd, k) -> ev_sockets s !! fd = None /\ is_fd fd;
  ga_alloc p : aa_alloc a = Some p -> fresh_node (ev_wheel s) p;
  ga_clock now : aa_clock a = Some now -> good_now now /\ current_second (ev_wheel s) <= tv_sec now
}.

Lemma timer_wheel_track_inv w D alloc fd clock :
  wheel_rep w D -> in_step w D -> is_fd fd -> D !! fd = None -> (forall p, alloc = Some p -> fresh_node w p) ->
  (forall now, clock = Some now -> good_now now /\ current_second w <= tv_sec now) ->
  timer_wheel_track w alloc fd clock = Ret (-1, w) \/
  exists w' d, timer_wheel_track w alloc fd clock = Ret (0, w') /\ wheel_rep w' (<[fd := d]> D) /\ in_step w' (<[fd := d]> D).
Proof.
  intros Hw Hs Hfd HD Ha Hc. unfold timer_wheel_track. rewrite (proj2 (Z.ltb_ge _ _)) by apply Hfd.
  destruct clock as [now |]; [| by left]. destruct (Hc now eq_refl) as [Hnow Hcur].
  pose proof (track_locked_rep w D alloc fd now Hw Hfd Hnow Ha) as Ht. rewrite HD in Ht.
  destruct alloc; [| by left]. destruct Ht as (w' & -> & Hr & Hc' & _). right.
  exists w', (due (timeout_seconds w) now). split_and!; [done | done | by apply in_step_insert].
Qed.

Lemma not_open_idle A D s fd : server_inv None A D s -> ev_sockets s !! fd = None -> D !! fd = None.
Proof.
  intros Hi Hfd. apply not_elem_of_dom. intros Hd.
  destruct (cn_open _ _ _ _ (si_owned _ _ _ _ Hi) fd) as [_ Ho]; [done |].
  rewrite Hfd in Ho. destruct Ho; [by left | done].
Qed.

Lemma not_open_bound A D s fd : server_inv None A D s -> ev_sockets s !! fd = None -> bound A !! fd = None.
Proof.
  intros Hi Hfd. destruct (bound A !! fd) eqn:E; [| done].
  apply (cn_bound _ _ _ _ (si_owned _ _ _ _ Hi)) in E; [| done]. rewrite Hfd in E. by destruct E.
Qed.

Lemma handle_accept_event_inv A D s a :
  server_inv None A D s -> good_accept a s ->
  exists s' D', handle_accept_event a s = Ret s' /\ server_inv None A D' s' /\ ev_tasks s' = ev_tasks s /\ D ⊆ D'.
Proof.
  intros Hi [Hfd Ha Hc]. unfold handle_accept_event.
  destruct (aa_accept a) as [[fd k] |]; [| by exists s, D]. destruct (Hfd fd k eq_refl) as [Hnew Hisfd].
  set (s1 := put_socket fd k s).
  assert (Hi1 : server_inv (Some fd) A D s1) by (destruct Hi; split; [by apply owned_accept | done | done]).
  pose proof (not_open_bound _ _ _ _ Hi Hnew) as Hb. pose proof (not_open_idle _ _ _ _ Hi Hnew) as HD.
  destruct (aa_epoll_ok a); cbn [negb].
  2: { destruct (close_client_inv false A D s1 fd Hi1) as (s' & -> & Ht & _ & Hi'); [by right |].
       rewrite delete_id in Hi' by done. by exists s', D. }
  set (s2 := put_epoll (ev_epoll s1 ++ [fd]) s1).
  destruct (timer_wheel_track_inv (ev_wheel s) D (aa_alloc a) fd (aa_clock a)) as [Ht | (w & d & Ht & Hw & Hs)];
    try done; try apply Hi; change (ev_wheel s2) with (ev_wheel s); rewrite Ht; cbn [mbind outcome_bind Z.eqb negb].
  - assert (Hi2 : server_inv (Some fd) A D (put_wheel (ev_wheel s) s2)).
    { destruct Hi1. split; [apply owned_wheel; by apply owned_enter | done | done]. }
    destruct (close_client_inv false _ _ _ _ Hi2) as (s' & -> & Htasks & _ & Hi'); [by right |].
    rewrite delete_id in Hi' by done. by exists s', D.
  - exists (put_wheel w s2), (<[fd := d]> D). split_and!; [done | | done |].
    2: by apply insert_subseteq.
    split; [| done | done]. rewrite dom_insert_L. apply owned_wheel. apply owned_wait.
    + apply Hi1.
    + rewrite <- not_elem_of_dom in HD. change (ev_epoll s1) with (ev_epoll s).
      by rewrite (cn_epoll _ _ _ _ (si_owned _ _ _ _ Hi)).
    + unfold s1. simpl. rewrite lookup_insert_eq. eauto.
    + done.
Qed.

(** ** Requests *)

Section requests.
Context `{Host} (epoll_fd : Z) (storage_root transfer_temp_dir : list byte).
Context (Hroot : Z.of_nat (length storage_root) < PATH_MAX) (Htemp : Z.of_nat (length transfer_temp_dir) < PATH_MAX).

Lemma send_error_defined k st sid p :
  session_id_wf sid -> status_wf st -> packet_init CMD_ERROR st (Some sid) None 0 = Some p -> protocol_send_packet k p <> Undef.
Proof. intros Hsid Hst [= <-]. apply send_packet_defined. split; [split_and! |]; done. Qed.

(** Reading and answering change nothing but an open socket. *)
Lemma put_socket_inv cur A D s fd k :
  is_Some (ev_sockets s !! fd) -> server_inv cur A D s -> server_inv cur A D (put_socket fd k s).
Proof. intros Hfd []. split; [by apply owned_socket | done | done]. Qed.

Lemma open_put_socket fd k (s : event_state) x :
  is_Some (ev_sockets s !! x) -> is_Some (ev_sockets (put_socket fd k s) !! x).
Proof. intros Hx. simpl. destruct (decide (x = fd)) as [-> | Hne]; [rewrite lookup_insert_eq; eauto | by rewrite lookup_insert_ne]. Qed.

(** An event is handled on a connection that is idle. *)
Record pending (A : table_spec) (D : gmap Z timespec) (fd : Z) (s : event_state) : Prop := {
  pd_inv : server_inv None A D s;
  pd_idle : is_Some (D !! fd)
}.

Lemma pending_facts A D fd s :
  pending A D fd s -> is_Some (ev_sockets s !! fd) /\ fd ∉ busy s /\ is_fd fd.
Proof.
  intros [[Ho Hw Hs] Hfd]. apply elem_of_dom in Hfd.
  assert (Hopen : is_Some (ev_sockets s !! fd)) by (apply (cn_open _ _ _ _ Ho); [done | by left]).
  split_and!; [done | | by apply (cn_fds _ _ _ _ Ho)].
  intros Hb. by apply (cn_apart _ _ _ _ Ho) in Hb.
Qed.

(** The right of a worker to act: a request for a login or a registration names
    no session and carries no context; any other one carries the context of the
    live session it names, which its connection is bound to. *)
Definition granted (A A' : table_spec) (fd : Z) (w : work) : Prop :=
  let sid := session_id_of (header (work_packet w)) in
  if command_is_anonymous (type (header (work_packet w)))
  then session_id_is_empty sid = true /\ work_session w = zero_context /\ A' = A
  else exists x, live A !! sid = Some x /\ work_session w = as_context x /\
         bound A' !! fd = Some sid /\ (bound A !! fd = None \/ bound A !! fd = Some sid).

(** The sessions of the other connections are as before. *)
Definition same_others (fd : Z) (A A' : table_spec) : Prop := forall x, x <> fd -> bound A' !! x = bound A !! x.

(** What the handling of an event leaves *)
Inductive settled (A : table_spec) (D : gmap Z timespec) (fd : Z) (s s' : event_state) : Prop :=
| SettledIdle A' : server_inv None A' D s' -> same_others fd A A' -> ev_tasks s' = ev_tasks s -> settled A D fd s s'
| SettledClosed A' : server_inv None A' (delete fd D) s' -> same_others fd A A' -> ev_tasks s' = ev_tasks s ->
    ev_sockets s' !! fd = None -> settled A D fd s s'
| SettledBusy A' w : server_inv None A' (delete fd D) s' -> same_others fd A A' ->
    ev_tasks s' = ev_tasks s ++ [w] -> work_fd w = fd ->
    is_Some (ev_sockets s' !! fd) -> packet_wf (work_packet w) -> granted A A' fd w -> settled A D fd s s'.

Lemma close_settles A0 A D fd s s0 :
  server_inv (Some fd) A D s -> same_others fd A0 A -> ev_tasks s = ev_tasks s0 ->
  forall D0, delete fd D = delete fd D0 -> safely (close_client true fd s) (settled A0 D0 fd s0).
Proof.
  intros Hp Hoth Ht D0 HD.
  destruct (close_client_inv true A D s fd Hp) as (s' & -> & Ht' & Hs' & Hi); [by left |].
  rewrite HD in Hi. eapply SettledClosed; [exact Hi | | congruence | rewrite Hs'; apply lookup_delete_eq].
  intros x Hx. rewrite spec_detach_other by done. by apply Hoth.
Qed.

Lemma pending_take A D fd s : pending A D fd s -> server_inv (Some fd) A D s.
Proof. intros Hp. apply server_take; [apply Hp | by apply pending_facts in Hp as (_ & ? & _)]. Qed.

Lemma server_release cur A D s fd p : server_inv cur A D s -> server_inv cur A D (release_on fd p s).
Proof. intros Hi. unfold release_on. destruct (ev_sockets s !! fd) eqn:E; [| done]. apply put_socket_inv; [by rewrite E | done]. Qed.
Lemma release_tasks fd p s : ev_tasks (release_on fd p s) = ev_tasks s.
Proof. unfold release_on. by destruct (ev_sockets s !! fd). Qed.

Lemma recv_packet_on_inv A D c fd s :
  pending A D fd s ->
  safely (recv_packet_on c fd s) (fun r =>
    let '(r, p, s') := r in pending A D fd s' /\ ev_tasks s' = ev_tasks s /\ ev_sessions s' = ev_sessions s /\
    (r = 0 -> packet_wf p)).
Proof.
  intros Hp. pose proof (pending_facts _ _ _ _ Hp) as ([k Hk] & _ & _). unfold recv_packet_on. rewrite Hk.
  apply safely_bind. destruct (recv_packet_cases (ca_malloc c) k) as [Hu Hr].
  apply safely_intro; [done |]. intros [[r p] k'] Hret. simpl.
  apply Hr in Hret as [_ Hcase]. split_and!; [| done | done | naive_solver].
  destruct Hp. split; [| done]. by apply put_socket_inv; [rewrite Hk |].
Qed.

Lemma refuse_event_settles A0 A D fd p st s s0 :
  pending A D fd s -> same_others fd A0 A -> packet_wf p -> status_wf st -> ev_tasks s = ev_tasks s0 ->
  safely (refuse_event fd p st s) (settled A0 D fd s0).
Proof.
  intros Hp Hoth [(_ & _ & _ & Hsid) _] Hst Ht. pose proof (pending_facts _ _ _ _ Hp) as ([k Hk] & _ & _).
  unfold refuse_event, send_event_error.
  destruct (packet_init CMD_ERROR st _ None 0) as [q |] eqn:Eq; [| done]. rewrite Hk.
  apply safely_bind, safely_bind, safely_intro; [by eapply send_error_defined |].
  intros [r k'] _. cbn [mbind outcome_bind safely].
  assert (Hi : forall cur, server_inv cur A D s -> server_inv cur A D (release_on fd p (put_socket fd k' s))).
  { intros cur Hc. by apply server_release, put_socket_inv; [rewrite Hk |]. }
  assert (Htasks : ev_tasks (release_on fd p (put_socket fd k' s)) = ev_tasks s0) by (by rewrite release_tasks).
  destruct (negb (r =? 0)).
  - eapply close_settles; [by apply Hi, pending_take | done | done | done].
  - eapply SettledIdle; [apply Hi, Hp | done | done].
Qed.

Lemma owned_del A idle s fd : owned (Some fd) A idle s -> owned (Some fd) A idle (epoll_del fd s).
Proof.
  intros []. split; evs; try done.
  - intros x Hx. rewrite list_elem_of_filter, cn_epoll0 by done. naive_solver.
  - rewrite filter_filter_keep; [done |]. naive_solver.
Qed.

Lemma submit_settles A0 A D D0 c fd w s s0 :
  server_inv (Some fd) A D s -> same_others fd A0 A -> delete fd D = D -> delete fd D0 = D -> ev_tasks s = ev_tasks s0 ->
  is_Some (ev_sockets s !! fd) -> is_fd fd -> work_fd w = fd -> packet_wf (work_packet w) -> granted A0 A fd w ->
  safely (submit c fd w (epoll_del fd s)) (settled A0 D0 fd s0).
Proof.
  intros Hi Hoth HD HD0 Ht Hopen Hfd Hw Hp Hg. unfold submit. destruct (ca_add c) as [| r]; [done |].
  destruct (negb (r =? 0)).
  - eapply close_settles; [| done | by rewrite release_tasks | by rewrite HD].
    apply server_release. destruct Hi. split; [by apply owned_del | done | done].
  - eapply (SettledBusy _ _ _ _ _ A w); simpl; try done; [| by rewrite Ht].
    rewrite HD0. destruct Hi as [Ho Hwh Hst]. split; [| done | done].
    rewrite <- HD, dom_delete_L. by apply owned_submit.
Qed.

Lemma dispatch_request_settles A0 A D c fd p ctx s s0 :
  pending A D fd s -> same_others fd A0 A -> packet_wf p -> ev_tasks s = ev_tasks s0 ->
  (forall w, work_packet w = p -> work_session w = ctx -> granted A0 A fd w) ->
  safely (dispatch_request epoll_fd storage_root transfer_temp_dir c fd p ctx s) (settled A0 D fd s0).
Proof.
  intros Hp Hoth Hwf Ht Hg. pose proof (pending_facts _ _ _ _ Hp) as (Hopen & Hb & Hfd).
  destruct (pending_take _ _ _ _ Hp) as [Ho Hw Hs]. unfold dispatch_request.
  destruct (timer_wheel_remove_rep _ _ fd Hw) as (w & -> & Hw' & Hc & _). cbn [mbind outcome_bind].
  set (s1 := put_wheel w s).
  assert (Hi : server_inv (Some fd) A (delete fd D) s1).
  { split; [| done | by eapply in_step_delete]. apply owned_wheel. eapply owned_idle; [| exact Ho].
    rewrite dom_delete_L. set_solver. }
  assert (HDD : delete fd (delete fd D) = delete fd D) by apply delete_delete_eq.
  destruct (_ || _); [destruct (ca_transfer_alloc c); cbn [negb] |].
  - unfold copy_path. rewrite !(proj2 (Z.leb_gt _ _)) by done. cbn [mbind outcome_bind].
    eapply submit_settles; try done. by apply Hg.
  - eapply close_settles; [by apply server_release | done | by rewrite release_tasks | done].
  - eapply submit_settles; try done. by apply Hg.
Qed.

(** [session_authorize] on behalf of the connection [fd] *)
Lemma authorize_inv A D fd sid alloc clock s :
  pending A D fd s -> session_id_wf sid -> (forall p, alloc = Some p -> fresh_binding (ev_sessions s) p) ->
  exists t r A', session_authorize (ev_sessions s) alloc fd sid clock = Ret (r, t) /\
    pending A' D fd (put_sessions t s) /\ same_others fd A A' /\
    (forall ctx, r = Some ctx -> exists x, live A !! sid = Some x /\ ctx = as_context x /\
       bound A' !! fd = Some sid /\ (bound A !! fd = None \/ bound A !! fd = Some sid)).
Proof.
  intros Hp Hsid Ha. pose proof (pending_facts _ _ _ _ Hp) as (Hopen & Hb & Hfd). destruct Hp as [[Ho Hw Hs] Hd].
  pose proof (session_authorize_rep (ev_sessions s) A alloc fd sid clock (cn_sessions _ _ _ _ Ho) (proj2 Hfd) Hsid Ha) as Hr.
  assert (Hput : forall t A', rep t A' -> (forall x, x <> fd -> bound A' !! x = bound A !! x) -> pending A' D fd (put_sessions t s)).
  { intros t A' Ht Hoth. split; [split |]; [| done | done | done]. eapply owned_sessions; [done | exact Hoth | by right | done]. }
  rewrite (proj2 (Z.ltb_ge _ _)) in Hr by apply Hfd.
  destruct clock as [now |]; cbn [mbind option_bind] in Hr.
  2: { rewrite Hr. eexists _, _, A. split_and!; [done | by apply Hput; [apply Ho |] | done | done]. }
  unfold spec_authorize in Hr. destruct (live A !! sid) as [x |] eqn:Ex; cbn [mbind option_bind] in Hr.
  2: { rewrite Hr. eexists _, _, A. split_and!; [done | by apply Hput; [apply Ho |] | done | done]. }
  destruct (bound A !! fd) as [other |] eqn:Eb.
  - destruct (bool_decide (other = sid)) eqn:Eo.
    + apply bool_decide_eq_true_1 in Eo as ->. destruct Hr as (t & -> & Ht). eexists _, _, _.
      split_and!; [done | by eapply Hput | done |]. intros ctx [= <-]. exists x. split_and!; [done | done | done | by right].
    + rewrite Hr. eexists _, _, A. split_and!; [done | by apply Hput; [apply Ho |] | done | done].
  - destruct (bool_decide (is_Some alloc)) eqn:Eo.
    + destruct Hr as (t & -> & Ht). eexists _, _, _. split_and!; [done | eapply Hput; [exact Ht |] | |].
      * intros y Hy. simpl. by rewrite lookup_insert_ne.
      * intros y Hy. simpl. by rewrite lookup_insert_ne.
      * intros ctx [= <-]. exists x. simpl. rewrite lookup_insert_eq. split_and!; try done. by left.
    + rewrite Hr. eexists _, _, A. split_and!; [done | by apply Hput; [apply Ho |] | done | done].
Qed.

Lemma handle_client_event_settles A D c fd events s :
  pending A D fd s -> (forall p, ca_bind_alloc c = Some p -> fresh_binding (ev_sessions s) p) ->
  safely (handle_client_event epoll_fd storage_root transfer_temp_dir c fd events s) (settled A D fd s).
Proof.
  intros Hp Ha. unfold handle_client_event.
  assert (Hclose : safely (close_client true fd s) (settled A D fd s))
    by (eapply close_settles; [by apply pending_take | done | done | done]).
  destruct (negb _); [done |]. destruct (negb _); [| by eapply SettledIdle; [apply Hp | |]].
  destruct (negb _); [done |]. apply safely_bind. eapply safely_mono; [| by apply recv_packet_on_inv].
  intros [[r p] s1] (Hp1 & Ht1 & Hs1 & Hwf). cbn beta iota.
  destruct (r =? 0) eqn:Er; cbn [negb]; [| by eapply close_settles; [apply pending_take | | |]].
  apply Z.eqb_eq in Er. specialize (Hwf Er). pose proof Hwf as [(_ & _ & _ & Hsid) _].
  destruct (command_is_anonymous (type (header p))) eqn:Ean.
  - destruct (session_id_is_empty _) eqn:Ee; cbn [negb]; [| by eapply refuse_event_settles].
    eapply dispatch_request_settles; [done | done | done | done |].
    intros w Hw Hctx. unfold granted. rewrite Hw, Ean, Hctx. done.
  - destruct (authorize_inv A D fd (session_id_of (header p)) (ca_bind_alloc c) (ca_clock c) s1)
      as (t & ctx & A' & -> & Hp2 & Hoth & Hctx); [done | done | by rewrite Hs1 |].
    cbn [mbind outcome_bind]. destruct ctx as [ctx |]; [| by eapply refuse_event_settles].
    eapply dispatch_request_settles; [done | done | done | done |].
    intros w Hw Hws. unfold granted. rewrite Hw, Ean, Hws. by apply Hctx.
Qed.
End requests.

(** ** Idle connections *)

Lemma close_idle_client_inv A idle s fd :
  owned None A idle s -> fd ∈ idle ->
  exists s', close_idle_client fd (Ret s) = Ret s' /\ owned None (spec_detach fd A) (idle ∖ {[fd]}) s' /\
    ev_wheel s' = ev_wheel s /\ ev_tasks s' = ev_tasks s /\ ev_sockets s' = delete fd (ev_sockets s).
Proof.
  intros Ho Hfd. unfold close_idle_client. cbn [mbind outcome_bind].
  destruct (session_detach_fd_rep _ _ fd (cn_sessions _ _ _ _ Ho)) as (t & Ht & Hr).
  change (ev_sessions (epoll_del fd s)) with (ev_sessions s). rewrite Ht. eexists. split_and!; try done.
  eapply owned_close; [| done | by intros x; apply spec_detach_other | apply spec_detach_self].
  apply owned_take; [done |]. intros Hb. by apply (cn_apart _ _ _ _ Ho) in Hb.
Qed.

Lemma expire_all_idle fds : forall A idle s,
  owned None A idle s -> NoDup fds -> list_to_set fds ⊆ idle ->
  exists s' A', expire_all close_idle_client fds (Ret s) = Ret s' /\ owned None A' (idle ∖ list_to_set fds) s' /\
    ev_wheel s' = ev_wheel s /\ ev_tasks s' = ev_tasks s /\ (forall x, x ∉ fds -> bound A' !! x = bound A !! x) /\
    (forall x, ev_sockets s' !! x = if decide (x ∈ fds) then None else ev_sockets s !! x).
Proof.
  induction fds as [| fd fds IH]; intros A idle s Ho Hnd Hsub.
  - exists s, A. simpl. rewrite difference_empty_L. split_and!; try done.
  - apply NoDup_cons in Hnd as [Hno Hnd]. simpl in Hsub.
    destruct (close_idle_client_inv A idle s fd Ho) as (s1 & Hs1 & Ho1 & Hw1 & Ht1 & Hk1); [set_solver |].
    destruct (IH _ _ _ Ho1 Hnd) as (s' & A' & Hs' & Ho' & Hw' & Ht' & Hb' & Hk').
    { intros x Hx. assert (x <> fd) by (intros ->; by apply elem_of_list_to_set in Hx). set_solver. }
    exists s', A'. unfold expire_all in *. cbn [foldl]. rewrite Hs1. split_and!; [done | | congruence | congruence | |].
    2: { intros x Hx. apply not_elem_of_cons in Hx as [Hne Hx]. rewrite Hb' by done. by apply spec_detach_other. }
    + simpl. rewrite <- difference_difference_l_L. done.
    + intros x. rewrite Hk', Hk1. destruct (decide (x = fd)) as [-> | Hne].
      * rewrite decide_False, decide_True by (done || by left). apply lookup_delete_eq.
      * rewrite lookup_delete_ne by done. rewrite (decide_ext (x ∈ fds) (x ∈ fd :: fds)); [done |]. set_solver.
Qed.

(** [timer_wheel_advance] with [close_idle_client] *)
Lemma expire_idle_inv A D s now :
  server_inv None A D s -> 0 <= tv_nsec now ->
  exists s' A' fds, expire_idle (Some now) s = Ret s' /\ server_inv None A' (drop_fds fds D) s' /\
    ev_tasks s' = ev_tasks s /\ (forall x, x ∉ fds -> bound A' !! x = bound A !! x) /\
    (forall x, ev_sockets s' !! x = if decide (x ∈ fds) then None else ev_sockets s !! x) /\
    (forall fd d, D !! fd = Some d -> tick_of d <= tv_sec now -> fd ∈ fds) /\
    (forall fd, fd ∈ fds -> exists d, D !! fd = Some d /\
       (tv_sec d < tv_sec now \/ (tv_sec d = tv_sec now /\ tv_nsec d <= tv_nsec now))).
Proof.
  intros [Ho Hw Hs] Hn. unfold expire_idle, timer_wheel_advance.
  destruct (advance_punctual close_idle_client (ev_wheel s) D now (Ret s) Hw Hs Hn)
    as (w & fds & -> & Hnd & Hw' & Hs' & Hdue & Hin). cbn [mbind outcome_bind].
  assert (Hsub : list_to_set fds ⊆ dom D).
  { intros x Hx. apply elem_of_list_to_set, Hin in Hx as (d & Hd & _). apply elem_of_dom. eauto. }
  destruct (expire_all_idle fds A (dom D) s Ho Hnd Hsub) as (s' & A' & -> & Ho' & _ & Ht & Hb & Hk).
  exists (put_wheel w s'), A', fds. split_and!; try done. split; [| done | done].
  replace (dom (drop_fds fds D)) with (dom D ∖ list_to_set fds); [by apply owned_wheel |].
  apply set_eq. intros x. rewrite elem_of_difference, elem_of_list_to_set, !elem_of_dom. unfold is_Some.
  setoid_rewrite drop_fds_Some. naive_solver.
Qed.

(** ** Workers *)

(** The sockets still open when [c'] is the control state after [c] *)
Definition open_after (c c' : control) (sockets : gmap Z socket) : gmap Z socket :=
  foldr (fun fd m => delete fd m) sockets (drop (length (c_closed c)) (c_closed c')).

(** The state when a worker has changed the control state and ended. *)
Definition after_task (c' : control) (rest : list work) (s : event_state) : event_state :=
  {| ev_control := c'; ev_sockets := open_after (ev_control s) c' (ev_sockets s); ev_tasks := rest |}.

Lemma drop_closed (c : control) l : drop (length (c_closed c)) (c_closed c ++ l) = l.
Proof. rewrite drop_app_ge by lia. by rewrite Nat.sub_diag, drop_0. Qed.
Lemma drop_closed_nil (c : control) : drop (length (c_closed c)) (c_closed c) = [].
Proof. by rewrite drop_ge. Qed.

Lemma busy_facts A D s w :
  server_inv None A D s -> w ∈ ev_tasks s ->
  is_Some (ev_sockets s !! work_fd w) /\ is_fd (work_fd w) /\ D !! work_fd w = None /\ work_fd w ∉ ev_epoll s.
Proof.
  intros [Ho _ _] Hw. assert (Hb : work_fd w ∈ busy s) by (unfold busy; by apply list_elem_of_fmap_2).
  pose proof (cn_apart _ _ _ _ Ho _ Hb) as Hi.
  assert (Hopen : is_Some (ev_sockets s !! work_fd w)) by (apply (cn_open _ _ _ _ Ho); [done | by right]).
  split_and!; [done | by apply (cn_fds _ _ _ _ Ho) | by apply not_elem_of_dom | by rewrite (cn_epoll _ _ _ _ Ho)].
Qed.

Lemma track_and_publish_inv w D alloc fd clock ok registered :
  wheel_rep w D -> in_step w D -> is_fd fd -> D !! fd = None -> (forall p, alloc = Some p -> fresh_node w p) ->
  (forall now, clock = Some now -> good_now now /\ current_second w <= tv_sec now) ->
  (exists w', timer_wheel_track_and_publish w alloc fd clock (publish_control_fd ok) registered = Ret (-1, w', registered) /\
     wheel_rep w' D /\ in_step w' D) \/
  (exists w' d, timer_wheel_track_and_publish w alloc fd clock (publish_control_fd ok) registered = Ret (0, w', registered ++ [fd]) /\
     wheel_rep w' (<[fd := d]> D) /\ in_step w' (<[fd := d]> D)).
Proof.
  intros Hw Hs Hfd HD Ha Hc. unfold timer_wheel_track_and_publish. rewrite (proj2 (Z.ltb_ge _ _)) by apply Hfd.
  pose proof (timer_wheel_track_inv w D alloc fd clock Hw Hs Hfd HD Ha Hc) as Ht.
  unfold timer_wheel_track in Ht. rewrite (proj2 (Z.ltb_ge _ _)) in Ht by apply Hfd.
  destruct Ht as [-> | (w1 & d & -> & Hw1 & Hs1)]; cbn [mbind outcome_bind Z.eqb negb]; [left; eauto |].
  unfold publish_control_fd. destruct ok; cbn [Z.eqb negb]; [right; eauto |]. left.
  pose proof (find_node_rep w1 _ fd Hw1) as Hf. rewrite lookup_insert_eq in Hf.
  destruct Hf as (b & n & -> & Hnull & Hn & Hfdn & _). cbn [mbind outcome_bind].
  destruct (discard_rep w1 _ b n Hw1 Hn) as (w2 & -> & Hr2 & Hdis). cbn [mbind outcome_bind].
  rewrite Hfdn, delete_insert_id in Hr2 by done. eexists. split_and!; [done | done |].
  intros x e He. rewrite (di_current _ _ _ _ Hdis). apply (Hs1 x). rewrite lookup_insert_ne; [done |]. intros <-. congruence.
Qed.

(** A worker closes its connection, which is not in the epoll set. *)
Lemma owned_gone A idle s fd t w l :
  owned (Some fd) A idle s -> rep t (spec_detach fd A) -> fd ∉ ev_epoll s -> fd ∉ idle ->
  owned None (spec_detach fd A) idle
    {| ev_control := {| c_sessions := t; c_wheel := w; c_epoll := ev_epoll s; c_closed := l |};
       ev_sockets := delete fd (ev_sockets s); ev_tasks := ev_tasks s |}.
Proof.
  intros Ho Hr Hep Hid.
  destruct (owned_close A (spec_detach fd A) idle s fd t Ho Hr) as [];
    [by intros x; apply spec_detach_other | apply spec_detach_self |].
  replace (idle ∖ {[fd]}) with idle in * by set_solver.
  assert (Hsame : filter (fun x => x <> fd) (ev_epoll s) = ev_epoll s) by (apply filter_all; intros x Hx ->; done).
  unfold epoll_del, ev_epoll, ev_sessions in *. simpl in *. rewrite Hsame in *. by split.
Qed.

Lemma finish_basic_task_inv A D s l1 w l2 ok alloc clock :
  server_inv None A D s -> ev_tasks s = l1 ++ w :: l2 ->
  (forall p, alloc = Some p -> fresh_node (ev_wheel s) p) ->
  (forall now, clock = Some now -> good_now now /\ current_second (ev_wheel s) <= tv_sec now) ->
  exists c' A' D', finish_basic_task ok alloc clock (work_fd w) (ev_control s) = Ret c' /\
    server_inv None A' D' (after_task c' (l1 ++ l2) s) /\ same_others (work_fd w) A A' /\
    (D' = D /\ open_after (ev_control s) c' (ev_sockets s) = delete (work_fd w) (ev_sockets s) \/
     (exists d, D' = <[work_fd w := d]> D) /\ ev_sockets (after_task c' (l1 ++ l2) s) = ev_sockets s).
Proof.
  intros Hi Ht Ha Hc. set (fd := work_fd w).
  destruct (busy_facts _ _ _ w Hi) as (Hopen & Hfd & HD & Hep); [rewrite Ht, elem_of_app; right; by left |]. fold fd in Hopen, Hfd, HD, Hep.
  pose proof (owned_finish _ _ _ _ _ _ (si_owned _ _ _ _ Hi) Ht) as Ho. fold fd in Ho.
  set (s1 := put_tasks (l1 ++ l2) s) in *. unfold finish_basic_task.
  destruct (track_and_publish_inv (ev_wheel s) D alloc fd clock ok (ev_epoll s)) as [(w' & Hp & Hw & Hs) | (w' & d & Hp & Hw & Hs)];
    try done; try apply Hi; unfold ev_wheel, ev_epoll in Hp; rewrite Hp; cbn [mbind outcome_bind Z.eqb negb].
  - destruct (session_detach_fd_rep _ _ fd (cn_sessions _ _ _ _ Ho)) as (t & Hd & Hr).
    change (ev_sessions s1) with (c_sessions (ev_control s)) in Hd. rewrite Hd. cbn [mbind outcome_bind].
    eexists _, (spec_detach fd A), D. split; [done |]. unfold after_task, open_after. cbn [c_closed].
    rewrite drop_closed. cbn [foldr]. split_and!; [| by intros x; apply spec_detach_other | by left].
    apply not_elem_of_dom in HD. split; [| done | done].
    exact (owned_gone _ _ s1 fd t w' _ Ho Hr Hep HD).
  - eexists _, A, (<[fd := d]> D). split; [done |]. unfold after_task, open_after. cbn [c_closed].
    rewrite drop_closed_nil. cbn [foldr]. split_and!; [| done | right; eauto]. split; [| done | done].
    rewrite dom_insert_L. exact (owned_wheel _ _ _ _ w' (owned_wait _ _ _ _ Ho Hep Hopen Hfd)).
Qed.
