(* ===== verification/ServerSpec.v ===== *)
(** * The server as a whole

    The main thread and the workers as one step relation over the state that they
    share (sessions, idle timers, epoll set, connections, tasks), and what holds
    in every state that the server can reach. *)

From Stdlib Require Import Strings.Byte.
From S2P Require Import Prelude CString Protocol Utils Heap Session SessionSpec TimerWheel TimerWheelSpec ThreadPool.
From S2P Require Import Database DatabasePool Dao HandlerBasic Files HandlerTransfer HandlerEvent HandlerEventSpec.
From S2P Require Import DatabaseDemo HandlerTransferFlow.

(** ** What a basic task does to the sessions *)

Section sessions.
Context `{MySQL} (env : handler_env).

(** The computation leaves the session table alone. *)
Definition quiet {X} (m : hm X) : Prop :=
  forall s a s', m s = Ret (a, s') -> h_sessions s' = h_sessions s.

Lemma quiet_ret {X} (a : X) : quiet (mret a).
Proof. by intros s ? ? [= <- <-]. Qed.
Lemma quiet_bind {X Y} (m : hm X) (f : X -> hm Y) : quiet m -> (forall a, quiet (f a)) -> quiet (m ≫= f).
Proof.
  intros Hm Hf s a s' Hs. unfold mbind, hm_bind in Hs. apply bind_Ret_inv in Hs as ([b s1] & Hs1 & Hs).
  rewrite (Hf _ _ _ _ Hs). simpl. by apply (Hm _ b).
Qed.
Lemma quiet_db {X} (m : dbm X) : quiet (on_db m).
Proof. intros s a s' Hs. unfold on_db in Hs. apply bind_Ret_inv in Hs as (r & _ & [= <- <-]). done. Qed.
Lemma quiet_lift {X} (o : outcome X) : quiet (lift_h o).
Proof. intros s a s' Hs. unfold lift_h in Hs. apply bind_Ret_inv in Hs as (r & _ & [= <- <-]). done. Qed.
Lemma quiet_respond ty st sid pl : quiet (send_response_with_session_id ty st sid pl).
Proof. intros s a s'. unfold send_response_with_session_id. by destruct (packet_init _ _ _ _ _); intros [= <- <-]. Qed.
Lemma quiet_unlink path : quiet (unlink env path).
Proof. intros s a s'. unfold unlink. by destruct (unlink_ok env path); intros [= <- <-]. Qed.

Ltac quiet_tac :=
  repeat (first [ apply quiet_ret | apply quiet_db | apply quiet_lift | apply quiet_respond | apply quiet_unlink
                | apply quiet_bind; [| intros ?] | progress case_match ]).

Lemma quiet_register task : quiet (handle_register env task).
Proof. unfold handle_register, error, ack, send_response. quiet_tac. Qed.
Lemma quiet_pwd task : quiet (handle_pwd task).
Proof. unfold handle_pwd, ack, send_response. quiet_tac. Qed.
Lemma quiet_ls task : quiet (handle_ls task).
Proof. unfold handle_ls, error, ack, send_response. quiet_tac. Qed.
Lemma quiet_mkdir task : quiet (handle_mkdir task).
Proof. unfold handle_mkdir, error, ack, send_response. quiet_tac. Qed.
Lemma quiet_rmdir task : quiet (handle_rmdir task).
Proof. unfold handle_rmdir, error, ack, send_response. quiet_tac. Qed.
Lemma quiet_rm task : quiet (handle_rm env task).
Proof. unfold handle_rm, error, ack, send_response. quiet_tac. Qed.

(** At most one call on the session table, related by [R]. *)
Definition calls (R : session_table -> session_table -> Prop) {X} (m : hm X) : Prop :=
  forall s a s', m s = Ret (a, s') -> h_sessions s' = h_sessions s \/ R (h_sessions s) (h_sessions s').

Lemma calls_quiet R {X} (m : hm X) : quiet m -> calls R m.
Proof. intros Hm s a s' Hs. left. by eapply Hm. Qed.
Lemma calls_after R {X Y} (m : hm X) (f : X -> hm Y) : quiet m -> (forall a, calls R (f a)) -> calls R (m ≫= f).
Proof.
  intros Hm Hf s a s' Hs. unfold mbind, hm_bind in Hs. apply bind_Ret_inv in Hs as ([b s1] & Hs1 & Hs).
  rewrite <- (Hm _ _ _ Hs1). by eapply Hf.
Qed.
Lemma calls_before R {X Y} (m : hm X) (f : X -> hm Y) : calls R m -> (forall a, quiet (f a)) -> calls R (m ≫= f).
Proof.
  intros Hm Hf s a s' Hs. unfold mbind, hm_bind in Hs. apply bind_Ret_inv in Hs as ([b s1] & Hs1 & Hs).
  rewrite (Hf _ _ _ _ Hs). by eapply Hm.
Qed.
Lemma calls_op (R : session_table -> session_table -> Prop) {X} (m : session_table -> outcome (X * session_table)) :
  (forall t a t', m t = Ret (a, t') -> R t t') -> calls R (on_sessions m).
Proof.
  intros Hm s a s' Hs. unfold on_sessions in Hs. apply bind_Ret_inv in Hs as ([b t] & Hb & [= <- <-]).
  right. simpl. by eapply Hm.
Qed.

(** The call that a task of connection [fd] and session [sid] may make *)
Inductive session_call (fd : Z) (sid : session_id) (t t' : session_table) : Prop :=
| CallCreate uid name root r :
    session_create t (create_alloc env) fd uid name root (create_random env) (create_clock env) = Ret (r, t') ->
    session_call fd sid t t'
| CallChdir i path r : session_update_cwd t fd sid i path (cwd_clock env) = Ret (r, t') -> session_call fd sid t t'.

Ltac calls_tac :=
  repeat (first [ apply calls_quiet; solve [quiet_tac]
                | apply calls_before; [apply calls_op; intros ? ? ? ?; solve [eapply CallCreate; eassumption | eapply CallChdir; eassumption] | intros ?; solve [quiet_tac]]
                | apply calls_after; [solve [quiet_tac] | intros ?] | progress case_match ]).

Lemma dispatch_calls task :
  calls (session_call (t_client_fd task) (session_id_of (header (t_packet task)))) (dispatch env task).
Proof.
  unfold dispatch. case_match;
    try (apply calls_quiet; first [ apply quiet_register | apply quiet_pwd | apply quiet_ls | apply quiet_mkdir
                                  | apply quiet_rmdir | apply quiet_rm | unfold error, send_response; solve [quiet_tac] ]).
  - unfold handle_login, error, ack, send_response. calls_tac.
  - unfold handle_cd, error, ack, send_response. calls_tac.
Qed.
End sessions.

(** ** Steps *)

(** [sv_ready] are the client connections that the last [epoll_wait] has reported
    and that the loop has not handled yet. *)
Record server := {
  sv_state : event_state;
  sv_ready : list Z
}.

(** The answers to one request come from an allocator that returns fresh
    memory. *)
Definition good_env (env : handler_env) (t : session_table) : Prop :=
  forall sa ba, create_alloc env = Some (sa, ba) -> fresh_session t sa /\ fresh_binding t ba.

Section steps.
Context `{Host} `{MySQL} `{Sha256} (malloc_ok : Z -> bool).
Context (epoll_fd : Z) (storage_root transfer_temp_dir : list byte).

(** One turn of the loop is [StepWait], a [StepClient] for every ready client and
    a [StepAccept] for the listening socket, and a [StepExpire] when the timer has
    fired; the steps of the workers fall anywhere between. *)
Inductive server_step : server -> server -> Prop :=
| StepWait s fds :
    NoDup fds -> (forall fd, fd ∈ fds -> fd ∈ ev_epoll s) ->
    server_step {| sv_state := s; sv_ready := [] |} {| sv_state := s; sv_ready := fds |}
| StepAccept a s s' ready :
    good_accept a s -> handle_accept_event a s = Ret s' ->
    server_step {| sv_state := s; sv_ready := ready |} {| sv_state := s'; sv_ready := ready |}
| StepClient c fd events s s' ready :
    (forall p, ca_bind_alloc c = Some p -> fresh_binding (ev_sessions s) p) ->
    handle_client_event epoll_fd storage_root transfer_temp_dir c fd events s = Ret s' ->
    server_step {| sv_state := s; sv_ready := fd :: ready |} {| sv_state := s'; sv_ready := ready |}
| StepExpire clock s s' :
    (forall now, clock = Some now -> 0 <= tv_nsec now) -> expire_idle clock s = Ret s' ->
    server_step {| sv_state := s; sv_ready := [] |} {| sv_state := s'; sv_ready := [] |}
| StepBasic env task h h' s ready :
    BasicWork task ∈ ev_tasks s -> h_sessions h = ev_sessions s -> good_env env (ev_sessions s) ->
    dispatch env task h = Ret (tt, h') ->
    server_step {| sv_state := s; sv_ready := ready |}
                {| sv_state := put_sessions (h_sessions h') s; sv_ready := ready |}
| StepBasicEnd ok alloc clock l1 task l2 c' s ready :
    ev_tasks s = l1 ++ BasicWork task :: l2 ->
    (forall p, alloc = Some p -> fresh_node (ev_wheel s) p) ->
    (forall now, clock = Some now -> good_now now /\ current_second (ev_wheel s) <= tv_sec now) ->
    finish_basic_task ok alloc clock (t_client_fd task) (ev_control s) = Ret c' ->
    server_step {| sv_state := s; sv_ready := ready |}
                {| sv_state := after_task c' (l1 ++ l2) s; sv_ready := ready |}
| StepTransfer file_meta0 l1 task l2 w w' s ready :
    ev_tasks s = l1 ++ TransferWork task :: l2 -> tw_sessions w = ev_sessions s -> tw_closed w = c_closed (ev_control s) ->
    handle_transfer_task malloc_ok file_meta0 task w = Ret w' ->
    server_step {| sv_state := s; sv_ready := ready |}
                {| sv_state := after_task {| c_sessions := tw_sessions w'; c_wheel := ev_wheel s; c_epoll := ev_epoll s;
                                             c_closed := tw_closed w' |} (l1 ++ l2) s;
                   sv_ready := ready |}.

(** The server once [main] has set up its tables *)
Inductive server_start : server -> Prop :=
| Started t w timeout now :
    session_table_create true = Some t -> 0 <= timeout < u32_mod -> timer_wheel_create timeout (Some now) true = Some w ->
    server_start {| sv_state := {| ev_control := {| c_sessions := t; c_wheel := w; c_epoll := []; c_closed := [] |};
                                   ev_sockets := ∅; ev_tasks := [] |};
                    sv_ready := [] |}.

(** ** The invariant *)

(** The work in progress: its packet is sound, and the session it acts for stays
    bound to its connection. *)
Definition task_ok (A : table_spec) (w : work) : Prop :=
  packet_wf (work_packet w) /\
  (command_is_anonymous (type (header (work_packet w))) = false ->
   bound A !! work_fd w = Some (session_id_of (header (work_packet w)))).

Record server_ok (A : table_spec) (D : gmap Z timespec) (sv : server) : Prop := {
  sk_inv : server_inv None A D (sv_state sv);
  sk_tasks : Forall (task_ok A) (ev_tasks (sv_state sv));
  sk_nodup : NoDup (sv_ready sv);
  sk_ready fd : fd ∈ sv_ready sv -> is_Some (D !! fd)
}.

Lemma task_ok_others fd A A' w : same_others fd A A' -> work_fd w <> fd -> task_ok A w -> task_ok A' w.
Proof. intros Hoth Hne [Hp Hb]. split; [done |]. intros Ha. rewrite Hoth by done. by apply Hb. Qed.

Lemma tasks_ok_others fd A A' l :
  same_others fd A A' -> fd ∉ (work_fd <$> l) -> Forall (task_ok A) l -> Forall (task_ok A') l.
Proof.
  intros Hoth Hno Hl. rewrite Forall_forall in *. intros w Hw. eapply task_ok_others; [done | | by apply Hl].
  intros <-. apply Hno. by apply list_elem_of_fmap_2.
Qed.

Lemma owned_start t w :
  rep t empty_spec ->
  owned None empty_spec ∅ {| ev_control := {| c_sessions := t; c_wheel := w; c_epoll := []; c_closed := [] |};
                             ev_sockets := ∅; ev_tasks := [] |}.
Proof.
  intros Ht. assert (Hno : forall x : Z, x ∉ @nil Z) by (intros x; apply not_elem_of_nil).
  split; unfold ev_sessions, ev_epoll, busy; simpl; try done; try apply NoDup_nil_2; try set_solver.
  - intros fd _. rewrite lookup_empty. split; [by intros [? ?] | set_solver].
  - intros fd _. rewrite lookup_empty. by intros [? ?].
Qed.

Lemma start_ok sv : server_start sv -> exists A D, server_ok A D sv.
Proof.
  intros [t w timeout now Ht Hto Hw]. exists empty_spec, ∅.
  destruct (timer_wheel_create_rep timeout now w Hto Hw) as (Hr & _ & _).
  apply session_table_create_rep in Ht.
  split; simpl; [| constructor | constructor | by intros fd Hfd%not_elem_of_nil].
  split; simpl; [rewrite dom_empty_L; by apply owned_start | done | by intros fd d].
Qed.

Lemma accept_ok A D a s s' ready :
  server_ok A D {| sv_state := s; sv_ready := ready |} -> good_accept a s -> handle_accept_event a s = Ret s' ->
  exists D', server_ok A D' {| sv_state := s'; sv_ready := ready |}.
Proof.
  intros [Hi Ht Hnd Hr] Ha Hs. simpl in *.
  destruct (handle_accept_event_inv A D s a Hi Ha) as (s1 & D' & Hs1 & Hi' & Ht' & Hsub). rewrite Hs1 in Hs. injection Hs as <-.
  exists D'. split; simpl; [done | by rewrite Ht' | done |].
  intros fd Hfd. destruct (Hr fd Hfd) as [d Hd]. exists d. by eapply lookup_weaken.
Qed.

Lemma settled_ok A D fd s s' ready :
  server_ok A D {| sv_state := s; sv_ready := fd :: ready |} -> settled A D fd s s' ->
  exists A' D', server_ok A' D' {| sv_state := s'; sv_ready := ready |}.
Proof.
  intros [Hi Ht Hnd Hr] Hset. simpl in *. apply NoDup_cons in Hnd as [Hno Hnd].
  destruct (pending_facts A D fd s) as (_ & Hb & _); [split; [done | apply Hr; by left] |].
  assert (Hready : forall x, x ∈ ready -> is_Some (delete fd D !! x)).
  { intros x Hx. rewrite lookup_delete_ne by (intros ->; done). apply Hr. by right. }
  destruct Hset as [A' Hi' Hoth Ht' | A' Hi' Hoth Ht' _ | A' w Hi' Hoth Ht' Hw Hopen Hp Hg]; exists A'.
  - exists D. split; simpl; [done | rewrite Ht'; by eapply tasks_ok_others | done |]. intros x Hx. apply Hr. by right.
  - exists (delete fd D). split; simpl; [done | rewrite Ht'; by eapply tasks_ok_others | done | done].
  - exists (delete fd D). split; simpl; [done | | done | done]. rewrite Ht'. apply Forall_app. split; [by eapply tasks_ok_others |].
    apply Forall_singleton. split; [done |]. intros Han. unfold granted in Hg. rewrite Han in Hg.
    destruct Hg as (x & _ & _ & Hbound & _). by rewrite Hw.
Qed.

Lemma expire_ok A D clock s s' :
  server_ok A D {| sv_state := s; sv_ready := [] |} -> (forall now, clock = Some now -> 0 <= tv_nsec now) ->
  expire_idle clock s = Ret s' -> exists A' D', server_ok A' D' {| sv_state := s'; sv_ready := [] |}.
Proof.
  intros [Hi Ht Hnd Hr] Hc Hs. simpl in *. destruct clock as [now |].
  2: { unfold expire_idle in Hs. simpl in Hs. injection Hs as <-. exists A, D. split; try done. by destruct Hi as [[]]. }
  destruct (expire_idle_inv A D s now Hi (Hc now eq_refl)) as (s1 & A' & fds & Hs1 & Hi' & Ht' & Hb & _ & _ & Hin). rewrite Hs1 in Hs. injection Hs as <-.
  exists A', (drop_fds fds D). split; simpl; [done | | done | by intros fd Hfd%not_elem_of_nil].
  rewrite Ht'. rewrite Forall_forall in *. intros w Hw. destruct (Ht w Hw) as [Hp Hbd]. split; [done |].
  intros Han. rewrite Hb; [by apply Hbd |]. intros Hfd. apply Hin in Hfd as (d & Hd & _).
  destruct (busy_facts _ _ _ w Hi Hw) as (_ & _ & Hnone & _). congruence.
Qed.

Lemma spec_update_cwd_bound fd sid i c now A A' : spec_update_cwd fd sid i c now A = Some A' -> bound A' = bound A.
Proof. unfold spec_update_cwd. intros H2. apply bind_Some in H2 as (x & _ & H2). destruct (bool_decide _); by simplify_eq. Qed.

Lemma session_call_ok env A D s w t' :
  server_inv None A D s -> w ∈ ev_tasks s -> task_ok A w -> good_env env (ev_sessions s) ->
  session_call env (work_fd w) (session_id_of (header (work_packet w))) (ev_sessions s) t' ->
  exists A', rep t' A' /\ same_others (work_fd w) A A' /\ task_ok A' w.
Proof.
  intros Hi Hw [Hp Hbd] Henv Hcall. pose proof (cn_sessions _ _ _ _ (si_owned _ _ _ _ Hi)) as Hrep.
  destruct (busy_facts _ _ _ w Hi Hw) as (_ & Hfd & _ & _).
  destruct Hcall as [uid name root r Hc | i path r Hc].
  - destruct (session_create_rep (ev_sessions s) A (create_alloc env) (work_fd w) uid name root (create_random env) (create_clock env))
      as [_ Hr]; [done | apply Hfd | done |]. specialize (Hr _ _ Hc). destruct r as [sid |].
    + destruct Hr as (now & _ & _ & _ & Hnone & Hr). eexists. split_and!; [exact Hr | |].
      * intros x Hx. simpl. by rewrite lookup_insert_ne.
      * split; [done |]. intros Han. specialize (Hbd Han). congruence.
    + subst t'. by exists A.
  - pose proof Hp as [(_ & _ & _ & Hsid) _].
    pose proof (session_update_cwd_rep (ev_sessions s) A (work_fd w) (session_id_of (header (work_packet w))) i path (cwd_clock env) Hrep Hsid) as Hr.
    destruct (cwd_clock env ≫= _) as [A' |] eqn:E in Hr.
    + destruct Hr as (t1 & Ht1 & Hr). rewrite Ht1 in Hc. injection Hc as _ <-. exists A'.
      apply bind_Some in E as (now & _ & E). destruct (_ || _) in E; [done |].
      apply spec_update_cwd_bound in E. unfold same_others, task_ok. rewrite E. by split_and!.
    + rewrite Hr in Hc. injection Hc as _ <-. by exists A.
Qed.

Lemma distinct_keys {X Y} (f : X -> Y) (l : list X) x y : NoDup (f <$> l) -> x ∈ l -> y ∈ l -> f x = f y -> x = y.
Proof.
  intros Hnd [i Hi]%list_elem_of_lookup [j Hj]%list_elem_of_lookup Heq.
  assert (i = j) as ->; [| congruence]. apply (NoDup_lookup _ i j (f x) Hnd); rewrite list_lookup_fmap; [by rewrite Hi | by rewrite Hj, Heq].
Qed.

Lemma basic_ok A D env task h h' s ready :
  server_ok A D {| sv_state := s; sv_ready := ready |} ->
  BasicWork task ∈ ev_tasks s -> h_sessions h = ev_sessions s -> good_env env (ev_sessions s) ->
  dispatch env task h = Ret (tt, h') ->
  exists A', server_ok A' D {| sv_state := put_sessions (h_sessions h') s; sv_ready := ready |}.
Proof.
  intros [Hi Ht Hnd Hr] Hw Hh Henv Hd. simpl in *. pose proof Ht as Htask. rewrite Forall_forall in Htask.
  assert (Hcall : exists A', rep (h_sessions h') A' /\ same_others (t_client_fd task) A A' /\ task_ok A' (BasicWork task)).
  { destruct (dispatch_calls env task _ _ _ Hd) as [Heq | Hc].
    - exists A. rewrite Heq, Hh. split_and!; [apply Hi | done | by apply Htask].
    - rewrite Hh in Hc. eapply (session_call_ok env A D s (BasicWork task)); eauto. }
  destruct Hcall as (A' & Hrep & Hoth & Hme). exists A'. destruct (busy_facts _ _ _ _ Hi Hw) as (Hopen & _).
  split; simpl; [| | done | done].
  - destruct Hi. split; [| done | done]. eapply owned_sessions; [done | exact Hoth | by right | done].
  - rewrite Forall_forall. intros w Hin. destruct (decide (work_fd w = t_client_fd task)) as [Heq | Hne].
    + assert (w = BasicWork task) as ->; [| done].
      pose proof (cn_busy _ _ _ _ (si_owned _ _ _ _ Hi)) as Hb. by eapply (distinct_keys work_fd).
    + eapply task_ok_others; [done | done | by apply Htask].
Qed.

Lemma worker_end_ok A A' D D' s l1 w l2 s' ready :
  server_ok A D {| sv_state := s; sv_ready := ready |} -> ev_tasks s = l1 ++ w :: l2 ->
  server_inv None A' D' s' -> ev_tasks s' = l1 ++ l2 -> same_others (work_fd w) A A' ->
  (forall x, is_Some (D !! x) -> is_Some (D' !! x)) -> server_ok A' D' {| sv_state := s'; sv_ready := ready |}.
Proof.
  intros [Hi Ht Hnd Hr] Htasks Hi' Ht' Hoth Hsub. simpl in *. split; simpl; [done | | done | auto].
  pose proof (cn_busy _ _ _ _ (si_owned _ _ _ _ Hi)) as Hb. unfold busy in Hb. rewrite Htasks in Hb, Ht.
  rewrite fmap_app, fmap_cons, <- Permutation_middle, NoDup_cons, <- fmap_app in Hb. destruct Hb as [Hno _].
  rewrite Ht'. eapply tasks_ok_others; [done | done |].
  apply Forall_app in Ht as [? [_ ?]%Forall_cons]. by apply Forall_app.
Qed.

Lemma basic_end_ok A D ok alloc clock l1 task l2 c' s ready :
  server_ok A D {| sv_state := s; sv_ready := ready |} -> ev_tasks s = l1 ++ BasicWork task :: l2 ->
  (forall p, alloc = Some p -> fresh_node (ev_wheel s) p) ->
  (forall now, clock = Some now -> good_now now /\ current_second (ev_wheel s) <= tv_sec now) ->
  finish_basic_task ok alloc clock (t_client_fd task) (ev_control s) = Ret c' ->
  exists A' D', server_ok A' D' {| sv_state := after_task c' (l1 ++ l2) s; sv_ready := ready |}.
Proof.
  intros Hok Ht Ha Hc Hf.
  destruct (finish_basic_task_inv A D s l1 (BasicWork task) l2 ok alloc clock (sk_inv _ _ _ Hok) Ht Ha Hc)
    as (c1 & A' & D' & Hf1 & Hi' & Hoth & Hcase).
  simpl in Hf1. rewrite Hf1 in Hf. injection Hf as <-. exists A', D'.
  eapply worker_end_ok; [done | done | done | done | done |].
  intros x Hx. destruct Hcase as [[-> _] | [[d ->] _]]; [done |].
  destruct (decide (x = work_fd (BasicWork task))) as [-> | Hne]; [rewrite lookup_insert_eq; eauto | by rewrite lookup_insert_ne].
Qed.

Lemma transfer_ok A D file_meta0 l1 task l2 w w' s ready :
  server_ok A D {| sv_state := s; sv_ready := ready |} -> ev_tasks s = l1 ++ TransferWork task :: l2 ->
  tw_sessions w = ev_sessions s -> tw_closed w = c_closed (ev_control s) ->
  handle_transfer_task malloc_ok file_meta0 task w = Ret w' ->
  exists A', server_ok A' D {| sv_state := after_task {| c_sessions := tw_sessions w'; c_wheel := ev_wheel s;
                                 c_epoll := ev_epoll s; c_closed := tw_closed w' |} (l1 ++ l2) s; sv_ready := ready |}.
Proof.
  intros Hok Ht Hs Hc Hf. unfold handle_transfer_task in Hf.
  apply bind_Ret_inv in Hf as (r & _ & Hf). apply bind_Ret_inv in Hf as (t & Hd & Hf).
  apply bind_Ret_inv in Hf as (r' & _ & [= <-]). cbn [tw_sessions tw_closed]. pose proof (sk_inv _ _ _ Hok) as Hi. simpl in Hi.
  destruct (session_detach_fd_rep _ _ (x_client_fd task) (cn_sessions _ _ _ _ (si_owned _ _ _ _ Hi))) as (t' & Ht' & Hr).
  rewrite Hs, Ht' in Hd. injection Hd as <-. exists (spec_detach (x_client_fd task) A).
  eapply worker_end_ok; [done | done | | done | by intros x; apply spec_detach_other | done].
  destruct (busy_facts _ _ _ (TransferWork task) Hi) as (_ & _ & HD & Hep); [rewrite Ht, elem_of_app; right; by left |].
  simpl in HD, Hep. unfold after_task, open_after. cbn [c_closed]. rewrite Hc, drop_closed. cbn [foldr].
  pose proof (owned_finish _ _ _ _ _ _ (si_owned _ _ _ _ Hi) Ht) as Ho.
  split; [| apply Hi | apply Hi]. apply not_elem_of_dom in HD.
  exact (owned_gone _ _ (put_tasks (l1 ++ l2) s) _ t' _ _ Ho Hr Hep HD).
Qed.


Definition reachable (sv : server) : Prop := exists sv0, server_start sv0 /\ rtc server_step sv0 sv.

Context (Hroot : Z.of_nat (length storage_root) < PATH_MAX) (Htemp : Z.of_nat (length transfer_temp_dir) < PATH_MAX).

Lemma client_ok A D c fd events s s' ready :
  server_ok A D {| sv_state := s; sv_ready := fd :: ready |} ->
  (forall p, ca_bind_alloc c = Some p -> fresh_binding (ev_sessions s) p) ->
  handle_client_event epoll_fd storage_root transfer_temp_dir c fd events s = Ret s' ->
  settled A D fd s s'.
Proof.
  intros Hok Hc Hs.
  assert (Hp : pending A D fd s) by (split; [apply Hok | apply (sk_ready _ _ _ Hok); by left]).
  pose proof (handle_client_event_settles epoll_fd storage_root transfer_temp_dir Hroot Htemp A D c fd events s Hp Hc) as Hset.
  by rewrite Hs in Hset.
Qed.

Lemma step_ok A D sv sv' : server_ok A D sv -> server_step sv sv' -> exists A' D', server_ok A' D' sv'.
Proof.
  intros Hok Hstep. destruct Hstep as [s fds Hnd Hin | a s s' ready Ha Hs | c fd events s s' ready Hc Hs | clock s s' Hc Hs
    | env task h h' s ready Hw Hh He Hd | ok alloc clock l1 task l2 c' s ready Ht Ha Hc Hf | fm l1 task l2 w w' s ready Ht Hs Hc Hf].
  - exists A, D. destruct Hok as [Hi Ht _ _]. split; simpl in *; [done | done | done |].
    intros fd Hfd. by apply elem_of_dom, (cn_epoll _ _ _ _ (si_owned _ _ _ _ Hi)), Hin.
  - exists A. by eapply accept_ok.
  - eapply settled_ok; [done | by eapply client_ok].
  - by eapply expire_ok.
  - destruct (basic_ok _ _ _ _ _ _ _ _ Hok Hw Hh He Hd) as [A' ?]. by exists A', D.
  - by eapply basic_end_ok.
  - destruct (transfer_ok _ _ _ _ _ _ _ _ _ _ Hok Ht Hs Hc Hf) as [A' ?]. by exists A', D.
Qed.

Lemma reachable_ok sv : reachable sv -> exists A D, server_ok A D sv.
Proof.
  intros (sv0 & Hstart & Hrun). destruct (start_ok _ Hstart) as (A & D & Hok). clear Hstart. revert A D Hok.
  induction Hrun as [| sv1 sv2 sv3 Hstep _ IH]; intros A D Hok; [by exists A, D |].
  destruct (step_ok _ _ _ _ Hok Hstep) as (A' & D' & Hok'). by eapply IH.
Qed.
End steps.

(** ** What holds of the server *)

Section properties.
Context `{Host} `{MySQL} `{Sha256} (malloc_ok : Z -> bool).
Context (epoll_fd : Z) (storage_root transfer_temp_dir : list byte).
Context (Hroot : Z.of_nat (length storage_root) < PATH_MAX) (Htemp : Z.of_nat (length transfer_temp_dir) < PATH_MAX).

(** (C6) Ownership of connections: in every reachable state of the server, each
    open connection is either watched (in the epoll set once, with an idle
    deadline in the wheel) or in the hands of exactly one worker, never both;
    sessions are bound to open connections only; a worker that acts for a session
    finds its connection still bound to it; and no ready event is stale. *)
Theorem server_ownership sv :
  reachable malloc_ok epoll_fd storage_root transfer_temp_dir sv ->
  exists A D, rep (ev_sessions (sv_state sv)) A /\ wheel_rep (ev_wheel (sv_state sv)) D /\
    NoDup (ev_epoll (sv_state sv)) /\ NoDup (work_fd <$> ev_tasks (sv_state sv)) /\
    (forall fd, is_Some (ev_sockets (sv_state sv) !! fd) <->
                fd ∈ ev_epoll (sv_state sv) \/ fd ∈ (work_fd <$> ev_tasks (sv_state sv))) /\
    (forall fd, fd ∈ ev_epoll (sv_state sv) -> fd ∉ (work_fd <$> ev_tasks (sv_state sv))) /\
    (forall fd, fd ∈ ev_epoll (sv_state sv) <-> is_Some (D !! fd)) /\
    (forall fd sid, bound A !! fd = Some sid -> is_Some (ev_sockets (sv_state sv) !! fd)) /\
    (forall w, w ∈ ev_tasks (sv_state sv) -> command_is_anonymous (type (header (work_packet w))) = false ->
               bound A !! work_fd w = Some (session_id_of (header (work_packet w)))) /\
    (forall fd, fd ∈ sv_ready sv -> fd ∈ ev_epoll (sv_state sv)).
Proof.
  intros Hrun. destruct (reachable_ok _ _ _ _ Hroot Htemp sv Hrun) as (A & D & [[Ho Hw _] Ht _ Hr]). exists A, D.
  pose proof (cn_nodup _ _ _ _ Ho) as Hnd. rewrite filter_all in Hnd by done.
  assert (Hep : forall fd, fd ∈ ev_epoll (sv_state sv) <-> is_Some (D !! fd))
    by (intros fd; rewrite <- elem_of_dom; by apply (cn_epoll _ _ _ _ Ho)).
  split_and!; [apply Ho | done | done | apply Ho | | | done | | |].
  - intros fd. rewrite Hep, <- (elem_of_dom D). by apply (cn_open _ _ _ _ Ho).
  - intros fd Hfd Hb. apply (cn_apart _ _ _ _ Ho) in Hb. by rewrite Hep, <- (elem_of_dom D) in Hfd.
  - intros fd sid. by apply (cn_bound _ _ _ _ Ho).
  - intros w Hin. rewrite Forall_forall in Ht. by apply Ht.
  - intros fd Hfd. by apply Hep, Hr.
Qed.

(** (C5) Authorization: when the event loop hands a request of connection [fd] to
    a worker, either it is a login or a registration, names no session and carries
    no context, or it names a live session, carries the context of that session,
    and the connection, bound to no other session before, is now bound to it. *)
Theorem event_dispatch_authorized sv fd ready c events s' w :
  reachable malloc_ok epoll_fd storage_root transfer_temp_dir sv -> sv_ready sv = fd :: ready ->
  (forall p, ca_bind_alloc c = Some p -> fresh_binding (ev_sessions (sv_state sv)) p) ->
  handle_client_event epoll_fd storage_root transfer_temp_dir c fd events (sv_state sv) = Ret s' ->
  ev_tasks s' = ev_tasks (sv_state sv) ++ [w] ->
  work_fd w = fd /\ exists A A', rep (ev_sessions (sv_state sv)) A /\ rep (ev_sessions s') A' /\
    let sid := session_id_of (header (work_packet w)) in
    if command_is_anonymous (type (header (work_packet w)))
    then session_id_is_empty sid = true /\ work_session w = zero_context /\ A' = A
    else exists x, live A !! sid = Some x /\ work_session w = as_context x /\
           bound A' !! fd = Some sid /\ (bound A !! fd = None \/ bound A !! fd = Some sid).
Proof.
  intros Hrun Hready Hc Hs Htasks. destruct (reachable_ok _ _ _ _ Hroot Htemp sv Hrun) as (A & D & Hok).
  destruct sv as [s r]. simpl in *. subst r.
  destruct (client_ok _ _ _ Hroot Htemp _ _ _ _ _ _ _ _ Hok Hc Hs) as [A' Hi _ Ht | A' Hi _ Ht _ | A' w' Hi _ Ht Hw _ _ Hg].
  1,2: rewrite Ht in Htasks; by apply app_cons_not_nil in Htasks || (apply (f_equal length) in Htasks; rewrite length_app in Htasks; simpl in Htasks; lia).
  rewrite Ht in Htasks. apply app_inv_head in Htasks as [= <-]. split; [done |].
  exists A, A'. split_and!; [apply Hok | apply Hi | exact Hg].
Qed.

(** (C29) Handling an event never fails, and settles the connection: it waits for
    the next request, or it is closed, removed from every table and its session
    released, or exactly one worker has it. *)
Theorem client_event_settles sv fd ready c events :
  reachable malloc_ok epoll_fd storage_root transfer_temp_dir sv -> sv_ready sv = fd :: ready ->
  (forall p, ca_bind_alloc c = Some p -> fresh_binding (ev_sessions (sv_state sv)) p) ->
  handle_client_event epoll_fd storage_root transfer_temp_dir c fd events (sv_state sv) <> Undef /\
  forall s', handle_client_event epoll_fd storage_root transfer_temp_dir c fd events (sv_state sv) = Ret s' ->
    (fd ∈ ev_epoll s' /\ is_Some (ev_sockets s' !! fd) /\ ev_tasks s' = ev_tasks (sv_state sv)) \/
    (fd ∉ ev_epoll s' /\ ev_sockets s' !! fd = None /\ ev_tasks s' = ev_tasks (sv_state sv) /\
       exists A', rep (ev_sessions s') A' /\ bound A' !! fd = None) \/
    (fd ∉ ev_epoll s' /\ is_Some (ev_sockets s' !! fd) /\
       exists w, ev_tasks s' = ev_tasks (sv_state sv) ++ [w] /\ work_fd w = fd).
Proof.
  intros Hrun Hready Hc. destruct (reachable_ok _ _ _ _ Hroot Htemp sv Hrun) as (A & D & Hok).
  destruct sv as [s r]. simpl in *. subst r.
  assert (Hp : pending A D fd s) by (split; [apply Hok | apply (sk_ready _ _ _ Hok); by left]).
  pose proof (handle_client_event_settles epoll_fd storage_root transfer_temp_dir Hroot Htemp A D c fd events s Hp Hc) as Hset.
  split; [by intros Hu; rewrite Hu in Hset |]. intros s' Hs. rewrite Hs in Hset. simpl in Hset.
  assert (Hgone : forall A' s, server_inv None A' (delete fd D) s -> fd ∉ ev_epoll s).
  { intros A' s1 [Ho _ _]. rewrite (cn_epoll _ _ _ _ Ho), dom_delete_L by done. set_solver. }
  destruct Hset as [A' Hi _ Ht | A' Hi _ Ht Hk | A' w Hi _ Ht Hw Hk _ _].
  - left. pose proof (pd_idle _ _ _ _ Hp) as Hd. rewrite <- elem_of_dom in Hd. split_and!; [| | done].
    + by apply (cn_epoll _ _ _ _ (si_owned _ _ _ _ Hi)).
    + apply (cn_open _ _ _ _ (si_owned _ _ _ _ Hi)); [done | by left].
  - right; left. split_and!; [by eapply Hgone | done | done |]. exists A'. split; [apply Hi | by eapply not_open_bound].
  - right; right. split_and!; [by eapply Hgone | done | eauto].
Qed.

(** Idle timeout of the server: when the timer fires at [now], every watched
    connection whose deadline has been reached is closed and loses its session,
    every other connection (one that a worker has, in particular) stays open. *)
Theorem idle_connections_closed sv now :
  reachable malloc_ok epoll_fd storage_root transfer_temp_dir sv -> sv_ready sv = [] -> 0 <= tv_nsec now ->
  exists s' A D A', expire_idle (Some now) (sv_state sv) = Ret s' /\
    rep (ev_sessions (sv_state sv)) A /\ wheel_rep (ev_wheel (sv_state sv)) D /\ rep (ev_sessions s') A' /\
    ev_tasks s' = ev_tasks (sv_state sv) /\
    (forall fd d, D !! fd = Some d -> tick_of d <= tv_sec now ->
       ev_sockets s' !! fd = None /\ fd ∉ ev_epoll s' /\ bound A' !! fd = None) /\
    (forall fd, (forall d, D !! fd = Some d -> expired now d = false) ->
       ev_sockets s' !! fd = ev_sockets (sv_state sv) !! fd /\ bound A' !! fd = bound A !! fd).
Proof.
  intros Hrun Hready Hn. destruct (reachable_ok _ _ _ _ Hroot Htemp sv Hrun) as (A & D & Hok).
  destruct (expire_idle_inv A D (sv_state sv) now (sk_inv _ _ _ Hok) Hn)
    as (s' & A' & fds & Hs & Hi & Ht & Hb & Hk & Hdue & Hin).
  exists s', A, D, A'. split_and!; [done | apply Hok | apply Hok | apply Hi | done | |].
  - intros fd d Hd Htick. pose proof (Hdue _ _ Hd Htick) as Hfd.
    assert (Hclosed : ev_sockets s' !! fd = None) by (by rewrite Hk, decide_True).
    split_and!; [done | | by eapply not_open_bound]. pose proof (not_open_idle _ _ _ _ Hi Hclosed) as Hnone.
    rewrite (cn_epoll _ _ _ _ (si_owned _ _ _ _ Hi)) by done. by apply not_elem_of_dom.
  - intros fd Hlate. assert (Hfd : fd ∉ fds).
    { intros Hfd. apply Hin in Hfd as (d & Hd & Hpast). apply expired_spec in Hpast. rewrite Hlate in Hpast; done. }
    split; [by rewrite Hk, decide_False | by apply Hb].
Qed.
End properties.

(** ** A concrete run: a client connects and asks to log in *)

Definition demo_login_packet : packet :=
  {| header := {| type := CMD_LOGIN_REQ; status := STATUS_OK; payload_len := 7; session_id_of := empty_session_id |};
     payload := Some (lit "ann x1y"); owns_payload := true |}.
Definition demo_client : socket :=
  {| sent := []; send_script := []; recv_script := [RecvBytes (wire_packet demo_login_packet)]; buffers := 0 |}.
Definition demo_table : session_table := default (Build_session_table [] [] 0 0 ∅ ∅) (session_table_create true).
Definition demo_started : event_state :=
  {| ev_control := {| c_sessions := demo_table; c_wheel := demo_new; c_epoll := []; c_closed := [] |};
     ev_sockets := ∅; ev_tasks := [] |}.
Definition demo_accept : accept_answers :=
  {| aa_accept := Some (5, demo_client); aa_epoll_ok := true; aa_alloc := Some 8%N; aa_clock := Some t10 |}.
Definition after (o : outcome event_state) (s : event_state) : event_state := match o with Ret s => s | _ => s end.
Definition demo_accepted : event_state := after (handle_accept_event demo_accept demo_started) demo_started.
Definition demo_watched : server := {| sv_state := demo_accepted; sv_ready := [] |}.
Definition demo_ready : server := {| sv_state := demo_accepted; sv_ready := [5] |}.
Definition demo_answers : client_answers :=
  {| ca_task_alloc := true; ca_malloc := fun _ => true; ca_bind_alloc := Some 9%N; ca_clock := Some t10;
     ca_transfer_alloc := true; ca_add := AddReturns 0 |}.
Definition demo_handled : event_state :=
  after (@handle_client_event false 3 (lit "/srv") (lit "/tmp") demo_answers 5 EPOLLIN demo_accepted) demo_accepted.
Definition demo_reachable : server -> Prop :=
  @reachable false demo_mysql demo_sha256 (fun _ => true) 3 (lit "/srv") (lit "/tmp").

Lemma demo_accepts : handle_accept_event demo_accept demo_started = Ret demo_accepted.
Proof. vm_compute. reflexivity. Qed.
Lemma demo_handles : @handle_client_event false 3 (lit "/srv") (lit "/tmp") demo_answers 5 EPOLLIN demo_accepted = Ret demo_handled.
Proof. vm_compute. reflexivity. Qed.

Lemma demo_watched_reachable : demo_reachable demo_watched.
Proof.
  exists {| sv_state := demo_started; sv_ready := [] |}. split; [by apply (Started _ _ 2 t10) |].
  apply rtc_once. apply (StepAccept _ _ _ _ demo_accept); [| exact demo_accepts].
  split.
  - intros fd k [= <- <-]. split; [done |]. unfold is_fd, int_max. lia.
  - intros p [= <-]. split; [done | reflexivity].
  - intros now [= <-]. unfold good_now. simpl. lia.
Qed.
Lemma demo_ready_reachable : demo_reachable demo_ready.
Proof.
  destruct demo_watched_reachable as (sv0 & Hs & Hrun). exists sv0. split; [done |].
  eapply rtc_r; [exact Hrun |]. apply StepWait; [apply NoDup_singleton |].
  intros fd ->%list_elem_of_singleton. apply (bool_decide_unpack _). vm_compute. exact I.
Qed.
Lemma demo_bind_fresh p : ca_bind_alloc demo_answers = Some p -> fresh_binding (ev_sessions (sv_state demo_ready)) p.
Proof. intros [= <-]. split; [done | vm_compute; reflexivity]. Qed.

Lemma server_ownership_witness :
  exists A D, rep (ev_sessions demo_accepted) A /\ wheel_rep (ev_wheel demo_accepted) D /\ is_Some (D !! 5).
Proof.
  destruct (@server_ownership false demo_mysql demo_sha256 (fun _ => true) 3 (lit "/srv") (lit "/tmp") eq_refl eq_refl
    demo_ready demo_ready_reachable) as (A & D & HA & HD & _ & _ & _ & _ & Hw & _). exists A, D. split; [exact HA |].
  split; [exact HD |]. apply Hw. apply (bool_decide_unpack _). vm_compute. exact I.
Defined.

Lemma event_dispatch_authorized_witness :
  exists w, ev_tasks demo_handled = [w] /\ work_fd w = 5 /\ session_id_is_empty (session_id_of (header (work_packet w))) = true.
Proof.
  assert (Ht : ev_tasks demo_handled = ev_tasks demo_accepted ++ [BasicWork
    {| t_client_fd := 5; t_epoll_fd := 3; t_packet := demo_login_packet; t_session := zero_context;
       t_storage_root := lit "/srv" |}]) by (vm_compute; reflexivity).
  destruct (@event_dispatch_authorized false demo_mysql demo_sha256 (fun _ => true) 3 (lit "/srv") (lit "/tmp") eq_refl eq_refl
    demo_ready 5 [] demo_answers EPOLLIN demo_handled _ demo_ready_reachable eq_refl demo_bind_fresh demo_handles Ht)
    as (Hfd & A & A' & _ & _ & Hg).
  eexists. split; [exact Ht |]. split; [exact Hfd |]. simpl in Hg. apply Hg.
Defined.

Lemma client_event_settles_witness :
  @handle_client_event false 3 (lit "/srv") (lit "/tmp") demo_answers 5 EPOLLHUP demo_accepted <> Undef.
Proof.
  apply (@client_event_settles false demo_mysql demo_sha256 (fun _ => true) 3 (lit "/srv") (lit "/tmp") eq_refl eq_refl
    demo_ready 5 [] demo_answers EPOLLHUP demo_ready_reachable eq_refl demo_bind_fresh).
Defined.

Lemma idle_connections_closed_witness :
  exists s', expire_idle (Some {| tv_sec := 13; tv_nsec := 0 |}) demo_accepted = Ret s' /\ ev_tasks s' = [].
Proof.
  destruct (@idle_connections_closed false demo_mysql demo_sha256 (fun _ => true) 3 (lit "/srv") (lit "/tmp") eq_refl eq_refl
    demo_watched {| tv_sec := 13; tv_nsec := 0 |} demo_watched_reachable eq_refl ltac:(simpl; lia))
    as (s' & A & D & A' & Hs & _ & _ & _ & Ht & _).
  exists s'. split; [exact Hs | exact Ht].
Defined.
