(* ===== verification/ClientTransfer.v ===== *)
(** * Client transfers ([src/client/transfer.c], the transfers themselves)

    A transfer runs on a thread of its own with its own connection: it sends a
    local file to the server ([run_upload]) or fetches a remote one into
    [target_path] by way of [part_path] ([run_download]).  The main thread can
    cancel it at any time. *)

From Stdlib Require Import Strings.Byte.
From S2P Require Import Prelude CString Protocol Utils Files HandlerTransfer.

(** ** Data *)

Inductive transfer_kind := TRANSFER_UPLOAD | TRANSFER_DOWNLOAD.

#[global] Instance transfer_kind_eq_dec : EqDecision transfer_kind.
Proof. solve_decision. Defined.

Inductive transfer_result := TRANSFER_RESULT_OK | TRANSFER_RESULT_FAILED | TRANSFER_RESULT_CANCELED.

(** The fields of [transfer_task_t] that the transfer itself reads *)
Record client_task := {
  k_session_id : session_id;
  k_local_path : list byte;
  k_remote_path : list byte;
  k_target_path : list byte;
  k_part_path : list byte
}.

(** What a transfer reads and changes: its connection, the local files, and the
    flag [canceled], which is set once [cl_cancel] more reads of it have found it
    clear ([None]: never). *)
Record client_state := {
  cl_sock : socket;
  cl_fs : fs;
  cl_cancel : option nat
}.

Definition RESUME_SIZE : Z := 8.

Section transfers.
Context `{Host} `{Sha256} (malloc_ok : Z -> bool).

(** ** Effects *)

Definition cm (A : Type) : Type := client_state -> outcome (A * client_state).
#[global] Instance cm_ret : MRet cm := fun A a s => Ret (a, s).
#[global] Instance cm_bind : MBind cm := fun A B f m s => r ← m s; f (fst r) (snd r).

Definition lift_c {A} (o : outcome A) : cm A := fun s => a ← o; Ret (a, s).
Definition on_conn {A} (m : socket -> outcome (A * socket)) : cm A := fun s =>
  r ← m (cl_sock s); Ret (fst r, {| cl_sock := snd r; cl_fs := cl_fs s; cl_cancel := cl_cancel s |}).
Definition on_files {A} (m : fs -> A * fs) : cm A := fun s =>
  let (a, f) := m (cl_fs s) in Ret (a, {| cl_sock := cl_sock s; cl_fs := f; cl_cancel := cl_cancel s |}).

Definition task_is_canceled : cm bool := fun s =>
  match cl_cancel s with
  | None => Ret (false, s)
  | Some O => Ret (true, s)
  | Some (S n) => Ret (false, {| cl_sock := cl_sock s; cl_fs := cl_fs s; cl_cancel := Some n |})
  end.

Definition c_close : cm unit := on_files (fun f => (tt, close f)).
Definition c_release (p : packet) : cm unit := on_conn (fun s => Ret (tt, snd (packet_release s p))).

(** [copy_string(dst, dst_size, src)]: [None] is -1 *)
Definition copy_string (dst_size : Z) (src : list byte) : option (list byte) :=
  if dst_size <=? Z.of_nat (length src) then None else Some src.

(** ** Packets *)

Definition task_send (task : client_task) (ty : cmd_type) (st : status_code) (pl : option (list byte)) : cm Z :=
  canceled ← task_is_canceled;
  if canceled : bool then mret (-1)
  else
    match packet_init ty st (Some (k_session_id task)) pl
            (match pl with Some l => Z.of_nat (length l) | None => 0 end) with
    | None => mret (-1)
    | Some p => on_conn (fun s => protocol_send_packet s p)
    end.

(** [None] is -1, which leaves nothing to release *)
Definition task_recv (task : client_task) : cm (option packet) :=
  canceled ← task_is_canceled;
  if canceled : bool then mret None
  else
    rp ← on_conn (fun s => '(r, p, s) ← protocol_recv_packet malloc_ok s; Ret ((r, p), s));
    let '(r, p) := rp in
    if negb (r =? 0) then mret None
    else if negb (session_id_equal (session_id_of (header p)) (k_session_id task)) then
      c_release p;;
      task_send task CMD_ERROR STATUS_UNAUTHORIZED None;;
      mret None
    else mret (Some p).

(** The socket of a running transfer is open. *)
Definition task_report_error (task : client_task) (st : status_code) : cm unit :=
  canceled ← task_is_canceled;
  if canceled : bool then mret tt
  else task_send task CMD_ERROR st None;; mret tt.

(** ** Hashes *)

(** The [for] loop of [task_compute_sha256]: [acc] is what the context has been
    fed; [None] is [goto done]. *)
Fixpoint hash_loop (fuel : nat) (o : ofile) (acc : list byte) : cm (option (list byte)) :=
  match fuel with
  | O => lift_c NoReturn
  | S fuel =>
      canceled ← task_is_canceled;
      if canceled : bool then mret None
      else
        ro ← on_files (fun f => let '(r, o, f) := read o (Z.to_nat 65536) f in ((r, o), f));
        let '(r, o) := ro in
        match r with
        | ReadEintr => hash_loop fuel o acc
        | ReadError => mret None
        | ReadBytes [] => mret (Some acc)
        | ReadBytes l =>
            ok ← on_files call;                (* EVP_DigestUpdate *)
            if negb ok then mret None else hash_loop fuel o (acc ++ l)
        end
  end.

(** Enough turns of a loop that reads the rest of the file and meets every
    interruption of the script *)
Definition read_fuel (o : ofile) (f : fs) : nat := S (length (content f (ino o)) + length (io f)).

(** [None] is -1; [Some] is the text left in [output]. *)
Definition task_compute_sha256 (o : ofile) : cm (option (list byte)) :=
  o' ← on_files (lseek o 0);
  match o' with
  | None => mret None
  | Some o =>
      ok ← on_files call;                      (* EVP_MD_CTX_new *)
      if negb ok then mret None
      else
        ok ← on_files call;                    (* EVP_DigestInit_ex *)
        if negb ok then mret None
        else
          fuel ← on_files (fun f => (read_fuel o f, f));
          r ← hash_loop fuel o [];
          match r with
          | None => mret None
          | Some bytes =>
              ok ← on_files call;              (* EVP_DigestFinal_ex *)
              if negb ok then mret None else mret (Some (hex (sha256 bytes)))
          end
  end.

(** ** Uploads *)

(** [while (remaining > 0)]: whether everything was sent *)
Fixpoint send_loop (fuel : nat) (task : client_task) (o : ofile) (remaining : Z) : cm bool :=
  if negb (0 <? remaining) then mret true
  else
    match fuel with
    | O => lift_c NoReturn
    | S fuel =>
        let wanted := if FILE_CHUNK_SIZE <? remaining then FILE_CHUNK_SIZE else remaining in
        canceled ← task_is_canceled;
        if canceled : bool then mret false
        else
          ro ← on_files (fun f => let '(r, o, f) := read o (Z.to_nat wanted) f in ((r, o), f));
          let '(r, o) := ro in
          match r with
          | ReadEintr => send_loop fuel task o remaining
          | ReadError | ReadBytes [] => task_report_error task STATUS_IO_ERROR;; mret false
          | ReadBytes l =>
              r ← task_send task CMD_FILE_DATA STATUS_OK (Some l);
              if negb (r =? 0) then mret false
              else send_loop fuel task o (remaining - Z.of_nat (length l))
          end
    end.

(** The final ACK; the result of [run_upload] *)
Definition await_ack (task : client_task) : cm Z :=
  r ← task_recv task;
  match r with
  | None => mret (-1)
  | Some packet =>
      let ok := bool_decide (type (header packet) = CMD_ACK) && bool_decide (status (header packet) = STATUS_OK) in
      c_release packet;;
      mret (if ok then 0 else -1)
  end.

(** From the answer to the request to the final ACK *)
Definition send_missing (task : client_task) (o : ofile) (file_size : Z) : cm Z :=
  r ← task_recv task;
  match r with
  | None => mret (-1)
  | Some packet =>
      if bool_decide (type (header packet) <> CMD_PUTS_RESP) || bool_decide (status (header packet) <> STATUS_OK) ||
         negb (payload_len (header packet) =? RESUME_SIZE)
      then c_release packet;; mret (-1)
      else
        bytes ← lift_c (deref (payload packet));
        c_release packet;;
        let offset := net_to_host_u64 (of_mem (take 8 bytes)) in
        if file_size <? offset then task_report_error task STATUS_PROTOCOL_ERROR;; mret (-1)
        else if offset =? file_size then await_ack task
        else
          o' ← on_files (lseek o offset);
          match o' with
          | None => task_report_error task STATUS_IO_ERROR;; mret (-1)
          | Some o =>
              fuel ← on_files (fun f => (read_fuel o f, f));
              sent_all ← send_loop fuel task o (file_size - offset);
              if negb sent_all then mret (-1)
              else
                r ← task_send task CMD_FILE_END STATUS_OK None;
                if negb (r =? 0) then mret (-1) else await_ack task
          end
  end.

(** A path that names no regular file fails to open (the source opens it and then
    refuses it with [S_ISREG]). *)
Definition run_upload (task : client_task) : cm Z :=
  o ← on_files (open_read (k_local_path task));
  match o with
  | None => mret (-1)
  | Some o =>
      size ← on_files (fstat_size o);
      result ← (match size with
                | None => mret (-1)
                | Some file_size =>
                    match copy_string PATH_MAX (k_remote_path task) with
                    | None => mret (-1)
                    | Some remote_path =>
                        h ← task_compute_sha256 o;
                        match h with
                        | None => mret (-1)
                        | Some sha256_hex =>
                            o' ← on_files (lseek o 0);
                            match o' with
                            | None => mret (-1)
                            | Some o =>
                                r ← task_send task CMD_PUTS_REQ STATUS_OK
                                      (Some (upload_request_payload remote_path file_size sha256_hex));
                                if negb (r =? 0) then mret (-1) else send_missing task o file_size
                            end
                        end
                    end
                end);
      c_close;;
      mret result
  end.

(** ** Downloads *)

Definition hash_matches (o : ofile) (size : Z) (expected : list byte) : cm bool :=
  st_size ← on_files (fstat_size o);
  match st_size with
  | None => mret false
  | Some n =>
      if negb (n =? size) then mret false
      else
        h ← task_compute_sha256 o;
        match h with
        | None => mret false
        | Some actual => mret (strcaseeq actual expected)
        end
  end.

(** The target, when it is already what the server has *)
Definition probe_target (task : client_task) (file_size : Z) (sha256_hex : list byte) : cm (option ofile) :=
  o ← on_files (open_read (k_target_path task));
  match o with
  | None => mret None
  | Some o =>
      ok ← hash_matches o file_size sha256_hex;
      if ok : bool then mret (Some o) else c_close;; mret None
  end.

(** The part file and where to continue it; [None] when the transfer has failed,
    with no file left open *)
Definition open_part (task : client_task) (file_size : Z) : cm (option (ofile * Z)) :=
  o ← on_files (open_create (k_part_path task));
  match o with
  | None => task_report_error task STATUS_IO_ERROR;; mret None
  | Some o =>
      st_size ← on_files (fstat_size o);
      match st_size with
      | None => task_report_error task STATUS_IO_ERROR;; c_close;; mret None
      | Some n =>
          offset ← (if file_size <? n then
                      ok ← on_files (ftruncate0 o); mret (if ok : bool then Some 0 else None)
                    else mret (Some n));
          match offset with
          | None => task_report_error task STATUS_IO_ERROR;; c_close;; mret None
          | Some offset =>
              o' ← on_files (lseek o offset);
              match o' with
              | None => task_report_error task STATUS_IO_ERROR;; c_close;; mret None
              | Some o => mret (Some (o, offset))
              end
          end
      end
  end.

(** Where a download starts: [use_final], the file and the offset *)
Definition open_target (task : client_task) (file_size : Z) (sha256_hex : list byte)
    : cm (option (bool * ofile * Z)) :=
  final ← probe_target task file_size sha256_hex;
  match final with
  | Some o => mret (Some (true, o, file_size))
  | None =>
      part ← open_part task file_size;
      match part with
      | None => mret None
      | Some (o, offset) => mret (Some (false, o, offset))
      end
  end.

(** [while (received < file_size - offset)]: the file when everything has been
    written *)
Fixpoint fetch_loop (fuel : nat) (task : client_task) (o : ofile) (received expected : Z) : cm (option ofile) :=
  if negb (received <? expected) then mret (Some o)
  else
    match fuel with
    | O => lift_c NoReturn
    | S fuel =>
        let remaining := expected - received in
        canceled ← task_is_canceled;
        if canceled : bool then mret None
        else
          r ← task_recv task;
          match r with
          | None => mret None
          | Some packet =>
              let len := payload_len (header packet) in
              if bool_decide (type (header packet) <> CMD_FILE_DATA) || bool_decide (status (header packet) <> STATUS_OK) ||
                 (len =? 0) || (FILE_CHUNK_SIZE <? len) || (remaining <? len)
              then c_release packet;; task_report_error task STATUS_PROTOCOL_ERROR;; mret None
              else
                bytes ← lift_c (deref (payload packet));
                wo ← on_files (fun f => let '(r, o, f) := write_n o (take (Z.to_nat len) bytes) f in ((r, o), f));
                let '(w, o) := wo in
                if negb (w =? 0) then c_release packet;; task_report_error task STATUS_IO_ERROR;; mret None
                else c_release packet;; fetch_loop fuel task o (received + len) expected
          end
    end.

(** After [CMD_FILE_END]: verify, rename and acknowledge; the file is closed. *)
Definition finish_download (task : client_task) (use_final : bool) (o : ofile) (file_size : Z)
    (sha256_hex : list byte) : cm Z :=
  in_place ← (if use_final then mret true
              else
                ok ← on_files call;            (* fsync *)
                matches ← (if negb ok then mret false else hash_matches o file_size sha256_hex);
                if negb matches then task_report_error task STATUS_PROTOCOL_ERROR;; c_close;; mret false
                else
                  c_close;;
                  r ← on_files (rename (k_part_path task) (k_target_path task));
                  match r with
                  | None => mret true
                  | Some _ => task_report_error task STATUS_IO_ERROR;; mret false
                  end);
  if negb in_place then mret (-1)
  else
    r ← task_send task CMD_ACK STATUS_OK None;
    (if use_final then c_close else mret tt);;
    mret (if r =? 0 then 0 else -1).

(** The [CMD_FILE_END] that follows the content *)
Definition await_end (task : client_task) : cm bool :=
  r ← task_recv task;
  match r with
  | None => mret false
  | Some packet =>
      if bool_decide (type (header packet) <> CMD_FILE_END) || bool_decide (status (header packet) <> STATUS_OK) ||
         negb (payload_len (header packet) =? 0)
      then c_release packet;; task_report_error task STATUS_PROTOCOL_ERROR;; mret false
      else c_release packet;; mret true
  end.

(** From the metadata of the file to the acknowledgement *)
Definition fetch_file (task : client_task) (file_size : Z) (sha256_hex : list byte) : cm Z :=
  start ← open_target task file_size sha256_hex;
  match start with
  | None => mret (-1)
  | Some (use_final, o, offset) =>
      r ← task_send task CMD_RESUME_POS STATUS_OK (Some (resume_payload offset));
      if negb (r =? 0) then c_close;; mret (-1)
      else
        o' ← fetch_loop (Z.to_nat (file_size - offset)) task o 0 (file_size - offset);
        match o' with
        | None => c_close;; mret (-1)
        | Some o =>
            ended ← await_end task;
            if negb ended then c_close;; mret (-1)
            else finish_download task use_final o file_size sha256_hex
        end
  end.

Definition run_download (task : client_task) : cm Z :=
  r ← task_send task CMD_GETS_REQ STATUS_OK (Some (k_remote_path task));
  if negb (r =? 0) then mret (-1)
  else
    r ← task_recv task;
    match r with
    | None => mret (-1)
    | Some packet =>
        if bool_decide (type (header packet) <> CMD_GETS_RESP) || bool_decide (status (header packet) <> STATUS_OK) ||
           negb (payload_len (header packet) =? FILE_INFO_SIZE)
        then c_release packet;; mret (-1)
        else
          info ← lift_c (deref (payload packet));
          c_release packet;;
          let file_size := net_to_host_u64 (of_mem (take 8 (drop 256 info))) in
          let sha256_hex := cstr (take 64 (drop 264 info)) in
          if negb (utils_is_valid_sha256_hex sha256_hex)
          then task_report_error task STATUS_PROTOCOL_ERROR;; mret (-1)
          else fetch_file task file_size sha256_hex
    end.

End transfers.
