(* ===== verification/ClientTransferSpec.v ===== *)
(** * Properties of client transfers

    A downloaded file is put in place only after its size and hash have been
    checked, whatever server and kernel do; and the complete courses of an upload
    and of a download against the server of [HandlerTransfer.v]. *)

From Stdlib Require Import Strings.Byte.
From S2P Require Import Prelude CString Protocol Utils Heap Session Database DatabasePool Dao Tables DatabaseDemo DaoSpec.
From S2P Require Import HandlerBasic HandlerBasicSpec Files HandlerTransfer HandlerTransferSpec HandlerTransferFlow ClientTransfer.

Section rules.
Context `{Host} `{Sha256}.

(** ** Reasoning about client programs

    The program does not fail; if it returns, [Q] holds; and when [total] it does
    return. *)
Definition cwp (total : bool) {X} (m : cm X) (Q : X -> client_state -> Prop) (s : client_state) : Prop :=
  match m s with Ret (a, s') => Q a s' | Undef => False | NoReturn => total = false end.

Lemma cwp_ret total {X} (a : X) (Q : X -> client_state -> Prop) s : Q a s -> cwp total (mret a) Q s.
Proof. done. Qed.
Lemma cwp_bind total {X Y} (m : cm X) (f : X -> cm Y) Q s :
  cwp total m (fun a s' => cwp total (f a) Q s') s -> cwp total (m ≫= f) Q s.
Proof. unfold cwp, mbind, cm_bind. by destruct (m s) as [[a s'] | |]. Qed.
Lemma cwp_mono total {X} (m : cm X) (Q Q' : X -> client_state -> Prop) s :
  cwp total m Q s -> (forall a s', Q a s' -> Q' a s') -> cwp total m Q' s.
Proof. unfold cwp. destruct (m s) as [[a s'] | |]; auto. Qed.
Lemma cwp_lift total {X} (o : outcome X) a (Q : X -> client_state -> Prop) s : o = Ret a -> Q a s -> cwp total (lift_c o) Q s.
Proof. by intros ->. Qed.
Lemma cwp_files total {X} (m : fs -> X * fs) (Q : X -> client_state -> Prop) s :
  (forall a f', m (cl_fs s) = (a, f') -> Q a {| cl_sock := cl_sock s; cl_fs := f'; cl_cancel := cl_cancel s |}) ->
  cwp total (on_files m) Q s.
Proof. intros HQ. unfold cwp, on_files. destruct (m (cl_fs s)) as [a f'] eqn:E. by apply HQ. Qed.

(** ** What every transfer keeps

    [F] holds of the files and [b] payload buffers are allocated. *)
Definition at_client (F : fs -> Prop) (b : Z) (s : client_state) : Prop := F (cl_fs s) /\ buffers (cl_sock s) = b.

Lemma cwp_canceled total F b (Q : bool -> client_state -> Prop) s :
  at_client F b s -> (forall c s', at_client F b s' -> Q c s') -> cwp total task_is_canceled Q s.
Proof.
  intros [HF Hb] HQ. unfold cwp, task_is_canceled. destruct (cl_cancel s) as [[| n] |]; by apply HQ.
Qed.

(** The session of the task is a session id. *)
Context (task : client_task) (Hsid : session_id_wf (k_session_id task)).

Lemma cwp_send_any ty st pl F b (Q : Z -> client_state -> Prop) s :
  cmd_wf ty -> status_wf st -> at_client F b s -> (forall r s', at_client F b s' -> Q r s') ->
  cwp false (task_send task ty st pl) Q s.
Proof.
  intros Hty Hst Hat HQ. unfold task_send. apply cwp_bind. eapply cwp_canceled; [done |].
  intros c s1 [HF Hb]. destruct c; [by apply cwp_ret, HQ |]. unfold packet_init.
  destruct ((MAX_PACKET_PAYLOAD <? _) || _) eqn:E; [by apply cwp_ret, HQ |].
  set (p := Build_packet _ _ _). pose proof (send_packet_defined (cl_sock s1) p) as Hd.
  unfold cwp, on_conn. destruct (protocol_send_packet (cl_sock s1) p) as [[r k] | |] eqn:Es; cbn [mbind outcome_bind].
  - apply HQ. split; [done |]. simpl. apply send_packet_frame in Es as [_ ->]. done.
  - apply Hd; [| done]. unfold p. apply orb_false_elim in E as [E _]. zbool.
    split; [split_and! |]; simpl; try done; destruct pl; simpl in *; lia.
  - done.
Qed.

Lemma cwp_report st F b (Q : unit -> client_state -> Prop) s :
  status_wf st -> at_client F b s -> (forall s', at_client F b s' -> Q tt s') -> cwp false (task_report_error task st) Q s.
Proof.
  intros Hst Hat HQ. unfold task_report_error. apply cwp_bind. eapply cwp_canceled; [done |]. intros c s1 H1.
  destruct c; [by apply cwp_ret, HQ |]. apply cwp_bind. eapply cwp_send_any; [done | done | done |].
  intros r s2 H2. by apply cwp_ret, HQ.
Qed.

Lemma cwp_release total p F b (Q : unit -> client_state -> Prop) s :
  at_client F (b + held p) s -> (forall s', at_client F b s' -> Q tt s') -> cwp total (c_release p) Q s.
Proof.
  intros [HF Hb] HQ. apply HQ. unfold at_client, held in *. simpl. split; [done |].
  destruct (owns_payload p); simpl; lia.
Qed.

Lemma cwp_recv_any malloc_ok F b (Q : option packet -> client_state -> Prop) s :
  at_client F b s -> (forall s', at_client F b s' -> Q None s') ->
  (forall p s', packet_wf p -> at_client F (b + held p) s' -> Q (Some p) s') ->
  cwp false (task_recv malloc_ok task) Q s.
Proof.
  intros Hat HN HS. unfold task_recv. apply cwp_bind. eapply cwp_canceled; [done |]. intros c s1 [HF Hb].
  destruct c; [by apply cwp_ret, HN |]. apply cwp_bind. unfold cwp at 1, on_conn.
  destruct (recv_packet_cases malloc_ok (cl_sock s1)) as [Hu Hr].
  destruct (protocol_recv_packet malloc_ok (cl_sock s1)) as [[[r p] k] | |]; cbn [mbind outcome_bind fst snd]; [| done | done].
  destruct (Hr _ _ _ eq_refl) as (_ & [(-> & Hwf & _ & Hbuf) | (-> & _ & Hbuf)]); cbn [Z.eqb negb].
  - assert (Hat2 : at_client F (b + held p) {| cl_sock := k; cl_fs := cl_fs s1; cl_cancel := cl_cancel s1 |}).
    { unfold at_client, held. simpl. split; [done | lia]. }
    destruct (session_id_equal _ _); cbn [negb]; [by apply cwp_ret, HS |].
    apply cwp_bind. eapply cwp_release; [exact Hat2 |]. intros s2 H2. apply cwp_bind.
    eapply cwp_send_any; [enum_wf | enum_wf | done |]. intros r s3 H3. by apply cwp_ret, HN.
  - apply cwp_ret, HN. unfold at_client. simpl. split; [done | lia].
Qed.

(** A call on the files *)
Lemma cwp_files_any total {X} (m : fs -> X * fs) (F : fs -> Prop) (G : X -> fs -> Prop) b (Q : X -> client_state -> Prop) s :
  at_client F b s -> (forall f a f', F f -> m f = (a, f') -> G a f') ->
  (forall a s', at_client (G a) b s' -> Q a s') -> cwp total (on_files m) Q s.
Proof. intros [HF Hb] Hm HQ. apply cwp_files. intros a f' E. apply HQ. split; [by eapply Hm | done]. Qed.

(** *** Hashing *)

(** Calls that only read do not disturb [F]. *)
Definition stable (F : fs -> Prop) : Prop := forall f f', same_files f f' -> F f -> F f'.
Definition reads (F : fs -> Prop) (o : ofile) (l : list byte) (f : fs) : Prop := F f /\ content f (ino o) = l.

Lemma reads_stable F o l : stable F -> stable (reads F o l).
Proof. intros HF f f' Hs [H1 H2]. split; [by eapply HF | by rewrite (content_same _ _ _ Hs)]. Qed.

Lemma cwp_call F b (Q : bool -> client_state -> Prop) s :
  stable F -> at_client F b s -> (forall ok s', at_client F b s' -> Q ok s') -> cwp false (on_files call) Q s.
Proof.
  intros HF Hat HQ. eapply (cwp_files_any _ _ F (fun _ => F)); [done | | done].
  intros f a f' Hf Hc. eapply HF; [by eapply call_same | done].
Qed.

Lemma cwp_seek F b o off (Q : option ofile -> client_state -> Prop) s :
  stable F -> at_client F b s -> (forall s', at_client F b s' -> Q None s') ->
  (forall s', at_client F b s' -> Q (Some {| ino := ino o; pos := Z.to_nat off |}) s') -> cwp false (on_files (lseek o off)) Q s.
Proof.
  intros HF Hat HN HS. apply (cwp_files_any _ _ F (fun r f => F f /\ (r = None \/ r = Some {| ino := ino o; pos := Z.to_nat off |})) b); [done | |].
  - intros f a f' Hf. unfold lseek. destruct (call f) as [ok f1] eqn:E. apply call_same in E.
    destruct (ok && _); intros [= <- <-]; (split; [by eapply HF |]); [by right | by left].
  - intros a s' [[H1 [-> | ->]] H2]; [by apply HN | by apply HS].
Qed.

Lemma cwp_size F b o l (Q : option Z -> client_state -> Prop) s :
  stable F -> at_client (reads F o l) b s -> (forall s', at_client (reads F o l) b s' -> Q None s') ->
  (forall s', at_client (reads F o l) b s' -> Q (Some (Z.of_nat (length l))) s') -> cwp false (on_files (fstat_size o)) Q s.
Proof.
  intros HF Hat HN HS. apply (cwp_files_any _ _ (reads F o l) (fun r f => reads F o l f /\ (r = None \/ r = Some (Z.of_nat (length l)))) b); [done | |].
  - intros f a f' Hf. unfold fstat_size. destruct (call f) as [ok f1] eqn:E. apply call_same in E. intros [= <- <-].
    assert (Hf1 : reads F o l f1) by (by eapply reads_stable). split; [done |].
    destruct ok; [right | by left]. by rewrite (proj2 Hf1).
  - intros a s' [[H1 [-> | ->]] H2]; [by apply HN | by apply HS].
Qed.

Lemma hash_loop_any F b l : stable F -> forall fuel o acc s,
  at_client (reads F o l) b s ->
  cwp false (hash_loop fuel o acc)
    (fun r s' => at_client (reads F o l) b s' /\ forall bytes, r = Some bytes -> bytes = acc ++ drop (pos o) l) s.
Proof.
  intros HF. induction fuel as [| fuel IH]; intros o acc s Hat; [done |]. cbn [hash_loop].
  apply cwp_bind. eapply cwp_canceled; [exact Hat |]. intros c s1 H1. destruct c; [by apply cwp_ret |].
  apply cwp_bind. eapply (cwp_files_any _ _ _ (fun ro f => reads F o l f /\ ino (snd ro) = ino o /\
    match fst ro with
    | ReadBytes x => x = take (length x) (drop (pos o) l) /\ pos (snd ro) = (pos o + length x)%nat /\ (x = [] -> drop (pos o) l = [])
    | _ => snd ro = o
    end)); [exact H1 | |].
  { intros f [r o'] f' Hf. destruct (read o (Z.to_nat 65536) f) as [[r1 o1] f1] eqn:E. intros [= <- <- <-].
    destruct (read_cases _ _ _ _ _ _ E) as (Hs & Hi & Hr); [lia |].
    split_and!; [by eapply reads_stable | done |]. destruct Hf as [_ <-]. simpl.
    destruct r1; naive_solver. }
  intros [r o1] s2 [(Hf & Hi & Hr) Hb]. cbn [fst snd] in *.
  assert (Hat1 : at_client (reads F o1 l) b s2) by (split; [split; [apply Hf | rewrite Hi; apply Hf] | done]).
  assert (Hback : forall s, at_client (reads F o1 l) b s -> at_client (reads F o l) b s).
  { intros s3 [[HF3 Hc3] Hb3]. split; [split; [done | by rewrite <- Hi] | done]. }
  destruct r as [[| x xs] | |].
  - apply cwp_ret. split; [by apply Hback |]. intros bytes [= <-]. destruct Hr as (_ & _ & ->); [by rewrite app_nil_r | done].
  - destruct Hr as (Hx & Hp & _). apply cwp_bind. eapply (cwp_call (reads F o1 l)); [by apply reads_stable | exact Hat1 |].
    intros ok s3 H3. destruct (negb ok); [apply cwp_ret; split; [by apply Hback | done] |].
    eapply cwp_mono; [by apply IH |]. intros r s4 [H4 H5]. split; [by apply Hback |].
    intros bytes Hbytes. rewrite (H5 _ Hbytes), Hp, <- app_assoc. f_equal. by apply eq_sym, skip_prefix.
  - subst o1. by apply IH.
  - apply cwp_ret. split; [by apply Hback | done].
Qed.

Lemma compute_sha256_any F b o l s :
  stable F -> at_client (reads F o l) b s ->
  cwp false (task_compute_sha256 o)
    (fun r s' => at_client (reads F o l) b s' /\ forall h, r = Some h -> h = hex (sha256 l)) s.
Proof.
  intros HF Hat. unfold task_compute_sha256. pose proof (reads_stable F o l HF) as HR.
  apply cwp_bind. eapply (cwp_seek (reads F o l)); [done | done | intros; by apply cwp_ret |]. intros s1 H1.
  apply cwp_bind. eapply cwp_call; [exact HR | done |]. intros ok s2 H2. destruct (negb ok); [by apply cwp_ret |].
  apply cwp_bind. eapply cwp_call; [exact HR | done |]. intros ok3 s3 H3. destruct (negb ok3); [by apply cwp_ret |].
  apply cwp_bind. apply cwp_files. intros fuel f' [= <- <-].
  apply cwp_bind. eapply cwp_mono; [apply (hash_loop_any F b l HF); exact H3 |]. intros r s4 [H4 Hr].
  destruct r as [bytes |]; [| by apply cwp_ret]. apply cwp_bind. eapply cwp_call; [exact HR | exact H4 |].
  intros ok5 s5 H5. destruct (negb ok5); [by apply cwp_ret |]. apply cwp_ret. split; [done |].
  intros h [= <-]. by rewrite (Hr _ eq_refl).
Qed.

(** The file at hand is the announced one. *)
Definition verified (size : Z) (expected l : list byte) : Prop :=
  Z.of_nat (length l) = size /\ strcaseeq (hex (sha256 l)) expected = true.

Lemma hash_matches_any F b o l size expected s :
  stable F -> at_client (reads F o l) b s ->
  cwp false (hash_matches o size expected)
    (fun r s' => at_client (reads F o l) b s' /\ (r = true -> verified size expected l)) s.
Proof.
  intros HF Hat. unfold hash_matches. apply cwp_bind. eapply cwp_size; [done | exact Hat | intros; by apply cwp_ret |].
  intros s1 H1. destruct (Z.of_nat (length l) =? size) eqn:E; cbn [negb]; [| by apply cwp_ret].
  apply cwp_bind. eapply cwp_mono; [by apply compute_sha256_any |]. intros [h |] s2 [H2 Hh]; [| by apply cwp_ret].
  apply cwp_ret. split; [done |]. intros He. rewrite (Hh _ eq_refl) in He. zbool. done.
Qed.
End rules.

(** ** Integrity of downloads *)

(** No file has two names, and every name has a file. *)
Definition names_ok (f : fs) : Prop :=
  (forall p q i, dir f !! p = Some i -> dir f !! q = Some i -> p = q) /\
  (forall p i, dir f !! p = Some i -> is_Some (data f !! i)).

Section integrity.
Context `{Host} `{Sha256} (malloc_ok : Z -> bool).
Context (task : client_task) (Hsid : session_id_wf (k_session_id task)).
Context (size : Z) (expected : list byte).
Notation part := (k_part_path task).
Notation target := (k_target_path task).
Context (Hne : part <> target).
Context (f0 : fs) (b : Z).

(** The file named [q] is the one it was at the start. *)
Definition unchanged (q : list byte) (f : fs) : Prop :=
  dir f !! q = dir f0 !! q /\ forall i, dir f0 !! q = Some i -> content f i = content f0 i.
Definition kept (f : fs) : Prop := names_ok f /\ forall q, q <> part -> unchanged q f.
(** The target holds what was announced. *)
Definition placed (f : fs) : Prop := exists i, dir f !! target = Some i /\ verified size expected (content f i).

Definition with_part (o : ofile) (f : fs) : Prop := kept f /\ opened f = opened f0 + 1 /\ dir f !! part = Some (ino o).
Definition with_final (o : ofile) (f : fs) : Prop := kept f /\ opened f = opened f0 + 1 /\ placed f.
Definition resting (f : fs) : Prop := kept f /\ opened f = opened f0.

(** What a download leaves *)
Definition downloaded (r : Z) (f : fs) : Prop :=
  opened f = opened f0 /\ names_ok f /\ (forall q, q <> part -> q <> target -> unchanged q f) /\
  (unchanged target f \/ placed f) /\ (r = 0 -> placed f).

Lemma kept_stable : stable kept.
Proof. intros f f' [l ->] [[H1 H2] H3]. done. Qed.
Lemma with_part_stable o : stable (with_part o).
Proof. intros f f' Hs (H1 & H2 & H3). split; [by eapply kept_stable |]. by destruct Hs as [l ->]. Qed.
Lemma with_final_stable o : stable (with_final o).
Proof. intros f f' Hs (H1 & H2 & H3). split; [by eapply kept_stable |]. by destruct Hs as [l ->]. Qed.
Lemma resting_stable : stable resting.
Proof. intros f f' Hs (H1 & H2). split; [by eapply kept_stable |]. by destruct Hs as [l ->]. Qed.

Lemma rest_downloaded f : resting f -> downloaded (-1) f.
Proof. intros [[Hn Hk] Ho]. split_and!; [done | done | auto | left; auto | done]. Qed.

(** Changing the content of the part file *)
Lemma kept_change f f' i :
  kept f -> dir f !! part = Some i -> dir f' = dir f -> (forall j, j <> i -> data f' !! j = data f !! j) ->
  is_Some (data f' !! i) -> kept f'.
Proof.
  intros [[Hinj Hlive] Hk] Hi Hd Hoth Hsome. split; [split; rewrite Hd |].
  - done.
  - intros p j Hp. destruct (decide (j = i)) as [-> | Hj]; [done |]. rewrite Hoth by done. by eapply Hlive.
  - intros q Hq. destruct (Hk q Hq) as [H1 H2]. split; [by rewrite Hd |]. intros j Hj. rewrite <- (H2 j Hj).
    unfold content. rewrite Hoth; [done |]. intros ->. apply Hq. eapply Hinj; [| exact Hi]. by rewrite H1.
Qed.

Lemma write_with_part o l f r o' f' : with_part o f -> write_n o l f = (r, o', f') -> with_part o' f'.
Proof.
  intros (Hk & Ho & Hd) Hw. destruct (write_n_spec _ _ _ _ _ _ Hw) as (w & rest & -> & [Ho' Hd' Hop Hc Hdom Hoth] & _).
  subst o'. unfold with_part. simpl. rewrite Hop, Hd'. split_and!; [| done | done].
  pose proof Hk as [[_ Hlive] _]. specialize (Hlive _ _ Hd). eapply kept_change; [exact Hk | exact Hd | done | done |].
  apply elem_of_dom. rewrite (Hdom Hlive). by apply elem_of_dom.
Qed.

Lemma truncate_with_part o f ok f' : with_part o f -> ftruncate0 o f = (ok, f') -> with_part o f'.
Proof.
  intros Hp. unfold ftruncate0. destruct (call f) as [c f1] eqn:E. apply call_same in E.
  assert (Hp1 : with_part o f1) by (by eapply with_part_stable). destruct c; intros [= <- <-]; [| done].
  destruct Hp1 as (Hk & Ho & Hd). split_and!; [| done | done].
  eapply kept_change; [exact Hk | exact Hd | done | |]; simpl; [intros j Hj; by rewrite lookup_insert_ne |].
  rewrite lookup_insert_eq. eauto.
Qed.

Lemma create_with_part f r f' : resting f -> open_create part f = (r, f') ->
  match r with None => resting f' | Some o => with_part o f' end.
Proof.
  intros Hr. unfold open_create. destruct (next_answer f) as [a f1] eqn:E. apply next_answer_same in E.
  assert (Hr1 : resting f1) by (by eapply resting_stable). destruct (answer_ok a); [| by intros [= <- <-]].
  destruct Hr1 as [[[Hinj Hlive] Hk] Ho].
  destruct (dir f1 !! part) as [i |] eqn:Ed; intros [= <- <-].
  - split_and!; [done | simpl; lia | done].
  - set (i := fresh (dom (data f1))).
    assert (Hi : data f1 !! i = None) by (apply not_elem_of_dom, is_fresh). clearbody i.
    assert (Hnew : forall p, dir f1 !! p <> Some i).
    { intros p Hp. apply Hlive in Hp as [? ?]. congruence. }
    split_and!; [| simpl; lia | simpl; by rewrite lookup_insert_eq]. split; [split; simpl |].
    + intros p q j Hp Hq. apply lookup_insert_Some in Hp as [[<- <-] | [? Hp]], Hq as [[<- ?] | [? Hq]]; try done.
      * by apply Hnew in Hq.
      * subst. by apply Hnew in Hp.
      * by eapply Hinj.
    + intros p j Hp. destruct (decide (j = i)) as [-> | Hj]; [rewrite lookup_insert_eq; eauto |].
      rewrite lookup_insert_ne by done. apply lookup_insert_Some in Hp as [[_ <-] | [_ Hp]]; [done | by eapply Hlive].
    + intros q Hq. destruct (Hk q Hq) as [H1 H2]. split; simpl; [by rewrite lookup_insert_ne |].
      intros j Hj. rewrite <- (H2 j Hj). unfold content. simpl. rewrite lookup_insert_ne; [done |].
      intros <-. apply (Hnew q). by rewrite H1.
Qed.

Lemma open_with_target f r f' : resting f -> open_read target f = (r, f') ->
  match r with
  | None => resting f'
  | Some o => kept f' /\ opened f' = opened f0 + 1 /\ dir f' !! target = Some (ino o)
  end.
Proof.
  intros Hr. unfold open_read. destruct (next_answer f) as [a f1] eqn:E. apply next_answer_same in E.
  assert (Hr1 : resting f1) by (by eapply resting_stable). destruct (answer_ok a); [| by intros [= <- <-]].
  destruct Hr1 as [Hk Ho]. destruct (dir f1 !! target) as [i |] eqn:Ed; intros [= <- <-]; [| done].
  split_and!; [done | simpl; lia | done].
Qed.

(** The rename that puts the verified file in place *)
Lemma rename_downloaded o f r f' :
  kept f -> opened f = opened f0 -> dir f !! part = Some (ino o) -> verified size expected (content f (ino o)) ->
  rename part target f = (r, f') ->
  match r with None => downloaded 0 f' | Some _ => resting f' end.
Proof.
  intros Hk Ho Hd Hv. unfold rename. destruct (next_answer f) as [a f1] eqn:E. destruct (next_answer_same _ _ _ E) as [l ->].
  cbn [dir set_io]. destruct (answer_ok a); [| intros [= <- <-]; split; [by eapply kept_stable; [eexists |] | done]].
  rewrite Hd. intros [= <- <-]. destruct Hk as [[Hinj Hlive] Hk].
  assert (Hp : placed (set_dir (set_io f l) (<[target := ino o]> (delete part (dir f))))).
  { exists (ino o). split; [simpl; by rewrite lookup_insert_eq | exact Hv]. }
  split_and!; [done | split; simpl | | by right | done].
  - intros p q j Hp1 Hq1. rewrite lookup_insert_Some, lookup_delete_Some in Hp1, Hq1. naive_solver.
  - intros p j. rewrite lookup_insert_Some, lookup_delete_Some. naive_solver.
  - intros q Hq1 Hq2. destruct (Hk q Hq1) as [H1 H2]. split; simpl; [by rewrite lookup_insert_ne, lookup_delete_ne | exact H2].
Qed.

(** *** Programs *)

Lemma cwp_close_any (F G : fs -> Prop) (Q : unit -> client_state -> Prop) s :
  at_client F b s -> (forall f, F f -> G (close f)) -> (forall s', at_client G b s' -> Q tt s') -> cwp false c_close Q s.
Proof.
  intros Hat HFG HQ. eapply (cwp_files_any _ _ F (fun _ => G)); [done | intros f a f' Hf [= <- <-]; by apply HFG |].
  intros [] s' Hs'. by apply HQ.
Qed.

Lemma close_part o f : with_part o f -> resting (close f).
Proof. intros (Hk & Ho & _). split; [done | simpl; lia]. Qed.
Lemma close_final o f : with_final o f -> resting (close f) /\ placed (close f).
Proof. intros (Hk & Ho & Hp). split; [split; [done | simpl; lia] | done]. Qed.

(** The end of a transfer that fails with the part file open *)
Lemma fail_closed o (F : fs -> Prop) s :
  (forall f, F f -> with_part o f \/ with_final o f) -> at_client F b s ->
  cwp false (c_close;; mret (-1)) (fun r => at_client (downloaded r) b) s.
Proof.
  intros HF Hat. apply cwp_bind. apply (cwp_close_any F resting); [done | |].
  - intros f Hf. destruct (HF f Hf) as [Hp | Hp]; [by eapply close_part | by eapply close_final].
  - intros s' [Hr Hb]. apply cwp_ret. split; [by apply rest_downloaded | done].
Qed.

Lemma fetch_loop_part fuel : forall o received total s,
  at_client (with_part o) b s ->
  cwp false (fetch_loop malloc_ok fuel task o received total)
    (fun r => match r with Some o' => at_client (with_part o') b | None => at_client (fun f => exists o', with_part o' f) b end) s.
Proof.
  assert (Hdrop : forall o s, at_client (with_part o) b s -> at_client (fun f => exists o', with_part o' f) b s).
  { intros o s [Hp Hb]. split; [by exists o | done]. }
  induction fuel as [| fuel IH]; intros o received total s Hat; cbn [fetch_loop];
    (destruct (received <? total); cbn [negb]; [| by apply cwp_ret]); [done |].
  apply cwp_bind. eapply cwp_canceled; [exact Hat |]. intros c s1 H1. destruct c; [by eapply cwp_ret, Hdrop |].
  apply cwp_bind. eapply cwp_recv_any; [done | exact H1 | intros s2 H2; by eapply cwp_ret, Hdrop |].
  intros p s2 [Hwf Hpl] H2. destruct (_ || _ || _ || _ || _) eqn:Eg.
  - apply cwp_bind. eapply cwp_release; [exact H2 |]. intros s3 H3. apply cwp_bind.
    eapply cwp_report; [done | enum_wf | exact H3 |]. intros s4 H4. by eapply cwp_ret, Hdrop.
  - assert (exists bytes, payload p = Some bytes) as [bytes Hbytes].
    { destruct (payload p); [eauto |]. zbool. lia. }
    apply cwp_bind. eapply cwp_lift; [by rewrite Hbytes |]. apply cwp_bind.
    eapply (cwp_files_any _ _ _ (fun wo f => with_part (snd wo) f)); [exact H2 | |].
    { intros f [w o1] f' Hf. destruct (write_n o _ f) as [[w1 o2] f2] eqn:E. intros [= <- <- <-]. by eapply write_with_part. }
    intros [w o1] s3 H3. cbn [snd] in H3. destruct (negb (w =? 0)); apply cwp_bind; (eapply cwp_release; [exact H3 |]); intros s4 H4.
    + apply cwp_bind. eapply cwp_report; [done | enum_wf | exact H4 |]. intros s5 H5. by eapply cwp_ret, Hdrop.
    + by apply IH.
Qed.

Lemma await_end_any F s :
  at_client F b s -> cwp false (await_end malloc_ok task) (fun _ => at_client F b) s.
Proof.
  intros Hat. unfold await_end. apply cwp_bind. eapply cwp_recv_any; [done | exact Hat | intros; by apply cwp_ret |].
  intros p s1 Hwf H1. destruct (_ || _ || _); apply cwp_bind; (eapply cwp_release; [exact H1 |]); intros s2 H2.
  - apply cwp_bind. eapply cwp_report; [done | enum_wf | exact H2 |]. intros s3 H3. by apply cwp_ret.
  - by apply cwp_ret.
Qed.

(** The target is open, whatever it holds. *)
Definition with_target (o : ofile) (f : fs) : Prop :=
  kept f /\ opened f = opened f0 + 1 /\ dir f !! target = Some (ino o).
Lemma with_target_stable o : stable (with_target o).
Proof. intros f f' Hs (H1 & H2 & H3). split; [by eapply kept_stable |]. by destruct Hs as [l ->]. Qed.

Definition started (r : option (bool * ofile * Z)) : fs -> Prop :=
  match r with
  | None => resting
  | Some (true, o, off) => fun f => with_final o f /\ off = size
  | Some (false, o, off) => with_part o
  end.

(** An error on the part file: report, close, fail *)
Lemma part_error {X} o st (a : X) (Q : X -> fs -> Prop) s :
  status_wf st -> at_client (with_part o) b s -> (forall f, resting f -> Q a f) ->
  cwp false (task_report_error task st;; c_close;; mret a) (fun r => at_client (Q r) b) s.
Proof.
  intros Hst Hat HQ. apply cwp_bind. eapply cwp_report; [done | done | exact Hat |]. intros s1 H1.
  apply cwp_bind. eapply (cwp_close_any _ resting); [exact H1 | by apply close_part |]. intros s2 [H2 Hb].
  apply cwp_ret. split; [by apply HQ | done].
Qed.

Definition part_started (r : option (ofile * Z)) : fs -> Prop :=
  match r with None => resting | Some (o, _) => with_part o end.

Lemma open_part_any s : at_client resting b s ->
  cwp false (open_part task size) (fun r => at_client (part_started r) b) s.
Proof.
  intros Hat. unfold open_part. apply cwp_bind.
  apply (cwp_files_any _ _ resting (fun r => match r with None => resting | Some o => with_part o end) b); [done | |].
  { intros f r f' Hf Hc. by apply create_with_part in Hc; destruct r. }
  intros [o |] s1 H1.
  2: { apply cwp_bind. eapply cwp_report; [done | enum_wf | exact H1 |]. intros s2 H2. by apply cwp_ret. }
  apply cwp_bind. eapply (cwp_size (with_part o) b o (content (cl_fs s1) (ino o))); [apply with_part_stable | | |].
  { destruct H1 as [H1 Hb]. by repeat split; try apply H1. }
  { intros s2 [[H2 _] Hb]. by apply (part_error o STATUS_IO_ERROR None part_started); [enum_wf | | auto]. }
  intros s2 [[H2 _] Hb2]. assert (Hs2 : at_client (with_part o) b s2) by done. apply cwp_bind.
  assert (Hoff : cwp false (if size <? Z.of_nat (length (content (cl_fs s1) (ino o))) then
      ok ← on_files (ftruncate0 o); mret (if ok : bool then Some 0 else None)
      else mret (Some (Z.of_nat (length (content (cl_fs s1) (ino o)))))) (fun _ => at_client (with_part o) b) s2).
  { destruct (size <? _); [| by apply cwp_ret]. apply cwp_bind.
    apply (cwp_files_any _ _ (with_part o) (fun _ => with_part o) b); [done | intros f a f' Hf Hc; by eapply truncate_with_part |].
    intros ok s3 H3. by apply cwp_ret. }
  eapply cwp_mono; [exact Hoff |]. intros [off |] s3 H3.
  2: { by apply (part_error o STATUS_IO_ERROR None part_started); [enum_wf | | auto]. }
  apply cwp_bind. apply (cwp_seek (with_part o) b); [apply with_part_stable | done | |].
  - intros s4 H4. by apply (part_error o STATUS_IO_ERROR None part_started); [enum_wf | | auto].
  - intros s4 H4. by apply cwp_ret.
Qed.

Lemma probe_target_any s : at_client resting b s ->
  cwp false (probe_target task size expected) (fun r => at_client (match r with None => resting | Some o => with_final o end) b) s.
Proof.
  intros Hat. unfold probe_target. apply cwp_bind.
  apply (cwp_files_any _ _ resting (fun r => match r with None => resting | Some o => with_target o end) b); [done | |].
  { intros f r f' Hf Hc. by apply open_with_target in Hc; destruct r. }
  intros [o |] s1 H1; [| by apply cwp_ret]. apply cwp_bind. set (l := content (cl_fs s1) (ino o)).
  eapply cwp_mono; [apply (hash_matches_any (with_target o) b o l); [apply with_target_stable |] |].
  { destruct H1 as [H1 Hb]. by repeat split; try apply H1. }
  intros ok s2 [[[(Hk & Ho & Hd) Hl] Hb2] Hv]. destruct ok.
  - apply cwp_ret. split; [| done]. split_and!; [done | done |]. exists (ino o). split; [done |]. rewrite Hl. by apply Hv.
  - apply cwp_bind. apply (cwp_close_any (with_target o) resting); [done | |].
    + intros f (Hk1 & Ho1 & _). split; [done | simpl; lia].
    + intros s3 H3. by apply cwp_ret.
Qed.

Lemma open_target_any s : at_client resting b s ->
  cwp false (open_target task size expected) (fun r => at_client (started r) b) s.
Proof.
  intros Hat. unfold open_target. apply cwp_bind. eapply cwp_mono; [by apply probe_target_any |].
  intros [o1 |] s2 H2.
  - apply cwp_ret. destruct H2 as [H2 Hb2]. by repeat split; try apply H2.
  - apply cwp_bind. eapply cwp_mono; [by apply open_part_any |]. intros [[o off] |] s3 H3; by apply cwp_ret.
Qed.

Lemma placed_downloaded r r' f : downloaded r f -> placed f -> downloaded r' f.
Proof. intros (H1 & H2 & H3 & H4 & _) Hp. by split_and!. Qed.

Lemma finish_final o s : at_client (with_final o) b s ->
  cwp false (finish_download task true o size expected) (fun r => at_client (downloaded r) b) s.
Proof.
  intros Hat. unfold finish_download. apply cwp_bind, cwp_ret. cbn [negb]. apply cwp_bind.
  eapply cwp_send_any; [done | enum_wf | enum_wf | exact Hat |]. intros r s1 H1. apply cwp_bind.
  apply (cwp_close_any (with_final o) (fun f => resting f /\ placed f)); [done | by apply close_final |].
  intros s2 [[H2 Hp] Hb]. apply cwp_ret. split; [| done]. eapply placed_downloaded; [by apply rest_downloaded | done].
Qed.

Lemma finish_part o s : at_client (with_part o) b s ->
  cwp false (finish_download task false o size expected) (fun r => at_client (downloaded r) b) s.
Proof.
  intros Hat. unfold finish_download. apply cwp_bind.
  apply (cwp_mono _ _ (fun r => at_client (if r : bool then downloaded 0 else resting) b)).
  2: { intros [] s1 H1; cbn [negb].
       - apply cwp_bind. eapply cwp_send_any; [done | enum_wf | enum_wf | exact H1 |]. intros r s2 [H2 Hb].
         apply cwp_bind, cwp_ret, cwp_ret. split; [| done]. eapply placed_downloaded; [exact H2 |]. by apply H2.
       - apply cwp_ret. destruct H1 as [H1 Hb]. split; [by apply rest_downloaded | done]. }
  apply cwp_bind. apply (cwp_call (with_part o) b); [apply with_part_stable | done |]. intros ok s1 H1. apply cwp_bind.
  set (l := content (cl_fs s1) (ino o)).
  assert (Hr1 : at_client (reads (with_part o) o l) b s1) by (destruct H1 as [H1 Hb]; by repeat split; try apply H1).
  apply (cwp_mono _ _ (fun r s' => at_client (reads (with_part o) o l) b s' /\ (r = true -> verified size expected l))).
  { destruct ok; cbn [negb]; [by apply hash_matches_any; [apply with_part_stable |] | by apply cwp_ret]. }
  intros matches s2 [[[Hp Hl] Hb2] Hv]. destruct matches; cbn [negb].
  2: { by apply (part_error o STATUS_PROTOCOL_ERROR false (fun r => if r : bool then downloaded 0 else resting)); [enum_wf | |]. }
  apply cwp_bind.
  apply (cwp_close_any (reads (with_part o) o l) (fun f => kept f /\ opened f = opened f0 /\ dir f !! part = Some (ino o) /\ content f (ino o) = l)).
  { done. }
  { intros f [(Hk & Ho & Hd) Hc]. split_and!; [done | simpl; lia | done | done]. }
  intros s3 H3. apply cwp_bind.
  eapply (cwp_files_any _ _ _ (fun r => match r with None => downloaded 0 | Some _ => resting end)); [exact H3 | |].
  { intros f r f' (Hk & Ho & Hd & Hc) Hr. rewrite <- Hc in Hv.
    pose proof (rename_downloaded o f r f' Hk Ho Hd (Hv eq_refl) Hr). by destruct r. }
  intros [e |] s4 H4; [| by apply cwp_ret]. apply cwp_bind.
  eapply cwp_report; [done | enum_wf | exact H4 |]. intros s5 H5. by apply cwp_ret.
Qed.

Lemma fetch_file_any s : at_client resting b s ->
  cwp false (fetch_file malloc_ok task size expected) (fun r => at_client (downloaded r) b) s.
Proof.
  intros Hat. unfold fetch_file. apply cwp_bind. eapply cwp_mono; [by apply open_target_any |].
  intros [[[[] o] off] |] s1 H1.
  - apply cwp_bind. eapply cwp_send_any; [done | enum_wf | enum_wf | exact H1 |]. intros r s2 [[H2 ->] Hb2].
    destruct (negb (r =? 0)).
    { by apply (fail_closed o (with_final o)); [intros; by right |]. }
    rewrite Z.sub_diag. apply cwp_bind. apply cwp_ret. apply cwp_bind.
    eapply cwp_mono; [by apply (await_end_any (with_final o)) |]. intros [] s3 H3; cbn [negb].
    + by apply finish_final.
    + by apply (fail_closed o (with_final o)); [intros; by right |].
  - apply cwp_bind. eapply cwp_send_any; [done | enum_wf | enum_wf | exact H1 |]. intros r s2 H2.
    destruct (negb (r =? 0)).
    { by apply (fail_closed o (with_part o)); [intros; by left |]. }
    apply cwp_bind. eapply cwp_mono; [by apply fetch_loop_part |]. intros [o' |] s3 H3.
    + apply cwp_bind. eapply cwp_mono; [by apply (await_end_any (with_part o')) |]. intros [] s4 H4; cbn [negb].
      * by apply finish_part.
      * by apply (fail_closed o' (with_part o')); [intros; by left |].
    + destruct H3 as [[o' H3] Hb3]. by apply (fail_closed o' (with_part o')); [intros; by left |].
  - apply cwp_ret. destruct H1 as [H1 Hb]. split; [by apply rest_downloaded | done].
Qed.
End integrity.

Section results.
Context `{Host} `{Sha256} (malloc_ok : Z -> bool).

(** (C8) Integrity of downloads: whatever the server sends, the kernel answers and
    whenever the transfer is canceled, [run_download] from the server's metadata on
    ([fetch_file]) does not fail, closes the files and frees the buffers it
    used, changes no file but [part_path] and [target_path], and the target either
    is what it was or has the announced size and hash; it has them when the
    transfer reports success. *)
Theorem download_integrity task size expected s :
  session_id_wf (k_session_id task) -> k_part_path task <> k_target_path task -> names_ok (cl_fs s) ->
  fetch_file malloc_ok task size expected s <> Undef /\
  forall r s', fetch_file malloc_ok task size expected s = Ret (r, s') ->
    buffers (cl_sock s') = buffers (cl_sock s) /\ opened (cl_fs s') = opened (cl_fs s) /\ names_ok (cl_fs s') /\
    (forall q, q <> k_part_path task -> q <> k_target_path task -> unchanged (cl_fs s) q (cl_fs s')) /\
    (unchanged (cl_fs s) (k_target_path task) (cl_fs s') \/ placed task size expected (cl_fs s')) /\
    (r = 0 -> placed task size expected (cl_fs s')).
Proof.
  intros Hsid Hne Hn.
  pose proof (fetch_file_any malloc_ok task Hsid size expected Hne (cl_fs s) (buffers (cl_sock s)) s) as Hw.
  assert (Hat : at_client (resting task (cl_fs s)) (buffers (cl_sock s)) s) by (repeat split; apply Hn).
  specialize (Hw Hat). unfold cwp in Hw. destruct (fetch_file malloc_ok task size expected s) as [[r s'] | |]; [| done | done].
  split; [done |]. intros r1 s1 [= <- <-]. destruct Hw as [(H1 & H2 & H3 & H4 & H5) Hb]. by split_and!.
Qed.
End results.
