(* ===== verification/TransferEndToEnd.v ===== *)
(** * Client and server together

    The complete course of an upload and of a download on the client's side, and
    the two sides of a transfer talking to each other: each reads exactly the
    bytes the other has sent. *)

From Stdlib Require Import Strings.Byte.
From S2P Require Import Prelude CString Protocol Utils Heap Session Database DatabasePool Dao Tables DatabaseDemo DaoSpec.
From S2P Require Import HandlerBasic HandlerBasicSpec Files HandlerTransfer HandlerTransferSpec HandlerTransferFlow.
From S2P Require Import ClientTransfer ClientTransferSpec.

Section client.
Context `{Host} `{Sha256} (malloc_ok : Z -> bool).
Context (Hmalloc : forall n, malloc_ok n = true).
Context (task : client_task) (Hsid : session_id_wf (k_session_id task)).
Notation sid := (k_session_id task).

(** ** A transfer that nothing disturbs *)

Definition cworld (out inp : list byte) (room : nat) (f : fs) (s : client_state) : Prop :=
  channel out inp room (cl_sock s) /\ cl_fs s = f /\ cl_cancel s = None.

Lemma flow_canceled out inp room f (Q : bool -> client_state -> Prop) s :
  cworld out inp room f s -> Q false s -> cwp true task_is_canceled Q s.
Proof. intros (_ & _ & Hc) HQ. unfold cwp, task_is_canceled. by rewrite Hc. Qed.

Lemma flow_files {X} (m : fs -> X * fs) a f' out inp room f (Q : X -> client_state -> Prop) s :
  cworld out inp room f s -> m f = (a, f') -> (forall s', cworld out inp room f' s' -> Q a s') -> cwp true (on_files m) Q s.
Proof. intros (Hch & <- & Hc) Hm HQ. apply cwp_files. intros a1 f1 E. rewrite Hm in E. injection E as <- <-. by apply HQ. Qed.

Lemma flow_close out inp room f (Q : unit -> client_state -> Prop) s :
  cworld out inp room f s -> (forall s', cworld out inp room (close f) s' -> Q tt s') -> cwp true c_close Q s.
Proof. intros Hw HQ. eapply flow_files; [exact Hw | done | done]. Qed.

Lemma flow_release out inp room f p (Q : unit -> client_state -> Prop) s :
  cworld out inp room f s -> (forall s', cworld out inp room f s' -> Q tt s') -> cwp true (c_release p) Q s.
Proof.
  intros (Hch & Hf & Hc) HQ. apply HQ. split_and!; [| done | done].
  simpl. by destruct (owns_payload p); [apply channel_buffers |].
Qed.

Lemma flow_send out inp room f ty st pl (Q : Z -> client_state -> Prop) s :
  cmd_wf ty -> status_wf st -> small pl ->
  cworld out inp (length (wire_packet (response ty st sid pl)) + room) f s ->
  (forall s', cworld (out ++ wire_packet (response ty st sid pl)) inp room f s' -> Q 0 s') ->
  cwp true (task_send task ty st pl) Q s.
Proof.
  intros Hty Hst Hsmall Hw HQ. unfold task_send. apply cwp_bind. eapply flow_canceled; [exact Hw |].
  pose proof (response_wf ty st sid pl Hty Hst Hsmall Hsid) as Hwf. pose proof (packet_wf_guard _ Hwf) as Hg.
  unfold packet_init. cbn [response header payload_len payload] in Hg. rewrite Hg.
  change (cwp true (on_conn (fun s => protocol_send_packet s (response ty st sid pl))) Q s). destruct Hw as (Hch & <- & Hc).
  destruct (channel_send out inp room (cl_sock s) (response ty st sid pl)) as (k & Hs & Hch'); [done | done |].
  unfold cwp, on_conn. rewrite Hs. by apply HQ.
Qed.

Lemma flow_recv out inp room f ty st pl (Q : option packet -> client_state -> Prop) s :
  cmd_wf ty -> status_wf st -> small pl ->
  cworld out (wire_packet (response ty st sid pl) ++ inp) room f s ->
  (forall s', cworld out inp room f s' -> Q (Some (received (response ty st sid pl))) s') ->
  cwp true (task_recv malloc_ok task) Q s.
Proof.
  intros Hty Hst Hsmall Hw HQ. unfold task_recv. apply cwp_bind. eapply flow_canceled; [exact Hw |].
  pose proof (response_wf ty st sid pl Hty Hst Hsmall Hsid) as Hwf. destruct Hw as (Hch & <- & Hc).
  destruct (channel_recv malloc_ok out inp room (cl_sock s) (response ty st sid pl)) as (k & Hr & Hch'); [done | done | done |].
  apply cwp_bind. unfold cwp at 1, on_conn. rewrite Hr. cbn [mbind outcome_bind fst snd Z.eqb negb received header response session_id_of].
  replace (session_id_equal sid sid) with true; [by apply cwp_ret, HQ |].
  unfold session_id_equal. by rewrite bool_decide_eq_true_2.
Qed.

(** *** Hashing *)

Lemma flow_call out inp room f (Q : bool -> client_state -> Prop) s :
  fault_free f -> cworld out inp room f s ->
  (forall f' s', same_files f f' -> fault_free f' -> cworld out inp room f' s' -> Q true s') -> cwp true (on_files call) Q s.
Proof.
  intros Hff Hw HQ. destruct (call_free f Hff) as (l & Hc & Hl). eapply flow_files; [exact Hw | exact Hc |].
  intros s' Hw'. eapply HQ; [by eexists | done | done].
Qed.

Lemma flow_seek out inp room f o off (Q : option ofile -> client_state -> Prop) s :
  fault_free f -> off < 2 ^ 63 -> cworld out inp room f s ->
  (forall f' s', same_files f f' -> fault_free f' -> cworld out inp room f' s' -> Q (Some {| ino := ino o; pos := Z.to_nat off |}) s') ->
  cwp true (on_files (lseek o off)) Q s.
Proof.
  intros Hff Hoff Hw HQ. destruct (lseek_free o off f Hff Hoff) as (l & Hc & Hl). eapply flow_files; [exact Hw | exact Hc |].
  intros s' Hw'. eapply HQ; [by eexists | done | done].
Qed.

Lemma flow_size out inp room f o (Q : option Z -> client_state -> Prop) s :
  fault_free f -> cworld out inp room f s ->
  (forall f' s', same_files f f' -> fault_free f' -> cworld out inp room f' s' -> Q (Some (Z.of_nat (length (content f (ino o))))) s') ->
  cwp true (on_files (fstat_size o)) Q s.
Proof.
  intros Hff Hw HQ. destruct (call_free f Hff) as (l & Hc & Hl). eapply flow_files; [exact Hw | unfold fstat_size; by rewrite Hc |].
  intros s' Hw'. eapply HQ; [by eexists | done | done].
Qed.

(** A read that makes progress *)
Lemma flow_read out inp room f o n (Q : read_result * ofile -> client_state -> Prop) s :
  fault_free f -> (0 < n)%nat -> cworld out inp room f s ->
  (forall x f' s', same_files f f' -> fault_free f' -> cworld out inp room f' s' ->
     x = take (length x) (drop (pos o) (content f (ino o))) -> (length x <= n)%nat ->
     (x = [] -> drop (pos o) (content f (ino o)) = []) ->
     Q (ReadBytes x, {| ino := ino o; pos := pos o + length x |}) s') ->
  cwp true (on_files (fun f => let '(r, o, f) := read o n f in ((r, o), f))) Q s.
Proof.
  intros Hff Hn Hw HQ. destruct (read_free o n f Hff Hn) as (x & o' & f' & Hr & Hff').
  destruct (read_cases _ _ _ _ _ _ Hr Hn) as (Hs & Hi & Hx & Hp & Hle & Hnil).
  eapply flow_files; [exact Hw | by rewrite Hr |]. intros s' Hw'.
  replace o' with {| ino := ino o; pos := pos o + length x |} by (destruct o'; simpl in *; by subst).
  by eapply HQ.
Qed.

Lemma hash_loop_flow out inp room fuel : forall o acc f s,
  fault_free f -> (length (drop (pos o) (content f (ino o))) < fuel)%nat -> cworld out inp room f s ->
  cwp true (hash_loop fuel o acc)
    (fun r s' => r = Some (acc ++ drop (pos o) (content f (ino o))) /\
       exists f', same_files f f' /\ fault_free f' /\ cworld out inp room f' s') s.
Proof.
  induction fuel as [| fuel IH]; intros o acc f s Hff Hlen Hw; [lia |]. cbn [hash_loop].
  apply cwp_bind. eapply flow_canceled; [exact Hw |]. apply cwp_bind. eapply flow_read; [exact Hff | lia | exact Hw |].
  intros x f1 s1 Hs1 Hf1 Hw1 Hx Hle Hnil. cbn beta iota. destruct x as [| y ys].
  - apply cwp_ret. rewrite Hnil, app_nil_r by done. split; [done | eauto].
  - apply cwp_bind. eapply flow_call; [exact Hf1 | exact Hw1 |]. intros f2 s2 Hs2 Hf2 Hw2. cbn [negb].
    pose proof (same_files_trans _ _ _ Hs1 Hs2) as Hs.
    assert (Hrest : drop (pos o) (content f (ino o)) = (y :: ys) ++ drop (pos o + length (y :: ys)) (content f (ino o)))
      by (by eapply skip_prefix).
    eapply cwp_mono; [apply (IH {| ino := ino o; pos := pos o + length (y :: ys) |} _ f2); [done | | exact Hw2] |].
    + cbn [ino pos]. rewrite (content_same _ _ _ Hs). apply (f_equal length) in Hrest.
      rewrite length_app in Hrest. simpl length in *. lia.
    + intros r s3 [-> (f3 & Hs3 & Hf3 & Hw3)]. cbn [ino pos]. rewrite (content_same _ _ _ Hs), Hrest, app_assoc.
      split; [done |]. exists f3. split; [by eapply same_files_trans | done].
Qed.

Lemma compute_sha256_flow out inp room o f s :
  fault_free f -> cworld out inp room f s ->
  cwp true (task_compute_sha256 o)
    (fun r s' => r = Some (hex (sha256 (content f (ino o)))) /\
       exists f', same_files f f' /\ fault_free f' /\ cworld out inp room f' s') s.
Proof.
  intros Hff Hw. unfold task_compute_sha256. apply cwp_bind. eapply flow_seek; [exact Hff | lia | exact Hw |].
  intros f1 s1 Hs1 Hf1 Hw1. apply cwp_bind. eapply flow_call; [exact Hf1 | exact Hw1 |]. intros f2 s2 Hs2 Hf2 Hw2. cbn [negb].
  apply cwp_bind. eapply flow_call; [exact Hf2 | exact Hw2 |]. intros f3 s3 Hs3 Hf3 Hw3. cbn [negb].
  apply cwp_bind. eapply flow_files; [exact Hw3 | done |]. intros s4 Hw4.
  apply cwp_bind. eapply cwp_mono; [eapply (hash_loop_flow out inp room _ _ [] f3); [done | | exact Hw4] |].
  { unfold read_fuel. rewrite length_drop. lia. }
  intros r s5 [-> (f5 & Hs5 & Hf5 & Hw5)]. cbn [ino pos Z.to_nat]. rewrite drop_0.
  apply cwp_bind. eapply flow_call; [exact Hf5 | exact Hw5 |]. intros f6 s6 Hs6 Hf6 Hw6. cbn [negb]. apply cwp_ret.
  assert (Hs3' : same_files f f3) by (eapply same_files_trans; [exact Hs1 |]; by eapply same_files_trans).
  rewrite (content_same _ _ _ Hs3'). split; [done |]. exists f6. split; [| done].
  eapply same_files_trans; [exact Hs3' |]. by eapply same_files_trans.
Qed.

(** *** Uploads *)

(** Room for the packets of [n] bytes however they are divided *)
Definition data_room (n : nat) : nat := 37 * n.

Lemma length_wire_response ty st pl :
  length (wire_packet (response ty st sid pl)) = (TLV_WIRE_HEADER_SIZE + length (default [] pl))%nat.
Proof. unfold wire_packet, response. rewrite length_app, length_wire_header by done. done. Qed.

Lemma cworld_room out inp m n f s : cworld out inp n f s -> (m <= n)%nat -> cworld out inp m f s.
Proof. intros (Hch & Hf & Hc) Hm. split_and!; [by eapply channel_room | done | done]. Qed.

Lemma send_loop_flow inp room fuel : forall o out f s,
  fault_free f -> (length (drop (pos o) (content f (ino o))) <= fuel)%nat ->
  cworld out inp (data_room (length (drop (pos o) (content f (ino o)))) + room) f s ->
  cwp true (send_loop fuel task o (Z.of_nat (length (drop (pos o) (content f (ino o))))))
    (fun r s' => r = true /\ exists chunks f', Forall chunk_ok chunks /\ concat chunks = drop (pos o) (content f (ino o)) /\
       same_files f f' /\ fault_free f' /\ cworld (out ++ frames sid chunks) inp room f' s') s.
Proof.
  induction fuel as [| fuel IH]; intros o out f s Hff Hfuel Hw; cbn [send_loop].
  - assert (Hnil : drop (pos o) (content f (ino o)) = []) by (apply nil_length_inv; lia). rewrite Hnil in *. cbn.
    split; [done |]. exists [], f. split_and!; try done; [apply same_files_refl | by rewrite app_nil_r].
  - destruct (Z.ltb_spec 0 (Z.of_nat (length (drop (pos o) (content f (ino o)))))) as [Hpos | Hz]; cbn [negb].
    2: { assert (Hnil : drop (pos o) (content f (ino o)) = []) by (apply nil_length_inv; lia). rewrite Hnil in *. cbn.
         split; [done |]. exists [], f. split_and!; try done; [apply same_files_refl | by rewrite app_nil_r]. }
    set (l := drop (pos o) (content f (ino o))) in *.
    set (wanted := if FILE_CHUNK_SIZE <? _ then _ else _).
    assert (Hwanted : (0 < Z.to_nat wanted)%nat /\ wanted <= FILE_CHUNK_SIZE).
    { unfold wanted, FILE_CHUNK_SIZE in *. destruct (Z.ltb_spec 4096 (Z.of_nat (length l))); lia. }
    destruct Hwanted as [Hwpos Hwmax].
    apply cwp_bind. eapply flow_canceled; [exact Hw |]. apply cwp_bind. eapply flow_read; [exact Hff | exact Hwpos | exact Hw |].
    intros x f1 s1 Hs1 Hf1 Hw1 Hx Hle Hnil. cbn beta iota. fold l in Hx, Hnil.
    destruct x as [| y ys]; [rewrite Hnil in Hpos by done; simpl in Hpos; lia |].
    assert (Hok : chunk_ok (y :: ys)) by (split; [done | lia]).
    assert (Hrest : l = (y :: ys) ++ drop (pos o + length (y :: ys)) (content f (ino o))) by (by eapply skip_prefix).
    assert (Hlen : length l = (length (y :: ys) + length (drop (pos o + length (y :: ys)) (content f (ino o))))%nat)
      by (rewrite Hrest at 1; by rewrite length_app).
    set (rest := drop (pos o + length (y :: ys)) (content f (ino o))) in *.
    assert (Hrest1 : drop (pos o + length (y :: ys)) (content f1 (ino o)) = rest) by (by rewrite (content_same _ _ _ Hs1)).
    apply cwp_bind. eapply (flow_send _ _ (data_room (length rest) + room)); [enum_wf | enum_wf | by apply chunk_small | |].
    { eapply cworld_room; [exact Hw1 |]. rewrite length_wire_response. cbn [default]. rewrite Hlen.
      unfold data_room. change TLV_WIRE_HEADER_SIZE with 36%nat. simpl length. lia. }
    intros s2 Hw2. cbn [Z.eqb negb].
    replace (Z.of_nat (length l) - Z.of_nat (length (y :: ys))) with (Z.of_nat (length rest)) by lia.
    pose proof (IH {| ino := ino o; pos := pos o + length (y :: ys) |}
      (out ++ wire_packet (response CMD_FILE_DATA STATUS_OK sid (Some (y :: ys)))) f1 s2 Hf1) as IHs. cbn [ino pos] in IHs.
    rewrite Hrest1 in IHs. eapply cwp_mono; [apply IHs; [simpl length in *; lia | exact Hw2] |].
    intros r s3 [-> (chunks & f3 & Hall & Hcat & Hs3 & Hf3 & Hw3)]. split; [done |].
    exists ((y :: ys) :: chunks), f3. split_and!; [by constructor | | by eapply same_files_trans | done |].
    + simpl concat. rewrite Hcat. by rewrite Hrest.
    + cbn [frames flat_map]. by rewrite app_assoc.
Qed.

Lemma await_ack_flow out inp room f s :
  cworld out (wire_packet (ack_packet sid) ++ inp) room f s ->
  cwp true (await_ack malloc_ok task) (fun r s' => r = 0 /\ cworld out inp room f s') s.
Proof.
  intros Hw. unfold await_ack. apply cwp_bind. eapply (flow_recv _ _ _ _ CMD_ACK STATUS_OK None); [enum_wf | enum_wf | apply small_none | exact Hw |].
  intros s1 Hw1. cbn. apply cwp_bind. eapply flow_release; [exact Hw1 |]. intros s2 Hw2. by apply cwp_ret.
Qed.

Lemma send_missing_flow o (have : nat) out inp room f s :
  let l := content f (ino o) in
  fault_free f -> (have <= length l)%nat -> Z.of_nat (length l) < 2 ^ 63 ->
  cworld out (wire_packet (resume_packet sid (Z.of_nat have)) ++ wire_packet (ack_packet sid) ++ inp)
    (data_room (length l) + (TLV_WIRE_HEADER_SIZE + room)) f s ->
  cwp true (send_missing malloc_ok task o (Z.of_nat (length l)))
    (fun r s' => r = 0 /\ exists chunks f', Forall chunk_ok chunks /\ concat chunks = drop have l /\ same_files f f' /\
       cworld (out ++ incoming sid chunks) inp room f' s') s.
Proof.
  intros l Hff Hhave Hmax Hw. unfold send_missing.
  assert (Hu : is_u64 (Z.of_nat have)) by (unfold is_u64, u64_mod; lia).
  apply cwp_bind. eapply (flow_recv _ _ _ _ CMD_PUTS_RESP STATUS_OK (Some (resume_payload (Z.of_nat have))));
    [enum_wf | enum_wf | apply small_some; rewrite length_resume; done | exact Hw |].
  intros s1 Hw1. rewrite received_payload by (intros Hnil; by apply (f_equal length) in Hnil; rewrite length_resume in Hnil).
  cbn [received response header type status payload_len].
  rewrite (bool_decide_eq_false_2 (CMD_PUTS_RESP <> _)), (bool_decide_eq_false_2 (STATUS_OK <> _)) by (intros Hn; by apply Hn).
  rewrite length_resume. change (Z.of_nat 8 =? RESUME_SIZE) with true. cbn [orb negb].
  apply cwp_bind. eapply cwp_lift; [done |]. apply cwp_bind. eapply flow_release; [exact Hw1 |].
  intros s2 Hw2. rewrite take_ge by (by rewrite length_resume). unfold resume_payload. rewrite u64_field by done.
  rewrite (proj2 (Z.ltb_ge _ _)) by lia. destruct (Z.eqb_spec (Z.of_nat have) (Z.of_nat (length l))) as [Heq | Hneq].
  - eapply cwp_mono; [by apply await_ack_flow |]. intros r s3 [-> Hw3]. split; [done |].
    exists [], f. rewrite drop_ge by lia. split_and!; try done; [apply same_files_refl |]. rewrite app_nil_r.
    eapply cworld_room; [exact Hw3 | lia].
  - apply cwp_bind. eapply flow_seek; [exact Hff | lia | exact Hw2 |]. intros f3 s3 Hs3 Hf3 Hw3.
    apply cwp_bind. eapply flow_files; [exact Hw3 | done |]. intros s4 Hw4. apply cwp_bind.
    pose proof (send_loop_flow (wire_packet (ack_packet sid) ++ inp) (TLV_WIRE_HEADER_SIZE + room)
      (read_fuel {| ino := ino o; pos := Z.to_nat (Z.of_nat have) |} f3) {| ino := ino o; pos := Z.to_nat (Z.of_nat have) |} out f3 s4 Hf3) as Hsend.
    cbn [ino pos] in Hsend. rewrite Nat2Z.id in *. rewrite (content_same _ _ _ Hs3) in Hsend. fold l in Hsend.
    replace (Z.of_nat (length l) - Z.of_nat have) with (Z.of_nat (length (drop have l))) by (rewrite length_drop; lia).
    eapply cwp_mono; [apply Hsend |].
    { unfold read_fuel. cbn [ino]. rewrite (content_same _ _ _ Hs3), length_drop. fold l. lia. }
    { eapply cworld_room; [exact Hw4 |]. rewrite length_drop. unfold data_room. lia. }
    intros r s5 [-> (chunks & f5 & Hall & Hcat & Hs5 & Hf5 & Hw5)]. cbn [negb].
    apply cwp_bind. eapply (flow_send _ _ room); [enum_wf | enum_wf | apply small_none | |].
    { rewrite length_wire_response. cbn [default length]. rewrite Nat.add_0_r. exact Hw5. }
    intros s6 Hw6. cbn [Z.eqb negb]. eapply cwp_mono; [apply await_ack_flow; exact Hw6 |].
    intros r s7 [-> Hw7]. split; [done |]. exists chunks, f5. split_and!; [done | done | by eapply same_files_trans |].
    destruct chunks as [| c chunks].
    { simpl in Hcat. apply (f_equal length) in Hcat. rewrite length_drop in Hcat. simpl in Hcat. lia. }
    unfold incoming. by rewrite app_assoc.
Qed.

Definition puts_packet (path l : list byte) : packet :=
  response CMD_PUTS_REQ STATUS_OK sid (Some (upload_request_payload path (Z.of_nat (length l)) (hex (sha256 l)))).

Lemma length_upload_request path size h : Z.of_nat (length (upload_request_payload path size h)) = UPLOAD_REQUEST_SIZE.
Proof. unfold upload_request_payload. rewrite !length_app, !length_char_array, length_mem_of, length_replicate. done. Qed.

Lemma open_read_free path f i : fault_free f -> dir f !! path = Some i ->
  exists l, open_read path f = (Some {| ino := i; pos := 0 |}, add_opened (set_io f l) 1) /\ fault_free (add_opened (set_io f l) 1).
Proof.
  intros Hff Hi. destruct (next_answer_free f Hff) as (a & l & Hn & Ha & Hl). exists l. unfold open_read.
  rewrite Hn, Ha. cbn [dir set_io]. by rewrite Hi.
Qed.

Lemma run_upload_flow (have : nat) l i out inp room f s :
  fault_free f -> dir f !! k_local_path task = Some i -> content f i = l ->
  Z.of_nat (length (k_remote_path task)) < PATH_MAX -> (have <= length l)%nat -> Z.of_nat (length l) < 2 ^ 63 ->
  cworld out (wire_packet (resume_packet sid (Z.of_nat have)) ++ wire_packet (ack_packet sid) ++ inp)
    (length (wire_packet (puts_packet (k_remote_path task) l)) + (data_room (length l) + (TLV_WIRE_HEADER_SIZE + room))) f s ->
  cwp true (run_upload malloc_ok task)
    (fun r s' => r = 0 /\ exists chunks f', Forall chunk_ok chunks /\ concat chunks = drop have l /\ same_files f f' /\
       cworld (out ++ wire_packet (puts_packet (k_remote_path task) l) ++ incoming sid chunks) inp room f' s') s.
Proof.
  intros Hff Hdir Hl Hpath Hhave Hmax Hw. unfold run_upload.
  destruct (open_read_free _ _ _ Hff Hdir) as (k & Hopen & Hf1). set (f1 := add_opened (set_io f k) 1) in *.
  apply cwp_bind. eapply flow_files; [exact Hw | exact Hopen |]. intros s1 Hw1.
  apply cwp_bind. eapply (flow_size _ _ _ f1 {| ino := i; pos := 0 |}); [done | exact Hw1 |]. intros f2 s2 Hs2 Hf2 Hw2.
  cbn [ino] in *. assert (Hc1 : content f1 i = l) by done. rewrite Hc1. apply cwp_bind. unfold copy_string.
  rewrite (proj2 (Z.leb_gt _ _)) by done. apply cwp_bind.
  eapply cwp_mono; [by eapply (compute_sha256_flow _ _ _ {| ino := i; pos := 0 |} f2) |].
  intros h s3 [-> (f3 & Hs3 & Hf3 & Hw3)]. cbn [ino]. rewrite (content_same _ _ _ Hs2), Hc1.
  apply cwp_bind. eapply (flow_seek _ _ _ f3); [done | done | exact Hw3 |]. intros f4 s4 Hs4 Hf4 Hw4.
  apply cwp_bind. eapply flow_send; [enum_wf | enum_wf | apply small_some; rewrite length_upload_request; done | exact Hw4 |].
  intros s5 Hw5. cbn [Z.eqb negb].
  assert (Hs14 : same_files f1 f4) by (eapply same_files_trans; [exact Hs2 |]; by eapply same_files_trans).
  assert (Hc4 : content f4 i = l) by (by rewrite (content_same _ _ _ Hs14)).
  pose proof (send_missing_flow {| ino := i; pos := Z.to_nat 0 |} have
    (out ++ wire_packet (puts_packet (k_remote_path task) l)) inp room f4 s5) as Hsend. cbn [ino] in Hsend.
  rewrite Hc4 in Hsend. eapply cwp_mono; [apply Hsend; [done | done | done | exact Hw5] |].
  intros r s6 [-> (chunks & f6 & Hall & Hcat & Hs6 & Hw6)].
  apply cwp_bind. eapply flow_close; [exact Hw6 |]. intros s7 Hw7. apply cwp_ret. split; [done |].
  exists chunks, (close f6). split_and!; [done | done | | by rewrite app_assoc].
  pose proof (same_files_trans _ _ _ Hs14 Hs6) as [q ->]. exists q. unfold f1, close, add_opened, set_io. simpl. f_equal. lia.
Qed.

(** *** Downloads *)

Lemma fetch_loop_flow chunks : forall fuel o got expected out inp room f s,
  Forall chunk_ok chunks -> got + Z.of_nat (length (concat chunks)) = expected -> (length chunks <= fuel)%nat -> fault_free f ->
  cworld out (frames sid chunks ++ inp) room f s ->
  cwp true (fetch_loop malloc_ok fuel task o got expected)
    (fun r s' => exists o' f', r = Some o' /\ cworld out inp room f' s' /\ wrote o (concat chunks) f o' f' /\ fault_free f') s.
Proof.
  induction chunks as [| c chunks IH]; intros fuel o got expected out inp room f s Hok Hlen Hfuel Hff Hw.
  - destruct fuel; cbn [fetch_loop]; rewrite (proj2 (Z.ltb_ge _ _)) by (simpl in Hlen; lia); cbn [negb];
      apply cwp_ret; exists o, f; split_and!; try done; apply wrote_same, same_files_refl.
  - apply Forall_cons in Hok as [[Hne Hc] Hok]. cbn [concat] in *. rewrite length_app in Hlen.
    assert (Hpos : (0 < length c)%nat) by (destruct c; [done | simpl; lia]).
    destruct fuel as [| fuel]; [simpl in Hfuel; lia |]. cbn [fetch_loop].
    rewrite (proj2 (Z.ltb_lt _ _)) by lia. cbn [negb]. apply cwp_bind. eapply flow_canceled; [exact Hw |].
    cbn [frames flat_map] in Hw. rewrite <- app_assoc in Hw. apply cwp_bind.
    eapply flow_recv; [| | | exact Hw |]; [enum_wf | enum_wf | by apply chunk_small |].
    intros s1 Hw1. rewrite received_payload by done. cbn [received header response type status payload_len].
    rewrite (bool_decide_eq_false_2 (CMD_FILE_DATA <> _)), (bool_decide_eq_false_2 (STATUS_OK <> _)) by (intros Hx; by apply Hx).
    rewrite (proj2 (Z.eqb_neq _ _)), (proj2 (Z.ltb_ge FILE_CHUNK_SIZE _)), (proj2 (Z.ltb_ge (expected - got) _)) by lia.
    cbn [orb]. apply cwp_bind. eapply cwp_lift; [done |]. rewrite Nat2Z.id, take_ge by done.
    destruct (write_n_free o c f Hff) as (o1 & f1 & Hwr & Hwrote & Hff1).
    apply cwp_bind. eapply flow_files; [exact Hw1 | by rewrite Hwr |]. intros s2 Hw2. cbn [Z.eqb negb].
    apply cwp_bind. eapply flow_release; [exact Hw2 |]. intros s3 Hw3.
    eapply cwp_mono; [eapply (IH fuel o1 _ expected); [done | lia | simpl in Hfuel; lia | done | exact Hw3] |].
    intros r s4 (o' & f' & -> & Hw4 & Hwr' & Hff'). exists o', f'. split_and!; [done | done | by eapply wrote_trans | done].
Qed.

Lemma hash_matches_flow out inp room o size expected f s :
  fault_free f -> cworld out inp room f s ->
  cwp true (hash_matches o size expected)
    (fun r s' => (r = true <-> verified size expected (content f (ino o))) /\
       exists f', same_files f f' /\ fault_free f' /\ cworld out inp room f' s') s.
Proof.
  intros Hff Hw. unfold hash_matches, verified. apply cwp_bind. eapply flow_size; [exact Hff | exact Hw |].
  intros f1 s1 Hs1 Hf1 Hw1. destruct (Z.eqb_spec (Z.of_nat (length (content f (ino o)))) size) as [Heq | Hneq]; cbn [negb].
  2: { apply cwp_ret. split; [naive_solver | eauto]. }
  apply cwp_bind. eapply cwp_mono; [by eapply compute_sha256_flow |].
  intros h s2 [-> (f2 & Hs2 & Hf2 & Hw2)]. rewrite (content_same _ _ _ Hs1). apply cwp_ret.
  split; [naive_solver |]. exists f2. split; [by eapply same_files_trans | done].
Qed.

(** The target is not what the server has. *)
Lemma probe_target_flow out inp room size expected f s :
  fault_free f -> (forall i, dir f !! k_target_path task = Some i -> ~ verified size expected (content f i)) ->
  cworld out inp room f s ->
  cwp true (probe_target task size expected)
    (fun r s' => r = None /\ exists f', same_files f f' /\ fault_free f' /\ cworld out inp room f' s') s.
Proof.
  intros Hff Hno Hw. unfold probe_target. destruct (dir f !! k_target_path task) as [i |] eqn:Ed.
  - destruct (open_read_free _ _ _ Hff Ed) as (k & Hopen & Hf1). apply cwp_bind. eapply flow_files; [exact Hw | exact Hopen |].
    intros s1 Hw1. apply cwp_bind. eapply cwp_mono; [by eapply hash_matches_flow |].
    intros ok s2 [Hok (f2 & [q ->] & Hf2 & Hw2)]. destruct ok; [exfalso; by apply (Hno i eq_refl), Hok |].
    apply cwp_bind. eapply flow_close; [exact Hw2 |]. intros s3 Hw3. apply cwp_ret. split; [done |].
    eexists. split_and!; [| | exact Hw3]; [| done]. exists q. unfold close, add_opened, set_io. simpl. f_equal. lia.
  - destruct (next_answer_free f Hff) as (a & k & Hn & Ha & Hk). apply cwp_bind. eapply (flow_files _ None (set_io f k)); [exact Hw | |].
    + unfold open_read. rewrite Hn, Ha. cbn [dir set_io]. by rewrite Ed.
    + intros s1 Hw1. apply cwp_ret. split; [done |]. exists (set_io f k). split; [by eexists | done].
Qed.

Lemma open_part_flow out inp room size have f s :
  fault_free f -> have = usable size (saved f (k_part_path task)) -> 0 <= size < 2 ^ 63 ->
  cworld out inp room f s ->
  cwp true (open_part task size)
    (fun r s' => exists o f', r = Some (o, Z.of_nat (length have)) /\ pos o = length have /\
       part_holds (k_part_path task) have o f f' /\ fault_free f' /\ cworld out inp room f' s') s.
Proof.
  intros Hff Hhave Hmax Hw. unfold open_part.
  destruct (open_create_free (k_part_path task) f Hff) as (o & f1 & Hopen & Hpos & Hff1 & Hp1).
  apply cwp_bind. eapply flow_files; [exact Hw | exact Hopen |]. intros s1 Hw1.
  apply cwp_bind. eapply flow_size; [exact Hff1 | exact Hw1 |]. intros f2 s2 Hs2 Hff2 Hw2.
  rewrite (ph_content _ _ _ _ _ Hp1). pose proof (part_holds_same _ _ _ _ _ _ Hs2 Hp1) as Hp2.
  apply cwp_bind. eapply (cwp_mono _ _ (fun r s3 => r = Some (Z.of_nat (length have)) /\ exists f3,
    part_holds (k_part_path task) have o f f3 /\ fault_free f3 /\ cworld out inp room f3 s3)).
  { unfold usable in Hhave. destruct (size <? Z.of_nat (length (saved f (k_part_path task)))).
    - destruct (truncate_free _ _ _ _ _ Hff2 Hp2) as (f3 & Ht & Hff3 & Hp3).
      apply cwp_bind. eapply flow_files; [exact Hw2 | exact Ht |]. intros s3 Hw3. apply cwp_ret. subst have. split; [done |]. by exists f3.
    - apply cwp_ret. subst have. split; [done |]. by exists f2. }
  intros r s3 (-> & f3 & Hp3 & Hff3 & Hw3).
  assert (Hle : Z.of_nat (length have) <= size).
  { subst have. unfold usable. destruct (Z.ltb_spec size (Z.of_nat (length (saved f (k_part_path task))))); simpl; lia. }
  apply cwp_bind. eapply flow_seek; [exact Hff3 | lia | exact Hw3 |]. intros f4 s4 Hs4 Hff4 Hw4.
  apply cwp_ret. rewrite Nat2Z.id. eexists _, f4. split_and!; [done | done | | done | done].
  eapply (part_holds_same _ _ {| ino := ino o; pos := length have |}); [exact Hs4 |]. destruct Hp3. by split.
Qed.

Lemma await_end_flow out inp room f s :
  cworld out (wire_packet (end_packet sid) ++ inp) room f s ->
  cwp true (await_end malloc_ok task) (fun r s' => r = true /\ cworld out inp room f s') s.
Proof.
  intros Hw. unfold await_end. apply cwp_bind. eapply (flow_recv _ _ _ _ CMD_FILE_END STATUS_OK None); [enum_wf | enum_wf | apply small_none | exact Hw |].
  intros s1 Hw1. cbn. apply cwp_bind. eapply flow_release; [exact Hw1 |]. intros s2 Hw2. by apply cwp_ret.
Qed.

Lemma strcaseeq_refl l : strcaseeq l l = true.
Proof. unfold strcaseeq. by rewrite bool_decide_eq_true_2. Qed.

(** The complete part file takes the place of the target. *)
Lemma finish_part_flow out inp room l o f0 f s :
  k_part_path task <> k_target_path task -> fault_free f -> part_holds (k_part_path task) l o f0 f ->
  cworld out inp (length (wire_packet (ack_packet sid)) + room) f s ->
  cwp true (finish_download task false o (Z.of_nat (length l)) (hex (sha256 l)))
    (fun r s' => r = 0 /\ exists f', saved f' (k_target_path task) = l /\ dir f' !! k_part_path task = None /\
       opened f' = opened f0 /\ cworld (out ++ wire_packet (ack_packet sid)) inp room f' s') s.
Proof.
  intros Hne Hff Hp Hw. unfold finish_download. apply cwp_bind. apply cwp_bind. eapply flow_call; [exact Hff | exact Hw |].
  intros f1 s1 Hs1 Hf1 Hw1. cbn [negb]. apply cwp_bind. eapply cwp_mono; [by eapply (hash_matches_flow _ _ _ o) |].
  pose proof (part_holds_same _ _ _ _ _ _ Hs1 Hp) as Hp1.
  intros matches s2 [Hm (f2 & Hs2 & Hf2 & Hw2)]. assert (matches = true) as ->.
  { apply Hm. rewrite (ph_content _ _ _ _ _ Hp1). split; [done | apply strcaseeq_refl]. }
  pose proof (part_holds_same _ _ _ _ _ _ Hs2 Hp1) as Hp2. cbn [negb]. apply cwp_bind. eapply flow_close; [exact Hw2 |]. intros s3 Hw3.
  destruct (next_answer_free (close f2) Hf2) as (a & k & Hn & Ha & Hk).
  assert (Hpart : dir f2 !! k_part_path task = Some (ino o)) by (by rewrite (ph_dir _ _ _ _ _ Hp2), lookup_insert_eq).
  apply cwp_bind. eapply flow_files; [exact Hw3 | |].
  { unfold rename. rewrite Hn, Ha. cbn [dir set_io close add_opened]. rewrite Hpart. reflexivity. }
  intros s4 Hw4. apply cwp_ret. cbn [negb]. apply cwp_bind.
  eapply flow_send; [enum_wf | enum_wf | apply small_none | exact Hw4 |]. intros s5 Hw5. apply cwp_bind, cwp_ret, cwp_ret.
  split; [done |]. eexists. split_and!; [| | | exact Hw5].
  - unfold saved. simpl. rewrite lookup_insert_eq. apply (ph_content _ _ _ _ _ Hp2).
  - simpl. by rewrite lookup_insert_ne, lookup_delete_eq.
  - simpl. pose proof (ph_opened _ _ _ _ _ Hp2). lia.
Qed.

Lemma fetch_file_flow l have chunks out inp room f s :
  k_part_path task <> k_target_path task -> fault_free f -> Z.of_nat (length l) < 2 ^ 63 ->
  (forall i, dir f !! k_target_path task = Some i -> ~ verified (Z.of_nat (length l)) (hex (sha256 l)) (content f i)) ->
  have = usable (Z.of_nat (length l)) (saved f (k_part_path task)) -> Forall chunk_ok chunks -> have ++ concat chunks = l ->
  cworld out (frames sid chunks ++ wire_packet (end_packet sid) ++ inp)
    (length (wire_packet (start_packet sid (Z.of_nat (length have)))) + (length (wire_packet (ack_packet sid)) + room)) f s ->
  cwp true (fetch_file malloc_ok task (Z.of_nat (length l)) (hex (sha256 l)))
    (fun r s' => r = 0 /\ exists f', saved f' (k_target_path task) = l /\ dir f' !! k_part_path task = None /\ opened f' = opened f /\
       cworld (out ++ wire_packet (start_packet sid (Z.of_nat (length have))) ++ wire_packet (ack_packet sid)) inp room f' s') s.
Proof.
  intros Hne Hff Hmax Hno Hhave Hok Hl Hw. unfold fetch_file, open_target. apply cwp_bind. apply cwp_bind.
  eapply cwp_mono; [by eapply probe_target_flow |]. intros r s1 [-> (f1 & Hs1 & Hf1 & Hw1)].
  assert (Hsaved : saved f1 (k_part_path task) = saved f (k_part_path task)) by (destruct Hs1 as [q ->]; done).
  apply cwp_bind. eapply cwp_mono; [eapply (open_part_flow _ _ _ (Z.of_nat (length l)) have f1); [done | by rewrite Hsaved | lia | exact Hw1] |].
  intros r s2 (o & f2 & -> & Hpos & Hp2 & Hf2 & Hw2). apply cwp_ret.
  apply cwp_bind. eapply flow_send; [enum_wf | enum_wf | apply small_some; rewrite length_resume; done | exact Hw2 |].
  intros s3 Hw3. cbn [Z.eqb negb].
  assert (Hlen : Z.of_nat (length l) - Z.of_nat (length have) = Z.of_nat (length (concat chunks))).
  { rewrite <- Hl at 1. rewrite length_app. lia. }
  rewrite Hlen. apply cwp_bind. eapply cwp_mono; [eapply (fetch_loop_flow chunks); [done | lia | | exact Hf2 | exact Hw3] |].
  { rewrite Nat2Z.id. by apply chunks_count. }
  intros r s4 (o' & f4 & -> & Hw4 & [Ho Hd Hop Hc Hdom Hoth] & Hf4).
  assert (Hp4 : part_holds (k_part_path task) l o' f1 f4).
  { destruct Hp2 as [P1 P2 P3 P4 P5]. subst o'. split; cbn [ino].
    - congruence.
    - rewrite Hc, Hpos, P2, overwrite_end. done.
    - intros i Hi. by rewrite Hoth, P3.
    - done.
    - congruence. }
  apply cwp_bind. eapply cwp_mono; [by eapply await_end_flow |]. intros r s5 [-> Hw5]. cbn [negb].
  eapply cwp_mono; [by eapply finish_part_flow |]. intros r s6 [-> (f6 & H1 & H2 & H3 & H4)]. split; [done |].
  exists f6. split_and!; [done | done | | by rewrite app_assoc]. destruct Hs1 as [q ->]. done.
Qed.

(** What the client reads in the metadata *)
Lemma info_fields name size h :
  is_u64 size -> length h = 64%nat -> NUL ∉ h ->
  net_to_host_u64 (of_mem (take 8 (drop 256 (file_info_payload name size h)))) = size /\
  cstr (take 64 (drop 264 (file_info_payload name size h))) = h.
Proof.
  intros Hsize Hlen Hnul. unfold file_info_payload.
  set (a := char_array (Z.to_nat NAME_MAX) name ++ replicate 1 NUL). set (m := mem_of 8 (host_to_net_u64 size)).
  assert (Ha : length a = 256%nat) by (unfold a; rewrite length_app, length_char_array; done).
  assert (Hm : length m = 8%nat) by apply length_mem_of.
  replace (char_array (Z.to_nat NAME_MAX) name ++ replicate 1 NUL ++ m ++ char_array 65 h ++ replicate 7 NUL)
    with (a ++ m ++ char_array 65 h ++ replicate 7 NUL) by (unfold a; by rewrite <- app_assoc).
  rewrite (drop_app_length' a) by done. split.
  - rewrite take_app_length' by done. by apply u64_field.
  - replace 264%nat with (256 + 8)%nat by done. rewrite <- drop_drop, (drop_app_length' a), (drop_app_length' m) by done.
    assert (Hc : char_array 65 h = h ++ [NUL]).
    { unfold char_array. rewrite take_app_ge by lia. by rewrite Hlen. }
    rewrite Hc, <- app_assoc, take_app_length' by done. by apply cstr_id.
Qed.

Lemma run_download_flow name l have chunks out inp room f s :
  k_part_path task <> k_target_path task -> fault_free f -> Z.of_nat (length l) < 2 ^ 63 ->
  k_remote_path task <> [] -> Z.of_nat (length (k_remote_path task)) < PATH_MAX ->
  (forall i, dir f !! k_target_path task = Some i -> ~ verified (Z.of_nat (length l)) (hex (sha256 l)) (content f i)) ->
  have = usable (Z.of_nat (length l)) (saved f (k_part_path task)) -> Forall chunk_ok chunks -> have ++ concat chunks = l ->
  cworld out (wire_packet (info_packet sid name (Z.of_nat (length l)) (hex (sha256 l))) ++
              frames sid chunks ++ wire_packet (end_packet sid) ++ inp)
    (length (wire_packet (response CMD_GETS_REQ STATUS_OK sid (Some (k_remote_path task)))) +
     (length (wire_packet (start_packet sid (Z.of_nat (length have)))) + (length (wire_packet (ack_packet sid)) + room))) f s ->
  cwp true (run_download malloc_ok task)
    (fun r s' => r = 0 /\ exists f', saved f' (k_target_path task) = l /\ dir f' !! k_part_path task = None /\ opened f' = opened f /\
       cworld (out ++ wire_packet (response CMD_GETS_REQ STATUS_OK sid (Some (k_remote_path task))) ++
               wire_packet (start_packet sid (Z.of_nat (length have))) ++ wire_packet (ack_packet sid)) inp room f' s') s.
Proof.
  intros Hne Hff Hmax Hrp Hlrp Hno Hhave Hok Hl Hw. unfold run_download. apply cwp_bind.
  eapply flow_send; [enum_wf | enum_wf | apply small_some; unfold PATH_MAX, MAX_PACKET_PAYLOAD in *; lia | exact Hw |].
  intros s1 Hw1. cbn [Z.eqb negb]. apply cwp_bind.
  eapply (flow_recv _ _ _ _ CMD_GETS_RESP STATUS_OK (Some (file_info_payload name (Z.of_nat (length l)) (hex (sha256 l)))));
    [enum_wf | enum_wf | apply small_some; rewrite length_file_info; done | exact Hw1 |].
  intros s2 Hw2. rewrite received_payload by (intros Hnil; by apply (f_equal (fun l => Z.of_nat (length l))) in Hnil; rewrite length_file_info in Hnil).
  cbn [received response header type status payload_len].
  rewrite (bool_decide_eq_false_2 (CMD_GETS_RESP <> _)), (bool_decide_eq_false_2 (STATUS_OK <> _)) by (intros Hn; by apply Hn).
  rewrite length_file_info, Z.eqb_refl. cbn [orb negb]. apply cwp_bind. eapply cwp_lift; [done |].
  apply cwp_bind. eapply flow_release; [exact Hw2 |]. intros s3 Hw3.
  destruct (info_fields name (Z.of_nat (length l)) (hex (sha256 l))) as [-> ->].
  { unfold is_u64, u64_mod. lia. }
  { apply hash_text. }
  { apply (hex_text (sha256 l)). }
  destruct (hash_text l) as (-> & _). cbn [negb].
  eapply cwp_mono; [by eapply fetch_file_flow |]. intros r s4 [-> (f4 & H1 & H2 & H3 & H4)]. split; [done |].
  exists f4. by rewrite app_assoc.
Qed.
End client.

(** ** Both sides of a transfer *)

Section both.
Context `{Host} {M : MySQL} {Spec : MySQLSpec M} {Stored : MySQLStored M Spec} {Up : MySQLUp M Spec} `{Sha256} (malloc_ok : Z -> bool).
Context (Hmalloc : forall n, malloc_ok n = true).

(** The client program returned [r] in state [s']. *)
Lemma cwp_returns {X} (m : cm X) (Q : X -> client_state -> Prop) s :
  cwp true m Q s -> exists a s', m s = Ret (a, s') /\ Q a s'.
Proof. unfold cwp. destruct (m s) as [[a s'] | |]; [eauto | done | done]. Qed.

(** The room a client needs for an upload of [l] *)
Definition upload_room (task : client_task) (l : list byte) : nat :=
  length (wire_packet (puts_packet task (k_remote_path task) l)) + (data_room (length l) + (TLV_WIRE_HEADER_SIZE + 0)).
Definition upload_reply (sid : session_id) (have : list byte) : list byte :=
  wire_packet (resume_packet sid (Z.of_nat (length have))) ++ wire_packet (ack_packet sid).

Lemma upload_exchange p t task ktask path parent name pid l have cf i f d cs :
  upload_possible p t task path parent name pid l f d ->
  have = usable (Z.of_nat (length l)) (saved f (x_transfer_temp_dir task ++ [SLASH] ++ hex (sha256 l) ++ lit ".part")) ->
  take (length have) l = have ->
  k_session_id ktask = task_sid task -> k_remote_path ktask = path -> Z.of_nat (length path) < PATH_MAX ->
  fault_free cf -> dir cf !! k_local_path ktask = Some i -> content cf i = l ->
  cworld [] (upload_reply (task_sid task) have) (upload_room ktask l) cf cs ->
  exists cs' chunks, run_upload malloc_ok ktask cs = Ret (0, cs') /\ Forall chunk_ok chunks /\ have ++ concat chunks = l /\
    sent (cl_sock cs') = wire_packet (puts_packet ktask path l) ++ incoming (task_sid task) chunks /\ same_files cf (cl_fs cs').
Proof.
  intros Hpo Hhave Hpre Hks Hkp Hlp Hcf Hi Hl Hw. pose proof (po_sid _ _ _ _ _ _ _ _ _ _ Hpo) as Hsid.
  pose proof (po_size _ _ _ _ _ _ _ _ _ _ Hpo) as Hmax.
  assert (Hlen : (length have <= length l)%nat) by (rewrite <- Hpre, length_take; lia).
  assert (Hflow : cwp true (run_upload malloc_ok ktask)
    (fun r s' => r = 0 /\ exists chunks f', Forall chunk_ok chunks /\ concat chunks = drop (length have) l /\ same_files cf f' /\
       cworld ([] ++ wire_packet (puts_packet ktask (k_remote_path ktask) l) ++ incoming (k_session_id ktask) chunks) [] 0 f' s') cs).
  { apply (run_upload_flow malloc_ok Hmalloc ktask) with (i := i); try done; [by rewrite Hks | by rewrite Hkp |].
    rewrite Hks, app_nil_r. exact Hw. }
  apply cwp_returns in Hflow as (r & cs' & Hrun & -> & chunks & f' & Hall & Hcat & Hs & ([Hsent _ _ _ _] & Hfs & _)).
  exists cs', chunks. split_and!; [done | done | | | by rewrite Hfs].
  - rewrite Hcat. rewrite <- Hpre at 1. apply take_drop.
  - rewrite Hsent, Hkp, Hks. done.
Qed.

Definition download_room (task : client_task) (have : list byte) : nat :=
  length (wire_packet (response CMD_GETS_REQ STATUS_OK (k_session_id task) (Some (k_remote_path task)))) +
  (length (wire_packet (start_packet (k_session_id task) (Z.of_nat (length have)))) +
   (length (wire_packet (ack_packet (k_session_id task))) + 0)).

Lemma download_exchange ktask name l have cf cs :
  session_id_wf (k_session_id ktask) -> k_part_path ktask <> k_target_path ktask -> fault_free cf -> Z.of_nat (length l) < 2 ^ 63 ->
  k_remote_path ktask <> [] -> Z.of_nat (length (k_remote_path ktask)) < PATH_MAX ->
  (forall i, dir cf !! k_target_path ktask = Some i -> ~ verified (Z.of_nat (length l)) (hex (sha256 l)) (content cf i)) ->
  have = usable (Z.of_nat (length l)) (saved cf (k_part_path ktask)) -> take (length have) l = have ->
  cworld [] (wire_packet (info_packet (k_session_id ktask) name (Z.of_nat (length l)) (hex (sha256 l))) ++
             download_bytes (k_session_id ktask) (length have) l) (download_room ktask have) cf cs ->
  exists cs', run_download malloc_ok ktask cs = Ret (0, cs') /\
    saved (cl_fs cs') (k_target_path ktask) = l /\ dir (cl_fs cs') !! k_part_path ktask = None /\ opened (cl_fs cs') = opened cf /\
    sent (cl_sock cs') = wire_packet (response CMD_GETS_REQ STATUS_OK (k_session_id ktask) (Some (k_remote_path ktask))) ++
      wire_packet (start_packet (k_session_id ktask) (Z.of_nat (length have))) ++ wire_packet (ack_packet (k_session_id ktask)).
Proof.
  intros Hsid Hne Hff Hmax Hrp Hlrp Hno Hhave Hpre Hw.
  destruct (chunked_spec (length (drop (length have) l)) (drop (length have) l)) as [Hc Hf]; [done |].
  assert (Hflow : cwp true (run_download malloc_ok ktask)
    (fun r s' => r = 0 /\ exists f', saved f' (k_target_path ktask) = l /\ dir f' !! k_part_path ktask = None /\ opened f' = opened cf /\
       cworld ([] ++ wire_packet (response CMD_GETS_REQ STATUS_OK (k_session_id ktask) (Some (k_remote_path ktask))) ++
               wire_packet (start_packet (k_session_id ktask) (Z.of_nat (length have))) ++ wire_packet (ack_packet (k_session_id ktask))) [] 0 f' s') cs).
  { eapply (run_download_flow malloc_ok Hmalloc ktask Hsid name l have (chunks_of (drop (length have) l))); try done.
    - unfold chunks_of. rewrite Hc. rewrite <- Hpre at 1. apply take_drop.
    - rewrite app_nil_r. exact Hw. }
  apply cwp_returns in Hflow as (r & cs' & Hrun & -> & f' & H1 & H2 & H3 & ([Hsent _ _ _ _] & Hfs & _)).
  exists cs'. rewrite Hfs. split_and!; [done | done | done | done |]. exact Hsent.
Qed.

(** What an upload has stored can be downloaded by the same user. *)
Lemma uploaded_downloadable p t task path parent name pid l f d f' d' task2 m0 req :
  upload_possible p t task path parent name pid l f d ->
  uploaded p t task (render (parent ++ [name])) pid name l f f' d' ->
  (forall i g, files t !! i = Some g -> is_u64 (f_size g)) -> fault_free f' -> up 1 (srv d') ->
  x_packet task2 = received (response CMD_GETS_REQ STATUS_OK (task_sid task2) (Some req)) -> session_id_wf (task_sid task2) ->
  ctx_user_id (x_session task2) = ctx_user_id (x_session task) -> x_storage_root task2 = x_storage_root task ->
  destination (ctx_cwd (x_session task2)) req = parent ++ [name] ->
  (NUL ∉ req) -> req <> [] -> Z.of_nat (length req) < PATH_MAX ->
  Z.of_nat (length (path_text (ctx_cwd (x_session task2)) req)) < PATH_MAX -> length (fm_sha256_hex m0) = 65%nat ->
  exists t', download_possible p t' task2 m0 req name (hex (sha256 l)) l (Z.of_nat (length l)) f' d'.
Proof.
  intros Hpo Hup Hsizes Hff Hu Hpk Hsid Huid Hroot Hdest Hnul Hreq Hlreq Hlpath Hstack.
  destruct Hup as [(id & fid & g & Hid & Hnew & Hfree & Href & [Hhash Hsize] & Hset) [i Hi] Hfile _ _ _].
  pose proof (po_tables _ _ _ _ _ _ _ _ _ _ Hpo) as Htab.
  destruct (po_parent _ _ _ _ _ _ _ _ _ _ Hpo) as (r & Hpar & Hty).
  apply find_node_Some in Hpar as (Hpr & Hpu & _); [| apply same_text_equiv | done].
  destruct Href as [(g0 & Hg0 & ->) | (Hfresh & Hrest)]; [exfalso; by apply (po_new _ _ _ _ _ _ _ _ _ _ Hpo _ _ Hg0) |].
  pose proof (tables_ok_attach same_text same_text_equiv t id fid g (ctx_user_id (x_session task)) (render (parent ++ [name])) pid name
    Htab Hid Hnew Hfree (ex_intro _ r (conj Hpr (conj Hpu Hty))) (or_intror (conj Hfresh Hrest))) as Htab'.
  exists (attach_tables t id fid g (ctx_user_id (x_session task)) (render (parent ++ [name])) pid name).
  destruct (po_path _ _ _ _ _ _ _ _ _ _ Hpo) as (_ & _ & (_ & _ & Hn & _ & H768 & Hplain)).
  destruct (hash_text l) as (_ & H64 & _). specialize (Hsize Hfresh).
  split; rewrite ?Huid, ?Hdest, ?Hroot; try done.
  - apply (po_uid _ _ _ _ _ _ _ _ _ _ Hpo).
  - split_and!; [apply (po_pool _ _ _ _ _ _ _ _ _ _ Hpo) | done | done].
  - split; [done |]. intros j h Hj. simpl in Hj. apply lookup_insert_Some in Hj as [[_ <-] | [_ Hj]]; [| by eapply Hsizes].
    rewrite Hsize. pose proof (po_size _ _ _ _ _ _ _ _ _ _ Hpo). unfold is_u64, u64_mod. lia.
  - eexists id, _, fid, g. split_and!; cycle 4.
    + apply find_node_Some; [apply same_text_equiv | done |]. split_and!; [simpl; by rewrite lookup_insert_eq | done |].
      apply same_text_equiv.
    + done.
    + simpl. by rewrite lookup_insert_eq.
    + done.
    + done.
    + done.
    + done.
  - split; [done |]. apply (hex_text (sha256 l)).
  - apply (po_names _ _ _ _ _ _ _ _ _ _ Hpo).
  - exists i. split; [done |]. unfold saved in Hfile. by rewrite Hi in Hfile.
  - apply (po_size _ _ _ _ _ _ _ _ _ _ Hpo).
Qed.

(** An upload end to end.  Let the client's local file hold [l] and the server
    be able to take it.  The client that reads the server's two packets sends its
    request and then, in some division into chunks, exactly the bytes that the
    server lacks, and reports success; the server that reads those chunks sends
    exactly those two packets and has stored [l] under its hash and path. *)
Theorem upload_end_to_end p t task ktask path parent name pid l have cf i f d cs :
  upload_possible p t task path parent name pid l f d ->
  have = usable (Z.of_nat (length l)) (saved f (x_transfer_temp_dir task ++ [SLASH] ++ hex (sha256 l) ++ lit ".part")) ->
  take (length have) l = have ->
  k_session_id ktask = task_sid task -> k_remote_path ktask = path -> Z.of_nat (length path) < PATH_MAX ->
  fault_free cf -> dir cf !! k_local_path ktask = Some i -> content cf i = l ->
  cworld [] (upload_reply (task_sid task) have) (upload_room ktask l) cf cs ->
  exists cs' chunks, run_upload malloc_ok ktask cs = Ret (0, cs') /\ same_files cf (cl_fs cs') /\ have ++ concat chunks = l /\
    sent (cl_sock cs') = wire_packet (puts_packet ktask path l) ++ incoming (task_sid task) chunks /\
    x_packet task = received (puts_packet ktask path l) /\
    forall ss, world [] (incoming (task_sid task) chunks) (length (upload_reply (task_sid task) have)) f d ss ->
      exists ss' f' d', handle_puts malloc_ok task ss = Ret (tt, ss') /\
        sent (xf_sock ss') = upload_reply (task_sid task) have /\ xf_fs ss' = f' /\ xf_db ss' = d' /\
        uploaded p t task (render (parent ++ [name])) pid name l f f' d'.
Proof.
  intros Hpo Hhave Hpre Hks Hkp Hlp Hcf Hi Hl Hw.
  destruct (upload_exchange p t task ktask path parent name pid l have cf i f d cs Hpo Hhave Hpre Hks Hkp Hlp Hcf Hi Hl Hw)
    as (cs' & chunks & Hrun & Hall & Hcat & Hsent & Hs).
  exists cs', chunks. split_and!; [done | done | done | done | |].
  { rewrite (po_packet _ _ _ _ _ _ _ _ _ _ Hpo). unfold puts_request, puts_packet. by rewrite Hks. }
  intros ss Hss. unfold upload_reply in Hss. rewrite length_app in Hss.
  destruct (handle_puts_flow malloc_ok Hmalloc p t task path parent name pid l have chunks [] [] 0 f d ss Hpo Hhave Hall Hcat)
    as ([] & ss' & Hret & f' & d' & ([Hsent' _ _ _ _] & Hf' & Hd') & Hup).
  { by rewrite app_nil_r, Nat.add_0_r. }
  by exists ss', f', d'.
Qed.

(** The client whose session is [sid] lacks [l] and keeps [have] of it from an
    earlier attempt. *)
Record download_client (sid : session_id) (ktask : client_task) (l have : list byte) (cf : fs) : Prop := {
  dc_sid : k_session_id ktask = sid;
  dc_paths : k_part_path ktask <> k_target_path ktask;
  dc_kernel : fault_free cf;
  dc_target i : dir cf !! k_target_path ktask = Some i -> ~ verified (Z.of_nat (length l)) (hex (sha256 l)) (content cf i);
  dc_have : have = usable (Z.of_nat (length l)) (saved cf (k_part_path ktask));
  dc_prefix : take (length have) l = have
}.

(** What the two sides of a download send *)
Definition served (sid : session_id) (name l have : list byte) : list byte :=
  wire_packet (info_packet sid name (Z.of_nat (length l)) (hex (sha256 l))) ++ download_bytes sid (length have) l.
Definition requested (sid : session_id) (have : list byte) : list byte :=
  wire_packet (start_packet sid (Z.of_nat (length have))) ++ wire_packet (ack_packet sid).

(** A download of [l] by the client [ktask], whose handler runs in state [ss].  If
    the stack byte after the hash is NUL, the handler returns, with its files and
    tables as they were; and the client that reads exactly the bytes that the
    handler has sent reports success with [l] in its target and no part file left,
    after sending its request and then exactly the bytes that the handler reads.
    With any other stack byte the handler's behaviour is undefined. *)
Definition fetched (p : database_pool) (t : tables) (task : transfer_task) (ktask : client_task) (m0 : file_meta)
    (l have : list byte) (cf : fs) (f : fs) (ss : xfer_state) : Prop :=
  (stale m0 = [NUL] ->
   exists ss', handle_gets malloc_ok m0 task ss = Ret (tt, ss') /\ same_files f (xf_fs ss') /\ settled p t (xf_db ss') /\
   forall cs, cworld [] (sent (xf_sock ss')) (download_room ktask have) cf cs ->
   exists cs', run_download malloc_ok ktask cs = Ret (0, cs') /\
     saved (cl_fs cs') (k_target_path ktask) = l /\ dir (cl_fs cs') !! k_part_path ktask = None /\
     opened (cl_fs cs') = opened cf /\
     sent (cl_sock cs') = wire_packet (response CMD_GETS_REQ STATUS_OK (task_sid task) (Some (k_remote_path ktask))) ++
       requested (task_sid task) have) /\
  (stale m0 <> [NUL] -> handle_gets malloc_ok m0 task ss = Undef).

Lemma download_both p t task ktask m0 name l have cf f d ss :
  download_possible p t task m0 (k_remote_path ktask) name (hex (sha256 l)) l (Z.of_nat (length l)) f d ->
  download_client (task_sid task) ktask l have cf ->
  world [] (requested (task_sid task) have) (length (served (task_sid task) name l have)) f d ss ->
  fetched p t task ktask m0 l have cf f ss.
Proof.
  intros Hdo [Hks Hne Hff Hno Hhave Hpre] Hsw. pose proof (do_sid _ _ _ _ _ _ _ _ _ _ _ Hdo) as Hsid.
  pose proof (do_req _ _ _ _ _ _ _ _ _ _ _ Hdo) as (_ & Hrp & Hlrp). pose proof (do_size _ _ _ _ _ _ _ _ _ _ _ Hdo) as Hmax.
  split; [| by eapply handle_gets_stale; [done | apply Hsw]]. intros Hst.
  destruct (handle_gets_flow malloc_ok Hmalloc p t task m0 _ name (hex (sha256 l)) l _ (length have) [] [] 0 f d ss Hdo Hst)
    as ([] & ss' & Hret & f' & d' & ([Hsent _ _ _ _] & Hf' & Hd') & Hsame & Hset).
  { rewrite <- Hpre, length_take. lia. }
  { rewrite app_nil_r, Nat.add_0_r. unfold served in Hsw. rewrite length_app in Hsw. exact Hsw. }
  exists ss'. rewrite Hf', Hd'. split_and!; [done | done | done |]. intros cs Hcw. rewrite Hsent in Hcw. rewrite <- Hks in *.
  destruct (download_exchange ktask name l have cf cs Hsid Hne Hff Hmax Hrp Hlrp Hno Hhave Hpre Hcw) as (cs' & Hrun & H1 & H2 & H3 & H4).
  by exists cs'.
Qed.


End both.

(** ** A concrete client beside the concrete server *)

Definition demo_roomy (script : list byte) : socket :=
  {| sent := []; send_script := replicate (50 * 100) (SendCount 7); recv_script := [RecvBytes script]; buffers := 0 |}.

Lemma demo_roomy_channel script room : script <> [] -> (room <= 50 * 100)%nat -> channel [] script room (demo_roomy script).
Proof.
  intros Hne Hroom. split; cbn [demo_roomy sent recv_script send_script stream flat_map]; [done | by rewrite app_nil_r | | |].
  - by repeat constructor.
  - apply Forall_replicate. by split.
  - assert (Hr : forall n, send_room (replicate n (SendCount 7)) = n) by (induction n as [| n IH]; simpl; congruence).
    by rewrite Hr.
Qed.

(** The local file [new.txt] of the client and the task that uploads it *)
Definition demo_local : fs :=
  {| dir := {[ lit "new.txt" := 0%N ]}; data := {[ 0%N := demo_content ]}; opened := 0; io := [IoOk; IoCount 3] |}.
Definition demo_put : client_task := {|
  k_session_id := demo_sid; k_local_path := lit "new.txt"; k_remote_path := lit "/docs/new.txt";
  k_target_path := []; k_part_path := [] |}.

Lemma upload_end_to_end_witness :
  exists cs' chunks ss',
    @run_upload false demo_sha256 (fun _ => true) demo_put
      {| cl_sock := demo_roomy (@upload_reply false demo_sid (lit "hello ")); cl_fs := demo_local; cl_cancel := None |} = Ret (0, cs') /\
    @handle_puts false demo_mysql demo_sha256 (fun _ => true) demo_upload
      (demo_xfer (incoming demo_sid chunks) demo_files demo_tables2) = Ret (tt, ss') /\
    saved (xf_fs ss') (lit "/srv/" ++ demo_hash) = demo_content.
Proof.
  destruct (@upload_end_to_end false demo_mysql demo_spec demo_results demo_up_instance demo_sha256 (fun _ => true) (fun _ => eq_refl)
    demo_pool demo_tables2 demo_upload demo_put (lit "/docs/new.txt") [lit "docs"] (lit "new.txt") 3 demo_content (lit "hello ")
    demo_local 0%N demo_files (demo_state demo_tables2)
    {| cl_sock := demo_roomy (@upload_reply false demo_sid (lit "hello ")); cl_fs := demo_local; cl_cancel := None |})
    as (cs' & chunks & Hrun & _ & Hcat & _ & _ & Hserver).
  - exact demo_upload_possible.
  - vm_compute; reflexivity.
  - reflexivity.
  - reflexivity.
  - reflexivity.
  - vm_compute; reflexivity.
  - by repeat constructor.
  - vm_compute; reflexivity.
  - reflexivity.
  - split_and!; [| reflexivity | reflexivity]. apply demo_roomy_channel; [done |].
    apply (bool_decide_unpack _). vm_compute. exact I.
  - destruct (Hserver (demo_xfer (incoming demo_sid chunks) demo_files demo_tables2)) as (ss' & f' & d' & Hret & _ & <- & _ & Hup).
    + split_and!; [| reflexivity | reflexivity]. apply demo_channel; [| vm_compute; lia].
      destruct chunks as [| c chunks]; [discriminate Hcat |]. intros [_ Hnil]%app_nil. discriminate Hnil.
    + exists cs', chunks, ss'. split; [exact Hrun |]. split; [exact Hret |]. exact (up_file _ _ _ _ _ _ _ _ _ _ Hup).
Defined.

(** The client that fetches the file, with 6 bytes of it from an earlier attempt *)
Definition demo_partial : fs :=
  {| dir := {[ lit "new.txt.part" := 0%N ]}; data := {[ 0%N := lit "hello " ]}; opened := 0; io := [IoOk; IoCount 3] |}.
Definition demo_get : client_task := {|
  k_session_id := demo_sid; k_local_path := []; k_remote_path := lit "docs/new.txt";
  k_target_path := lit "new.txt"; k_part_path := lit "new.txt.part" |}.

Lemma demo_download_client : @download_client demo_sha256 demo_sid demo_get demo_content (lit "hello ") demo_partial.
Proof.
  split; [reflexivity | done | by repeat constructor | | vm_compute; reflexivity | reflexivity].
  intros i Hi. vm_compute in Hi. discriminate Hi.
Qed.

(** That client, reading [script] *)
Definition demo_getting (script : list byte) : client_state :=
  {| cl_sock := demo_roomy script; cl_fs := demo_partial; cl_cancel := None |}.

Lemma demo_getting_world script room :
  script <> [] -> (room <= 50 * 100)%nat -> cworld [] script room demo_partial (demo_getting script).
Proof. intros Hne Hr. split_and!; [by apply demo_roomy_channel | done | done]. Qed.

(** Whether a run of a handler returned after sending something *)
Definition spoke (o : outcome (unit * @xfer_state demo_mysql)) : bool :=
  match o with Ret (_, s) => negb (bool_decide (sent (xf_sock s) = [])) | _ => false end.

Lemma spoke_sent o s : spoke o = true -> o = Ret (tt, s) -> sent (xf_sock s) <> [].
Proof. intros Ho ->. simpl in Ho. by case_bool_decide. Qed.


Lemma download_integrity_witness :
  exists s', @fetch_file false demo_sha256 (fun _ => true) demo_get 11 demo_hash
      {| cl_sock := demo_roomy (download_bytes demo_sid 6 demo_content); cl_fs := demo_partial; cl_cancel := None |} = Ret (0, s') /\
    @placed demo_sha256 demo_get 11 demo_hash (cl_fs s').
Proof.
  destruct (@download_integrity false demo_sha256 (fun _ => true) demo_get 11 demo_hash
    {| cl_sock := demo_roomy (download_bytes demo_sid 6 demo_content); cl_fs := demo_partial; cl_cancel := None |})
    as [_ Hall].
  - by vm_compute.
  - done.
  - split.
    + cbn [cl_fs demo_partial dir]. intros q1 q2 i Hp Hq. apply lookup_singleton_Some in Hp as [<- _], Hq as [<- _]. done.
    + cbn [cl_fs demo_partial dir data]. intros q i Hp. apply lookup_singleton_Some in Hp as [_ <-]. by rewrite lookup_singleton_eq.
  - eexists. split; [vm_compute; reflexivity |]. eapply (Hall 0); [vm_compute; reflexivity | reflexivity].
Defined.

(** After the upload of the demonstration the kernel has nothing left to refuse and
    the database is still up. *)
Definition demo_calm (s : @xfer_state demo_mysql) : bool :=
  let d := demo_db (srv (xf_db s)) in
  forallb answer_ok (io (xf_fs s)) && match txn d with None => true | _ => false end &&
  (keys_below (demo_next (srv (xf_db s))) (users (now d)) && keys_below (demo_next (srv (xf_db s))) (files (now d)) &&
   keys_below (demo_next (srv (xf_db s))) (paths (now d))) &&
  (0 <? demo_next (srv (xf_db s))) && (demo_next (srv (xf_db s)) + 1 <? 2 ^ 31).

Lemma demo_calm_spec s : demo_calm s = true -> fault_free (xf_fs s) /\ @up demo_mysql demo_spec demo_up_instance 1 (srv (xf_db s)).
Proof.
  unfold demo_calm. intros [[[[H1 H2]%andb_prop H3]%andb_prop H4]%andb_prop H5]%andb_prop.
  apply Z.ltb_lt in H4, H5.
  split; [by apply Forall_forall; intros x Hx; eapply forallb_forall in H1; [| by apply list_elem_of_In] |].
  split_and!; [done | done | by apply below_check |]. intros h t Ht. by rewrite Ht in H2.
Qed.

(** The chunks that the client sends, and the server that reads them *)
Definition demo_sending : client_state :=
  {| cl_sock := demo_roomy (@upload_reply false demo_sid (lit "hello ")); cl_fs := demo_local; cl_cancel := None |}.
Definition demo_missing : list byte :=
  match @run_upload false demo_sha256 (fun _ => true) demo_put demo_sending with
  | Ret (_, s) => drop (length (wire_packet (@puts_packet false demo_sha256 demo_put (lit "/docs/new.txt") demo_content))) (sent (cl_sock s))
  | _ => []
  end.
Definition demo_taking : @xfer_state demo_mysql := demo_xfer demo_missing demo_files demo_tables2.

Lemma demo_missing_spec cs' missing :
  @run_upload false demo_sha256 (fun _ => true) demo_put demo_sending = Ret (0, cs') ->
  sent (cl_sock cs') = wire_packet (@puts_packet false demo_sha256 demo_put (lit "/docs/new.txt") demo_content) ++ missing ->
  missing = demo_missing.
Proof. intros Hrun Hs. unfold demo_missing. rewrite Hrun, Hs. by rewrite drop_app_length. Qed.

Lemma demo_uploaded_calm s1 :
  @handle_puts false demo_mysql demo_sha256 (fun _ => true) demo_upload demo_taking = Ret (tt, s1) -> demo_calm s1 = true.
Proof.
  assert (Hb : match @handle_puts false demo_mysql demo_sha256 (fun _ => true) demo_upload demo_taking with
               | Ret (_, s) => demo_calm s | _ => false end = true) by (vm_compute; reflexivity).
  intros E. by rewrite E in Hb.
Qed.

(** The handler that serves the file after the upload *)
Definition demo_serving (s1 : @xfer_state demo_mysql) : @xfer_state demo_mysql :=
  {| xf_sock := demo_socket (@requested false demo_sid (lit "hello ")); xf_fs := xf_fs s1; xf_db := xf_db s1 |}.

Lemma demo_serving_spoke s1 :
  @handle_puts false demo_mysql demo_sha256 (fun _ => true) demo_upload demo_taking = Ret (tt, s1) ->
  spoke (@handle_gets false demo_mysql (fun _ => true) demo_meta0 demo_download (demo_serving s1)) = true.
Proof.
  assert (Hb : match @handle_puts false demo_mysql demo_sha256 (fun _ => true) demo_upload demo_taking with
               | Ret (_, s) => spoke (@handle_gets false demo_mysql (fun _ => true) demo_meta0 demo_download (demo_serving s))
               | _ => false end = true) by (vm_compute; reflexivity).
  intros E. by rewrite E in Hb.
Qed.

