(* ===== verification/ClientRuntime.v ===== *)
(** * The client's session state ([src/client/runtime.c], [src/client/config.h])

    The main thread owns this state; the threads of transfers work on snapshots
    of it ([client_runtime_session_snapshot]).  A character array is its text;
    pointers that no caller passes as NULL are not optional here. *)

From Stdlib Require Import Strings.Byte.
From S2P Require Import Prelude CString Protocol.

(** ** Data *)

Record remote_config := { host : list byte; port : list byte }.
Record log_config := { log_level : list byte; log_file : list byte }.
Record storage_config := { cfg_download_dir : list byte }.
Record transfer_config := { max_concurrent : Z; connect_timeout_ms : Z; io_timeout_ms : Z }.
Record client_config := {
  remote : remote_config;
  log : log_config;
  storage : storage_config;
  transfer : transfer_config
}.

Definition HOST_SIZE : Z := 64.
Definition PORT_SIZE : Z := 16.
Definition LOG_LEVEL_SIZE : Z := 16.
Definition USERNAME_SIZE : Z := 64.

(** [rt_transfers] tells whether the pointer to the transfer manager is set; the
    manager itself is state that its threads share. *)
Record client_runtime := {
  rt_config : client_config;
  control_fd : Z;
  rt_session_id : session_id;
  rt_username : list byte;
  rt_remote_cwd : list byte;
  rt_download_dir : list byte;
  rt_transfers : bool
}.

Definition set_session (rt : client_runtime) (sid : session_id) (username cwd : list byte) : client_runtime :=
  {| rt_config := rt_config rt; control_fd := control_fd rt; rt_session_id := sid; rt_username := username;
     rt_remote_cwd := cwd; rt_download_dir := rt_download_dir rt; rt_transfers := rt_transfers rt |}.
Definition set_control_fd (rt : client_runtime) (fd : Z) : client_runtime :=
  {| rt_config := rt_config rt; control_fd := fd; rt_session_id := rt_session_id rt; rt_username := rt_username rt;
     rt_remote_cwd := rt_remote_cwd rt; rt_download_dir := rt_download_dir rt; rt_transfers := rt_transfers rt |}.

(** ** Operations *)

Definition strnlen (size : Z) (s : list byte) : Z := Z.min (Z.of_nat (length s)) size.

(** [None] is -1, which leaves the runtime as it was. *)
Definition client_runtime_publish_session (rt : client_runtime) (sid : session_id) (username : list byte)
    : option client_runtime :=
  if session_id_is_empty sid then None
  else
    let username_length := strnlen USERNAME_SIZE username in
    if (username_length =? 0) || (username_length =? USERNAME_SIZE) then None
    else Some (set_session rt sid (take (Z.to_nat username_length) username) [SLASH]).

Definition client_runtime_clear_session (rt : client_runtime) : client_runtime :=
  set_session rt empty_session_id [] [].

(** The session id, the user name and the directory *)
Definition client_runtime_session_snapshot (rt : client_runtime) (username_size cwd_size : Z)
    : option (session_id * list byte * list byte) :=
  if (username_size =? 0) || (cwd_size =? 0) then None
  else
    let username_length := strnlen USERNAME_SIZE (rt_username rt) in
    let cwd_length := strnlen PATH_MAX (rt_remote_cwd rt) in
    if session_id_is_empty (rt_session_id rt) || (username_length =? USERNAME_SIZE) || (cwd_length =? PATH_MAX) ||
       (username_size <=? username_length) || (cwd_size <=? cwd_length)
    then None
    else Some (rt_session_id rt, rt_username rt, rt_remote_cwd rt).

Definition client_runtime_update_cwd (rt : client_runtime) (cwd : list byte) : option client_runtime :=
  let cwd_length := strnlen PATH_MAX cwd in
  if (cwd_length =? 0) || (cwd_length =? PATH_MAX) then None
  else if session_id_is_empty (rt_session_id rt) then None
  else Some (set_session rt (rt_session_id rt) (rt_username rt) (take (Z.to_nat cwd_length) cwd)).

(** The result is the runtime and the descriptor that is shut down and closed. *)
Definition client_runtime_disconnect_control (rt : client_runtime) : option Z * client_runtime :=
  let closed := if 0 <=? control_fd rt then Some (control_fd rt) else None in
  let rt := if 0 <=? control_fd rt then set_control_fd rt (-1) else rt in
  (closed, client_runtime_clear_session rt).

(** ** Well-formed runtimes *)

(** Either nobody is logged in and everything is blank, or the session, the user
    name and the directory are all there and fit their arrays. *)
Definition logged_out (rt : client_runtime) : Prop :=
  rt_session_id rt = empty_session_id /\ rt_username rt = [] /\ rt_remote_cwd rt = [].
Definition logged_in (rt : client_runtime) : Prop :=
  session_id_is_empty (rt_session_id rt) = false /\ session_id_wf (rt_session_id rt) /\
  0 < Z.of_nat (length (rt_username rt)) < USERNAME_SIZE /\
  0 < Z.of_nat (length (rt_remote_cwd rt)) < PATH_MAX.
Definition session_ok (rt : client_runtime) : Prop := logged_out rt \/ logged_in rt.

Lemma publish_logged_in rt sid username rt' :
  session_id_wf sid -> client_runtime_publish_session rt sid username = Some rt' ->
  logged_in rt' /\ rt_session_id rt' = sid /\ rt_username rt' = username /\ rt_remote_cwd rt' = [SLASH] /\
  control_fd rt' = control_fd rt /\ rt_config rt' = rt_config rt /\ rt_download_dir rt' = rt_download_dir rt /\
  rt_transfers rt' = rt_transfers rt.
Proof.
  intros Hwf. unfold client_runtime_publish_session, strnlen, USERNAME_SIZE.
  destruct (session_id_is_empty sid) eqn:He; [done |].
  destruct (Z.eqb_spec (Z.min (Z.of_nat (length username)) 64) 0); [done |].
  destruct (Z.eqb_spec (Z.min (Z.of_nat (length username)) 64) 64); [done |]. intros [= <-]. cbn.
  rewrite take_ge by lia. repeat split; try done; unfold USERNAME_SIZE, PATH_MAX; simpl; lia.
Qed.

Lemma clear_logged_out rt : logged_out (client_runtime_clear_session rt).
Proof. done. Qed.

Lemma update_cwd_logged_in rt cwd rt' :
  logged_in rt -> client_runtime_update_cwd rt cwd = Some rt' ->
  logged_in rt' /\ rt_remote_cwd rt' = cwd /\ rt_session_id rt' = rt_session_id rt /\ rt_username rt' = rt_username rt /\
  control_fd rt' = control_fd rt /\ rt_transfers rt' = rt_transfers rt.
Proof.
  intros (He & Hwf & Hu & Hc). unfold client_runtime_update_cwd, strnlen, PATH_MAX. rewrite He.
  destruct (Z.eqb_spec (Z.min (Z.of_nat (length cwd)) 4096) 0); [done |].
  destruct (Z.eqb_spec (Z.min (Z.of_nat (length cwd)) 4096) 4096); [done |]. intros [= <-]. cbn.
  rewrite take_ge by lia. repeat split; try done; unfold PATH_MAX; simpl; lia.
Qed.

Lemma empty_is_empty : session_id_is_empty empty_session_id = true.
Proof. done. Qed.

(** In a well-formed runtime a snapshot into arrays of the same sizes succeeds
    exactly when somebody is logged in. *)
Lemma snapshot_ok rt : session_ok rt ->
  (logged_in rt /\ client_runtime_session_snapshot rt USERNAME_SIZE PATH_MAX =
     Some (rt_session_id rt, rt_username rt, rt_remote_cwd rt)) \/
  (logged_out rt /\ client_runtime_session_snapshot rt USERNAME_SIZE PATH_MAX = None).
Proof.
  intros [Ho | Hi]; [right | left]; split; try done; unfold client_runtime_session_snapshot.
  - destruct Ho as (-> & -> & ->). done.
  - destruct Hi as (He & _ & Hu & Hc). rewrite He. unfold strnlen, USERNAME_SIZE, PATH_MAX in *. cbn [Z.eqb orb].
    rewrite !(proj2 (Z.eqb_neq _ _)), !(proj2 (Z.leb_gt _ _)) by lia. done.
Qed.

Lemma disconnect_logged_out rt :
  logged_out (snd (client_runtime_disconnect_control rt)) /\ control_fd (snd (client_runtime_disconnect_control rt)) < 0.
Proof.
  unfold client_runtime_disconnect_control. destruct (Z.leb_spec 0 (control_fd rt)); split; try done; simpl; lia.
Qed.
