(* ===== verification/TransferManager.v ===== *)
(** * The transfer manager ([src/client/transfer.c], from [task_publish_socket] on)

    Every transfer of the client runs on a detached thread of its own.  The
    manager keeps the running tasks in a linked list, the results that the main
    thread has not shown yet in a queue of events, and one mutex around both.  The
    code between taking and giving up the mutex is one function; threads
    interleave at these sections ([TransferSystem]). *)

From Stdlib Require Import Strings.Byte.
From S2P Require Import Prelude CString Protocol Utils Heap Files HandlerTransfer ClientTransfer ClientRuntime.

#[global] Instance transfer_result_eq_dec : EqDecision transfer_result.
Proof. solve_decision. Defined.

(** ** Data *)

Record transfer_event := {
  e_kind : transfer_kind;
  e_result : transfer_result;
  e_path : list byte;
  e_next : addr
}.

(** [transfer_task_t]; [a_body] holds the session id and the paths. *)
Record active_task := {
  a_next : addr;
  a_event : addr;
  a_kind : transfer_kind;
  a_canceled : bool;
  a_socket_fd : Z;
  a_host : list byte;
  a_port : list byte;
  a_connect_timeout_ms : Z;
  a_io_timeout_ms : Z;
  a_body : client_task
}.

(** The manager, with the memory of its tasks and events *)
Record transfer_manager := {
  m_active : addr;
  m_active_count : Z;
  m_max_concurrent : Z;
  m_stopping : bool;
  m_events_head : addr;
  m_events_tail : addr;
  m_tasks : gmap addr active_task;
  m_events : gmap addr transfer_event
}.

Definition set_m_tasks (m : transfer_manager) (ts : gmap addr active_task) : transfer_manager :=
  {| m_active := m_active m; m_active_count := m_active_count m; m_max_concurrent := m_max_concurrent m;
     m_stopping := m_stopping m; m_events_head := m_events_head m; m_events_tail := m_events_tail m;
     m_tasks := ts; m_events := m_events m |}.
Definition set_m_events (m : transfer_manager) (es : gmap addr transfer_event) : transfer_manager :=
  {| m_active := m_active m; m_active_count := m_active_count m; m_max_concurrent := m_max_concurrent m;
     m_stopping := m_stopping m; m_events_head := m_events_head m; m_events_tail := m_events_tail m;
     m_tasks := m_tasks m; m_events := es |}.
Definition set_m_active (m : transfer_manager) (p : addr) (n : Z) : transfer_manager :=
  {| m_active := p; m_active_count := n; m_max_concurrent := m_max_concurrent m;
     m_stopping := m_stopping m; m_events_head := m_events_head m; m_events_tail := m_events_tail m;
     m_tasks := m_tasks m; m_events := m_events m |}.
Definition set_m_queue (m : transfer_manager) (h t : addr) : transfer_manager :=
  {| m_active := m_active m; m_active_count := m_active_count m; m_max_concurrent := m_max_concurrent m;
     m_stopping := m_stopping m; m_events_head := h; m_events_tail := t;
     m_tasks := m_tasks m; m_events := m_events m |}.
Definition set_m_stopping (m : transfer_manager) : transfer_manager :=
  {| m_active := m_active m; m_active_count := m_active_count m; m_max_concurrent := m_max_concurrent m;
     m_stopping := true; m_events_head := m_events_head m; m_events_tail := m_events_tail m;
     m_tasks := m_tasks m; m_events := m_events m |}.

Definition set_a_next (q : addr) (t : active_task) : active_task :=
  {| a_next := q; a_event := a_event t; a_kind := a_kind t; a_canceled := a_canceled t; a_socket_fd := a_socket_fd t;
     a_host := a_host t; a_port := a_port t; a_connect_timeout_ms := a_connect_timeout_ms t;
     a_io_timeout_ms := a_io_timeout_ms t; a_body := a_body t |}.
Definition set_a_canceled (t : active_task) : active_task :=
  {| a_next := a_next t; a_event := a_event t; a_kind := a_kind t; a_canceled := true; a_socket_fd := a_socket_fd t;
     a_host := a_host t; a_port := a_port t; a_connect_timeout_ms := a_connect_timeout_ms t;
     a_io_timeout_ms := a_io_timeout_ms t; a_body := a_body t |}.
Definition set_a_socket (fd : Z) (t : active_task) : active_task :=
  {| a_next := a_next t; a_event := a_event t; a_kind := a_kind t; a_canceled := a_canceled t; a_socket_fd := fd;
     a_host := a_host t; a_port := a_port t; a_connect_timeout_ms := a_connect_timeout_ms t;
     a_io_timeout_ms := a_io_timeout_ms t; a_body := a_body t |}.
Definition set_e_next (q : addr) (e : transfer_event) : transfer_event :=
  {| e_kind := e_kind e; e_result := e_result e; e_path := e_path e; e_next := q |}.
Definition set_e_result (r : transfer_result) (e : transfer_event) : transfer_event :=
  {| e_kind := e_kind e; e_result := r; e_path := e_path e; e_next := e_next e |}.

(** Stores into a task and into an event *)
Definition write_task (m : transfer_manager) (a : addr) (f : active_task -> active_task) : outcome transfer_manager :=
  t ← deref (m_tasks m !! a); Ret (set_m_tasks m (<[a := f t]> (m_tasks m))).
Definition write_event (m : transfer_manager) (a : addr) (f : transfer_event -> transfer_event) : outcome transfer_manager :=
  e ← deref (m_events m !! a); Ret (set_m_events m (<[a := f e]> (m_events m))).

Definition task_next (m : transfer_manager) (a : addr) : option addr := a_next <$> m_tasks m !! a.

(** ** The thread of a task *)

Definition task_publish_socket (m : transfer_manager) (a : addr) (fd : Z) : outcome (Z * transfer_manager) :=
  t ← deref (m_tasks m !! a);
  if a_canceled t then Ret (-1, m)
  else m ← write_task m a (set_a_socket fd); Ret (0, m).

(** The section of [task_close_socket]; the caller then closes the descriptor. *)
Definition task_close_socket (m : transfer_manager) (a : addr) : outcome (Z * transfer_manager) :=
  t ← deref (m_tasks m !! a);
  m ← write_task m a (set_a_socket (-1));
  Ret (a_socket_fd t, m).

(** [finish_task] before it takes the mutex *)
Definition finish_result (m : transfer_manager) (a : addr) (operation_result : Z) : outcome transfer_manager :=
  t ← deref (m_tasks m !! a);
  write_event m (a_event t)
    (set_e_result (if a_canceled t then TRANSFER_RESULT_CANCELED
                   else if operation_result =? 0 then TRANSFER_RESULT_OK else TRANSFER_RESULT_FAILED)).

(** Storing a task's successor through the link that leads to it *)
Definition store_active_link (m : transfer_manager) (lk : link) (q : addr) : outcome transfer_manager :=
  match lk with
  | LHead => Ret (set_m_active m q (m_active_count m))
  | LNext b => write_task m b (set_a_next q)
  end.

(** Appending an event to the queue *)
Definition queue_event (m : transfer_manager) (e : addr) : outcome transfer_manager :=
  m ← write_event m e (set_e_next NULL);
  if bool_decide (m_events_tail m = NULL) then Ret (set_m_queue m e e)
  else m ← write_event m (m_events_tail m) (set_e_next e); Ret (set_m_queue m (m_events_head m) e).

(** ... while it holds it; the result says whether it broadcasts [idle] *)
Definition finish_section (m : transfer_manager) (a : addr) : outcome (bool * transfer_manager) :=
  '(lk, cur) ← walk_link (size (m_tasks m)) (task_next m) (fun b => Some (bool_decide (b = a))) LHead (m_active m);
  t ← deref (m_tasks m !! a);
  m ← (if bool_decide (cur = a)
       then m ← store_active_link m lk (a_next t); Ret (set_m_active m (m_active m) (u64 (m_active_count m - 1)))
       else Ret m);
  m ← queue_event m (a_event t);
  Ret (m_active_count m =? 0, m).

(** ... and [free(task)] after it *)
Definition finish_free (m : transfer_manager) (a : addr) : outcome transfer_manager :=
  _ ← deref (m_tasks m !! a); Ret (set_m_tasks m (delete a (m_tasks m))).

Section run.
Context `{Host} `{Sha256} (malloc_ok : Z -> bool).

(** What [transfer_worker] does once its socket is published *)
Definition run_transfer (kind : transfer_kind) (task : client_task) : cm Z :=
  match kind with
  | TRANSFER_UPLOAD => run_upload malloc_ok task
  | TRANSFER_DOWNLOAD => run_download malloc_ok task
  end.
End run.

(** ** The main thread *)

(** [ok] is the success of [calloc] and of the two initialisations. *)
Definition transfer_manager_create (max : Z) (ok : bool) : option transfer_manager :=
  if (max =? 0) || negb ok then None
  else Some {| m_active := NULL; m_active_count := 0; m_max_concurrent := max; m_stopping := false;
               m_events_head := NULL; m_events_tail := NULL; m_tasks := ∅; m_events := ∅ |}.

(** The loop of [transfer_manager_stop] over the running tasks; the result lists
    the descriptors it shuts down. *)
Fixpoint stop_loop (fuel : nat) (m : transfer_manager) (p : addr) : outcome (list Z * transfer_manager) :=
  if bool_decide (p = NULL) then Ret ([], m)
  else
    match fuel with
    | O => NoReturn
    | S fuel =>
        m ← write_task m p set_a_canceled;
        t ← deref (m_tasks m !! p);
        '(fds, m) ← stop_loop fuel m (a_next t);
        Ret ((if 0 <=? a_socket_fd t then [a_socket_fd t] else []) ++ fds, m)
    end.

(** [transfer_manager_stop] up to its wait *)
Definition stop_section (m : transfer_manager) : outcome (list Z * transfer_manager) :=
  let m := set_m_stopping m in
  stop_loop (size (m_tasks m)) m (m_active m).

(** Whether the wait for [idle] is over *)
Definition stop_done (m : transfer_manager) : bool := m_active_count m =? 0.

(** The section of [transfer_manager_drain_events] *)
Definition drain_section (m : transfer_manager) : addr * transfer_manager :=
  (m_events_head m, set_m_queue m NULL NULL).

(** What is shown of an event *)
Definition shown (e : transfer_event) : transfer_kind * transfer_result * list byte := (e_kind e, e_result e, e_path e).

(** ... and its loop, which shows and frees the events *)
Fixpoint drain_loop (fuel : nat) (m : transfer_manager) (p : addr)
    : outcome (list (transfer_kind * transfer_result * list byte) * transfer_manager) :=
  if bool_decide (p = NULL) then Ret ([], m)
  else
    match fuel with
    | O => NoReturn
    | S fuel =>
        e ← deref (m_events m !! p);
        let m := set_m_events m (delete p (m_events m)) in
        '(out, m) ← drain_loop fuel m (e_next e);
        Ret (shown e :: out, m)
    end.

(** [transfer_manager_destroy]: the events that are left are freed, then the
    manager. *)
Definition transfer_manager_destroy (m : transfer_manager) : outcome transfer_manager :=
  '(_, m) ← drain_loop (size (m_events m)) m (m_events_head m); Ret m.

(** ** Submission *)

(** A task and an event as [allocate_task] initialises them *)
Definition blank_task (kind : transfer_kind) (e : addr) : active_task :=
  {| a_next := NULL; a_event := e; a_kind := kind; a_canceled := false; a_socket_fd := -1;
     a_host := []; a_port := []; a_connect_timeout_ms := 0; a_io_timeout_ms := 0;
     a_body := {| k_session_id := empty_session_id; k_local_path := []; k_remote_path := [];
                  k_target_path := []; k_part_path := [] |} |}.
Definition blank_event (kind : transfer_kind) : transfer_event :=
  {| e_kind := kind; e_result := TRANSFER_RESULT_OK; e_path := []; e_next := NULL |}.

(** [allocate_task]: [alloc] answers the two calls of [calloc]. *)
Definition allocate_task (m : transfer_manager) (kind : transfer_kind) (alloc : option addr * option addr)
    : option (addr * transfer_manager) :=
  match alloc with
  | (Some a, Some e) =>
      Some (a, set_m_events (set_m_tasks m (<[a := blank_task kind e]> (m_tasks m)))
                 (<[e := blank_event kind]> (m_events m)))
  | _ => None
  end.

Definition free_unstarted_task (m : transfer_manager) (a : addr) : outcome transfer_manager :=
  t ← deref (m_tasks m !! a);
  _ ← deref (m_events m !! a_event t);
  let m := set_m_events m (delete (a_event t) (m_events m)) in
  Ret (set_m_tasks m (delete a (m_tasks m))).

(** Whether a running task downloads to [target] *)
Fixpoint target_busy (fuel : nat) (m : transfer_manager) (target : list byte) (p : addr) : outcome bool :=
  if bool_decide (p = NULL) then Ret false
  else
    match fuel with
    | O => NoReturn
    | S fuel =>
        t ← deref (m_tasks m !! p);
        if bool_decide (a_kind t = TRANSFER_DOWNLOAD) && bool_decide (k_target_path (a_body t) = target) then Ret true
        else target_busy fuel m target (a_next t)
    end.

(** [start_task]: [spawned] is the success of the attribute calls and of
    [pthread_create]; on failure the task is taken off the list again. *)
Definition start_task (m : transfer_manager) (a : addr) (spawned : bool) : outcome (Z * transfer_manager) :=
  if m_stopping m || (m_max_concurrent m <=? m_active_count m) then Ret (-1, m)
  else
    t ← deref (m_tasks m !! a);
    busy ← (if bool_decide (a_kind t = TRANSFER_DOWNLOAD)
            then target_busy (size (m_tasks m)) m (k_target_path (a_body t)) (m_active m) else Ret false);
    if busy : bool then Ret (-1, m)
    else
      m ← write_task m a (set_a_next (m_active m));
      let m := set_m_active m a (m_active_count m + 1) in
      if spawned then Ret (0, m)
      else t ← deref (m_tasks m !! a); Ret (-1, set_m_active m (a_next t) (u64 (m_active_count m - 1))).

(** The session and the connection parameters of a task; [k_remote_path] is left
    holding the current directory. *)
Definition snapshot_task (rt : client_runtime) (t : active_task) : option active_task :=
  match client_runtime_session_snapshot rt USERNAME_SIZE PATH_MAX with
  | None => None
  | Some (sid, _, cwd) =>
      match copy_string HOST_SIZE (host (remote (rt_config rt))), copy_string PORT_SIZE (port (remote (rt_config rt))),
            copy_string PATH_MAX cwd with
      | Some h, Some p, Some cwd =>
          Some {| a_next := a_next t; a_event := a_event t; a_kind := a_kind t; a_canceled := a_canceled t;
                  a_socket_fd := a_socket_fd t; a_host := h; a_port := p;
                  a_connect_timeout_ms := connect_timeout_ms (transfer (rt_config rt));
                  a_io_timeout_ms := io_timeout_ms (transfer (rt_config rt));
                  a_body := {| k_session_id := sid; k_local_path := k_local_path (a_body t); k_remote_path := cwd;
                               k_target_path := k_target_path (a_body t); k_part_path := k_part_path (a_body t) |} |}
      | _, _, _ => None
      end
  end.

Definition set_body (b : client_task) (t : active_task) : active_task :=
  {| a_next := a_next t; a_event := a_event t; a_kind := a_kind t; a_canceled := a_canceled t; a_socket_fd := a_socket_fd t;
     a_host := a_host t; a_port := a_port t; a_connect_timeout_ms := a_connect_timeout_ms t;
     a_io_timeout_ms := a_io_timeout_ms t; a_body := b |}.

(** What [transfer_submit_upload] fills the task with: the local file and, in the
    current directory, the remote name; [None] when a step fails. *)
Definition prepare_upload (home : option (list byte)) (rt : client_runtime) (local_path : list byte) (t : active_task)
    : outcome (option (active_task * list byte)) :=
  match snapshot_task rt t with
  | None => Ret None
  | Some t =>
      let cwd := k_remote_path (a_body t) in
      match utils_expand_local_path home local_path PATH_MAX with
      | None => Ret None
      | Some expanded =>
          match utils_get_base_name expanded NAME_MAX with
          | None => Ret None
          | Some base_name =>
              remote_path ← normalize_cd_path cwd base_name PATH_MAX;
              match remote_path with
              | None => Ret None
              | Some remote_path =>
                  Ret (path ← copy_string PATH_MAX remote_path;
                       Some (set_body {| k_session_id := k_session_id (a_body t); k_local_path := expanded;
                                         k_remote_path := remote_path; k_target_path := k_target_path (a_body t);
                                         k_part_path := k_part_path (a_body t) |} t, path))
              end
          end
      end
  end.

(** ... and [transfer_submit_download]: the remote file and the local target *)
Definition prepare_download (rt : client_runtime) (remote_path : list byte) (t : active_task)
    : outcome (option (active_task * list byte)) :=
  match snapshot_task rt t with
  | None => Ret None
  | Some t =>
      let cwd := k_remote_path (a_body t) in
      match copy_string PATH_MAX (rt_download_dir rt) with
      | None => Ret None
      | Some download_dir =>
          remote ← normalize_cd_path cwd remote_path PATH_MAX;
          match remote with
          | None => Ret None
          | Some remote =>
              match utils_get_base_name remote NAME_MAX with
              | None => Ret None
              | Some base_name =>
                  match join_path PATH_MAX download_dir base_name with
                  | None => Ret None
                  | Some target =>
                      if PATH_MAX <? Z.of_nat (length target) + 6 then Ret None
                      else
                        Ret (path ← copy_string PATH_MAX target;
                             Some (set_body {| k_session_id := k_session_id (a_body t); k_local_path := k_local_path (a_body t);
                                               k_remote_path := remote; k_target_path := target;
                                               k_part_path := target ++ lit ".part" |} t, path))
                  end
              end
          end
      end
  end.

(** The common frame of the two submissions: allocate, fill, start; on failure the
    task and its event are freed. *)
Definition submit_task (m : transfer_manager) (kind : transfer_kind) (alloc : option addr * option addr) (spawned : bool)
    (prepare : active_task -> outcome (option (active_task * list byte))) : outcome (Z * transfer_manager) :=
  match allocate_task m kind alloc with
  | None => Ret (-1, m)
  | Some (a, m) =>
      t ← deref (m_tasks m !! a);
      ready ← prepare t;
      match ready with
      | None => m ← free_unstarted_task m a; Ret (-1, m)
      | Some (t, path) =>
          m ← write_task m a (fun _ => t);
          m ← write_event m (a_event t) (fun e => {| e_kind := e_kind e; e_result := e_result e; e_path := path; e_next := e_next e |});
          '(r, m) ← start_task m a spawned;
          if negb (r =? 0) then m ← free_unstarted_task m a; Ret (-1, m) else Ret (0, m)
      end
  end.

Definition transfer_submit_upload (m : transfer_manager) (rt : client_runtime) (home : option (list byte))
    (alloc : option addr * option addr) (spawned : bool) (local_path : list byte) : outcome (Z * transfer_manager) :=
  match local_path with
  | [] => Ret (-1, m)
  | _ => submit_task m TRANSFER_UPLOAD alloc spawned (prepare_upload home rt local_path)
  end.

Definition transfer_submit_download (m : transfer_manager) (rt : client_runtime)
    (alloc : option addr * option addr) (spawned : bool) (remote_path : list byte) : outcome (Z * transfer_manager) :=
  match remote_path with
  | [] => Ret (-1, m)
  | _ => submit_task m TRANSFER_DOWNLOAD alloc spawned (prepare_download rt remote_path)
  end.
