(* ===== verification/TransferSystem.v ===== *)
(** * The client's transfers as a system of threads

    The main thread submits transfers, shows their results and finally stops the
    manager; each task has a thread ([transfer_worker]).  Steps are the sections
    of [TransferManager] and the calls between them, in any interleaving. *)

From Stdlib Require Import Strings.Byte.
From S2P Require Import Prelude CString Protocol Utils Heap Files HandlerTransfer ClientTransfer ClientRuntime TransferManager.

(** Where the thread of a task is in [transfer_worker] and [finish_task] *)
Inductive phase :=
| Connecting                     (* in client_connection_open *)
| Connected (fd : Z)             (* before task_publish_socket *)
| Rejected (fd : Z)              (* task_publish_socket failed *)
| Transferring (fd : Z)          (* in run_upload or run_download *)
| Transferred (fd r : Z)         (* before task_close_socket *)
| Closing (fd r : Z)             (* after its section *)
| Finishing (r : Z)              (* entering finish_task *)
| Reporting                      (* its event is ready, before the mutex *)
| Freeing.                       (* before free(task) *)

#[global] Instance phase_eq_dec : EqDecision phase.
Proof. solve_decision. Defined.

(** ... and the main thread, which at last runs [client_runtime_destroy]: stop,
    drain, destroy *)
Inductive main_state :=
| MIdle
| MDraining (last : bool) (p : addr) (* showing the events it has taken *)
| MWaiting                           (* at the wait loop of transfer_manager_stop *)
| MAsleep                            (* ... in its pthread_cond_wait *)
| MStopped
| MDrained
| MGone.                             (* the manager has been destroyed *)

#[global] Instance main_state_eq_dec : EqDecision main_state.
Proof. solve_decision. Defined.

(** What is recorded of a task and of an event: its kind and path *)
Definition label : Type := transfer_kind * list byte.

(** [sockets] are the open descriptors of the transfers, [shut] those that
    [transfer_manager_stop] has shut down; [accepted] and [reported] record the
    submissions that returned 0 and the results that were shown. *)
Record transfers := {
  mgr : transfer_manager;
  threads : gmap addr phase;
  sockets : gset Z;
  shut : list Z;
  main : main_state;
  accepted : list label;
  reported : list (transfer_kind * transfer_result * list byte)
}.

Definition set_mgr (s : transfers) (m : transfer_manager) : transfers :=
  {| mgr := m; threads := threads s; sockets := sockets s; shut := shut s; main := main s;
     accepted := accepted s; reported := reported s |}.
Definition set_main (s : transfers) (x : main_state) : transfers :=
  {| mgr := mgr s; threads := threads s; sockets := sockets s; shut := shut s; main := x;
     accepted := accepted s; reported := reported s |}.
Definition set_thread (s : transfers) (a : addr) (ph : phase) : transfers :=
  {| mgr := mgr s; threads := <[a := ph]> (threads s); sockets := sockets s; shut := shut s; main := main s;
     accepted := accepted s; reported := reported s |}.
Definition set_sockets (s : transfers) (fds : gset Z) : transfers :=
  {| mgr := mgr s; threads := threads s; sockets := fds; shut := shut s; main := main s;
     accepted := accepted s; reported := reported s |}.

Definition event_label (e : transfer_event) : label := (e_kind e, e_path e).
Definition shown_label (x : transfer_kind * transfer_result * list byte) : label := (fst (fst x), snd x).

(** The label of the task at the head of the list, which was just started *)
Definition newest (m : transfer_manager) : option (addr * label) :=
  t ← m_tasks m !! m_active m;
  e ← m_events m !! a_event t;
  Some (m_active m, event_label e).

(** [pthread_cond_broadcast(&manager->idle)] wakes the main thread if it sleeps. *)
Definition woken (broadcast : bool) (x : main_state) : main_state :=
  match x with MAsleep => if broadcast then MWaiting else MAsleep | _ => x end.

(** A connection on which [shutdown(fd, SHUT_RDWR)] is called while the transfer
    runs: after some answers every [recv] finds the end of the stream, and a [send]
    fails. *)
Definition shut_down (k : socket) : Prop :=
  (exists answers, recv_script k = answers ++ [RecvBytes []]) /\ SendError ∈ send_script k.

(** Memory that [calloc] may return *)
Definition fresh_alloc (m : transfer_manager) (alloc : option addr * option addr) : Prop :=
  (forall a, fst alloc = Some a -> a <> NULL /\ m_tasks m !! a = None) /\
  (forall e, snd alloc = Some e -> e <> NULL /\ m_events m !! e = None).

Section system.
Context `{Host} `{Sha256} (malloc_ok : Z -> bool).

(** The steps of the thread of task [a] *)
Inductive thread_step (a : addr) (s : transfers) : transfers -> Prop :=
| step_connect_fails :
    threads s !! a = Some Connecting -> thread_step a s (set_thread s a (Finishing (-1)))
| step_connects fd :
    threads s !! a = Some Connecting -> 0 <= fd -> fd ∉ sockets s ->
    thread_step a s (set_sockets (set_thread s a (Connected fd)) ({[fd]} ∪ sockets s))
| step_publishes fd m :
    threads s !! a = Some (Connected fd) -> task_publish_socket (mgr s) a fd = Ret (0, m) ->
    thread_step a s (set_mgr (set_thread s a (Transferring fd)) m)
| step_is_rejected fd m :
    threads s !! a = Some (Connected fd) -> task_publish_socket (mgr s) a fd = Ret (-1, m) ->
    thread_step a s (set_mgr (set_thread s a (Rejected fd)) m)
| step_drops fd :
    threads s !! a = Some (Rejected fd) ->
    thread_step a s (set_sockets (set_thread s a (Finishing (-1))) (sockets s ∖ {[fd]}))
| step_transfers fd t r cs cs' :
    threads s !! a = Some (Transferring fd) -> m_tasks (mgr s) !! a = Some t ->
    (a_canceled t = false -> cl_cancel cs = None) -> (fd ∈ shut s -> shut_down (cl_sock cs)) ->
    run_transfer malloc_ok (a_kind t) (a_body t) cs = Ret (r, cs') ->
    thread_step a s (set_thread s a (Transferred fd r))
| step_unpublishes fd r fd' m :
    threads s !! a = Some (Transferred fd r) -> task_close_socket (mgr s) a = Ret (fd', m) ->
    thread_step a s (set_mgr (set_thread s a (Closing fd' r)) m)
| step_closes fd r :
    threads s !! a = Some (Closing fd r) ->
    thread_step a s (set_sockets (set_thread s a (Finishing r)) (if 0 <=? fd then sockets s ∖ {[fd]} else sockets s))
| step_result r m :
    threads s !! a = Some (Finishing r) -> finish_result (mgr s) a r = Ret m ->
    thread_step a s (set_mgr (set_thread s a Reporting) m)
| step_finishes broadcast m :
    threads s !! a = Some Reporting -> finish_section (mgr s) a = Ret (broadcast, m) ->
    thread_step a s (set_main (set_mgr (set_thread s a Freeing) m) (woken broadcast (main s)))
| step_frees m :
    threads s !! a = Some Freeing -> finish_free (mgr s) a = Ret m ->
    thread_step a s {| mgr := m; threads := delete a (threads s); sockets := sockets s; shut := shut s; main := main s;
                       accepted := accepted s; reported := reported s |}.

(** A submission: of an upload or of a download *)
Definition submission (m : transfer_manager) (rt : client_runtime) (home : option (list byte))
    (alloc : option addr * option addr) (spawned : bool) (kind : transfer_kind) (path : list byte) : outcome (Z * transfer_manager) :=
  match kind with
  | TRANSFER_UPLOAD => transfer_submit_upload m rt home alloc spawned path
  | TRANSFER_DOWNLOAD => transfer_submit_download m rt alloc spawned path
  end.

(** The steps of the main thread *)
Inductive main_step (s : transfers) : transfers -> Prop :=
| step_submits rt home alloc spawned kind path m a l :
    main s = MIdle -> fresh_alloc (mgr s) alloc ->
    submission (mgr s) rt home alloc spawned kind path = Ret (0, m) -> newest m = Some (a, l) ->
    main_step s {| mgr := m; threads := <[a := Connecting]> (threads s); sockets := sockets s; shut := shut s; main := MIdle;
                   accepted := accepted s ++ [l]; reported := reported s |}
| step_is_refused rt home alloc spawned kind path r m :
    main s = MIdle -> fresh_alloc (mgr s) alloc ->
    submission (mgr s) rt home alloc spawned kind path = Ret (r, m) -> r <> 0 -> main_step s (set_mgr s m)
| step_drains p m :
    main s = MIdle -> drain_section (mgr s) = (p, m) -> main_step s (set_main (set_mgr s m) (MDraining false p))
| step_shows last p out m :
    main s = MDraining last p -> drain_loop (size (m_events (mgr s))) (mgr s) p = Ret (out, m) ->
    main_step s {| mgr := m; threads := threads s; sockets := sockets s; shut := shut s;
                   main := if last then MDrained else MIdle;
                   accepted := accepted s; reported := reported s ++ out |}
| step_stops fds m :
    main s = MIdle -> stop_section (mgr s) = Ret (fds, m) ->
    main_step s {| mgr := m; threads := threads s; sockets := sockets s; shut := shut s ++ fds; main := MWaiting;
                   accepted := accepted s; reported := reported s |}
| step_sleeps :
    main s = MWaiting -> stop_done (mgr s) = false -> main_step s (set_main s MAsleep)
| step_stopped :
    main s = MWaiting -> stop_done (mgr s) = true -> main_step s (set_main s MStopped)
| step_drains_last p m :
    main s = MStopped -> drain_section (mgr s) = (p, m) -> main_step s (set_main (set_mgr s m) (MDraining true p))
| step_destroys m :
    main s = MDrained -> transfer_manager_destroy (mgr s) = Ret m -> main_step s (set_main (set_mgr s m) MGone).

(** ... and [pthread_cond_wait] may also return without a broadcast. *)
Inductive transfers_step (s : transfers) : transfers -> Prop :=
| step_of_main s' : main_step s s' -> transfers_step s s'
| step_of_thread a s' : thread_step a s s' -> transfers_step s s'
| step_spurious : main s = MAsleep -> transfers_step s (set_main s MWaiting).

Definition transfers_initial (m : transfer_manager) : transfers :=
  {| mgr := m; threads := ∅; sockets := ∅; shut := []; main := MIdle; accepted := []; reported := [] |}.

(** [size_t] bounds the limit. *)
Definition transfers_reachable (s : transfers) : Prop :=
  exists max m, 0 <= max < u64_mod /\ transfer_manager_create max true = Some m /\ rtc transfers_step (transfers_initial m) s.
End system.
