(* ===== verification/TransferManagerSpec.v ===== *)
(** * The lists of the transfer manager

    [managed m l q p d]: the running tasks of [m] are those at [l], the events that
    wait are those at [q], and the events that the main thread has taken, from [p]
    on, are those at [d].  What each section of [TransferManager] does to it. *)

From Stdlib Require Import Strings.Byte.
From S2P Require Import Prelude CString Protocol Utils Heap Files HandlerTransfer ClientTransfer ClientRuntime TransferManager TransferSystem.

Definition event_next (m : transfer_manager) (e : addr) : option addr := e_next <$> m_events m !! e.
Definition event_of (m : transfer_manager) (a : addr) : option addr := a_event <$> m_tasks m !! a.
Definition label_at (m : transfer_manager) (e : addr) : option label := event_label <$> m_events m !! e.

(** The target of a download *)
Definition download_target (t : active_task) : option (list byte) :=
  match a_kind t with TRANSFER_DOWNLOAD => Some (k_target_path (a_body t)) | TRANSFER_UPLOAD => None end.
Definition target_at (m : transfer_manager) (a : addr) : option (list byte) := m_tasks m !! a ≫= download_target.

Record managed (m : transfer_manager) (l q : list addr) (p : addr) (d : list addr) : Prop := {
  mg_active : chain (task_next m) (m_active m) l;
  mg_count : m_active_count m = Z.of_nat (length l);
  mg_max : Z.of_nat (length l) <= m_max_concurrent m < u64_mod;
  mg_queue : chain (event_next m) (m_events_head m) q;
  mg_tail : m_events_tail m = default NULL (last q);
  mg_taken : chain (event_next m) p d;
  mg_events : NoDup (q ++ d ++ omap (event_of m) l);
  mg_memory e : is_Some (m_events m !! e) <-> e ∈ q ++ d ++ omap (event_of m) l;
  mg_null : m_events m !! NULL = None;
  mg_targets : NoDup (omap (target_at m) l)
}.

(** The labels of the events at [es] *)
Definition labels (m : transfer_manager) (es : list addr) : list label := omap (label_at m) es.

(** ** Managers that differ only in flags, sockets and results *)

Definition shape (t : active_task) := (a_next t, a_event t, a_kind t, a_body t).
Definition event_shape (e : transfer_event) := (event_label e, e_next e).

Record same_shape (m m' : transfer_manager) : Prop := {
  ss_active : m_active m' = m_active m;
  ss_count : m_active_count m' = m_active_count m;
  ss_max : m_max_concurrent m' = m_max_concurrent m;
  ss_head : m_events_head m' = m_events_head m;
  ss_tail : m_events_tail m' = m_events_tail m;
  ss_tasks a : shape <$> m_tasks m' !! a = shape <$> m_tasks m !! a;
  ss_events e : event_shape <$> m_events m' !! e = event_shape <$> m_events m !! e
}.

(** What can be read off a shape *)
Lemma shape_read {K X S T} `{Countable K} (sh : T -> S) (f : T -> X) (g : S -> X) (h h' : gmap K T) a :
  (forall t, f t = g (sh t)) -> sh <$> h' !! a = sh <$> h !! a -> f <$> h' !! a = f <$> h !! a.
Proof.
  intros Hf Hs. destruct (h' !! a), (h !! a); try done; cbn in *.
  apply (inj Some) in Hs. by rewrite !Hf, Hs.
Qed.

Lemma omap_same {X Y} (f g : X -> option Y) (l : list X) : (forall x, x ∈ l -> f x = g x) -> omap f l = omap g l.
Proof.
  induction l as [| x l IH]; intros Hx; [done |]. cbn. rewrite (Hx x) by (apply elem_of_cons; by left).
  rewrite IH by (intros y Hy; apply Hx, elem_of_cons; by right). done.
Qed.

Section same.
Context (m m' : transfer_manager) (Hs : same_shape m m').

Lemma same_task_next a : task_next m' a = task_next m a.
Proof. apply (shape_read shape a_next (fun x => fst (fst (fst x)))); [done | apply Hs]. Qed.

Lemma same_event_of a : event_of m' a = event_of m a.
Proof. apply (shape_read shape a_event (fun x => snd (fst (fst x)))); [done | apply Hs]. Qed.

Lemma same_target_at a : target_at m' a = target_at m a.
Proof.
  unfold target_at. pose proof (ss_tasks _ _ Hs a) as E. destruct (m_tasks m' !! a), (m_tasks m !! a); try done.
  cbn in *. apply (inj Some) in E. unfold shape in E. injection E as _ _ Hk Hb. unfold download_target. by rewrite Hk, Hb.
Qed.

Lemma same_event_next e : event_next m' e = event_next m e.
Proof. apply (shape_read event_shape e_next snd); [done | apply Hs]. Qed.

Lemma same_label_at e : label_at m' e = label_at m e.
Proof. apply (shape_read event_shape event_label fst); [done | apply Hs]. Qed.

Lemma same_events e : is_Some (m_events m' !! e) <-> is_Some (m_events m !! e).
Proof. pose proof (ss_events _ _ Hs e) as E. rewrite <- !(fmap_is_Some event_shape), E. done. Qed.

Lemma same_managed l q p d : managed m l q p d -> managed m' l q p d.
Proof.
  intros [H1 H2 H3 H4 H5 H6 H7 H8 Hn H9].
  assert (He : omap (event_of m') l = omap (event_of m) l) by (apply omap_same; intros; apply same_event_of).
  assert (Ht : omap (target_at m') l = omap (target_at m) l) by (apply omap_same; intros; apply same_target_at).
  split; try by rewrite ?He, ?Ht.
  - rewrite (ss_active _ _ Hs). eapply chain_frame; [| done]. intros. apply same_task_next.
  - by rewrite (ss_count _ _ Hs).
  - by rewrite (ss_max _ _ Hs).
  - rewrite (ss_head _ _ Hs). eapply chain_frame; [| done]. intros. apply same_event_next.
  - by rewrite (ss_tail _ _ Hs).
  - eapply chain_frame; [| done]. intros. apply same_event_next.
  - intros e. by rewrite same_events, He.
  - apply eq_None_not_Some. rewrite same_events, Hn. apply is_Some_None.
Qed.

Lemma same_labels es : labels m' es = labels m es.
Proof. apply omap_same. intros. apply same_label_at. Qed.
End same.

Lemma same_shape_refl m : same_shape m m.
Proof. by split. Qed.
Lemma same_shape_trans m1 m2 m3 : same_shape m1 m2 -> same_shape m2 m3 -> same_shape m1 m3.
Proof. intros [] []. split; try congruence; intros x; etrans; done. Qed.

(** Stores that keep the shape *)
Lemma write_task_same m a f t :
  m_tasks m !! a = Some t -> shape (f t) = shape t ->
  exists m', write_task m a f = Ret m' /\ same_shape m m' /\ m_tasks m' = <[a := f t]> (m_tasks m) /\
    m_stopping m' = m_stopping m /\ m_events m' = m_events m.
Proof.
  intros Ht Hf. unfold write_task. rewrite Ht. eexists. split; [done |]. split; [| done]. split; try done.
  intros b. cbn. destruct (decide (b = a)) as [-> |]; [| by rewrite lookup_insert_ne].
  rewrite lookup_insert_eq, Ht. cbn. by rewrite Hf.
Qed.

Lemma write_event_same m e f x :
  m_events m !! e = Some x -> event_shape (f x) = event_shape x ->
  exists m', write_event m e f = Ret m' /\ same_shape m m' /\ m_tasks m' = m_tasks m /\ m_stopping m' = m_stopping m.
Proof.
  intros Hx Hf. unfold write_event. rewrite Hx. eexists. split; [done |]. split; [| done]. split; try done.
  intros b. cbn. destruct (decide (b = e)) as [-> |]; [| by rewrite lookup_insert_ne].
  rewrite lookup_insert_eq, Hx. cbn. by rewrite Hf.
Qed.

(** ** The sections of a thread *)

Lemma publish_spec m a fd t :
  m_tasks m !! a = Some t ->
  if a_canceled t then task_publish_socket m a fd = Ret (-1, m)
  else exists m', task_publish_socket m a fd = Ret (0, m') /\ same_shape m m' /\ m_stopping m' = m_stopping m /\
         m_tasks m' = <[a := set_a_socket fd t]> (m_tasks m).
Proof.
  intros Ht. unfold task_publish_socket. rewrite Ht. cbn. destruct (a_canceled t); [done |].
  destruct (write_task_same m a (set_a_socket fd) t Ht) as (m' & Hw & Hs & Hts & Hst & _); [done |]. rewrite Hw. by exists m'.
Qed.

Lemma close_socket_spec m a t :
  m_tasks m !! a = Some t ->
  exists m', task_close_socket m a = Ret (a_socket_fd t, m') /\ same_shape m m' /\ m_stopping m' = m_stopping m /\
    m_tasks m' = <[a := set_a_socket (-1) t]> (m_tasks m).
Proof.
  intros Ht. unfold task_close_socket. rewrite Ht. cbn.
  destruct (write_task_same m a (set_a_socket (-1)) t Ht) as (m' & Hw & Hs & Hts & Hst & _); [done |]. rewrite Hw. by exists m'.
Qed.

Lemma managed_task m l q p d a : managed m l q p d -> a ∈ l -> exists t, m_tasks m !! a = Some t.
Proof.
  intros Hm Ha. apply list_elem_of_split in Ha as (l1 & l2 & ->).
  destruct (chain_split _ _ _ _ _ (mg_active _ _ _ _ _ Hm)) as (n & Hn & _). unfold task_next in Hn.
  destruct (m_tasks m !! a); [eauto | done].
Qed.

Lemma managed_event m l q p d a t :
  managed m l q p d -> a ∈ l -> m_tasks m !! a = Some t -> a_event t ∈ omap (event_of m) l /\ is_Some (m_events m !! a_event t).
Proof.
  intros Hm Ha Ht. assert (He : a_event t ∈ omap (event_of m) l).
  { apply list_elem_of_omap. exists a. split; [done |]. unfold event_of. by rewrite Ht. }
  split; [done |]. apply (mg_memory _ _ _ _ _ Hm). rewrite !elem_of_app. auto.
Qed.

Lemma finish_result_spec m l q p d a r :
  managed m l q p d -> a ∈ l ->
  exists m', finish_result m a r = Ret m' /\ same_shape m m' /\ m_tasks m' = m_tasks m /\ m_stopping m' = m_stopping m.
Proof.
  intros Hm Ha. destruct (managed_task _ _ _ _ _ _ Hm Ha) as [t Ht]. unfold finish_result. rewrite Ht. cbn [deref].
  destruct (managed_event _ _ _ _ _ _ _ Hm Ha Ht) as [_ [e He]].
  edestruct (write_event_same m (a_event t)) as (m' & Hw & Hs & Hts & Hst); [done | | by exists m'; split_and!; [exact Hw | ..]].
  done.
Qed.

(** *** Taking a task off the list and queueing its event *)

(** A task and an event but for their places in the lists *)
Definition nextless (t : active_task) : active_task := set_a_next NULL t.
Definition event_nextless (e : transfer_event) : transfer_event := set_e_next NULL e.

Lemma unlink_active m l1 a l2 t :
  chain (task_next m) (m_active m) (l1 ++ a :: l2) -> m_tasks m !! a = Some t ->
  exists p ts, store_active_link m (link_after LHead l1) (a_next t) = Ret (set_m_tasks (set_m_active m p (m_active_count m)) ts) /\
    chain (fun b => a_next <$> ts !! b) p (l1 ++ l2) /\ forall b, nextless <$> ts !! b = nextless <$> m_tasks m !! b.
Proof.
  intros Hc Ht. assert (Hn : task_next m a = Some (a_next t)) by (unfold task_next; by rewrite Ht).
  pose proof (chain_unlink _ _ _ _ _ _ Hc Hn) as Hu. destruct (last l1) as [b |] eqn:El.
  - unfold link_after in *. rewrite El in *. cbn [store_active_link relink] in *.
    apply last_Some in El as [l0 El].
    destruct (m_tasks m !! b) as [tb |] eqn:Eb.
    2: { exfalso. rewrite El, <- app_assoc in Hc. destruct (chain_split _ _ _ _ _ Hc) as (n & Hb & _).
         unfold task_next in Hb. by rewrite Eb in Hb. }
    unfold write_task. rewrite Eb. cbn. exists (m_active m), (<[b := set_a_next (a_next t) tb]> (m_tasks m)).
    split_and!; [done | |].
    + destruct l1 as [| c l1]; [by destruct l0 |]. eapply chain_frame; [| exact Hu]. intros x _. cbn.
      destruct (decide (x = b)) as [-> |].
      * rewrite lookup_insert_eq, bool_decide_eq_true_2 by done. unfold task_next. by rewrite Eb.
      * by rewrite lookup_insert_ne, bool_decide_eq_false_2.
    + intros x. destruct (decide (x = b)) as [-> |]; [by rewrite lookup_insert_eq, Eb | by rewrite lookup_insert_ne].
  - apply last_None in El as ->. exists (a_next t), (m_tasks m). split_and!; [done | exact Hu | done].
Qed.

Lemma queue_event_spec m e q p d :
  chain (event_next m) (m_events_head m) q -> m_events_tail m = default NULL (last q) -> chain (event_next m) p d ->
  NoDup (q ++ d ++ [e]) -> e <> NULL -> is_Some (m_events m !! e) ->
  exists h es, queue_event m e = Ret (set_m_events (set_m_queue m h e) es) /\
    chain (fun x => e_next <$> es !! x) h (q ++ [e]) /\ chain (fun x => e_next <$> es !! x) p d /\
    forall x, event_nextless <$> es !! x = event_nextless <$> m_events m !! x.
Proof.
  intros Hq Htail Hd Hnd He [v Hv]. apply NoDup_app in Hnd as (_ & Hqd & Hde). apply NoDup_app in Hde as (_ & Hde & _).
  assert (Heq : e ∉ q) by (intros Hin; apply (Hqd _ Hin); apply elem_of_app; right; by left).
  assert (Hed : e ∉ d) by (intros Hin; apply (Hde _ Hin); by left).
  unfold queue_event, write_event. rewrite Hv. cbn [deref mbind outcome_bind].
  change (m_events_tail (set_m_events _ _)) with (m_events_tail m). rewrite Htail. destruct (last q) as [b |] eqn:El; cbn [default].
  - assert (Hb : b ∈ q) by (apply last_Some in El as [l' ->]; apply elem_of_app; right; by left).
    rewrite bool_decide_eq_false_2 by (exact (chain_not_null _ _ _ _ Hq Hb)).
    assert (Hbe : b <> e) by congruence.
    destruct (m_events m !! b) as [w |] eqn:Eb.
    2: { exfalso. apply list_elem_of_split in Hb as (q1 & q2 & ->). destruct (chain_split _ _ _ _ _ Hq) as (n & Hn & _).
         unfold event_next in Hn. by rewrite Eb in Hn. }
    cbn [m_events set_m_events]. unfold id. rewrite lookup_insert_ne, Eb by done. cbn.
    set (es := <[b := set_e_next e w]> (<[e := set_e_next NULL v]> (m_events m))).
    exists (m_events_head m), es. split_and!; [done | | |]; unfold es.
    + assert (Hhead : m_events_head m = if q is [] then e else m_events_head m) by (by destruct q). rewrite Hhead.
      eapply chain_snoc; [exact Hq | exact He | exact Heq | | |].
      * by rewrite lookup_insert_ne, lookup_insert_eq.
      * intros x [= <-]%(eq_trans (eq_sym El)). by rewrite lookup_insert_eq.
      * intros x Hx Hne. rewrite !lookup_insert_ne; [done | by intros <- | congruence].
    + eapply chain_frame; [| exact Hd]. intros x Hx. rewrite !lookup_insert_ne; [done | by intros <- |].
      intros <-. apply (Hqd _ Hb). apply elem_of_app. by left.
    + intros x. destruct (decide (x = b)) as [-> |]; [by rewrite lookup_insert_eq, Eb |]. rewrite lookup_insert_ne by done.
      destruct (decide (x = e)) as [-> |]; [by rewrite lookup_insert_eq, Hv | by rewrite lookup_insert_ne].
  - apply last_None in El as ->. rewrite bool_decide_eq_true_2 by done. eexists _, _. split_and!; [done | | |].
    + cbn. split_and!; [done | done |]. exists NULL. by rewrite lookup_insert_eq.
    + eapply chain_frame; [| exact Hd]. intros x Hx. cbn. rewrite lookup_insert_ne; [done | by intros <-].
    + intros x. cbn. destruct (decide (x = e)) as [-> |]; [by rewrite lookup_insert_eq, Hv | by rewrite lookup_insert_ne].
Qed.

(** Managers whose tasks agree but for their places in the list *)
Lemma nextless_event_of m m' a :
  nextless <$> m_tasks m' !! a = nextless <$> m_tasks m !! a -> event_of m' a = event_of m a.
Proof. intros E. by apply (shape_read nextless a_event a_event). Qed.
Lemma nextless_target_at m m' a :
  nextless <$> m_tasks m' !! a = nextless <$> m_tasks m !! a -> target_at m' a = target_at m a.
Proof.
  unfold target_at. intros E. destruct (m_tasks m' !! a) as [t' |], (m_tasks m !! a) as [t |]; try done. cbn in *.
  apply (inj Some) in E. change (download_target (nextless t') = download_target (nextless t)). by rewrite E.
Qed.
Lemma nextless_label_at m m' e :
  event_nextless <$> m_events m' !! e = event_nextless <$> m_events m !! e -> label_at m' e = label_at m e.
Proof. intros E. by apply (shape_read event_nextless event_label event_label). Qed.
Lemma nextless_is_Some m m' e :
  event_nextless <$> m_events m' !! e = event_nextless <$> m_events m !! e -> is_Some (m_events m' !! e) <-> is_Some (m_events m !! e).
Proof. intros E. destruct (m_events m' !! e), (m_events m !! e); try done. Qed.

(** A list has one split at the first occurrence of [a]. *)
Lemma split_at_hit (a : addr) (l1 l2 k1 k2 : list addr) :
  NoDup (l1 ++ a :: l2) -> (forall b, b ∈ k1 -> bool_decide (b = a) = false) ->
  match k2 with [] => True | b :: _ => bool_decide (b = a) = true end ->
  l1 ++ a :: l2 = k1 ++ k2 -> k1 = l1 /\ k2 = a :: l2.
Proof.
  revert k1. induction l1 as [| b l1 IH]; intros k1 Hnd Hno Hhit E.
  - destruct k1 as [| c k1]; [done |]. injection E as <- _. specialize (Hno a). rewrite bool_decide_eq_true_2 in Hno by done.
    discriminate Hno. by left.
  - inversion_clear Hnd as [| ? ? Hb Hnd']. destruct k1 as [| c k1].
    + cbn in E. subst k2. apply bool_decide_eq_true in Hhit as ->. exfalso. apply Hb. apply elem_of_app. right. by left.
    + injection E as <- E. destruct (IH k1) as [-> ->]; [done | | done | done | done].
      intros x Hx. apply Hno. by right.
Qed.

(** Moving the event of [a] from the running tasks to the queue *)
Lemma events_moved (q d es1 es2 : list addr) e : (q ++ [e]) ++ d ++ es1 ++ es2 ≡ₚ q ++ d ++ es1 ++ e :: es2.
Proof. rewrite <- app_assoc. f_equiv. rewrite !(app_assoc d). exact (Permutation_middle (d ++ es1) es2 e). Qed.

Lemma finish_section_spec m l1 a l2 q p d t :
  managed m (l1 ++ a :: l2) q p d -> m_tasks m !! a = Some t ->
  exists m', finish_section m a = Ret (bool_decide (l1 ++ l2 = []), m') /\ managed m' (l1 ++ l2) (q ++ [a_event t]) p d /\
    (forall b, nextless <$> m_tasks m' !! b = nextless <$> m_tasks m !! b) /\ (forall es, labels m' es = labels m es) /\
    m_stopping m' = m_stopping m.
Proof.
  intros [H1 H2 H3 H4 H5 H6 H7 H8 Hn H9] Ht.
  assert (He : event_of m a = Some (a_event t)) by (unfold event_of; by rewrite Ht).
  assert (Hevs : omap (event_of m) (l1 ++ a :: l2) = omap (event_of m) l1 ++ a_event t :: omap (event_of m) l2)
    by (rewrite omap_app; cbn; by rewrite He).
  assert (Hnew : forall P : list addr -> Prop, (forall x y, x ≡ₚ y -> P x -> P y) -> P (q ++ d ++ omap (event_of m) (l1 ++ a :: l2)) ->
            P ((q ++ [a_event t]) ++ d ++ omap (event_of m) (l1 ++ l2))).
  { intros P HP. rewrite Hevs, omap_app. apply HP. symmetry. apply events_moved. }
  pose proof (chain_NoDup _ _ _ H1) as Hnd.
  unfold finish_section.
  destruct (walk_link_spec (size (m_tasks m)) (task_next m) (fun b => Some (bool_decide (b = a))) (fun b => bool_decide (b = a))
    LHead (m_active m) _ H1) as (k1 & k2 & Hk & Hno & Hhit & Hwalk); [done | |].
  { apply NoDup_length_dom; [done |]. intros b Hb. apply list_elem_of_split in Hb as (j1 & j2 & Hj). rewrite Hj in H1.
    destruct (chain_split _ _ _ _ _ H1) as (n & Hb & _). unfold task_next in Hb. destruct (m_tasks m !! b); [eauto | done]. }
  assert (Hk12 : k1 = l1 /\ k2 = a :: l2) by (apply (split_at_hit a); [done | by apply Forall_forall | done | done]).
  destruct Hk12 as [-> ->]. rewrite Hwalk. cbn [mbind outcome_bind hd]. rewrite Ht. cbn [deref mbind outcome_bind].
  rewrite bool_decide_eq_true_2 by done.
  destruct (unlink_active m l1 a l2 t H1 Ht) as (p1 & ts & -> & Hch & Hts). cbn [mbind outcome_bind].
  set (m1 := set_m_active _ _ _).
  assert (Hm1 : m_events_head m1 = m_events_head m /\ m_events m1 = m_events m) by done.
  assert (Hx : is_Some (m_events m !! a_event t)) by (apply H8; rewrite Hevs, !elem_of_app; do 2 right; right; by left).
  destruct (queue_event_spec m1 (a_event t) q p d) as (h & es & Hq & Hcq & Hcd & Hes); [done | done | done | | | done |].
  { eapply sublist_NoDup; [exact H7 |]. rewrite Hevs. apply sublist_app; [done |]. apply sublist_app; [done |].
    apply sublist_inserts_l, sublist_skip, sublist_nil_l. }
  { intros Hz. rewrite Hz, Hn in Hx. by destruct Hx. }
  assert (Hcount : m_active_count m1 = Z.of_nat (length (l1 ++ l2))).
  { unfold m1. cbn. rewrite H2, !length_app. cbn [length]. rewrite length_app in H3. cbn [length] in H3. unfold u64. rewrite Z.mod_small; lia. }
  rewrite Hq. cbn [mbind outcome_bind]. exists (set_m_events (set_m_queue m1 h (a_event t)) es). split.
  { cbn [m_active_count set_m_events set_m_queue]. rewrite Hcount. do 2 f_equal. by destruct (l1 ++ l2). }
  split_and!; [| done | | done].
  2: { intros xs. apply omap_same. intros x _. apply nextless_label_at. apply Hes. }
  assert (Heo : omap (event_of (set_m_events (set_m_queue m1 h (a_event t)) es)) (l1 ++ l2) = omap (event_of m) (l1 ++ l2)).
  { apply omap_same. intros b _. by apply nextless_event_of. }
  split; cbn [m_active m_active_count m_max_concurrent m_events_head m_events_tail set_m_events set_m_queue m_events].
  - exact Hch.
  - exact Hcount.
  - change (m_max_concurrent m1) with (m_max_concurrent m). rewrite length_app in *. cbn [length] in *. lia.
  - exact Hcq.
  - by rewrite last_snoc.
  - exact Hcd.
  - rewrite Heo. apply (Hnew (fun x => NoDup x)); [by intros x y -> | done].
  - intros x. rewrite Heo. rewrite (nextless_is_Some m (set_m_events m1 es) x (Hes x)), H8.
    apply (Hnew (fun z => x ∈ q ++ d ++ omap (event_of m) (l1 ++ a :: l2) <-> x ∈ z)); [by intros y z -> | done].
  - apply eq_None_not_Some. rewrite (nextless_is_Some m (set_m_events m1 es) NULL (Hes NULL)), Hn. apply is_Some_None.
  - eapply sublist_NoDup; [exact H9 |]. replace (omap _ (l1 ++ l2)) with (omap (target_at m) (l1 ++ l2)).
    + rewrite !omap_app. apply sublist_app; [done |]. cbn. destruct (target_at m a); [by apply sublist_cons | done].
    + apply omap_same. intros b _. symmetry. by apply nextless_target_at.
Qed.

(** ** Freeing a task, taking the events, showing them *)

Lemma managed_frame m ts l q p d :
  managed m l q p d -> (forall b, b ∈ l -> ts !! b = m_tasks m !! b) -> managed (set_m_tasks m ts) l q p d.
Proof.
  intros [H1 H2 H3 H4 H5 H6 H7 H8 Hn H9] Hts.
  assert (He : omap (event_of (set_m_tasks m ts)) l = omap (event_of m) l).
  { apply omap_same. intros b Hb. unfold event_of. cbn. by rewrite Hts. }
  assert (Ht : omap (target_at (set_m_tasks m ts)) l = omap (target_at m) l).
  { apply omap_same. intros b Hb. unfold target_at. cbn. by rewrite Hts. }
  split; rewrite ?He, ?Ht; try done. eapply chain_frame; [| exact H1]. intros b Hb. unfold task_next. cbn. by rewrite Hts.
Qed.

Lemma finish_free_spec m l q p d a t :
  managed m l q p d -> a ∉ l -> m_tasks m !! a = Some t ->
  finish_free m a = Ret (set_m_tasks m (delete a (m_tasks m))) /\ managed (set_m_tasks m (delete a (m_tasks m))) l q p d.
Proof.
  intros Hm Ha Ht. unfold finish_free. rewrite Ht. split; [done |]. apply managed_frame; [done |].
  intros b Hb. apply lookup_delete_ne. by intros <-.
Qed.

Lemma drain_section_spec m l q d :
  managed m l q NULL d -> d = [] /\ managed (snd (drain_section m)) l [] (fst (drain_section m)) q /\
    m_tasks (snd (drain_section m)) = m_tasks m /\ m_events (snd (drain_section m)) = m_events m /\
    m_stopping (snd (drain_section m)) = m_stopping m.
Proof.
  intros [H1 H2 H3 H4 H5 H6 H7 H8 Hn H9]. apply chain_null_nil in H6 as ->. split; [done |]. split; [| done].
  by split.
Qed.

Lemma labels_frame m m' es : (forall e, e ∈ es -> m_events m' !! e = m_events m !! e) -> labels m' es = labels m es.
Proof. intros He. apply omap_same. intros e Hin. unfold label_at. by rewrite He. Qed.

(** Freeing the first event that was taken *)
Lemma managed_shown m l q e d : managed m l q e (e :: d) ->
  exists v, m_events m !! e = Some v /\ managed (set_m_events m (delete e (m_events m))) l q (e_next v) d /\
    (forall x, x ∈ q ++ d ++ omap (event_of m) l -> x <> e).
Proof.
  intros [H1 H2 H3 H4 H5 H6 H7 H8 Hn H9]. destruct H6 as (_ & Hne & nx & Hnx & Hd).
  unfold event_next in Hnx. destruct (m_events m !! e) as [v |] eqn:Ev; [| done]. injection Hnx as <-.
  exists v. split; [done |].
  assert (Hp : q ++ (e :: d) ++ omap (event_of m) l ≡ₚ e :: q ++ d ++ omap (event_of m) l).
  { cbn. symmetry. apply Permutation_middle. }
  rewrite Hp in H7. inversion_clear H7 as [| ? ? Hnin Hnd].
  assert (Hx : forall x, x ∈ q ++ d ++ omap (event_of m) l -> x <> e) by (by intros x Hx ->).
  split; [| done]. split; try done; cbn.
  - eapply chain_frame; [| exact H4]. intros x Hin. unfold event_next. cbn. rewrite lookup_delete_ne; [done |].
    intros <-. apply (Hx e); [| done]. apply elem_of_app. by left.
  - eapply chain_frame; [| exact Hd]. intros x Hin. unfold event_next. cbn. rewrite lookup_delete_ne; [done |].
    intros <-. apply (Hx e); [| done]. rewrite !elem_of_app. auto.
  - intros x. change (omap _ l) with (omap (event_of m) l). rewrite lookup_delete_is_Some, H8, Hp, elem_of_cons. naive_solver.
  - by rewrite lookup_delete_ne.
Qed.

Lemma drain_loop_spec d : forall fuel m l q p,
  managed m l q p d -> (length d <= fuel)%nat ->
  exists out m', drain_loop fuel m p = Ret (out, m') /\ managed m' l q NULL [] /\ map shown_label out = labels m d /\
    m_tasks m' = m_tasks m /\ m_stopping m' = m_stopping m /\
    labels m' (q ++ omap (event_of m) l) = labels m (q ++ omap (event_of m) l).
Proof.
  induction d as [| e d IH]; intros fuel m l q p Hm Hf.
  - pose proof (mg_taken _ _ _ _ _ Hm) as Hp. cbn in Hp. subst p. exists [], m. by destruct fuel.
  - assert (p = e) as -> by (pose proof (mg_taken _ _ _ _ _ Hm) as Hp; apply Hp).
    destruct fuel as [| fuel]; [cbn in Hf; lia |]. cbn [drain_loop].
    assert (Hne : e <> NULL) by (pose proof (mg_taken _ _ _ _ _ Hm) as Hp; apply Hp).
    rewrite bool_decide_eq_false_2 by done.
    destruct (managed_shown _ _ _ _ _ Hm) as (v & Hv & Hm1 & Hx). rewrite Hv. cbn [deref mbind outcome_bind].
    destruct (IH fuel _ _ _ _ Hm1) as (out & m' & Hl & Hm' & Hout & Hts & Hst & Hlab); [cbn in Hf; lia |]. rewrite Hl.
    cbn [mbind outcome_bind]. exists (shown v :: out), m'. split_and!; [done | done | | done | done |].
    + cbn [map]. rewrite Hout. unfold labels at 2. cbn. unfold label_at at 1. rewrite Hv. cbn. f_equal.
      apply labels_frame. intros x Hin. cbn. rewrite lookup_delete_ne; [done |]. intros <-.
      apply (Hx e); [| done]. rewrite !elem_of_app. auto.
    + change (omap (event_of (set_m_events m (delete e (m_events m)))) l) with (omap (event_of m) l) in Hlab. rewrite Hlab.
      apply labels_frame. intros x Hin. cbn. rewrite lookup_delete_ne; [done |]. intros <-.
      apply (Hx e); [| done]. rewrite !elem_of_app in *. naive_solver.
Qed.

(** ** Stopping *)

Lemma stop_loop_spec l : forall fuel m p,
  chain (task_next m) p l -> (length l <= fuel)%nat ->
  exists fds m', stop_loop fuel m p = Ret (fds, m') /\ same_shape m m' /\ m_stopping m' = m_stopping m /\
    (forall b, m_tasks m' !! b = (if bool_decide (b ∈ l) then set_a_canceled else id) <$> m_tasks m !! b) /\
    (forall fd, fd ∈ fds <-> 0 <= fd /\ exists b t, b ∈ l /\ m_tasks m !! b = Some t /\ a_socket_fd t = fd).
Proof.
  induction l as [| a l IH]; intros fuel m p Hc Hf.
  - cbn in Hc. subst p. exists [], m. split_and!; [by destruct fuel | apply same_shape_refl | done | |].
    + intros b. by rewrite option_fmap_id.
    + intros fd. split; [by intros Hfd%elem_of_nil | by intros (_ & b & t & Hb%elem_of_nil & _)].
  - pose proof (chain_NoDup _ _ _ Hc) as Hnd. inversion_clear Hnd as [| ? ? Ha _].
    destruct Hc as (-> & Hne & nx & Hnx & Hc). destruct fuel as [| fuel]; [cbn in Hf; lia |]. cbn [stop_loop].
    rewrite bool_decide_eq_false_2 by done.
    unfold task_next in Hnx. destruct (m_tasks m !! a) as [t |] eqn:Et; [| done]. injection Hnx as <-.
    destruct (write_task_same m a set_a_canceled t Et) as (m1 & -> & Hs1 & Hts1 & Hst1 & _); [done |]. cbn [mbind outcome_bind].
    rewrite Hts1, lookup_insert_eq. cbn [deref mbind outcome_bind].
    destruct (IH fuel m1 (a_next t)) as (fds & m' & Hl & Hs & Hst & Hts & Hfds).
    { eapply chain_frame; [| exact Hc]. intros b _. by apply same_task_next. }
    { cbn in Hf. lia. }
    cbn [a_next set_a_canceled]. rewrite Hl. cbn [mbind outcome_bind a_socket_fd set_a_canceled]. eexists _, m'.
    split_and!; [done | by eapply same_shape_trans | congruence | |].
    + intros b. rewrite Hts, Hts1. destruct (decide (b = a)) as [-> | Hb].
      * rewrite lookup_insert_eq, Et, bool_decide_eq_false_2, bool_decide_eq_true_2 by (done || by left). done.
      * rewrite lookup_insert_ne by done. by rewrite (bool_decide_ext (b ∈ l) (b ∈ a :: l)) by (rewrite elem_of_cons; naive_solver).
    + assert (Hrest : forall b, b ∈ l -> m_tasks m1 !! b = m_tasks m !! b).
      { intros b Hb. rewrite Hts1, lookup_insert_ne; [done | by intros <-]. }
      intros fd. rewrite elem_of_app, Hfds. split.
      * intros [Hfd | (Hpos & b & tb & Hb & Htb & <-)].
        -- destruct (Z.leb_spec 0 (a_socket_fd t)); [| by apply elem_of_nil in Hfd]. apply list_elem_of_singleton in Hfd as ->.
           split; [done |]. exists a, t. split; [by left | done].
        -- split; [done |]. exists b, tb. rewrite <- (Hrest b Hb). split; [by right | done].
      * intros (Hpos & b & tb & Hb & Htb & <-). apply elem_of_cons in Hb as [-> | Hb].
        -- left. rewrite Et in Htb. injection Htb as <-. destruct (Z.leb_spec 0 (a_socket_fd t)); [by left | lia].
        -- right. split; [done |]. exists b, tb. by rewrite (Hrest b Hb).
Qed.

Lemma managed_size m l q p d : managed m l q p d -> (length l <= size (m_tasks m))%nat.
Proof.
  intros Hm. apply NoDup_length_dom; [by eapply chain_NoDup, Hm |]. intros a Ha.
  destruct (managed_task _ _ _ _ _ _ Hm Ha) as [t Ht]. eauto.
Qed.

Lemma stop_section_spec m l q p d : managed m l q p d ->
  exists fds m', stop_section m = Ret (fds, m') /\ same_shape m m' /\ m_stopping m' = true /\
    (forall b, m_tasks m' !! b = (if bool_decide (b ∈ l) then set_a_canceled else id) <$> m_tasks m !! b) /\
    (forall fd, fd ∈ fds <-> 0 <= fd /\ exists b t, b ∈ l /\ m_tasks m !! b = Some t /\ a_socket_fd t = fd).
Proof.
  intros Hm. unfold stop_section.
  destruct (stop_loop_spec l (size (m_tasks (set_m_stopping m))) (set_m_stopping m) (m_active (set_m_stopping m)))
    as (fds & m' & Hl & Hs & Hst & Hts & Hfds).
  - apply Hm.
  - exact (managed_size _ _ _ _ _ Hm).
  - exists fds, m'. split_and!; [done | | done | done | done]. destruct Hs. by split.
Qed.

(** ** Submitting *)

(** The manager with a new task in front and its event *)
Definition pushed (m : transfer_manager) (a e : addr) (t : active_task) (v : transfer_event) : transfer_manager :=
  {| m_active := a; m_active_count := m_active_count m + 1; m_max_concurrent := m_max_concurrent m;
     m_stopping := m_stopping m; m_events_head := m_events_head m; m_events_tail := m_events_tail m;
     m_tasks := <[a := t]> (m_tasks m); m_events := <[e := v]> (m_events m) |}.

Lemma target_busy_spec target l : forall fuel m p,
  chain (task_next m) p l -> (length l <= fuel)%nat ->
  target_busy fuel m target p = Ret (bool_decide (target ∈ omap (target_at m) l)).
Proof.
  induction l as [| a l IH]; intros fuel m p Hc Hf.
  - cbn in Hc. subst p. by destruct fuel.
  - destruct Hc as (-> & Hne & nx & Hnx & Hc). destruct fuel as [| fuel]; [cbn in Hf; lia |]. cbn [target_busy].
    rewrite bool_decide_eq_false_2 by done.
    unfold task_next in Hnx. destruct (m_tasks m !! a) as [t |] eqn:Et; [| done]. injection Hnx as <-. cbn [deref mbind outcome_bind].
    rewrite (IH fuel m (a_next t) Hc) by (cbn in Hf; lia). cbn [omap list_omap].
    assert (Ha : target_at m a = download_target t) by (unfold target_at; by rewrite Et). rewrite Ha. unfold download_target.
    destruct (a_kind t).
    + rewrite (bool_decide_eq_false_2 (TRANSFER_UPLOAD = _)) by done. done.
    + rewrite (bool_decide_eq_true_2 (TRANSFER_DOWNLOAD = _)) by done. cbn [andb].
      destruct (decide (k_target_path (a_body t) = target)) as [He | He].
      * rewrite bool_decide_eq_true_2 by done. rewrite bool_decide_eq_true_2; [done |]. rewrite He. by left.
      * rewrite bool_decide_eq_false_2 by done. f_equal. apply bool_decide_ext. rewrite elem_of_cons. naive_solver.
Qed.

(** ... and with a task that is not on the list yet *)
Definition with_task (m : transfer_manager) (a : addr) (t : active_task) (e : addr) (v : transfer_event) : transfer_manager :=
  set_m_events (set_m_tasks m (<[a := t]> (m_tasks m))) (<[e := v]> (m_events m)).

Lemma with_task_at m a t e v : m_tasks (with_task m a t e v) !! a = Some t /\ m_events (with_task m a t e v) !! e = Some v.
Proof. cbn. by rewrite !lookup_insert_eq. Qed.

Lemma write_with_task m a t e v f :
  write_task (with_task m a t e v) a f = Ret (with_task m a (f t) e v).
Proof. unfold write_task. rewrite (proj1 (with_task_at m a t e v)). unfold with_task. cbn. by rewrite insert_insert_eq. Qed.

Lemma write_with_event m a t e v f :
  write_event (with_task m a t e v) e f = Ret (with_task m a t e (f v)).
Proof. unfold write_event. rewrite (proj2 (with_task_at m a t e v)). unfold with_task. cbn. by rewrite insert_insert_eq. Qed.

(** Freeing it again *)
Lemma free_with_task m a t e v ts :
  m_tasks m !! a = None -> m_events m !! e = None -> ts !! a = Some t -> a_event t = e -> delete a ts = m_tasks m ->
  free_unstarted_task (set_m_tasks (with_task m a t e v) ts) a = Ret m.
Proof.
  intros Ha He Ht Hte Hdel. unfold free_unstarted_task. cbn. rewrite Ht. cbn. rewrite Hte, lookup_insert_eq. cbn.
  rewrite Hdel, delete_insert_id by done. by destruct m.
Qed.

(** A task that [start_task] has accepted may run beside the others. *)
Definition admissible (m : transfer_manager) (l : list addr) (t : active_task) : Prop :=
  m_stopping m = false /\ Z.of_nat (length l) < m_max_concurrent m /\
  forall x, download_target t = Some x -> x ∉ omap (target_at m) l.

Lemma start_task_spec m l q p d a e t v spawned :
  managed m l q p d -> a <> NULL -> m_tasks m !! a = None -> m_events m !! e = None -> a_event t = e ->
  let m1 := with_task m a t e v in
  (spawned = true /\ admissible m l t /\ start_task m1 a spawned = Ret (0, pushed m a e (set_a_next (m_active m) t) v)) \/
  (exists ts t', start_task m1 a spawned = Ret (-1, set_m_tasks m1 ts) /\
     ts !! a = Some t' /\ a_event t' = e /\ delete a ts = m_tasks m).
Proof.
  intros Hm Ha Hfa Hfe Hte m1. pose proof Hm as [H1 H2 H3 H4 H5 H6 H7 H8 Hn H9].
  assert (Hdel : delete a (m_tasks m1) = m_tasks m) by (cbn; by rewrite delete_insert_id).
  assert (Hrefused : exists ts t', Ret (-1, m1) = Ret (-1, set_m_tasks m1 ts) /\
     ts !! a = Some t' /\ a_event t' = e /\ delete a ts = m_tasks m).
  { exists (m_tasks m1), t. split_and!; [done | | done | done]. cbn. by rewrite lookup_insert_eq. }
  unfold start_task. change (m_stopping m1) with (m_stopping m). change (m_active_count m1) with (m_active_count m).
  change (m_max_concurrent m1) with (m_max_concurrent m). change (m_active m1) with (m_active m).
  destruct (m_stopping m) eqn:Est; [by right |].
  destruct (Z.leb_spec (m_max_concurrent m) (m_active_count m)) as [| Hroom]; [by right |]. cbn [orb].
  change (m_tasks m1 !! a) with (<[a := t]> (m_tasks m) !! a). rewrite lookup_insert_eq. cbn [deref mbind outcome_bind].
  assert (Hal : a ∉ l).
  { intros Hin. destruct (managed_task _ _ _ _ _ _ Hm Hin) as [t' Ht']. congruence. }
  assert (Hsame : forall b, b ∈ l -> m_tasks m1 !! b = m_tasks m !! b) by (intros b Hb; cbn; rewrite lookup_insert_ne; [done | by intros <-]).
  assert (Hbusy : target_busy (size (m_tasks m1)) m1 (k_target_path (a_body t)) (m_active m) =
                  Ret (bool_decide (k_target_path (a_body t) ∈ omap (target_at m) l))).
  { rewrite (target_busy_spec _ l).
    - assert (Ho : omap (target_at m1) l = omap (target_at m) l).
      { apply omap_same. intros b Hb. unfold target_at. by rewrite Hsame. }
      by rewrite Ho.
    - eapply chain_frame; [| exact H1]. intros b Hb. unfold task_next. by rewrite Hsame.
    - cbn. rewrite map_size_insert_None by done. pose proof (managed_size _ _ _ _ _ Hm). lia. }
  rewrite Hbusy. clear Hbusy.
  set (busy := if bool_decide (a_kind t = _) then _ else _).
  assert (Hb : exists b, busy = Ret b /\ (b = false -> forall x, download_target t = Some x -> x ∉ omap (target_at m) l)).
  { unfold busy, download_target. destruct (a_kind t).
    - exists false. by rewrite bool_decide_eq_false_2.
    - rewrite bool_decide_eq_true_2 by done. eexists. split; [done |]. intros Hb x [= <-]. by apply bool_decide_eq_false in Hb. }
  destruct Hb as (b & -> & Hb). cbn [mbind outcome_bind]. destruct b; [by right |].
  unfold write_task. change (m_tasks m1 !! a) with (<[a := t]> (m_tasks m) !! a). rewrite lookup_insert_eq. cbn [deref mbind outcome_bind].
  destruct spawned.
  - left. split_and!; [done | by split_and!; [done | lia | apply Hb] |]. unfold pushed. cbn. by rewrite insert_insert_eq.
  - right. exists (<[a := set_a_next (m_active m) t]> (m_tasks m)), (set_a_next (m_active m) t). cbn.
    rewrite insert_insert_eq, lookup_insert_eq. cbn. split_and!; [| done | done |].
    + unfold set_m_active, set_m_tasks, set_m_events. cbn. do 3 f_equal. rewrite H2. unfold u64. rewrite Z.mod_small; lia.
    + by rewrite delete_insert_id.
Qed.

(** A task that has been filled in but not started *)
Record filled (t0 t : active_task) : Prop := {
  fl_event : a_event t = a_event t0;
  fl_kind : a_kind t = a_kind t0;
  fl_canceled : a_canceled t = a_canceled t0;
  fl_socket : a_socket_fd t = a_socket_fd t0
}.

Definition fills (prepare : active_task -> outcome (option (active_task * list byte))) : Prop :=
  forall t0, exists r, prepare t0 = Ret r /\ forall t path, r = Some (t, path) -> filled t0 t.

(** What a submission leaves: nothing, or a new task in front *)
Definition submitted (m : transfer_manager) (l : list addr) (kind : transfer_kind) (r : Z) (m' : transfer_manager) : Prop :=
  (r = -1 /\ m' = m) \/
  (r = 0 /\ exists a e t path,
     m' = pushed m a e t {| e_kind := kind; e_result := TRANSFER_RESULT_OK; e_path := path; e_next := NULL |} /\
     a <> NULL /\ e <> NULL /\ m_tasks m !! a = None /\ m_events m !! e = None /\
     a_next t = m_active m /\ a_event t = e /\ a_kind t = kind /\ a_canceled t = false /\ a_socket_fd t = -1 /\ admissible m l t).

Lemma submit_task_spec m l q p d kind alloc spawned prepare :
  managed m l q p d -> fresh_alloc m alloc -> fills prepare ->
  exists r m', submit_task m kind alloc spawned prepare = Ret (r, m') /\ submitted m l kind r m'.
Proof.
  intros Hm [Hfa Hfe] Hfill. unfold submit_task.
  destruct alloc as [[a |] [e |]]; cbn [allocate_task]; try (by eexists _, _; split; [done | left]).
  destruct (Hfa a eq_refl) as [Ha Hta], (Hfe e eq_refl) as [He Hte]. clear Hfa Hfe.
  change (set_m_events _ _) with (with_task m a (blank_task kind e) e (blank_event kind)). set (t0 := blank_task kind e).
  rewrite (proj1 (with_task_at m a t0 e _)). cbn [deref mbind outcome_bind].
  destruct (Hfill t0) as (r & -> & Hr). cbn [mbind outcome_bind]. destruct r as [[t path] |].
  2: { change (with_task m a t0 e (blank_event kind)) with
         (set_m_tasks (with_task m a t0 e (blank_event kind)) (<[a := t0]> (m_tasks m))).
       rewrite free_with_task; [| done | done | apply lookup_insert_eq | done | by rewrite delete_insert_id].
       cbn. eexists _, _. split; [done | by left]. }
  destruct (Hr t path eq_refl) as [F1 F2 F3 F4]. cbn in F1, F2, F3, F4. clear Hr Hfill.
  rewrite write_with_task. cbn [mbind outcome_bind]. rewrite F1, write_with_event. cbn [mbind outcome_bind].
  set (v := {| e_kind := e_kind (blank_event kind) |}).
  destruct (start_task_spec m l q p d a e t v spawned Hm Ha Hta Hte F1) as [(-> & Hadm & ->) | (ts & t' & -> & Ht' & Hev & Hdel)].
  - cbn. eexists _, _. split; [done |]. right. split; [done |]. by eexists a, e, (set_a_next (m_active m) t), path.
  - cbn [mbind outcome_bind Z.eqb negb].
    change (set_m_tasks (with_task m a t e v) ts) with (set_m_tasks (with_task m a t' e v) ts).
    rewrite free_with_task by done. cbn. eexists _, _. split; [done | by left].
Qed.

Lemma pushed_managed m l q p d a e t v :
  managed m l q p d -> a <> NULL -> e <> NULL -> m_tasks m !! a = None -> m_events m !! e = None ->
  a_next t = m_active m -> a_event t = e -> admissible m l t ->
  managed (pushed m a e t v) (a :: l) q p d /\ (forall es, (forall x, x ∈ es -> x <> e) -> labels (pushed m a e t v) es = labels m es).
Proof.
  intros Hm Ha He Hta Hte Hnx Hev (Hst & Hroom & Htar). pose proof Hm as [H1 H2 H3 H4 H5 H6 H7 H8 Hn H9].
  assert (Hal : forall b, b ∈ l -> b <> a).
  { intros b Hin ->. destruct (managed_task _ _ _ _ _ _ Hm Hin) as [t' Ht']. congruence. }
  assert (Hel : e ∉ q ++ d ++ omap (event_of m) l).
  { intros Hin. apply H8 in Hin. rewrite Hte in Hin. by destruct Hin. }
  assert (Hev' : forall x, x ∈ q ++ d -> m_events (pushed m a e t v) !! x = m_events m !! x).
  { intros x Hx. cbn. apply lookup_insert_ne. intros <-. apply Hel. rewrite app_assoc. apply elem_of_app. by left. }
  assert (Heo : omap (event_of (pushed m a e t v)) (a :: l) = e :: omap (event_of m) l).
  { cbn. unfold event_of at 1. cbn. rewrite lookup_insert_eq. cbn. rewrite Hev. f_equal. apply omap_same.
    intros b Hb. unfold event_of. cbn. rewrite lookup_insert_ne; [done |]. intros <-. by apply (Hal a Hb). }
  assert (Hto : omap (target_at (pushed m a e t v)) (a :: l) =
                match download_target t with Some x => x :: omap (target_at m) l | None => omap (target_at m) l end).
  { assert (Hat : target_at (pushed m a e t v) a = download_target t) by (unfold target_at; cbn; by rewrite lookup_insert_eq).
    assert (Hl : omap (target_at (pushed m a e t v)) l = omap (target_at m) l).
    { apply omap_same. intros b Hb. unfold target_at. cbn. rewrite lookup_insert_ne; [done |]. intros <-. by apply (Hal a Hb). }
    change (omap (target_at (pushed m a e t v)) (a :: l)) with
      (match target_at (pushed m a e t v) a with
       | Some y => y :: omap (target_at (pushed m a e t v)) l
       | None => omap (target_at (pushed m a e t v)) l
       end). by rewrite Hat, Hl. }
  assert (Hperm : q ++ d ++ e :: omap (event_of m) l ≡ₚ e :: q ++ d ++ omap (event_of m) l).
  { rewrite !(app_assoc q). symmetry. apply Permutation_middle. }
  split.
  2: { intros es Hes. apply labels_frame. intros x Hx. cbn. rewrite lookup_insert_ne; [done |]. intros <-. by apply (Hes e). }
  split; rewrite ?Heo, ?Hto.
  - cbn. split_and!; [done | done |]. exists (m_active m). split; [unfold task_next; cbn; rewrite lookup_insert_eq; cbn; by rewrite Hnx |].
    eapply chain_frame; [| exact H1]. intros b Hb. unfold task_next. cbn. rewrite lookup_insert_ne; [done |]. intros <-. by apply (Hal a Hb).
  - cbn. rewrite H2. lia.
  - cbn. lia.
  - eapply chain_frame; [| exact H4]. intros x Hx. unfold event_next. rewrite Hev'; [done |]. apply elem_of_app. by left.
  - done.
  - eapply chain_frame; [| exact H6]. intros x Hx. unfold event_next. rewrite Hev'; [done |]. apply elem_of_app. by right.
  - rewrite Hperm. by constructor.
  - intros x. rewrite Hperm. cbn. rewrite lookup_insert_is_Some, elem_of_cons, H8. destruct (decide (e = x)); naive_solver.
  - cbn. by rewrite lookup_insert_ne.
  - destruct (download_target t) as [x |] eqn:Ex; [| done]. constructor; [by apply Htar | done].
Qed.
