(* ===== verification/TransferReturn.v ===== *)
(** * A transfer whose connection is shut down returns

    [transfer_manager_stop] calls [shutdown] on the socket of every running
    transfer.  Whatever the transfer is doing, whatever the kernel answers before and
    whatever the files hold, [run_upload] and [run_download] then return: no
    call blocks, no loop runs on and nothing is undefined. *)

From Stdlib Require Import Strings.Byte.
From S2P Require Import Prelude CString Protocol Utils Heap Files HandlerTransfer ClientTransfer ClientTransferSpec ClientRuntime.
From S2P Require Import TransferManager TransferSystem.

(** ** Packets on such a connection *)

Definition recv_ends (answers : list recv_answer) : Prop := exists pre, answers = pre ++ [RecvBytes []].

Lemma recv_ends_cons a rest : recv_ends (a :: rest) -> rest <> [] -> recv_ends rest.
Proof. intros [[| b pre] Hpre] Hne; [by injection Hpre as -> -> |]. injection Hpre as -> ->. by exists pre. Qed.

Lemma recv_n_loop_ends len answers : forall acc, recv_ends answers ->
  exists r buf rest, recv_n_loop len acc answers = Ret (r, buf, rest) /\ recv_ends rest.
Proof.
  induction answers as [| a answers IH]; intros acc Hends; [by destruct Hends as [[] ?] |].
  cbn [recv_n_loop]. destruct (_ <=? _)%nat; [by eauto 6 |].
  assert (Hrest : a <> RecvBytes [] -> recv_ends answers).
  { intros Ha. apply (recv_ends_cons a); [done |]. intros ->. destruct Hends as [[| b [|]] Hp]; naive_solver. }
  destruct a as [[| b l] | |]; [rewrite take_nil; by eauto 6 | | apply IH; by apply Hrest |].
  - destruct (take _ (b :: l)) as [| b1 got]; [by eauto 6 |]. destruct (drop _ (b :: l)) as [| b2 more]; [by apply IH, Hrest |].
    eexists _, _, _. split; [done |]. destruct (Hrest ltac:(done)) as [pre ->]. by exists (RecvBytes (b2 :: more) :: pre).
  - eexists _, _, _. split; [done |]. by apply Hrest.
Qed.

Lemma recv_n_ends s len : recv_ends (recv_script s) ->
  exists r buf sc, recv_n s len = Ret (r, buf, set_in s sc) /\ recv_ends sc.
Proof. intros Hs. unfold recv_n. destruct (recv_n_loop_ends len _ [] Hs) as (r & buf & sc & -> & Hsc). eauto 6. Qed.

Lemma send_n_loop_fails buf len answers : forall total out, SendError ∈ answers ->
  exists r out' rest, send_n_loop buf len total out answers = Ret (r, out', rest) /\ (r = 0 -> SendError ∈ rest).
Proof.
  induction answers as [| a answers IH]; intros total out Hin; [by apply elem_of_nil in Hin |].
  cbn [send_n_loop]. destruct (_ <=? _)%nat; [by eauto 6 |].
  destruct a as [n | |]; [apply IH; set_solver | apply IH; set_solver | by eexists _, _, _].
Qed.

Lemma send_n_fails s buf len : (len <= length buf)%nat -> SendError ∈ send_script s ->
  exists r out sc, send_n s buf len = Ret (r, set_out s out sc) /\ (r = 0 -> SendError ∈ sc).
Proof.
  intros Hl Hs. unfold send_n. rewrite (proj2 (Nat.leb_le _ _)) by done.
  destruct (send_n_loop_fails buf len _ 0 (sent s) Hs) as (r & out & sc & -> & Hr). eauto 6.
Qed.

Section packets.
Context `{Host}.

Lemma length_write_at dst off src : (off + length src <= length dst)%nat -> length (write_at dst off src) = length dst.
Proof. intros Hl. unfold write_at. rewrite !length_app, length_take, length_drop. lia. Qed.

Lemma length_encode_header h : length (encode_wire_header h) = TLV_WIRE_HEADER_SIZE.
Proof.
  assert (Hw : forall w off v, length w = TLV_WIRE_HEADER_SIZE -> (off + 4 <= TLV_WIRE_HEADER_SIZE)%nat ->
            length (write_net_u32 w off v) = TLV_WIRE_HEADER_SIZE).
  { intros w off v Hl Hoff. unfold write_net_u32. rewrite length_write_at; [done |]. rewrite length_mem_of. lia. }
  unfold encode_wire_header. cbn zeta. match goal with |- length (write_at ?w _ _) = _ => assert (Hl : length w = TLV_WIRE_HEADER_SIZE) end.
  { repeat (apply Hw; [| by apply Nat.leb_le]). apply length_replicate. }
  rewrite length_write_at; [done |]. rewrite Hl, length_take. unfold WIRE_SESSION_ID_OFFSET, TLV_WIRE_HEADER_SIZE, SESSION_ID_SIZE. lia.
Qed.

Lemma send_packet_cut k p :
  SendError ∈ send_script k -> (forall l, payload p = Some l -> payload_len (header p) <= Z.of_nat (length l)) ->
  exists r k', protocol_send_packet k p = Ret (r, k') /\ recv_script k' = recv_script k /\ (r = 0 -> SendError ∈ send_script k').
Proof.
  intros Hs Hp. unfold protocol_send_packet, protocol_send_header. destruct (_ || _) eqn:Eg; [eexists _, _; by split_and! |].
  apply orb_false_elim in Eg as [-> Eg].
  destruct (send_n_fails k (encode_wire_header (header p)) TLV_WIRE_HEADER_SIZE) as (r & out & sc & -> & Hr); [by rewrite length_encode_header | done |].
  cbn [mbind outcome_bind]. destruct (Z.eqb_spec r 0) as [-> |]; cbn [negb]; [| eexists _, _; by split_and!].
  destruct (0 <? payload_len (header p)) eqn:E0; [| exists 0, (set_out k out sc); by split_and!; [| | intros _; apply Hr]].
  destruct (payload p) as [l |]; [| done]. cbn [deref mbind outcome_bind]. specialize (Hp l eq_refl).
  destruct (send_n_fails (set_out k out sc) l (Z.to_nat (payload_len (header p)))) as (r1 & out1 & sc1 & -> & Hr1);
    [lia | by apply Hr |].
  cbn [mbind outcome_bind]. destruct (Z.eqb_spec r1 0) as [-> |]; cbn [negb]; [| eexists _, _; by split_and!].
  eexists _, _. split_and!; [done | done |]. intros _. by apply Hr1.
Qed.

Lemma recv_packet_cut malloc_ok k : shut_down k ->
  exists r p k', protocol_recv_packet malloc_ok k = Ret (r, p, k') /\ shut_down k'.
Proof.
  intros [Hr Hs]. unfold protocol_recv_packet.
  destruct (recv_n_ends k TLV_WIRE_HEADER_SIZE Hr) as (r & w & sc & -> & Hsc). cbn [mbind outcome_bind].
  assert (Hk : shut_down (set_in k sc)) by done. destruct (negb _); [by eauto 6 |]. destruct (_ || _); [by eauto 6 |]. cbn zeta.
  destruct (_ <? _); [by eauto 6 |]. destruct (_ =? 0); [by eauto 6 |]. destruct (negb _); [by eauto 6 |].
  match goal with |- context [recv_n ?k1 ?n] => destruct (recv_n_ends k1 n Hsc) as (r1 & d & sc1 & -> & Hsc1) end.
  cbn [mbind outcome_bind]. destruct (negb _); eexists _, _, _; (split; [done |]); by split.
Qed.
End packets.

(** ** Programs *)

Section returns.
Context `{Host} `{Sha256} (malloc_ok : Z -> bool) (task : client_task).

Definition cut (s : client_state) : Prop := shut_down (cl_sock s).

(** What is left to read and to be interrupted by *)
Definition todo (o : ofile) (f : fs) : nat := (length (content f (ino o)) - pos o + length (io f))%nat.

Lemma next_answer_io f a f' : next_answer f = (a, f') ->
  (length (io f') <= length (io f))%nat /\ (a = IoEintr -> length (io f') < length (io f))%nat.
Proof. unfold next_answer. destruct (io f) as [| b l] eqn:E; intros [= <- <-]; cbn; rewrite ?E; cbn; split; done || lia. Qed.

Lemma call_todo o f ok f' : call f = (ok, f') -> (todo o f' <= todo o f)%nat.
Proof.
  unfold call, todo. destruct (next_answer f) as [a f1] eqn:E. intros [= <- <-].
  rewrite (content_same f f1) by (by eapply next_answer_same). apply next_answer_io in E as [? _]. lia.
Qed.

Lemma read_todo o n f r o' f' : (0 < n)%nat -> read o n f = (r, o', f') ->
  match r with ReadBytes [] | ReadError => True | _ => (todo o' f' < todo o f)%nat end.
Proof.
  intros Hn Hr. pose proof (read_cases _ _ _ _ _ _ Hr Hn) as (Hs & Hi & Hc). unfold todo. rewrite Hi, (content_same f f' _ Hs).
  unfold read in Hr. destruct (next_answer f) as [a f1] eqn:E. apply next_answer_io in E as [Hle Hlt].
  assert (f' = f1) as -> by (destruct a; by injection Hr).
  destruct r as [[| b l] | |]; [done | | | done].
  - destruct Hc as (Hl & Hp & _ & _). apply (f_equal length) in Hl. rewrite length_take, length_drop in Hl. cbn [length] in *. lia.
  - destruct a; try discriminate Hr. injection Hr as <-. specialize (Hlt eq_refl). lia.
Qed.

(** Calls on files leave the connection alone. *)
Lemma cwp_on_files {X} (m : fs -> X * fs) (Q : X -> client_state -> Prop) s :
  (forall a s', m (cl_fs s) = (a, cl_fs s') -> cl_sock s' = cl_sock s -> Q a s') -> cwp true (on_files m) Q s.
Proof. intros HQ. apply cwp_files. intros a f' Hm. by apply HQ. Qed.

Lemma cwp_poll (Q : bool -> client_state -> Prop) s :
  (forall c s', cl_fs s' = cl_fs s -> cl_sock s' = cl_sock s -> Q c s') -> cwp true task_is_canceled Q s.
Proof. intros HQ. unfold cwp, task_is_canceled. destruct (cl_cancel s) as [[| n] |]; by apply HQ. Qed.

Lemma cwp_close_file (Q : unit -> client_state -> Prop) s :
  (forall s', cl_sock s' = cl_sock s -> Q tt s') -> cwp true c_close Q s.
Proof. intros HQ. apply cwp_on_files. intros [] s' _. apply HQ. Qed.

Lemma cwp_send_cut ty st pl (Q : Z -> client_state -> Prop) s :
  cut s -> (forall r s', cl_fs s' = cl_fs s -> (r = 0 -> cut s') -> Q r s') -> cwp true (task_send task ty st pl) Q s.
Proof.
  intros Hcut HQ. unfold task_send. apply cwp_bind, cwp_poll. intros c s1 Hf Hk. destruct c; [by apply cwp_ret, HQ |].
  unfold packet_init. destruct (_ || _); [by apply cwp_ret, HQ |]. unfold cut in Hcut. rewrite <- Hk in Hcut.
  unfold cwp, on_conn. match goal with |- context [protocol_send_packet _ ?p] => set (pk := p) end.
  destruct (send_packet_cut (cl_sock s1) pk) as (r & k' & -> & Hr & Hz); [by apply Hcut | |].
  { unfold pk. cbn. intros l ->. done. }
  cbn [mbind outcome_bind fst snd]. apply HQ; [done |]. intros Hzero. split; [cbn; rewrite Hr; by apply Hcut | by apply Hz].
Qed.

Lemma cwp_report_cut st (Q : unit -> client_state -> Prop) s :
  cut s -> (forall s', cl_fs s' = cl_fs s -> Q tt s') -> cwp true (task_report_error task st) Q s.
Proof.
  intros Hcut HQ. unfold task_report_error. apply cwp_bind, cwp_poll. intros c s1 Hf Hk. destruct c; [by apply cwp_ret, HQ |].
  apply cwp_bind, cwp_send_cut; [unfold cut; by rewrite Hk |]. intros r s2 Hf2 _. apply cwp_ret, HQ. congruence.
Qed.

Lemma cwp_release_cut p (Q : unit -> client_state -> Prop) s :
  cut s -> (forall s', cl_fs s' = cl_fs s -> cut s' -> Q tt s') -> cwp true (c_release p) Q s.
Proof. intros Hcut HQ. apply HQ; [done |]. unfold cut in *. cbn. by destruct (owns_payload p). Qed.

Lemma cwp_recv_cut (Q : option packet -> client_state -> Prop) s :
  cut s -> (forall s', Q None s') -> (forall p s', packet_wf p -> cl_fs s' = cl_fs s -> cut s' -> Q (Some p) s') ->
  cwp true (task_recv malloc_ok task) Q s.
Proof.
  intros Hcut HN HS. unfold task_recv. apply cwp_bind, cwp_poll. intros c s1 Hf Hk. destruct c; [by apply cwp_ret, HN |].
  apply cwp_bind. unfold cwp at 1, on_conn. unfold cut in Hcut. rewrite <- Hk in Hcut.
  destruct (recv_packet_cases malloc_ok (cl_sock s1)) as [_ Hr].
  destruct (recv_packet_cut malloc_ok (cl_sock s1) Hcut) as (r & p & k' & He & Hk'). rewrite He in *. cbn [mbind outcome_bind fst snd].
  destruct (Hr _ _ _ eq_refl) as (_ & [(-> & Hwf & _) | (-> & _)]); cbn [Z.eqb negb]; [| by apply cwp_ret, HN].
  destruct (session_id_equal _ _); cbn [negb]; [by apply cwp_ret, HS |].
  apply cwp_bind, cwp_release_cut; [done |]. intros s2 _ Hc2. apply cwp_bind, cwp_send_cut; [done |]. intros. by apply cwp_ret.
Qed.
(** Hashing reads to the end. *)
Lemma hash_loop_returns fuel : forall o acc s, (todo o (cl_fs s) < fuel)%nat ->
  cwp true (hash_loop fuel o acc) (fun _ s' => cl_sock s' = cl_sock s) s.
Proof.
  induction fuel as [| fuel IH]; intros o acc s Hfuel; [lia |]. cbn [hash_loop].
  apply cwp_bind, cwp_poll. intros c s1 Hf1 Hk1. destruct c; [by apply cwp_ret |].
  apply cwp_bind, cwp_on_files. intros [r o1] s2 Hr Hk2.
  destruct (read o (Z.to_nat 65536) (cl_fs s1)) as [[r1 o2] f2] eqn:Er. injection Hr as -> -> Hf2.
  pose proof (read_todo _ (Z.to_nat 65536) _ _ _ _ ltac:(lia) Er) as Htodo. rewrite Hf1, Hf2 in Htodo.
  destruct r as [[| b l] | |]; cbv beta iota in Htodo; [apply cwp_ret; congruence | | | apply cwp_ret; congruence].
  - apply cwp_bind, cwp_on_files. intros ok s3 Hc Hk3. apply (call_todo o1) in Hc.
    destruct ok; cbn [negb]; [| apply cwp_ret; congruence]. eapply cwp_mono; [apply IH; lia |]. intros ? s4 ?. congruence.
  - eapply cwp_mono; [apply IH; lia |]. intros ? s4 ?. congruence.
Qed.

Lemma compute_sha256_returns o s : cwp true (task_compute_sha256 o) (fun _ s' => cl_sock s' = cl_sock s) s.
Proof.
  unfold task_compute_sha256. apply cwp_bind, cwp_on_files. intros [o1 |] s1 _ Hk1; [| by apply cwp_ret].
  apply cwp_bind, cwp_on_files. intros [] s2 _ Hk2; cbn [negb]; [| apply cwp_ret; congruence].
  apply cwp_bind, cwp_on_files. intros [] s3 _ Hk3; cbn [negb]; [| apply cwp_ret; congruence].
  apply cwp_bind, cwp_on_files. intros fuel s4 [= <- Hf4] Hk4. apply cwp_bind.
  eapply cwp_mono; [apply hash_loop_returns; unfold todo, read_fuel; rewrite Hf4; lia |]. intros [bytes |] s5 Hk5; [| apply cwp_ret; congruence].
  apply cwp_bind, cwp_on_files. intros [] s6 _ Hk6; cbn [negb]; apply cwp_ret; congruence.
Qed.

Lemma hash_matches_returns o size expected s : cwp true (hash_matches o size expected) (fun _ s' => cl_sock s' = cl_sock s) s.
Proof.
  unfold hash_matches. apply cwp_bind, cwp_on_files. intros [n |] s1 _ Hk1; [| by apply cwp_ret].
  destruct (negb _); [by apply cwp_ret |]. apply cwp_bind. eapply cwp_mono; [apply compute_sha256_returns |].
  intros [h |] s2 Hk2; apply cwp_ret; congruence.
Qed.

Lemma same_cut s s' : cl_sock s' = cl_sock s -> cut s -> cut s'.
Proof. unfold cut. by intros ->. Qed.

(** The end of a transfer that fails *)
Lemma report_returns {X} st (c : cm X) s : cut s -> (forall s', cwp true c (fun _ _ => True) s') ->
  cwp true (task_report_error task st;; c) (fun _ _ => True) s.
Proof. intros Hcut Hc. apply cwp_bind, cwp_report_cut; [done |]. intros s' _. apply Hc. Qed.

Lemma release_returns {X} p (c : cm X) Q s : cut s -> (forall s', cut s' -> cwp true c Q s') -> cwp true (c_release p;; c) Q s.
Proof. intros Hcut Hc. apply cwp_bind, cwp_release_cut; [done |]. intros s' _. apply Hc. Qed.

(** Sending a file *)
Lemma send_loop_returns fuel : forall o remaining s, cut s -> (todo o (cl_fs s) < fuel)%nat ->
  cwp true (send_loop fuel task o remaining) (fun ok s' => ok = true -> cut s') s.
Proof.
  induction fuel as [| fuel IH]; intros o remaining s Hcut Hfuel; [lia |]. cbn [send_loop].
  destruct (Z.ltb_spec 0 remaining); cbn [negb]; [| by apply cwp_ret].
  set (wanted := if FILE_CHUNK_SIZE <? remaining then _ else _).
  assert (Hwanted : (0 < Z.to_nat wanted)%nat) by (unfold wanted, FILE_CHUNK_SIZE; destruct (_ <? _); lia).
  apply cwp_bind, cwp_poll. intros c s1 Hf1 Hk1. destruct c; [by apply cwp_ret |]. apply (same_cut _ s1) in Hcut; [| done].
  apply cwp_bind, cwp_on_files. intros [r o1] s2 Hr Hk2.
  destruct (read o (Z.to_nat wanted) (cl_fs s1)) as [[r1 o2] f2] eqn:Er. injection Hr as -> -> Hf2.
  pose proof (read_todo _ _ _ _ _ _ Hwanted Er) as Htodo. rewrite Hf1, Hf2 in Htodo. apply (same_cut _ s2) in Hcut; [| done].
  assert (Hfail : cwp true (task_report_error task STATUS_IO_ERROR;; mret false) (fun ok s' => ok = true -> cut s') s2).
  { apply cwp_bind, cwp_report_cut; [done |]. intros s3 _. by apply cwp_ret. }
  destruct r as [[| b l] | |]; cbv beta iota in Htodo; [exact Hfail | | by apply IH; [| lia] | exact Hfail].
  apply cwp_bind, cwp_send_cut; [done |]. intros r s3 Hf3 Hk3. destruct (Z.eqb_spec r 0) as [-> |]; cbn [negb]; [| by apply cwp_ret].
  apply IH; [by apply Hk3 | rewrite Hf3; lia].
Qed.

Lemma await_ack_returns s : cut s -> cwp true (await_ack malloc_ok task) (fun _ _ => True) s.
Proof.
  intros Hcut. unfold await_ack. apply cwp_bind, cwp_recv_cut; [done | intros; by apply cwp_ret |].
  intros p s1 _ _ Hc1. apply release_returns; [done |]. intros. by apply cwp_ret.
Qed.

Lemma payload_given p n : packet_wf p -> payload_len (header p) = n -> 0 < n -> exists l, payload p = Some l.
Proof. intros [_ Hp] Hn Hpos. destruct (payload p); [eauto | lia]. Qed.

Lemma send_missing_returns o size s : cut s -> cwp true (send_missing malloc_ok task o size) (fun _ _ => True) s.
Proof.
  intros Hcut. unfold send_missing. apply cwp_bind, cwp_recv_cut; [done | intros; by apply cwp_ret |]. intros p s1 Hwf _ Hc1.
  destruct (_ || _) eqn:Eg; [by apply release_returns; [| intros; apply cwp_ret] |].
  apply orb_false_elim in Eg as [_ Eg]. apply negb_false_iff, Z.eqb_eq in Eg.
  destruct (payload_given p RESUME_SIZE Hwf Eg) as [l Hl]; [done |]. apply cwp_bind. eapply cwp_lift; [by rewrite Hl |].
  apply release_returns; [done |]. intros s2 Hc2. cbn zeta. destruct (size <? _); [by apply report_returns; [| intros; apply cwp_ret] |].
  destruct (_ =? size); [by apply await_ack_returns |].
  apply cwp_bind, cwp_on_files. intros [o1 |] s3 _ Hk3; apply (same_cut _ s3) in Hc2; try done;
    [| by apply report_returns; [| intros; apply cwp_ret]].
  apply cwp_bind, cwp_on_files. intros fuel s4 [= <- Hf4] Hk4. apply cwp_bind.
  eapply cwp_mono; [apply send_loop_returns; [by apply (same_cut s3) | unfold todo, read_fuel; rewrite Hf4; lia] |].
  intros [] s5 Hc5; cbn [negb]; [| by apply cwp_ret]. apply cwp_bind, cwp_send_cut; [by apply Hc5 |].
  intros r s6 _ Hc6. destruct (Z.eqb_spec r 0) as [-> |]; cbn [negb]; [by apply await_ack_returns, Hc6 | by apply cwp_ret].
Qed.

Lemma run_upload_returns s : cut s -> cwp true (run_upload malloc_ok task) (fun _ _ => True) s.
Proof.
  intros Hcut. unfold run_upload. apply cwp_bind, cwp_on_files. intros [o |] s1 _ Hk1; [| by apply cwp_ret].
  apply cwp_bind, cwp_on_files. intros size s2 _ Hk2. apply cwp_bind. apply (cwp_mono _ _ (fun _ _ => True)).
  2: { intros r s3 _. apply cwp_bind, cwp_close_file. intros s4 _. by apply cwp_ret. }
  destruct size as [n |]; [| by apply cwp_ret]. destruct (copy_string _ _) as [path |]; [| by apply cwp_ret].
  apply cwp_bind. eapply cwp_mono; [apply compute_sha256_returns |]. intros [h |] s3 Hk3; [| by apply cwp_ret].
  apply cwp_bind, cwp_on_files. intros [o1 |] s4 _ Hk4; [| by apply cwp_ret].
  apply cwp_bind, cwp_send_cut; [apply (same_cut s); [congruence | done] |]. intros r s5 _ Hc5.
  destruct (Z.eqb_spec r 0) as [-> |]; cbn [negb]; [by apply send_missing_returns, Hc5 | by apply cwp_ret].
Qed.

(** Fetching one *)
Lemma close_returns {X} (a : X) s : cwp true (c_close;; mret a) (fun _ _ => True) s.
Proof. apply cwp_bind, cwp_close_file. intros s' _. by apply cwp_ret. Qed.

Lemma fetch_loop_returns fuel : forall o received expected s, cut s -> expected - received <= Z.of_nat fuel ->
  cwp true (fetch_loop malloc_ok fuel task o received expected) (fun r s' => r <> None -> cut s') s.
Proof.
  induction fuel as [| fuel IH]; intros o received expected s Hcut Hfuel; cbn [fetch_loop];
    (destruct (Z.ltb_spec received expected); cbn [negb]; [| by apply cwp_ret]); [lia |].
  apply cwp_bind, cwp_poll. intros c s1 _ Hk1. destruct c; [by apply cwp_ret |]. apply (same_cut _ s1) in Hcut; [| done].
  apply cwp_bind, cwp_recv_cut; [done | intros; by apply cwp_ret |]. intros p s2 Hwf _ Hc2.
  assert (Hfail : forall st s', cut s' -> cwp true (task_report_error task st;; mret (None : option ofile)) (fun r s' => r <> None -> cut s') s').
  { intros st s' Hc'. apply cwp_bind, cwp_report_cut; [done |]. intros s3 _. by apply cwp_ret. }
  destruct (_ || _ || _ || _ || _) eqn:Eg; [apply release_returns; [done |]; intros; by apply Hfail |]. zbool.
  pose proof Hwf as [(_ & _ & Hlen & _) _]. destruct (payload_given p _ Hwf eq_refl) as [l Hl]; [lia |].
  apply cwp_bind. eapply cwp_lift; [by rewrite Hl |]. apply cwp_bind, cwp_on_files. intros [w o1] s3 _ Hk3.
  apply (same_cut _ s3) in Hc2; [| done].
  destruct (negb _); (apply release_returns; [done |]); intros s4 Hc4; [by apply Hfail | apply IH; [done | lia]].
Qed.

Lemma await_end_returns s : cut s -> cwp true (await_end malloc_ok task) (fun r s' => r = true -> cut s') s.
Proof.
  intros Hcut. unfold await_end. apply cwp_bind, cwp_recv_cut; [done | intros; by apply cwp_ret |]. intros p s1 _ _ Hc1.
  destruct (_ || _ || _); (apply release_returns; [done |]); intros s2 Hc2; [| by apply cwp_ret].
  apply cwp_bind, cwp_report_cut; [done |]. intros s3 _. by apply cwp_ret.
Qed.

Lemma open_part_returns size s : cut s -> cwp true (open_part task size) (fun r s' => r <> None -> cut s') s.
Proof.
  intros Hcut. unfold open_part.
  assert (Hfail : forall s', cut s' -> cwp true (task_report_error task STATUS_IO_ERROR;; c_close;; mret (None : option (ofile * Z)))
            (fun r s' => r <> None -> cut s') s').
  { intros s' Hc'. apply cwp_bind, cwp_report_cut; [done |]. intros s3 _. apply cwp_bind, cwp_close_file. intros s4 _. by apply cwp_ret. }
  apply cwp_bind, cwp_on_files. intros [o |] s1 _ Hk1; apply (same_cut _ s1) in Hcut; try done.
  2: { apply cwp_bind, cwp_report_cut; [done |]. intros s3 _. by apply cwp_ret. }
  apply cwp_bind, cwp_on_files. intros [n |] s2 _ Hk2; apply (same_cut _ s2) in Hcut; try done; [| by apply Hfail].
  apply cwp_bind. apply (cwp_mono _ _ (fun _ s' => cl_sock s' = cl_sock s2)).
  { destruct (size <? n); [| by apply cwp_ret]. apply cwp_bind, cwp_on_files. intros ok s3 _ Hk3. by apply cwp_ret. }
  intros [off |] s3 Hk3; apply (same_cut _ s3) in Hcut; try done; [| by apply Hfail].
  apply cwp_bind, cwp_on_files. intros [o1 |] s4 _ Hk4; apply (same_cut _ s4) in Hcut; try done; [by apply cwp_ret | by apply Hfail].
Qed.

Lemma open_target_returns size expected s : cut s -> cwp true (open_target task size expected) (fun r s' => r <> None -> cut s') s.
Proof.
  intros Hcut. unfold open_target. apply cwp_bind. apply (cwp_mono _ _ (fun _ s' => cl_sock s' = cl_sock s)).
  { unfold probe_target. apply cwp_bind, cwp_on_files. intros [o |] s1 _ Hk1; [| by apply cwp_ret].
    apply cwp_bind. eapply cwp_mono; [apply hash_matches_returns |]. intros [] s2 Hk2; [apply cwp_ret; congruence |].
    apply cwp_bind, cwp_close_file. intros s3 Hk3. apply cwp_ret. congruence. }
  intros [o |] s1 Hk1; apply (same_cut _ s1) in Hcut; try done; [by apply cwp_ret |].
  apply cwp_bind. eapply cwp_mono; [by apply open_part_returns |]. intros [[o off] |] s2 Hc2; apply cwp_ret; [| done]. intros _. by apply Hc2.
Qed.

Lemma finish_download_returns use_final o size expected s :
  cut s -> cwp true (finish_download task use_final o size expected) (fun _ _ => True) s.
Proof.
  intros Hcut. unfold finish_download. apply cwp_bind. apply (cwp_mono _ _ (fun r s' => r = true -> cut s')).
  2: { intros [] s1 Hc1; cbn [negb]; [| by apply cwp_ret]. apply cwp_bind, cwp_send_cut; [by apply Hc1 |]. intros r s2 _ _.
       apply cwp_bind. destruct use_final; [apply cwp_close_file; intros s3 _ |]; by repeat apply cwp_ret. }
  destruct use_final; [by apply cwp_ret |]. apply cwp_bind, cwp_on_files. intros ok s1 _ Hk1. apply cwp_bind.
  apply (cwp_mono _ _ (fun _ s' => cl_sock s' = cl_sock s)).
  { destruct (negb ok); [by apply cwp_ret |]. eapply cwp_mono; [apply hash_matches_returns |]. intros ? s2 ?. congruence. }
  intros matched s2 Hk2. apply (same_cut _ s2) in Hcut; [| done]. destruct (negb matched).
  - apply cwp_bind, cwp_report_cut; [done |]. intros s3 _. apply cwp_bind, cwp_close_file. intros s4 _. by apply cwp_ret.
  - apply cwp_bind, cwp_close_file. intros s3 Hk3. apply cwp_bind, cwp_on_files. intros [e |] s4 _ Hk4.
    + apply cwp_bind, cwp_report_cut; [apply (same_cut s2); [congruence | done] |]. intros s5 _. by apply cwp_ret.
    + apply cwp_ret. intros _. apply (same_cut s2); [congruence | done].
Qed.

Lemma fetch_file_returns size expected s : cut s -> cwp true (fetch_file malloc_ok task size expected) (fun _ _ => True) s.
Proof.
  intros Hcut. unfold fetch_file. apply cwp_bind. eapply cwp_mono; [by apply open_target_returns |].
  intros [[[use_final o] off] |] s1 Hc1; [| by apply cwp_ret].
  apply cwp_bind, cwp_send_cut; [by apply Hc1 |]. intros r s2 _ Hc2. destruct (Z.eqb_spec r 0) as [-> |]; cbn [negb]; [| apply close_returns].
  apply cwp_bind. eapply cwp_mono; [apply fetch_loop_returns; [by apply Hc2 | lia] |]. intros [o1 |] s3 Hc3; [| apply close_returns].
  apply cwp_bind. eapply cwp_mono; [apply await_end_returns; by apply Hc3 |]. intros [] s4 Hc4; cbn [negb]; [| apply close_returns].
  by apply finish_download_returns, Hc4.
Qed.

Lemma run_download_returns s : cut s -> cwp true (run_download malloc_ok task) (fun _ _ => True) s.
Proof.
  intros Hcut. unfold run_download. apply cwp_bind, cwp_send_cut; [done |]. intros r s1 _ Hc1.
  destruct (Z.eqb_spec r 0) as [-> |]; cbn [negb]; [| by apply cwp_ret].
  apply cwp_bind, cwp_recv_cut; [by apply Hc1 | intros; by apply cwp_ret |]. intros p s2 Hwf _ Hc2.
  destruct (_ || _) eqn:Eg; [apply release_returns; [done |]; intros; by apply cwp_ret |].
  apply orb_false_elim in Eg as [_ Eg]. apply negb_false_iff, Z.eqb_eq in Eg.
  destruct (payload_given p FILE_INFO_SIZE Hwf Eg) as [l Hl]; [done |]. apply cwp_bind. eapply cwp_lift; [by rewrite Hl |].
  apply release_returns; [done |]. intros s3 Hc3. cbn zeta. destruct (negb _); [| by apply fetch_file_returns].
  apply report_returns; [done |]. intros. by apply cwp_ret.
Qed.

Lemma run_transfer_returns kind s : shut_down (cl_sock s) ->
  exists r s', run_transfer malloc_ok kind task s = Ret (r, s').
Proof.
  intros Hcut. assert (Hw : cwp true (run_transfer malloc_ok kind task) (fun _ _ => True) s).
  { destruct kind; [by apply run_upload_returns | by apply run_download_returns]. }
  unfold cwp in Hw. destruct (run_transfer malloc_ok kind task s) as [[r s'] | |]; [eauto | done | done].
Qed.
End returns.
