(* ===== verification/TransferSystemSpec.v ===== *)
(** * The client's transfers are limited, reported once and stopped

    The invariant of the system of [TransferSystem] and what follows from it. *)

From Stdlib Require Import Strings.Byte.
From S2P Require Import Prelude CString Protocol Utils Heap Files HandlerTransfer ClientTransfer ClientRuntime TransferManager TransferSystem.
From S2P Require Import TransferManagerSpec TransferReturn.

(** ** The invariant *)

(** The descriptor that a thread has to close, and the one that its task shows *)
Definition owns (ph : phase) : option Z :=
  match ph with
  | Connected fd | Rejected fd | Transferring fd | Transferred fd _ | Closing fd _ => Some fd
  | _ => None
  end.
Definition published (ph : phase) : Z :=
  match ph with Transferring fd | Transferred fd _ => fd | _ => -1 end.

Definition taken_from (x : main_state) : addr := match x with MDraining _ p => p | _ => NULL end.
Definition stopping_state (x : main_state) : bool :=
  match x with MIdle | MDraining false _ => false | _ => true end.
(** [transfer_manager_stop] has returned. *)
Definition quiet_state (x : main_state) : bool :=
  match x with MStopped | MDraining true _ | MDrained | MGone => true | _ => false end.
(** ... and the last events have been taken. *)
Definition drained_state (x : main_state) : bool :=
  match x with MDraining true _ | MDrained | MGone => true | _ => false end.

Record transfers_inv (s : transfers) (l q d : list addr) : Prop := {
  ti_managed : managed (mgr s) l q (taken_from (main s)) d;
  ti_running a : a ∈ l <-> exists ph, threads s !! a = Some ph /\ ph <> Freeing;
  ti_tasks a : is_Some (threads s !! a) <-> is_Some (m_tasks (mgr s) !! a);
  ti_labels : accepted s ≡ₚ map shown_label (reported s) ++ labels (mgr s) (q ++ d ++ omap (event_of (mgr s)) l);
  ti_published a ph t : threads s !! a = Some ph -> m_tasks (mgr s) !! a = Some t -> a_socket_fd t = published ph;
  ti_sockets fd : fd ∈ sockets s <-> exists a ph, threads s !! a = Some ph /\ owns ph = Some fd;
  ti_owner a b ph ph' fd : threads s !! a = Some ph -> threads s !! b = Some ph' ->
    owns ph = Some fd -> owns ph' = Some fd -> a = b;
  ti_fds a ph fd : threads s !! a = Some ph -> owns ph = Some fd -> 0 <= fd;
  ti_canceled a t : m_stopping (mgr s) = true -> a ∈ l -> m_tasks (mgr s) !! a = Some t -> a_canceled t = true;
  ti_stopping : m_stopping (mgr s) = stopping_state (main s);
  ti_quiet : quiet_state (main s) = true -> l = [];
  ti_drained : drained_state (main s) = true -> q = [];
  (* the transfers that still run have been shut down, and nobody sleeps in vain *)
  ti_shut a fd : m_stopping (mgr s) = true -> threads s !! a = Some (Transferring fd) -> fd ∈ shut s;
  ti_asleep : main s = MAsleep -> l <> []
}.

(** ** Steps of a thread *)

(** A thread moves on, its task stays on the list and may show another descriptor. *)
Lemma inv_move s l q d a ph ph' m' t t' socks :
  transfers_inv s l q d -> threads s !! a = Some ph -> ph <> Freeing -> ph' <> Freeing ->
  same_shape (mgr s) m' -> m_stopping m' = m_stopping (mgr s) ->
  m_tasks (mgr s) !! a = Some t -> m_tasks m' = <[a := t']> (m_tasks (mgr s)) ->
  a_canceled t' = a_canceled t -> a_socket_fd t' = published ph' ->
  (forall fd, fd ∈ socks <-> (fd ∈ sockets s /\ owns ph <> Some fd) \/ owns ph' = Some fd) ->
  (forall fd, owns ph' = Some fd -> 0 <= fd /\ (owns ph = Some fd \/ fd ∉ sockets s)) ->
  (forall fd, ph' = Transferring fd -> m_stopping (mgr s) = false) ->
  transfers_inv (set_sockets (set_mgr (set_thread s a ph') m') socks) l q d.
Proof.
  intros [I1 I2 I3 I4 I5 I6 I7 I8 I9 I10 I11 I12 I13 I14] Ha Hph Hph' Hs Hst Ht Hts Hc Hfd Hsock Hown Htr. split; cbn; try done.
  - by apply (same_managed (mgr s)).
  - intros b. rewrite I2. destruct (decide (b = a)) as [-> |]; [| by rewrite lookup_insert_ne].
    rewrite lookup_insert_eq, Ha. naive_solver.
  - intros b. rewrite Hts. destruct (decide (b = a)) as [-> |]; [| by rewrite !lookup_insert_ne].
    rewrite !lookup_insert_eq. naive_solver.
  - rewrite (same_labels (mgr s)) by done. rewrite (omap_same (event_of m') (event_of (mgr s))); [done |].
    intros x _. by apply same_event_of.
  - intros b ph1 t1. rewrite Hts. destruct (decide (b = a)) as [-> |].
    + rewrite !lookup_insert_eq. by intros [= <-] [= <-].
    + rewrite !lookup_insert_ne by done. apply I5.
  - intros fd. rewrite Hsock, I6. split.
    + intros [[(b & ph1 & Hb & Ho) Hne] | Ho].
      * exists b, ph1. rewrite lookup_insert_ne; [done |]. intros <-. congruence.
      * exists a, ph'. by rewrite lookup_insert_eq.
    + intros (b & ph1 & Hb & Ho). destruct (decide (b = a)) as [-> | Hba].
      * rewrite lookup_insert_eq in Hb. injection Hb as <-. by right.
      * rewrite lookup_insert_ne in Hb by done. left. split; [eauto |]. intros Hoa. by apply Hba, (I7 b a ph1 ph fd).
  - assert (Hnew : forall b ph1 fd, b <> a -> threads s !! b = Some ph1 -> owns ph1 = Some fd -> owns ph' <> Some fd).
    { intros b ph1 fd Hba Hb Ho Ho'. destruct (Hown fd Ho') as [_ [Hoa | Hno]]; [by apply Hba, (I7 b a ph1 ph fd) |].
      apply Hno, I6. eauto. }
    intros b c ph1 ph2 fd Hb Hc' Ho1 Ho2. destruct (decide (b = a)) as [-> |], (decide (c = a)) as [-> |]; [done | ..].
    + rewrite lookup_insert_eq in Hb. rewrite lookup_insert_ne in Hc' by done. injection Hb as <-. by destruct (Hnew c ph2 fd).
    + rewrite lookup_insert_eq in Hc'. rewrite lookup_insert_ne in Hb by done. injection Hc' as <-. by destruct (Hnew b ph1 fd).
    + rewrite !lookup_insert_ne in * by done. by apply (I7 b c ph1 ph2 fd).
  - intros b ph1 fd. destruct (decide (b = a)) as [-> |].
    + rewrite lookup_insert_eq. intros [= <-] Ho. by apply Hown.
    + rewrite lookup_insert_ne by done. apply I8.
  - intros b t1 Hstop Hb. rewrite Hst in Hstop. rewrite Hts. destruct (decide (b = a)) as [-> |].
    + rewrite lookup_insert_eq. intros [= <-]. rewrite Hc. by apply (I9 a).
    + rewrite lookup_insert_ne by done. by apply I9.
  - by rewrite Hst.
  - intros b fd Hstop. rewrite Hst in Hstop. rewrite lookup_insert_Some. intros [[<- Hph1] | [_ Hb]]; [| by apply (I13 b)].
    apply Htr in Hph1. congruence.
Qed.

(** ... or nothing but its place changes. *)
Lemma inv_walk s l q d a ph ph' socks :
  transfers_inv s l q d -> threads s !! a = Some ph -> ph <> Freeing -> ph' <> Freeing -> published ph' = published ph ->
  (forall fd, fd ∈ socks <-> (fd ∈ sockets s /\ owns ph <> Some fd) \/ owns ph' = Some fd) ->
  (forall fd, owns ph' = Some fd -> 0 <= fd /\ (owns ph = Some fd \/ fd ∉ sockets s)) ->
  (forall fd, ph' <> Transferring fd) ->
  transfers_inv (set_sockets (set_thread s a ph') socks) l q d.
Proof.
  intros Hi Ha Hph Hph' Hpub Hsock Hown Htr. assert (is_Some (m_tasks (mgr s) !! a)) as [t Ht] by (apply (ti_tasks _ _ _ _ Hi); eauto).
  eapply (inv_move s l q d a ph ph' (mgr s) t t socks); try done.
  - by rewrite insert_id.
  - rewrite Hpub. by eapply ti_published.
  - intros fd Hfd. by apply Htr in Hfd.
Qed.

(** The thread keeps what it owns. *)
Lemma inv_stay s l q d a ph ph' :
  transfers_inv s l q d -> threads s !! a = Some ph -> ph <> Freeing -> ph' <> Freeing -> published ph' = published ph ->
  owns ph' = owns ph -> (forall fd, ph' <> Transferring fd) -> transfers_inv (set_thread s a ph') l q d.
Proof.
  intros Hi Ha Hph Hph' Hpub Hown Htr. apply (inv_walk s l q d a ph ph' (sockets s)); try done.
  - intros fd. rewrite Hown. destruct (decide (owns ph = Some fd)) as [Ho |]; [| naive_solver].
    rewrite (ti_sockets _ _ _ _ Hi fd). naive_solver.
  - intros fd Ho. rewrite Hown in Ho. split; [by eapply ti_fds | by left].
Qed.

Lemma keeps_sockets s l q d a ph ph' fd :
  transfers_inv s l q d -> threads s !! a = Some ph -> owns ph' = owns ph ->
  fd ∈ sockets s <-> (fd ∈ sockets s /\ owns ph <> Some fd) \/ owns ph' = Some fd.
Proof.
  intros Hi Ha ->. rewrite (ti_sockets _ _ _ _ Hi fd). destruct (decide (owns ph = Some fd)); naive_solver.
Qed.

Lemma running_task s l q d a ph :
  transfers_inv s l q d -> threads s !! a = Some ph -> exists t, m_tasks (mgr s) !! a = Some t /\ a_socket_fd t = published ph.
Proof.
  intros Hi Ha. assert (is_Some (m_tasks (mgr s) !! a)) as [t Ht] by (apply (ti_tasks _ _ _ _ Hi); eauto).
  exists t. split; [done |]. by eapply ti_published.
Qed.

Lemma inv_publishes s l q d a fd r m :
  transfers_inv s l q d -> threads s !! a = Some (Connected fd) -> task_publish_socket (mgr s) a fd = Ret (r, m) ->
  transfers_inv (set_mgr (set_thread s a (if r =? 0 then Transferring fd else Rejected fd)) m) l q d.
Proof.
  intros Hi Ha Hp. destruct (running_task _ _ _ _ _ _ Hi Ha) as (t & Ht & Hfd).
  pose proof (publish_spec (mgr s) a fd t Ht) as Hspec. destruct (a_canceled t) eqn:Ec.
  - rewrite Hspec in Hp. injection Hp as <- <-. by apply (inv_stay s l q d a (Connected fd)).
  - destruct Hspec as (m' & Hm & Hs & Hst & Hts). rewrite Hm in Hp. injection Hp as <- <-.
    apply (inv_move s l q d a (Connected fd) (Transferring fd) m' t (set_a_socket fd t) (sockets s)); try done.
    + intros fd'. by apply (keeps_sockets s l q d a).
    + intros fd' Ho. split; [by eapply ti_fds | by left].
    + intros fd' _. destruct (m_stopping (mgr s)) eqn:Est; [| done].
      rewrite (ti_canceled _ _ _ _ Hi a t) in Ec; [done | done | | done]. apply (ti_running _ _ _ _ Hi). eauto.
Qed.

Lemma inv_unpublishes s l q d a fd r fd' m :
  transfers_inv s l q d -> threads s !! a = Some (Transferred fd r) -> task_close_socket (mgr s) a = Ret (fd', m) ->
  fd' = fd /\ transfers_inv (set_mgr (set_thread s a (Closing fd r)) m) l q d.
Proof.
  intros Hi Ha Hp. destruct (running_task _ _ _ _ _ _ Hi Ha) as (t & Ht & Hfd).
  destruct (close_socket_spec (mgr s) a t Ht) as (m' & Hm & Hs & Hst & Hts). rewrite Hm, Hfd in Hp. injection Hp as <- <-.
  split; [done |].
  apply (inv_move s l q d a (Transferred fd r) (Closing fd r) m' t (set_a_socket (-1) t) (sockets s)); try done.
  - intros fd'. by apply (keeps_sockets s l q d a).
  - intros fd' Ho. split; [by eapply ti_fds | by left].
Qed.

Lemma inv_result s l q d a r m :
  transfers_inv s l q d -> threads s !! a = Some (Finishing r) -> finish_result (mgr s) a r = Ret m ->
  transfers_inv (set_mgr (set_thread s a Reporting) m) l q d.
Proof.
  intros Hi Ha Hp. destruct (running_task _ _ _ _ _ _ Hi Ha) as (t & Ht & Hfd).
  assert (Hin : a ∈ l) by (apply (ti_running _ _ _ _ Hi); eauto).
  destruct (finish_result_spec _ _ _ _ _ a r (ti_managed _ _ _ _ Hi) Hin) as (m' & Hm & Hs & Hts & Hst).
  rewrite Hm in Hp. injection Hp as <-.
  apply (inv_move s l q d a (Finishing r) Reporting m' t t (sockets s)); try done.
  - by rewrite Hts, insert_id.
  - intros fd'. by apply (keeps_sockets s l q d a).
Qed.

Lemma inv_finishes s l q d a broadcast m :
  transfers_inv s l q d -> threads s !! a = Some Reporting -> finish_section (mgr s) a = Ret (broadcast, m) ->
  exists l' e, transfers_inv (set_main (set_mgr (set_thread s a Freeing) m) (woken broadcast (main s))) l' (q ++ [e]) d.
Proof.
  intros Hi Ha Hp. destruct (running_task _ _ _ _ _ _ Hi Ha) as (t & Ht & Hfd).
  assert (Hin : a ∈ l) by (apply (ti_running _ _ _ _ Hi); eauto).
  pose proof (chain_NoDup _ _ _ (mg_active _ _ _ _ _ (ti_managed _ _ _ _ Hi))) as Hnd.
  apply list_elem_of_split in Hin as (l1 & l2 & ->).
  destruct (finish_section_spec _ _ _ _ _ _ _ _ (ti_managed _ _ _ _ Hi) Ht) as (m' & Hm & Hman & Hts & Hlab & Hst).
  rewrite Hm in Hp. injection Hp as <- <-. exists (l1 ++ l2), (a_event t).
  assert (Hwoken : forall {X} (g : main_state -> X), g MWaiting = g MAsleep -> g (woken (bool_decide (l1 ++ l2 = [])) (main s)) = g (main s)).
  { intros X g Hg. unfold woken. destruct (main s); try done. by destruct (bool_decide _). }
  assert (Hout : forall b, b ∈ l1 ++ l2 <-> b ∈ l1 ++ a :: l2 /\ b <> a).
  { apply NoDup_app in Hnd as (_ & H1 & H2). apply NoDup_cons in H2 as [H2 _]. intros b. rewrite !elem_of_app, elem_of_cons. split.
    - intros [Hb | Hb]; (split; [by auto |]); intros ->; [| done]. apply (H1 a Hb). by left.
    - naive_solver. }
  assert (Hlook : forall b t1, m_tasks m' !! b = Some t1 -> exists t2, m_tasks (mgr s) !! b = Some t2 /\
            a_canceled t1 = a_canceled t2 /\ a_socket_fd t1 = a_socket_fd t2).
  { intros b t1 Hb. specialize (Hts b). rewrite Hb in Hts. destruct (m_tasks (mgr s) !! b) as [t2 |]; [| done].
    exists t2. split; [done |]. apply (inj Some) in Hts. split; [exact (f_equal a_canceled Hts) | exact (f_equal a_socket_fd Hts)]. }
  destruct Hi as [I1 I2 I3 I4 I5 I6 I7 I8 I9 I10 I11 I12 I13 I14].
  split; cbn; rewrite ?(Hwoken _ taken_from), ?(Hwoken _ stopping_state), ?(Hwoken _ quiet_state), ?(Hwoken _ drained_state) by done; try done.
  - intros b. rewrite Hout, I2. destruct (decide (b = a)) as [-> |]; [rewrite lookup_insert_eq | rewrite lookup_insert_ne by done]; naive_solver.
  - intros b. transitivity (is_Some (threads s !! b)).
    + destruct (decide (b = a)) as [-> |]; [rewrite lookup_insert_eq, Ha; naive_solver | by rewrite lookup_insert_ne].
    + rewrite I3. specialize (Hts b). destruct (m_tasks m' !! b), (m_tasks (mgr s) !! b); naive_solver.
  - rewrite I4. f_equiv. rewrite Hlab. unfold labels. apply omap_Permutation.
    rewrite (omap_same (event_of m') (event_of (mgr s)) (l1 ++ l2)) by (intros b _; by apply nextless_event_of).
    rewrite !omap_app. cbn. replace (event_of (mgr s) a) with (Some (a_event t)) by (unfold event_of; by rewrite Ht).
    symmetry. apply events_moved.
  - intros b ph1 t1 Hb Ht1. destruct (Hlook _ _ Ht1) as (t2 & Ht2 & _ & ->). destruct (decide (b = a)) as [-> |].
    + rewrite lookup_insert_eq in Hb. injection Hb as <-. rewrite Ht in Ht2. by injection Ht2 as <-.
    + rewrite lookup_insert_ne in Hb by done. by apply (I5 b).
  - intros fd. rewrite I6. split; intros (b & ph1 & Hb & Ho); exists b, ph1.
    + rewrite lookup_insert_ne; [done |]. intros <-. rewrite Ha in Hb. by injection Hb as <-.
    + rewrite lookup_insert_Some in Hb. destruct Hb as [[<- <-] | [_ Hb]]; [done | done].
  - intros b c ph1 ph2 fd Hb Hc Ho1 Ho2. rewrite lookup_insert_Some in Hb, Hc.
    destruct Hb as [[<- <-] | [_ Hb]], Hc as [[<- <-] | [_ Hc]]; try done. by apply (I7 b c ph1 ph2 fd).
  - intros b ph1 fd Hb Ho. rewrite lookup_insert_Some in Hb. destruct Hb as [[<- <-] | [_ Hb]]; [done | by apply (I8 b ph1)].
  - intros b t1 Hstop Hb Ht1. destruct (Hlook _ _ Ht1) as (t2 & Ht2 & -> & _). rewrite Hst in Hstop. apply (I9 b); [done | | done].
    by apply Hout.
  - by rewrite Hst.
  - intros Hq. specialize (I11 Hq). by destruct l1.
  - intros Hq. assert (Hl : l1 ++ a :: l2 = []) by (apply I11; by destruct (main s) as [| [] | | | | |]). by destruct l1.
  - intros b fd Hstop Hb. rewrite Hst in Hstop. rewrite lookup_insert_Some in Hb. destruct Hb as [[_ ?] | [_ Hb]]; [done | by apply (I13 b)].
  - unfold woken. destruct (main s); try done. by destruct (bool_decide_reflect (l1 ++ l2 = [])).
Qed.

Lemma inv_frees s l q d a m :
  transfers_inv s l q d -> threads s !! a = Some Freeing -> finish_free (mgr s) a = Ret m ->
  transfers_inv {| mgr := m; threads := delete a (threads s); sockets := sockets s; shut := shut s; main := main s;
                   accepted := accepted s; reported := reported s |} l q d.
Proof.
  intros Hi Ha Hp. destruct (running_task _ _ _ _ _ _ Hi Ha) as (t & Ht & Hfd).
  assert (Hin : a ∉ l).
  { intros Hin. apply (ti_running _ _ _ _ Hi) in Hin as (ph & Hph & Hne). congruence. }
  destruct (finish_free_spec _ _ _ _ _ _ _ (ti_managed _ _ _ _ Hi) Hin Ht) as [Hf Hman]. rewrite Hf in Hp. injection Hp as <-.
  destruct Hi as [I1 I2 I3 I4 I5 I6 I7 I8 I9 I10 I11 I12 I13 I14]. split; cbn; try done.
  - intros b. rewrite I2. split; intros (ph & Hb & Hne); exists ph; rewrite lookup_delete_Some in *; naive_solver.
  - intros b. rewrite !lookup_delete_is_Some, I3. done.
  - rewrite I4. f_equiv. unfold labels. apply omap_Permutation. do 2 f_equiv. apply Permutation_refl', omap_same.
    intros b Hb. unfold event_of. cbn. rewrite lookup_delete_ne; [done |]. by intros <-.
  - intros b ph1 t1. rewrite !lookup_delete_Some. intros [_ Hb] [_ Ht1]. by apply (I5 b).
  - intros fd. rewrite I6. split; intros (b & ph1 & Hb & Ho); exists b, ph1; rewrite lookup_delete_Some in *; [| naive_solver].
    split; [| done]. split; [| done]. intros <-. rewrite Ha in Hb. by injection Hb as <-.
  - intros b c ph1 ph2 fd. rewrite !lookup_delete_Some. intros [_ Hb] [_ Hc]. by apply (I7 b c ph1 ph2 fd).
  - intros b ph1 fd. rewrite lookup_delete_Some. intros [_ Hb]. by apply (I8 b ph1).
  - intros b t1 Hstop Hb. rewrite lookup_delete_Some. intros [_ Ht1]. by apply (I9 b).
  - intros b fd Hstop. rewrite lookup_delete_Some. intros [_ Hb]. by apply (I13 b).
Qed.

Section inductive_steps.
Context `{Host} `{Sha256} (malloc_ok : Z -> bool).

Lemma thread_step_inv s l q d a s' :
  transfers_inv s l q d -> thread_step malloc_ok a s s' -> exists l' q', transfers_inv s' l' q' d.
Proof.
  intros Hi Hstep.
  destruct Hstep as [Ha | fd Ha Hpos Hnew | fd m Ha Hp | fd m Ha Hp | fd Ha | fd t r cs cs' Ha _ _ _ _ | fd r fd' m Ha Hp
                    | fd r Ha | r m Ha Hp | broadcast m Ha Hp | m Ha Hp].
  - exists l, q. by apply (inv_stay s l q d a Connecting).
  - exists l, q. apply (inv_walk s l q d a Connecting (Connected fd)); try done; cbn.
    + intros fd'. rewrite elem_of_union, elem_of_singleton. naive_solver.
    + intros fd' [= <-]. auto.
  - exists l, q. by apply (inv_publishes s l q d a fd 0 m).
  - exists l, q. by apply (inv_publishes s l q d a fd (-1) m).
  - exists l, q. apply (inv_walk s l q d a (Rejected fd) (Finishing (-1))); try done; cbn.
    intros fd'. rewrite elem_of_difference, elem_of_singleton. naive_solver.
  - exists l, q. by apply (inv_stay s l q d a (Transferring fd)).
  - exists l, q. destruct (inv_unpublishes _ _ _ _ _ _ _ _ _ Hi Ha Hp) as [-> Hi']. done.
  - exists l, q. apply (inv_walk s l q d a (Closing fd r) (Finishing r)); try done; cbn.
    assert (Hpos : 0 <= fd) by (by eapply ti_fds). destruct (Z.leb_spec 0 fd); [| lia].
    intros fd'. rewrite elem_of_difference, elem_of_singleton. naive_solver.
  - exists l, q. by apply (inv_result s l q d a r m).
  - destruct (inv_finishes _ _ _ _ _ _ _ Hi Ha Hp) as (l' & e & Hi'). eauto.
  - exists l, q. by apply inv_frees.
Qed.

(** ** Steps of the main thread *)

Lemma snapshot_filled rt t0 t : snapshot_task rt t0 = Some t -> filled t0 t.
Proof.
  unfold snapshot_task. destruct (client_runtime_session_snapshot _ _ _) as [[[sid u] cwd] |]; [| done].
  repeat case_match; try done. by intros [= <-].
Qed.

Lemma normalize_returns cwd arg : exists o, normalize_cd_path cwd arg PATH_MAX = Ret o.
Proof. rewrite normalize_cd_path_text by (unfold PATH_MAX; lia). eauto. Qed.

Lemma prepare_upload_fills home rt path : fills (prepare_upload home rt path).
Proof.
  intros t0. unfold prepare_upload. destruct (snapshot_task rt t0) as [t1 |] eqn:Es; [| by eexists].
  destruct (utils_expand_local_path _ _ _); [| by eexists]. destruct (utils_get_base_name _ _); [| by eexists].
  match goal with |- context [normalize_cd_path ?x ?y PATH_MAX] => destruct (normalize_returns x y) as [[remote |] ->] end;
    cbn [mbind outcome_bind]; [| by eexists]. eexists. split; [done |]. intros t p. cbn. destruct (copy_string _ _); [| done]. intros [= <- <-].
  apply snapshot_filled in Es as []. by split.
Qed.

Lemma prepare_download_fills rt path : fills (prepare_download rt path).
Proof.
  intros t0. unfold prepare_download. destruct (snapshot_task rt t0) as [t1 |] eqn:Es; [| by eexists].
  destruct (copy_string _ _); [| by eexists].
  match goal with |- context [normalize_cd_path ?x ?y PATH_MAX] => destruct (normalize_returns x y) as [[remote |] ->] end;
    cbn [mbind outcome_bind]; [| by eexists]. destruct (utils_get_base_name _ _); [| by eexists]. destruct (join_path _ _ _); [| by eexists].
  destruct (_ <? _); [by eexists |]. eexists. split; [done |]. intros t p. cbn. destruct (copy_string PATH_MAX _); [| done].
  intros [= <- <-]. apply snapshot_filled in Es as []. by split.
Qed.

Lemma submission_spec m l q p d rt home alloc spawned kind path :
  managed m l q p d -> fresh_alloc m alloc ->
  exists r m', submission m rt home alloc spawned kind path = Ret (r, m') /\ submitted m l kind r m'.
Proof.
  intros Hm Hf. destruct kind; cbn [submission]; unfold transfer_submit_upload, transfer_submit_download.
  - destruct path as [| b path]; [by eexists _, _; split; [done | left] |].
    eapply submit_task_spec; [done | done | apply prepare_upload_fills].
  - destruct path as [| b path]; [by eexists _, _; split; [done | left] |].
    eapply submit_task_spec; [done | done | apply prepare_download_fills].
Qed.

(** A new task *)
Lemma inv_submits s l q d kind m :
  transfers_inv s l q d -> main s = MIdle -> submitted (mgr s) l kind 0 m ->
  exists a lab, newest m = Some (a, lab) /\ lab.1 = kind /\
    transfers_inv {| mgr := m; threads := <[a := Connecting]> (threads s); sockets := sockets s; shut := shut s; main := MIdle;
                     accepted := accepted s ++ [lab]; reported := reported s |} (a :: l) q d.
Proof.
  intros Hi Hmain [[? _] | (_ & a & e & t & path & -> & Ha & He & Hta & Hte & Hnx & Hev & Hk & Hc & Hs & Hadm)]; [done |].
  set (v := {| e_kind := kind |}). exists a, (kind, path).
  assert (Hth : threads s !! a = None).
  { apply eq_None_not_Some. rewrite (ti_tasks _ _ _ _ Hi), Hta. apply is_Some_None. }
  destruct (pushed_managed (mgr s) l q _ d a e t v (ti_managed _ _ _ _ Hi) Ha He Hta Hte Hnx Hev Hadm) as [Hman Hlab].
  split; [| split; [done |]].
  { unfold newest. cbn. rewrite lookup_insert_eq. cbn. rewrite Hev, lookup_insert_eq. done. }
  pose proof (mg_memory _ _ _ _ _ (ti_managed _ _ _ _ Hi)) as Hmem.
  destruct Hi as [I1 I2 I3 I4 I5 I6 I7 I8 I9 I10 I11 I12 I13 I14]. split; cbn; try done.
  - rewrite Hmain in Hman. exact Hman.
  - intros b. rewrite elem_of_cons, I2. destruct (decide (b = a)) as [-> |].
    + rewrite lookup_insert_eq. split; [by eexists | by left].
    + rewrite lookup_insert_ne by done. naive_solver.
  - intros b. destruct (decide (b = a)) as [-> |]; [by rewrite !lookup_insert_eq | by rewrite !lookup_insert_ne].
  - rewrite I4, <- app_assoc. f_equiv. unfold event_of at 2. cbn. rewrite lookup_insert_eq. cbn. rewrite Hev.
    assert (Hes : omap (event_of (pushed (mgr s) a e t v)) l = omap (event_of (mgr s)) l).
    { apply omap_same. intros b Hb. unfold event_of. cbn. rewrite lookup_insert_ne; [done |]. intros <-.
      apply I2 in Hb as (ph & Hph & _). congruence. }
    change (list_omap _ _ (event_of (pushed (mgr s) a e t v)) l) with (omap (event_of (pushed (mgr s) a e t v)) l). rewrite Hes.
    assert (Hperm : q ++ d ++ e :: omap (event_of (mgr s)) l ≡ₚ (q ++ d ++ omap (event_of (mgr s)) l) ++ [e]).
    { rewrite (Permutation_app_comm _ [e]), !(app_assoc q). symmetry. exact (Permutation_middle (q ++ d) _ e). }
    unfold labels at 2. rewrite Hperm, omap_app. f_equiv.
    + rewrite <- (Hlab (q ++ d ++ omap (event_of (mgr s)) l)); [done |]. intros x Hx ->. apply Hmem in Hx. rewrite Hte in Hx. by destruct Hx.
    + cbn. unfold label_at. cbn. by rewrite lookup_insert_eq.
  - intros b ph1 t1. destruct (decide (b = a)) as [-> |].
    + rewrite !lookup_insert_eq. by intros [= <-] [= <-].
    + rewrite !lookup_insert_ne by done. apply I5.
  - intros fd. rewrite I6. split; intros (b & ph1 & Hb & Ho); exists b, ph1.
    + rewrite lookup_insert_ne; [done |]. intros <-. congruence.
    + rewrite lookup_insert_Some in Hb. by destruct Hb as [[<- <-] | [_ Hb]].
  - intros b c ph1 ph2 fd Hb Hc' Ho1 Ho2. rewrite lookup_insert_Some in Hb, Hc'.
    destruct Hb as [[<- <-] | [_ Hb]], Hc' as [[<- <-] | [_ Hc']]; try done. by apply (I7 b c ph1 ph2 fd).
  - intros b ph1 fd Hb Ho. rewrite lookup_insert_Some in Hb. destruct Hb as [[<- <-] | [_ Hb]]; [done | by apply (I8 b ph1)].
  - intros b t1 Hstop. destruct Hadm as [Hno _]. congruence.
  - rewrite I10, Hmain. done.
  - intros b fd Hstop. destruct Hadm as [Hno _]. congruence.
Qed.

(** Taking the events that wait *)
Lemma inv_drains s l q d (last : bool) p m :
  transfers_inv s l q d -> main s = (if last then MStopped else MIdle) -> drain_section (mgr s) = (p, m) ->
  exists l' q' d', transfers_inv (set_main (set_mgr s m) (MDraining last p)) l' q' d'.
Proof.
  intros Hi Hmain Hd. pose proof (ti_managed _ _ _ _ Hi) as Hman.
  assert (Htk : taken_from (main s) = NULL) by (rewrite Hmain; by destruct last). rewrite Htk in Hman.
  destruct (drain_section_spec _ _ _ _ Hman) as (-> & Hman' & Hts & Hes & Hst). rewrite Hd in *. cbn [fst snd] in *.
  exists l, [], q. destruct Hi as [I1 I2 I3 I4 I5 I6 I7 I8 I9 I10 I11 I12 I13 I14]. rewrite Hmain in I10, I11.
  split; cbn; rewrite ?Hts, ?Hst; try done.
  - rewrite I4. f_equiv. unfold event_of at 2. rewrite Hts.
    change (omap (fun a => a_event <$> m_tasks (mgr s) !! a) l) with (omap (event_of (mgr s)) l). cbn.
    change (omap (label_at m)) with (labels m). rewrite (labels_frame (mgr s) m) by (intros; by rewrite Hes). done.
  - rewrite I10. by destruct last.
  - intros Hl. apply I11. by destruct last.
Qed.

Lemma main_step_inv s l q d s' :
  transfers_inv s l q d -> main_step s s' -> exists l' q' d', transfers_inv s' l' q' d'.
Proof.
  intros Hi Hstep. pose proof (ti_managed _ _ _ _ Hi) as Hman.
  destruct Hstep as [rt home alloc spawned kind path m a lab Hmain Hf Hsub Hnew | rt home alloc spawned kind path r m Hmain Hf Hsub Hr
                    | p m Hmain Hd | last p out m Hmain Hd | fds m Hmain Hst | Hmain Hdone | Hmain Hdone | p m Hmain Hd | m Hmain Hd].
  - destruct (submission_spec _ _ _ _ _ rt home alloc spawned kind path Hman Hf) as (r & m' & Hs & Hsubm).
    rewrite Hs in Hsub. injection Hsub as -> ->. destruct (inv_submits _ _ _ _ _ _ Hi Hmain Hsubm) as (a' & lab' & Hn & _ & Hi').
    rewrite Hn in Hnew. injection Hnew as -> ->. eauto.
  - destruct (submission_spec _ _ _ _ _ rt home alloc spawned kind path Hman Hf) as (r' & m' & Hs & Hsubm).
    rewrite Hs in Hsub. injection Hsub as -> ->. destruct Hsubm as [[_ ->] | [-> _]]; [| done].
    exists l, q, d. by destruct Hi.
  - by apply (inv_drains s l q d false p m).
  - rewrite Hmain in Hman. destruct (drain_loop_spec d (size (m_events (mgr s))) _ _ _ _ Hman) as (out' & m' & Hl & Hman' & Hout & Hts & Hst & Hlab).
    { apply NoDup_length_dom.
      - pose proof (mg_events _ _ _ _ _ Hman) as Hnd. by apply NoDup_app in Hnd as (_ & _ & [Hnd _]%NoDup_app).
      - intros e He. apply (mg_memory _ _ _ _ _ Hman). rewrite !elem_of_app. auto. }
    cbn [taken_from] in Hl. rewrite Hl in Hd. injection Hd as <- <-. exists l, q, [].
    destruct Hi as [I1 I2 I3 I4 I5 I6 I7 I8 I9 I10 I11 I12 I13 I14]. rewrite Hmain in I10, I11, I12. split; cbn; rewrite ?Hts; try done.
    + by destruct last.
    + rewrite I4, map_app, Hout, <- app_assoc. f_equiv. unfold event_of at 2. rewrite Hts.
      change (omap (fun a => a_event <$> m_tasks (mgr s) !! a) l) with (omap (event_of (mgr s)) l). rewrite Hlab. unfold labels.
      rewrite <- omap_app. apply omap_Permutation. rewrite !app_assoc. f_equiv. apply Permutation_app_comm.
    + rewrite Hst. apply I9.
    + by rewrite Hst, I10; destruct last.
    + intros Hx. apply I11. by destruct last.
    + intros Hx. apply I12. by destruct last.
    + rewrite Hst. apply I13.
    + by destruct last.
  - destruct (stop_section_spec _ _ _ _ _ Hman) as (fds' & m' & Hs & Hsh & Hstop & Hts & Hfds). rewrite Hs in Hst. injection Hst as <- <-.
    exists l, q, d. assert (Hlive : forall b t', m_tasks m' !! b = Some t' -> exists t, m_tasks (mgr s) !! b = Some t /\
      a_socket_fd t' = a_socket_fd t /\ (b ∈ l -> a_canceled t' = true)).
    { intros b t' Hb. rewrite Hts in Hb. destruct (m_tasks (mgr s) !! b) as [t |]; [| done]. exists t. split; [done |].
      injection Hb as <-. destruct (bool_decide_reflect (b ∈ l)); done. }
    destruct Hi as [I1 I2 I3 I4 I5 I6 I7 I8 I9 I10 I11 I12 I13 I14]. split; cbn; try done.
    + rewrite Hmain in Hman. by apply (same_managed (mgr s)).
    + intros b. rewrite I3, Hts. by rewrite fmap_is_Some.
    + rewrite (same_labels (mgr s)) by done. rewrite (omap_same (event_of m') (event_of (mgr s))); [done |].
      intros x _. by apply same_event_of.
    + intros b ph t' Hb Ht'. destruct (Hlive _ _ Ht') as (t & Ht & -> & _). by apply (I5 b).
    + intros b t' _ Hb Ht'. destruct (Hlive _ _ Ht') as (t & Ht & _ & Hc). by apply Hc.
    + intros b fd _ Hb. apply elem_of_app. right. apply Hfds. split; [by apply (I8 b (Transferring fd)) |].
      assert (is_Some (m_tasks (mgr s) !! b)) as [t Ht] by (apply I3; eauto). exists b, t. split; [apply I2; eauto |].
      split; [done |]. by apply (I5 b (Transferring fd) t).
  - exists l, q, d. unfold stop_done in Hdone. apply Z.eqb_neq in Hdone.
    destruct Hi as [I1 I2 I3 I4 I5 I6 I7 I8 I9 I10 I11 I12 I13 I14]. rewrite Hmain in I1, I10. split; cbn; try done.
    intros _ ->. by rewrite (mg_count _ _ _ _ _ I1) in Hdone.
  - exists l, q, d. unfold stop_done in Hdone. apply Z.eqb_eq in Hdone.
    destruct Hi as [I1 I2 I3 I4 I5 I6 I7 I8 I9 I10 I11 I12 I13 I14]. rewrite Hmain in I1, I10. split; cbn; try done.
    intros _. rewrite (mg_count _ _ _ _ _ I1) in Hdone. by destruct l.
  - by apply (inv_drains s l q d true p m).
  - exists l, q, d. pose proof (ti_drained _ _ _ _ Hi) as Hq. rewrite Hmain in Hq, Hman. rewrite (Hq eq_refl) in *. cbn in Hman.
    assert (m = mgr s) as ->.
    { unfold transfer_manager_destroy in Hd. pose proof (mg_queue _ _ _ _ _ Hman) as Hh. cbn in Hh. rewrite Hh in Hd.
      destruct (size _) in Hd; cbn in Hd; by injection Hd as <-. }
    destruct Hi as [I1 I2 I3 I4 I5 I6 I7 I8 I9 I10 I11 I12 I13 I14]. rewrite Hmain in I10, I11. split; cbn; try done.
Qed.

Lemma initial_inv m max : 0 <= max < u64_mod -> transfer_manager_create max true = Some m -> transfers_inv (transfers_initial m) [] [] [].
Proof.
  intros Hmax. unfold transfer_manager_create. destruct (max =? 0); [done |]. intros [= <-]. split; cbn; try done.
  - split; cbn; try done; try by constructor.
    intros e. rewrite lookup_empty. split; [intros [? ?]; done | by intros ?%elem_of_nil].
  - intros a. rewrite lookup_empty. split; [by intros ?%elem_of_nil | by intros (ph & ? & _)].
  - intros a. rewrite !lookup_empty. split; by intros [? ?].
  - intros fd. change (fd ∈ (∅ : gset Z) <-> exists a ph, (∅ : gmap addr phase) !! a = Some ph /\ owns ph = Some fd).
    split; [by intros ?%elem_of_empty | by intros (a & ph & ? & _)].
Qed.

Lemma transfers_step_inv s l q d s' :
  transfers_inv s l q d -> transfers_step malloc_ok s s' -> exists l' q' d', transfers_inv s' l' q' d'.
Proof.
  intros Hi [s1 Hstep | a s1 Hstep | Hmain]; [by eapply main_step_inv | |].
  - destruct (thread_step_inv _ _ _ _ _ _ Hi Hstep) as (l' & q' & Hi'). eauto.
  - exists l, q, d. destruct Hi as [I1 I2 I3 I4 I5 I6 I7 I8 I9 I10 I11 I12 I13 I14]. rewrite Hmain in I1, I10. by split.
Qed.

Lemma reachable_inv s : transfers_reachable malloc_ok s -> exists l q d, transfers_inv s l q d.
Proof.
  intros (max & m & Hmax & Hm & Hsteps). pose proof (initial_inv _ _ Hmax Hm) as Hi.
  assert (Hgen : forall s0 s1, rtc (transfers_step malloc_ok) s0 s1 -> forall l q d, transfers_inv s0 l q d ->
            exists l q d, transfers_inv s1 l q d).
  { clear. intros s0 s1 Hs. induction Hs as [s0 | s0 s1 s2 Hstep _ IH]; intros l q d Hi; [eauto |].
    destruct (transfers_step_inv _ _ _ _ _ Hi Hstep) as (l' & q' & d' & Hi'). eauto. }
  eauto.
Qed.

(** ** A canceled transfer returns *)

(** Once the flag is set a transfer touches its connection no more and fails. *)
Definition halts {X} (c : cm X) (Q : X -> Prop) : Prop :=
  forall s, cl_cancel s = Some O -> exists a s', c s = Ret (a, s') /\ cl_cancel s' = Some O /\ cl_sock s' = cl_sock s /\ Q a.

Lemma halts_ret {X} (a : X) (Q : X -> Prop) : Q a -> halts (mret a) Q.
Proof. intros HQ s Hs. by exists a, s. Qed.

Lemma halts_bind {X Y} (c : cm X) (f : X -> cm Y) (P : X -> Prop) (Q : Y -> Prop) :
  halts c P -> (forall a, P a -> halts (f a) Q) -> halts (c ≫= f) Q.
Proof.
  intros Hc Hf s Hs. destruct (Hc s Hs) as (a & s1 & Hret & Hs1 & Hk1 & HP). destruct (Hf a HP s1 Hs1) as (b & s2 & Hret2 & Hs2 & Hk2 & HQ).
  exists b, s2. unfold mbind, cm_bind. rewrite Hret. cbn. rewrite Hret2. split_and!; [done | done | congruence | done].
Qed.

Lemma halts_files {X} (m : fs -> X * fs) : halts (on_files m) (fun _ => True).
Proof. intros s Hs. unfold on_files. destruct (m (cl_fs s)) as [a f]. eexists _, _. by split_and!. Qed.

Lemma halts_canceled : halts task_is_canceled (fun c => c = true).
Proof. intros s Hs. unfold task_is_canceled. rewrite Hs. by exists true, s. Qed.

Lemma halts_send task ty st pl : halts (task_send task ty st pl) (fun r => r = -1).
Proof. eapply halts_bind; [apply halts_canceled |]. intros ? ->. by apply halts_ret. Qed.

Lemma halts_hash_loop fuel o acc : halts (hash_loop (S fuel) o acc) (fun r => r = None).
Proof. cbn [hash_loop]. eapply halts_bind; [apply halts_canceled |]. intros ? ->. by apply halts_ret. Qed.

Lemma halts_compute o : halts (task_compute_sha256 o) (fun r => r = None).
Proof.
  unfold task_compute_sha256. eapply halts_bind; [apply halts_files |]. intros [o' |] _; [| by apply halts_ret].
  eapply halts_bind; [apply halts_files |]. intros [] _; cbn [negb]; [| by apply halts_ret].
  eapply halts_bind; [apply halts_files |]. intros [] _; cbn [negb]; [| by apply halts_ret].
  apply (halts_bind _ _ (fun n => exists k, n = S k)); [intros s Hs; eexists _, s; split_and!; try done; [by destruct s | by eexists] |].
  intros ? [k ->]. eapply halts_bind; [apply halts_hash_loop |]. intros ? ->. by apply halts_ret.
Qed.

Lemma halts_run kind task : halts (run_transfer malloc_ok kind task) (fun r => r = -1).
Proof.
  destruct kind; cbn [run_transfer].
  - unfold run_upload. eapply halts_bind; [apply halts_files |]. intros [o |] _; [| by apply halts_ret].
    eapply halts_bind; [apply halts_files |]. intros size _. apply (halts_bind _ _ (fun r => r = -1)).
    + destruct size as [n |]; [| by apply halts_ret]. destruct (copy_string _ _) as [path |]; [| by apply halts_ret].
      eapply halts_bind; [apply halts_compute |]. intros ? ->. by apply halts_ret.
    + intros ? ->. eapply halts_bind; [apply halts_files |]. intros _ _. by apply halts_ret.
  - unfold run_download. eapply halts_bind; [apply halts_send |]. intros ? ->. by apply halts_ret.
Qed.

(** ** Nothing is undefined *)

(** Every thread has a step; that of a thread in its transfer is the return of the
    transfer, which a shutdown brings about. *)
Lemma thread_progress s l q d a ph :
  transfers_inv s l q d -> threads s !! a = Some ph -> exists s', thread_step malloc_ok a s s'.
Proof.
  intros Hi Ha. destruct (running_task _ _ _ _ _ _ Hi Ha) as (t & Ht & Hfd).
  assert (Hin : ph <> Freeing -> a ∈ l) by (intros; apply (ti_running _ _ _ _ Hi); eauto).
  destruct ph as [| fd | fd | fd | fd r | fd r | r | |].
  - eexists. by apply step_connect_fails.
  - pose proof (publish_spec _ _ fd _ Ht) as Hp. destruct (a_canceled t).
    + eexists. by eapply step_is_rejected.
    + destruct Hp as (m & Hp & _). eexists. by eapply step_publishes.
  - eexists. by eapply step_drops.
  - destruct (run_transfer_returns malloc_ok (a_body t) (a_kind t)
      {| cl_sock := {| sent := []; send_script := [SendError]; recv_script := [RecvBytes []]; buffers := 0 |};
         cl_fs := {| dir := ∅; data := ∅; opened := 0; io := [] |}; cl_cancel := None |}) as (r & cs' & Hret).
    { split; [by exists [] | by left]. }
    eexists. eapply step_transfers; [exact Ha | exact Ht | | | exact Hret]; [done |]. intros _. split; [by exists [] | by left].
  - destruct (close_socket_spec _ _ _ Ht) as (m & Hc & _). eexists. by eapply step_unpublishes.
  - eexists. by eapply step_closes.
  - destruct (finish_result_spec _ _ _ _ _ a r (ti_managed _ _ _ _ Hi)) as (m & Hm & _); [by apply Hin |].
    eexists. by eapply step_result.
  - destruct (list_elem_of_split l a) as (l1 & l2 & ->); [by apply Hin |].
    destruct (finish_section_spec _ _ _ _ _ _ _ _ (ti_managed _ _ _ _ Hi) Ht) as (m & Hm & _). eexists. by eapply step_finishes.
  - unfold finish_free. eexists. eapply step_frees; [done |]. unfold finish_free. by rewrite Ht.
Qed.

Lemma main_progress s l q d : transfers_inv s l q d ->
  match main s with MIdle | MGone | MAsleep => True | _ => exists s', main_step s s' end.
Proof.
  intros Hi. pose proof (ti_managed _ _ _ _ Hi) as Hman. destruct (main s) as [| last p | | | | |] eqn:Hmain; try done.
  - destruct (drain_loop_spec d (size (m_events (mgr s))) _ _ _ _ Hman) as (out & m & Hl & _).
    { apply NoDup_length_dom.
      - pose proof (mg_events _ _ _ _ _ Hman) as Hnd. by apply NoDup_app in Hnd as (_ & _ & [Hnd _]%NoDup_app).
      - intros e He. apply (mg_memory _ _ _ _ _ Hman). rewrite !elem_of_app. auto. }
    eexists. by eapply step_shows.
  - destruct (stop_done (mgr s)) eqn:Hd; eexists; [by apply step_stopped | by apply step_sleeps].
  - eexists. by eapply step_drains_last.
  - eexists. eapply step_destroys; [done |]. unfold transfer_manager_destroy.
    pose proof (ti_drained _ _ _ _ Hi) as Hq. rewrite Hmain in Hq. rewrite (Hq eq_refl) in Hman.
    pose proof (mg_queue _ _ _ _ _ Hman) as Hh. cbn in Hh. rewrite Hh. by destruct (size _).
Qed.

(** ** Stopping ends *)

Definition rank (ph : phase) : nat :=
  match ph with
  | Connecting => 10 | Connected _ => 9 | Rejected _ | Transferring _ => 8 | Transferred _ _ => 7 | Closing _ _ => 6
  | Finishing _ => 5 | Reporting => 4 | Freeing => 2
  end.
Definition main_rank (x : main_state) : nat :=
  match x with MWaiting => 6 | MAsleep => 5 | MStopped => 4 | MDraining _ _ => 3 | MDrained => 2 | _ => 1 end.
Definition weight (th : gmap addr phase) : nat := map_fold (fun _ ph n => rank ph + n)%nat O th.
Definition work_left (s : transfers) : nat := (weight (threads s) + main_rank (main s))%nat.

Lemma weight_move th a ph ph' : th !! a = Some ph -> (rank ph' <= rank ph)%nat ->
  (weight (<[a := ph']> th) + (rank ph - rank ph') = weight th)%nat.
Proof.
  intros Ha Hr. unfold weight. rewrite (map_fold_delete_L _ _ a ph th); [| intros; lia | done].
  rewrite <- (insert_delete_eq th a ph'), map_fold_insert_L; [lia | intros; lia | apply lookup_delete_eq].
Qed.

Lemma weight_delete th a ph : th !! a = Some ph -> (weight (delete a th) < weight th)%nat.
Proof. intros Ha. unfold weight. rewrite (map_fold_delete_L _ _ a ph th); [| intros; lia | done]. destruct ph; cbn; lia. Qed.

Lemma thread_step_work a s s' : thread_step malloc_ok a s s' ->
  (work_left s' < work_left s)%nat /\ stopping_state (main s') = stopping_state (main s).
Proof.
  unfold work_left. destruct 1; cbn [threads main set_thread set_mgr set_sockets set_main]; (split; [| try done]);
    try (match goal with Ha : threads s !! a = Some ?ph |- context [<[a := ?ph']> _] =>
           pose proof (weight_move (threads s) a ph ph' Ha ltac:(cbn; lia)) end; cbn [rank] in *; lia).
  - match goal with Ha : threads s !! a = Some _ |- _ => pose proof (weight_move (threads s) a _ Freeing Ha ltac:(cbn; lia)) end.
    cbn [rank] in *. unfold woken. destruct (main s); cbn [main_rank]; try lia. destruct broadcast; cbn; lia.
  - unfold woken. destruct (main s); try done. by destruct broadcast.
  - pose proof (weight_delete (threads s) a Freeing ltac:(done)); lia.
Qed.

Lemma main_step_work s s' : main_step s s' -> stopping_state (main s) = true ->
  (work_left s' < work_left s)%nat /\ stopping_state (main s') = true.
Proof.
  unfold work_left.
  destruct 1 as [? ? ? ? ? ? ? ? ? Hm | ? ? ? ? ? ? ? ? Hm | ? ? Hm | last ? ? ? Hm | ? ? Hm | Hm | Hm | ? ? Hm | ? Hm];
    rewrite Hm; cbn; try done; intros Hst; try (split; [lia | done]).
  destruct last; [| done]. cbn. split; [lia | done].
Qed.

(** What the client does, spurious wake-ups apart *)
Definition proceeds (s s' : transfers) : Prop := main_step s s' \/ exists a, thread_step malloc_ok a s s'.

Lemma stopping_acc n : forall s, (work_left s < n)%nat -> stopping_state (main s) = true ->
  Acc (fun s2 s1 => proceeds s1 s2) s.
Proof.
  induction n as [| n IH]; intros s Hn Hst; [lia |]. constructor. intros s' [Hstep | [a Hstep]].
  - destruct (main_step_work _ _ Hstep Hst). apply IH; [lia | done].
  - destruct (thread_step_work _ _ _ Hstep) as [? Hm]. apply IH; [lia | by rewrite Hm].
Qed.

Lemma stopping_steps s s' : rtc (transfers_step malloc_ok) s s' -> stopping_state (main s) = true -> stopping_state (main s') = true.
Proof.
  induction 1 as [| s s1 s' Hstep _ IH]; [done |]. intros Hst. apply IH. destruct Hstep as [s1 Hstep | a s1 Hstep | Hmain]; [| | done].
  - by apply (main_step_work _ _ Hstep).
  - by rewrite (proj2 (thread_step_work _ _ _ Hstep)).
Qed.

(** A client that has begun to stop and can do nothing more has ended. *)
Lemma stopped_ends s : transfers_reachable malloc_ok s -> stopping_state (main s) = true -> (forall s', ~ proceeds s s') ->
  main s = MGone /\ threads s = ∅.
Proof.
  intros (l & q & d & Hi)%reachable_inv Hst Hstuck.
  assert (Hnone : forall a, threads s !! a = None).
  { intros a. apply eq_None_not_Some. intros [ph Ha]. destruct (thread_progress _ _ _ _ _ _ Hi Ha) as [s' Hs']. apply (Hstuck s'). right. eauto. }
  assert (Hl : l = []) by (destruct l as [| a l]; [done |]; destruct (proj1 (ti_running _ _ _ _ Hi a)) as (ph & Ha & _); [by left | congruence]).
  split; [| by apply map_empty]. pose proof (main_progress _ _ _ _ Hi) as Hp. pose proof (ti_asleep _ _ _ _ Hi) as Has.
  destruct (main s); try done; try (destruct Hp as [s' Hs']; destruct (Hstuck s'); by left). by destruct Has.
Qed.

(** ** Results *)

Lemma labels_length m l q p d : managed m l q p d ->
  length (labels m (q ++ d ++ omap (event_of m) l)) = size (m_events m).
Proof.
  intros Hm. pose proof (mg_memory _ _ _ _ _ Hm) as Hmem. set (es := q ++ d ++ omap (event_of m) l) in *.
  assert (Hall : forall xs, (forall x, x ∈ xs -> x ∈ es) -> length (labels m xs) = length xs).
  { induction xs as [| x xs IH]; intros Hxs; [done |]. unfold labels in *. cbn. unfold label_at at 1.
    assert (is_Some (m_events m !! x)) as [v ->] by (apply Hmem, Hxs; by left). cbn. f_equal. apply IH. intros y Hy. apply Hxs. by right. }
  rewrite Hall by done. rewrite <- size_dom, <- (size_list_to_set (C := gset addr) es) by apply Hm. f_equal. apply set_eq.
  intros x. rewrite elem_of_list_to_set, elem_of_dom. symmetry. apply Hmem.
Qed.

(** The threads of transfers neither allocate nor free events. *)
Lemma thread_step_events s l q d a s' :
  transfers_inv s l q d -> thread_step malloc_ok a s s' -> size (m_events (mgr s')) = size (m_events (mgr s)).
Proof.
  intros Hi Hstep. destruct (thread_step_inv _ _ _ _ _ _ Hi Hstep) as (l' & q' & Hi').
  assert (Hsame : accepted s' = accepted s /\ reported s' = reported s) by (by destruct Hstep). destruct Hsame as [Hacc Hrep].
  pose proof (Permutation_length (ti_labels _ _ _ _ Hi)) as H1. pose proof (Permutation_length (ti_labels _ _ _ _ Hi')) as H2.
  rewrite length_app, length_map, (labels_length _ _ _ _ _ (ti_managed _ _ _ _ Hi)) in H1.
  rewrite length_app, length_map, (labels_length _ _ _ _ _ (ti_managed _ _ _ _ Hi')) in H2. rewrite Hacc, Hrep in H2. lia.
Qed.

(** (C31) Limits: in every reachable state the manager counts exactly the tasks whose
    threads run, never more than [max_concurrent]; no two of them download to the
    same target; every open socket belongs to exactly one thread, and a task shows
    the manager exactly the socket its thread transfers on. *)
Theorem transfer_limits s :
  transfers_reachable malloc_ok s ->
  exists running, NoDup running /\ (forall a, a ∈ running <-> exists ph, threads s !! a = Some ph /\ ph <> Freeing) /\
    m_active_count (mgr s) = Z.of_nat (length running) /\ m_active_count (mgr s) <= m_max_concurrent (mgr s) /\
    NoDup (omap (target_at (mgr s)) running) /\
    (forall fd, fd ∈ sockets s <-> exists a ph, threads s !! a = Some ph /\ owns ph = Some fd) /\
    (forall a b ph ph' fd, threads s !! a = Some ph -> threads s !! b = Some ph' ->
       owns ph = Some fd -> owns ph' = Some fd -> a = b) /\
    (forall a ph t, threads s !! a = Some ph -> m_tasks (mgr s) !! a = Some t -> a_socket_fd t = published ph).
Proof.
  intros (l & q & d & Hi)%reachable_inv. pose proof (ti_managed _ _ _ _ Hi) as Hm. exists l.
  split_and!; try apply Hi; try apply Hm; [by eapply chain_NoDup, Hm |]. rewrite (mg_count _ _ _ _ _ Hm). apply Hm.
Qed.

(** (C10) Exactly one report per transfer: in every reachable state the accepted
    submissions are those already shown together with one pending event each, and
    these are all the events in memory; once the manager is gone, everything that
    was accepted has been shown exactly once, no event and no socket is left, and a
    thread that still exists only frees its own task. *)
Theorem transfers_reported_once s :
  transfers_reachable malloc_ok s ->
  (exists pending, accepted s ≡ₚ map shown_label (reported s) ++ pending /\ length pending = size (m_events (mgr s))) /\
  (main s = MGone -> accepted s ≡ₚ map shown_label (reported s) /\ m_events (mgr s) = ∅ /\ sockets s = ∅ /\
     forall a ph, threads s !! a = Some ph -> ph = Freeing).
Proof.
  intros (l & q & d & Hi)%reachable_inv. pose proof (ti_managed _ _ _ _ Hi) as Hm. split.
  - eexists. split; [apply Hi | by eapply labels_length].
  - intros Hgone. pose proof (ti_quiet _ _ _ _ Hi) as Hl. pose proof (ti_drained _ _ _ _ Hi) as Hq.
    pose proof (ti_running _ _ _ _ Hi) as Hrun. pose proof (ti_labels _ _ _ _ Hi) as Hlab. pose proof (ti_sockets _ _ _ _ Hi) as Hsock.
    rewrite Hgone in Hl, Hq, Hm. rewrite (Hl eq_refl), (Hq eq_refl) in *. cbn in Hm.
    pose proof (mg_taken _ _ _ _ _ Hm) as Hd. apply chain_null_nil in Hd as ->.
    assert (Hfree : forall a ph, threads s !! a = Some ph -> ph = Freeing).
    { intros a ph Ha. destruct (decide (ph = Freeing)); [done |]. exfalso. apply (not_elem_of_nil a), Hrun. eauto. }
    split_and!; [by rewrite Hlab, app_nil_r | | | done].
    + apply map_empty. intros e. apply eq_None_not_Some. rewrite (mg_memory _ _ _ _ _ Hm). apply not_elem_of_nil.
    + apply set_eq. intros fd. rewrite Hsock. split; [| by intros ?%elem_of_empty].
      intros (a & ph & Ha & Ho). by rewrite (Hfree _ _ Ha) in Ho.
Qed.

(** (C32) Nothing is undefined: in every reachable state each thread outside its
    transfer can go on, so the sections it enters are defined; a submission is
    defined and, when it is refused, leaves the manager as it was; stopping is
    defined and shuts down only sockets that are still open; and the main thread
    is never stuck unless it sleeps in its wait. *)
Theorem transfers_defined s :
  transfers_reachable malloc_ok s ->
  (forall a ph, threads s !! a = Some ph -> (forall fd, ph <> Transferring fd) -> exists s', thread_step malloc_ok a s s') /\
  (forall rt home alloc spawned kind path, fresh_alloc (mgr s) alloc ->
     exists r m, submission (mgr s) rt home alloc spawned kind path = Ret (r, m) /\ (r = 0 \/ r = -1 /\ m = mgr s)) /\
  (exists fds m, stop_section (mgr s) = Ret (fds, m) /\ forall fd, fd ∈ fds -> fd ∈ sockets s) /\
  (main s <> MIdle -> main s <> MAsleep -> main s <> MGone -> exists s', main_step s s').
Proof.
  intros (l & q & d & Hi)%reachable_inv. pose proof (ti_managed _ _ _ _ Hi) as Hm. split_and!.
  - intros a ph Ha _. by eapply thread_progress.
  - intros rt home alloc spawned kind path Hf.
    destruct (submission_spec _ _ _ _ _ rt home alloc spawned kind path Hm Hf) as (r & m & Hs & [[-> ->] | [-> _]]); eauto 6.
  - destruct (stop_section_spec _ _ _ _ _ Hm) as (fds & m & Hs & _ & _ & _ & Hfds). exists fds, m. split; [done |].
    intros fd (Hpos & b & t & Hb & Ht & Hfd)%Hfds. apply (ti_running _ _ _ _ Hi) in Hb as (ph & Hb & _).
    pose proof (ti_published _ _ _ _ Hi _ _ _ Hb Ht) as Hpub. apply (ti_sockets _ _ _ _ Hi). exists b, ph. split; [done |].
    destruct ph; cbn in *; congruence || lia.
  - intros H1 H2 H3. pose proof (main_progress _ _ _ _ Hi) as Hp. destruct (main s); done.
Qed.

(** (C11) Stopping ends.  While [transfer_manager_stop] waits: the main thread is
    asleep only if tasks are left, so the broadcast of the last one is not missed; a
    transfer that still runs is canceled and its socket has been shut down; it
    returns from whatever it does, once the shutdown takes effect on its
    connection, and a transfer that starts canceled fails without touching its
    connection; every thread can go on; every execution is finite but for spurious wake-ups; and the
    only states in which it can end are those where the main thread has destroyed the manager
    and no thread is left. *)
Theorem stop_terminates s :
  transfers_reachable malloc_ok s -> main s = MWaiting \/ main s = MAsleep ->
  (main s = MAsleep -> stop_done (mgr s) = false) /\
  (forall a fd t, threads s !! a = Some (Transferring fd) -> m_tasks (mgr s) !! a = Some t ->
     a_canceled t = true /\ fd ∈ shut s /\
     (forall cs, shut_down (cl_sock cs) -> exists r cs', run_transfer malloc_ok (a_kind t) (a_body t) cs = Ret (r, cs')) /\
     (forall cs, cl_cancel cs = Some O ->
        exists cs', run_transfer malloc_ok (a_kind t) (a_body t) cs = Ret (-1, cs') /\ cl_sock cs' = cl_sock cs)) /\
  (forall a ph, threads s !! a = Some ph -> exists s', thread_step malloc_ok a s s') /\
  Acc (fun s2 s1 => proceeds s1 s2) s /\
  (forall s', rtc (transfers_step malloc_ok) s s' -> (forall s'', ~ proceeds s' s'') -> main s' = MGone /\ threads s' = ∅).
Proof.
  intros Hreach Hwait. assert (Hst : stopping_state (main s) = true) by (by destruct Hwait as [-> | ->]).
  pose proof (reachable_inv _ Hreach) as (l & q & d & Hi). split_and!.
  - intros Hmain. unfold stop_done. rewrite (mg_count _ _ _ _ _ (ti_managed _ _ _ _ Hi)). destruct l; [| done].
    by destruct (ti_asleep _ _ _ _ Hi).
  - intros a fd t Ha Ht. assert (Hstop : m_stopping (mgr s) = true) by (by rewrite (ti_stopping _ _ _ _ Hi)). split_and!.
    + apply (ti_canceled _ _ _ _ Hi a t); [done | | done]. apply (ti_running _ _ _ _ Hi). eauto.
    + by apply (ti_shut _ _ _ _ Hi a fd).
    + intros cs. apply run_transfer_returns.
    + intros cs Hc. destruct (halts_run (a_kind t) (a_body t) cs Hc) as (r & cs' & Hret & _ & Hk & ->). eauto.
  - intros a ph Ha. by eapply thread_progress.
  - by eapply stopping_acc; [apply Nat.lt_succ_diag_r |].
  - intros s' Hsteps. apply stopped_ends; [| by eapply stopping_steps].
    destruct Hreach as (max & m & Hmax & Hm & Hr). exists max, m. split; [done |]. split; [done |]. by etrans.
Qed.
End inductive_steps.

(** ** A concrete run: one download whose connection fails, then the exit *)

Definition demo_config : client_config := {|
  remote := {| host := lit "127.0.0.1"; port := lit "8080" |};
  log := {| log_level := lit "INFO"; log_file := lit "log/client.log" |};
  storage := {| cfg_download_dir := lit "downloads" |};
  transfer := {| max_concurrent := 2; connect_timeout_ms := 5000; io_timeout_ms := 30000 |} |}.

Definition demo_runtime : client_runtime := {|
  rt_config := demo_config; control_fd := 3; rt_session_id := demo_sid; rt_username := lit "alice";
  rt_remote_cwd := [SLASH]; rt_download_dir := lit "/home/alice/downloads"; rt_transfers := true |}.

Definition demo_manager : transfer_manager :=
  {| m_active := NULL; m_active_count := 0; m_max_concurrent := 2; m_stopping := false;
     m_events_head := NULL; m_events_tail := NULL; m_tasks := ∅; m_events := ∅ |}.

Definition demo_submission : outcome (Z * transfer_manager) :=
  submission demo_manager demo_runtime None (Some 1%N, Some 2%N) true TRANSFER_DOWNLOAD (lit "docs/new.txt").

(** The result of a section, for evaluation *)
Definition result_of {A} (o : outcome A) (default : A) : A := match o with Ret a => a | _ => default end.

Definition demo_label : label := (TRANSFER_DOWNLOAD, lit "/home/alice/downloads/new.txt").
Definition demo_started : transfers :=
  {| mgr := snd (result_of demo_submission (0, demo_manager)); threads := {[ 1%N := Connecting ]}; sockets := ∅; shut := [];
     main := MIdle; accepted := [demo_label]; reported := [] |}.

Definition demo_stop : list Z * transfer_manager := result_of (stop_section (mgr demo_started)) ([], demo_manager).
Definition demo_waiting : transfers :=
  {| mgr := snd demo_stop; threads := {[ 1%N := Connecting ]}; sockets := ∅; shut := []; main := MWaiting;
     accepted := [demo_label]; reported := [] |}.

(** ... and with the transfer under way when the client stops *)
Definition demo_published : transfer_manager :=
  snd (result_of (task_publish_socket (mgr demo_started) 1%N 7) (0, demo_manager)).
Definition demo_asleep : transfers :=
  {| mgr := snd (result_of (stop_section demo_published) ([], demo_manager)); threads := {[ 1%N := Transferring 7 ]}; sockets := {[7]}; shut := [7];
     main := MAsleep; accepted := [demo_label]; reported := [] |}.

Definition demo_digest32 : Sha256 := {| sha256 := fun _ => replicate 32 x00; sha256_length := fun _ => eq_refl |}.

Section demo.
Context `{Host} `{Sha256} (malloc_ok : Z -> bool).

Lemma demo_started_reachable : transfers_reachable malloc_ok demo_started.
Proof.
  exists 2, demo_manager. split; [by vm_compute |]. split; [reflexivity |]. eapply rtc_l; [| apply rtc_refl]. apply step_of_main.
  apply (step_submits (transfers_initial demo_manager) demo_runtime None (Some 1%N, Some 2%N) true TRANSFER_DOWNLOAD
    (lit "docs/new.txt") (mgr demo_started) 1%N demo_label).
  - reflexivity.
  - split; intros x [= <-]; by split.
  - vm_compute; reflexivity.
  - vm_compute; reflexivity.
Qed.

Lemma demo_waiting_reachable : transfers_reachable malloc_ok demo_waiting.
Proof.
  destruct demo_started_reachable as (max & m & Hmax & Hm & Hsteps). exists max, m. split; [done |]. split; [done |].
  eapply rtc_r; [exact Hsteps |]. apply step_of_main. apply (step_stops demo_started (fst demo_stop) (snd demo_stop)).
  - reflexivity.
  - vm_compute; reflexivity.
Qed.

Lemma demo_asleep_reachable : transfers_reachable malloc_ok demo_asleep.
Proof.
  destruct demo_started_reachable as (max & m & Hmax & Hm & Hsteps). exists max, m. split; [done |]. split; [done |].
  etrans; [exact Hsteps |].
  eapply rtc_l; [apply (step_of_thread _ _ 1%N); apply (step_connects _ 1%N _ 7); [reflexivity | done | set_solver] |].
  eapply rtc_l; [apply (step_of_thread _ _ 1%N); eapply (step_publishes _ 1%N _ 7 demo_published); vm_compute; reflexivity |].
  eapply rtc_l; [apply step_of_main; eapply step_stops; vm_compute; reflexivity |].
  eapply rtc_l; [apply step_of_main; eapply step_sleeps; vm_compute; reflexivity |].
  apply rtc_refl.
Qed.

(** The rest of the exit *)
Lemma demo_gone : exists s, transfers_reachable malloc_ok s /\ main s = MGone /\
  reported s = [(TRANSFER_DOWNLOAD, TRANSFER_RESULT_CANCELED, lit "/home/alice/downloads/new.txt")].
Proof.
  destruct demo_waiting_reachable as (max & m & Hmax & Hm & Hsteps).
  eexists. split; [exists max, m; split; [done |]; split; [done |] |].
  - etrans; [exact Hsteps |].
    eapply rtc_l; [apply (step_of_thread _ _ 1%N), step_connect_fails; reflexivity |].
    eapply rtc_l; [apply (step_of_thread _ _ 1%N); eapply step_result; vm_compute; reflexivity |].
    eapply rtc_l; [apply (step_of_thread _ _ 1%N); eapply step_finishes; vm_compute; reflexivity |].
    eapply rtc_l; [apply (step_of_thread _ _ 1%N); eapply step_frees; vm_compute; reflexivity |].
    eapply rtc_l; [apply step_of_main, step_stopped; vm_compute; reflexivity |].
    eapply rtc_l; [apply step_of_main; eapply step_drains_last; vm_compute; reflexivity |].
    eapply rtc_l; [apply step_of_main; eapply (step_shows _ true); vm_compute; reflexivity |].
    eapply rtc_l; [apply step_of_main; eapply step_destroys; vm_compute; reflexivity |]. apply rtc_refl.
  - split; vm_compute; reflexivity.
Qed.
End demo.

Lemma transfer_limits_witness :
  exists running, length running = 1%nat /\ m_active_count (mgr demo_started) = 1 /\
    NoDup (omap (target_at (mgr demo_started)) running).
Proof.
  destruct (@transfer_limits false demo_digest32 (fun _ => true)
    demo_started) as (running & _ & _ & Hcount & _ & Htargets & _).
  - apply demo_started_reachable.
  - exists running. assert (Hone : m_active_count (mgr demo_started) = 1) by (vm_compute; reflexivity).
    split; [lia |]. split; [exact Hone | exact Htargets].
Defined.

Lemma transfers_reported_once_witness :
  exists s, main s = MGone /\ accepted s ≡ₚ [demo_label].
Proof.
  destruct (@demo_gone false demo_digest32 (fun _ => true))
    as (s & Hr & Hgone & Hrep).
  destruct (@transfers_reported_once false demo_digest32 (fun _ => true)
    s Hr) as [_ Hend].
  exists s. split; [exact Hgone |]. destruct (Hend Hgone) as [Hacc _]. rewrite Hacc, Hrep. reflexivity.
Defined.

Lemma transfers_defined_witness :
  exists fds m, stop_section (mgr demo_started) = Ret (fds, m) /\ forall fd, fd ∈ fds -> fd ∈ sockets demo_started.
Proof.
  destruct (@transfers_defined false demo_digest32 (fun _ => true)
    demo_started) as (_ & _ & Hstop & _); [apply demo_started_reachable | exact Hstop].
Defined.

Lemma stop_terminates_witness :
  exists t, m_tasks (mgr demo_asleep) !! 1%N = Some t /\ a_canceled t = true /\ 7 ∈ shut demo_asleep /\
    stop_done (mgr demo_asleep) = false /\
    exists s', @thread_step false demo_digest32 (fun _ => true) 1%N demo_asleep s'.
Proof.
  destruct (@stop_terminates false demo_digest32 (fun _ => true) demo_asleep) as (Hasleep & Hrun & Hstep & _).
  - apply demo_asleep_reachable.
  - right. reflexivity.
  - eexists. split; [vm_compute; reflexivity |].
    edestruct (Hrun 1%N 7) as (Hc & Hs & _); [vm_compute; reflexivity | vm_compute; reflexivity |].
    split; [exact Hc |]. split; [exact Hs |]. split; [apply Hasleep; reflexivity |].
    eapply (Hstep 1%N). vm_compute. reflexivity.
Defined.
