(* ===== verification/ClientCommand.v ===== *)
(** * The client's commands ([src/client/command.c], [src/client/user_auth.c],
      [src/client/menu.c], [src/client/main.c] and [client_connection_is_alive])

    The main thread of the client: it logs in, reads command lines, runs the short
    commands over the control connection and hands uploads and downloads to the
    transfer manager. *)

From Stdlib Require Import Strings.Byte.
From S2P Require Import Prelude CString Protocol Utils Heap Files HandlerTransfer ClientTransfer ClientRuntime TransferManager TransferSystem.

(** ** Data *)

Inductive client_command_result :=
| CLIENT_COMMAND_OK | CLIENT_COMMAND_EXIT | CLIENT_COMMAND_RECONNECT | CLIENT_COMMAND_ERROR.

#[global] Instance client_command_result_eq_dec : EqDecision client_command_result.
Proof. solve_decision. Defined.

Inductive auth_result := AUTH_OK | AUTH_CONNECTION_ERROR | AUTH_EXIT.

#[global] Instance auth_result_eq_dec : EqDecision auth_result.
Proof. solve_decision. Defined.

Definition AUTH_REQUEST_FAILED : Z := -1.
Definition AUTH_REQUEST_CONNECTION_ERROR : Z := -2.

(** The answers of [recv] with [MSG_PEEK | MSG_DONTWAIT] *)
Inductive peek_answer := PeekBytes | PeekEof | PeekEintr | PeekAgain | PeekError.

(** What is printed: the text of an answer, a refusal of the server with its
    status, the start and the end of a transfer, and the other messages *)
Inductive message :=
| Answer (text : list byte)
| Refusal (ty : cmd_type) (st : status_code) (text : list byte)
| TransferStarted (kind : transfer_kind)
| TransferEnded (event : transfer_kind * transfer_result * list byte)
| Notice.

(** The main thread's state: the runtime, the control connection, the transfer
    manager, the answers to come of the liveness test, the standard input, what has
    been printed, and the control connections it has opened and closed *)
Record client := {
  c_rt : client_runtime;
  c_conn : socket;
  c_mgr : transfer_manager;
  c_peeks : list peek_answer;
  c_stdin : list byte;
  c_screen : list message;
  c_opened_fds : list Z;
  c_closed_fds : list Z
}.

Definition set_rt (c : client) (rt : client_runtime) : client :=
  {| c_rt := rt; c_conn := c_conn c; c_mgr := c_mgr c; c_peeks := c_peeks c; c_stdin := c_stdin c; c_screen := c_screen c;
     c_opened_fds := c_opened_fds c; c_closed_fds := c_closed_fds c |}.
Definition set_conn (c : client) (s : socket) : client :=
  {| c_rt := c_rt c; c_conn := s; c_mgr := c_mgr c; c_peeks := c_peeks c; c_stdin := c_stdin c; c_screen := c_screen c;
     c_opened_fds := c_opened_fds c; c_closed_fds := c_closed_fds c |}.
Definition set_c_mgr (c : client) (m : transfer_manager) : client :=
  {| c_rt := c_rt c; c_conn := c_conn c; c_mgr := m; c_peeks := c_peeks c; c_stdin := c_stdin c; c_screen := c_screen c;
     c_opened_fds := c_opened_fds c; c_closed_fds := c_closed_fds c |}.
Definition set_peeks (c : client) (l : list peek_answer) : client :=
  {| c_rt := c_rt c; c_conn := c_conn c; c_mgr := c_mgr c; c_peeks := l; c_stdin := c_stdin c; c_screen := c_screen c;
     c_opened_fds := c_opened_fds c; c_closed_fds := c_closed_fds c |}.
Definition set_stdin (c : client) (l : list byte) : client :=
  {| c_rt := c_rt c; c_conn := c_conn c; c_mgr := c_mgr c; c_peeks := c_peeks c; c_stdin := l; c_screen := c_screen c;
     c_opened_fds := c_opened_fds c; c_closed_fds := c_closed_fds c |}.
Definition print (c : client) (x : message) : client :=
  {| c_rt := c_rt c; c_conn := c_conn c; c_mgr := c_mgr c; c_peeks := c_peeks c; c_stdin := c_stdin c;
     c_screen := c_screen c ++ [x]; c_opened_fds := c_opened_fds c; c_closed_fds := c_closed_fds c |}.
Definition note_closed (c : client) (fd : option Z) : client :=
  {| c_rt := c_rt c; c_conn := c_conn c; c_mgr := c_mgr c; c_peeks := c_peeks c; c_stdin := c_stdin c; c_screen := c_screen c;
     c_opened_fds := c_opened_fds c; c_closed_fds := c_closed_fds c ++ match fd with Some fd => [fd] | None => [] end |}.

Definition note_opened (c : client) (fd : Z) : client :=
  {| c_rt := c_rt c; c_conn := c_conn c; c_mgr := c_mgr c; c_peeks := c_peeks c; c_stdin := c_stdin c; c_screen := c_screen c;
     c_opened_fds := c_opened_fds c ++ [fd]; c_closed_fds := c_closed_fds c |}.

(** What the world answers to one command: [getenv("HOME")], the two [calloc], and
    the creation of a thread *)
Record submit_env := {
  env_home : option (list byte);
  env_alloc : option addr * option addr;
  env_spawned : bool
}.

(** ** The control connection *)

Fixpoint is_alive_loop (l : list peek_answer) : outcome (bool * list peek_answer) :=
  match l with
  | [] => NoReturn
  | PeekBytes :: l => Ret (true, l)
  | PeekEof :: l => Ret (false, l)
  | PeekEintr :: l => is_alive_loop l
  | PeekAgain :: l => Ret (true, l)
  | PeekError :: l => Ret (false, l)
  end.

Definition client_connection_is_alive (c : client) : outcome (bool * client) :=
  if control_fd (c_rt c) <? 0 then Ret (false, c)
  else '(b, l) ← is_alive_loop (c_peeks c); Ret (b, set_peeks c l).

(** [client_runtime_disconnect_control] *)
Definition disconnect (c : client) : client :=
  let (fd, rt) := client_runtime_disconnect_control (c_rt c) in note_closed (set_rt c rt) fd.

Definition control_connection_lost (c : client) : client_command_result * client :=
  (CLIENT_COMMAND_RECONNECT, disconnect c).

(** ** Command lines *)

Definition skip_space (text : list byte) : list byte := drop_while isspace text.

(** The word and where the line continues; [None] is -1 *)
Definition next_word (cursor : list byte) (word_size : Z) : option (list byte * list byte) :=
  let start := skip_space cursor in
  let word := take_while (fun b => negb (isspace b)) start in
  if (Z.of_nat (length word) =? 0) || (word_size <=? Z.of_nat (length word)) then None
  else Some (word, drop (length word) start).

Definition MAX_COMMAND_INPUT : Z := 512.

Section commands.
Context `{Host} (malloc_ok : Z -> bool).

(** What [execute_short_command] does with an answer that it has received *)
Definition handle_answer (c : client) (ty : cmd_type) (sid : session_id) (response : packet)
    : outcome (client_command_result * client) :=
  let h := header response in
  if negb (session_id_equal sid (session_id_of h)) then Ret (CLIENT_COMMAND_ERROR, c)
  else if bool_decide (type h <> CMD_ACK) && bool_decide (type h <> CMD_ERROR) then Ret (CLIENT_COMMAND_ERROR, c)
  else if MAX_PACKET_PAYLOAD + 1 <=? payload_len h then Ret (CLIENT_COMMAND_ERROR, c)
  else
    bytes ← (if 0 <? payload_len h then deref (payload response) else Ret []);
    let text := cstr (take (Z.to_nat (payload_len h)) bytes) in
    if bool_decide (type h = CMD_ERROR) || bool_decide (status h <> STATUS_OK) then
      if bool_decide (status h = STATUS_UNAUTHORIZED) then Ret (control_connection_lost c)
      else Ret (CLIENT_COMMAND_ERROR, print c (Refusal ty (status h) text))
    else if bool_decide (ty = CMD_CD) then
      match text with
      | [] => Ret (CLIENT_COMMAND_ERROR, c)
      | _ => match client_runtime_update_cwd (c_rt c) text with
             | None => Ret (CLIENT_COMMAND_ERROR, c)
             | Some rt => Ret (CLIENT_COMMAND_OK, set_rt c rt)
             end
      end
    else match text with
         | [] => Ret (CLIENT_COMMAND_OK, c)
         | _ => Ret (CLIENT_COMMAND_OK, print c (Answer text))
         end.

Definition execute_short_command (c : client) (ty : cmd_type) (argument : list byte)
    : outcome (client_command_result * client) :=
  match client_runtime_session_snapshot (c_rt c) USERNAME_SIZE PATH_MAX with
  | None => Ret (CLIENT_COMMAND_ERROR, c)
  | Some (sid, _, _) =>
      match packet_init ty STATUS_OK (Some sid) (Some argument) (Z.of_nat (length argument)) with
      | None => Ret (CLIENT_COMMAND_ERROR, c)
      | Some request =>
          '(r, s) ← protocol_send_packet (c_conn c) request;
          let c := set_conn c s in
          if negb (r =? 0) then Ret (control_connection_lost c)
          else
            '(r, response, s) ← protocol_recv_packet malloc_ok (c_conn c);
            let c := set_conn c s in
            '(result, c) ← (if negb (r =? 0) then Ret (control_connection_lost c) else handle_answer c ty sid response);
            Ret (result, set_conn c (snd (packet_release (c_conn c) response)))
      end
  end.

(** [puts] and [gets]: the word that follows and the submission *)
Definition execute_transfer (env : submit_env) (c : client) (kind : transfer_kind) (cursor : list byte)
    : outcome (client_command_result * client) :=
  match next_word cursor PATH_MAX with
  | None => Ret (CLIENT_COMMAND_ERROR, print c Notice)
  | Some (first, _) =>
      '(r, m) ← submission (c_mgr c) (c_rt c) (env_home env) (env_alloc env) (env_spawned env) kind first;
      Ret (if negb (r =? 0) then (CLIENT_COMMAND_ERROR, print (set_c_mgr c m) Notice)
           else (CLIENT_COMMAND_OK, print (set_c_mgr c m) (TransferStarted kind)))
  end.

Definition command_type (command : list byte) : cmd_type :=
  if strcaseeq command (lit "pwd") then CMD_PWD
  else if strcaseeq command (lit "cd") then CMD_CD
  else if strcaseeq command (lit "ls") then CMD_LS
  else if strcaseeq command (lit "mkdir") then CMD_MKDIR
  else if strcaseeq command (lit "rmdir") then CMD_RMDIR
  else if strcaseeq command (lit "rm") then CMD_RM
  else CMD_INVALID.

Definition needs_argument (ty : cmd_type) : bool :=
  bool_decide (ty = CMD_MKDIR) || bool_decide (ty = CMD_RMDIR) || bool_decide (ty = CMD_RM).

Definition client_command_execute (env : submit_env) (c : client) (input : list byte)
    : outcome (client_command_result * client) :=
  match next_word input 16 with
  | None => Ret (CLIENT_COMMAND_OK, c)
  | Some (command, cursor) =>
      if strcaseeq command (lit "quit") || strcaseeq command (lit "exit") then Ret (CLIENT_COMMAND_EXIT, c)
      else if strcaseeq command (lit "help") || strcaseeq command (lit "h") then Ret (CLIENT_COMMAND_OK, print c Notice)
      else
        '(alive, c) ← client_connection_is_alive c;
        if negb alive then Ret (control_connection_lost c)
        else if strcaseeq command (lit "puts") then execute_transfer env c TRANSFER_UPLOAD cursor
        else if strcaseeq command (lit "gets") then execute_transfer env c TRANSFER_DOWNLOAD cursor
        else
          let ty := command_type command in
          if bool_decide (ty <> CMD_PWD) && bool_decide (ty <> CMD_CD) && bool_decide (ty <> CMD_LS) && negb (needs_argument ty)
          then Ret (CLIENT_COMMAND_ERROR, print c Notice)
          else
            let first := if bool_decide (ty <> CMD_PWD) then match next_word cursor PATH_MAX with Some (w, _) => w | None => [] end
                         else [] in
            if needs_argument ty && bool_decide (first = []) then Ret (CLIENT_COMMAND_ERROR, print c Notice)
            else execute_short_command c ty first
  end.

(** ** Logging in *)

(** The return value and [*response] *)
Definition exchange_auth (c : client) (ty : cmd_type) (text : list byte) : outcome (Z * packet * client) :=
  match packet_init ty STATUS_OK None (Some text) (Z.of_nat (length text)) with
  | None => Ret (-1, zero_packet, c)
  | Some request =>
      '(r, s) ← protocol_send_packet (c_conn c) request;
      let c := set_conn c s in
      if negb (r =? 0) then Ret (-1, zero_packet, c)
      else '(r, response, s) ← protocol_recv_packet malloc_ok (c_conn c); Ret (r, response, set_conn c s)
  end.

(** [s_gets] and [read_password] on the standard input; [term_ok] says whether it
    is a terminal. *)
Definition get_line (size : Z) (c : client) : option (list byte) * client :=
  match s_gets size (c_stdin c) with
  | None => (None, set_stdin c [])
  | Some (l, rest) => (Some l, set_stdin c rest)
  end.
Definition get_password (term_ok : bool) (size : Z) (c : client) : option (list byte) * client :=
  let '(r, password, rest) := read_password term_ok size (c_stdin c) in
  (if r =? 0 then Some (cstr password) else None, set_stdin c rest).

Definition read_credentials (term_ok : bool) (c : client) : option (list byte * list byte) * client :=
  let (username, c) := get_line 64 c in
  match username with
  | None | Some [] => (None, c)
  | Some username =>
      let (password, c) := get_password term_ok 32 c in
      (match password with Some password => Some (username, password) | None => None end, c)
  end.

(** [snprintf(payload, 128, "%s\n%s", username, password)] *)
Definition auth_payload (username password : list byte) : list byte :=
  snd (snprintf 128 (username ++ [NEWLINE] ++ password)).

Definition user_login (term_ok : bool) (c : client) : outcome (Z * client) :=
  let c := set_rt c (client_runtime_clear_session (c_rt c)) in
  let (credentials, c) := read_credentials term_ok c in
  match credentials with
  | None => Ret (AUTH_REQUEST_FAILED, c)
  | Some (username, password) =>
      '(r, response, c) ← exchange_auth c CMD_LOGIN_REQ (auth_payload username password);
      let h := header response in
      let '(result, c) :=
        if negb (r =? 0) then (AUTH_REQUEST_CONNECTION_ERROR, c)
        else if bool_decide (type h = CMD_ACK) && bool_decide (status h = STATUS_OK) && negb (session_id_is_empty (session_id_of h))
        then match client_runtime_publish_session (c_rt c) (session_id_of h) username with
             | Some rt => (0, set_rt c rt)
             | None => (-1, c)
             end
        else if bool_decide (type h = CMD_ERROR) &&
                (bool_decide (status h = STATUS_USER_NOTEXIST) || bool_decide (status h = STATUS_PASSWD_ERROR))
        then (AUTH_REQUEST_FAILED, print c (Refusal CMD_LOGIN_REQ (status h) username))
        else (AUTH_REQUEST_FAILED, c) in
      Ret (result, set_conn c (snd (packet_release (c_conn c) response)))
  end.

(** The loop that asks for the password until it is the same twice; each turn
    reads from the standard input, whose length is enough fuel. *)
Fixpoint confirm_password (fuel : nat) (term_ok : bool) (c : client) : outcome (option (list byte) * client) :=
  match fuel with
  | O => NoReturn
  | S fuel =>
      let (password, c) := get_password term_ok 32 c in
      match password with
      | None => Ret (None, c)
      | Some password =>
          let (confirm, c) := get_password term_ok 32 c in
          match confirm with
          | None => Ret (None, c)
          | Some confirm =>
              if bool_decide (password = confirm) then Ret (Some password, c)
              else confirm_password fuel term_ok (print c Notice)
          end
      end
  end.

Definition user_register (term_ok : bool) (c : client) : outcome (Z * client) :=
  let (username, c) := get_line 64 c in
  match username with
  | None | Some [] => Ret (AUTH_REQUEST_FAILED, c)
  | Some username =>
      '(password, c) ← confirm_password (S (length (c_stdin c))) term_ok c;
      match password with
      | None => Ret (AUTH_REQUEST_FAILED, c)
      | Some password =>
          '(r, response, c) ← exchange_auth c CMD_REGISTER_REQ (auth_payload username password);
          let h := header response in
          let result :=
            if negb (r =? 0) then AUTH_REQUEST_CONNECTION_ERROR
            else if bool_decide (type h = CMD_ACK) && bool_decide (status h = STATUS_OK) && session_id_is_empty (session_id_of h)
            then 0 else AUTH_REQUEST_FAILED in
          Ret (result, set_conn c (snd (packet_release (c_conn c) response)))
      end
  end.

(** The choice, -1 at the end of the input *)
Definition menu_show_auth (c : client) : Z * client :=
  let (line, c) := get_line 16 c in
  (match line with Some l => to_int (strtol l) | None => -1 end, print c Notice).

(** [user_auth]: [fuel] bounds the turns of its loop. *)
Fixpoint user_auth (fuel : nat) (term_ok : bool) (c : client) : outcome (auth_result * client) :=
  match fuel with
  | O => NoReturn
  | S fuel =>
      let (choice, c) := menu_show_auth c in
      if choice =? 1 then
        '(alive, c) ← client_connection_is_alive c;
        if negb alive then Ret (AUTH_CONNECTION_ERROR, c)
        else
          '(result, c) ← user_login term_ok c;
          if result =? 0 then Ret (AUTH_OK, c)
          else if result =? AUTH_REQUEST_CONNECTION_ERROR then Ret (AUTH_CONNECTION_ERROR, c)
          else user_auth fuel term_ok (print c Notice)
      else if choice =? 2 then
        '(alive, c) ← client_connection_is_alive c;
        if negb alive then Ret (AUTH_CONNECTION_ERROR, c)
        else
          '(result, c) ← user_register term_ok c;
          if result =? AUTH_REQUEST_CONNECTION_ERROR then Ret (AUTH_CONNECTION_ERROR, c)
          else user_auth fuel term_ok (print c Notice)
      else if choice =? 0 then Ret (AUTH_EXIT, c)
      else user_auth fuel term_ok (print c Notice)
  end.

(** ** The main loop *)

(** [connect_control]: [opened] is the result of [client_connection_open], a fresh
    connection or a failure. *)
Definition connect_control (opened : option (Z * socket)) (c : client) : Z * client :=
  let c := disconnect c in
  match opened with
  | Some (fd, s) => (0, note_opened (set_conn (set_rt c (set_control_fd (c_rt c) fd)) s) fd)
  | None => (-1, print (set_rt c (set_control_fd (c_rt c) (-1))) Notice)
  end.

(** One turn of the inner loop of [main] after the events have been drained *)
Inductive turn := TurnAgain | TurnReconnect | TurnExit (code : Z).

Definition command_turn (env : submit_env) (opened : option (Z * socket)) (c : client) : outcome (turn * client) :=
  match client_runtime_session_snapshot (c_rt c) USERNAME_SIZE PATH_MAX with
  | None => Ret (TurnReconnect, c)
  | Some _ =>
      let (input, c) := get_line MAX_COMMAND_INPUT (print c Notice) in
      match input with
      | None => Ret (TurnExit 0, c)
      | Some input =>
          '(result, c) ← client_command_execute env c input;
          match result with
          | CLIENT_COMMAND_EXIT => Ret (TurnExit 0, c)
          | CLIENT_COMMAND_RECONNECT =>
              let (r, c) := connect_control opened (print c Notice) in
              Ret (if negb (r =? 0) then TurnExit 1 else TurnReconnect, c)
          | _ => Ret (TurnAgain, c)
          end
      end
  end.
End commands.
