(* ===== verification/ClientCommandSpec.v ===== *)
(** * The client's main thread is safe and agrees with the server

    Whatever the server answers, a command keeps the runtime well formed; and the
    two sides agree on the credentials and on the working directory. *)

From Stdlib Require Import Strings.Byte.
From S2P Require Import Prelude CString Protocol Utils Heap Session SessionSpec Database DatabasePool Dao Tables DatabaseDemo DaoSpec.
From S2P Require Import HandlerBasic HandlerBasicSpec Files HandlerTransfer HandlerTransferSpec HandlerTransferFlow.
From S2P Require Import ClientTransfer ClientRuntime TransferManager TransferSystem TransferManagerSpec TransferSystemSpec ClientCommand.

(** ** Safety *)

(** What a command may change of a logged-in client: nothing of its session but the
    directory, or everything when the connection is lost *)
Definition same_session (c c' : client) : Prop :=
  rt_session_id (c_rt c') = rt_session_id (c_rt c) /\ rt_username (c_rt c') = rt_username (c_rt c) /\
  control_fd (c_rt c') = control_fd (c_rt c) /\ c_closed_fds c' = c_closed_fds c /\ c_opened_fds c' = c_opened_fds c /\
  rt_transfers (c_rt c') = rt_transfers (c_rt c) /\ logged_in (c_rt c').
Definition lost (c c' : client) : Prop :=
  logged_out (c_rt c') /\ control_fd (c_rt c') = -1 /\ c_closed_fds c' = c_closed_fds c ++ [control_fd (c_rt c)] /\
  c_opened_fds c' = c_opened_fds c /\ rt_transfers (c_rt c') = rt_transfers (c_rt c).

(** The manager while the main thread shows no events *)
Definition managed_somehow (m : transfer_manager) : Prop := exists l q, managed m l q NULL [].

(** The transfers that the user was told have started, those that the user was told
    have ended, and whether the events that wait are exactly the difference *)
Definition is_start (x : message) : bool := match x with TransferStarted _ => true | _ => false end.
Definition is_end (x : message) : bool := match x with TransferEnded _ => true | _ => false end.
Definition started_shown (c : client) : nat := length (List.filter is_start (c_screen c)).
Definition ended_shown (c : client) : nat := length (List.filter is_end (c_screen c)).
Definition due (c : client) : Z :=
  Z.of_nat (started_shown c) - Z.of_nat (ended_shown c) - Z.of_nat (size (m_events (c_mgr c))).

Lemma due_print c x : due (print c x) = due c + (if is_start x then 1 else 0) - (if is_end x then 1 else 0).
Proof.
  unfold due, started_shown, ended_shown. cbn. rewrite !List.filter_app, !length_app. destruct x; cbn; lia.
Qed.
Definition neutral (x : message) : bool := negb (is_start x) && negb (is_end x).
Lemma due_neutral c x : neutral x = true -> due (print c x) = due c.
Proof. rewrite due_print. unfold neutral. destruct (is_start x), (is_end x); cbn; intros ?; done || lia. Qed.

Record commanded (c : client) (r : client_command_result) (c' : client) : Prop := {
  cd_session : if bool_decide (r = CLIENT_COMMAND_RECONNECT) then lost c c' else same_session c c';
  cd_buffers : buffers (c_conn c') = buffers (c_conn c);
  cd_manager : managed_somehow (c_mgr c');
  cd_due : due c' = due c
}.

Section safety.
Context `{Host} (malloc_ok : Z -> bool).

Lemma commanded_lost c c1 :
  0 <= control_fd (c_rt c) -> c_rt c1 = c_rt c -> c_closed_fds c1 = c_closed_fds c -> c_opened_fds c1 = c_opened_fds c ->
  managed_somehow (c_mgr c1) -> lost c (disconnect c1).
Proof.
  intros Hfd Hrt Hcl Hop Hm. unfold lost, disconnect. rewrite Hrt. unfold client_runtime_disconnect_control.
  destruct (Z.leb_spec 0 (control_fd (c_rt c))); [| lia]. cbn. by rewrite Hcl, Hop.
Qed.

(** Nothing but the connection has changed since [c]. *)
Definition on_line (c c1 : client) : Prop :=
  c_rt c1 = c_rt c /\ c_closed_fds c1 = c_closed_fds c /\ c_opened_fds c1 = c_opened_fds c /\ managed_somehow (c_mgr c1) /\
  due c1 = due c.

(** A result whose connection is the one at hand *)
Definition settles (c c1 : client) (x : client_command_result * client) : Prop :=
  (if bool_decide (x.1 = CLIENT_COMMAND_RECONNECT) then lost c x.2 else same_session c x.2) /\
  c_conn x.2 = c_conn c1 /\ managed_somehow (c_mgr x.2) /\ due x.2 = due c.

Lemma settles_same c c1 r x :
  logged_in (c_rt c) -> on_line c c1 -> r <> CLIENT_COMMAND_RECONNECT -> neutral x = true ->
  settles c c1 (r, print c1 x) /\ settles c c1 (r, c1).
Proof.
  intros Hin (Hrt & Hcl & Hop & Hm & Hd) Hr Hx. unfold settles, same_session. cbn [fst snd]. rewrite bool_decide_eq_false_2 by done.
  rewrite due_neutral by done. cbn. by rewrite Hrt, Hcl, Hop.
Qed.

Lemma disconnect_due c : due (disconnect c) = due c.
Proof.
  unfold disconnect. destruct (client_runtime_disconnect_control (c_rt c)) as [fd rt]. unfold note_closed. by destruct fd.
Qed.

Lemma settles_lost c c1 : 0 <= control_fd (c_rt c) -> on_line c c1 -> settles c c1 (control_connection_lost c1).
Proof.
  intros Hfd (Hrt & Hcl & Hop & Hm & Hd). unfold settles, control_connection_lost. cbn [fst snd]. rewrite bool_decide_eq_true_2 by done.
  rewrite disconnect_due. split; [by apply commanded_lost |]. unfold disconnect. destruct (client_runtime_disconnect_control (c_rt c1)). done.
Qed.

Lemma handle_answer_safe c c1 ty sid p :
  logged_in (c_rt c) -> 0 <= control_fd (c_rt c) -> on_line c c1 -> packet_wf p ->
  safely (handle_answer c1 ty sid p) (settles c c1).
Proof.
  intros Hin Hfd Hon Hwf. unfold handle_answer.
  assert (Hprint : forall r x, r <> CLIENT_COMMAND_RECONNECT -> neutral x = true -> settles c c1 (r, print c1 x)) by (intros; by apply settles_same).
  assert (Hquiet : forall r, r <> CLIENT_COMMAND_RECONNECT -> settles c c1 (r, c1)) by (intros; by apply (settles_same c c1 _ Notice)).
  destruct (negb _); [by apply (Hquiet CLIENT_COMMAND_ERROR) |]. destruct (_ && _); [by apply (Hquiet CLIENT_COMMAND_ERROR) |].
  destruct (_ <=? _); [by apply (Hquiet CLIENT_COMMAND_ERROR) |]. apply safely_bind.
  assert (Hpl : exists bytes, (if 0 <? payload_len (header p) then deref (payload p) else Ret []) = Ret bytes).
  { destruct (Z.ltb_spec 0 (payload_len (header p))) as [Hpos |]; [| eauto].
    destruct (packet_wf_payload p Hwf Hpos) as (l & -> & _). eauto. }
  destruct Hpl as [bytes ->]. cbn [safely]. cbn zeta. set (text := cstr _).
  destruct (_ || _).
  { destruct (bool_decide _); [by apply settles_lost | by apply (Hprint CLIENT_COMMAND_ERROR)]. }
  destruct (bool_decide _).
  - destruct text as [| b text'] eqn:Et; [by apply (Hquiet CLIENT_COMMAND_ERROR) |].
    destruct (client_runtime_update_cwd (c_rt c1) (b :: text')) as [rt |] eqn:Eu; [| by apply (Hquiet CLIENT_COMMAND_ERROR)].
    destruct Hon as (Hrt & Hcl & Hop & Hm & Hd). rewrite Hrt in Eu. destruct (update_cwd_logged_in _ _ _ Hin Eu) as (Hin' & _ & Hs & Hu & Hf & Htr).
    unfold settles, same_session. cbn [safely fst snd]. rewrite bool_decide_eq_false_2 by done. cbn. by rewrite Hs, Hu, Hf, Hcl.
  - destruct text; [by apply (Hquiet CLIENT_COMMAND_OK) | by apply (Hprint CLIENT_COMMAND_OK)].
Qed.

Lemma recv_failed_owns s r p s' : protocol_recv_packet malloc_ok s = Ret (r, p, s') -> r <> 0 -> owns_payload p = false.
Proof.
  unfold protocol_recv_packet. intros Hr Hne.
  apply bind_Ret_inv in Hr as ([[r1 w] s1] & _ & Hr). cbn beta iota in Hr.
  repeat (case_match; [by simplify_eq |]).
  apply bind_Ret_inv in Hr as ([[r2 d] s2] & _ & Hr). cbn beta iota in Hr. destruct (negb (r2 =? 0)); cbn in Hr; by simplify_eq.
Qed.

Lemma release_buffers s p : buffers (snd (packet_release s p)) = buffers s - (if owns_payload p then 1 else 0).
Proof. cbn. destruct (owns_payload p); cbn; lia. Qed.

Lemma short_command_safe c ty argument :
  logged_in (c_rt c) -> 0 <= control_fd (c_rt c) -> managed_somehow (c_mgr c) -> cmd_wf ty ->
  safely (execute_short_command malloc_ok c ty argument) (fun x => commanded c x.1 x.2).
Proof.
  intros Hin Hfd Hm Hty. unfold execute_short_command.
  assert (Herr : commanded c CLIENT_COMMAND_ERROR c) by (by split).
  destruct (snapshot_ok (c_rt c)) as [[_ ->] | [_ ->]]; [by right | | exact Herr].
  destruct (packet_init _ _ _ _ _) as [request |] eqn:Ep; [| exact Herr].
  assert (Hwf : packet_wf request).
  { unfold packet_init in Ep. destruct (_ || _) eqn:Eg; [done |]. injection Ep as <-.
    apply orb_false_iff in Eg as [Hl%Z.ltb_ge _]. destruct Hin as (_ & Hsid & _).
    split; [| done]. split_and!; cbn; [done | enum_wf | lia | done | done]. }
  apply safely_bind. pose proof (send_packet_defined (c_conn c) request Hwf) as Hdef.
  destruct (protocol_send_packet (c_conn c) request) as [[r s] | |] eqn:Es; [| done | done]. cbn [safely].
  destruct (send_packet_frame _ _ _ _ Es) as [_ Hbs].
  assert (Hon : forall s, on_line c (set_conn c s)) by (by intros).
  destruct (negb (r =? 0)).
  { destruct (settles_lost c (set_conn c s) Hfd (Hon s)) as (Hl & Hc & Hm' & Hd). split; [exact Hl | | done | done].
    by rewrite Hc. }
  apply safely_bind. destruct (recv_packet_cases malloc_ok s) as [Hdef2 Hcases]. cbn [c_conn set_conn].
  destruct (protocol_recv_packet malloc_ok s) as [[[r2 p] s2] | |] eqn:Er; [| done | done]. cbn [safely].
  destruct (Hcases _ _ _ eq_refl) as [_ Hp]. change (set_conn (set_conn c s) s2) with (set_conn c s2). apply safely_bind.
  assert (Hdone : safely (if negb (r2 =? 0) then Ret (control_connection_lost (set_conn c s2)) else handle_answer (set_conn c s2) ty (rt_session_id (c_rt c)) p)
            (settles c (set_conn c s2)) /\ buffers s2 - (if owns_payload p then 1 else 0) = buffers (c_conn c)).
  { destruct Hp as [(-> & Hwfp & _ & Hb) | (-> & _ & Hb)]; cbn [Z.eqb negb].
    - split; [by apply handle_answer_safe |]. rewrite Hb, Hbs. lia.
    - split; [by apply settles_lost |]. rewrite (recv_failed_owns _ _ _ _ Er) by done. rewrite Hb, Hbs. lia. }
  destruct Hdone as [Hdone Hb]. eapply safely_mono; [| exact Hdone]. intros [res c'] (Hs & Hc & Hm' & Hd). cbn [fst snd] in Hs, Hc, Hm', Hd.
  cbn [safely fst snd]. split; cbn [fst snd].
  - destruct (bool_decide _); exact Hs.
  - change (buffers (snd (packet_release (c_conn c') p)) = buffers (c_conn c)). rewrite release_buffers, Hc. exact Hb.
  - done.
  - exact Hd.
Qed.

Lemma is_alive_safe c : managed_somehow (c_mgr c) ->
  safely (client_connection_is_alive c) (fun x => on_line c x.2 /\ c_conn x.2 = c_conn c /\ c_mgr x.2 = c_mgr c).
Proof.
  intros Hm. unfold client_connection_is_alive. destruct (_ <? 0); [done |]. apply safely_bind.
  by induction (c_peeks c) as [| [] l IH]; cbn.
Qed.

Lemma submitted_managed m l q kind r m' : managed m l q NULL [] -> submitted m l kind r m' -> managed_somehow m'.
Proof.
  intros Hm [[_ ->] | (_ & a & e & t & path & -> & Ha & He & Hta & Hte & Hnx & Hev & _ & _ & _ & Hadm)].
  - by exists l, q.
  - exists (a :: l), q. by apply (pushed_managed m l q NULL [] a e t).
Qed.

(** The client [c1] differs from [c] in its connection's liveness answers only. *)
Lemma commanded_print c c1 r x m :
  logged_in (c_rt c) -> on_line c c1 -> c_conn c1 = c_conn c -> r <> CLIENT_COMMAND_RECONNECT -> managed_somehow m ->
  due (print (set_c_mgr c1 m) x) = due c1 -> commanded c r (print (set_c_mgr c1 m) x).
Proof.
  intros Hin (Hrt & Hcl & Hop & Hm & Hd) Hc Hr Hm' Hx. split; [cbn | cbn; by rewrite Hc | done | by rewrite Hx].
  rewrite bool_decide_eq_false_2 by done. unfold same_session. cbn. by rewrite Hrt, Hcl, Hop.
Qed.

Lemma transfer_command_safe env c c1 kind cursor :
  logged_in (c_rt c) -> on_line c c1 -> c_conn c1 = c_conn c -> c_mgr c1 = c_mgr c -> fresh_alloc (c_mgr c) (env_alloc env) ->
  safely (execute_transfer env c1 kind cursor) (fun x => commanded c x.1 x.2).
Proof.
  intros Hin Hon Hc Hmg Hf. pose proof Hon as (_ & _ & _ & Hm & _). unfold execute_transfer.
  destruct (next_word cursor PATH_MAX) as [[first rest] |].
  2: { cbn. replace (print c1 Notice) with (print (set_c_mgr c1 (c_mgr c1)) Notice) by (by destruct c1).
       apply commanded_print; try done. by apply (due_neutral (set_c_mgr c1 (c_mgr c1))). }
  destruct Hm as (l & q & Hm). rewrite <- Hmg in Hf.
  destruct (submission_spec _ _ _ _ _ (c_rt c1) (env_home env) (env_alloc env) (env_spawned env) kind first Hm Hf) as (r & m & -> & Hs).
  cbn [mbind outcome_bind safely]. pose proof (submitted_managed _ _ _ _ _ _ Hm Hs) as Hm'.
  destruct Hs as [[-> ->] | (-> & a & e & t & path & -> & _ & _ & _ & He & _)]; cbn [Z.eqb negb fst snd].
  - apply commanded_print; try done. rewrite due_print. cbn [is_start is_end]. unfold due, started_shown, ended_shown. cbn. lia.
  - apply commanded_print; try done. rewrite due_print. cbn [is_start is_end]. unfold due, started_shown, ended_shown, pushed. cbn.
    rewrite map_size_insert_None by done. lia.
Qed.

Lemma command_type_wf command : cmd_wf (command_type command).
Proof. unfold command_type. repeat case_match; enum_wf. Qed.

Lemma client_command_safely env c input :
  logged_in (c_rt c) -> 0 <= control_fd (c_rt c) -> managed_somehow (c_mgr c) -> fresh_alloc (c_mgr c) (env_alloc env) ->
  safely (client_command_execute malloc_ok env c input) (fun x => commanded c x.1 x.2).
Proof.
  intros Hin Hfd Hm Hf.
  assert (Hstay : forall c1 r, on_line c c1 -> c_conn c1 = c_conn c -> r <> CLIENT_COMMAND_RECONNECT -> commanded c r (print c1 Notice)).
  { intros c1 r Hon Hc Hr. replace (print c1 Notice) with (print (set_c_mgr c1 (c_mgr c1)) Notice) by (by destruct c1).
    apply commanded_print; try done; [apply Hon | by apply (due_neutral (set_c_mgr c1 (c_mgr c1)))]. }
  unfold client_command_execute. destruct (next_word input 16) as [[command cursor] |]; [| by split].
  destruct (_ || _); [by split |]. destruct (_ || _); [by apply (Hstay c CLIENT_COMMAND_OK) |].
  apply safely_bind. eapply safely_mono; [| by apply is_alive_safe]. intros [alive c1] (Hon & Hc & Hmg). cbn in Hon, Hc, Hmg.
  destruct (negb alive).
  { destruct (settles_lost c c1 Hfd Hon) as (Hl & Hcl & Hm' & Hd). split; [exact Hl | by rewrite Hcl, Hc | exact Hm' | exact Hd]. }
  destruct (strcaseeq command (lit "puts")); [by apply transfer_command_safe |].
  destruct (strcaseeq command (lit "gets")); [by apply transfer_command_safe |]. cbn zeta.
  destruct (_ && _ && _ && _); [by apply (Hstay c1 CLIENT_COMMAND_ERROR) |].
  destruct (needs_argument _ && _); [by apply (Hstay c1 CLIENT_COMMAND_ERROR) |].
  destruct Hon as (Hrt & Hcl & Hop & _ & Hd). eapply safely_mono; [| apply (short_command_safe c1); [by rewrite Hrt | by rewrite Hrt | by rewrite Hmg | apply command_type_wf]].
  intros [r c'] [H1 H2 H3 H4]. cbn [fst snd] in H1, H2, H3, H4. split; cbn [fst snd]; [| by rewrite H2, Hc | done | congruence].
  unfold lost, same_session in *. by rewrite Hrt, Hcl, Hop in H1.
Qed.

(** (C33) Safety of the client's command line: for any input line, any bytes from the
    server and any answers of the kernel, a command of a logged-in client is never
    undefined and frees the packet it received; it asks to reconnect exactly when it
    has closed the control connection once and cleared the session, and otherwise
    keeps the connection, the session and the user, with a directory that fits; the
    transfer manager stays well formed, and the user is told of a new transfer exactly
    when one event more is to come. *)
Theorem client_command_safe env c input :
  logged_in (c_rt c) -> 0 <= control_fd (c_rt c) -> managed_somehow (c_mgr c) -> fresh_alloc (c_mgr c) (env_alloc env) ->
  client_command_execute malloc_ok env c input <> Undef /\
  forall r c', client_command_execute malloc_ok env c input = Ret (r, c') -> commanded c r c'.
Proof.
  intros Hin Hfd Hm Hf. pose proof (client_command_safely env c input Hin Hfd Hm Hf) as Hsafe.
  destruct (client_command_execute _ _ _ _) as [[r c'] | |]; [| done | done]. split; [done |]. by intros ? ? [= <- <-].
Qed.
End safety.

(** ** Credentials *)

Lemma drop_while_none p l : Forall (fun b => p b = false) l -> drop_while p l = l.
Proof. destruct l as [| b l]; [done |]. inversion_clear 1 as [| ? ? Hb _]. cbn. by rewrite Hb. Qed.

Lemma not_in_delim d (w : list byte) : (d ∉ w) -> Forall (fun b => bool_decide (b = d) = false) w /\ Forall (fun b => bool_decide (b <> d) = true) w.
Proof.
  intros Hd. split; apply Forall_forall; intros b Hb;
    [apply bool_decide_eq_false_2 | apply bool_decide_eq_true_2]; by intros ->.
Qed.

Lemma strtok_word d w : w <> [] -> (d ∉ w) -> (forall rest, strtok d (w ++ d :: rest) = Some (w, rest)) /\ strtok d w = Some (w, []).
Proof.
  intros Hne Hd. destruct (not_in_delim d w Hd) as [H1 H2]. unfold strtok.
  assert (Hhead : forall rest, drop_while (fun b => bool_decide (b = d)) (w ++ rest) = w ++ rest).
  { intros rest. destruct w as [| b w]; [done |]. inversion_clear H1 as [| ? ? Hb _]. cbn. by rewrite Hb. }
  split.
  - intros rest. rewrite Hhead. destruct w as [| b w]; [done |]. cbn [app].
    change (b :: w ++ d :: rest) with ((b :: w) ++ d :: rest). rewrite take_while_app by done. cbn [take_while].
    rewrite (bool_decide_eq_false_2 (d <> d)) by (intros Hx; by apply Hx). rewrite app_nil_r. f_equal. f_equal.
    change (S (length (b :: w))) with (1 + length (b :: w))%nat.
    rewrite Nat.add_comm, <- drop_drop, drop_app_length. done.
  - specialize (Hhead []). rewrite app_nil_r in Hhead. rewrite Hhead. destruct w as [| b w]; [done |].
    rewrite take_while_all by done. by rewrite drop_ge by (cbn; lia).
Qed.

(** A text without NUL or newline *)
Definition one_line (l : list byte) : Prop := (NUL ∉ l) /\ (NEWLINE ∉ l).

Lemma strchr_None_notin c s : strchr c s = None -> c ∉ s.
Proof.
  induction s as [| b s IH]; cbn; [intros _; apply not_elem_of_nil |]. case_bool_decide; [done |].
  destruct (strchr c s); [done |]. intros _. apply not_elem_of_cons. split; [done | by apply IH].
Qed.

Lemma strchr_Some_before c s i : strchr c s = Some i -> (c ∉ take i s) /\ (i < length s)%nat.
Proof.
  revert i. induction s as [| b s IH]; cbn; intros i; [done |]. case_bool_decide as Hb.
  - intros [= <-]. split; [apply not_elem_of_nil | lia].
  - destruct (strchr c s) as [j |]; [| done]. intros [= <-]. destruct (IH j eq_refl). cbn. split; [| lia].
    apply not_elem_of_cons. done.
Qed.

Lemma fgets_loop_length room : forall input acc, (length (fst (fgets_loop room input acc)) <= length acc + room)%nat.
Proof.
  induction room as [| room IH]; intros input acc; cbn; [lia |]. destruct input as [| b input]; cbn; [lia |].
  case_bool_decide; cbn; [rewrite length_app; cbn; lia |]. specialize (IH input (acc ++ [b])). rewrite length_app in IH. cbn in IH. lia.
Qed.

Lemma take_cstr (l : list byte) i : (i <= length (cstr l))%nat -> take i l = take i (cstr l).
Proof.
  revert i. induction l as [| b l IH]; intros i Hi; [by destruct i |]. unfold cstr in *. cbn in *.
  destruct (bool_decide (b <> NUL)); cbn in *; [| by replace i with 0%nat by lia].
  destruct i as [| i]; [done |]. cbn. f_equal. apply IH. lia.
Qed.

Lemma s_gets_text size input l rest : 1 <= size -> s_gets size input = Some (l, rest) -> one_line l /\ Z.of_nat (length l) < size.
Proof.
  intros Hsz. unfold s_gets, s_fgets, fgets. destruct input as [| b0 input]; [done |].
  pose proof (fgets_loop_length (Z.to_nat (size - 1)) (b0 :: input) []) as Hlen.
  destruct (fgets_loop _ _ _) as [buf rest']. cbn [fst length] in Hlen. cbn [mbind option_bind].
  assert (Hc : (length (cstr buf) <= length buf)%nat) by apply length_take_while.
  pose proof (cstr_is_cstr buf) as Hnul. destruct (strchr NEWLINE (cstr buf)) as [i |] eqn:Ei; intros [= <- <-].
  - destruct (strchr_Some_before _ _ _ Ei) as [Hn Hi]. rewrite take_cstr by lia. split; [split; [| done] |].
    + intros Hin. apply Hnul. by apply elem_of_take in Hin as (j & Hj & _); apply list_elem_of_lookup_2 in Hj.
    + rewrite length_take. lia.
  - split; [split; [done | by apply strchr_None_notin] | lia].
Qed.

Lemma read_password_text size input : forall buf,
  (NEWLINE ∉ buf) -> Z.of_nat (length buf) < size ->
  (NEWLINE ∉ (fst (fst (read_password_loop size input buf)))) /\ Z.of_nat (length (fst (fst (read_password_loop size input buf)))) < size.
Proof.
  induction input as [| ch input IH]; intros buf Hn Hl; cbn; [done |]. case_bool_decide as Hch; [done |].
  destruct (_ || _).
  - apply IH; [| rewrite length_take; lia]. intros Hin. apply Hn. apply elem_of_take in Hin as (j & Hj & _). by apply list_elem_of_lookup_2 in Hj.
  - destruct (Z.ltb_spec (Z.of_nat (length buf) + 1) size); [| by apply IH]. apply IH; [| rewrite length_app; cbn; lia].
    rewrite elem_of_app, list_elem_of_singleton. naive_solver.
Qed.

Lemma get_password_text term_ok size c l c' : 0 < size -> get_password term_ok size c = (Some l, c') -> one_line l /\ Z.of_nat (length l) < size.
Proof.
  intros Hsz. unfold get_password, read_password. destruct (_ || _); [done |].
  destruct (read_password_text size (c_stdin c) [] (not_elem_of_nil _) Hsz) as [Hn Hl].
  destruct (read_password_loop size (c_stdin c) []) as [[buf eof] input]. cbn [fst] in Hn, Hl.
  destruct (eof && _); cbn; [done |]. intros [= <- _].
  pose proof (length_take_while (fun b => bool_decide (b <> NUL)) buf) as Hc. split; [split | unfold cstr; lia].
  - apply cstr_is_cstr.
  - intros Hin. apply Hn. rewrite <- (take_drop_while (fun b => bool_decide (b <> NUL)) buf). apply elem_of_app. by left.
Qed.

(** The credentials survive the trip: whatever a user types, the user name and
    the non-empty password that the client reads are exactly those that the server's
    handlers split from the payload that the client sends, within the server's 128
    byte buffer. *)
Theorem credentials_roundtrip term_ok c username password c' ty task :
  read_credentials term_ok c = (Some (username, password), c') -> password <> [] ->
  t_packet task = received (response ty STATUS_OK empty_session_id (Some (auth_payload username password))) ->
  copy_payload task 128 true ≫= credentials = Some (username, password).
Proof.
  intros Hread Hpw Hpk. unfold read_credentials, get_line in Hread.
  destruct (s_gets 64 (c_stdin c)) as [[u rest] |] eqn:Eg; [| done].
  destruct (s_gets_text 64 _ _ _ ltac:(lia) Eg) as [[Hu1 Hu2] Hul]. destruct u as [| b u]; [done |].
  destruct (get_password term_ok 32 (set_stdin c rest)) as [[pw |] c1] eqn:Ep; [| done].
  destruct (get_password_text _ 32 _ _ _ ltac:(lia) Ep) as [[Hp1 Hp2] Hpl]. injection Hread as <- <- _.
  set (u' := b :: u) in *.
  assert (Hpay : auth_payload u' pw = u' ++ NEWLINE :: pw).
  { unfold auth_payload, snprintf. cbn [snd]. rewrite take_ge; [done |]. rewrite !length_app. cbn [length]. lia. }
  assert (Hcopy : copy_payload task 128 true = Some (u' ++ NEWLINE :: pw)).
  { unfold copy_payload. rewrite Hpk, Hpay.
    assert (Hlen : Z.of_nat (length (u' ++ NEWLINE :: pw)) < 128) by (rewrite length_app; cbn [length]; lia).
    assert (Hne : u' ++ NEWLINE :: pw <> []) by (by unfold u').
    rewrite received_payload by done. cbn [received response header payload_len].
    assert (Hpos : 0 < Z.of_nat (length (u' ++ NEWLINE :: pw))) by (rewrite length_app; cbn [length]; lia).
    destruct (Z.leb_spec 128 (Z.of_nat (length (u' ++ NEWLINE :: pw)))); [lia |].
    destruct (Z.ltb_spec 0 (Z.of_nat (length (u' ++ NEWLINE :: pw)))); [| lia].
    destruct (Z.eqb_spec (Z.of_nat (length (u' ++ NEWLINE :: pw))) 0); [lia |].
    rewrite bool_decide_eq_false_2 by done. cbn [orb andb default]. rewrite Nat2Z.id, firstn_all. rewrite cstr_id; [done |].
    change (NUL ∉ u' ++ NEWLINE :: pw). by rewrite not_elem_of_app, not_elem_of_cons. }
  rewrite Hcopy. cbn [mbind option_bind]. unfold credentials.
  destruct (strtok_word NEWLINE u') as [-> _]; [done | done |]. by destruct (strtok_word NEWLINE pw) as [_ ->].
Qed.

(** ** The working directory *)

Section agreement.
Context `{Host} {M : MySQL} {Spec : MySQLSpec M} {Stored : MySQLStored M Spec} (env : handler_env) (malloc_ok : Z -> bool).
Context (Hmalloc : forall n, malloc_ok n = true).

(** A short command on a connection that delivers the answer [p] *)
Lemma short_command_flow c ty argument p room :
  logged_in (c_rt c) -> cmd_wf ty -> Z.of_nat (length argument) <= MAX_PACKET_PAYLOAD -> packet_wf p ->
  let request := response ty STATUS_OK (rt_session_id (c_rt c)) (Some argument) in
  channel [] (wire_packet p) (length (wire_packet request) + room) (c_conn c) ->
  exists s, sent s = wire_packet request /\
    execute_short_command malloc_ok c ty argument =
      ('(r, c1) ← handle_answer (set_conn c s) ty (rt_session_id (c_rt c)) (received p);
       Ret (r, set_conn c1 (snd (packet_release (c_conn c1) (received p))))).
Proof.
  intros Hin Hty Hlen Hp request Hch.
  assert (Hwf : packet_wf request).
  { apply response_wf; [done | enum_wf | by apply small_some | apply Hin]. }
  destruct (channel_send [] (wire_packet p) room (c_conn c) request Hwf Hch) as (s1 & Hs1 & Hch1).
  rewrite <- (app_nil_r (wire_packet p)) in Hch1.
  destruct (channel_recv malloc_ok _ _ _ s1 p Hp (Hmalloc _) Hch1) as (s2 & Hs2 & [Hsent _ _ _ _]).
  exists s2. split; [done |]. unfold execute_short_command.
  destruct (snapshot_ok (c_rt c)) as [[_ ->] | [Ho _]]; [by right | |].
  2: { destruct Hin as [Hne _], Ho as [He _]. by rewrite He in Hne. }
  unfold packet_init. pose proof (packet_wf_guard request Hwf) as Hg. cbn [request response header payload_len payload] in Hg.
  rewrite Hg. change {| header := _; payload := Some argument; owns_payload := false |} with request.
  rewrite Hs1. cbn [mbind outcome_bind Z.eqb negb c_conn set_conn]. rewrite Hs2. cbn [mbind outcome_bind Z.eqb negb]. done.
Qed.

(** An answer with the text [path] *)
Lemma answer_text ty st sid pl : packet_wf (response ty st sid pl) -> (forall l, pl = Some l -> NUL ∉ l) ->
  exists bytes, (if 0 <? payload_len (header (received (response ty st sid pl)))
                 then deref (payload (received (response ty st sid pl))) else Ret []) = Ret bytes /\
    cstr (take (Z.to_nat (payload_len (header (received (response ty st sid pl))))) bytes) = default [] pl.
Proof.
  intros Hwf Hnul. destruct pl as [l |]; cbn [received response header payload_len payload]; [| by exists []].
  destruct (Z.ltb_spec 0 (Z.of_nat (length l))).
  - destruct (Z.eqb_spec (Z.of_nat (length l)) 0); [lia |]. exists l. split; [done |]. rewrite Nat2Z.id, firstn_all.
    apply cstr_id. by apply Hnul.
  - exists []. split; [done |]. destruct l; [done | cbn [length] in *; lia].
Qed.

(** The server reads the argument that the client sent. *)
Lemma copied_argument task ty sid argument :
  Z.of_nat (length argument) < PATH_MAX -> (NUL ∉ argument) ->
  t_packet task = received (response ty STATUS_OK sid (Some argument)) -> copy_payload task PATH_MAX false = Some argument.
Proof.
  intros Hlen Hnul Hpk. unfold copy_payload. rewrite Hpk. cbn [received response header payload_len payload].
  destruct (Z.leb_spec PATH_MAX (Z.of_nat (length argument))); [lia |].
  destruct (Z.ltb_spec 0 (Z.of_nat (length argument))).
  - destruct (Z.eqb_spec (Z.of_nat (length argument)) 0); [lia |]. cbn [orb andb default].
    rewrite bool_decide_eq_false_2 by done. rewrite Nat2Z.id, firstn_all. cbn. by rewrite cstr_id.
  - destruct argument; [done | cbn [length] in *; lia].
Qed.

Lemma cd_path_nonempty cwd text : cd_path cwd text <> [].
Proof. unfold cd_path. destruct text; [done |]. unfold render. by destruct (destination _ _). Qed.

(** What the cases of [handle_cd_spec] have in common *)
Lemma cd_outcome (t : tables) A A' task path sid ty st pl x :
  session_id_wf sid -> session_id_of (header (t_packet task)) = sid -> live A !! sid = Some x ->
  (length path <= 768)%nat -> (NUL ∉ path) ->
  match find_node same_text t (ctx_user_id (t_session task)) path with
  | None => ty = CMD_ERROR /\ st = STATUS_DIR_NOTEXIST /\ pl = Some path /\ A' = A
  | Some (id, r) =>
      if p_type r =? 0 then ty = CMD_ERROR /\ st = STATUS_NOT_DIR /\ pl = Some path /\ A' = A
      else match chdir A task id path (cwd_clock env) with
           | None => ty = CMD_ERROR /\ st = STATUS_OTHER_ERROR /\ pl = None /\ A' = A
           | Some A1 => ty = CMD_ACK /\ st = STATUS_OK /\ pl = Some path /\ A' = A1
           end
  end ->
  packet_wf (response ty st sid pl) /\ (forall l, pl = Some l -> NUL ∉ l) /\
    ((ty = CMD_ACK /\ st = STATUS_OK /\ pl = Some path /\ exists x', live A' !! sid = Some x' /\ as_cwd x' = path) \/
     (ty = CMD_ERROR /\ st <> STATUS_UNAUTHORIZED /\ A' = A)).
Proof.
  intros Hsid Hid Hx Hl Hn Hcase.
  assert (Hpath : forall ty st, cmd_wf ty -> status_wf st -> packet_wf (response ty st sid (Some path)) /\ (forall l, Some path = Some l -> NUL ∉ l)).
  { intros ty' st' Hty Hst. split; [| by intros l [= <-]]. apply response_wf; [done | done | | done]. apply small_some.
    unfold MAX_PACKET_PAYLOAD. lia. }
  destruct (find_node same_text t (ctx_user_id (t_session task)) path) as [[id r] |].
  2: { destruct Hcase as (-> & -> & -> & ->). destruct (Hpath CMD_ERROR STATUS_DIR_NOTEXIST) as [? ?]; [enum_wf | enum_wf |]. auto 7. }
  destruct (p_type r =? 0).
  { destruct Hcase as (-> & -> & -> & ->). destruct (Hpath CMD_ERROR STATUS_NOT_DIR) as [? ?]; [enum_wf | enum_wf |]. auto 7. }
  destruct (chdir A task id path (cwd_clock env)) as [A1 |] eqn:Ech.
  - destruct Hcase as (-> & -> & -> & ->). destruct (Hpath CMD_ACK STATUS_OK) as [? ?]; [enum_wf | enum_wf |].
    split_and!; [done | done |]. left. split_and!; try done. unfold chdir in Ech. destruct (cwd_clock env) as [now |]; [| done].
    cbn in Ech. destruct (_ || _); [done |]. unfold spec_update_cwd in Ech. rewrite Hid, Hx in Ech. cbn in Ech.
    destruct (bool_decide _); [| done]. injection Ech as <-. cbn. rewrite lookup_insert_eq. by eexists.
  - destruct Hcase as (-> & -> & -> & ->). split_and!; [| done | by right]. apply response_wf; [enum_wf | enum_wf | apply small_none | done].
Qed.

(** (C34) The client and the server agree on the working directory: when the session
    of a logged-in client has on the server the directory that the client shows, then
    after any [cd] to a short plain path that the client sends and the server
    handles, whether it succeeds, fails or meets a database error, they show the
    same directory again; when the client reports success it is the one the
    argument resolves to. *)
Theorem cd_agreement p t A task x argument s c :
  at_rest p t s -> rep (h_sessions s) A -> is_u64 (ctx_user_id (t_session task)) ->
  logged_in (c_rt c) -> Z.of_nat (length argument) < PATH_MAX -> (NUL ∉ argument) ->
  t_packet task = received (response CMD_CD STATUS_OK (rt_session_id (c_rt c)) (Some argument)) ->
  live A !! rt_session_id (c_rt c) = Some x -> t_session task = as_context x -> as_cwd x = rt_remote_cwd (c_rt c) ->
  reachable_path (as_cwd x) argument ->
  exists s' answer, handle_cd env task s = Ret (tt, s') /\ h_sent s' = h_sent s ++ [answer] /\
    forall room, channel [] (wire_packet answer)
        (length (wire_packet (response CMD_CD STATUS_OK (rt_session_id (c_rt c)) (Some argument))) + room) (c_conn c) ->
      exists r c' A' x', execute_short_command malloc_ok c CMD_CD argument = Ret (r, c') /\
        rep (h_sessions s') A' /\ live A' !! rt_session_id (c_rt c) = Some x' /\ as_cwd x' = rt_remote_cwd (c_rt c') /\
        (r = CLIENT_COMMAND_OK -> as_cwd x' = cd_path (as_cwd x) argument).
Proof.
  pose (never_up M Spec) as Up. intros Hrest HA Huid Hin Hlen Hnul Hpk Hx Hctx Hcwd Hpath.
  set (sid := rt_session_id (c_rt c)) in *. pose proof Hin as (Hne & Hsid & _).
  assert (Hid : session_id_of (header (t_packet task)) = sid) by (by rewrite Hpk).
  assert (Hcopy : copy_payload task PATH_MAX false = Some argument) by (by apply (copied_argument task CMD_CD sid)).
  assert (Hc : ctx_cwd (t_session task) = as_cwd x) by (by rewrite Hctx).
  destruct (handle_cd_spec env p t A task argument s) as ([] & s' & Hret & ty & st & pl & A' & Hsent & _ & _ & HA' & Hcase);
    [done | done | by rewrite Hid | done | done | by rewrite Hc |].
  rewrite Hid in Hsent. rewrite Hc in Hcase. exists s', (response ty st sid pl). split; [done |]. split; [done |].
  set (path := cd_path (as_cwd x) argument) in *. destruct Hpath as (_ & Hl768 & Hplain). fold path in Hl768, Hplain.
  assert (Hnp : NUL ∉ path).
  { intros Hin'. pose proof (proj1 (Forall_forall _ path) Hplain NUL Hin') as Hb. by vm_compute in Hb. }
  (* either the directory has moved to [path] on both sides, or on neither *)
  assert (Hout : packet_wf (response ty st sid pl) /\ (forall l, pl = Some l -> NUL ∉ l) /\
    ((ty = CMD_ACK /\ st = STATUS_OK /\ pl = Some path /\ exists x', live A' !! sid = Some x' /\ as_cwd x' = path) \/
     (ty = CMD_ERROR /\ st <> STATUS_UNAUTHORIZED /\ A' = A))).
  { destruct Hcase as [Hcase | (-> & -> & -> & -> & _)]; [by apply (cd_outcome t A A' task path sid ty st pl x) |].
    split_and!; [| done | by right]. apply response_wf; [enum_wf | enum_wf | apply small_none | done]. }
  destruct Hout as (Hwf & Hnl & Hout). intros room Hch.
  destruct (short_command_flow c CMD_CD argument (response ty st sid pl) room Hin ltac:(enum_wf)
    ltac:(unfold MAX_PACKET_PAYLOAD, PATH_MAX in *; lia) Hwf Hch) as (s2 & _ & Hexec).
  rewrite Hexec. clear Hexec. fold sid.
  destruct (answer_text ty st sid pl Hwf Hnl) as (bytes & Hbytes & Htext). unfold handle_answer.
  rewrite Hbytes. cbn [received response header session_id_of type status].
  replace (session_id_equal sid sid) with true by (unfold session_id_equal; by rewrite bool_decide_eq_true_2). cbn [negb].
  destruct Hwf as [(_ & _ & Hmax & _) _]. cbn [response header payload_len] in Hmax, Htext |- *.
  destruct (Z.leb_spec (MAX_PACKET_PAYLOAD + 1) (match pl with Some l => Z.of_nat (length l) | None => 0 end)); [lia |].
  cbn [mbind outcome_bind] in Htext |- *. cbn [received response header payload_len] in Htext. rewrite Htext.
  destruct Hout as [(-> & -> & -> & x' & Hx' & Hcwd') | (-> & Hst & ->)].
  - cbn [default]. destruct path as [| b path'] eqn:Ep; [by destruct (cd_path_nonempty (as_cwd x) argument) |].
    destruct (client_runtime_update_cwd (c_rt c) (b :: path')) as [rt |] eqn:Eu.
    2: { exfalso. revert Eu. unfold client_runtime_update_cwd, strnlen, PATH_MAX. rewrite Hne.
         cbn [length] in Hl768 |- *. destruct (Z.eqb_spec (Z.min (Z.of_nat (S (length path'))) 4096) 0); [lia |].
         destruct (Z.eqb_spec (Z.min (Z.of_nat (S (length path'))) 4096) 4096); [lia |]. done. }
    destruct (update_cwd_logged_in _ _ _ Hin Eu) as (_ & Hrc & _). cbn. rewrite Eu. cbn. eexists _, _, A', x'.
    split_and!; [done | done | done | cbn; congruence | done].
  - rewrite (bool_decide_eq_false_2 (CMD_ERROR <> CMD_ERROR)) by (intros Hx'; by apply Hx').
    rewrite andb_false_r, (bool_decide_eq_true_2 (CMD_ERROR = CMD_ERROR)), (bool_decide_eq_false_2 (st = STATUS_UNAUTHORIZED)) by done.
    cbn. eexists _, _, A, x. split_and!; [done | done | done | done | done].
Qed.
End agreement.

(** ** Where downloads go *)

Lemma strip_no_slash s b : b <> SLASH -> strip_slashes (s ++ [b]) = s ++ [b].
Proof.
  intros Hb. unfold strip_slashes. rewrite rev_app_distr. cbn. rewrite bool_decide_eq_false_2 by done.
  cbn. by rewrite rev_involutive.
Qed.

Lemma basename_render dir name : good_name name -> basename (render (dir ++ [name])) = name.
Proof.
  intros (Hne & Hs & _). rewrite render_snoc. unfold basename.
  assert (Hstrip : strip_slashes (flat dir ++ SLASH :: name) = flat dir ++ SLASH :: name).
  { destruct name as [| b name _] using rev_ind; [done |]. change (SLASH :: name ++ [b]) with ((SLASH :: name) ++ [b]).
    rewrite app_assoc. apply strip_no_slash. intros ->. apply Hs. apply elem_of_app. right. by left. }
  rewrite Hstrip. destruct (flat dir ++ SLASH :: name) as [| c rest] eqn:E; [by destruct (flat dir) |].
  rewrite <- E, strrchr_app by done. change (S (length (flat dir))) with (1 + length (flat dir))%nat.
  rewrite Nat.add_comm, <- drop_drop, drop_app_length. done.
Qed.

(** The file [name] of the directory [dir] *)
Definition beneath (dir name : list byte) : list byte :=
  match last dir with
  | None => name
  | Some c => if bool_decide (c = SLASH) then dir ++ name else dir ++ [SLASH] ++ name
  end.

Lemma join_path_beneath size dir name r : 0 < size -> head name <> Some SLASH -> join_path size dir name = Some r -> r = beneath dir name.
Proof.
  intros Hsz Hh Hj.
  assert (Ht : join_path size dir name = let '(n, dst) := snprintf size (beneath dir name) in if size <=? n then None else Some dst).
  { unfold join_path, beneath. destruct name as [| b name]; [done |]. rewrite bool_decide_eq_false_2; [done |]. intros ->. by apply Hh. }
  rewrite Ht in Hj. unfold snprintf in Hj. destruct (Z.leb_spec size (Z.of_nat (length (beneath dir name)))); [done |].
  rewrite take_ge in Hj by lia. congruence.
Qed.

(** (C35) Downloads are confined: whatever remote path the user names, the file that
    [gets] asks for has a canonical path, the target is the file of that name
    directly in the download directory, with a name that has no slash and is not [.]
    or [..], and the part file is beside it; only for the remote root itself, which
    is no file, is the target the local root. *)
Theorem download_confined rt path t0 t shown_path :
  prepare_download rt path t0 = Ret (Some (t, shown_path)) ->
  shown_path = k_target_path (a_body t) /\ k_part_path (a_body t) = k_target_path (a_body t) ++ lit ".part" /\
  Z.of_nat (length (k_part_path (a_body t))) < PATH_MAX /\ canonical (k_remote_path (a_body t)) /\
  (k_remote_path (a_body t) = [SLASH] /\ k_target_path (a_body t) = [SLASH] \/
   exists dir name, k_remote_path (a_body t) = render (dir ++ [name]) /\ good_name name /\
     k_target_path (a_body t) = beneath (rt_download_dir rt) name).
Proof.
  unfold prepare_download. destruct (snapshot_task rt t0) as [t1 |]; [| done].
  destruct (copy_string PATH_MAX (rt_download_dir rt)) as [ddir |] eqn:Ed; [| done].
  assert (ddir = rt_download_dir rt) as -> by (unfold copy_string in Ed; destruct (_ <=? _); congruence).
  rewrite normalize_cd_path_text by (unfold PATH_MAX; lia). cbn [mbind outcome_bind]. cbn zeta.
  set (dir := resolve [] (components (path_text _ path))).
  assert (Hgood : Forall good_name dir) by (apply resolve_good; [apply components_good | constructor]).
  destruct (PATH_MAX <=? _); [done |]. destruct (PATH_MAX <? _); [done |].
  destruct (utils_get_base_name (render dir) NAME_MAX) as [base |] eqn:Eb; [| done].
  assert (Hbase : base = basename (render dir)).
  { unfold utils_get_base_name in Eb. repeat (destruct (_ : bool) in Eb; [done |]). cbn zeta in Eb.
    repeat match type of Eb with context [if ?x then _ else _] => destruct x; [done |] end. congruence. }
  destruct (join_path PATH_MAX (rt_download_dir rt) base) as [target |] eqn:Ej; [| done].
  destruct (Z.ltb_spec PATH_MAX (Z.of_nat (length target) + 6)) as [| Hlen]; [done |].
  destruct (copy_string PATH_MAX target) as [p |] eqn:Ec; [| done]. cbn. intros [= <- <-].
  assert (p = target) as -> by (unfold copy_string in Ec; destruct (_ <=? _); congruence). cbn.
  split_and!; [done | done | rewrite length_app; cbn [length]; lia | by exists dir |].
  unfold join_path in Ej. destruct dir as [| name dir' _] using rev_ind.
  - left. split; [done |]. assert (base = [SLASH]) as -> by (rewrite Hbase; reflexivity).
    rewrite bool_decide_eq_true_2 in Ej by done. unfold snprintf in Ej. vm_compute in Ej. by injection Ej.
  - right. apply Forall_app in Hgood as [_ Hg]. inversion_clear Hg as [| ? ? Hname _]. exists dir', name. split_and!; [done | done |].
    rewrite basename_render in Hbase by done. subst base.
    apply (join_path_beneath PATH_MAX); [by unfold PATH_MAX | | done]. destruct name as [| b name]; [done |].
    intros [= ->]. apply (proj1 (proj2 Hname)). by left.
Qed.

(** ** A concrete client: alice in her root directory, [cd docs] *)

Definition demo_answer : packet := response CMD_ACK STATUS_OK demo_id (Some (lit "/docs")).

Definition demo_alice : client := {|
  c_rt := set_session demo_runtime demo_id (lit "alice") [SLASH];
  c_conn := demo_socket (wire_packet demo_answer); c_mgr := demo_manager; c_peeks := [PeekEintr; PeekAgain];
  c_stdin := lit "bob
secret
"; c_screen := []; c_opened_fds := []; c_closed_fds := [] |}.

Definition demo_submit : submit_env := {| env_home := None; env_alloc := (Some 1%N, Some 2%N); env_spawned := true |}.

Lemma demo_alice_in : logged_in (c_rt demo_alice).
Proof. split; [reflexivity |]. split; [reflexivity |]. split; by vm_compute. Qed.

Lemma demo_manager_managed : managed_somehow demo_manager.
Proof.
  exists [], []. exact (ti_managed _ _ _ _ (initial_inv demo_manager 2 ltac:(by vm_compute) eq_refl)).
Qed.

Lemma client_command_safe_witness :
  exists c', client_command_execute (H := false) (fun _ => true) demo_submit demo_alice (lit " CD  docs") = Ret (CLIENT_COMMAND_OK, c') /\
    commanded demo_alice CLIENT_COMMAND_OK c' /\ rt_remote_cwd (c_rt c') = lit "/docs".
Proof.
  destruct (client_command_safe (H := false) (fun _ => true) demo_submit demo_alice (lit " CD  docs")) as [_ Hall].
  - exact demo_alice_in.
  - by vm_compute.
  - exact demo_manager_managed.
  - split; intros x [= <-]; by split.
  - eexists. split; [vm_compute; reflexivity |]. split; [apply Hall; vm_compute; reflexivity | vm_compute; reflexivity].
Defined.

Lemma credentials_roundtrip_witness :
  copy_payload (demo_task CMD_LOGIN_REQ (lit "bob
secret")) 128 true ≫= credentials = Some (lit "bob", lit "secret").
Proof.
  eapply (credentials_roundtrip true demo_alice (lit "bob") (lit "secret") _ CMD_LOGIN_REQ
    {| t_client_fd := 5; t_epoll_fd := 3;
       t_packet := received (response CMD_LOGIN_REQ STATUS_OK empty_session_id (Some (auth_payload (lit "bob") (lit "secret"))));
       t_session := t_session (demo_task CMD_LOGIN_REQ []); t_storage_root := [] |}).
  - vm_compute; reflexivity.
  - done.
  - reflexivity.
Defined.

(** The session of alice on the server *)
Definition demo_alice_create : outcome (option session_id * session_table) :=
  session_create demo_empty (Some (8%N, 16%N)) 5 1 (lit "alice") 2 [RandomBytes demo_id] demo_clock.
Definition demo_alice_table : session_table := state_after demo_alice_create demo_empty.

Lemma demo_alice_rep : exists A x, rep demo_alice_table A /\ live A !! demo_id = Some x /\
  as_context x = t_session (demo_task CMD_CD (lit "docs")).
Proof.
  destruct (session_create_rep demo_empty empty_spec (Some (8%N, 16%N)) 5 1 (lit "alice") 2
    [RandomBytes demo_id] demo_clock demo_empty_rep) as [_ Hc]; [by vm_compute | |].
  { intros ? ? [= <- <-]. exact demo_fresh. }
  assert (Hcr : demo_alice_create = Ret (Some demo_id, demo_alice_table)) by (vm_compute; reflexivity).
  destruct (Hc _ _ Hcr) as (now & _ & _ & _ & _ & Hr). eexists _, _. split; [exact Hr |].
  cbn [live spec_create]. rewrite lookup_insert_eq. split; reflexivity.
Qed.

Lemma cd_agreement_witness :
  exists s' c', handle_cd demo_env (demo_task CMD_CD (lit "docs")) (demo_handler demo_tables3 demo_alice_table) = Ret (tt, s') /\
    execute_short_command (H := false) (fun _ => true) demo_alice CMD_CD (lit "docs") = Ret (CLIENT_COMMAND_OK, c') /\
    rt_remote_cwd (c_rt c') = lit "/docs".
Proof.
  destruct demo_alice_rep as (A & x & HA & Hx & Hctx).
  assert (Hcwd : as_cwd x = [SLASH]) by exact (f_equal ctx_cwd Hctx).
  destruct (@cd_agreement false demo_mysql demo_spec demo_results demo_env (fun _ => true) (fun _ => eq_refl)
    demo_pool demo_tables3 A (demo_task CMD_CD (lit "docs")) x (lit "docs") (demo_handler demo_tables3 demo_alice_table) demo_alice)
    as (s' & answer & Hret & Hsent & Hall).
  - apply demo_rest3.
  - exact HA.
  - by vm_compute.
  - exact demo_alice_in.
  - by vm_compute.
  - apply (bool_decide_unpack _). vm_compute. exact I.
  - reflexivity.
  - exact Hx.
  - symmetry. exact Hctx.
  - rewrite Hcwd. reflexivity.
  - rewrite Hcwd. split_and!; [by vm_compute | vm_compute; lia | apply (bool_decide_unpack _); vm_compute; exact I].
  - assert (Hv : h_sent (state_after (handle_cd demo_env (demo_task CMD_CD (lit "docs")) (demo_handler demo_tables3 demo_alice_table))
      (demo_handler demo_tables3 demo_alice_table)) = [demo_answer]) by (vm_compute; reflexivity).
    rewrite Hret in Hv. cbn [state_after] in Hv. rewrite Hsent in Hv. injection Hv as ->.
    destruct (Hall 0%nat) as (r & c' & A' & x' & Hexec & _ & _ & Hsame & Hok).
    + apply demo_channel; [done |]. vm_compute. lia.
    + assert (Hr : value (execute_short_command (H := false) (fun _ => true) demo_alice CMD_CD (lit "docs")) = Some CLIENT_COMMAND_OK)
        by (vm_compute; reflexivity).
      rewrite Hexec in Hr. injection Hr as ->. exists s', c'. split; [exact Hret |]. split; [exact Hexec |].
      rewrite <- Hsame, (Hok eq_refl), Hcwd. vm_compute. reflexivity.
Defined.

Lemma download_confined_witness :
  exists t, prepare_download demo_runtime (lit "../docs/./new.txt") (blank_task TRANSFER_DOWNLOAD 2%N) =
      Ret (Some (t, lit "/home/alice/downloads/new.txt")) /\
    k_part_path (a_body t) = k_target_path (a_body t) ++ lit ".part".
Proof.
  eexists. split; [vm_compute; reflexivity |].
  eapply (download_confined demo_runtime (lit "../docs/./new.txt") (blank_task TRANSFER_DOWNLOAD 2%N)). vm_compute. reflexivity.
Defined.
