(* ===== verification/Ini.v ===== *)
(** * The INI reader ([third_party/inih/ini.c])

    [ini_parse] as both programs use it, with the options of [ini.h] at their
    defaults: lines of at most 199 bytes on the stack, continuation lines, a byte
    order mark, and comments that start with [;] after a blank.  A handler gets each
    [name = value] with its section and says whether it accepts it. *)

From Stdlib Require Import Strings.Byte.
From S2P Require Import Prelude CString Utils.

Definition MAX_SECTION : Z := 50.
Definition MAX_NAME : Z := 50.
Definition INI_MAX_LINE : Z := 200.
Definition ABYSS_SIZE : Z := 16.

Definition SEMICOLON : byte := x3b.
Definition HASH : byte := x23.
Definition LBRACKET : byte := x5b.
Definition RBRACKET : byte := x5d.
Definition EQUALS : byte := x3d.
Definition COLON : byte := x3a.
Definition BOM : list byte := [xef; xbb; xbf].

Definition ini_rstrip (s : list byte) : list byte := rev (drop_while isspace (rev s)).
Definition ini_lskip (s : list byte) : list byte := drop_while isspace s.

(** Where a character of [chars] or a comment starts, or the end of the string;
    [[]] stands for NULL too, since no byte of the string is its terminator. *)
Fixpoint find_from (was_space : bool) (chars s : list byte) : nat :=
  match s with
  | [] => O
  | b :: s =>
      if bool_decide (b ∈ chars) || (was_space && bool_decide (b = SEMICOLON)) then O
      else S (find_from (isspace b) chars s)
  end.
Definition ini_find_chars_or_comment (s chars : list byte) : nat := find_from false chars s.

Definition ini_strncpy0 (size : Z) (src : list byte) : list byte := take (Z.to_nat (size - 1)) src.

(** The local variables that one line leaves to the next, and the handler's data *)
Record ini_state (U : Type) := {
  ini_section : list byte;
  ini_prev_name : list byte;
  ini_lineno : Z;
  ini_error : Z;
  ini_user : U
}.
Arguments ini_section {U}. Arguments ini_prev_name {U}. Arguments ini_lineno {U}. Arguments ini_error {U}. Arguments ini_user {U}.

Definition ini_initial {U} (user : U) : ini_state U :=
  {| ini_section := []; ini_prev_name := []; ini_lineno := 0; ini_error := 0; ini_user := user |}.

(** [if (!error) error = lineno] *)
Definition note_error {U} (st : ini_state U) : ini_state U :=
  {| ini_section := ini_section st; ini_prev_name := ini_prev_name st; ini_lineno := ini_lineno st;
     ini_error := if ini_error st =? 0 then ini_lineno st else ini_error st; ini_user := ini_user st |}.
Definition next_line {U} (st : ini_state U) : ini_state U :=
  {| ini_section := ini_section st; ini_prev_name := ini_prev_name st; ini_lineno := ini_lineno st + 1;
     ini_error := ini_error st; ini_user := ini_user st |}.
Definition set_ini_section {U} (s : list byte) (st : ini_state U) : ini_state U :=
  {| ini_section := s; ini_prev_name := []; ini_lineno := ini_lineno st; ini_error := ini_error st; ini_user := ini_user st |}.
Definition set_prev_name {U} (n : list byte) (st : ini_state U) : ini_state U :=
  {| ini_section := ini_section st; ini_prev_name := n; ini_lineno := ini_lineno st; ini_error := ini_error st;
     ini_user := ini_user st |}.
Definition set_ini_user {U} (u : U) (st : ini_state U) : ini_state U :=
  {| ini_section := ini_section st; ini_prev_name := ini_prev_name st; ini_lineno := ini_lineno st; ini_error := ini_error st;
     ini_user := u |}.

Definition ini_reader : Type := Z -> list byte -> option (list byte * list byte).

Section parser.
(** [handler user section name value]: whether it returns non-zero, and the data *)
Context {U : Type} (handler : U -> list byte -> list byte -> list byte -> bool * U).

Definition call_handler (st : ini_state U) (name value : list byte) : ini_state U :=
  let (ok, u) := handler (ini_user st) (ini_section st) name value in
  let st := set_ini_user u st in
  if ok then st else note_error st.

(** A [name = value] line *)
Definition parse_pair (start : list byte) (st : ini_state U) : ini_state U :=
  let e := ini_find_chars_or_comment start [EQUALS; COLON] in
  match drop e start with
  | c :: rest =>
      if bool_decide (c = EQUALS) || bool_decide (c = COLON) then
        let name := ini_rstrip (take e start) in
        let value := take (ini_find_chars_or_comment rest []) rest in
        let value := ini_rstrip (ini_lskip value) in
        call_handler (set_prev_name (ini_strncpy0 MAX_NAME name) st) name value
      else note_error st
  | [] => note_error st
  end.

(** A [[section]] line after its bracket *)
Definition parse_section (rest : list byte) (st : ini_state U) : ini_state U :=
  let e := ini_find_chars_or_comment rest [RBRACKET] in
  match drop e rest with
  | c :: _ =>
      if bool_decide (c = RBRACKET) then set_ini_section (ini_strncpy0 MAX_SECTION (take e rest)) st else note_error st
  | [] => note_error st
  end.

(** The body of the loop on one line *)
Definition parse_line (line : list byte) (st : ini_state U) : ini_state U :=
  let begin := if (ini_lineno st =? 1) && bool_decide (take 3 line = BOM) then drop 3 line else line in
  let skipped := ini_lskip begin in
  let start := ini_rstrip skipped in
  match start with
  | [] => st
  | c :: rest =>
      if bool_decide (c = SEMICOLON) || bool_decide (c = HASH) then st
      else if bool_decide (ini_prev_name st <> []) && (length skipped <? length line)%nat then
        call_handler st (ini_prev_name st) (ini_rstrip (take (ini_find_chars_or_comment start []) start))
      else if bool_decide (c = LBRACKET) then parse_section rest st
      else parse_pair start st
  end.

(** The rest of a line that does not fit; [reader size stream] yields the bytes
    of at most one line and the rest of the stream. *)
Fixpoint discard_line (reader : ini_reader) (fuel : nat) (input : list byte) (st : ini_state U) : list byte * ini_state U :=
  match fuel with
  | O => (input, st)
  | S fuel =>
      match reader ABYSS_SIZE input with
      | None => (input, st)
      | Some (abyss, input) =>
          let st := note_error st in
          if bool_decide (last (cstr abyss) = Some NEWLINE) then (input, st) else discard_line reader fuel input st
      end
  end.

(** A reader consumes a byte or more, so the loops take at most as many turns as
    there are bytes. *)
Fixpoint parse_loop (reader : ini_reader) (fuel : nat) (input : list byte) (st : ini_state U) : ini_state U :=
  match fuel with
  | O => st
  | S fuel =>
      match reader INI_MAX_LINE input with
      | None => st
      | Some (buffer, input) =>
          let line := cstr buffer in
          let st := next_line st in
          let (input, st) :=
            if (Z.of_nat (length line) =? INI_MAX_LINE - 1) && bool_decide (last line <> Some NEWLINE)
            then discard_line reader (length input) input st else (input, st) in
          parse_loop reader fuel input (parse_line line st)
      end
  end.

Definition ini_parse_stream (reader : ini_reader) (input : list byte) (user : U) : Z * U :=
  let st := parse_loop reader (length input) input (ini_initial user) in
  (ini_error st, ini_user st).

(** [None] is a file that cannot be opened. *)
Definition ini_parse (file : option (list byte)) (user : U) : Z * U :=
  match file with
  | None => (-1, user)
  | Some input => ini_parse_stream fgets input user
  end.

(** The loop of [ini_reader_string] *)
Fixpoint reader_string_loop (left : list byte) (num : Z) (str : list byte) : list byte * list byte :=
  match left with
  | [] => (str, [])
  | c :: left' =>
      if 1 <? num then
        if bool_decide (c = NEWLINE) then (str ++ [c], left') else reader_string_loop left' (num - 1) (str ++ [c])
      else (str, left)
  end.

Definition ini_reader_string (num : Z) (left : list byte) : option (list byte * list byte) :=
  if bool_decide (left = []) || (num <? 2) then None else Some (reader_string_loop left num []).

(** [string] is the memory that [length] bytes are read of. *)
Definition ini_parse_string_length (string : list byte) (len : nat) (user : U) : Z * U :=
  ini_parse_stream ini_reader_string (take len string) user.

Definition ini_parse_string (string : list byte) (user : U) : Z * U :=
  ini_parse_string_length string (length (cstr string)) user.
End parser.
