(* ===== verification/IniSpec.v ===== *)
(** * What the INI reader reads

    Documents as lists of items, the text of a document, and that reading the text
    calls the handler once for each assignment, in order and with its section, and
    reports the first line that the handler refuses. *)

From Stdlib Require Import Strings.Byte.
From S2P Require Import Prelude CString Utils Ini.

(** ** Documents *)

Inductive ini_item :=
| IniBlank
| IniComment (text : list byte)
| IniSection (name : list byte)
| IniPair (name value : list byte).

Definition print_item (it : ini_item) : list byte :=
  match it with
  | IniBlank => []
  | IniComment text => HASH :: text
  | IniSection name => LBRACKET :: name ++ [RBRACKET]
  | IniPair name value => name ++ [SPACE; EQUALS; SPACE] ++ value
  end.
Definition print_ini (doc : list ini_item) : list byte := mjoin (map (fun it => print_item it ++ [NEWLINE]) doc).

(** A blank followed by a semicolon; [was_space] says whether a blank precedes. *)
Fixpoint opens_comment (was_space : bool) (s : list byte) : bool :=
  match s with
  | [] => false
  | b :: s => (was_space && bool_decide (b = SEMICOLON)) || opens_comment (isspace b) s
  end.

Definition trimmed (s : list byte) : Prop :=
  (forall b, head s = Some b -> isspace b = false) /\ (forall b, last s = Some b -> isspace b = false).

Definition item_ok (it : ini_item) : Prop :=
  NUL ∉ print_item it /\ NEWLINE ∉ print_item it /\ Z.of_nat (length (print_item it)) < INI_MAX_LINE - 1 /\
  match it with
  | IniBlank | IniComment _ => True
  | IniSection name => RBRACKET ∉ name /\ opens_comment false name = false /\ Z.of_nat (length name) < MAX_SECTION
  | IniPair name value =>
      name <> [] /\ trimmed name /\ EQUALS ∉ name /\ COLON ∉ name /\ opens_comment false name = false /\
      (forall c, head name = Some c -> c <> SEMICOLON /\ c <> HASH /\ c <> LBRACKET) /\ take 3 name <> BOM /\
      trimmed value /\ opens_comment true value = false
  end.

(** What a document asks of a handler: the data afterwards and the number of the
    first line that it refuses, 0 if there is none *)
Fixpoint run_items {U} (handler : U -> list byte -> list byte -> list byte -> bool * U) (doc : list ini_item)
    (lineno : Z) (section : list byte) (error : Z) (user : U) : Z * U :=
  match doc with
  | [] => (error, user)
  | it :: doc =>
      match it with
      | IniSection name => run_items handler doc (lineno + 1) name error user
      | IniPair name value =>
          let (ok, user) := handler user section name value in
          run_items handler doc (lineno + 1) section (if ok || negb (error =? 0) then error else lineno) user
      | _ => run_items handler doc (lineno + 1) section error user
      end
  end.

(** ** Blanks *)

Lemma drop_while_all_app p l1 l2 : Forall (fun b => p b = true) l1 -> drop_while p (l1 ++ l2) = drop_while p l2.
Proof. induction 1 as [| b l Hb Hl IH]; simpl; [done |]. by rewrite Hb, IH. Qed.

Lemma drop_while_stop p l : (forall b, head l = Some b -> p b = false) -> drop_while p l = l.
Proof. destruct l as [| b l]; simpl; [done |]. intros Hb. by rewrite Hb. Qed.

Lemma head_rev {A} (l : list A) : head (rev l) = last l.
Proof.
  destruct l as [| x l _] using rev_ind; [done |]. by rewrite rev_app_distr, last_snoc.
Qed.

Lemma rstrip_blanks s blanks :
  (forall b, last s = Some b -> isspace b = false) -> Forall (fun b => isspace b = true) blanks -> ini_rstrip (s ++ blanks) = s.
Proof.
  intros Hs Hb. unfold ini_rstrip. rewrite rev_app_distr, drop_while_all_app.
  - rewrite drop_while_stop; [apply rev_involutive |]. intros b. rewrite head_rev. apply Hs.
  - by apply Forall_rev.
Qed.

Lemma rstrip_id s : (forall b, last s = Some b -> isspace b = false) -> ini_rstrip s = s.
Proof. intros Hs. rewrite <- (app_nil_r s) at 1. by apply rstrip_blanks. Qed.

Lemma rstrip_cons c s : isspace c = false -> ini_rstrip (c :: s) = c :: ini_rstrip s.
Proof.
  intros Hc. unfold ini_rstrip. cbn [rev].
  assert (Hd : forall l, drop_while isspace (l ++ [c]) = drop_while isspace l ++ [c]).
  { induction l as [| b l IH]; cbn; [by rewrite Hc |]. destruct (isspace b); [done |]. done. }
  rewrite Hd, rev_app_distr. done.
Qed.

Lemma lskip_id s : (forall b, head s = Some b -> isspace b = false) -> ini_lskip s = s.
Proof. apply drop_while_stop. Qed.

(** ** Searching *)

Lemma find_from_plain w chars s rest :
  (forall c, c ∈ chars -> c ∉ s) -> opens_comment w s = false ->
  (match rest with [] => True | c :: _ => c ∈ chars end) -> find_from w chars (s ++ rest) = length s.
Proof.
  intros Hc Hs Hr. revert w Hs. induction s as [| b s IH]; intros w Hs.
  - destruct rest as [| c rest]; [done |]. cbn. by rewrite bool_decide_eq_true_2.
  - cbn in Hs |- *. apply orb_false_iff in Hs as [Hs1 Hs2]. rewrite bool_decide_eq_false_2, Hs1.
    + cbn. f_equal. apply IH; [| done]. intros c Hin Hcs. apply (Hc c Hin). by right.
    + intros Hin. apply (Hc b Hin). by left.
Qed.

Lemma find_from_end w s : opens_comment w s = false -> find_from w [] s = length s.
Proof. intros Hs. rewrite <- (app_nil_r s) at 1. apply find_from_plain; [| done | done]. by intros c ?%elem_of_nil. Qed.

Lemma opens_comment_app w s1 s2 b : last s1 = Some b -> 
  opens_comment w (s1 ++ s2) = opens_comment w s1 || opens_comment (isspace b) s2.
Proof.
  revert w. induction s1 as [| c s1 IH]; intros w Hl; [done |]. cbn. destruct s1 as [| d s1].
  - injection Hl as ->. cbn. by rewrite orb_false_r.
  - rewrite (IH _ Hl). by rewrite orb_assoc.
Qed.

Lemma opens_comment_weaken s : opens_comment true s = false -> opens_comment false s = false.
Proof. destruct s as [| b s]; cbn; [done |]. by intros [_ ?]%orb_false_iff. Qed.

(** ** One line *)

Section lines.
Context {U : Type} (handler : U -> list byte -> list byte -> list byte -> bool * U).

Lemma parse_pair_ok name value tail st :
  item_ok (IniPair name value) -> (tail = [] \/ tail = [SPACE] /\ value <> []) ->
  parse_pair handler (name ++ [SPACE; EQUALS] ++ tail ++ value) st =
    call_handler handler (set_prev_name (ini_strncpy0 MAX_NAME name) st) name value.
Proof.
  intros (_ & _ & _ & Hne & Hn & He & Hc & Ho & _ & _ & [Hv1 Hv2] & Hov) Htail. unfold parse_pair.
  assert (Hfind : ini_find_chars_or_comment (name ++ [SPACE; EQUALS] ++ tail ++ value) [EQUALS; COLON] = length (name ++ [SPACE])).
  { unfold ini_find_chars_or_comment. change (name ++ [SPACE; EQUALS] ++ tail ++ value) with (name ++ [SPACE] ++ (EQUALS :: tail ++ value)).
    rewrite app_assoc. apply find_from_plain.
    - intros c Hin. rewrite elem_of_app. rewrite !elem_of_cons, elem_of_nil in Hin.
      destruct Hin as [-> | [-> | []]]; intros [Hin | Hin]; try done; by apply list_elem_of_singleton in Hin.
    - destruct (last name) as [b |] eqn:El; [| by apply last_None in El].
      rewrite (opens_comment_app _ _ _ b) by done. rewrite Ho. by rewrite (proj2 Hn b El).
    - by left. }
  rewrite Hfind. rewrite (app_assoc name [SPACE] (EQUALS :: tail ++ value) : name ++ [SPACE; EQUALS] ++ tail ++ value = _).
  rewrite drop_app_length, take_app_length. cbn [app]. rewrite bool_decide_eq_true_2 by done. cbn [orb].
  rewrite (rstrip_blanks name [SPACE]) by (apply Hn || by repeat constructor). cbn zeta.
  assert (Hval : take (ini_find_chars_or_comment (tail ++ value) []) (tail ++ value) = tail ++ value).
  { unfold ini_find_chars_or_comment. rewrite find_from_end; [apply firstn_all |]. destruct Htail as [-> | [-> _]]; [by apply opens_comment_weaken | done]. }
  rewrite Hval. f_equal. destruct Htail as [-> | [-> _]]; cbn [app].
  - by rewrite lskip_id, rstrip_id.
  - change (ini_lskip (SPACE :: value)) with (ini_lskip value). by rewrite lskip_id, rstrip_id.
Qed.

(** The state after the line of an item, which [fgets] leaves with its newline *)
Definition after_item (it : ini_item) (st : ini_state U) : ini_state U :=
  match it with
  | IniSection name => set_ini_section name st
  | IniPair name value => call_handler handler (set_prev_name (ini_strncpy0 MAX_NAME name) st) name value
  | _ => st
  end.

Lemma parse_line_start line st c rest :
  ini_rstrip line = c :: rest -> isspace c = false -> take 3 line <> BOM ->
  parse_line handler line st =
    if bool_decide (c = SEMICOLON) || bool_decide (c = HASH) then st
    else if bool_decide (c = LBRACKET) then parse_section rest st else parse_pair handler (c :: rest) st.
Proof.
  intros Hr Hc Hb. unfold parse_line. rewrite (bool_decide_eq_false_2 _ Hb), andb_false_r. cbn zeta.
  assert (Hline : ini_lskip line = line).
  { apply lskip_id. intros b Hb'. destruct line as [| d line]; [done |]. injection Hb' as ->.
    (* the first byte of [line] is the first byte that is kept *)
    assert (exists t, b :: line = (c :: rest) ++ t) as [t [= -> _]]; [| done].
    unfold ini_rstrip in Hr. set (r := drop_while isspace (rev (b :: line))) in *.
    exists (rev (take_while isspace (rev (b :: line)))). rewrite <- Hr, <- rev_app_distr.
    unfold r. by rewrite take_drop_while, rev_involutive. }
  rewrite Hline, Hr, Nat.ltb_irrefl, andb_false_r. done.
Qed.

Lemma parse_line_item it st : item_ok it -> parse_line handler (print_item it ++ [NEWLINE]) st = after_item it st.
Proof.
  intros Hok. pose proof Hok as (_ & _ & _ & Hit). destruct it as [| text | name | name value].
  - unfold parse_line. cbn. by rewrite andb_false_r.
  - rewrite (parse_line_start _ st HASH (ini_rstrip (text ++ [NEWLINE]))); [done | by apply rstrip_cons | done | by cbn; unfold HASH, BOM].
  - destruct Hit as (Hb & Ho & Hl). cbn [print_item app].
    rewrite (parse_line_start _ st LBRACKET (name ++ [RBRACKET])); [| | done | by cbn; unfold LBRACKET, BOM].
    + change (parse_section (name ++ [RBRACKET]) st = set_ini_section name st). unfold parse_section, ini_find_chars_or_comment. rewrite find_from_plain; [| | done | by left].
      * rewrite drop_app_length, take_app_length. rewrite bool_decide_eq_true_2 by done. cbn. f_equal.
        unfold ini_strncpy0. apply take_ge. lia.
      * by intros c ->%list_elem_of_singleton.
    + apply (rstrip_blanks (LBRACKET :: name ++ [RBRACKET]) [NEWLINE]); [| by repeat constructor].
      intros b. rewrite app_comm_cons, last_snoc. by intros [= <-].
  - pose proof Hit as (Hne & [Hn1 Hn2] & _ & _ & _ & Hh & Hbom & [Hv1 Hv2] & _). destruct name as [| c name]; [done |].
    set (tail := if decide (value = []) then [] else [SPACE]).
    assert (Htail : tail = [] \/ tail = [SPACE] /\ value <> []) by (unfold tail; destruct (decide (value = [])); auto).
    destruct (Hh c eq_refl) as (H1 & H2 & H3).
    rewrite (parse_line_start _ st c (name ++ [SPACE; EQUALS] ++ tail ++ value)); [| | by apply Hn1 |].
    + rewrite !bool_decide_eq_false_2 by done. cbn [orb]. by apply (parse_pair_ok (c :: name)).
    + unfold tail. cbn [print_item]. destruct (decide (value = [])) as [-> | Hval].
      * etrans; [| apply (rstrip_blanks (c :: name ++ [SPACE; EQUALS]) [SPACE; NEWLINE]); [| by repeat constructor]].
        -- f_equal. cbn. f_equal. by rewrite <- !app_assoc.
        -- intros b. rewrite app_comm_cons. change [SPACE; EQUALS] with ([SPACE] ++ [EQUALS]). rewrite app_assoc, last_snoc. by intros [= <-].
      * etrans; [| apply (rstrip_blanks (c :: name ++ [SPACE; EQUALS] ++ [SPACE] ++ value) [NEWLINE]); [| by repeat constructor]]; [done |].
        intros b. rewrite app_comm_cons, !app_assoc. destruct (last value) as [d |] eqn:El; [| by apply last_None in El].
        rewrite last_app, El. intros [= <-]. by apply Hv2.
    + cbn [print_item]. destruct name as [| d [| e name]]; done.
Qed.

(** ** The whole text *)

Lemma after_item_lineno it st : ini_lineno (after_item it st) = ini_lineno st.
Proof. destruct it; cbn; [done | done | done |]. unfold call_handler. by destruct (handler _ _ _ _) as [[] u]. Qed.

Lemma parse_loop_item it rest fuel st :
  item_ok it ->
  parse_loop handler fgets (S fuel) (print_item it ++ NEWLINE :: rest) st = parse_loop handler fgets fuel rest (after_item it (next_line st)).
Proof.
  intros Hit. pose proof Hit as (Hnul & Hnl & Hlen & _). cbn [parse_loop].
  assert (Hg : fgets INI_MAX_LINE (print_item it ++ NEWLINE :: rest) = Some (print_item it ++ [NEWLINE], rest)).
  { unfold fgets. destruct (print_item it ++ NEWLINE :: rest) eqn:E; [by apply app_nil in E as [_ [=]] |]. rewrite <- E.
    rewrite fgets_loop_spec by done. destruct (Nat.ltb_spec (length (print_item it)) (Z.to_nat (INI_MAX_LINE - 1))); [done |].
    unfold INI_MAX_LINE in *. lia. }
  rewrite Hg. cbn zeta. rewrite cstr_id.
  - rewrite last_snoc, (bool_decide_eq_false_2 (Some NEWLINE <> Some NEWLINE)), andb_false_r by (intros []; done).
    by rewrite parse_line_item.
  - intros [Hin | Hin%list_elem_of_singleton]%elem_of_app; done.
Qed.

Lemma parse_loop_print doc fuel st :
  Forall item_ok doc -> (length (print_ini doc) <= fuel)%nat ->
  let st' := parse_loop handler fgets fuel (print_ini doc) st in
  (ini_error st', ini_user st') = run_items handler doc (ini_lineno st + 1) (ini_section st) (ini_error st) (ini_user st).
Proof.
  cbn zeta. intros Hdoc. revert fuel st. induction Hdoc as [| it doc Hit Hdoc IH]; intros fuel st Hf.
  - by destruct fuel.
  - assert (Hp : print_ini (it :: doc) = print_item it ++ NEWLINE :: print_ini doc).
    { unfold print_ini. cbn. by rewrite <- app_assoc. }
    rewrite Hp in Hf |- *. rewrite length_app in Hf. cbn [length] in Hf. destruct fuel as [| fuel]; [lia |].
    rewrite parse_loop_item by done. rewrite IH by lia. rewrite after_item_lineno.
    destruct it as [| text | name | name value]; [done | done | done |]. cbn. unfold call_handler. cbn.
    destruct (handler _ _ _ _) as [[] u]; cbn; [done |]. by destruct (ini_error st =? 0).
Qed.
End lines.

(** Reading back: the text of a document, whatever the handler does, is read as
    the calls that the document asks for, in order, each with the section it stands
    in; the result is the number of the first line that the handler refuses, 0 if it
    accepts all of them. *)
Lemma ini_parse_print {U} (handler : U -> list byte -> list byte -> list byte -> bool * U) doc user :
  Forall item_ok doc -> ini_parse handler (Some (print_ini doc)) user = run_items handler doc 1 [] 0 user.
Proof. intros Hdoc. exact (parse_loop_print handler doc _ (ini_initial user) Hdoc (le_n _)). Qed.

(** ** Parsing a string *)

Lemma reader_string_loop_fgets left : forall num str,
  1 <= num -> reader_string_loop left num str = fgets_loop (Z.to_nat (num - 1)) left str.
Proof.
  induction left as [| c left IH]; intros num str Hnum; cbn [reader_string_loop].
  - by destruct (Z.to_nat (num - 1)).
  - destruct (1 <? num) eqn:E; zbool.
    + replace (Z.to_nat (num - 1)) with (S (Z.to_nat (num - 1 - 1))) by lia. cbn [fgets_loop].
      case_bool_decide; [done |]. by rewrite IH by lia.
    + by replace (Z.to_nat (num - 1)) with 0%nat by lia.
Qed.

(** The reader of strings does what [fgets] does on a file with these bytes. *)
Lemma ini_reader_string_fgets num left : 2 <= num -> ini_reader_string num left = fgets num left.
Proof.
  intros Hnum. unfold ini_reader_string, fgets. destruct (num <? 2) eqn:E; [zbool; lia |]. rewrite orb_false_r.
  destruct left as [| c left]; [done |]. rewrite bool_decide_eq_false_2 by done. by rewrite reader_string_loop_fgets by lia.
Qed.

Lemma take_length_cstr l : take (length (cstr l)) l = cstr l.
Proof. unfold cstr. induction l as [| b l IH]; simpl; [done |]. case_bool_decide; simpl; [by rewrite IH | done]. Qed.

Section string.
Context {U : Type} (handler : U -> list byte -> list byte -> list byte -> bool * U).

Lemma discard_line_string fuel : forall input (st : ini_state U),
  discard_line ini_reader_string fuel input st = discard_line fgets fuel input st.
Proof.
  induction fuel as [| fuel IH]; intros input st; cbn [discard_line]; [done |].
  rewrite ini_reader_string_fgets by (unfold ABYSS_SIZE; lia). destruct (fgets ABYSS_SIZE input) as [[abyss rest] |]; [| done].
  case_bool_decide; [done | apply IH].
Qed.

Lemma parse_loop_string fuel : forall input st,
  parse_loop handler ini_reader_string fuel input st = parse_loop handler fgets fuel input st.
Proof.
  induction fuel as [| fuel IH]; intros input st; cbn [parse_loop]; [done |].
  rewrite ini_reader_string_fgets by (unfold INI_MAX_LINE; lia). destruct (fgets INI_MAX_LINE input) as [[buffer rest] |]; [| done].
  destruct (_ && _); [| apply IH]. rewrite discard_line_string. destruct (discard_line _ _ _ _). apply IH.
Qed.

(** Parsing a string is parsing a file with the same bytes, whatever the
    bytes and the handler: [ini_parse_string] up to the first NUL,
    [ini_parse_string_length] for the given length. *)
Theorem ini_parse_string_equivalent string len user :
  ini_parse_string handler string user = ini_parse handler (Some (cstr string)) user /\
  ini_parse_string_length handler string len user = ini_parse handler (Some (take len string)) user.
Proof.
  assert (Hlen : forall l, ini_parse_string_length handler string l user = ini_parse handler (Some (take l string)) user).
  { intros l. unfold ini_parse_string_length, ini_parse, ini_parse_stream. by rewrite parse_loop_string. }
  split; [| apply Hlen]. unfold ini_parse_string. rewrite Hlen. do 2 f_equal. by rewrite take_length_cstr.
Qed.
End string.
