(* ===== verification/ClientConfig.v ===== *)
(** * The client's configuration ([src/client/config.c])

    The handler that [ini_parse] calls for each assignment of [client.conf], and the
    loading of the file: a value that does not fit its field, a number that is not
    positive and an unknown key are refused, and a refused line fails the load. *)

From Stdlib Require Import Strings.Byte.
From S2P Require Import Prelude CString Protocol Utils Ini ClientRuntime.

Definition config_copy_string (destination_size : Z) (value : list byte) : option (list byte) :=
  if destination_size =? 0 then None
  else if destination_size <=? Z.of_nat (length value) then None
  else Some value.

Definition parse_positive_int (value : list byte) : option Z :=
  if bool_decide (value = []) then None
  else
    let parsed := strtol value in
    match strtol_end value with
    | None => None
    | Some rest =>
        if strtol_erange value || bool_decide (rest <> []) || (parsed <=? 0) || (int_max <? parsed) then None
        else Some (to_int parsed)
    end.

(** Assignments to the fields *)
Definition set_remote (c : client_config) (h p : list byte) : client_config :=
  {| remote := {| host := h; port := p |}; log := log c; storage := storage c; transfer := transfer c |}.
Definition set_log (c : client_config) (level file : list byte) : client_config :=
  {| remote := remote c; log := {| log_level := level; log_file := file |}; storage := storage c; transfer := transfer c |}.
Definition set_download_dir (c : client_config) (dir : list byte) : client_config :=
  {| remote := remote c; log := log c; storage := {| cfg_download_dir := dir |}; transfer := transfer c |}.
Definition set_transfer (c : client_config) (max connect io : Z) : client_config :=
  {| remote := remote c; log := log c; storage := storage c;
     transfer := {| max_concurrent := max; connect_timeout_ms := connect; io_timeout_ms := io |} |}.

Definition MATCH (section name : list byte) (s n : string) : bool :=
  bool_decide (section = lit s) && bool_decide (name = lit n).

(** [true] is a non-zero return. *)
Definition config_handler (config : client_config) (section name value : list byte) : bool * client_config :=
  let stored {A} (v : option A) (set : A -> client_config) :=
    match v with Some v => (true, set v) | None => (false, config) end in
  let MATCH := MATCH section name in
  if MATCH "remote" "host" then
    stored (config_copy_string HOST_SIZE value) (fun v => set_remote config v (port (remote config)))
  else if MATCH "remote" "port" then
    stored (config_copy_string PORT_SIZE value) (fun v => set_remote config (host (remote config)) v)
  else if MATCH "log" "log_level" then
    stored (config_copy_string LOG_LEVEL_SIZE value) (fun v => set_log config v (log_file (log config)))
  else if MATCH "log" "log_file" then
    stored (config_copy_string PATH_MAX value) (fun v => set_log config (log_level (log config)) v)
  else if MATCH "storage" "download_dir" then
    stored (config_copy_string PATH_MAX value) (fun v => set_download_dir config v)
  else if MATCH "transfer" "max_concurrent" then
    stored (parse_positive_int value) (fun v =>
      set_transfer config v (connect_timeout_ms (transfer config)) (io_timeout_ms (transfer config)))
  else if MATCH "transfer" "connect_timeout_ms" then
    stored (parse_positive_int value) (fun v =>
      set_transfer config (max_concurrent (transfer config)) v (io_timeout_ms (transfer config)))
  else if MATCH "transfer" "io_timeout_ms" then
    stored (parse_positive_int value) (fun v =>
      set_transfer config (max_concurrent (transfer config)) (connect_timeout_ms (transfer config)) v)
  else (false, config).

(** [memset] *)
Definition zero_config : client_config := {|
  remote := {| host := []; port := [] |};
  log := {| log_level := []; log_file := [] |};
  storage := {| cfg_download_dir := [] |};
  transfer := {| max_concurrent := 0; connect_timeout_ms := 0; io_timeout_ms := 0 |} |}.

(** [fopen] gives the content of a file that can be opened; the caller's
    configuration is written only on success. *)
Definition client_config_load (fopen : list byte -> option (list byte)) (config : client_config) (path : list byte)
    : Z * client_config :=
  if bool_decide (path = []) then (-1, config)
  else
    let (result, parsed) := ini_parse config_handler (fopen path) zero_config in
    if negb (result =? 0) then (-1, config) else (0, parsed).
