(* ===== verification/ServerConfig.v ===== *)
(** * The server's configuration ([src/server/config.c], [include/server/config.h])

    The handler of [server.conf], its loading, and the listing of the configuration
    that the server prints when it starts.  Texts are cut to their fields and
    numbers are what [atoi] makes of them. *)

From Stdlib Require Import Strings.Byte.
From S2P Require Import Prelude CString Protocol Utils Ini ClientConfig.

(** ** Data *)

Record network_config := { nc_host : list byte; nc_port : list byte; nc_backlog : Z }.
Record mysql_config := {
  mc_host : list byte;
  mc_port : list byte;
  mc_user : list byte;
  mc_password : list byte;
  mc_database : list byte;
  mc_charset : list byte;
  mc_pool_size : Z
}.
Record server_storage_config := { sc_root_dir : list byte; sc_transfer_temp_dir : list byte }.
Record thread_pool_config := { tc_thread_num : Z; tc_queue_capacity : Z }.
Record session_config := { ic_idle_timeout_seconds : Z }.
Record server_log_config := { lc_log_level : list byte; lc_log_file : list byte }.
Record server_config := {
  sv_network : network_config;
  sv_mysql : mysql_config;
  sv_storage : server_storage_config;
  sv_thread_pool : thread_pool_config;
  sv_session : session_config;
  sv_log : server_log_config
}.

Definition zero_server_config : server_config := {|
  sv_network := {| nc_host := []; nc_port := []; nc_backlog := 0 |};
  sv_mysql := {| mc_host := []; mc_port := []; mc_user := []; mc_password := []; mc_database := []; mc_charset := []; mc_pool_size := 0 |};
  sv_storage := {| sc_root_dir := []; sc_transfer_temp_dir := [] |};
  sv_thread_pool := {| tc_thread_num := 0; tc_queue_capacity := 0 |};
  sv_session := {| ic_idle_timeout_seconds := 0 |};
  sv_log := {| lc_log_level := []; lc_log_file := [] |} |}.

(** Assignments to the parts *)
Definition set_sv_network (c : server_config) (x : network_config) : server_config :=
  {| sv_network := x; sv_mysql := sv_mysql c; sv_storage := sv_storage c;
     sv_thread_pool := sv_thread_pool c; sv_session := sv_session c; sv_log := sv_log c |}.
Definition set_sv_mysql (c : server_config) (x : mysql_config) : server_config :=
  {| sv_network := sv_network c; sv_mysql := x; sv_storage := sv_storage c;
     sv_thread_pool := sv_thread_pool c; sv_session := sv_session c; sv_log := sv_log c |}.
Definition set_sv_storage (c : server_config) (x : server_storage_config) : server_config :=
  {| sv_network := sv_network c; sv_mysql := sv_mysql c; sv_storage := x;
     sv_thread_pool := sv_thread_pool c; sv_session := sv_session c; sv_log := sv_log c |}.
Definition set_sv_thread_pool (c : server_config) (x : thread_pool_config) : server_config :=
  {| sv_network := sv_network c; sv_mysql := sv_mysql c; sv_storage := sv_storage c;
     sv_thread_pool := x; sv_session := sv_session c; sv_log := sv_log c |}.
Definition set_sv_session (c : server_config) (x : session_config) : server_config :=
  {| sv_network := sv_network c; sv_mysql := sv_mysql c; sv_storage := sv_storage c;
     sv_thread_pool := sv_thread_pool c; sv_session := x; sv_log := sv_log c |}.
Definition set_sv_log (c : server_config) (x : server_log_config) : server_config :=
  {| sv_network := sv_network c; sv_mysql := sv_mysql c; sv_storage := sv_storage c;
     sv_thread_pool := sv_thread_pool c; sv_session := sv_session c; sv_log := x |}.

(** ** Loading *)

(** [atoi] as the GNU C library documents it, [(int)strtol(nptr, NULL, 10)]; the C
    standard leaves a number outside [int] undefined. *)
Definition atoi (s : list byte) : Z := to_int (strtol s).

Definition server_handler (pconfig : server_config) (section name value : list byte) : bool * server_config :=
  let MATCH := MATCH section name in
  let n := sv_network pconfig in
  let m := sv_mysql pconfig in
  let st := sv_storage pconfig in
  let tp := sv_thread_pool pconfig in
  let l := sv_log pconfig in
  if MATCH "network" "host" then
    (true, set_sv_network pconfig (Build_network_config (strncpy0 64 value) (nc_port n) (nc_backlog n)))
  else if MATCH "network" "port" then
    (true, set_sv_network pconfig (Build_network_config (nc_host n) (strncpy0 16 value) (nc_backlog n)))
  else if MATCH "network" "backlog" then
    (true, set_sv_network pconfig (Build_network_config (nc_host n) (nc_port n) (atoi value)))
  else if MATCH "mysql" "host" then
    (true, set_sv_mysql pconfig
       (Build_mysql_config (strncpy0 64 value) (mc_port m) (mc_user m) (mc_password m) (mc_database m) (mc_charset m) (mc_pool_size m)))
  else if MATCH "mysql" "port" then
    (true, set_sv_mysql pconfig
       (Build_mysql_config (mc_host m) (strncpy0 16 value) (mc_user m) (mc_password m) (mc_database m) (mc_charset m) (mc_pool_size m)))
  else if MATCH "mysql" "user" then
    (true, set_sv_mysql pconfig
       (Build_mysql_config (mc_host m) (mc_port m) (strncpy0 64 value) (mc_password m) (mc_database m) (mc_charset m) (mc_pool_size m)))
  else if MATCH "mysql" "password" then
    (true, set_sv_mysql pconfig
       (Build_mysql_config (mc_host m) (mc_port m) (mc_user m) (strncpy0 128 value) (mc_database m) (mc_charset m) (mc_pool_size m)))
  else if MATCH "mysql" "database" then
    (true, set_sv_mysql pconfig
       (Build_mysql_config (mc_host m) (mc_port m) (mc_user m) (mc_password m) (strncpy0 64 value) (mc_charset m) (mc_pool_size m)))
  else if MATCH "mysql" "charset" then
    (true, set_sv_mysql pconfig
       (Build_mysql_config (mc_host m) (mc_port m) (mc_user m) (mc_password m) (mc_database m) (strncpy0 32 value) (mc_pool_size m)))
  else if MATCH "mysql" "pool_size" then
    (true, set_sv_mysql pconfig
       (Build_mysql_config (mc_host m) (mc_port m) (mc_user m) (mc_password m) (mc_database m) (mc_charset m) (atoi value)))
  else if MATCH "storage" "root_dir" then
    (true, set_sv_storage pconfig (Build_server_storage_config (strncpy0 PATH_MAX value) (sc_transfer_temp_dir st)))
  else if MATCH "storage" "transfer_temp_dir" then
    (true, set_sv_storage pconfig (Build_server_storage_config (sc_root_dir st) (strncpy0 PATH_MAX value)))
  else if MATCH "thread_pool" "thread_num" then
    (true, set_sv_thread_pool pconfig (Build_thread_pool_config (atoi value) (tc_queue_capacity tp)))
  else if MATCH "thread_pool" "queue_capacity" then
    (true, set_sv_thread_pool pconfig (Build_thread_pool_config (tc_thread_num tp) (atoi value)))
  else if MATCH "session" "idle_timeout_seconds" then
    (true, set_sv_session pconfig (Build_session_config (atoi value)))
  else if MATCH "log" "log_level" then
    (true, set_sv_log pconfig (Build_server_log_config (strncpy0 16 value) (lc_log_file l)))
  else if MATCH "log" "log_file" then
    (true, set_sv_log pconfig (Build_server_log_config (lc_log_level l) (strncpy0 PATH_MAX value)))
  else (false, pconfig).

(** A positive result of [ini_parse], the number of a line with an error, is not
    looked at. *)
Definition server_config_load (fopen : list byte -> option (list byte)) (pconfig : server_config) (filename : list byte)
    : Z * server_config :=
  let (result, pconfig) := ini_parse server_handler (fopen filename) pconfig in
  if result <? 0 then (-1, pconfig) else (0, pconfig).

(** ** Printing *)

Definition print_text (name : string) (value : list byte) : list byte := lit name ++ lit " = " ++ value ++ [NEWLINE].
Definition print_int (name : string) (value : Z) : list byte := print_text name (sdec value).
Definition print_section (name : string) : list byte := lit "[" ++ lit name ++ lit "]" ++ [NEWLINE].

Definition server_config_print (pconfig : server_config) : list byte :=
  print_section "network" ++
  print_text "host" (nc_host (sv_network pconfig)) ++
  print_text "port" (nc_port (sv_network pconfig)) ++
  print_int "backlog" (nc_backlog (sv_network pconfig)) ++
  [NEWLINE] ++ print_section "mysql" ++
  print_text "host" (mc_host (sv_mysql pconfig)) ++
  print_text "port" (mc_port (sv_mysql pconfig)) ++
  print_text "user" (mc_user (sv_mysql pconfig)) ++
  print_text "password" (mc_password (sv_mysql pconfig)) ++
  print_text "database" (mc_database (sv_mysql pconfig)) ++
  print_text "charset" (mc_charset (sv_mysql pconfig)) ++
  print_int "pool_size" (mc_pool_size (sv_mysql pconfig)) ++
  [NEWLINE] ++ print_section "storage" ++
  print_text "root_dir" (sc_root_dir (sv_storage pconfig)) ++
  print_text "transfer_temp_dir" (sc_transfer_temp_dir (sv_storage pconfig)) ++
  [NEWLINE] ++ print_section "thread_pool" ++
  print_int "thread_num" (tc_thread_num (sv_thread_pool pconfig)) ++
  print_int "queue_capacity" (tc_queue_capacity (sv_thread_pool pconfig)) ++
  [NEWLINE] ++ print_section "session" ++
  print_int "idle_timeout_seconds" (ic_idle_timeout_seconds (sv_session pconfig)) ++
  [NEWLINE] ++ print_section "log" ++
  print_text "log_level" (lc_log_level (sv_log pconfig)) ++
  print_text "log_file" (lc_log_file (sv_log pconfig)).
