(* ===== verification/ConfigSpec.v ===== *)
(** * What the configuration loaders guarantee

    Whatever the file, the fields are filled within their bounds; the client refuses
    a file with a bad line and keeps its configuration, while the server takes what
    it can from any file it can open; a configuration that the server prints, or
    that is written in the layout of [config/client.conf], is loaded back. *)

From Stdlib Require Import Strings.Byte.
From S2P Require Import Prelude CString Protocol Utils Ini IniSpec ClientRuntime ClientConfig ServerConfig.

(** ** Any file *)

Section invariant.
Context {U : Type} (handler : U -> list byte -> list byte -> list byte -> bool * U) (I : U -> Prop).
Hypothesis handler_keeps : forall u s n v, I u -> I (snd (handler u s n v)).

(** The data satisfies [I] and no error has been counted as a negative line. *)
Definition ini_inv (st : ini_state U) : Prop := I (ini_user st) /\ 0 <= ini_error st /\ 0 <= ini_lineno st.

Lemma note_error_inv st : ini_inv st -> ini_inv (note_error st).
Proof. intros (Hu & He & Hl). split_and!; cbn; [done | by destruct (_ =? _) | done]. Qed.

Lemma call_handler_inv st n v : ini_inv st -> ini_inv (call_handler handler st n v).
Proof.
  intros (Hu & He & Hl). unfold call_handler. pose proof (handler_keeps (ini_user st) (ini_section st) n v Hu) as Hk.
  destruct (handler _ _ _ _) as [[] u]; [| apply note_error_inv]; by split_and!.
Qed.

Lemma parse_line_inv line st : ini_inv st -> ini_inv (parse_line handler line st).
Proof.
  intros Hst. unfold parse_line. cbn zeta. destruct (ini_rstrip _) as [| c rest]; [done |]. destruct (_ || _); [done |].
  destruct (_ && _); [by apply call_handler_inv |]. destruct (bool_decide (c = LBRACKET)).
  - unfold parse_section. destruct (drop _ _) as [| d r]; [by apply note_error_inv |].
    destruct (bool_decide _); [done | by apply note_error_inv].
  - unfold parse_pair. destruct (drop _ _) as [| d r]; [by apply note_error_inv |].
    destruct (_ || _); [| by apply note_error_inv]. by apply call_handler_inv.
Qed.

Lemma discard_line_inv fuel input st : ini_inv st -> ini_inv (snd (discard_line fgets fuel input st)).
Proof.
  revert input st. induction fuel as [| fuel IH]; intros input st Hst; cbn; [done |].
  destruct (fgets _ _) as [[abyss rest] |]; [| done]. destruct (bool_decide _); [| apply IH]; by apply note_error_inv.
Qed.

Lemma parse_loop_inv fuel input st : ini_inv st -> ini_inv (parse_loop handler fgets fuel input st).
Proof.
  revert input st. induction fuel as [| fuel IH]; intros input st Hst; cbn [parse_loop]; [done |].
  destruct (fgets _ _) as [[buffer rest] |]; [| done]. cbn zeta.
  assert (Hn : ini_inv (next_line st)) by (destruct Hst as (? & ? & ?); split_and!; cbn; [done | done | lia]).
  destruct (_ && _).
  - pose proof (discard_line_inv (length rest) rest _ Hn) as Hd. destruct (discard_line _ _ _ _) as [rest' st']. by apply IH, parse_line_inv.
  - by apply IH, parse_line_inv.
Qed.

Lemma ini_parse_inv file user :
  I user -> I (snd (ini_parse handler file user)) /\ (0 <= fst (ini_parse handler file user) <-> is_Some file).
Proof.
  intros Hu. destruct file as [input |]; cbn.
  - destruct (parse_loop_inv (length input) input (ini_initial user)) as (H1 & H2 & _); [by split_and! |].
    split; [done |]. split; [by eexists | done].
  - split; [done |]. split; [lia | by intros [? ?]].
Qed.
End invariant.

(** ** The client *)

Definition text_fits (size : Z) (s : list byte) : Prop := Z.of_nat (length s) < size.
Definition client_config_fits (c : client_config) : Prop :=
  text_fits HOST_SIZE (host (remote c)) /\ text_fits PORT_SIZE (port (remote c)) /\
  text_fits LOG_LEVEL_SIZE (log_level (log c)) /\ text_fits PATH_MAX (log_file (log c)) /\
  text_fits PATH_MAX (cfg_download_dir (storage c)) /\
  0 <= max_concurrent (transfer c) <= int_max /\ 0 <= connect_timeout_ms (transfer c) <= int_max /\
  0 <= io_timeout_ms (transfer c) <= int_max.

Lemma config_copy_fits size v s : config_copy_string size v = Some s -> s = v /\ text_fits size v.
Proof.
  unfold config_copy_string, text_fits. destruct (size =? 0); [done |]. destruct (Z.leb_spec size (Z.of_nat (length v))); [done |].
  by intros [= <-].
Qed.

Lemma parse_positive_range v z : parse_positive_int v = Some z -> 0 < z <= int_max.
Proof.
  unfold parse_positive_int. destruct (bool_decide _); [done |]. cbn zeta. destruct (strtol_end v) as [rest |]; [| done].
  destruct (_ || _ || _ || _) eqn:E; [done |]. apply orb_false_iff in E as [[_ E1]%orb_false_iff E2].
  apply Z.leb_gt in E1. apply Z.ltb_ge in E2. rewrite to_int_id; [| unfold is_int, int_max in *; lia]. by intros [= <-].
Qed.

Lemma config_handler_fits c s n v : client_config_fits c -> client_config_fits (snd (config_handler c s n v)).
Proof.
  intros Hc. pose proof Hc as (H1 & H2 & H3 & H4 & H5 & H6 & H7 & H8). unfold config_handler. cbn zeta.
  repeat case_match; try exact Hc; cbn [snd];
    repeat match goal with
    | H : config_copy_string _ _ = Some _ |- _ => apply config_copy_fits in H as [-> ?]
    | H : parse_positive_int _ = Some _ |- _ => apply parse_positive_range in H
    end; unfold client_config_fits; cbn; split_and!; done || lia.
Qed.

(** ** The server *)

Definition server_config_fits (c : server_config) : Prop :=
  text_fits 64 (nc_host (sv_network c)) /\ text_fits 16 (nc_port (sv_network c)) /\ is_int (nc_backlog (sv_network c)) /\
  text_fits 64 (mc_host (sv_mysql c)) /\ text_fits 16 (mc_port (sv_mysql c)) /\ text_fits 64 (mc_user (sv_mysql c)) /\
  text_fits 128 (mc_password (sv_mysql c)) /\ text_fits 64 (mc_database (sv_mysql c)) /\
  text_fits 32 (mc_charset (sv_mysql c)) /\ is_int (mc_pool_size (sv_mysql c)) /\
  text_fits PATH_MAX (sc_root_dir (sv_storage c)) /\ text_fits PATH_MAX (sc_transfer_temp_dir (sv_storage c)) /\
  is_int (tc_thread_num (sv_thread_pool c)) /\ is_int (tc_queue_capacity (sv_thread_pool c)) /\
  is_int (ic_idle_timeout_seconds (sv_session c)) /\
  text_fits 16 (lc_log_level (sv_log c)) /\ text_fits PATH_MAX (lc_log_file (sv_log c)).

Lemma strncpy0_fits size s : 0 < size -> text_fits size (strncpy0 size s).
Proof. intros Hs. unfold text_fits, strncpy0. rewrite length_take. lia. Qed.

Lemma atoi_range s : is_int (atoi s).
Proof. apply to_int_range. Qed.

Lemma server_handler_fits c s n v : server_config_fits c -> server_config_fits (snd (server_handler c s n v)).
Proof.
  intros Hc. pose proof Hc as (H1 & H2 & H3 & H4 & H5 & H6 & H7 & H8 & H9 & H10 & H11 & H12 & H13 & H14 & H15 & H16 & H17).
  unfold server_handler. cbn zeta. repeat case_match; try exact Hc; cbn [snd];
    unfold server_config_fits; cbn; split_and!; try done; apply strncpy0_fits || apply atoi_range; done.
Qed.

(** ** Texts that survive printing *)

Definition text_ok (s : list byte) : Prop := NUL ∉ s /\ NEWLINE ∉ s /\ trimmed s /\ opens_comment true s = false.

(** A value for the key [name] that fits the reader's line *)
Definition setting_ok (name : string) (value : list byte) : Prop :=
  text_ok value /\ Z.of_nat (length (lit name)) + 3 + Z.of_nat (length value) < INI_MAX_LINE - 1.

Definition isword (b : byte) : bool := let v := byte_val b in ((97 <=? v) && (v <=? 122)) || (v =? 95).
Definition is_key (name : list byte) : bool := bool_decide (name <> []) && forallb isword name.

Lemma isword_plain b : isword b = true ->
  isspace b = false /\ b ∉ [NUL; NEWLINE; EQUALS; COLON; SEMICOLON; HASH; LBRACKET; RBRACKET; xef].
Proof. destruct b; try discriminate; intros _; (split; [done | by apply (bool_decide_unpack _)]). Qed.

Lemma key_bytes name b : is_key name = true -> b ∈ name -> isword b = true.
Proof. intros [_ Hw]%andb_prop Hb. rewrite forallb_forall in Hw. by apply Hw, list_elem_of_In. Qed.

Lemma opens_comment_none w s : SEMICOLON ∉ s -> opens_comment w s = false.
Proof.
  revert w. induction s as [| b s IH]; intros w; cbn; [done |]. intros [Hb Hs]%not_elem_of_cons.
  rewrite bool_decide_eq_false_2 by done. rewrite andb_false_r. by apply IH.
Qed.

Lemma pair_ok name value : is_key (lit name) = true -> setting_ok name value -> item_ok (IniPair (lit name) value).
Proof.
  intros Hk [(Hnul & Hnl & Htr & Ho) Hlen]. set (n := lit name) in *.
  assert (Hword : forall b, b ∈ n -> isspace b = false /\ b ∉ [NUL; NEWLINE; EQUALS; COLON; SEMICOLON; HASH; LBRACKET; RBRACKET; xef])
    by (intros b Hb; eapply isword_plain, key_bytes; eauto).
  assert (Hout : forall b, b ∈ [NUL; NEWLINE; EQUALS; COLON; SEMICOLON; HASH; LBRACKET; RBRACKET; xef] -> b ∉ n)
    by (intros b Hb Hin; by apply (Hword b Hin)).
  assert (Hin : forall b, b ∈ n \/ b ∈ [SPACE; EQUALS; SPACE] \/ b ∈ value <-> b ∈ print_item (IniPair n value))
    by (intros b; cbn [print_item]; by rewrite !elem_of_app).
  assert (Hne : n <> []) by (apply andb_prop in Hk as [Hk _]; by apply bool_decide_eq_true_1 in Hk).
  assert (Hhead : forall c, head n = Some c -> c ∈ n) by (intros c Hc; destruct n; [done |]; injection Hc as ->; by left).
  split_and!.
  - rewrite <- Hin. intros [Hx | [Hx | Hx]]; [by apply (Hout NUL); [set_solver |] | by apply (bool_decide_pack _) in Hx | done].
  - rewrite <- Hin. intros [Hx | [Hx | Hx]]; [by apply (Hout NEWLINE); [set_solver |] | by apply (bool_decide_pack _) in Hx | done].
  - cbn [print_item]. rewrite !length_app. cbn [length]. unfold INI_MAX_LINE in *. lia.
  - done.
  - split; intros b Hb; apply Hword; [by apply Hhead | by apply last_Some_elem_of].
  - apply Hout. set_solver.
  - apply Hout. set_solver.
  - apply opens_comment_none, Hout. set_solver.
  - intros c Hc%Hhead. destruct (Hword c Hc) as [_ Hc']. set_solver.
  - intros Hb. apply (Hout xef); [set_solver |]. destruct n as [| c n]; [done |]. injection Hb as -> _. by left.
  - done.
  - done.
Qed.

Lemma sdec_bytes z b : is_int z -> b ∈ sdec z -> isspace b = false /\ b ∉ [NUL; NEWLINE; SEMICOLON].
Proof.
  intros Hz Hb. assert (Hd : isdigit b = true \/ b = x2d).
  { unfold sdec in Hb. assert (Hdec : forall y, is_u64 y -> b ∈ dec y -> isdigit b = true).
    { intros y Hy Hin. destruct (isdigit b) eqn:E; [done |]. by destruct (dec_no_special y b Hy E). }
    unfold is_int, is_u64, u64_mod in *. destruct (Z.ltb_spec z 0).
    - apply elem_of_cons in Hb as [-> | Hb]; [by right |]. left. apply (Hdec (- z)); [lia | done].
    - left. apply (Hdec z); [lia | done]. }
  destruct Hd as [Hd | ->]; [| split; [done | by apply (bool_decide_unpack _)]].
  destruct b; try discriminate Hd; (split; [done | by apply (bool_decide_unpack _)]).
Qed.

Lemma number_ok name z : is_int z -> Z.of_nat (length (lit name)) < 100 -> setting_ok name (sdec z).
Proof.
  intros Hz Hn. pose proof (fun b => sdec_bytes z b Hz) as Hb. split; [split_and! |].
  - intros Hx%Hb. set_solver.
  - intros Hx%Hb. set_solver.
  - split; intros b Hx; apply Hb; [destruct (sdec z); [done |]; injection Hx as ->; by left | by apply last_Some_elem_of].
  - apply opens_comment_none. intros Hx%Hb. set_solver.
  - assert (Hl : (length (sdec z) <= 21)%nat).
    { unfold sdec. destruct (z <? 0); cbn [length]; [pose proof (length_dec (- z)) | pose proof (length_dec z)]; lia. }
    unfold INI_MAX_LINE. lia.
Qed.

Lemma section_ok name :
  is_key (lit name) = true -> Z.of_nat (length (lit name)) < MAX_SECTION -> item_ok (IniSection (lit name)).
Proof.
  intros Hk Hl. set (n := lit name) in *.
  assert (Hout : forall b, b ∈ [NUL; NEWLINE; RBRACKET; SEMICOLON] -> b ∉ n).
  { intros b Hb Hin. pose proof (isword_plain b (key_bytes _ _ Hk Hin)) as [_ Hw]. set_solver. }
  assert (Hin : forall b, b ∈ print_item (IniSection n) <-> b = LBRACKET \/ b ∈ n \/ b = RBRACKET)
    by (intros b; cbn [print_item]; by rewrite elem_of_cons, elem_of_app, list_elem_of_singleton).
  split_and!; try (apply Hout; set_solver).
  - rewrite Hin. intros [Hx | [Hx | Hx]]; [done | by apply (Hout NUL); [set_solver |] | done].
  - rewrite Hin. intros [Hx | [Hx | Hx]]; [done | by apply (Hout NEWLINE); [set_solver |] | done].
  - cbn [print_item length]. rewrite length_app. cbn [length]. unfold MAX_SECTION, INI_MAX_LINE in *. lia.
  - apply opens_comment_none, Hout. set_solver.
  - done.
Qed.

Lemma blank_ok : item_ok IniBlank.
Proof. by split_and!; try apply not_elem_of_nil. Qed.

(** Keys are compared as their names. *)
Lemma lit_inj a b : lit a = lit b -> a = b.
Proof.
  unfold lit. intros Hab. rewrite <- (String.string_of_list_byte_of_string a), <- (String.string_of_list_byte_of_string b).
  by rewrite Hab.
Qed.

Lemma lit_eqb a b : bool_decide (lit a = lit b) = String.eqb a b.
Proof.
  destruct (String.eqb_spec a b) as [-> | Hab]; [by apply bool_decide_eq_true_2 |].
  apply bool_decide_eq_false_2. intros Hl. by apply Hab, lit_inj.
Qed.

Lemma MATCH_lit s n s' n' : MATCH (lit s) (lit n) s' n' = String.eqb s s' && String.eqb n n'.
Proof. unfold MATCH. by rewrite !lit_eqb. Qed.

(** ** Reading back *)

Lemma print_ini_cons it doc : print_ini (it :: doc) = (print_item it ++ [NEWLINE]) ++ print_ini doc.
Proof. done. Qed.
Lemma print_text_item name value : print_text name value = print_item (IniPair (lit name) value) ++ [NEWLINE].
Proof. unfold print_text, print_item. by rewrite <- !app_assoc. Qed.
Lemma print_section_item name : print_section name = print_item (IniSection (lit name)) ++ [NEWLINE].
Proof. unfold print_section, print_item. cbn. by rewrite <- !app_assoc. Qed.

(** The listing of [server_config_print] as a document, and what it needs to be
    read back: texts that fit their fields and a line, numbers that are [int]s *)
Definition server_doc (c : server_config) : list ini_item :=
  let pair name value := IniPair (lit name) value in
  let number name value := IniPair (lit name) (sdec value) in
  [ IniSection (lit "network"); pair "host" (nc_host (sv_network c)); pair "port" (nc_port (sv_network c));
    number "backlog" (nc_backlog (sv_network c));
    IniBlank; IniSection (lit "mysql"); pair "host" (mc_host (sv_mysql c)); pair "port" (mc_port (sv_mysql c));
    pair "user" (mc_user (sv_mysql c)); pair "password" (mc_password (sv_mysql c)); pair "database" (mc_database (sv_mysql c));
    pair "charset" (mc_charset (sv_mysql c)); number "pool_size" (mc_pool_size (sv_mysql c));
    IniBlank; IniSection (lit "storage"); pair "root_dir" (sc_root_dir (sv_storage c));
    pair "transfer_temp_dir" (sc_transfer_temp_dir (sv_storage c));
    IniBlank; IniSection (lit "thread_pool"); number "thread_num" (tc_thread_num (sv_thread_pool c));
    number "queue_capacity" (tc_queue_capacity (sv_thread_pool c));
    IniBlank; IniSection (lit "session"); number "idle_timeout_seconds" (ic_idle_timeout_seconds (sv_session c));
    IniBlank; IniSection (lit "log"); pair "log_level" (lc_log_level (sv_log c)); pair "log_file" (lc_log_file (sv_log c)) ].

Definition server_config_printable (c : server_config) : Prop :=
  setting_ok "host" (nc_host (sv_network c)) /\ setting_ok "port" (nc_port (sv_network c)) /\
  setting_ok "host" (mc_host (sv_mysql c)) /\ setting_ok "port" (mc_port (sv_mysql c)) /\
  setting_ok "user" (mc_user (sv_mysql c)) /\ setting_ok "password" (mc_password (sv_mysql c)) /\
  setting_ok "database" (mc_database (sv_mysql c)) /\ setting_ok "charset" (mc_charset (sv_mysql c)) /\
  setting_ok "root_dir" (sc_root_dir (sv_storage c)) /\
  setting_ok "transfer_temp_dir" (sc_transfer_temp_dir (sv_storage c)) /\
  setting_ok "log_level" (lc_log_level (sv_log c)) /\ setting_ok "log_file" (lc_log_file (sv_log c)).

Lemma server_config_print_doc c : server_config_print c = print_ini (server_doc c).
Proof.
  unfold server_config_print, server_doc, print_int. rewrite !print_text_item, !print_section_item, !print_ini_cons.
  change (print_ini []) with (@nil byte). rewrite app_nil_r. done.
Qed.

Lemma server_doc_ok c : server_config_fits c -> server_config_printable c -> Forall item_ok (server_doc c).
Proof.
  intros (? & ? & ? & ? & ? & ? & ? & ? & ? & ? & ? & ? & ? & ? & ? & ? & ?) (? & ? & ? & ? & ? & ? & ? & ? & ? & ? & ? & ?).
  unfold server_doc. cbn zeta. repeat apply Forall_cons_2; try apply Forall_nil_2;
    first [apply blank_ok | by apply section_ok | by apply pair_ok | by apply pair_ok, number_ok].
Qed.

Lemma strncpy0_id size s : text_fits size s -> strncpy0 size s = s.
Proof. unfold text_fits, strncpy0. intros Hs. apply take_ge. lia. Qed.

Lemma atoi_sdec z : is_int z -> atoi (sdec z) = z.
Proof. intros Hz. unfold atoi. rewrite strtol_sdec; [by apply to_int_id | unfold is_int in Hz; lia]. Qed.

(** A document is read one item at a time. *)
Section reading.
Context {U : Type} (handler : U -> list byte -> list byte -> list byte -> bool * U).
Lemma run_section name doc l s e u : run_items handler (IniSection name :: doc) l s e u = run_items handler doc (l + 1) name e u.
Proof. done. Qed.
Lemma run_blank doc l s e u : run_items handler (IniBlank :: doc) l s e u = run_items handler doc (l + 1) s e u.
Proof. done. Qed.
Lemma run_pair name value doc l s e u u' :
  handler u s name value = (true, u') ->
  run_items handler (IniPair name value :: doc) l s e u = run_items handler doc (l + 1) s e u'.
Proof. cbn. by intros ->. Qed.
End reading.

Ltac read_items unfold_handler evaluate :=
  repeat first
    [ rewrite run_section | rewrite run_blank
    | erewrite run_pair;
      [| unfold_handler; rewrite !MATCH_lit; cbn -[strncpy0 atoi dec sdec lit config_copy_string parse_positive_int]; evaluate; reflexivity] ].

Lemma run_server_doc c c0 : server_config_fits c -> run_items server_handler (server_doc c) 1 [] 0 c0 = (0, c).
Proof.
  intros (? & ? & ? & ? & ? & ? & ? & ? & ? & ? & ? & ? & ? & ? & ? & ? & ?).
  destruct c as [[] [] [] [] [] []], c0 as [[] [] [] [] [] []]. unfold server_doc. cbn -[run_items lit sdec] in *.
  read_items ltac:(unfold server_handler, set_sv_network, set_sv_mysql, set_sv_storage, set_sv_thread_pool, set_sv_session, set_sv_log)
    idtac.
  cbn [run_items]. by rewrite !strncpy0_id, !atoi_sdec.
Qed.

(** (C38) The server can read the configuration that it prints, provided that no text
    in it begins or ends with a blank or contains a [;] after a blank, and that the lines fit the
    reader's buffer: the listing that it writes when it starts, stored in a file, then
    loads without error to the same configuration, whatever the fields held before. *)
Theorem server_config_roundtrip fopen filename c c0 :
  server_config_fits c -> server_config_printable c -> fopen filename = Some (server_config_print c) ->
  server_config_load fopen c0 filename = (0, c).
Proof.
  intros Hfit Hpr Hf. unfold server_config_load. rewrite Hf, server_config_print_doc, ini_parse_print by (by apply server_doc_ok).
  by rewrite run_server_doc.
Qed.

(** The layout of [config/client.conf] *)
Definition client_doc (c : client_config) : list ini_item :=
  let pair name value := IniPair (lit name) value in
  let number name value := IniPair (lit name) (dec value) in
  [ IniSection (lit "remote"); pair "host" (host (remote c)); pair "port" (port (remote c));
    IniBlank; IniSection (lit "log"); pair "log_level" (log_level (log c)); pair "log_file" (log_file (log c));
    IniBlank; IniSection (lit "storage"); pair "download_dir" (cfg_download_dir (storage c));
    IniBlank; IniSection (lit "transfer"); number "max_concurrent" (max_concurrent (transfer c));
    number "connect_timeout_ms" (connect_timeout_ms (transfer c)); number "io_timeout_ms" (io_timeout_ms (transfer c)) ].

Definition client_config_printable (c : client_config) : Prop :=
  setting_ok "host" (host (remote c)) /\ setting_ok "port" (port (remote c)) /\
  setting_ok "log_level" (log_level (log c)) /\ setting_ok "log_file" (log_file (log c)) /\
  setting_ok "download_dir" (cfg_download_dir (storage c)) /\
  max_concurrent (transfer c) <> 0 /\ connect_timeout_ms (transfer c) <> 0 /\ io_timeout_ms (transfer c) <> 0.

Lemma sdec_dec z : 0 <= z -> sdec z = dec z.
Proof. unfold sdec. by destruct (Z.ltb_spec z 0); [lia |]. Qed.

Lemma client_doc_ok c : client_config_fits c -> client_config_printable c -> Forall item_ok (client_doc c).
Proof.
  intros (? & ? & ? & ? & ? & ? & ? & ?) (? & ? & ? & ? & ? & ? & ? & ?). unfold client_doc. cbn zeta.
  rewrite <- !sdec_dec by lia.
  repeat apply Forall_cons_2; try apply Forall_nil_2;
    first [apply blank_ok | by apply section_ok | by apply pair_ok | apply pair_ok, number_ok; unfold is_int, int_max in *; done || lia].
Qed.

Lemma config_copy_id size v : 0 < size -> text_fits size v -> config_copy_string size v = Some v.
Proof.
  unfold config_copy_string, text_fits. intros Hs Hv. destruct (Z.eqb_spec size 0); [lia |].
  destruct (Z.leb_spec size (Z.of_nat (length v))); [lia | done].
Qed.

Lemma parse_positive_dec z : 0 < z <= int_max -> parse_positive_int (dec z) = Some z.
Proof.
  intros Hz. assert (Hu : is_u64 z) by (unfold is_u64, u64_mod, int_max in *; lia). unfold parse_positive_int.
  rewrite strtol_end_dec, strtol_dec by (done || unfold int_max in *; lia). cbn zeta.
  destruct (dec_digits z Hu) as (b & ds & Hd & Hds & Hv). rewrite bool_decide_eq_false_2 by (by rewrite Hd).
  assert (He : strtol_erange (dec z) = false).
  { unfold strtol_erange. rewrite Hd, signed_digits_unsigned by (by inversion Hds). rewrite Hv. unfold int_max in *.
    apply orb_false_iff. split; apply Z.ltb_ge; lia. }
  rewrite He, bool_decide_eq_false_2 by (by intros []). cbn [orb]. rewrite (proj2 (Z.leb_gt _ _)), (proj2 (Z.ltb_ge _ _)) by lia.
  cbn. rewrite to_int_id; [done | unfold is_int, int_max in *; lia].
Qed.

Lemma run_client_doc c c0 :
  client_config_fits c -> client_config_printable c -> run_items config_handler (client_doc c) 1 [] 0 c0 = (0, c).
Proof.
  intros (? & ? & ? & ? & ? & ? & ? & ?) (_ & _ & _ & _ & _ & ? & ? & ?).
  destruct c as [[] [] [] []], c0 as [[] [] [] []]. unfold client_doc. cbn -[run_items lit dec int_max] in *.
  read_items ltac:(unfold config_handler, set_remote, set_log, set_download_dir, set_transfer)
    ltac:(rewrite ?config_copy_id, ?parse_positive_dec by (done || lia)).
  done.
Qed.

(** (C39) The client's loader: for any file, a successful load fills the fields with
    texts that fit and numbers from 0 to [INT_MAX], and a failed one leaves the
    configuration as it was; and a valid configuration written in the layout of
    [config/client.conf] is loaded exactly. *)
Theorem client_config_load_correct fopen config path :
  let (r, c') := client_config_load fopen config path in
  (r = 0 /\ client_config_fits c' \/ r = -1 /\ c' = config) /\
  (forall c, client_config_fits c -> client_config_printable c -> path <> [] -> fopen path = Some (print_ini (client_doc c)) ->
     r = 0 /\ c' = c).
Proof.
  unfold client_config_load. destruct (bool_decide_reflect (path = [])) as [-> | Hpath]; [split; [by right | done] |].
  pose proof (ini_parse_inv config_handler client_config_fits config_handler_fits (fopen path) zero_config) as Hinv.
  destruct (ini_parse config_handler (fopen path) zero_config) as [r parsed] eqn:E. destruct Hinv as [Hfit _].
  { unfold client_config_fits, text_fits. cbn. unfold int_max, HOST_SIZE, PORT_SIZE, LOG_LEVEL_SIZE, PATH_MAX. lia. }
  cbn in Hfit. destruct (Z.eqb_spec r 0) as [-> | Hr]; cbn [negb]; (split; [auto |]); intros c Hc Hp _ Hf;
    rewrite Hf, ini_parse_print, run_client_doc in E by (done || by apply client_doc_ok); split; congruence.
Qed.

(** The server's loader fails only when the file cannot be opened: for any
    content it returns success, also when [ini_parse] reports a bad line, with texts
    that fit their fields and numbers that are [int]s. *)
Theorem server_config_load_bounded fopen c filename :
  server_config_fits c ->
  (fst (server_config_load fopen c filename) = 0 <-> is_Some (fopen filename)) /\
  server_config_fits (snd (server_config_load fopen c filename)).
Proof.
  intros Hc. unfold server_config_load.
  destruct (ini_parse_inv server_handler server_config_fits server_handler_fits (fopen filename) c Hc) as [Hfit Hr].
  destruct (ini_parse server_handler (fopen filename) c) as [r c']. cbn in Hfit, Hr.
  destruct (Z.ltb_spec r 0); cbn; (split; [rewrite <- Hr | done]); lia.
Qed.

(** ** The configurations in [config/] *)

#[export] Instance trimmed_dec s : Decision (trimmed s).
Proof.
  refine (cast_if_and (decide (from_option isspace false (head s) = false)) (decide (from_option isspace false (last s) = false)));
    unfold trimmed; destruct (head s), (last s); cbn in *; naive_solver.
Defined.
#[export] Instance setting_ok_dec name value : Decision (setting_ok name value).
Proof. unfold setting_ok, text_ok. apply _. Defined.

Definition server_conf : server_config := {|
  sv_network := {| nc_host := lit "127.0.0.1"; nc_port := lit "8888"; nc_backlog := 128 |};
  sv_mysql := {| mc_host := lit "localhost"; mc_port := lit "3306"; mc_user := lit "test"; mc_password := lit "123456";
                 mc_database := lit "cloud_drive_demo"; mc_charset := lit "utf8mb4"; mc_pool_size := 4 |};
  sv_storage := {| sc_root_dir := lit "data/files"; sc_transfer_temp_dir := lit "data/.upload" |};
  sv_thread_pool := {| tc_thread_num := 4; tc_queue_capacity := 1024 |};
  sv_session := {| ic_idle_timeout_seconds := 30 |};
  sv_log := {| lc_log_level := lit "info"; lc_log_file := lit "logs/server.log" |} |}.

Definition client_conf : client_config := {|
  remote := {| host := lit "127.0.0.1"; port := lit "8888" |};
  log := {| log_level := lit "info"; log_file := lit "logs/client.log" |};
  storage := {| cfg_download_dir := lit "downloads" |};
  transfer := {| max_concurrent := 4; connect_timeout_ms := 5000; io_timeout_ms := 30000 |} |}.

(** A file with one content under every name *)
Definition one_file (content : list byte) : list byte -> option (list byte) := fun _ => Some content.

Lemma server_config_roundtrip_witness :
  server_config_load (one_file (server_config_print server_conf)) zero_server_config (lit "server.conf") = (0, server_conf).
Proof.
  apply (server_config_roundtrip (one_file (server_config_print server_conf))).
  - unfold server_config_fits, text_fits, is_int. apply (bool_decide_unpack _). vm_compute. exact I.
  - unfold server_config_printable. apply (bool_decide_unpack _). vm_compute. exact I.
  - reflexivity.
Defined.

Lemma client_config_load_correct_witness :
  client_config_load (one_file (print_ini (client_doc client_conf))) zero_config (lit "client.conf") = (0, client_conf) /\
  client_config_load (one_file (lit "[transfer]
max_concurrent = 0")) client_conf (lit "client.conf") = (-1, client_conf).
Proof.
  split; [| vm_compute; reflexivity].
  pose proof (client_config_load_correct (one_file (print_ini (client_doc client_conf))) zero_config (lit "client.conf")) as Hload.
  destruct (client_config_load _ _ _) as [r c']. destruct Hload as [_ Hload].
  destruct (Hload client_conf) as [-> ->]; [| | | | reflexivity].
  - unfold client_config_fits, text_fits. apply (bool_decide_unpack _). vm_compute. exact I.
  - unfold client_config_printable. apply (bool_decide_unpack _). vm_compute. exact I.
  - discriminate.
  - reflexivity.
Defined.

Lemma server_config_load_bounded_witness :
  fst (server_config_load (one_file (lit "[network]
port = 99
colour")) zero_server_config (lit "server.conf")) = 0 /\
  nc_port (sv_network (snd (server_config_load (one_file (lit "[network]
port = 99
colour")) zero_server_config (lit "server.conf")))) = lit "99".
Proof.
  split; [| vm_compute; reflexivity].
  apply (server_config_load_bounded (one_file (lit "[network]
port = 99
colour")) zero_server_config (lit "server.conf")); [| by eexists].
  unfold server_config_fits, text_fits, is_int. apply (bool_decide_unpack _). vm_compute. exact I.
Defined.
