(* ===== verification/Connection.v ===== *)
(** * Opening sockets ([src/client/connection.c], [network_listen] of [src/server/network.c])

    The client connects with a deadline on a socket that does not block, and gives
    it back blocking with timeouts; the server binds and listens.  The answers of
    the kernel are records, one per address that [getaddrinfo] returned, and the
    open sockets of the process are a map. *)

From Stdlib Require Import Strings.Byte.
From S2P Require Import Prelude CString Heap.

(** ** The client's sockets *)

(** A [struct timeval] *)
Record timeval := { tv_sec_of : Z; tv_usec_of : Z }.

(** The file status flags, whether it is connected, [SO_RCVTIMEO] and [SO_SNDTIMEO] *)
Record csock := {
  cs_flags : Z;
  cs_connected : bool;
  cs_rcvtimeo : option timeval;
  cs_sndtimeo : option timeval
}.
Notation net := (gmap Z csock).

Definition set_cs_flags (f : Z) (s : csock) : csock :=
  {| cs_flags := f; cs_connected := cs_connected s; cs_rcvtimeo := cs_rcvtimeo s; cs_sndtimeo := cs_sndtimeo s |}.
Definition set_connected (c : bool) (s : csock) : csock :=
  {| cs_flags := cs_flags s; cs_connected := c; cs_rcvtimeo := cs_rcvtimeo s; cs_sndtimeo := cs_sndtimeo s |}.
Definition set_rcvtimeo (t : timeval) (s : csock) : csock :=
  {| cs_flags := cs_flags s; cs_connected := cs_connected s; cs_rcvtimeo := Some t; cs_sndtimeo := cs_sndtimeo s |}.
Definition set_sndtimeo (t : timeval) (s : csock) : csock :=
  {| cs_flags := cs_flags s; cs_connected := cs_connected s; cs_rcvtimeo := cs_rcvtimeo s; cs_sndtimeo := Some t |}.

Definition O_NONBLOCK : Z := 2048.

(** ** Answers of the kernel *)

Inductive poll_answer := PollReady | PollTimeout | PollInterrupted | PollFailed.

(** One turn of [wait_for_connect]: the clock, [poll], how the pending connection has
    ended when [poll] finds the socket ready (0 if it is established, otherwise the
    error that [SO_ERROR] holds), and whether [getsockopt] succeeds *)
Record wait_turn := {
  wt_clock : option timespec;
  wt_poll : poll_answer;
  wt_error : Z;
  wt_getsockopt : bool
}.

Inductive connect_answer := ConnectOk | ConnectInProgress | ConnectFailed.

Record attempt := {
  at_socket : option Z;
  at_flags : option Z;
  at_nonblock : bool;
  at_connect : connect_answer;
  at_clock : option timespec;
  at_turns : list wait_turn;
  at_restore : bool
}.

(** ** Connecting *)

Definition int64_ok (z : Z) : bool := (- 2 ^ 63 <=? z) && (z <? 2 ^ 63).

(** Overflow of [int64_t] is undefined. *)
Definition monotonic_milliseconds (clock : option timespec) : outcome Z :=
  match clock with
  | None => Ret (-1)
  | Some now =>
      let ms := tv_sec now * 1000 + Z.quot (tv_nsec now) 1000000 in
      if int64_ok (tv_sec now * 1000) && int64_ok ms then Ret ms else Undef
  end.

(** The result, the timeouts that [poll] was called with, and whether the kernel has
    connected the socket by then, whatever the code makes of it *)
Fixpoint wait_loop (turns : list wait_turn) (deadline : Z) : outcome (Z * list Z * bool) :=
  match turns with
  | [] => NoReturn
  | t :: turns =>
      now ← monotonic_milliseconds (wt_clock t);
      if (now <? 0) || (deadline <=? now) then Ret (-1, [], false)
      else
        let remaining := to_int (deadline - now) in
        match wt_poll t with
        | PollInterrupted => '(r, polls, c) ← wait_loop turns deadline; Ret (r, remaining :: polls, c)
        | PollTimeout | PollFailed => Ret (-1, [remaining], false)
        | PollReady =>
            let connected := wt_error t =? 0 in
            if negb (wt_getsockopt t) || negb (wt_error t =? 0) then Ret (-1, [remaining], connected)
            else Ret (0, [remaining], connected)
        end
  end.

Definition wait_for_connect (clock : option timespec) (turns : list wait_turn) (timeout_ms : Z) : outcome (Z * list Z * bool) :=
  deadline ← monotonic_milliseconds clock;
  if deadline <? 0 then Ret (-1, [], false)
  else if int64_ok (deadline + timeout_ms) then wait_loop turns (deadline + timeout_ms) else Undef.

Definition connect_address (a : attempt) (timeout_ms : Z) (n : net) : outcome (Z * net) :=
  match at_socket a with
  | None => Ret (-1, n)
  | Some fd =>
      let n := <[fd := {| cs_flags := default 0 (at_flags a); cs_connected := false; cs_rcvtimeo := None; cs_sndtimeo := None |}]> n in
      match at_flags a with
      | None => Ret (-1, delete fd n)
      | Some flags =>
          if negb (at_nonblock a) then Ret (-1, delete fd n)
          else
            let n := alter (set_cs_flags (Z.lor flags O_NONBLOCK)) fd n in
            '(result, connected) ← (match at_connect a with
                      | ConnectOk => Ret (0, true)
                      | ConnectInProgress => '(r, _, c) ← wait_for_connect (at_clock a) (at_turns a) timeout_ms; Ret (r, c)
                      | ConnectFailed => Ret (-1, false)
                      end);
            let n := alter (set_connected connected) fd n in
            if negb (result =? 0) || negb (at_restore a) then Ret (-1, delete fd n)
            else Ret (fd, alter (set_cs_flags flags) fd n)
      end
  end.

(** The loop over the addresses *)
Fixpoint address_loop (l : list attempt) (timeout_ms : Z) (n : net) : outcome (Z * net) :=
  match l with
  | [] => Ret (-1, n)
  | a :: l =>
      '(fd, n) ← connect_address a timeout_ms n;
      if 0 <=? fd then Ret (fd, n) else address_loop l timeout_ms n
  end.

(** [addresses] is what [getaddrinfo] returns. *)
Definition client_connection_open (addresses : option (list attempt)) (rcv_ok snd_ok : bool)
    (host port : list byte) (connect_timeout_ms io_timeout_ms : Z) (n : net) : outcome (Z * net) :=
  if bool_decide (host = []) || bool_decide (port = []) || (connect_timeout_ms <=? 0) || (io_timeout_ms <=? 0)
  then Ret (-1, n)
  else
    match addresses with
    | None => Ret (-1, n)
    | Some l =>
        '(fd, n) ← address_loop l connect_timeout_ms n;
        if fd <? 0 then Ret (-1, n)
        else
          let timeout := {| tv_sec_of := Z.quot io_timeout_ms 1000; tv_usec_of := Z.rem io_timeout_ms 1000 * 1000 |} in
          if negb rcv_ok then Ret (-1, delete fd n)
          else
            let n := alter (set_rcvtimeo timeout) fd n in
            if negb snd_ok then Ret (-1, delete fd n)
            else Ret (fd, alter (set_sndtimeo timeout) fd n)
    end.

Definition client_connection_close (fd : Z) (n : net) : net := if fd <? 0 then n else delete fd n.

(** ** Listening *)

(** The server's sockets: bound, listening *)
Record lsock := { ls_bound : bool; ls_listening : bool }.

Record bind_attempt := { ba_socket : option Z; ba_bind : bool }.

Fixpoint bind_loop (l : list bind_attempt) (n : gmap Z lsock) : Z * gmap Z lsock :=
  match l with
  | [] => (-1, n)
  | a :: l =>
      match ba_socket a with
      | None => bind_loop l n
      | Some fd =>
          let n := <[fd := {| ls_bound := false; ls_listening := false |}]> n in
          if ba_bind a then (fd, <[fd := {| ls_bound := true; ls_listening := false |}]> n)
          else bind_loop l (delete fd n)
      end
  end.

Definition network_listen (addresses : option (list bind_attempt)) (listen_ok : bool) (n : gmap Z lsock) : Z * gmap Z lsock :=
  match addresses with
  | None => (-1, n)
  | Some l =>
      let (listenfd, n) := bind_loop l n in
      if listenfd =? -1 then (-1, n)
      else if negb listen_ok then (-1, delete listenfd n)
      else (listenfd, <[listenfd := {| ls_bound := true; ls_listening := true |}]> n)
  end.
