(* ===== verification/ConnectionSpec.v ===== *)
(** * Properties of opening sockets

    Connecting ends by its deadline and never waits without one; whatever fails, no
    socket is left open; a socket that is returned is connected, blocking again, and
    has the configured timeouts. *)

From Stdlib Require Import Strings.Byte.
From S2P Require Import Prelude CString Heap Connection.

(** ** Clocks *)

(** The clock counts from the start of the machine: well under 2^50 seconds. *)
Definition clock_ok (c : option timespec) : Prop :=
  forall t, c = Some t -> 0 <= tv_sec t < 2 ^ 50 /\ 0 <= tv_nsec t < 10 ^ 9.

(** Milliseconds of a clock that does not fail *)
Definition ms_of (t : timespec) : Z := tv_sec t * 1000 + tv_nsec t / 1000000.

Lemma milliseconds_ok c :
  clock_ok c -> monotonic_milliseconds c = Ret (match c with Some t => ms_of t | None => -1 end) /\
  (forall t, c = Some t -> 0 <= ms_of t < 2 ^ 61).
Proof.
  destruct c as [t |]; [| done]. intros Hc. destruct (Hc t eq_refl) as [Hs Hn].
  assert (Hq : 0 <= tv_nsec t / 1000000 < 1000) by (split; [apply Z.div_pos; lia | apply Z.div_lt_upper_bound; lia]).
  assert (Hms : 0 <= ms_of t < 2 ^ 61) by (unfold ms_of; lia).
  split; [| by intros ? [= <-]]. unfold monotonic_milliseconds. rewrite Z.quot_div_nonneg by lia. fold (ms_of t).
  unfold int64_ok. rewrite !(proj2 (Z.leb_le _ _)), !(proj2 (Z.ltb_lt _ _)) by lia. done.
Qed.

(** A turn of the wait that ends it: [poll] is not interrupted, or the clock fails
    or has reached the deadline. *)
Definition ends_wait (deadline : Z) (t : wait_turn) : Prop :=
  wt_poll t <> PollInterrupted \/ forall now, wt_clock t = Some now -> deadline <= ms_of now.

(** The answers to one attempt: clocks that make sense and do not run backwards, and
    a wait that is not interrupted for ever *)
Definition attempt_ok (timeout_ms : Z) (a : attempt) : Prop :=
  clock_ok (at_clock a) /\ Forall (fun t => clock_ok (wt_clock t)) (at_turns a) /\
  forall start, at_clock a = Some start ->
    (forall t now, t ∈ at_turns a -> wt_clock t = Some now -> ms_of start <= ms_of now) /\
    Exists (ends_wait (ms_of start + timeout_ms)) (at_turns a).

(** ** Waiting *)

Lemma wait_loop_ends turns start timeout_ms :
  0 < timeout_ms <= int_max -> Forall (fun t => clock_ok (wt_clock t)) turns ->
  (forall t now, t ∈ turns -> wt_clock t = Some now -> start <= ms_of now) ->
  Exists (ends_wait (start + timeout_ms)) turns ->
  exists r polls c, wait_loop turns (start + timeout_ms) = Ret (r, polls, c) /\ (r = 0 /\ c = true \/ r = -1) /\
    Forall (fun p => 0 < p <= timeout_ms) polls.
Proof.
  intros Ht Hc Hmono Hex. induction turns as [| t turns IH]; [by apply Exists_nil in Hex |].
  apply Forall_cons in Hc as [Hc1 Hc2]. destruct (milliseconds_ok _ Hc1) as [Hms Hpos]. cbn [wait_loop]. rewrite Hms. cbn [mbind outcome_bind].
  destruct (wt_clock t) as [now |] eqn:En.
  2: { exists (-1), [], false. by split_and!; [| right |]. }
  specialize (Hpos now eq_refl). pose proof (Hmono t now (list_elem_of_here _ _) En) as Hge.
  destruct (Z.ltb_spec (ms_of now) 0); [lia |]. cbn [orb].
  destruct (Z.leb_spec (start + timeout_ms) (ms_of now)) as [| Hlt]; [exists (-1), [], false; by split_and!; [| right |] |]. cbn zeta.
  rewrite to_int_id by (unfold is_int, int_max in *; lia). set (p := start + timeout_ms - ms_of now).
  assert (Hp : 0 < p <= timeout_ms) by (unfold p; lia).
  destruct (wt_poll t) eqn:Ep.
  - exists (if wt_getsockopt t && (wt_error t =? 0) then 0 else -1), [p], (wt_error t =? 0).
    destruct (wt_getsockopt t), (wt_error t =? 0); (split_and!; [done | auto | by apply Forall_singleton]).
  - exists (-1), [p], false. by split_and!; [| right | apply Forall_singleton].
  - apply Exists_cons in Hex as [[Hne | Hdl] | Hex]; [done | specialize (Hdl now En); lia |].
    destruct IH as (r & polls & c & -> & Hr & Hpolls); [done | | done |].
    { intros t' now' Hin. apply Hmono. by right. }
    cbn. exists r, (p :: polls), c. by split_and!; [| | constructor].
  - exists (-1), [p], false. by split_and!; [| right | apply Forall_singleton].
Qed.

Lemma wait_for_connect_ends a timeout_ms :
  0 < timeout_ms <= int_max -> attempt_ok timeout_ms a ->
  exists r polls c, wait_for_connect (at_clock a) (at_turns a) timeout_ms = Ret (r, polls, c) /\ (r = 0 /\ c = true \/ r = -1) /\
    Forall (fun p => 0 < p <= timeout_ms) polls.
Proof.
  intros Ht (Hc & Hcs & Hok). destruct (milliseconds_ok _ Hc) as [Hms Hpos]. unfold wait_for_connect. rewrite Hms. cbn [mbind outcome_bind].
  destruct (at_clock a) as [start |] eqn:Es; [| exists (-1), [], false; by split_and!; [| right |]].
  specialize (Hpos start eq_refl). destruct (Hok start eq_refl) as [Hmono Hex]. destruct (Z.ltb_spec (ms_of start) 0); [lia |].
  assert (int64_ok (ms_of start + timeout_ms) = true) as ->.
  { unfold int64_ok, int_max in *. apply andb_true_iff. split; [apply Z.leb_le | apply Z.ltb_lt]; lia. }
  by apply wait_loop_ends.
Qed.

(** Connecting is bounded: while the clock does not run backwards and [poll] is
    not interrupted for ever, the wait for a connection returns; every [poll] has a
    positive timeout of at most what the caller allows, so none waits without a
    limit, although [poll] takes a negative timeout as one. *)
Theorem wait_for_connect_bounded a timeout_ms :
  0 < timeout_ms <= int_max -> attempt_ok timeout_ms a ->
  exists r polls c, wait_for_connect (at_clock a) (at_turns a) timeout_ms = Ret (r, polls, c) /\ (r = 0 /\ c = true \/ r = -1) /\
    Forall (fun p => 0 < p <= timeout_ms) polls.
Proof. apply wait_for_connect_ends. Qed.

(** ** Opening *)

(** The descriptors that the kernel hands out are free. *)
Definition socket_fresh (n : net) (a : attempt) : Prop := forall fd, at_socket a = Some fd -> 0 <= fd /\ n !! fd = None.

(** A connected socket with its own flags *)
Definition connected_socket (flags : Z) : csock :=
  {| cs_flags := flags; cs_connected := true; cs_rcvtimeo := None; cs_sndtimeo := None |}.

Lemma connect_address_ok a timeout_ms n :
  0 < timeout_ms <= int_max -> attempt_ok timeout_ms a -> socket_fresh n a ->
  exists r n', connect_address a timeout_ms n = Ret (r, n') /\
    (r = -1 /\ n' = n \/
     0 <= r /\ at_socket a = Some r /\ exists flags, at_flags a = Some flags /\ n' = <[r := connected_socket flags]> n).
Proof.
  intros Ht Ha Hf. unfold connect_address. destruct (at_socket a) as [fd |] eqn:Es; [| by eexists _, _; split; [| left]].
  destruct (Hf fd Es) as [Hfd Hnone]. cbn zeta.
  assert (Hleft : forall x s, delete fd (alter x fd (<[fd := s]> n)) = n /\ delete fd (<[fd := s]> n) = n).
  { intros x s. rewrite alter_insert_eq, !delete_insert_id by done. done. }
  destruct (at_flags a) as [flags |] eqn:Ef; [| eexists _, _; split; [done |]; left; split; [done | by apply (Hleft id)]].
  destruct (at_nonblock a); cbn [negb]; [| eexists _, _; split; [done |]; left; split; [done | by apply (Hleft id)]].
  assert (Hres : exists r c, match at_connect a with
      | ConnectOk => Ret (0, true)
      | ConnectInProgress => '(r, _, c) ← wait_for_connect (at_clock a) (at_turns a) timeout_ms; Ret (r, c)
      | ConnectFailed => Ret (-1, false) end = Ret (r, c) /\ (r = 0 -> c = true)).
  { destruct (at_connect a); [by eexists _, _ | | by eexists _, _].
    destruct (wait_for_connect_ends a timeout_ms Ht Ha) as (r & polls & c & -> & Hr & _). eexists _, _. split; [done |].
    destruct Hr as [[_ ->] | ->]; done. }
  destruct Hres as (r & c & -> & Hc). cbn [mbind outcome_bind]. rewrite !alter_insert_eq.
  destruct (Z.eqb_spec r 0) as [-> |]; cbn [negb orb]; [| eexists _, _; split; [done |]; left; split; [done | by apply (Hleft id)]].
  destruct (at_restore a); cbn [negb]; eexists _, _; (split; [done |]); [right | left; split; [done | by apply (Hleft id)]].
  split_and!; [done | done |]. exists flags. split; [done |]. rewrite (Hc eq_refl). done.
Qed.

Lemma address_loop_ok l timeout_ms n :
  0 < timeout_ms <= int_max -> Forall (attempt_ok timeout_ms) l -> Forall (socket_fresh n) l ->
  exists r n', address_loop l timeout_ms n = Ret (r, n') /\
    (r = -1 /\ n' = n \/
     0 <= r /\ n !! r = None /\ exists a flags, a ∈ l /\ at_flags a = Some flags /\ n' = <[r := connected_socket flags]> n).
Proof.
  intros Ht. induction l as [| a l IH]; intros Ha Hf; [by eexists _, _; split; [| left] |].
  apply Forall_cons in Ha as [Ha1 Ha2], Hf as [Hf1 Hf2]. cbn [address_loop].
  destruct (connect_address_ok a timeout_ms n Ht Ha1 Hf1) as (r & n' & -> & [[-> ->] | (Hr & Hs & flags & Hfl & ->)]); cbn [mbind outcome_bind].
  - change (0 <=? -1) with false. cbn iota.
    destruct (IH Ha2 Hf2) as (r & n' & -> & [? | (H1 & H2 & b & flags & Hb & H3)]); eexists _, _; (split; [done |]); [by left | right].
    split_and!; [done | done |]. exists b, flags. split; [by right | done].
  - rewrite (proj2 (Z.leb_le _ _) Hr). eexists _, _. split; [done |]. right. split_and!; [done | by apply (Hf1 r) |].
    exists a, flags. split; [by left | done].
Qed.

(** (C40) Opening a connection: while the clock makes sense and [poll] is not
    interrupted beyond the deadline ([attempt_ok]) it returns, without overflow; a
    failure leaves the open sockets of the process exactly as they were; a success adds one socket, which
    the kernel has connected (at once, or as the end of the pending connection says),
    with the flags the kernel created it with, so blocking again, and both timeouts
    equal to the configured number of milliseconds. *)
Theorem client_connection_open_correct l rcv_ok snd_ok host port connect_timeout_ms io_timeout_ms n :
  connect_timeout_ms <= int_max -> io_timeout_ms <= int_max ->
  Forall (attempt_ok connect_timeout_ms) l -> Forall (socket_fresh n) l ->
  exists r n', client_connection_open (Some l) rcv_ok snd_ok host port connect_timeout_ms io_timeout_ms n = Ret (r, n') /\
    (r = -1 /\ n' = n \/
     0 <= r /\ n !! r = None /\ delete r n' = n /\ client_connection_close r n' = n /\
     exists a s t, a ∈ l /\ n' !! r = Some s /\ cs_connected s = true /\ at_flags a = Some (cs_flags s) /\
       cs_rcvtimeo s = Some t /\ cs_sndtimeo s = Some t /\
       tv_sec_of t * 1000000 + tv_usec_of t = io_timeout_ms * 1000 /\ 0 <= tv_usec_of t < 1000000).
Proof.
  intros Hc Hio Ha Hf. unfold client_connection_open.
  destruct (_ || _ || _ || _) eqn:E; [by eexists _, _; split; [| left] |].
  apply orb_false_iff in E as [[_ E1]%orb_false_iff E2]. apply Z.leb_gt in E1, E2.
  destruct (address_loop_ok l connect_timeout_ms n) as (r & n' & -> & [[-> ->] | (Hr & Hnone & a & flags & Hin & Hfl & ->)]);
    [lia | done | done | |]; cbn [mbind outcome_bind].
  - change (-1 <? 0) with true. by eexists _, _; split; [| left].
  - rewrite (proj2 (Z.ltb_ge _ _) Hr). cbn zeta.
    destruct rcv_ok; cbn [negb]; [| eexists _, _; split; [done |]; left; split; [done | by rewrite delete_insert_id]].
    rewrite alter_insert_eq.
    destruct snd_ok; cbn [negb]; [| eexists _, _; split; [done |]; left; split; [done | by rewrite delete_insert_id]].
    rewrite alter_insert_eq. eexists _, _. split; [done |]. right. unfold client_connection_close. rewrite (proj2 (Z.ltb_ge _ _) Hr).
    split_and!; [done | done | by rewrite delete_insert_id | by rewrite delete_insert_id |].
    eexists a, _, _. rewrite lookup_insert_eq. split_and!; [done | done | done | done | done | done | | |].
    + cbn. rewrite Z.rem_mod_nonneg, Z.quot_div_nonneg by lia. pose proof (Z.div_mod io_timeout_ms 1000). lia.
    + cbn. rewrite Z.rem_mod_nonneg by lia. pose proof (Z.mod_pos_bound io_timeout_ms 1000). lia.
    + cbn. rewrite Z.rem_mod_nonneg by lia. pose proof (Z.mod_pos_bound io_timeout_ms 1000). lia.
Qed.

(** ** Listening *)

(** The listening socket: [network_listen] returns a socket that is bound and
    listens, the only one that it leaves open, or -1 with none left open. *)
Theorem network_listen_correct addresses listen_ok n :
  (forall l a fd, addresses = Some l -> a ∈ l -> ba_socket a = Some fd -> 0 <= fd /\ n !! fd = None) ->
  let (fd, n') := network_listen addresses listen_ok n in
  fd = -1 /\ n' = n \/
  0 <= fd /\ n !! fd = None /\ n' = <[fd := {| ls_bound := true; ls_listening := true |}]> n.
Proof.
  intros Hf. unfold network_listen. destruct addresses as [l |]; [| by left].
  assert (Hbind : let (fd, n') := bind_loop l n in
    fd = -1 /\ n' = n \/ 0 <= fd /\ n !! fd = None /\ n' = <[fd := {| ls_bound := true; ls_listening := false |}]> n).
  { assert (Hl : forall a fd, a ∈ l -> ba_socket a = Some fd -> 0 <= fd /\ n !! fd = None) by (intros a fd; by apply Hf).
    clear Hf. induction l as [| a l IH]; cbn; [by left |]. destruct (ba_socket a) as [fd |] eqn:Es.
    - destruct (Hl a fd) as [H1 H2]; [by left | done |]. destruct (ba_bind a).
      + right. split_and!; [done | done |]. apply insert_insert_eq.
      + rewrite delete_insert_id by done. apply IH. intros b fd' Hb. apply Hl. by right.
    - apply IH. intros b fd' Hb. apply Hl. by right. }
  destruct (bind_loop l n) as [fd n']. destruct Hbind as [[-> ->] | (Hfd & Hnone & ->)]; [by left |].
  destruct (Z.eqb_spec fd (-1)); [lia |]. destruct listen_ok; cbn [negb]; [right | left].
  - split_and!; [done | done |]. apply insert_insert_eq.
  - split; [done |]. by rewrite delete_insert_id.
Qed.

(** ** A connection that is interrupted once and then established *)

Definition demo_turn (ms : Z) (p : poll_answer) : wait_turn :=
  {| wt_clock := Some {| tv_sec := 100; tv_nsec := ms * 1000000 |}; wt_poll := p; wt_error := 0; wt_getsockopt := true |}.
Definition demo_attempt : attempt := {|
  at_socket := Some 5; at_flags := Some 2; at_nonblock := true; at_connect := ConnectInProgress;
  at_clock := Some {| tv_sec := 100; tv_nsec := 0 |};
  at_turns := [demo_turn 1 PollInterrupted; demo_turn 40 PollReady]; at_restore := true |}.

Lemma demo_attempt_ok : attempt_ok 5000 demo_attempt.
Proof.
  assert (Hturn : forall t, t ∈ at_turns demo_attempt -> exists ms p, 0 <= ms < 1000 /\ t = demo_turn ms p).
  { intros t Ht. cbn in Ht. rewrite !elem_of_cons, elem_of_nil in Ht. destruct Ht as [-> | [-> | []]].
    - exists 1, PollInterrupted. split; [lia | done].
    - exists 40, PollReady. split; [lia | done]. }
  split_and!.
  - intros t [= <-]. cbn. lia.
  - apply Forall_forall. intros t (ms & p & Hms & ->)%Hturn ? [= <-]. cbn. lia.
  - intros start [= <-]. split.
    + intros t now (ms & p & Hms & ->)%Hturn [= <-]. unfold ms_of. cbn [demo_turn tv_sec tv_nsec]. rewrite Z.div_mul by lia. change (0 / 1000000) with 0. lia.
    + right. left. by left.
Qed.

Lemma wait_for_connect_bounded_witness :
  exists r polls c, wait_for_connect (at_clock demo_attempt) (at_turns demo_attempt) 5000 = Ret (r, polls, c) /\ (r = 0 /\ c = true \/ r = -1) /\
    Forall (fun p => 0 < p <= 5000) polls.
Proof. apply (wait_for_connect_bounded demo_attempt 5000); [unfold int_max; lia | exact demo_attempt_ok]. Defined.

Lemma client_connection_open_correct_witness :
  exists n', client_connection_open (Some [demo_attempt]) true true (lit "127.0.0.1") (lit "8888") 5000 30000 ∅ = Ret (5, n') /\
    client_connection_close 5 n' = ∅ /\ cs_flags <$> n' !! 5 = Some 2.
Proof.
  destruct (client_connection_open_correct [demo_attempt] true true (lit "127.0.0.1") (lit "8888") 5000 30000 ∅)
    as (r & n' & Hopen & Hcase).
  - unfold int_max. lia.
  - unfold int_max. lia.
  - apply Forall_singleton. exact demo_attempt_ok.
  - apply Forall_singleton. intros fd [= <-]. split; [lia | apply lookup_empty].
  - vm_compute in Hopen. injection Hopen as <- <-. destruct Hcase as [[Hbad _] | (_ & _ & _ & Hclose & _)]; [discriminate Hbad |].
    eexists. split; [vm_compute; reflexivity |]. split; [exact Hclose | vm_compute; reflexivity].
Defined.

Lemma network_listen_correct_witness :
  network_listen (Some [{| ba_socket := Some 3; ba_bind := false |}; {| ba_socket := Some 3; ba_bind := true |}]) true ∅ =
    (3, {[3 := {| ls_bound := true; ls_listening := true |}]}).
Proof.
  pose proof (network_listen_correct (Some [{| ba_socket := Some 3; ba_bind := false |}; {| ba_socket := Some 3; ba_bind := true |}]) true ∅) as Hl.
  destruct (network_listen _ _ _) as [fd n'] eqn:E. destruct Hl as [[Hfd _] | (_ & _ & Hn)].
  - intros l a fd' [= <-] Ha Hs. split; [| apply lookup_empty]. rewrite !elem_of_cons, elem_of_nil in Ha.
    destruct Ha as [-> | [-> | []]]; injection Hs as <-; lia.
  - subst fd. vm_compute in E. discriminate E.
  - assert (fd = 3) as -> by (vm_compute in E; congruence). by rewrite Hn.
Defined.
