(* ===== verification/Log.v ===== *)
(** * The log ([src/common/log.c])

    One global state: a threshold, a stream, and whether it is initialised.  Writing
    through a NULL stream is undefined.  What is written is kept per stream. *)

From Stdlib Require Import Strings.Byte.
From S2P Require Import Prelude CString.

Definition LOG_LEVEL_DEBUG : Z := 0.
Definition LOG_LEVEL_INFO : Z := 1.
Definition LOG_LEVEL_WARN : Z := 2.
Definition LOG_LEVEL_ERROR : Z := 3.

Inductive stream := Stdout | LogFile.
#[global] Instance stream_eq_dec : EqDecision stream.
Proof. solve_decision. Defined.

(** [lg_open] counts the log files that are open. *)
Record log_state := {
  lg_level : Z;
  lg_fp : option stream;
  lg_init_done : bool;
  lg_written : list (stream * list byte);
  lg_open : Z
}.
Definition s_log : log_state := {| lg_level := 0; lg_fp := None; lg_init_done := false; lg_written := []; lg_open := 0 |}.

Definition parse_log_level (level_str : list byte) : Z :=
  if strcaseeq level_str (lit "DEBUG") then LOG_LEVEL_DEBUG
  else if strcaseeq level_str (lit "INFO") then LOG_LEVEL_INFO
  else if strcaseeq level_str (lit "WARN") then LOG_LEVEL_WARN
  else if strcaseeq level_str (lit "ERROR") then LOG_LEVEL_ERROR
  else LOG_LEVEL_INFO.

Definition log_level_to_str (level : Z) : list byte :=
  if level =? LOG_LEVEL_DEBUG then lit "DEBUG"
  else if level =? LOG_LEVEL_INFO then lit "INFO"
  else if level =? LOG_LEVEL_WARN then lit "WARN"
  else if level =? LOG_LEVEL_ERROR then lit "ERROR"
  else lit "UNKNOWN".

(** [log_file] may be NULL; [opens] is the success of [fopen]. *)
Definition log_init (level_str : list byte) (log_file : option (list byte)) (opens : bool) (g : log_state) : Z * log_state :=
  if lg_init_done g then (0, g)
  else
    let wanted := match log_file with Some (_ :: _) => true | _ => false end in
    let ret := if wanted && negb opens then -1 else 0 in
    (ret, {| lg_level := parse_log_level level_str; lg_fp := Some (if wanted && opens then LogFile else Stdout);
             lg_init_done := true; lg_written := lg_written g; lg_open := if wanted && opens then lg_open g + 1 else lg_open g |}).

Definition log_close (g : log_state) : log_state :=
  if negb (lg_init_done g) then g
  else {| lg_level := lg_level g; lg_fp := None; lg_init_done := false; lg_written := lg_written g;
          lg_open := if bool_decide (lg_fp g = Some LogFile) then lg_open g - 1 else lg_open g |}.

(** [text] is the formatted message before it is cut to the buffer, [time] what
    [strftime] writes. *)
Definition log_write (level : Z) (file : list byte) (line : Z) (func text time : list byte) (g : log_state) : outcome log_state :=
  if level <? lg_level g then Ret g
  else
    let log_msg := snd (snprintf 1024 text) in
    fp ← deref (lg_fp g);
    let entry := lit "[" ++ time ++ lit "] [" ++ log_level_to_str level ++ lit "] [" ++ file ++ lit ":" ++ sdec line ++ lit " " ++
                 func ++ lit "] " ++ log_msg ++ [NEWLINE] in
    Ret {| lg_level := lg_level g; lg_fp := lg_fp g; lg_init_done := lg_init_done g;
           lg_written := lg_written g ++ [(fp, entry)]; lg_open := lg_open g |}.

(** ** Between [log_init] and [log_close] *)

(** The log is open with threshold [level]. *)
Definition logging (level : Z) (g : log_state) : Prop := lg_init_done g = true /\ is_Some (lg_fp g) /\ lg_level g = level.

Lemma log_init_logging level_str log_file opens :
  logging (parse_log_level level_str) (snd (log_init level_str log_file opens s_log)) /\
  lg_open (log_close (snd (log_init level_str log_file opens s_log))) = 0.
Proof. destruct log_file as [[| b f] |], opens; cbn; (split; [by split_and! |]); done. Qed.

(** A message is written exactly when its level reaches the threshold, to the stream
    that [log_init] chose, and the log stays open. *)
Lemma log_write_logging threshold g level file line func text time :
  logging threshold g ->
  exists g', log_write level file line func text time g = Ret g' /\ logging threshold g' /\ lg_fp g' = lg_fp g /\ lg_open g' = lg_open g /\
    if level <? threshold then lg_written g' = lg_written g
    else exists fp entry, lg_fp g = Some fp /\ lg_written g' = lg_written g ++ [(fp, entry)].
Proof.
  intros (Hi & [fp Hfp] & <-). unfold log_write. destruct (level <? lg_level g); [by eexists; split_and! |].
  rewrite Hfp. cbn. eexists. split; [done |]. split_and!; cbn; rewrite ?Hfp; eauto. by split_and!.
Qed.
