(* ===== verification/ClientMain.v ===== *)
(** * The client program ([src/client/main.c], start and end of [src/client/runtime.c])

    Reading the paths and the configuration, the start of the runtime, the loop of
    logins and commands, and the cleanup.  The threads of transfers work between the
    turns of the main thread: what they do to the manager is an argument of each
    turn ([TransferSystem] has them in full). *)

From Stdlib Require Import Strings.Byte.
From S2P Require Import Prelude CString Protocol Utils Heap Files HandlerTransfer ClientTransfer Ini ClientRuntime ClientConfig.
From S2P Require Import TransferManager ClientCommand Log.

(** ** Paths and configuration *)

(** The configuration, the download directory and the log file *)
Definition load_paths_and_config (argv : list (list byte)) (getcwd : option (list byte))
    (fopen : list byte -> option (list byte)) (config : client_config) : option (client_config * list byte * list byte) :=
  if (2 <? length argv)%nat then None
  else
    match get_project_dir getcwd PATH_MAX with
    | None => None
    | Some project_dir =>
        let config_path :=
          match argv with
          | [_; arg] => let (written, path) := snprintf PATH_MAX arg in if PATH_MAX <=? written then None else Some path
          | _ => join_path PATH_MAX project_dir (lit "config/client.conf")
          end in
        match config_path with
        | None => None
        | Some config_path =>
            let (r, config) := client_config_load fopen config config_path in
            if negb (r =? 0) then None
            else
              match join_path PATH_MAX project_dir (log_file (log config)),
                    join_path PATH_MAX project_dir (cfg_download_dir (storage config)) with
              | Some log_file, Some download_dir => Some (config, download_dir, log_file)
              | _, _ => None
              end
        end
    end.

(** ** The runtime *)

(** A runtime as [memset] leaves it, with no connection *)
Definition blank_runtime : client_runtime := {|
  rt_config := zero_config; control_fd := -1; rt_session_id := empty_session_id; rt_username := []; rt_remote_cwd := [];
  rt_download_dir := []; rt_transfers := false |}.

Definition client_runtime_init (config : client_config) (download_dir : list byte) (create_ok : bool)
    : option (client_runtime * transfer_manager) :=
  if PATH_MAX <=? Z.of_nat (length download_dir) then None
  else
    match transfer_manager_create (u64 (max_concurrent (transfer config))) create_ok with
    | None => None
    | Some transfers =>
        Some ({| rt_config := config; control_fd := -1; rt_session_id := empty_session_id; rt_username := [];
                 rt_remote_cwd := []; rt_download_dir := download_dir; rt_transfers := true |}, transfers)
    end.

(** [transfer_manager_drain_events] with what it prints *)
Definition drain_events (c : client) : outcome client :=
  let (p, m) := drain_section (c_mgr c) in
  '(out, m) ← drain_loop (size (m_events m)) m p;
  Ret (foldl (fun c e => print c (TransferEnded e)) (set_c_mgr c m) out).

(** [transfer_manager_stop]: [finish] is what the threads do while it waits. *)
Definition transfer_manager_stop (finish : transfer_manager -> transfer_manager) (c : client) : outcome client :=
  '(_, m) ← stop_section (c_mgr c);
  let m := finish m in
  if stop_done m then Ret (set_c_mgr c m) else NoReturn.

Definition clear_transfers (rt : client_runtime) : client_runtime := {|
  rt_config := rt_config rt; control_fd := control_fd rt; rt_session_id := rt_session_id rt; rt_username := rt_username rt;
  rt_remote_cwd := rt_remote_cwd rt; rt_download_dir := rt_download_dir rt; rt_transfers := false |}.

Definition client_runtime_destroy (finish : transfer_manager -> transfer_manager) (c : client) : outcome client :=
  c ← (if rt_transfers (c_rt c) then
         c ← transfer_manager_stop finish c;
         c ← drain_events c;
         m ← transfer_manager_destroy (c_mgr c);
         Ret (set_rt (set_c_mgr c m) (clear_transfers (c_rt c)))
       else Ret c);
  Ret (disconnect c).

(** ** The loops of [main] *)

(** What happens during one turn: the work of the other threads, the answers to a
    command (the memory that [calloc] finds depends on what is allocated), and to
    [client_connection_open] if it comes to that *)
Record client_turn := {
  ct_workers : transfer_manager -> transfer_manager;
  ct_env : transfer_manager -> submit_env;
  ct_opened : option (Z * socket)
}.

Section main.
Context `{Host} (malloc_ok : Z -> bool).

(** The inner loop; [None] leaves it for another login, [Some code] for the exit.
    The loop takes its turns from the list. *)
Fixpoint command_loop (turns : list client_turn) (c : client) : outcome (option Z * client * list client_turn) :=
  match turns with
  | [] => NoReturn
  | t :: turns =>
      c ← drain_events (set_c_mgr c (ct_workers t (c_mgr c)));
      '(r, c) ← command_turn malloc_ok (ct_env t (c_mgr c)) (ct_opened t) c;
      match r with
      | TurnAgain => command_loop turns c
      | TurnReconnect => Ret (None, c, turns)
      | TurnExit code => Ret (Some code, c, turns)
      end
  end.

(** The outer loop: a login for each entry, which says whether the standard input
    is a terminal, bounds the menu's turns and answers the connection *)
Record login_turn := { lt_terminal : bool; lt_fuel : nat; lt_opened : option (Z * socket) }.

Fixpoint login_loop (logins : list login_turn) (turns : list client_turn) (c : client) : outcome (Z * client) :=
  match logins with
  | [] => NoReturn
  | l :: logins =>
      '(r, c) ← user_auth malloc_ok (lt_fuel l) (lt_terminal l) c;
      match r with
      | AUTH_CONNECTION_ERROR =>
          let (r, c) := connect_control (lt_opened l) (print c Notice) in
          if negb (r =? 0) then Ret (1, c) else login_loop logins turns c
      | AUTH_EXIT => Ret (0, c)
      | AUTH_OK =>
          '(code, c, turns) ← command_loop turns (print c Notice);
          match code with
          | Some code => Ret (code, c)
          | None => login_loop logins turns c
          end
      end
  end.

(** ** [main] *)

Record startup := {
  su_argv : list (list byte);
  su_getcwd : option (list byte);
  su_fopen : list byte -> option (list byte);
  su_log_opens : bool;
  su_create_ok : bool;
  su_opened : option (Z * socket)
}.

(** The exit code, the client as the cleanup leaves it ([None] when the runtime was
    not initialised), the state of the log, and the file system.  [su_log_opens] is the
    success of [fopen] on the log file; the messages that are logged on the way are
    left out, since they do not change whether the log is open. *)
Definition client_main {FS} (mkdir : list byte -> FS -> bool * FS) (su : startup) (stdin : list byte) (peeks : list peek_answer)
    (idle : socket) (logins : list login_turn) (turns : list client_turn) (finish : transfer_manager -> transfer_manager)
    (fs : FS) : outcome (Z * option client * log_state * FS) :=
  match load_paths_and_config (su_argv su) (su_getcwd su) (su_fopen su) zero_config with
  | None => Ret (1, None, s_log, fs)
  | Some (config, download_dir, log_file) =>
      let (r, fs) := ensure_parent_dir mkdir log_file fs in
      if negb (r =? 0) then Ret (1, None, s_log, fs)
      else
        let (_, lg) := log_init (log_level (log config)) (Some log_file) (su_log_opens su) s_log in
        let (r, fs) := mkdir_p mkdir download_dir fs in
        if negb (r =? 0) then Ret (1, None, log_close lg, fs)
        else
          match client_runtime_init config download_dir (su_create_ok su) with
          | None => Ret (1, None, log_close lg, fs)
          | Some (rt, m) =>
              let c := {| c_rt := rt; c_conn := idle; c_mgr := m; c_peeks := peeks; c_stdin := stdin; c_screen := [];
                          c_opened_fds := []; c_closed_fds := [] |} in
              let (r, c) := connect_control (su_opened su) c in
              '(code, c) ← (if negb (r =? 0) then Ret (1, c) else login_loop logins turns c);
              let c := if code =? 0 then print c Notice else c in
              c ← client_runtime_destroy finish c;
              Ret (code, Some c, log_close lg, fs)
          end
  end.
End main.
