(* ===== verification/ClientMainSpec.v ===== *)
(** * The client program as a whole

    From its start to its exit, whatever the user types, the server answers and the
    kernel does: nothing is undefined, every control connection that was opened is
    closed once, and the transfers are stopped and reported before the end. *)

From Stdlib Require Import Strings.Byte.
From S2P Require Import Prelude CString Protocol Utils Heap Files HandlerTransfer ClientTransfer ClientTransferSpec.
From S2P Require Import Ini ClientRuntime ClientConfig TransferManager TransferManagerSpec TransferSystem TransferSystemSpec.
From S2P Require Import HandlerBasic HandlerBasicSpec HandlerTransferFlow ClientCommand ClientCommandSpec Log ClientMain.

(** ** Invariant of the main thread *)

(** The control connections that are not closed: the current one *)
Definition open_fds (rt : client_runtime) : list Z := if 0 <=? control_fd rt then [control_fd rt] else [].

Record client_ok (c : client) : Prop := {
  ok_session : session_ok (c_rt c);
  ok_transfers : rt_transfers (c_rt c) = true;
  ok_control : c_opened_fds c = c_closed_fds c ++ open_fds (c_rt c);
  ok_buffers : buffers (c_conn c) = 0;
  ok_manager : managed_somehow (c_mgr c);
  ok_due : due c = 0
}.

(** What the world may do: the other threads keep the manager well formed and the
    events in memory, which only the main thread allocates and frees
    ([TransferSystemSpec.thread_step_events]), [calloc] returns memory that is free, and a
    connection is a new descriptor. *)
Definition workers_ok (f : transfer_manager -> transfer_manager) : Prop :=
  forall m, managed_somehow m -> managed_somehow (f m) /\ size (m_events (f m)) = size (m_events m).
Definition opened_ok (o : option (Z * socket)) : Prop := forall fd s, o = Some (fd, s) -> 0 <= fd /\ buffers s = 0.
Definition turn_ok (t : client_turn) : Prop :=
  workers_ok (ct_workers t) /\ (forall m, managed_somehow m -> fresh_alloc m (env_alloc (ct_env t m))) /\ opened_ok (ct_opened t).

(** Nothing that the main thread owns differs, except what it has read and shown and
    who is logged in. *)
Record keeps (c c' : client) : Prop := {
  kp_control : control_fd (c_rt c') = control_fd (c_rt c);
  kp_transfers : rt_transfers (c_rt c') = rt_transfers (c_rt c);
  kp_opened : c_opened_fds c' = c_opened_fds c;
  kp_closed : c_closed_fds c' = c_closed_fds c;
  kp_manager : c_mgr c' = c_mgr c;
  kp_buffers : buffers (c_conn c') = buffers (c_conn c);
  kp_due : due c' = due c
}.

Lemma keeps_refl c : keeps c c.
Proof. by split. Qed.
Lemma keeps_trans c1 c2 c3 : keeps c1 c2 -> keeps c2 c3 -> keeps c1 c3.
Proof. intros [] []. split; congruence. Qed.
Lemma keeps_print c x : neutral x = true -> keeps c (print c x).
Proof. intros Hx. split; try done. by apply due_neutral. Qed.

Lemma keeps_ok c c' : client_ok c -> keeps c c' -> session_ok (c_rt c') -> client_ok c'.
Proof.
  intros [H1 H2 H3 H4 H5 H6] [K1 K2 K3 K4 K5 K6 K7] Hs.
  split; [done | by rewrite K2 | unfold open_fds; by rewrite K1, K3, K4 | by rewrite K6 | by rewrite K5 | by rewrite K7].
Qed.

Lemma get_line_keeps size c : keeps c (snd (get_line size c)) /\ c_rt (snd (get_line size c)) = c_rt c.
Proof. unfold get_line. by destruct (s_gets size (c_stdin c)) as [[l rest] |]. Qed.
Lemma get_password_keeps term_ok size c : keeps c (snd (get_password term_ok size c)) /\ c_rt (snd (get_password term_ok size c)) = c_rt c.
Proof. unfold get_password. by destruct (read_password term_ok size (c_stdin c)) as [[r pw] rest]. Qed.

Section safety.
Context `{Host} (malloc_ok : Z -> bool).

Lemma is_alive_keeps c : safely (client_connection_is_alive c) (fun x => keeps c x.2 /\ c_rt x.2 = c_rt c).
Proof.
  unfold client_connection_is_alive. destruct (_ <? 0); [by split; [apply keeps_refl |] |]. apply safely_bind.
  by induction (c_peeks c) as [| [] l IH]; cbn.
Qed.

(** ** Logging in *)

Lemma exchange_auth_safe c ty text :
  cmd_wf ty ->
  safely (exchange_auth malloc_ok c ty text) (fun x => let '(r, response, c') := x in
    c_rt c' = c_rt c /\ control_fd (c_rt c') = control_fd (c_rt c) /\ c_opened_fds c' = c_opened_fds c /\ c_closed_fds c' = c_closed_fds c /\
    c_mgr c' = c_mgr c /\ due c' = due c /\ (r = 0 -> session_id_wf (session_id_of (header response))) /\
    buffers (snd (packet_release (c_conn c') response)) = buffers (c_conn c)).
Proof.
  intros Hty. unfold exchange_auth. destruct (packet_init _ _ _ _ _) as [request |] eqn:Ep; [| done].
  assert (Hwf : packet_wf request).
  { unfold packet_init in Ep. destruct (_ || _) eqn:Eg; [done |]. injection Ep as <-.
    apply orb_false_iff in Eg as [Hl%Z.ltb_ge _]. split; [| done]. split_and!; cbn; [done | enum_wf | lia | done | done]. }
  apply safely_bind. pose proof (send_packet_defined (c_conn c) request Hwf) as Hdef.
  destruct (protocol_send_packet (c_conn c) request) as [[r s] | |] eqn:Es; [| done | done]. cbn [safely].
  destruct (send_packet_frame _ _ _ _ Es) as [_ Hbs]. destruct (negb (r =? 0)); [by cbn; rewrite Hbs |].
  apply safely_bind. destruct (recv_packet_cases malloc_ok s) as [Hdef2 Hcases]. cbn [c_conn set_conn].
  destruct (protocol_recv_packet malloc_ok s) as [[[r2 p] s2] | |] eqn:Er; [| done | done]. cbn [safely].
  destruct (Hcases _ _ _ eq_refl) as [_ Hp]. rewrite release_buffers. cbn [c_conn set_conn c_rt c_mgr c_opened_fds c_closed_fds].
  split_and!; try done; destruct Hp as [(-> & Hwfp & _ & Hb) | (-> & _ & Hb)]; try done.
  - intros _. apply Hwfp.
  - rewrite Hb, Hbs. lia.
  - rewrite (recv_failed_owns malloc_ok _ _ _ _ Er) by done. rewrite Hb, Hbs. lia.
Qed.

Lemma read_credentials_keeps term_ok c : keeps c (snd (read_credentials term_ok c)) /\ c_rt (snd (read_credentials term_ok c)) = c_rt c.
Proof.
  unfold read_credentials. destruct (get_line_keeps 64 c) as [Hk Hr]. destruct (get_line 64 c) as [[[| b u] |] c1]; cbn in *; try done.
  destruct (get_password_keeps term_ok 32 c1) as [Hk2 Hr2]. destruct (get_password term_ok 32 c1) as [pw c2]. cbn in *.
  split; [by eapply keeps_trans | congruence].
Qed.

(** A login that succeeds leaves a session, one that fails leaves none. *)
Lemma user_login_safe term_ok c :
  safely (user_login malloc_ok term_ok c) (fun x =>
    keeps c x.2 /\ if x.1 =? 0 then logged_in (c_rt x.2) else logged_out (c_rt x.2)).
Proof.
  unfold user_login. set (c1 := set_rt c (client_runtime_clear_session (c_rt c))).
  assert (Hk1 : keeps c c1) by (by split). assert (Ho1 : logged_out (c_rt c1)) by done.
  destruct (read_credentials_keeps term_ok c1) as [Hk2 Hr2]. destruct (read_credentials term_ok c1) as [creds c2]. cbn [snd] in Hk2, Hr2.
  assert (Hk : keeps c c2) by (by eapply keeps_trans). rewrite <- Hr2 in Ho1.
  destruct creds as [[username password] |]; [| by split].
  apply safely_bind. eapply safely_mono; [| apply exchange_auth_safe; enum_wf].
  intros [[r response] c3] (Hrt & Hfd & Hop & Hcl & Hmg & Hdue & Hsid & Hb). rewrite <- Hrt in Ho1.
  assert (Hk3 : forall rt, control_fd rt = control_fd (c_rt c3) -> rt_transfers rt = rt_transfers (c_rt c3) -> forall msgs, Forall (fun x => neutral x = true) msgs ->
    keeps c (set_conn (foldl print (set_rt c3 rt) msgs) (snd (packet_release (c_conn c3) response)))).
  { intros rt Hf Ht msgs Hmsgs. eapply keeps_trans; [exact Hk |].
    assert (Hfold : forall x, c_rt (foldl print x msgs) = c_rt x /\ c_opened_fds (foldl print x msgs) = c_opened_fds x /\
      c_closed_fds (foldl print x msgs) = c_closed_fds x /\ c_mgr (foldl print x msgs) = c_mgr x /\ due (foldl print x msgs) = due x).
    { clear -Hmsgs. induction Hmsgs as [| y msgs Hy _ IH]; intros x; [done |]. cbn [foldl].
      destruct (IH (print x y)) as (-> & -> & -> & -> & ->). by rewrite due_neutral. }
    destruct (Hfold (set_rt c3 rt)) as (F1 & F2 & F3 & F4 & F5).
    split; cbn -[packet_release foldl due]; rewrite ?F1, ?F2, ?F3, ?F4; cbn -[packet_release due]; try congruence.
    transitivity (due (foldl print (set_rt c3 rt) msgs)); [done |]. rewrite F5. exact Hdue. }
  destruct (negb (r =? 0)) eqn:Er; [split; [| done]; apply (Hk3 (c_rt c3) eq_refl eq_refl [] (Forall_nil_2 _)) |].
  apply negb_false_iff, Z.eqb_eq in Er. destruct (_ && _ && _).
  - destruct (client_runtime_publish_session _ _ _) as [rt |] eqn:Ep.
    + destruct (publish_logged_in _ _ _ _ (Hsid Er) Ep) as (Hin & _ & _ & _ & Hf & _ & _ & Ht).
      split; [by apply (Hk3 rt Hf Ht [] (Forall_nil_2 _)) | exact Hin].
    + split; [| done]. apply (Hk3 (c_rt c3) eq_refl eq_refl [] (Forall_nil_2 _)).
  - destruct (_ && _).
    + split; [| done]. apply (Hk3 (c_rt c3) eq_refl eq_refl [_]); by apply Forall_singleton.
    + split; [| done]. apply (Hk3 (c_rt c3) eq_refl eq_refl [] (Forall_nil_2 _)).
Qed.

Lemma confirm_password_safe fuel term_ok c :
  safely (confirm_password fuel term_ok c) (fun x => keeps c x.2 /\ c_rt x.2 = c_rt c).
Proof.
  revert c. induction fuel as [| fuel IH]; intros c; cbn [confirm_password]; [done |].
  destruct (get_password_keeps term_ok 32 c) as [Hk1 Hr1]. destruct (get_password term_ok 32 c) as [[pw |] c1]; [| done].
  destruct (get_password_keeps term_ok 32 c1) as [Hk2 Hr2]. destruct (get_password term_ok 32 c1) as [[pw2 |] c2]; cbn in *.
  2: { split; [by eapply keeps_trans | congruence]. }
  destruct (bool_decide _); [split; [by eapply keeps_trans | cbn; congruence] |].
  eapply safely_mono; [| apply IH]. intros [x c3] [Hk3 Hr3]. cbn in *. split; [| congruence].
  eapply keeps_trans; [by eapply keeps_trans |]. eapply keeps_trans; [| exact Hk3]. by apply keeps_print.
Qed.

Lemma user_register_safe term_ok c : safely (user_register malloc_ok term_ok c) (fun x => keeps c x.2 /\ c_rt x.2 = c_rt c).
Proof.
  unfold user_register. destruct (get_line_keeps 64 c) as [Hk Hr]. destruct (get_line 64 c) as [[[| b u] |] c1]; cbn in Hk, Hr; try done.
  apply safely_bind. eapply safely_mono; [| apply confirm_password_safe]. intros [pw c2] [Hk2 Hr2]. cbn in Hk2, Hr2.
  assert (Hkk : keeps c c2) by (by eapply keeps_trans). destruct pw as [pw |]; [| split; [done | cbn; congruence]].
  apply safely_bind. eapply safely_mono; [| apply exchange_auth_safe; enum_wf].
  intros [[r response] c3] (Hrt & Hfd & Hop & Hcl & Hmg & Hdue & _ & Hb). cbn [safely fst snd]. split; [| cbn; congruence].
  eapply keeps_trans; [exact Hkk |]. split; cbn -[packet_release due]; try congruence. exact Hdue.
Qed.

Lemma user_auth_safe fuel term_ok c :
  session_ok (c_rt c) ->
  safely (user_auth malloc_ok fuel term_ok c) (fun x =>
    keeps c x.2 /\ session_ok (c_rt x.2) /\ (x.1 = AUTH_OK -> logged_in (c_rt x.2))).
Proof.
  revert c. induction fuel as [| fuel IH]; intros c Hs; cbn [user_auth]; [done |].
  assert (Hm : keeps c (snd (menu_show_auth c)) /\ c_rt (snd (menu_show_auth c)) = c_rt c).
  { unfold menu_show_auth. destruct (get_line_keeps 16 c) as [Hk Hr]. destruct (get_line 16 c) as [l c1]. cbn in *. split; [| exact Hr].
    eapply keeps_trans; [exact Hk | by apply keeps_print]. }
  destruct Hm as [Hk1 Hr1]. destruct (menu_show_auth c) as [choice c1]. cbn in Hk1, Hr1.
  assert (Hagain : forall c2, keeps c c2 -> session_ok (c_rt c2) -> safely (user_auth malloc_ok fuel term_ok (print c2 Notice)) (fun x =>
    keeps c x.2 /\ session_ok (c_rt x.2) /\ (x.1 = AUTH_OK -> logged_in (c_rt x.2)))).
  { intros c2 Hk2 Hs2. eapply safely_mono; [| by apply IH]. intros x [Hk3 Hx]. split; [| done].
    eapply keeps_trans; [exact Hk2 |]. eapply keeps_trans; [| exact Hk3]. by apply keeps_print. }
  destruct (choice =? 1); [| destruct (choice =? 2)].
  - apply safely_bind. eapply safely_mono; [| apply is_alive_keeps]. intros [alive c2] [Hk2 Hr2]. cbn in Hk2, Hr2.
    assert (Hkk : keeps c c2) by (by eapply keeps_trans).
    destruct (negb alive); [split; [done |]; split; [cbn; congruence | done] |].
    apply safely_bind. eapply safely_mono; [| apply user_login_safe]. intros [r c3] [Hk3 Hl]. cbn [fst snd] in *.
    assert (Hkkk : keeps c c3) by (by eapply keeps_trans).
    destruct (r =? 0); [split; [done |]; split; [by right | done] |].
    destruct (r =? _); [split; [done |]; split; [by left | done] |]. apply Hagain; [done | by left].
  - apply safely_bind. eapply safely_mono; [| apply is_alive_keeps]. intros [alive c2] [Hk2 Hr2]. cbn in Hk2, Hr2.
    assert (Hkk : keeps c c2) by (by eapply keeps_trans).
    destruct (negb alive); [split; [done |]; split; [cbn; congruence | done] |].
    apply safely_bind. eapply safely_mono; [| apply user_register_safe]. intros [r c3] [Hk3 Hr3]. cbn [fst snd] in *.
    assert (Hkkk : keeps c c3) by (by eapply keeps_trans). assert (Hs3 : session_ok (c_rt c3)) by congruence.
    destruct (r =? _); [by split |]. by apply Hagain.
  - destruct (choice =? 0); [split; [done |]; split; [cbn; congruence | done] |]. apply Hagain; [done | congruence].
Qed.

(** ** The connection and the events *)

Lemma connect_control_ok o c :
  client_ok c -> opened_ok o ->
  client_ok (snd (connect_control o c)) /\ logged_out (c_rt (snd (connect_control o c))) /\
  (fst (connect_control o c) = 0 -> 0 <= control_fd (c_rt (snd (connect_control o c)))).
Proof.
  intros [H1 H2 H3 H4 H5 H6] Ho. unfold connect_control, disconnect. pose proof (disconnect_logged_out (c_rt c)) as [Hout Hneg].
  unfold client_runtime_disconnect_control, open_fds in *.
  destruct (Z.leb_spec 0 (control_fd (c_rt c))); cbn [fst snd] in *; destruct o as [[fd s] |].
  1, 3: destruct (Ho fd s eq_refl) as [Hfd Hb].
  all: split_and!; try done; split; cbn -[due]; try done; try (by left); try (rewrite due_neutral by done); try exact H6; unfold open_fds; cbn.
  all: rewrite ?app_nil_r, ?(proj2 (Z.leb_le _ _) Hfd) in *; by rewrite H3.
Qed.

Lemma drain_events_safe c :
  managed_somehow (c_mgr c) ->
  safely (drain_events c) (fun c' =>
    c_rt c' = c_rt c /\ c_conn c' = c_conn c /\ c_opened_fds c' = c_opened_fds c /\ c_closed_fds c' = c_closed_fds c /\ due c' = due c /\
    exists l, managed (c_mgr c') l [] NULL [] /\ m_active_count (c_mgr c') = m_active_count (c_mgr c)).
Proof.
  intros (l & q & Hm). unfold drain_events. destruct (drain_section_spec _ _ _ _ Hm) as (_ & Hd & Hts & Hes & _).
  destruct (drain_section (c_mgr c)) as [p m] eqn:Ed. cbn [fst snd] in *.
  assert (Hlen : (length q <= size (m_events m))%nat).
  { apply NoDup_length_dom; [by eapply chain_NoDup, Hd |]. intros e He. apply (mg_memory _ _ _ _ _ Hd).
    apply elem_of_app. right. apply elem_of_app. by left. }
  destruct (drain_loop_spec q (size (m_events m)) m l [] p Hd Hlen) as (out & m' & -> & Hm' & Hout & Hts' & _ & Hlab). cbn [mbind outcome_bind safely].
  assert (Hsize : (size (m_events m) = length out + size (m_events m'))%nat).
  { rewrite <- (labels_length _ _ _ _ _ Hd), <- (labels_length _ _ _ _ _ Hm'). cbn [app].
    rewrite <- (length_map shown_label out), Hout, <- length_app. f_equal. unfold labels at 1. rewrite omap_app. f_equal.
    rewrite (omap_same (event_of m') (event_of m)) by (intros; unfold event_of; by rewrite Hts'). symmetry. exact Hlab. }
  assert (Hfold : forall x, let x' := foldl (fun c e => print c (TransferEnded e)) x out in
    c_rt x' = c_rt x /\ c_conn x' = c_conn x /\ c_opened_fds x' = c_opened_fds x /\ c_closed_fds x' = c_closed_fds x /\ c_mgr x' = c_mgr x /\
    due x' = due x - Z.of_nat (length out)).
  { clear. induction out as [| y out IH]; intros x; [cbn -[due]; split_and!; try done; lia |]. cbn -[due].
    destruct (IH (print x (TransferEnded y))) as (-> & -> & -> & -> & -> & ->). split_and!; try done. rewrite due_print. cbn [is_start is_end]. lia. }
  destruct (Hfold (set_c_mgr c m')) as (-> & -> & -> & -> & -> & ->). split_and!; try done.
  { rewrite Hes in Hsize. unfold due, started_shown, ended_shown. cbn. lia. }
  exists l. split; [done |]. cbn.
  by rewrite (mg_count _ _ _ _ _ Hm'), (mg_count _ _ _ _ _ Hm).
Qed.

(** ** The loops *)

(** Where a loop ends: with an exit code, or for another login *)
Definition turn_result (r : turn) (c : client) : Prop :=
  client_ok c /\ match r with TurnExit code => code = 0 \/ code = 1 
    | TurnAgain => logged_in (c_rt c) /\ 0 <= control_fd (c_rt c)
    | TurnReconnect => 0 <= control_fd (c_rt c)
    end.

Lemma command_turn_safe env o c :
  client_ok c -> logged_in (c_rt c) -> 0 <= control_fd (c_rt c) -> fresh_alloc (c_mgr c) (env_alloc env) -> opened_ok o ->
  safely (command_turn malloc_ok env o c) (fun x => turn_result x.1 x.2).
Proof.
  intros Hok Hin Hfd Hfr Ho. unfold command_turn. destruct (snapshot_ok (c_rt c)) as [[_ ->] | [_ ->]]; [by right | |].
  2: { by split. }
  destruct (get_line_keeps MAX_COMMAND_INPUT (print c Notice)) as [Hk Hr].
  destruct (get_line MAX_COMMAND_INPUT (print c Notice)) as [input c1]. cbn [snd] in Hk, Hr.
  assert (Hk1 : keeps c c1) by (eapply keeps_trans; [| exact Hk]; by apply keeps_print). change (c_rt (print c Notice)) with (c_rt c) in Hr.
  assert (Hok1 : client_ok c1) by (eapply keeps_ok; [done | done | rewrite Hr; apply Hok]).
  destruct input as [input |]; [| by split; [| left]]. apply safely_bind.
  eapply safely_mono; [| apply client_command_safely; [by rewrite Hr | by rewrite Hr | apply Hok1 | by rewrite (kp_manager _ _ Hk1)]].
  intros [r c2] [Hsess Hbuf Hm Hdue]. cbn [fst snd] in *. destruct Hok1 as [S1 S2 S3 S4 S5 S6].
  destruct (bool_decide_reflect (r = CLIENT_COMMAND_RECONNECT)) as [-> | Hne].
  - destruct Hsess as (Hout & Hf & Hcl & Hop & Htr).
    assert (Hok2 : client_ok (print c2 Notice)).
    { split; rewrite ?due_neutral by done; cbn -[due]; [by left | congruence | | congruence | done | congruence]. unfold open_fds in *. cbn. rewrite Hf, Hop, Hcl, S3.
      rewrite (proj2 (Z.leb_le 0 (control_fd (c_rt c1)))) by (by rewrite Hr). by rewrite app_nil_r. }
    destruct (connect_control_ok o _ Hok2 Ho) as (Hok3 & _ & Hopen). destruct (connect_control o (print c2 Notice)) as [x c3].
    cbn [safely fst snd] in *. destruct (Z.eqb_spec x 0) as [-> |]; (split; [done |]); [by apply Hopen | by right].
  - destruct Hsess as (_ & _ & Hf & Hcl & Hop & Htr & Hin2).
    assert (Hok2 : client_ok c2).
    { split; [by right | congruence | | congruence | done | congruence]. unfold open_fds in *. by rewrite Hf, Hop, Hcl. }
    assert (Hfd2 : 0 <= control_fd (c_rt c2)) by (by rewrite Hf, Hr).
    destruct r; try done; (split; [done |]); try (by left); done.
Qed.

Lemma command_loop_safe turns c :
  Forall turn_ok turns -> client_ok c -> logged_in (c_rt c) -> 0 <= control_fd (c_rt c) ->
  safely (command_loop malloc_ok turns c) (fun x => let '(code, c', rest) := x in
    client_ok c' /\ Forall turn_ok rest /\
    match code with Some code => code = 0 \/ code = 1 | None => 0 <= control_fd (c_rt c') end).
Proof.
  intros Ht. revert c. induction Ht as [| t turns (Hw & Ha & Ho) Hts IH]; intros c Hok Hin Hfd; cbn [command_loop]; [done |].
  apply safely_bind. eapply safely_mono; [| apply drain_events_safe; cbn; apply Hw, Hok].
  intros c1 (Hr & Hc & Hop & Hcl & Hdue & l & Hm & _). cbn -[due] in Hr, Hc, Hop, Hcl, Hdue.
  assert (Hok1 : client_ok c1).
  { destruct Hok as [S1 S2 S3 S4 S5 S6]. split; [by rewrite Hr | by rewrite Hr | by rewrite Hr, Hop, Hcl | by rewrite Hc | by exists l, [] |].
    rewrite Hdue, <- S6. destruct (Hw _ S5) as [_ Hsize]. unfold due, started_shown, ended_shown. cbn. by rewrite Hsize. }
  apply safely_bind. eapply safely_mono; [| apply command_turn_safe; [done | by rewrite Hr | by rewrite Hr | apply Ha, Hok1 | done]].
  intros [r c2] [Hok2 Hres]. cbn [fst snd] in *. destruct r.
  - destruct Hres. by apply IH.
  - by split_and!.
  - by split_and!.
Qed.

Lemma login_loop_safe logins turns c :
  Forall (fun l => opened_ok (lt_opened l)) logins -> Forall turn_ok turns -> client_ok c -> 0 <= control_fd (c_rt c) ->
  safely (login_loop malloc_ok logins turns c) (fun x => (x.1 = 0 \/ x.1 = 1) /\ client_ok x.2).
Proof.
  intros Hl. revert turns c. induction Hl as [| l logins Hop Hl IH]; intros turns c Ht Hok Hfd; cbn [login_loop]; [done |].
  apply safely_bind. eapply safely_mono; [| apply user_auth_safe, Hok]. intros [r c1] (Hk & Hs & Hin). cbn [fst snd] in *.
  assert (Hok1 : client_ok c1) by (by eapply keeps_ok). destruct r.
  - apply safely_bind. eapply safely_mono; [| apply (command_loop_safe turns); [done | | by apply Hin | by cbn; rewrite (kp_control _ _ Hk)]].
    2: { eapply keeps_ok; [exact Hok1 | by apply keeps_print | exact Hs]. }
    intros [[code c2] rest] (Hok2 & Hrest & Hcode). destruct code as [code |]; [by split |]. by apply IH.
  - assert (Hok1' : client_ok (print c1 Notice)) by (eapply keeps_ok; [exact Hok1 | by apply keeps_print | exact Hs]).
    destruct (connect_control_ok (lt_opened l) _ Hok1' Hop) as (Hok2 & _ & Hopen). destruct (connect_control _ _) as [x c2].
    cbn [fst snd] in *. destruct (Z.eqb_spec x 0) as [-> |]; cbn [negb]; [by apply IH; try apply Hopen |]. split; [by right | done].
  - split; [by left | done].
Qed.

(** ** The end *)

Lemma same_events_size m m' : same_shape m m' -> size (m_events m') = size (m_events m).
Proof.
  intros Hs. rewrite <- !size_dom. f_equal. apply set_eq. intros e. rewrite !elem_of_dom.
  pose proof (ss_events _ _ Hs e) as He. destruct (m_events m' !! e), (m_events m !! e); try done; split; by intros [? ?].
Qed.

Lemma client_runtime_destroy_safe finish c :
  workers_ok finish -> client_ok c ->
  safely (client_runtime_destroy finish c) (fun c' =>
    logged_out (c_rt c') /\ control_fd (c_rt c') < 0 /\ rt_transfers (c_rt c') = false /\ c_closed_fds c' = c_opened_fds c' /\
    c_opened_fds c' = c_opened_fds c /\ buffers (c_conn c') = 0 /\ m_active_count (c_mgr c') = 0 /\ m_events (c_mgr c') = ∅ /\
    started_shown c' = ended_shown c').
Proof.
  intros Hw [S1 S2 S3 S4 (l & q & Hm) S6]. unfold client_runtime_destroy. rewrite S2. apply safely_bind, safely_bind.
  unfold transfer_manager_stop. apply safely_bind. destruct (stop_section_spec _ _ _ _ _ Hm) as (fds & m1 & -> & Hs & _). cbn [safely].
  destruct (Hw m1) as [Hm1 Hsize]; [exists l, q; by eapply same_managed |].
  destruct (stop_done (finish m1)) eqn:Ed; [| done]. apply Z.eqb_eq in Ed. cbn [safely]. apply safely_bind.
  eapply safely_mono; [| by apply drain_events_safe]. intros c2 (Hr & Hc & Hop & Hcl & Hdue & l2 & Hm2 & Hcount). cbn -[due] in Hr, Hc, Hop, Hcl, Hdue, Hcount.
  assert (Hnil : l2 = []).
  { pose proof (mg_count _ _ _ _ _ Hm2) as Hn. rewrite Hcount, Ed in Hn. destruct l2; [done |]. cbn in Hn. lia. }
  subst l2. assert (Hev : m_events (c_mgr c2) = ∅).
  { apply map_empty. intros e. apply eq_None_not_Some. rewrite (mg_memory _ _ _ _ _ Hm2). apply not_elem_of_nil. }
  assert (Hshown : started_shown c2 = ended_shown c2).
  { apply same_events_size in Hs. rewrite Hs in Hsize. revert Hdue S6. unfold due. rewrite Hev, map_size_empty.
    unfold started_shown, ended_shown. cbn. rewrite Hsize. lia. }
  apply safely_bind. unfold transfer_manager_destroy.
  assert (Hhead : m_events_head (c_mgr c2) = NULL) by (pose proof (mg_queue _ _ _ _ _ Hm2) as Hq; exact Hq).
  assert (Hdr : forall n, drain_loop n (c_mgr c2) NULL = Ret ([], c_mgr c2)) by (by intros []).
  rewrite Hhead, Hdr. cbn. unfold disconnect, client_runtime_disconnect_control. cbn. rewrite Hr. unfold open_fds in S3.
  destruct (Z.leb_spec 0 (control_fd (c_rt c))); cbn; rewrite ?app_nil_r in *; split_and!; try done; try lia; congruence.
Qed.
End safety.

(** What the cleanup leaves of the client and of the log *)
Record cleaned_up (c : client) : Prop := {
  cu_control : control_fd (c_rt c) < 0;
  cu_fds : c_closed_fds c = c_opened_fds c;
  cu_session : logged_out (c_rt c);
  cu_transfers : rt_transfers (c_rt c) = false;
  cu_buffers : buffers (c_conn c) = 0;
  cu_tasks : m_active_count (c_mgr c) = 0;
  cu_events : m_events (c_mgr c) = ∅;
  cu_shown : started_shown c = ended_shown c
}.
Definition log_closed (lg : log_state) : Prop := lg_open lg = 0 /\ lg_fp lg = None /\ lg_init_done lg = false.

Lemma log_session_closed level file opens : log_closed (log_close (snd (log_init level (Some file) opens s_log))).
Proof. by destruct file, opens. Qed.

(** (C36) The client program: whatever its arguments and configuration files are,
    whatever the user types, the server sends and the kernel answers, it does
    nothing undefined; when it returns, the code is 0 or 1, every control connection
    that it opened has been closed exactly once and in order, nobody is logged in,
    no packet buffer is left, the transfer manager has no task running and no event in
    memory, the user has been told of as many ends of transfers as of starts, and the
    log is closed.  (It returns only if the menu meets something other than the end of
    the input, on which it loops, and [transfer_manager_stop] returns, which
    [TransferSystemSpec] proves.) *)
Theorem client_main_cleans_up `{Host} malloc_ok {FS} (mkdir : list byte -> FS -> bool * FS) su stdin peeks idle logins turns finish fs :
  buffers idle = 0 -> opened_ok (su_opened su) -> Forall (fun l => opened_ok (lt_opened l)) logins -> Forall turn_ok turns ->
  workers_ok finish ->
  client_main malloc_ok mkdir su stdin peeks idle logins turns finish fs <> Undef /\
  forall code oc lg fs', client_main malloc_ok mkdir su stdin peeks idle logins turns finish fs = Ret (code, oc, lg, fs') ->
    (code = 0 \/ code = 1) /\ log_closed lg /\
    match oc with
    | None => code = 1
    | Some c => cleaned_up c
    end.
Proof.
  intros Hidle Hop Hlog Ht Hw.
  assert (Hsafe : safely (client_main malloc_ok mkdir su stdin peeks idle logins turns finish fs) (fun x =>
    let '(code, oc, lg, _) := x in (code = 0 \/ code = 1) /\ log_closed lg /\ match oc with None => code = 1 | Some c => cleaned_up c end)).
  2: { destruct (client_main _ _ _ _ _ _ _ _ _ _) as [[[[code oc] lg] fs'] | |]; [| done | done]. split; [done |]. by intros ? ? ? ? [= <- <- <- <-]. }
  unfold client_main. destruct (load_paths_and_config _ _ _ _) as [[[config dir] file] |]; [| by split_and!; [right | ..]].
  destruct (ensure_parent_dir _ _ _) as [r1 fs1]. destruct (negb _); [by split_and!; [right | ..] |].
  pose proof (log_session_closed (log_level (log config)) file (su_log_opens su)) as Hlg.
  destruct (log_init _ _ _ _) as [r0 lg]. cbn [snd] in Hlg.
  destruct (mkdir_p _ _ _) as [r2 fs2]. destruct (negb _); [by split_and!; [right | ..] |].
  destruct (client_runtime_init config dir (su_create_ok su)) as [[rt m] |] eqn:Ei; [| by split_and!; [right | ..]].
  set (c0 := Build_client _ _ _ _ _ _ _ _).
  assert (Hok : client_ok c0).
  { unfold client_runtime_init in Ei. destruct (_ <=? _); [done |]. destruct (transfer_manager_create _ _) as [m' |] eqn:Em; [| done].
    injection Ei as <- <-. split; cbn -[due]; [by left | done | done | done | |].
    2: { unfold transfer_manager_create in Em. destruct (_ || _); [done |]. by injection Em as <-. }
    exists [], [].
    destruct (su_create_ok su); [| unfold transfer_manager_create in Em; by rewrite orb_true_r in Em].
    exact (ti_managed _ _ _ _ (initial_inv m' _ (Z.mod_pos_bound (max_concurrent (transfer config)) u64_mod eq_refl) Em)). }
  destruct (connect_control_ok (su_opened su) c0 Hok Hop) as (Hok1 & _ & Hopen). destruct (connect_control _ c0) as [r3 c1].
  cbn [fst snd] in *. apply safely_bind.
  assert (Hloop : safely (if negb (r3 =? 0) then Ret (1, c1) else login_loop malloc_ok logins turns c1)
    (fun x => (x.1 = 0 \/ x.1 = 1) /\ client_ok x.2)).
  { destruct (Z.eqb_spec r3 0) as [-> |]; cbn [negb]; [| by split; [right |]]. apply login_loop_safe; try done. by apply Hopen. }
  eapply safely_mono; [| exact Hloop]. intros [code c2] [Hcode Hok2]. cbn [fst snd] in *. set (c2' := if code =? 0 then _ else _).
  assert (Hok2' : client_ok c2').
  { unfold c2'. destruct (code =? 0); [| done]. eapply keeps_ok; [exact Hok2 | by apply keeps_print | apply Hok2]. }
  apply safely_bind. eapply safely_mono; [| by apply client_runtime_destroy_safe].
  intros c3 (G1 & G2 & G3 & G4 & _ & G5 & G6 & G7 & G8). by split_and!.
Qed.

(** ** A run: login, one empty line, [quit] *)

(** A fresh connection that will deliver [script] *)
Definition new_socket (script : list byte) : socket :=
  {| sent := []; send_script := replicate 600 (SendCount 7); recv_script := [RecvBytes script]; buffers := 0 |}.

Definition demo_startup : startup := {|
  su_argv := [lit "cdd-client"]; su_getcwd := Some (lit "/home/alice/cloud/bin");
  su_fopen := fun path => if bool_decide (path = lit "/home/alice/cloud/config/client.conf")
                          then Some (lit "[remote]
host = 127.0.0.1
port = 8888
[log]
log_file = logs/client.log
[storage]
download_dir = downloads
[transfer]
max_concurrent = 4 ; at most
connect_timeout_ms = 5000
io_timeout_ms = 30000
") else None;
  su_log_opens := true; su_create_ok := true; su_opened := Some (7, new_socket (wire_packet (response CMD_ACK STATUS_OK demo_sid None))) |}.
Definition demo_client_turn : client_turn := {|
  ct_workers := id; ct_env := fun _ => {| env_home := None; env_alloc := (None, None); env_spawned := false |}; ct_opened := None |}.
Definition demo_login : login_turn := {| lt_terminal := true; lt_fuel := 3; lt_opened := None |}.

Lemma demo_turn_ok : turn_ok demo_client_turn.
Proof. split_and!; [by intros m | | done]. intros m _. by split. Qed.

Definition demo_typed : list byte := lit "1
alice
secret

quit
".
Definition demo_run : outcome (Z * option client * log_state * list (list byte)) :=
  client_main (H := false) (fun _ => true) demo_mkdir demo_startup demo_typed [PeekAgain] (new_socket []) [demo_login]
    [demo_client_turn; demo_client_turn] id [].

Lemma client_main_cleans_up_witness :
  exists c lg dirs, demo_run = Ret (0, Some c, lg, dirs) /\
    c_closed_fds c = [7] /\ logged_out (c_rt c) /\ lg_open lg = 0 /\ lit "/home/alice/cloud/downloads" ∈ dirs.
Proof.
  destruct (client_main_cleans_up (H := false) (fun _ => true) demo_mkdir demo_startup demo_typed [PeekAgain] (new_socket []) [demo_login]
    [demo_client_turn; demo_client_turn] id []) as [_ Hmain].
  - reflexivity.
  - intros fd s [= <- <-]. split; [lia | reflexivity].
  - apply Forall_singleton. intros fd s [=].
  - exact (Forall_cons_2 _ _ _ demo_turn_ok (Forall_cons_2 _ _ _ demo_turn_ok (Forall_nil_2 _))).
  - intros m Hm. split; [exact Hm | reflexivity].
  - eassert (Hrun : client_main (H := false) (fun _ => true) demo_mkdir demo_startup demo_typed [PeekAgain] (new_socket [])
      [demo_login] [demo_client_turn; demo_client_turn] id [] = Ret (0, Some _, _, _)) by (vm_compute; reflexivity).
    destruct (Hmain _ _ _ _ Hrun) as [_ [[Hlog _] Hup]]. eexists _, _, _. split; [exact Hrun |].
    split; [rewrite (cu_fds _ Hup); vm_compute; reflexivity |]. split; [apply (cu_session _ Hup) |]. split; [exact Hlog |].
    apply (bool_decide_unpack _). vm_compute. exact I.
Defined.
