(* ===== verification/Display.v ===== *)
(** * What the programs write to the terminal ([common/tui.c], [client/menu.c])

    The output of each function as bytes.  The choice that [menu_show_auth] reads
    after its text is modelled with the login, in [ClientCommand]. *)

From Stdlib Require Import Strings.Byte.
From S2P Require Import Prelude CString Utils.

(** ** Formats *)

Definition ESC : byte := x1b.
Definition BAR : byte := x7c.
Definition newline : list byte := [NEWLINE].

Definition COLOR_GREEN : list byte := ESC :: lit "[32m".
Definition COLOR_YELLOW : list byte := ESC :: lit "[33m".
Definition COLOR_BLUE : list byte := ESC :: lit "[34m".
Definition COLOR_CYAN : list byte := ESC :: lit "[36m".
Definition COLOR_RESET : list byte := ESC :: lit "[0m".

(** ["%-<width>s"] *)
Definition pad (width : nat) (s : list byte) : list byte := s ++ replicate (width - length s) SPACE.

(** ** [tui.c] *)

Definition TUI_TIME_LEN : Z := 32.

Definition tui_print_banner : list byte :=
  COLOR_GREEN ++ newline ++
  lit "   ________                __   ____       _           " ++ newline ++
  lit "  / ____/ /___  __  ______/ /  / __ \_____(_)   _____  " ++ newline ++
  lit " / /   / / __ \/ / / / __  /  / / / / ___/ / | / / _ \ " ++ newline ++
  lit "/ /___/ / /_/ / /_/ / /_/ /  / /_/ / /  / /| |/ /  __/ " ++ newline ++
  lit "\____/_/\____/\__,_/\__,_/  /_____/_/  /_/ |___/\___/  " ++ newline ++
  newline ++ COLOR_RESET.

(** [local_time] is the answer of [localtime]. *)
Definition tui_print_time (local_time : option tm) (who : list byte) : list byte :=
  let time_text := default [] (utils_format_current_time local_time TUI_TIME_LEN) in
  COLOR_GREEN ++ who ++ lit " starting at " ++ time_text ++ newline ++ newline ++ COLOR_RESET.

Definition tui_clear_screen : list byte := ESC :: lit "[2J" ++ ESC :: lit "[H".

(** ** [menu.c] *)

Definition menu_draw_border : list byte :=
  COLOR_BLUE ++ lit "+------------------------------------------------+" ++ newline ++ COLOR_RESET.

Definition menu_draw_item (item : list byte) : list byte :=
  COLOR_BLUE ++ lit "| " ++ COLOR_RESET ++ lit "                  " ++ pad 28 item ++
  COLOR_BLUE ++ lit " |" ++ newline ++ COLOR_RESET.

Definition auth_text : list byte :=
  COLOR_BLUE ++ lit "==================================================" ++ newline ++
  lit "|" ++ COLOR_CYAN ++ lit "             Cloud Drive Demo Client            " ++ COLOR_BLUE ++ lit "|" ++ newline ++
  lit "==================================================" ++ newline ++ COLOR_RESET ++
  menu_draw_border ++ menu_draw_item (lit "1. Login") ++ menu_draw_item (lit "2. Register") ++
  menu_draw_item (lit "0. Exit") ++ menu_draw_border ++ lit "Please choose: ".

(** A line of the help; the first of the last two starts without a colour. *)
Definition help_row (start color command text : list byte) : list byte :=
  start ++ lit "| " ++ color ++ pad 14 command ++ COLOR_RESET ++ lit " " ++ pad 31 text ++ COLOR_BLUE ++ lit "|" ++
  newline ++ COLOR_RESET.

Definition menu_show_help : list byte :=
  COLOR_BLUE ++ newline ++ lit "+------------------------------------------------+" ++ newline ++
  lit "|" ++ COLOR_CYAN ++ lit "              Cloud Drive Commands             " ++ COLOR_BLUE ++ lit "|" ++ newline ++
  lit "+------------------------------------------------+" ++ newline ++ COLOR_RESET ++
  help_row COLOR_BLUE COLOR_YELLOW (lit "pwd") (lit "show current remote path") ++
  help_row COLOR_BLUE COLOR_YELLOW (lit "cd <dir>") (lit "change remote directory") ++
  help_row COLOR_BLUE COLOR_YELLOW (lit "ls") (lit "list remote files") ++
  help_row COLOR_BLUE COLOR_YELLOW (lit "mkdir <dir>") (lit "create remote directory") ++
  help_row COLOR_BLUE COLOR_YELLOW (lit "rmdir <dir>") (lit "remove remote directory") ++
  help_row COLOR_BLUE COLOR_YELLOW (lit "rm <file>") (lit "remove remote file") ++
  help_row COLOR_BLUE COLOR_YELLOW (lit "puts <local>") (lit "upload to remote cwd") ++
  help_row COLOR_BLUE COLOR_YELLOW (lit "gets <remote>") (lit "download in background") ++
  COLOR_BLUE ++ lit "+------------------------------------------------+" ++ newline ++
  help_row [] COLOR_GREEN (lit "help | h") (lit "show this command menu") ++
  help_row COLOR_BLUE COLOR_GREEN (lit "quit | exit") (lit "exit cloud drive client") ++
  COLOR_BLUE ++ lit "+------------------------------------------------+" ++ newline ++ newline ++ COLOR_RESET.

(** ** What is seen *)

(** The text without the colour sequences, which run to the letter [m] *)
Fixpoint visible (inside : bool) (s : list byte) : list byte :=
  match s with
  | [] => []
  | b :: s =>
      if inside then visible (bool_decide (b <> x6d)) s
      else if bool_decide (b = ESC) then visible true s else b :: visible false s
  end.

(** The widths of the lines of a text *)
Fixpoint widths (n : nat) (s : list byte) : list nat :=
  match s with
  | [] => [n]
  | b :: s => if bool_decide (b = NEWLINE) then n :: widths 0 s else widths (S n) s
  end.
Definition line_widths (s : list byte) : list nat := widths 0 (visible false s).

(** The frame of the login menu is 50 columns wide on every line. *)
Lemma auth_menu_aligned : line_widths auth_text = replicate 8 50%nat ++ [15%nat].
Proof. vm_compute. reflexivity. Qed.

(** In the help, the rows are one column narrower than the borders. *)
Lemma help_misaligned :
  line_widths menu_show_help =
    [0; 50; 49; 50]%nat ++ replicate 8 49%nat ++ [50]%nat ++ replicate 2 49%nat ++ [50; 0; 0]%nat.
Proof. vm_compute. reflexivity. Qed.

Lemma visible_plain s t : ESC ∉ s -> visible false (s ++ t) = s ++ visible false t.
Proof.
  induction s as [| b s IH]; intros Hs; [done |]. apply not_elem_of_cons in Hs as [Hb Hs]. cbn.
  rewrite bool_decide_eq_false_2 by done. by rewrite IH.
Qed.

Lemma widths_plain s : forall n t, NEWLINE ∉ s -> widths n (s ++ t) = widths (n + length s) t.
Proof.
  induction s as [| b s IH]; intros n t Hs; [cbn; by rewrite Nat.add_0_r |].
  apply not_elem_of_cons in Hs as [Hb Hs]. cbn. rewrite bool_decide_eq_false_2 by done. rewrite IH by done. f_equal. lia.
Qed.

Lemma pad_plain b width s : b <> SPACE -> b ∉ s -> b ∉ pad width s.
Proof. intros Hb Hs [Hin | [-> _]%elem_of_replicate]%elem_of_app; done. Qed.

(** An item of the login menu keeps the frame, whatever its text, up to 28 bytes. *)
Lemma menu_item_aligned item :
  ESC ∉ item -> NEWLINE ∉ item -> (length item <= 28)%nat -> line_widths (menu_draw_item item) = [50; 0]%nat.
Proof.
  intros He Hn Hl. unfold line_widths, menu_draw_item.
  change (visible false (COLOR_BLUE ++ lit "| " ++ COLOR_RESET ++ lit "                  " ++ pad 28 item ++
      COLOR_BLUE ++ lit " |" ++ newline ++ COLOR_RESET))
    with (lit "| " ++ lit "                  " ++
      visible false (pad 28 item ++ COLOR_BLUE ++ lit " |" ++ newline ++ COLOR_RESET)).
  rewrite visible_plain by (by apply pad_plain).
  rewrite !widths_plain by first [by apply pad_plain | apply (bool_decide_unpack _); vm_compute; exact I].
  unfold pad. rewrite length_app, length_replicate. by replace (length item + (28 - length item))%nat with 28%nat by lia.
Qed.
