(* ===== verification/ServerMain.v ===== *)
(** * The server program ([src/server/main.c], [database_init] of [src/server/database.c])

    The start of the server, its loop and its end.  What [main] acquires and
    releases is recorded as a trace; the workers act on the shared tables between
    the turns of the loop, as an argument of each turn. *)

From Stdlib Require Import Strings.Byte.
From S2P Require Import Prelude CString Protocol Utils Heap Session TimerWheel ThreadPool Database DatabasePool Dao HandlerBasic.
From S2P Require Import Files HandlerTransfer HandlerEvent Ini ServerConfig Connection.

(** ** The database *)

(** The statements of [database_init] *)
Definition create_database (db charset : list byte) : list byte :=
  snd (snprintf 256 (lit "CREATE DATABASE IF NOT EXISTS " ++ db ++ lit " DEFAULT CHARACTER SET " ++ charset)).
Definition create_users_table : list byte := lit
  "CREATE TABLE IF NOT EXISTS users (id INT AUTO_INCREMENT PRIMARY KEY, username VARCHAR(64) NOT NULL UNIQUE, password_hash VARCHAR(384) NOT NULL) ENGINE=InnoDB DEFAULT CHARSET=utf8mb4".
Definition create_files_table : list byte := lit
  "CREATE TABLE IF NOT EXISTS files (id BIGINT AUTO_INCREMENT PRIMARY KEY, hash BINARY(32) NOT NULL UNIQUE, size BIGINT, refs INT NOT NULL DEFAULT 0) ENGINE=InnoDB DEFAULT CHARSET=utf8mb4".
Definition create_paths_table : list byte := lit
  "CREATE TABLE IF NOT EXISTS paths (id BIGINT AUTO_INCREMENT PRIMARY KEY, user_id INT NOT NULL, path VARCHAR(768) NOT NULL, file_id BIGINT NULL, parent_id BIGINT, file_name VARCHAR(255) NOT NULL, type TINYINT NOT NULL, UNIQUE KEY (user_id, path), INDEX idx_user_parent (user_id, parent_id)) ENGINE=InnoDB DEFAULT CHARSET=utf8mb4".

(** A call on the one connection that it makes: a query, or [mysql_select_db] *)
Inductive init_call := InitQuery (text : list byte) | InitSelectDb (db : list byte).

(** Run the calls until one fails; [ok] answers them.  The result is whether all
    succeeded and the calls that were made; the connection is closed either way. *)
Fixpoint init_calls (ok : init_call -> bool) (l : list init_call) : bool * list init_call :=
  match l with
  | [] => (true, [])
  | q :: l => if ok q then let (r, made) := init_calls ok l in (r, q :: made) else (false, [q])
  end.

Definition database_init (connects : bool) (ok : init_call -> bool) (db charset : list byte) : Z * list init_call :=
  if negb connects then (-1, [])
  else
    let (r, made) := init_calls ok [InitQuery (create_database db charset); InitSelectDb db; InitQuery create_users_table;
                                    InitQuery create_files_table; InitQuery create_paths_table] in
    (if r then 0 else -1, made).

(** ** What [main] holds *)

Inductive resource := RLog | RDatabasePool | RThreadPool | RSessionTable | RTimerWheel | RPipeRead | RPipeWrite | RTimer | RListen | REpoll.
#[global] Instance resource_eq_dec : EqDecision resource.
Proof. solve_decision. Defined.

Inductive main_event := Acquired (r : resource) | Released (r : resource).

(** ** Answers *)

Record server_answers := {
  sa_argv : list (list byte);
  sa_getcwd : option (list byte);
  sa_fopen : list byte -> option (list byte);
  sa_sigaction_ok : bool;
  sa_mysql_connects : bool;
  sa_mysql_ok : init_call -> bool;
  sa_pool_ok : bool;
  sa_pool_connect : nat -> option Z * bool;
  sa_threads_ok : bool;
  sa_sessions_ok : bool;
  sa_wheel_clock : option timespec;
  sa_wheel_ok : bool;
  sa_pipe_ok : bool;
  sa_timerfd_ok : bool;
  sa_settime_ok : bool;
  sa_addresses : option (list bind_attempt);
  sa_listen_ok : bool;
  sa_epoll : option Z;
  sa_epoll_add_ok : resource -> bool
}.

(** ** Paths and configuration *)

(** [strcpy(dst, src)] into an array of [size] bytes: writing past its end is undefined. *)
Definition strcpy (size : Z) (src : list byte) : outcome (list byte) :=
  if Z.of_nat (length src) <? size then Ret src else Undef.

(** The configuration, the log file, the store and the directory of partial
    uploads, from the first part of [main]: [inl] is a return value. *)
Definition server_paths (sa : server_answers) : outcome (Z + (server_config * list byte * list byte)) :=
  match get_project_dir (sa_getcwd sa) PATH_MAX with
  | None => Ret (inl (-1))
  | Some project_dir =>
      if (2 <? length (sa_argv sa))%nat then Ret (inl 1)
      else
        config_path ← (match sa_argv sa with
                       | [_; arg] => path ← strcpy PATH_MAX arg; Ret (Some path)
                       | _ => Ret (join_path PATH_MAX project_dir (lit "config/server.conf"))
                       end);
        match config_path with
        | None => Ret (inl (-1))
        | Some config_path =>
            let (r, config) := server_config_load (sa_fopen sa) zero_server_config config_path in
            if negb (r =? 0) then Ret (inl (-1))
            else
              match join_path PATH_MAX project_dir (lc_log_file (sv_log config)) with
              | None => Ret (inl (-1))
              | Some log_file => Ret (inr (config, project_dir, log_file))
              end
        end
  end.

(** ** The loop *)

(** One return of [epoll_wait], after what the workers did meanwhile *)
Inductive server_turn :=
| TurnReady (workers : event_state -> event_state) (l : list ready) (clock : option timespec)
| TurnInterrupted
| TurnFailed.

Section main.
Context `{Host}.

(** The return value of [main], and the state in which the loop ends *)
Fixpoint server_loop (epoll_fd : Z) (storage_root transfer_temp_dir : list byte) (turns : list server_turn) (s : event_state)
    : outcome (Z * event_state) :=
  match turns with
  | [] => NoReturn
  | TurnInterrupted :: turns => server_loop epoll_fd storage_root transfer_temp_dir turns s
  | TurnFailed :: _ => Ret (-1, s)
  | TurnReady workers l clock :: turns =>
      r ← loop_turn epoll_fd storage_root transfer_temp_dir l clock (workers s);
      match r with
      | inl s => Ret (0, s)
      | inr s => server_loop epoll_fd storage_root transfer_temp_dir turns s
      end
  end.

(** ** [main] *)

(** The end of [main], also of its error paths once the tables exist: the workers
    are stopped first, since they use all the others. *)
Definition destroy_all : list main_event :=
  [Released RThreadPool; Released RSessionTable; Released RTimerWheel; Released RDatabasePool; Released RLog].

(** From [pipe] to the end; [tr] is what has been acquired before, [finish] is what
    the workers do until [thread_pool_destroy] has joined them.  The result is the
    return value, what was acquired and released, and the client connections that
    are still open. *)
Definition server_run (sa : server_answers) (config : server_config) (storage_root transfer_temp_dir : list byte)
    (turns : list server_turn) (finish : event_state -> event_state) (t : session_table) (w : timer_wheel) (tr : list main_event)
    : outcome (Z * list main_event * gset Z) :=
  if negb (sa_pipe_ok sa) then Ret (-1, tr ++ destroy_all, ∅)
  else
    let tr := tr ++ [Acquired RPipeRead; Acquired RPipeWrite] in
    if negb (sa_timerfd_ok sa) then Ret (-1, tr ++ [Released RPipeRead; Released RPipeWrite] ++ destroy_all, ∅)
    else
      let tr := tr ++ [Acquired RTimer] in
      if negb (sa_settime_ok sa) then Ret (-1, tr ++ [Released RTimer; Released RPipeRead; Released RPipeWrite] ++ destroy_all, ∅)
      else
        let (listen_fd, _) := network_listen (sa_addresses sa) (sa_listen_ok sa) ∅ in
        if listen_fd <? 0 then Ret (-1, tr ++ [Released RPipeRead; Released RPipeWrite; Released RTimer] ++ destroy_all, ∅)
        else
          let tr := tr ++ [Acquired RListen] in
          let (epoll_ok, tr) :=
            match sa_epoll sa with
            | None => (false, tr)
            | Some _ => (sa_epoll_add_ok sa RListen && sa_epoll_add_ok sa RPipeRead && sa_epoll_add_ok sa RTimer, tr ++ [Acquired REpoll])
            end in
          if negb epoll_ok then
            Ret (-1, tr ++ (if bool_decide (is_Some (sa_epoll sa)) then [Released REpoll] else []) ++
                     [Released RListen; Released RPipeRead; Released RPipeWrite; Released RTimer] ++ destroy_all, ∅)
          else
            '(code, s) ← server_loop (default (-1) (sa_epoll sa)) storage_root transfer_temp_dir turns
                     {| ev_control := {| c_sessions := t; c_wheel := w; c_epoll := []; c_closed := [] |}; ev_sockets := ∅; ev_tasks := [] |};
            Ret (code, tr ++ [Released RListen; Released RPipeRead; Released RPipeWrite; Released RTimer; Released REpoll] ++ destroy_all,
                 dom (ev_sockets (finish s))).

(** From the log to the tables *)
Definition server_start (sa : server_answers) (config : server_config) (storage_root transfer_temp_dir : list byte)
    (turns : list server_turn) (finish : event_state -> event_state) (tr : list main_event)
    : outcome (Z * list main_event * gset Z) :=
  if negb (sa_sigaction_ok sa) then Ret (1, tr, ∅)
  else
    let (r, _) := database_init (sa_mysql_connects sa) (sa_mysql_ok sa) (mc_database (sv_mysql config)) (mc_charset (sv_mysql config)) in
    if negb (r =? 0) then Ret (-1, tr ++ [Released RLog], ∅)
    else
      match fst (database_pool_create (sa_pool_ok sa) (sa_pool_connect sa) (mc_pool_size (sv_mysql config))) with
      | None => Ret (-1, tr ++ [Released RLog], ∅)
      | Some _ =>
          let tr := tr ++ [Acquired RDatabasePool] in
          match thread_pool_create (tc_thread_num (sv_thread_pool config)) (tc_queue_capacity (sv_thread_pool config)) (sa_threads_ok sa) with
          | None => Ret (-1, tr ++ [Released RDatabasePool; Released RLog], ∅)
          | Some _ =>
              let tr := tr ++ [Acquired RThreadPool] in
              match session_table_create (sa_sessions_ok sa) with
              | None => Ret (-1, tr ++ [Released RThreadPool; Released RDatabasePool; Released RLog], ∅)
              | Some t =>
                  let tr := tr ++ [Acquired RSessionTable] in
                  match timer_wheel_create (u32 (ic_idle_timeout_seconds (sv_session config))) (sa_wheel_clock sa) (sa_wheel_ok sa) with
                  | None => Ret (-1, tr ++ [Released RThreadPool; Released RSessionTable; Released RDatabasePool; Released RLog], ∅)
                  | Some w => server_run sa config storage_root transfer_temp_dir turns finish t w (tr ++ [Acquired RTimerWheel])
                  end
              end
          end
      end.

(** The return value, the trace, the client connections left, and the file system; when the log file cannot be
    opened the log is the standard output and [main] goes on. *)
Definition server_main {FS} (mkdir : list byte -> FS -> bool * FS) (sa : server_answers) (turns : list server_turn)
    (finish : event_state -> event_state) (fs : FS) : outcome (Z * list main_event * gset Z * FS) :=
  paths ← server_paths sa;
  match paths with
  | inl code => Ret (code, [], ∅, fs)
  | inr (config, project_dir, log_file) =>
      let (r, fs) := ensure_parent_dir mkdir log_file fs in
      if negb (r =? 0) then Ret (-1, [], ∅, fs)
      else
        let tr := [Acquired RLog] in
        match join_path PATH_MAX project_dir (sc_root_dir (sv_storage config)),
              join_path PATH_MAX project_dir (sc_transfer_temp_dir (sv_storage config)) with
        | Some storage_root, Some transfer_temp_dir =>
            let (r, fs) := mkdir_p mkdir storage_root fs in
            if negb (r =? 0) then Ret (-1, tr, ∅, fs)
            else
              let (r, fs) := mkdir_p mkdir transfer_temp_dir fs in
              if negb (r =? 0) then Ret (-1, tr, ∅, fs)
              else '(code, tr, clients) ← server_start sa config storage_root transfer_temp_dir turns finish tr;
                   Ret (code, tr, clients, fs)
        | _, _ => Ret (-1, tr, ∅, fs)
        end
  end.
End main.
