(* ===== verification/ServerMainSpec.v ===== *)
(** * The server program: what its start acquires is released

    Every way through [main] gives back what its start acquired, in an order that stops the
    workers before the tables they use are destroyed; but the epoll descriptor, which they use as well,
    is closed before, and client connections can be left open.  The statements of
    [database_init] fit their buffer; an overlong argument overflows the path of the
    configuration. *)

From Stdlib Require Import Strings.Byte.
From S2P Require Import Prelude CString Protocol Utils Heap Session TimerWheel ThreadPool Database DatabasePool Dao HandlerBasic.
From S2P Require Import Files HandlerTransfer HandlerEvent Ini ServerConfig ConfigSpec Connection ServerMain.

(** ** The database *)

(** A database name and a character set from the configuration fit the statement, so
    it is never cut; the tables are created in the order in which they are used, and
    success means that every statement succeeded. *)
Lemma create_database_whole c :
  server_config_fits c ->
  create_database (mc_database (sv_mysql c)) (mc_charset (sv_mysql c)) =
    lit "CREATE DATABASE IF NOT EXISTS " ++ mc_database (sv_mysql c) ++ lit " DEFAULT CHARACTER SET " ++ mc_charset (sv_mysql c).
Proof.
  intros (_ & _ & _ & _ & _ & _ & _ & Hdb & Hcs & _). unfold create_database, snprintf, text_fits in *. cbn [snd]. apply take_ge.
  rewrite !length_app. change (length (lit "CREATE DATABASE IF NOT EXISTS ")) with 30%nat.
  change (length (lit " DEFAULT CHARACTER SET ")) with 23%nat. lia.
Qed.

Lemma init_calls_all ok l : fst (init_calls ok l) = true <-> Forall (fun q => ok q = true) l.
Proof.
  induction l as [| q l IH]; cbn; [done |]. rewrite Forall_cons. destruct (ok q); [| cbn; naive_solver].
  destruct (init_calls ok l) as [r made]. cbn in *. naive_solver.
Qed.

Lemma database_init_succeeds connects ok db charset :
  fst (database_init connects ok db charset) = 0 <->
  connects = true /\ Forall (fun q => ok q = true) [InitQuery (create_database db charset); InitSelectDb db; InitQuery create_users_table;
                                                    InitQuery create_files_table; InitQuery create_paths_table].
Proof.
  rewrite <- init_calls_all. unfold database_init. destruct connects; cbn [negb]; [| cbn; naive_solver].
  destruct (init_calls ok _) as [[] made]; cbn; naive_solver.
Qed.

(** ** Traces *)

(** The tables that the workers use *)
Definition worker_tables : list resource := [RSessionTable; RTimerWheel; RDatabasePool].

(** Play a trace: acquire what is not held, release what is held, and neither what is
    in [used] while the workers run nor the log before the rest; the result is what is held at
    the end. *)
Fixpoint replay (used live : list resource) (tr : list main_event) : option (list resource) :=
  match tr with
  | [] => Some live
  | Acquired r :: tr => if bool_decide (r ∈ live) then None else replay used (r :: live) tr
  | Released r :: tr =>
      if bool_decide (r ∈ live) && negb (bool_decide (r ∈ used) && bool_decide (RThreadPool ∈ live)) &&
         (bool_decide (r <> RLog) || bool_decide (live = [RLog]))
      then replay used (filter (fun x => x <> r) live) tr else None
  end.

Section traces.
Context `{Host}.

(** The trace of what [main] holds when its tables exist *)
Definition tables_held : list main_event :=
  [Acquired RLog; Acquired RDatabasePool; Acquired RThreadPool; Acquired RSessionTable; Acquired RTimerWheel].

Lemma server_loop_code fd root temp turns s code s' : server_loop fd root temp turns s = Ret (code, s') -> code = 0 \/ code = -1.
Proof.
  revert s. induction turns as [| [workers l clock | |] turns IH]; intros s; cbn; [done | | apply IH | intros [= <- <-]; by right].
  destruct (loop_turn _ _ _ _ _ _) as [[s1 | s1] | |]; cbn; [intros [= <- <-]; by left | apply IH | done | done].
Qed.

(** The trace is one of the seven of [server_run]. *)
Lemma server_run_trace sa config root temp turns finish t w code tr clients :
  server_run sa config root temp turns finish t w tables_held = Ret (code, tr, clients) ->
  replay worker_tables [] tr = Some [] /\ (code = 0 \/ code = -1) /\ (code = 0 -> replay (REpoll :: worker_tables) [] tr = None).
Proof.
  unfold server_run. destruct (sa_pipe_ok sa); cbn [negb]; [| intros [= <- <- <-]; split_and!; [by vm_compute | by right | done]].
  destruct (sa_timerfd_ok sa); cbn [negb]; [| intros [= <- <- <-]; split_and!; [by vm_compute | by right | done]].
  destruct (sa_settime_ok sa); cbn [negb]; [| intros [= <- <- <-]; split_and!; [by vm_compute | by right | done]].
  destruct (network_listen _ _ _) as [listen_fd n]. destruct (_ <? 0); [intros [= <- <- <-]; split_and!; [by vm_compute | by right | done] |].
  destruct (sa_epoll sa) as [epoll_fd |]; cbn [negb]; [| intros [= <- <- <-]; split_and!; [by vm_compute | by right | done]].
  destruct (_ && _ && _); cbn [negb]; [| intros [= <- <- <-]; split_and!; [by vm_compute | by right | done]].
  intros ([c s] & Hc & [= <- <- <-])%bind_Ret_inv. split_and!; [by vm_compute | by eapply server_loop_code | by vm_compute].
Qed.

Lemma server_start_trace sa config root temp turns finish code tr clients :
  server_start sa config root temp turns finish [Acquired RLog] = Ret (code, tr, clients) ->
  (code = 0 \/ code = 1 \/ code = -1) /\ (replay worker_tables [] tr = Some [] \/ tr = [Acquired RLog] /\ code = 1) /\
  (code = 0 -> replay (REpoll :: worker_tables) [] tr = None).
Proof.
  unfold server_start. destruct (sa_sigaction_ok sa); cbn [negb]; [| intros [= <- <- <-]; split_and!; auto; done].
  destruct (database_init _ _ _ _) as [r made]. destruct (negb _); [intros [= <- <- <-]; split_and!; [auto | left; by vm_compute | done] |].
  destruct (fst _) as [p |]; [| intros [= <- <- <-]; split_and!; [auto | left; by vm_compute | done]].
  destruct (thread_pool_create _ _ _) as [tp |]; [| intros [= <- <- <-]; split_and!; [auto | left; by vm_compute | done]].
  destruct (session_table_create _) as [t |]; [| intros [= <- <- <-]; split_and!; [auto | left; by vm_compute | done]].
  destruct (timer_wheel_create _ _ _) as [w |]; [| intros [= <- <- <-]; split_and!; [auto | left; by vm_compute | done]].
  intros Hrun. apply (server_run_trace sa config root temp turns finish t w) in Hrun as (Htr & Hcode & He). split_and!; [naive_solver | by left | done].
Qed.

Lemma server_main_trace {FS} (mkdir : list byte -> FS -> bool * FS) sa turns finish fs code tr clients fs' :
  server_main mkdir sa turns finish fs = Ret (code, tr, clients, fs') ->
  (code = 0 \/ code = 1 \/ code = -1) /\ (replay worker_tables [] tr = Some [] \/ tr = [Acquired RLog] /\ code <> 0) /\
  (code = 0 -> replay (REpoll :: worker_tables) [] tr = None).
Proof.
  unfold server_main. intros (paths & Hp & Hmain)%bind_Ret_inv. destruct paths as [code0 | [[config project_dir] log_file]].
  - injection Hmain as <- <- <- <-.
    assert (Hcode : code0 = 1 \/ code0 = -1).
    { unfold server_paths in Hp.
      destruct (get_project_dir _ _); [| injection Hp as <-; auto]. destruct (_ <? _)%nat; [injection Hp as <-; auto |].
      apply bind_Ret_inv in Hp as (cp & _ & Hp). destruct cp as [cp |]; [| injection Hp as <-; auto].
      destruct (server_config_load _ _ _) as [r c]. destruct (negb _); [injection Hp as <-; auto |].
      destruct (join_path _ _ _); [done | injection Hp as <-; auto]. }
    split_and!; [naive_solver | by left | by destruct Hcode as [-> | ->]].
  - destruct (ensure_parent_dir _ _ _) as [r1 fs1]. destruct (negb _); [injection Hmain as <- <- <- <-; split_and!; auto; done |]. cbn zeta in Hmain.
    destruct (join_path _ _ _) as [root |]; [| injection Hmain as <- <- <- <-; split_and!; auto; done].
    destruct (join_path _ _ _) as [temp |]; [| injection Hmain as <- <- <- <-; split_and!; auto; done].
    destruct (mkdir_p _ _ _) as [r2 fs2]. destruct (negb _); [injection Hmain as <- <- <- <-; split_and!; auto; done |].
    destruct (mkdir_p _ _ _) as [r3 fs3]. destruct (negb _); [injection Hmain as <- <- <- <-; split_and!; auto; done |].
    apply bind_Ret_inv in Hmain as ([[code1 tr1] cl1] & Hs & [= <- <- <- <-]).
    apply server_start_trace in Hs as (Hc & [Htr | [-> ->]] & He); [by split_and!; [| left |] |]. split_and!; [done | | done]. by right.
Qed.

(** (C37) The server gives back what its start acquires (the log, the pools, the tables,
    the pipe, the timer, the listening socket and the epoll instance): whichever
    system call or initialisation fails, and however the loop ends, when [main]
    returns it has released each of them that it acquired exactly once, stopped the
    workers before destroying a table that they use, and closed the log last; only
    when the directories or the signal handler cannot be set up is the log, and
    nothing else, left open.  The client connections are not among them. *)
Theorem server_main_releases {FS} (mkdir : list byte -> FS -> bool * FS) sa turns finish fs code tr clients fs' :
  server_main mkdir sa turns finish fs = Ret (code, tr, clients, fs') ->
  (code = 0 \/ code = 1 \/ code = -1) /\ (replay worker_tables [] tr = Some [] \/ tr = [Acquired RLog] /\ code <> 0).
Proof. intros Hmain. by apply server_main_trace in Hmain as (Hc & Htr & _). Qed.

(** But every regular shutdown closes the epoll descriptor, which the workers use to
    watch a connection again, before it stops the workers. *)
Theorem epoll_closed_before_workers {FS} (mkdir : list byte -> FS -> bool * FS) sa turns finish fs tr clients fs' :
  server_main mkdir sa turns finish fs = Ret (0, tr, clients, fs') -> replay (REpoll :: worker_tables) [] tr = None.
Proof. intros Hmain. apply server_main_trace in Hmain as (_ & _ & He). by apply He. Qed.

(** The argument of the server is copied into an array of [PATH_MAX] bytes with
    no check of its length: the start of [main] is undefined exactly when the one
    argument does not fit (and the working directory is found). *)
Theorem server_argument_overflow sa :
  server_paths sa = Undef <->
  is_Some (get_project_dir (sa_getcwd sa) PATH_MAX) /\ exists name arg, sa_argv sa = [name; arg] /\ PATH_MAX <= Z.of_nat (length arg).
Proof.
  unfold server_paths. destruct (get_project_dir _ _) as [dir |]; [| split; [done | by intros [[? ?] _]]].
  assert (Hrest : forall p, match p with
    | None => Ret (inl (-1))
    | Some config_path =>
        let (r, config) := server_config_load (sa_fopen sa) zero_server_config config_path in
        if negb (r =? 0) then Ret (inl (-1))
        else match join_path PATH_MAX dir (lc_log_file (sv_log config)) with
             | None => Ret (inl (-1))
             | Some log_file => Ret (inr (config, dir, log_file))
             end
    end <> @Undef (Z + (server_config * list byte * list byte))).
  { intros [p |]; [| done]. destruct (server_config_load _ _ _) as [r c]. destruct (negb _); [done |]. by destruct (join_path _ _ _). }
  destruct (sa_argv sa) as [| name [| arg [| x argv]]]; cbn [length Nat.ltb Nat.leb].
  - split; [by intros ?%Hrest | by intros (_ & ? & ? & ? & _)].
  - split; [by intros ?%Hrest | by intros (_ & ? & ? & ? & _)].
  - unfold strcpy. destruct (Z.ltb_spec (Z.of_nat (length arg)) PATH_MAX) as [Hlt | Hge]; cbn [mbind outcome_bind].
    + split; [intros Hu; by destruct (Hrest (Some arg) Hu) |]. intros (_ & n' & a' & [= <- <-] & Hge). lia.
    + split; [| done]. intros _. split; [by eexists |]. by exists name, arg.
  - split; [done | by intros (_ & ? & ? & ? & _)].
Qed.
End traces.

(** ** Starting with the repository's configuration, and with a broken pipe *)

Definition demo_server_answers : server_answers := {|
  sa_argv := [lit "cdd-server"]; sa_getcwd := Some (lit "/srv/cloud"); sa_fopen := one_file (server_config_print server_conf);
  sa_sigaction_ok := true; sa_mysql_connects := true; sa_mysql_ok := fun _ => true; sa_pool_ok := true;
  sa_pool_connect := fun i => (Some (Z.of_nat i), true); sa_threads_ok := true; sa_sessions_ok := true;
  sa_wheel_clock := Some {| tv_sec := 1000; tv_nsec := 0 |}; sa_wheel_ok := true; sa_pipe_ok := true; sa_timerfd_ok := true;
  sa_settime_ok := true; sa_addresses := Some [{| ba_socket := Some 3; ba_bind := true |}]; sa_listen_ok := true; sa_epoll := Some 4;
  sa_epoll_add_ok := fun _ => true |}.

(** A client connects, the timer fires, and the server is told to stop. *)
Definition demo_accepts : accept_answers := {|
  aa_accept := Some (9, {| sent := []; send_script := []; recv_script := []; buffers := 0 |}); aa_epoll_ok := true;
  aa_alloc := Some 1%N; aa_clock := Some {| tv_sec := 1001; tv_nsec := 0 |} |}.
Definition demo_turns : list server_turn :=
  [TurnInterrupted; TurnReady (fun s => s) [ReadyListen demo_accepts; ReadyTimer false] None; TurnReady (fun s => s) [ReadyPipe] None].

Definition demo_start : outcome (Z * list main_event * gset Z * list (list byte)) :=
  server_main (H := false) demo_mkdir demo_server_answers demo_turns (fun s => s) [].

Lemma server_main_releases_witness :
  exists tr clients dirs, demo_start = Ret (0, tr, clients, dirs) /\ replay worker_tables [] tr = Some [] /\ length tr = 20%nat.
Proof.
  eassert (Hrun : server_main (H := false) demo_mkdir demo_server_answers demo_turns (fun s => s) [] = Ret (0, _, _, _)) by (vm_compute; reflexivity).
  destruct (server_main_releases demo_mkdir demo_server_answers demo_turns (fun s => s) [] _ _ _ _ Hrun) as [_ [Htr | [_ Hne]]]; [| contradiction].
  eexists _, _, _. split; [exact Hrun |]. split; [exact Htr | vm_compute; reflexivity].
Defined.

(** The connection of that client is still open when [main] returns 0. *)
Example client_left_open : exists tr dirs, demo_start = Ret (0, tr, {[9]}, dirs).
Proof. eexists _, _. vm_compute. reflexivity. Qed.

Definition long_argument : server_answers := {|
  sa_argv := [lit "cdd-server"; replicate 4096 x61]; sa_getcwd := Some (lit "/srv/cloud"); sa_fopen := fun _ => None;
  sa_sigaction_ok := true; sa_mysql_connects := true; sa_mysql_ok := fun _ => true; sa_pool_ok := true;
  sa_pool_connect := fun i => (Some (Z.of_nat i), true); sa_threads_ok := true; sa_sessions_ok := true; sa_wheel_clock := None; sa_wheel_ok := true;
  sa_pipe_ok := true; sa_timerfd_ok := true; sa_settime_ok := true; sa_addresses := None; sa_listen_ok := true; sa_epoll := None;
  sa_epoll_add_ok := fun _ => true |}.

Lemma server_argument_overflow_witness : server_paths long_argument = Undef.
Proof.
  apply (server_argument_overflow long_argument). split; [by eexists |]. eexists _, _. split; [reflexivity |]. vm_compute. discriminate.
Defined.
